(* ===== verification/_CoqProject ===== *)
-Q . S2P
Prelude.v
Boost.v
Utf8.v
Wire.v
ValueAllocator.v
PacketIdManager.v
TopicAlias.v
Error.v
ErrorMessages.v
Property.v
Field.v
Packet.v
PublishPacket.v
ControlPacket.v
EntryPacket.v
ConnectPacket.v
Store.v
PacketBuilder.v
ConnectionState.v
BufferToPacket.v
ReadBounds.v
ConnectionSend.v
ConnectionRecv.v
ConnectionLogic.v
ConnectionInvariant.v
ConnectionTimers.v
ConnectionStatus.v
ConnectionProtocol.v
ConnectionBehaviour.v
ConnectionSession.v
ConnectionLimit.v
ConnectionTotal.v
ConnectionExchange.v
ConnectionExamples.v
RvConnection.v
Action.v
TopicFilter.v
SubscriptionMap.v
SubscriptionTree.v
SubscriptionHandles.v
SubscriptionSpec.v
RetainedTopicMap.v
RetainedTree.v
RetainedFind.v
RetainedSpec.v
Security.v
SecurityFilters.v
SecurityRules.v
SecuritySpec.v
SecurityComments.v
SharedTarget.v
SharedTargetSpec.v
BrokerState.v
SessionState.v
Broker.v
BrokerEndpoint.v
BrokerInvariant.v
BrokerSpec.v
SessionSpec.v
BrokerExamples.v
