(* ===== verification/Prelude.v ===== *)
(** * async_mqtt verification library

    async_mqtt is an MQTT v3.1.1 and v5 client and server library in C++.
    What it knows of the protocol is free of I/O: a class
    [basic_connection<Role, PacketIdBytes>] that takes the packets the user
    sends, the bytes the transport received and the timers that fired, and
    calls the user back with the packets to write, the packets received, the
    timers to set and the errors.  The asio_bind/ directory connects it to
    Boost.Asio.  This library models that core, from the bytes on the wire to
    the connection, and proves what makes it correct.  It also models the
    broker under src/tool/: topic filters, the maps from filters and topics to
    subscriptions and retained messages, the rules about who may publish and
    subscribe, and, on top of them, the sessions of the clients and what the
    broker does with each packet.  All paths below are under
    src/include/async_mqtt/ unless they say otherwise.

    ** The parts and their files

    - Prelude: lemmas and tactics on lists, bytes, machine integers and
      fallible results ([result]: a value, an error code, or undefined
      behaviour) that the other files share.
    - Boost: the interfaces of Boost.MultiIndex, Boost.Endian and
      Boost.PropertyTree.  They are not part of the repository and so are
      parameters: the classes [BoostMultiIndex], [BoostEndian] and
      [BoostPropertyTree] have the functions, [BoostMultiIndexOk] and
      [BoostEndianOk] what their documentation promises.  A list model, a
      big-endian one and a fixed tree show the promises can be kept, and run
      the examples.
    - Utf8: util/utf8validate.hpp.  Wire: util/variable_bytes.hpp,
      util/endian_convert.hpp, protocol/packet/impl/copy_to_static_vector.hpp.
    - ValueAllocator: util/value_allocator.hpp, the pool of free values as
      intervals.  PacketIdManager: protocol/impl/packet_id_manager.hpp, a class
      the connection is verified against, and its instance by the allocator.
    - TopicAlias: util/topic_alias_recv.hpp and topic_alias_send.hpp.
    - Error: protocol/error.hpp.  ErrorMessages: the names of the codes in
      protocol/impl/error.hpp.  Property: protocol/packet/property*.hpp and
      their impl/ files, the 27 properties.  Packet: the records of the 29
      packet classes, protocol/packet/packet_variant.hpp,
      detail/fixed_header.hpp and control_packet_type.hpp.
    - PublishPacket, ControlPacket, EntryPacket, ConnectPacket: the
      constructors, serialization and parsers of protocol/packet/impl/*.ipp,
      by the layout of the packets; Field has what they repeat.
      BufferToPacket: protocol/impl/buffer_to_packet_variant.ipp.
    - Store: protocol/impl/store.hpp and protocol/packet/store_packet_variant.hpp.
    - PacketBuilder: [recv_packet_builder] of protocol/impl/connection_impl.hpp,
      the state machine that cuts the received bytes into packets.
    - ConnectionState: the members of [basic_connection_impl], the callbacks
      ([event]) and the monad of the member functions.  ConnectionSend:
      protocol/impl/connection_send.ipp.  ConnectionRecv:
      protocol/impl/connection_impl.ipp, receiving, timers, the end of the
      connection, restoring and the setters.  RvConnection:
      protocol/rv_connection.hpp and protocol/event/, the same with the
      callbacks as a returned list.
    - The broker, src/tool/include/broker/: Action (member functions that
      throw), TopicFilter (topic_filter.hpp), SubscriptionMap
      (subscription_map.hpp), RetainedTopicMap (retained_topic_map.hpp),
      SharedTarget (shared_target.hpp, shared_target_impl.hpp), Security
      (security.hpp), BrokerState (the members of broker.hpp, session_state.hpp
      and of the messages that wait, and what is under way), SessionState
      (session_state.hpp, inflight_message.hpp, offline_message.hpp), Broker
      (broker.hpp) and BrokerEndpoint, in which the endpoints of the broker are
      the connections of ConnectionRecv.

    The other files are theorems: ReadBounds (what the parsers read),
    ConnectionLogic (reasoning about runs), ConnectionInvariant,
    ConnectionTimers, ConnectionStatus, ConnectionProtocol,
    ConnectionBehaviour, ConnectionSession, ConnectionLimit, ConnectionTotal,
    ConnectionExchange, and ConnectionExamples, which has the theorems about
    connections at concrete states.  SubscriptionTree and RetainedTree describe
    the trees in the maps of the broker, RetainedFind the search in the second
    one, SubscriptionSpec and RetainedSpec state that they are maps, and
    SharedTargetSpec that the shared targets are a queue.
    SubscriptionHandles is about the handles into the first one.
    SecurityFilters has the filters a user may subscribe to, SecurityRules what
    the maps of the rules hold, SecuritySpec what the rules decide, and
    SecurityComments the comments of the configuration file.  BrokerInvariant
    is about the subscriptions of sessions, BrokerSpec about what the broker
    promises and SessionSpec about what a session keeps; BrokerExamples has the
    theorems about them at concrete runs, and runs that go wrong.

    ** How the model corresponds to the code

    Definitions have the names of the functions they translate, and records
    those of the members.  A byte is [Byte.byte], an integer is [Z] with the
    wrap of its width written where the code can reach it; a [buffer] and a
    [static_vector<char, N>] are their bytes.  [error_code&] arguments are the
    [Err] case of [result]; what C++ leaves undefined (a read outside of the
    buffer, an optional without value) is [Undef], and reaches the top as such.

    A member function of the connection is a program: it takes the state and
    gives [Return], with the state and the callbacks made in order, [Throw] or
    [Undefined].  A failed [BOOST_ASSERT] is [Undefined].  [now] is what the
    steady clock gives, [Role] the role parameter and [pidb] the bytes of a
    packet identifier.  The callbacks do not call back into the connection.

    The broker is one record, with the sessions on a heap, for they are shared
    and destroyed: a reference is an address and a client identifier, and to
    follow one to a session that is gone is [Undefined].  The member functions
    are actions on it (Action).  An asynchronous operation is an event that
    has its completion handler as data; that it completes, that a timer fires
    and that an endpoint received a packet are inputs, in any order, and the
    handler of each runs to its end.  [sessions_] is a list in which the
    indices search; the clock and the random identifiers are parameters.

    ** What the theorems show

    - Wire formats: variable byte integers, UTF-8 strings, properties and
      packets round trip; whatever the constructors of the 29 classes build is
      read back by the parser of its type, with its exact size
      ([packet_roundtrip], but for two kinds of packets that the parsers
      refuse, see [built]), and the accessors of CONNECT give the arguments it
      was built from ([connect_arguments]).  The parsers of properties are
      sound too: they accept nothing but the encodings of well formed
      properties that are allowed ([properties_parse_sound]).
    - Containers: the allocator, the store and the topic alias tables refine a
      set, a list with unique keys and maps; the sending alias table is a
      partial injection whatever topics are put into it
      ([topic_alias_send_map]).
    - Streams: the packet builder is an abstract builder step by step, and any
      way a stream is cut gives the same packets.
    - Every reachable state of a connection is well formed
      ([connection_invariant]): identifiers in range, counters in their
      widths, components well formed.  Timer flags follow the requests made.
    - Totality: [recv] of any bytes in any reachable state returns, but for
      the two short packets that the code reads beyond the end of, as long
      as the identifiers that wait for PUBREC are in use ([recv_returns]).
    - Delivery: QoS 2 packets are delivered once until their PUBREL, the
      receive maximum is kept, and the QoS 1 and QoS 2 handshakes of two
      v3.1.1 connections, over the bytes they exchange, deliver the packet and bring
      both back to where they were ([qos1_exchange], [qos2_exchange]).
    - Calls: what is refused, sent, stored, released and reported by [send]
      ([send_v5_publish_qos12], [send_not_allowed]), [recv]
      ([acknowledgement], [malformed_packet]), [notify_closed]
      ([notify_closed_releases]) and [restore_packets]
      ([restore_packets_stored]), errors included.
    - The broker: topic filters are accepted and compared as MQTT defines them
      up to one undefined case, the two topic maps refine finite maps after any
      calls ([subscription_map_refines], [retained_topic_map_refines]), with
      the searches that miss topics stated exactly.  Sessions that share a
      filter take turns ([shared_target_takes_turns]).  The rules of a loaded
      configuration, after rules are added and removed, decide who may publish
      and who gets what is published, in the order the code has and not the
      one of broker.adoc ([security_rules_decide]); a requested
      filter is cut down to what the rules allow, for topics that do not
      begin with "$" ([get_auth_sub_topics_correct],
      [subscribe_filter_decisions]).
    - The sessions of the broker: in every state it reaches, subscriptions
      refer to sessions that are there and sessions have the handles of their
      subscriptions ([subscriptions_of_sessions]); a message is delivered to
      exactly the subscriptions it is for, and once for each share name and
      filter that is shared ([published_to_matching_subscriptions]), and to none when its publisher is
      not authorized ([publish_refused]); SUBSCRIBE and UNSUBSCRIBE are answered
      and do what they say, for a session that is alone with its client
      identifier ([subscribe_answered], [unsubscribe_answered]); a
      session starts clean with nothing of the old one ([session_renewed]), or
      is resumed with its messages sent again in order ([session_resumed],
      [offline_messages_in_order]).
    - Divergences: theorems that state what the code does where that is not
      what it means to do, such as [allocate_wraps_at_32_bits],
      [resumed_publish_not_counted], [zero_id_overruns] and
      [dollar_rule_ignored], and runs
      of the broker at the end of BrokerExamples, such as
      [two_users_one_client_id] and [resumed_session_expires].

    ** Bounds and fuel

    The loops of the code are structural recursions where they consume a
    list; a variable byte integer is written in four digits at most, which
    are all it has below 2^28.  The parsers of properties and of entries take the number of bytes left as
    fuel and consume one or more at each turn.  The packet builder itself has
    no loop; [recv_all], which calls it until the stream is empty, takes the
    length of the stream, and each call consumes a byte.  No theorem assumes
    that fuel is enough: the round trips, the equivalence of the packet
    builder with its specification and the totality of [recv] prove it.
    In the broker the tokenizer and the loops of validation and comparison
    take the length of the string, the walk from a node of the subscription
    map to the root the number of nodes, and the rounds of the search below a
    hash the number of entries plus one.  The theorems about call sequences
    bound the number of levels the calls name by 2^62, so that node numbers
    and counters do not wrap.
    [pidb] is between 1 and 4; the code is instantiated with 2 and 4.

    ** Not modelled

    The asio_bind/ directory (asynchronous operations over Boost.Asio, TLS and
    WebSocket streams) and its C++20 and future front ends: it is I/O and
    scheduling of a library that is not part of the repository.  The broker
    calls of it what the class [Endpoint] has.  The command line programs under
    src/tool/.  In the broker: mutexes, for handlers run one after the other;
    the callbacks and the delay for tests; the order Boost.MultiIndex keeps for
    a key that is changed in place; packets an endpoint sends by itself.
    Sharing of [buffer] memory, logging, comparison operators and the formats
    of output operators. *)
From Stdlib Require Export ZArith Lia Strings.Byte.
From Stdlib Require Export Sorting.Sorted.
From stdpp Require Export base list gmap sets.

#[global] Open Scope Z_scope.
#[global] Set Default Goal Selector "!".

(** ** Bytes

    A C++ [char] or [std::uint8_t] is a [Byte.byte]; [u8] is its value as
    an unsigned integer and [to_byte] the conversion of an integer to
    [std::uint8_t], which keeps the low eight bits. *)

Definition u8 (b : byte) : Z := Z.of_N (Byte.to_N b).

Definition to_byte (z : Z) : byte :=
  match Byte.of_N (Z.to_N (z mod 256)) with
  | Some b => b
  | None => x00
  end.

#[export] Instance byte_eq_decision : EqDecision byte := Byte.byte_eq_dec.

Lemma u8_range b : 0 <= u8 b < 256.
Proof. unfold u8. pose proof (Byte.to_N_bounded b). lia. Qed.

Lemma to_byte_u8 b : to_byte (u8 b) = b.
Proof.
  unfold to_byte. rewrite Z.mod_small by apply u8_range.
  unfold u8. rewrite N2Z.id, Byte.of_to_N. reflexivity.
Qed.

Lemma u8_to_byte z : u8 (to_byte z) = z mod 256.
Proof.
  unfold to_byte, u8. pose proof (Z.mod_pos_bound z 256 eq_refl) as Hb.
  destruct (Byte.of_N _) as [b|] eqn:E.
  - apply Byte.to_of_N in E. rewrite E. lia.
  - apply Byte.of_N_None_iff in E. lia.
Qed.

Lemma u8_inj a b : u8 a = u8 b -> a = b.
Proof. intros H. rewrite <- (to_byte_u8 a), <- (to_byte_u8 b), H. reflexivity. Qed.

#[export] Instance byte_countable : Countable byte.
Proof. refine (inj_countable' u8 to_byte to_byte_u8). Defined.

Lemma u8_to_byte_small z : 0 <= z < 256 -> u8 (to_byte z) = z.
Proof. intros. rewrite u8_to_byte. apply Z.mod_small. lia. Qed.

(** Facts about one byte are decided by trying the 256 values. *)
Definition all_bytes : list byte := map (fun n => to_byte (Z.of_nat n)) (seq 0 256).

Lemma in_all_bytes b : In b all_bytes.
Proof.
  unfold all_bytes. apply in_map_iff. exists (Z.to_nat (u8 b)).
  pose proof (u8_range b). rewrite Z2Nat.id by lia.
  split; [apply to_byte_u8 | apply in_seq; lia].
Qed.

Lemma forall_bytes (P : byte -> bool) : forallb P all_bytes = true -> forall b, P b = true.
Proof. intros H b. rewrite forallb_forall in H. apply H, in_all_bytes. Qed.

(** ** Big-endian integers *)

Fixpoint be_bytes (n : nat) (v : Z) : list byte :=
  match n with
  | O => []
  | S n' => be_bytes n' (v / 256) ++ [to_byte v]
  end.

Definition be_val (bs : list byte) : Z := fold_left (fun acc b => acc * 256 + u8 b) bs 0.

Lemma length_be_bytes n v : length (be_bytes n v) = n.
Proof.
  revert v; induction n as [|n IH]; intros v; simpl; [done|].
  rewrite length_app, IH. simpl. lia.
Qed.

Lemma be_val_snoc bs b : be_val (bs ++ [b]) = be_val bs * 256 + u8 b.
Proof. unfold be_val. rewrite fold_left_app. reflexivity. Qed.

Lemma be_val_bytes n v : 0 <= v < 256 ^ Z.of_nat n -> be_val (be_bytes n v) = v.
Proof.
  revert v; induction n as [|n IH]; intros v Hv; simpl be_bytes.
  - change (256 ^ Z.of_nat 0) with 1 in Hv. cbn. lia.
  - rewrite Nat2Z.inj_succ, Z.pow_succ_r in Hv by lia.
    rewrite be_val_snoc, IH, u8_to_byte by (split; [apply Z.div_pos; lia | apply Z.div_lt_upper_bound; lia]).
    pose proof (Z.div_mod v 256). lia.
Qed.

Lemma be_val_bound bs : 0 <= be_val bs < 256 ^ Z.of_nat (length bs).
Proof.
  induction bs as [|b bs IH] using rev_ind; [cbn; lia|].
  rewrite be_val_snoc, length_app, Nat2Z.inj_add, Z.pow_add_r by lia.
  pose proof (u8_range b). change (256 ^ Z.of_nat (length [b])) with 256. nia.
Qed.

Lemma be_bytes_val bs : be_bytes (length bs) (be_val bs) = bs.
Proof.
  induction bs as [|b bs IH] using rev_ind; [done|].
  rewrite length_app, Nat.add_comm. simpl be_bytes. rewrite be_val_snoc.
  pose proof (u8_range b).
  rewrite Z.div_add_l, Z.div_small, Z.add_0_r, IH by lia.
  f_equal. f_equal. apply u8_inj. rewrite u8_to_byte.
  rewrite Z.add_comm, Z.mod_add, Z.mod_small by lia. done.
Qed.

#[global] Arguments be_bytes : simpl never.

(** ** Keyed lists

    The lookups of the containers are [List.find] with a test on a key that
    at most one element satisfies. *)
Section find.
Context {A : Type}.
Implicit Types (p : A -> bool) (l : list A).

(** at most one element of [l] satisfies [p] *)
Definition unique_for p l : Prop := forall x y, x ∈ l -> y ∈ l -> p x = true -> p y = true -> x = y.

Lemma find_Some_iff p l x : unique_for p l -> List.find p l = Some x <-> x ∈ l /\ p x = true.
Proof.
  intros Hu. split.
  - intros Hf. apply find_some in Hf as [? ?]. by rewrite list_elem_of_In.
  - intros [Hx Hp]. destruct (List.find p l) as [y|] eqn:Hf.
    + apply find_some in Hf as [Hy Hpy]. rewrite <- list_elem_of_In in Hy. f_equal. by apply Hu.
    + apply list_elem_of_In in Hx. pose proof (find_none _ _ Hf x Hx). congruence.
Qed.

Lemma find_None_iff p l : List.find p l = None <-> forall x, x ∈ l -> p x = false.
Proof.
  split.
  - intros Hf x Hx. apply list_elem_of_In in Hx. by apply (find_none _ _ Hf).
  - intros Hn. destruct (List.find p l) as [x|] eqn:Hf; [|done].
    apply find_some in Hf as [Hx Hp]. apply list_elem_of_In, Hn in Hx. congruence.
Qed.

Lemma unique_for_perm p l1 l2 : l1 ≡ₚ l2 -> unique_for p l1 -> unique_for p l2.
Proof. intros Hp Hu x y. rewrite <- Hp. apply Hu. Qed.

(** The result of a lookup depends on the elements only, not on their order. *)
Lemma find_perm p l1 l2 : l1 ≡ₚ l2 -> unique_for p l1 -> List.find p l1 = List.find p l2.
Proof.
  intros Hp Hu. destruct (List.find p l2) as [x|] eqn:Hf.
  - apply find_Some_iff; [done|]. rewrite Hp. apply find_Some_iff; [by eapply unique_for_perm | done].
  - apply find_None_iff. intros x. rewrite Hp. by apply find_None_iff.
Qed.

Lemma find_cons p x l : List.find p (x :: l) = if p x then Some x else List.find p l.
Proof. reflexivity. Qed.

(** distinct keys make every key test unique *)
Lemma unique_key {K} (key : A -> K) p l :
  NoDup (map key l) -> (forall x y, p x = true -> p y = true -> key x = key y) -> unique_for p l.
Proof.
  intros Hd Hk x y Hx Hy Hpx Hpy. apply list_elem_of_lookup in Hx as [i Hi], Hy as [j Hj].
  assert (i = j); [|by simplify_eq].
  apply (NoDup_lookup (map key l) i j (key x)); [done | by rewrite list_lookup_fmap, Hi |].
  rewrite list_lookup_fmap, Hj. simpl. f_equal. symmetry. by apply Hk.
Qed.
End find.

Lemma NoDup_map_NoDup {A K} (key : A -> K) (l : list A) : NoDup (map key l) -> NoDup l.
Proof. apply NoDup_fmap_1. Qed.

#[export] Instance map_Permutation {A B} (f : A -> B) : Proper (Permutation ==> Permutation) (map f).
Proof. intros l1 l2. apply Permutation_map. Qed.

(** [std::string::operator<]: lexicographic on unsigned bytes. *)
Fixpoint bytes_lt (a b : list byte) : bool :=
  match a, b with
  | _, [] => false
  | [], _ :: _ => true
  | x :: a', y :: b' => (u8 x <? u8 y) || ((u8 x =? u8 y) && bytes_lt a' b')
  end.
