(* ===== verification/Boost.v ===== *)
(** * Interfaces of the Boost libraries the code calls

    Boost.MultiIndex containers, Boost.Endian conversions and
    Boost.PropertyTree are not part of the repository, so they are parameters
    of the model: an operational class (what can be called) and, where a
    theorem needs them, a class of laws (what the Boost documentation
    promises).  Every component that uses them is written against the
    classes; the instances at the end of the file show that the laws are
    satisfiable and make the model executable. *)
From S2P Require Import Prelude.

(** ** Boost.MultiIndex

    A container has elements of type [E] and a list of indices.  The
    observable content of index [k] is the sequence [mi_range k c] from
    [get<k>().begin()] to [get<k>().end()].  [mi_emplace] is [emplace],
    [emplace_back] and [emplace_hint]: it reports whether the insertion took
    place.  [mi_erase] and [mi_modify] act on the element an iterator points
    to, which is given by its value; [mi_modify x y] is
    [modify(it, fun)] where [fun] turns [x] into [y] and no rollback restores
    the element. *)
Inductive index (E : Type) : Type :=
| sequenced
| hashed_unique (eqb : E -> E -> bool)
| ordered_unique (lt : E -> E -> bool)
| ordered_non_unique (lt : E -> E -> bool).
Arguments sequenced {E}.
Arguments hashed_unique {E} eqb.
Arguments ordered_unique {E} lt.
Arguments ordered_non_unique {E} lt.

Class BoostMultiIndex : Type := {
  mi : forall {E : Type}, list (index E) -> Type;
  mi_empty : forall {E : Type} {ix : list (index E)}, mi ix;
  mi_range : forall {E : Type} {ix : list (index E)}, nat -> mi ix -> list E;
  mi_emplace : forall {E : Type} {ix : list (index E)}, E -> mi ix -> mi ix * bool;
  mi_erase : forall {E : Type} {HE : EqDecision E} {ix : list (index E)}, E -> mi ix -> mi ix;
  mi_modify : forall {E : Type} {HE : EqDecision E} {ix : list (index E)}, E -> E -> mi ix -> mi ix;
}.

(** Two elements are equivalent in an ordered index when neither precedes the
    other; a unique index refuses a second equivalent element. *)
Definition equiv_by {E} (lt : E -> E -> bool) (x y : E) : bool :=
  negb (lt x y) && negb (lt y x).

Definition conflicts {E} (ix : list (index E)) (x y : E) : bool :=
  existsb (fun i => match i with ordered_unique lt => equiv_by lt x y | hashed_unique eqb => eqb x y | _ => false end) ix.

(** The part of "strict weak ordering" that placing one element needs. *)
Definition asymmetric {E} (lt : E -> E -> bool) : Prop := forall a b, lt a b = true -> lt b a = false.

Definition index_order {E} (i : index E) : option (E -> E -> bool) :=
  match i with
  | sequenced | hashed_unique _ => None
  | ordered_unique lt | ordered_non_unique lt => Some lt
  end.

(** The order of a hashed index is not specified. *)
Definition keeps_order {E} (ix : list (index E)) (k : nat) : bool :=
  match ix !! k with Some (hashed_unique _) | None => false | Some _ => true end.

(** [splits lt x l1 l2]: [x] belongs strictly between [l1] and [l2]. *)
Definition splits {E} (lt : E -> E -> bool) (x : E) (l1 l2 : list E) : Prop :=
  Forall (fun a => lt a x = true) l1 /\ Forall (fun b => lt x b = true) l2.

Class BoostMultiIndexOk {BMI : BoostMultiIndex} : Type := {
  (** every container built by the operations *)
  mi_ok : forall {E : Type} {ix : list (index E)}, mi ix -> Prop;
  mi_ok_empty : forall {E} {ix : list (index E)}, mi_ok (mi_empty (ix := ix));
  mi_range_empty : forall {E} {ix : list (index E)} k, mi_range k (mi_empty (ix := ix)) = [];
  (** all indices of a container hold the same elements *)
  mi_range_perm : forall {E} {ix : list (index E)} (c : mi ix) j k,
    mi_ok c -> (j < length ix)%nat -> (k < length ix)%nat -> mi_range j c ≡ₚ mi_range k c;
  (** an ordered index is sorted *)
  mi_range_sorted : forall {E} {ix : list (index E)} (c : mi ix) k i lt,
    mi_ok c -> ix !! k = Some i -> index_order i = Some lt ->
    (forall a b d, lt b a = false -> lt d b = false -> lt d a = false) -> asymmetric lt ->
    StronglySorted (fun a b => lt b a = false) (mi_range k c);
  (** a conflicting insertion does nothing *)
  mi_emplace_fail : forall {E} {ix : list (index E)} (c : mi ix) x y,
    mi_ok c -> y ∈ mi_range 0 c -> conflicts ix x y = true -> mi_emplace x c = (c, false);
  (** any other insertion takes place, in every index *)
  mi_emplace_done : forall {E} {ix : list (index E)} (c : mi ix) x,
    mi_ok c -> (forall y, y ∈ mi_range 0 c -> conflicts ix x y = false) ->
    snd (mi_emplace x c) = true /\ mi_ok (fst (mi_emplace x c)) /\
    (ix !! 0%nat = Some sequenced -> mi_range 0 (fst (mi_emplace x c)) = mi_range 0 c ++ [x]) /\
    (forall k lt l1 l2, ix !! k = Some (ordered_unique lt) -> asymmetric lt ->
       mi_range k c = l1 ++ l2 -> splits lt x l1 l2 ->
       mi_range k (fst (mi_emplace x c)) = l1 ++ x :: l2) /\
    (ix <> [] -> mi_range 0 (fst (mi_emplace x c)) ≡ₚ x :: mi_range 0 c);
  (** erasing the element at an iterator keeps the others in order *)
  mi_erase_spec : forall {E} {HE : EqDecision E} {ix : list (index E)} (c : mi ix) x,
    mi_ok c -> x ∈ mi_range 0 c -> NoDup (mi_range 0 c) -> ix <> [] ->
    mi_ok (mi_erase x c) /\
    (forall k l1 l2, keeps_order ix k = true -> mi_range k c = l1 ++ x :: l2 -> mi_range k (mi_erase x c) = l1 ++ l2) /\
    (forall l1 l2, mi_range 0 c = l1 ++ x :: l2 -> mi_range 0 (mi_erase x c) ≡ₚ l1 ++ l2);
  (** a modification without conflict replaces the element and repositions it *)
  mi_modify_done : forall {E} {HE : EqDecision E} {ix : list (index E)} (c : mi ix) x y l1 l2,
    mi_ok c -> NoDup (mi_range 0 c) -> mi_range 0 c = l1 ++ x :: l2 ->
    (forall z, z ∈ l1 ++ l2 -> conflicts ix y z = false) ->
    mi_ok (mi_modify x y c) /\
    (ix !! 0%nat = Some sequenced -> mi_range 0 (mi_modify x y c) = l1 ++ y :: l2) /\
    (forall k lt k1 k2 m1 m2, ix !! k = Some (ordered_unique lt) -> asymmetric lt ->
       mi_range k c = k1 ++ x :: k2 -> k1 ++ k2 = m1 ++ m2 -> splits lt y m1 m2 ->
       mi_range k (mi_modify x y c) = m1 ++ y :: m2) /\
    (ix <> [] -> mi_range 0 (mi_modify x y c) ≡ₚ y :: l1 ++ l2);
  (** a modification that collides in a unique index removes the element *)
  mi_modify_collision : forall {E} {HE : EqDecision E} {ix : list (index E)} (c : mi ix) x y z l1 l2,
    mi_ok c -> NoDup (mi_range 0 c) -> mi_range 0 c = l1 ++ x :: l2 ->
    z ∈ l1 ++ l2 -> conflicts ix y z = true -> keeps_order ix 0 = true ->
    mi_ok (mi_modify x y c) /\ mi_range 0 (mi_modify x y c) = l1 ++ l2;
}.

(** ** Boost.Endian

    [boost::endian::endian_load<T, N, order::big>] and
    [boost::endian::endian_store<T, N, order::big>]. *)
Class BoostEndian : Type := {
  boost_endian_load : nat -> list byte -> Z;
  boost_endian_store : nat -> Z -> list byte;
}.

Class BoostEndianOk {BE : BoostEndian} : Prop := {
  boost_endian_load_spec : forall n bs, length bs = n -> boost_endian_load n bs = be_val bs;
  (** the result has an unsigned type of [n] bytes *)
  boost_endian_load_range : forall n bs, 0 <= boost_endian_load n bs < 256 ^ Z.of_nat n;
  boost_endian_store_spec : forall n v, 0 <= v < 256 ^ Z.of_nat n -> boost_endian_store n v = be_bytes n v;
}.

(** ** Boost.PropertyTree

    What reading a configuration uses: the parser, which throws ([None]) on
    text that is no JSON, [get_child_optional] with a path of one key, the
    subtrees in order and the data of a node as a string. *)
Class BoostPropertyTree : Type := {
  ptree : Type;
  read_json : list byte -> option ptree;
  get_child_optional : list byte -> ptree -> option ptree;
  children : ptree -> list ptree;
  get_value : ptree -> list byte;
}.

(** ** Instances *)

(** A property tree as data: [read_json] gives the tree, for any text. *)
Inductive property_tree := tree_node (data : list byte) (subtrees : list (list byte * property_tree)).

Definition fixed_tree (t : property_tree) : BoostPropertyTree := {|
  ptree := property_tree;
  read_json _ := Some t;
  get_child_optional k '(tree_node _ subtrees) := snd <$> List.find (fun e => bool_decide (fst e = k)) subtrees;
  children '(tree_node _ subtrees) := map snd subtrees;
  get_value '(tree_node data _) := data;
|}.

Section place.
Context {E : Type}.

(** the position of a new element in an index *)
Fixpoint place_ordered (lt : E -> E -> bool) (x : E) (l : list E) : list E :=
  match l with
  | [] => [x]
  | e :: l' => if lt x e then x :: l else e :: place_ordered lt x l'
  end.

Definition place (i : index E) (x : E) (l : list E) : list E :=
  match i with
  | sequenced | hashed_unique _ => l ++ [x]
  | ordered_unique lt | ordered_non_unique lt => place_ordered lt x l
  end.

Lemma place_ordered_perm lt x l : place_ordered lt x l ≡ₚ x :: l.
Proof.
  induction l as [|e l IH]; simpl; [done|].
  destruct (lt x e); [done|]. rewrite IH. apply Permutation_swap.
Qed.

Lemma place_perm i x l : place i x l ≡ₚ x :: l.
Proof.
  destruct i; simpl; [by rewrite Permutation_app_comm | by rewrite Permutation_app_comm | apply place_ordered_perm..].
Qed.

Lemma place_ordered_splits lt x l1 l2 :
  asymmetric lt -> splits lt x l1 l2 -> place_ordered lt x (l1 ++ l2) = l1 ++ x :: l2.
Proof.
  intros Ha [H1 H2]. induction H1 as [|e l1 He H1 IH]; simpl.
  - destruct H2 as [|b l2 Hb H2]; simpl; [done|]. rewrite Hb. done.
  - rewrite (Ha _ _ He), IH. done.
Qed.

Lemma place_ordered_sorted lt x l :
  (forall a b d, lt b a = false -> lt d b = false -> lt d a = false) -> asymmetric lt ->
  StronglySorted (fun a b => lt b a = false) l ->
  StronglySorted (fun a b => lt b a = false) (place_ordered lt x l).
Proof.
  intros Ht Ha Hs. induction Hs as [|e l Hs IH Hl]; simpl; [repeat constructor|].
  destruct (lt x e) eqn:Hx.
  - constructor; [by constructor|]. constructor; [by apply Ha|].
    eapply Forall_impl; [apply Hl|]. intros d Hd; simpl in *. eapply Ht; [|apply Hd]. by apply Ha.
  - constructor; [done|]. rewrite place_ordered_perm. constructor; done.
Qed.
End place.

Section remove.
Context {E : Type} {HE : EqDecision E}.

Fixpoint remove_one (x : E) (l : list E) : list E :=
  match l with
  | [] => []
  | e :: l' => if decide (x = e) then l' else e :: remove_one x l'
  end.

Lemma remove_one_app x l1 l2 : x ∉ l1 -> remove_one x (l1 ++ x :: l2) = l1 ++ l2.
Proof.
  induction l1 as [|e l1 IH]; simpl; intros Hx; [by rewrite decide_True|].
  apply not_elem_of_cons in Hx as [? ?]. rewrite decide_False, IH by done. done.
Qed.

Lemma remove_one_perm x l : x ∈ l -> x :: remove_one x l ≡ₚ l.
Proof.
  induction l as [|e l IH]; simpl; intros Hx; [by apply not_elem_of_nil in Hx|].
  apply elem_of_cons in Hx as [->|Hx]; [by rewrite decide_True|].
  case_decide; [by subst|]. rewrite Permutation_swap, IH by done. done.
Qed.

Lemma remove_one_sublist x l : remove_one x l `sublist_of` l.
Proof.
  induction l as [|e l IH]; simpl; [done|]. case_decide; [by apply sublist_cons | by apply sublist_skip].
Qed.
End remove.

Lemma StronglySorted_sublist {E} (R : E -> E -> Prop) l1 l2 :
  l1 `sublist_of` l2 -> StronglySorted R l2 -> StronglySorted R l1.
Proof.
  intros Hsub. induction Hsub as [|x l1 l2 Hsub IH|x l1 l2 Hsub IH]; intros Hs; [done|..];
    apply StronglySorted_inv in Hs as [Hs Hx]; [|by auto].
  constructor; [by auto|]. rewrite Forall_forall in Hx |- *. intros z Hz. apply Hx.
  eapply elem_of_submseteq; [apply Hz|]. by apply sublist_submseteq.
Qed.

(** The list instance keeps one sequence per index. *)
Module ListMultiIndex.
Definition range {E} (k : nat) (c : list (list E)) : list E := default [] (c !! k).

Definition emplace {E} (ix : list (index E)) (x : E) (c : list (list E)) : list (list E) * bool :=
  if existsb (conflicts ix x) (range 0 c) then (c, false)
  else (zip_with (fun i l => place i x l) ix c, true).

Fixpoint replace_one {E} {HE : EqDecision E} (x y : E) (l : list E) : list E :=
  match l with
  | [] => []
  | e :: l' => if decide (x = e) then y :: l' else e :: replace_one x y l'
  end.

Definition reposition {E} {HE : EqDecision E} (x y : E) (i : index E) (l : list E) : list E :=
  match i with
  | sequenced => replace_one x y l
  | _ => place i y (remove_one x l)
  end.

Definition modify {E} {HE : EqDecision E} (ix : list (index E)) (x y : E) (c : list (list E)) : list (list E) :=
  let rest := map (remove_one x) c in
  if existsb (conflicts ix y) (range 0 rest) then rest else zip_with (reposition x y) ix c.

Definition ok {E} (ix : list (index E)) (c : list (list E)) : Prop :=
  length c = length ix /\
  (forall j k lj lk, c !! j = Some lj -> c !! k = Some lk -> lj ≡ₚ lk) /\
  (forall k i lt l, ix !! k = Some i -> index_order i = Some lt -> c !! k = Some l ->
     (forall a b d, lt b a = false -> lt d b = false -> lt d a = false) -> asymmetric lt ->
     StronglySorted (fun a b => lt b a = false) l).

#[export] Instance list_multi_index : BoostMultiIndex := {
  mi E ix := list (list E);
  mi_empty E ix := replicate (length ix) [];
  mi_range E ix := range;
  mi_emplace E ix := emplace ix;
  mi_erase E HE ix x c := map (remove_one x) c;
  mi_modify E HE ix := modify ix;
}.

Section facts.
Context {E : Type} {HE : EqDecision E} (ix : list (index E)).
Implicit Types c : list (list E).

Lemma range_map (f : list E -> list E) k c : f [] = [] -> range k (map f c) = f (range k c).
Proof. intros Hf. unfold range. rewrite list_lookup_fmap. by destruct (c !! k). Qed.

Lemma range_zip (f : index E -> list E -> list E) k i c :
  length c = length ix -> ix !! k = Some i -> range k (zip_with f ix c) = f i (range k c).
Proof.
  intros Hl Hk. unfold range. rewrite lookup_zip_with, Hk. simpl.
  destruct (c !! k) as [l|] eqn:Hc; [done|].
  apply lookup_ge_None in Hc. apply lookup_lt_Some in Hk. lia.
Qed.

Lemma range_0_zip (f : index E -> list E -> list E) c :
  length c = length ix -> ix <> [] -> exists i, ix !! 0%nat = Some i /\ range 0 (zip_with f ix c) = f i (range 0 c).
Proof.
  intros Hl Hix. destruct ix as [|i ix'] eqn:Hi; [done|]. exists i. split; [done|].
  rewrite <- Hi in *. apply range_zip; [done|]. by rewrite Hi.
Qed.

Lemma range_lookup k c l : c !! k = Some l -> range k c = l.
Proof. unfold range. by intros ->. Qed.

Lemma ok_range_perm c j k :
  ok ix c -> (j < length ix)%nat -> (k < length ix)%nat -> range j c ≡ₚ range k c.
Proof.
  intros (Hl & Hp & _) Hj Hk. rewrite <- Hl in Hj, Hk.
  apply lookup_lt_is_Some in Hj as [lj Hj]. apply lookup_lt_is_Some in Hk as [lk Hk].
  unfold range. rewrite Hj, Hk. simpl. eauto.
Qed.

Lemma replace_one_perm (x y : E) l : x ∈ l -> replace_one x y l ≡ₚ y :: remove_one x l.
Proof.
  induction l as [|e l IH]; simpl; intros Hx; [by apply not_elem_of_nil in Hx|].
  case_decide; [done|]. apply elem_of_cons in Hx as [->|Hx]; [done|].
  rewrite IH by done. apply Permutation_swap.
Qed.

Lemma replace_one_app (x y : E) l1 l2 : x ∉ l1 -> replace_one x y (l1 ++ x :: l2) = l1 ++ y :: l2.
Proof.
  induction l1 as [|e l1 IH]; simpl; intros Hx; [by rewrite decide_True|].
  apply not_elem_of_cons in Hx as [? ?]. rewrite decide_False, IH by done. done.
Qed.

Lemma reposition_perm (x y : E) i l : x ∈ l -> reposition x y i l ≡ₚ y :: remove_one x l.
Proof. destruct i; simpl; intros Hx; [by apply replace_one_perm | by rewrite Permutation_app_comm | apply place_ordered_perm..]. Qed.

Lemma remove_one_proper x (l1 l2 : list E) : x ∈ l1 -> l1 ≡ₚ l2 -> remove_one x l1 ≡ₚ remove_one x l2.
Proof.
  intros Hx Hl. apply (Permutation_cons_inv (a := x)).
  rewrite !remove_one_perm; [done | by rewrite <- Hl | done].
Qed.

Lemma NoDup_middle (x : E) (l1 l2 : list E) : NoDup (l1 ++ x :: l2) -> (x ∉ l1) /\ (x ∉ l2).
Proof.
  intros Hd. apply NoDup_app in Hd as (_ & Hd & Hn). apply NoDup_cons in Hn as [Hn _].
  split; [|done]. intros Hx. apply (Hd x Hx). set_solver.
Qed.

Lemma existsb_conflict_false x l :
  (forall y, y ∈ l -> conflicts ix x y = false) -> existsb (conflicts ix x) l = false.
Proof.
  intros H. apply Bool.not_true_iff_false. rewrite existsb_exists.
  intros (y & Hy & Hc). apply list_elem_of_In in Hy. rewrite (H y Hy) in Hc. done.
Qed.

Lemma existsb_conflict_true x y l : y ∈ l -> conflicts ix x y = true -> existsb (conflicts ix x) l = true.
Proof. intros Hy Hc. apply existsb_exists. exists y. by rewrite <- list_elem_of_In. Qed.

Lemma ok_zip c (f : index E -> list E -> list E) l0 :
  ok ix c -> (forall i k l, ix !! k = Some i -> c !! k = Some l -> f i l ≡ₚ l0) ->
  (forall i lt l, index_order i = Some lt ->
     (forall a b d, lt b a = false -> lt d b = false -> lt d a = false) -> asymmetric lt ->
     StronglySorted (fun a b => lt b a = false) l ->
     StronglySorted (fun a b => lt b a = false) (f i l)) ->
  ok ix (zip_with f ix c).
Proof.
  intros (Hl & Hp & Hs) Hf Hsf. split_and!.
  - rewrite length_zip_with. lia.
  - intros j k lj lk Hj Hk. rewrite lookup_zip_with_Some in Hj, Hk.
    destruct Hj as (i & l & -> & ? & ?), Hk as (i' & l' & -> & ? & ?).
    rewrite (Hf i j l), (Hf i' k l') by done. done.
  - intros k i lt l Hk Hi Hc Ht Ha. rewrite lookup_zip_with_Some in Hc.
    destruct Hc as (i' & l' & -> & ? & Hc). simplify_eq. eauto.
Qed.

Lemma ok_map_remove c x : ok ix c -> x ∈ range 0 c -> ix <> [] -> ok ix (map (remove_one x) c).
Proof.
  intros Hok Hx Hix. pose proof Hok as (Hl & Hp & Hs).
  assert (Hin : forall k l, c !! k = Some l -> x ∈ l).
  { intros k l Hk. assert ((k < length ix)%nat) by (apply lookup_lt_Some in Hk; lia).
    assert ((0 < length ix)%nat) by (destruct ix; simpl; [done | lia]).
    rewrite <- (range_lookup k c l Hk). rewrite (ok_range_perm c k 0); done. }
  split_and!.
  - by rewrite length_map.
  - intros j k lj lk Hj Hk. rewrite list_lookup_fmap in Hj, Hk.
    apply fmap_Some in Hj as (l & Hj & ->), Hk as (l' & Hk & ->).
    apply remove_one_proper; eauto.
  - intros k i lt l Hk Hi Hc Ht Ha. rewrite list_lookup_fmap in Hc. apply fmap_Some in Hc as (l' & Hc & ->).
    eapply StronglySorted_sublist; [apply remove_one_sublist | eauto].
Qed.

Lemma ok_empty : ok ix (replicate (length ix) []).
Proof.
  split_and!; [apply length_replicate|..].
  - intros j k lj lk Hj Hk. apply lookup_replicate in Hj as [-> _], Hk as [-> _]. done.
  - intros k i lt l _ _ Hc. apply lookup_replicate in Hc as [-> _]. constructor.
Qed.

Lemma range_empty k : range k (replicate (length ix) []) = ([] : list E).
Proof.
  unfold range. destruct (replicate _ _ !! k) as [l|] eqn:Hk; [|done].
  by apply lookup_replicate in Hk as [-> _].
Qed.

Lemma ok_lookup_perm c k l : ok ix c -> c !! k = Some l -> l ≡ₚ range 0 c.
Proof.
  intros Hok Hk. assert ((k < length ix)%nat) by (apply lookup_lt_Some in Hk; destruct Hok; lia).
  assert ((0 < length ix)%nat) by (destruct ix; simpl in *; lia).
  rewrite <- (range_lookup k c l Hk). by apply ok_range_perm.
Qed.

Lemma emplace_done c x :
  ok ix c -> (forall y, y ∈ range 0 c -> conflicts ix x y = false) ->
  snd (emplace ix x c) = true /\ ok ix (fst (emplace ix x c)) /\
  (ix !! 0%nat = Some sequenced -> range 0 (fst (emplace ix x c)) = range 0 c ++ [x]) /\
  (forall k lt l1 l2, ix !! k = Some (ordered_unique lt) -> asymmetric lt ->
     range k c = l1 ++ l2 -> splits lt x l1 l2 -> range k (fst (emplace ix x c)) = l1 ++ x :: l2) /\
  (ix <> [] -> range 0 (fst (emplace ix x c)) ≡ₚ x :: range 0 c).
Proof.
  intros Hok Hc. unfold emplace. rewrite existsb_conflict_false by done. simpl.
  pose proof Hok as (Hl & _). split_and!; [done|..].
  - apply (ok_zip c _ (x :: range 0 c)); [done|..].
    + intros i k l Hi Hk. rewrite place_perm. by rewrite (ok_lookup_perm c k l).
    + intros i lt l Hi Ht Ha Hs. destruct i; simplify_eq/=; by apply place_ordered_sorted.
  - intros Hi. by rewrite (range_zip _ 0 sequenced).
  - intros k lt l1 l2 Hk Ha Hr Hs. rewrite (range_zip _ k (ordered_unique lt)) by done.
    rewrite Hr. by apply place_ordered_splits.
  - intros Hix. destruct (range_0_zip (fun i l => place i x l) c Hl Hix) as (i & _ & ->).
    apply place_perm.
Qed.

Lemma modify_rest c x l1 l2 :
  NoDup (range 0 c) -> range 0 c = l1 ++ x :: l2 -> range 0 (map (remove_one x) c) = l1 ++ l2.
Proof.
  intros Hd Hr. rewrite (range_map (remove_one x)) by reflexivity. rewrite Hr in Hd |- *.
  apply remove_one_app. by apply NoDup_middle in Hd as [? _].
Qed.

Lemma modify_done c x y l1 l2 :
  ok ix c -> NoDup (range 0 c) -> range 0 c = l1 ++ x :: l2 ->
  (forall z, z ∈ l1 ++ l2 -> conflicts ix y z = false) ->
  ok ix (modify ix x y c) /\
  (ix !! 0%nat = Some sequenced -> range 0 (modify ix x y c) = l1 ++ y :: l2) /\
  (forall k lt k1 k2 m1 m2, ix !! k = Some (ordered_unique lt) -> asymmetric lt ->
     range k c = k1 ++ x :: k2 -> k1 ++ k2 = m1 ++ m2 -> splits lt y m1 m2 ->
     range k (modify ix x y c) = m1 ++ y :: m2) /\
  (ix <> [] -> range 0 (modify ix x y c) ≡ₚ y :: l1 ++ l2).
Proof.
  intros Hok Hd Hr Hc. unfold modify.
  rewrite (modify_rest c x l1 l2), existsb_conflict_false by done.
  pose proof Hok as (Hl & _).
  assert (Hx1 : x ∉ l1) by (rewrite Hr in Hd; by apply NoDup_middle in Hd as [? _]).
  split_and!.
  - apply (ok_zip c _ (y :: l1 ++ l2)); [done|..].
    + intros i k l Hi Hk. pose proof (ok_lookup_perm c k l Hok Hk) as Hp. rewrite Hr in Hp.
      assert (x ∈ l) by (rewrite Hp; set_solver).
      rewrite reposition_perm by done. constructor.
      rewrite (remove_one_proper x l (l1 ++ x :: l2)) by done. by rewrite remove_one_app.
    + intros i lt l Hi Ht Ha Hs. destruct i; simplify_eq/=; apply place_ordered_sorted; try done.
      all: eapply StronglySorted_sublist; [apply remove_one_sublist | done].
  - intros Hi. rewrite (range_zip _ 0 sequenced), Hr by done. by apply replace_one_app.
  - intros k lt k1 k2 m1 m2 Hk Ha Hrk Hm Hs. rewrite (range_zip _ k (ordered_unique lt)) by done. simpl.
    assert (Hdk : NoDup (range k c)).
    { apply lookup_lt_Some in Hk. rewrite (ok_range_perm c k 0) by (done || lia). done. }
    rewrite Hrk in Hdk |- *. apply NoDup_middle in Hdk as [? _].
    rewrite remove_one_app, Hm by done. by apply place_ordered_splits.
  - intros Hix. destruct (range_0_zip (reposition x y) c Hl Hix) as (i & _ & ->).
    rewrite Hr, reposition_perm by set_solver. by rewrite remove_one_app.
Qed.

Lemma modify_collision c x y z l1 l2 :
  ok ix c -> NoDup (range 0 c) -> range 0 c = l1 ++ x :: l2 -> z ∈ l1 ++ l2 ->
  conflicts ix y z = true -> keeps_order ix 0 = true ->
  ok ix (modify ix x y c) /\ range 0 (modify ix x y c) = l1 ++ l2.
Proof.
  intros Hok Hd Hr Hz Hc Hkeep. assert (Hix : ix <> []) by (intros He; by rewrite He in Hkeep). unfold modify.
  rewrite (modify_rest c x l1 l2), (existsb_conflict_true y z) by done.
  split; [|by apply modify_rest]. apply ok_map_remove; [done | rewrite Hr; set_solver | done].
Qed.

Lemma erase_spec c x :
  ok ix c -> x ∈ range 0 c -> NoDup (range 0 c) -> ix <> [] ->
  ok ix (map (remove_one x) c) /\
  (forall k l1 l2, keeps_order ix k = true -> range k c = l1 ++ x :: l2 ->
     range k (map (remove_one x) c) = l1 ++ l2) /\
  (forall l1 l2, range 0 c = l1 ++ x :: l2 -> range 0 (map (remove_one x) c) ≡ₚ l1 ++ l2).
Proof.
  intros Hok Hx Hd Hix. split; [by apply ok_map_remove|]. split; [|intros l1 l2 Hr; by rewrite (modify_rest c x l1 l2)].
  intros k l1 l2 Hk Hr. unfold keeps_order in Hk. destruct (ix !! k) as [i|] eqn:Hi; [|done]. apply lookup_lt_Some in Hi. rewrite (range_map (remove_one x)) by reflexivity. rewrite Hr. apply remove_one_app.
  assert (Hp : NoDup (range k c)).
  { rewrite (ok_range_perm c k 0); [done | done | done | destruct ix; simpl in *; [done|lia]]. }
  rewrite Hr in Hp. by apply NoDup_middle in Hp as [? _].
Qed.
End facts.

#[export] Instance list_multi_index_ok : BoostMultiIndexOk (BMI := list_multi_index).
Proof.
  refine {| mi_ok := fun E ix c => ok ix c |}; simpl.
  - intros E ix. apply ok_empty.
  - intros E ix k. apply range_empty.
  - intros E ix c j k. apply ok_range_perm.
  - intros E ix c k i lt (Hl & Hp & Hs) Hk Hi Ht Ha. unfold range.
    destruct (c !! k) eqn:Hc; [eauto | constructor].
  - intros E ix c x y Hok Hy Hc. unfold emplace. by rewrite (existsb_conflict_true ix x y).
  - intros E ix c x. apply emplace_done.
  - intros E HE ix c x. apply erase_spec.
  - intros E HE ix c x y l1 l2. apply modify_done.
  - intros E HE ix c x y z l1 l2. apply modify_collision.
Defined.
End ListMultiIndex.

Module BigEndian.
#[export] Instance big_endian : BoostEndian := {
  boost_endian_load n bs := be_val (firstn n bs);
  boost_endian_store n v := be_bytes n v;
}.

#[export] Instance big_endian_ok : BoostEndianOk (BE := big_endian).
Proof.
  split; [|intros n bs | done].
  - intros n bs <-. simpl. by rewrite firstn_all.
  - simpl. pose proof (be_val_bound (firstn n bs)) as Hb.
    assert (256 ^ Z.of_nat (length (firstn n bs)) <= 256 ^ Z.of_nat n) by (apply Z.pow_le_mono_r; [lia|]; rewrite length_firstn; lia).
    lia.
Qed.
End BigEndian.
