(* ===== verification/Utf8.v ===== *)
(** * UTF-8 validation: [utf8string_check] of util/utf8validate.hpp

    The loop of the source as a structural recursion on the bytes left to
    read, an independent specification (the concatenation of the UTF-8
    encodings of the code points MQTT allows), and their equivalence. *)
From S2P Require Import Prelude.

(** One pass of the [while] loop; [next] continues with the bytes after the
    character. *)
Definition utf8_loop_body (next : list byte -> bool) (str : list byte) : bool :=
  match str with
  | [] => true
  | b0 :: it1 =>
    if u8 b0 <? 0x80 then
      if u8 b0 =? 0x00 then false
      else if ((0x01 <=? u8 b0) && (u8 b0 <=? 0x1f)) || (u8 b0 =? 0x7f) then false
      else next it1
    else if Z.land (u8 b0) 0xe0 =? 0xc0 then
      match it1 with
      | b1 :: it2 =>
        if negb (Z.land (u8 b1) 0xc0 =? 0x80) || (Z.land (u8 b0) 0xfe =? 0xc0) then false
        else if (u8 b0 =? 0xc2) && (0x80 <=? u8 b1) && (u8 b1 <=? 0x9f) then false
        else next it2
      | _ => false
      end
    else if Z.land (u8 b0) 0xf0 =? 0xe0 then
      match it1 with
      | b1 :: b2 :: it3 =>
        if negb (Z.land (u8 b1) 0xc0 =? 0x80) || negb (Z.land (u8 b2) 0xc0 =? 0x80)
           || ((u8 b0 =? 0xe0) && (Z.land (u8 b1) 0xe0 =? 0x80))
           || ((u8 b0 =? 0xed) && (Z.land (u8 b1) 0xe0 =? 0xa0)) then false
        else if (u8 b0 =? 0xef) && (u8 b1 =? 0xbf) && (Z.land (u8 b2) 0xfe =? 0xbe) then false
        else next it3
      | _ => false
      end
    else if Z.land (u8 b0) 0xf8 =? 0xf0 then
      match it1 with
      | b1 :: b2 :: b3 :: it4 =>
        if negb (Z.land (u8 b1) 0xc0 =? 0x80) || negb (Z.land (u8 b2) 0xc0 =? 0x80)
           || negb (Z.land (u8 b3) 0xc0 =? 0x80)
           || ((u8 b0 =? 0xf0) && (Z.land (u8 b1) 0xf0 =? 0x80))
           || ((u8 b0 =? 0xf4) && (0x8f <? u8 b1))
           || (0xf4 <? u8 b0) then false
        else if (Z.land (u8 b1) 0xcf =? 0x8f) && (u8 b2 =? 0xbf) && (Z.land (u8 b3) 0xfe =? 0xbe) then false
        else next it4
      | _ => false
      end
    else false
  end.

Fixpoint utf8string_check (str : list byte) {struct str} : bool :=
  utf8_loop_body utf8string_check str.

(** ** Specification *)

(** The code points MQTT accepts in a UTF-8 string: no control characters, no
    surrogates, no U+nFFFE and U+nFFFF. *)
Definition mqtt_code_point (cp : Z) : Prop :=
  0x20 <= cp <= 0x10ffff /\ ~ (0x7f <= cp <= 0x9f) /\ ~ (0xd800 <= cp <= 0xdfff) /\ cp mod 0x10000 < 0xfffe.

(** RFC 3629. *)
Definition utf8_encode (cp : Z) : list byte :=
  if cp <? 0x80 then [to_byte cp]
  else if cp <? 0x800 then [to_byte (0xc0 + cp / 64); to_byte (0x80 + cp mod 64)]
  else if cp <? 0x10000 then
    [to_byte (0xe0 + cp / 4096); to_byte (0x80 + cp / 64 mod 64); to_byte (0x80 + cp mod 64)]
  else [to_byte (0xf0 + cp / 262144); to_byte (0x80 + cp / 4096 mod 64);
        to_byte (0x80 + cp / 64 mod 64); to_byte (0x80 + cp mod 64)].

Definition utf8_encode_string (cps : list Z) : list byte := concat (map utf8_encode cps).

(** ** The masks of the code as ranges *)

Definition in_range (lo hi v : Z) : bool := (lo <=? v) && (v <=? hi).

Ltac by_bytes b P := revert b; apply (forall_bytes P); vm_compute; reflexivity.

Ltac mask_tac b f g :=
  apply Bool.eqb_prop; by_bytes b (fun b => Bool.eqb (f b) (g b)).

Lemma mask_cont b : (Z.land (u8 b) 0xc0 =? 0x80) = in_range 0x80 0xbf (u8 b).
Proof. mask_tac b (fun b => Z.land (u8 b) 0xc0 =? 0x80) (fun b => in_range 0x80 0xbf (u8 b)). Qed.
Lemma mask_lead2 b : (Z.land (u8 b) 0xe0 =? 0xc0) = in_range 0xc0 0xdf (u8 b).
Proof. mask_tac b (fun b => Z.land (u8 b) 0xe0 =? 0xc0) (fun b => in_range 0xc0 0xdf (u8 b)). Qed.
Lemma mask_over2 b : (Z.land (u8 b) 0xfe =? 0xc0) = in_range 0xc0 0xc1 (u8 b).
Proof. mask_tac b (fun b => Z.land (u8 b) 0xfe =? 0xc0) (fun b => in_range 0xc0 0xc1 (u8 b)). Qed.
Lemma mask_lead3 b : (Z.land (u8 b) 0xf0 =? 0xe0) = in_range 0xe0 0xef (u8 b).
Proof. mask_tac b (fun b => Z.land (u8 b) 0xf0 =? 0xe0) (fun b => in_range 0xe0 0xef (u8 b)). Qed.
Lemma mask_over3 b : (Z.land (u8 b) 0xe0 =? 0x80) = in_range 0x80 0x9f (u8 b).
Proof. mask_tac b (fun b => Z.land (u8 b) 0xe0 =? 0x80) (fun b => in_range 0x80 0x9f (u8 b)). Qed.
Lemma mask_surrogate b : (Z.land (u8 b) 0xe0 =? 0xa0) = in_range 0xa0 0xbf (u8 b).
Proof. mask_tac b (fun b => Z.land (u8 b) 0xe0 =? 0xa0) (fun b => in_range 0xa0 0xbf (u8 b)). Qed.
Lemma mask_nonchar b : (Z.land (u8 b) 0xfe =? 0xbe) = in_range 0xbe 0xbf (u8 b).
Proof. mask_tac b (fun b => Z.land (u8 b) 0xfe =? 0xbe) (fun b => in_range 0xbe 0xbf (u8 b)). Qed.
Lemma mask_lead4 b : (Z.land (u8 b) 0xf8 =? 0xf0) = in_range 0xf0 0xf7 (u8 b).
Proof. mask_tac b (fun b => Z.land (u8 b) 0xf8 =? 0xf0) (fun b => in_range 0xf0 0xf7 (u8 b)). Qed.
Lemma mask_over4 b : (Z.land (u8 b) 0xf0 =? 0x80) = in_range 0x80 0x8f (u8 b).
Proof. mask_tac b (fun b => Z.land (u8 b) 0xf0 =? 0x80) (fun b => in_range 0x80 0x8f (u8 b)). Qed.
Lemma mask_plane b : (Z.land (u8 b) 0xcf =? 0x8f) = in_range 0x80 0xbf (u8 b) && (u8 b mod 16 =? 15).
Proof.
  mask_tac b (fun b => Z.land (u8 b) 0xcf =? 0x8f) (fun b => in_range 0x80 0xbf (u8 b) && (u8 b mod 16 =? 15)).
Qed.

Create Rewrite HintDb utf8.
#[export] Hint Rewrite mask_cont mask_lead2 mask_over2 mask_lead3 mask_over3 mask_surrogate
  mask_nonchar mask_lead4 mask_over4 mask_plane : utf8.

(** ** One step of the loop *)

(** What one iteration does on the bytes at [it]: [Some] of the bytes of the
    character it accepted. *)
Definition utf8_head (s : list byte) : option (Z * list byte) :=
  match s with
  | b0 :: it1 =>
    if in_range 0x20 0x7e (u8 b0) then Some (u8 b0, it1)
    else match it1 with
    | b1 :: it2 =>
      if in_range 0xc2 0xdf (u8 b0) && in_range 0x80 0xbf (u8 b1) && negb ((u8 b0 =? 0xc2) && (u8 b1 <=? 0x9f))
      then Some ((u8 b0 - 0xc0) * 64 + (u8 b1 - 0x80), it2)
      else match it2 with
      | b2 :: it3 =>
        if in_range 0xe0 0xef (u8 b0) && in_range 0x80 0xbf (u8 b1) && in_range 0x80 0xbf (u8 b2)
           && negb ((u8 b0 =? 0xe0) && (u8 b1 <=? 0x9f)) && negb ((u8 b0 =? 0xed) && (0xa0 <=? u8 b1))
           && negb ((u8 b0 =? 0xef) && (u8 b1 =? 0xbf) && (0xbe <=? u8 b2))
        then Some ((u8 b0 - 0xe0) * 4096 + (u8 b1 - 0x80) * 64 + (u8 b2 - 0x80), it3)
        else match it3 with
        | b3 :: it4 =>
          if in_range 0xf0 0xf4 (u8 b0) && in_range 0x80 0xbf (u8 b1) && in_range 0x80 0xbf (u8 b2)
             && in_range 0x80 0xbf (u8 b3) && negb ((u8 b0 =? 0xf0) && (u8 b1 <=? 0x8f))
             && negb ((u8 b0 =? 0xf4) && (0x8f <? u8 b1))
             && negb ((u8 b1 mod 16 =? 15) && (u8 b2 =? 0xbf) && (0xbe <=? u8 b3))
          then Some ((u8 b0 - 0xf0) * 262144 + (u8 b1 - 0x80) * 4096 + (u8 b2 - 0x80) * 64 + (u8 b3 - 0x80), it4)
          else None
        | _ => None
        end
      | _ => None
      end
    | _ => None
    end
  | [] => None
  end.

#[local] Ltac Zify.zify_post_hook ::= Z.div_mod_to_equations.

(** Case analysis on the conditions of the goal, dropping the impossible
    combinations. *)
Ltac split_ifs :=
  repeat match goal with
  | |- context [if ?c then _ else _] =>
    let E := fresh "E" in destruct c eqn:E; try (exfalso; try unfold in_range in *; lia)
  end.

Ltac bytes_range :=
  repeat match goal with
  | b : byte |- _ =>
    lazymatch goal with
    | _ : 0 <= u8 b < 256 |- _ => fail
    | _ => pose proof (u8_range b)
    end
  end.

Lemma utf8string_check_unfold s : utf8string_check s = utf8_loop_body utf8string_check s.
Proof. destruct s; reflexivity. Qed.

Lemma utf8_loop_body_head next s :
  s <> [] ->
  utf8_loop_body next s = match utf8_head s with Some (_, s') => next s' | None => false end.
Proof.
  intros Hs. destruct s as [|b0 s1]; [done|]. clear Hs.
  destruct s1 as [|b1 s2]; [|destruct s2 as [|b2 s3]; [|destruct s3 as [|b3 s4]]];
    simpl; autorewrite with utf8; bytes_range; split_ifs; reflexivity.
Qed.

Lemma utf8_head_encode cp s : mqtt_code_point cp -> utf8_head (utf8_encode cp ++ s) = Some (cp, s).
Proof.
  intros (Hr & Hc & Hsu & Hn). unfold utf8_encode.
  split_ifs; simpl; rewrite ?u8_to_byte_small by lia; split_ifs; repeat f_equal; lia.
Qed.

Lemma utf8_head_decode s cp s' :
  utf8_head s = Some (cp, s') -> mqtt_code_point cp /\ s = utf8_encode cp ++ s'.
Proof.
  destruct s as [|b0 s1]; [done|]. destruct s1 as [|b1 s2]; [|destruct s2 as [|b2 s3]; [|destruct s3 as [|b3 s4]]];
    simpl; bytes_range; split_ifs; intros [= <- <-]; unfold mqtt_code_point, utf8_encode, in_range in *.
  all: split; [lia|]; split_ifs; simpl; repeat f_equal; apply u8_inj; rewrite u8_to_byte_small; lia.
Qed.

Lemma utf8_head_nonempty s : utf8_head s <> None -> s <> [].
Proof. by destruct s. Qed.

Lemma utf8string_check_step cp s :
  mqtt_code_point cp -> utf8string_check (utf8_encode cp ++ s) = utf8string_check s.
Proof.
  intros Hcp. pose proof (utf8_head_encode cp s Hcp) as Hh.
  rewrite utf8string_check_unfold, utf8_loop_body_head, Hh; [done|].
  apply utf8_head_nonempty. by rewrite Hh.
Qed.

Lemma length_utf8_encode cp : (0 < length (utf8_encode cp))%nat.
Proof. unfold utf8_encode. repeat case_match; simpl; lia. Qed.

(** C27: [utf8string_check] accepts a byte string exactly when it is the UTF-8
    encoding of a sequence of code points that MQTT allows: overlong forms,
    surrogates, truncated sequences, values above U+10FFFF, control
    characters and the non-characters U+nFFFE, U+nFFFF are all refused, and
    nothing else is. *)
Theorem utf8string_check_correct s :
  utf8string_check s = true <-> exists cps, Forall mqtt_code_point cps /\ s = utf8_encode_string cps.
Proof.
  split.
  - remember (length s) as n eqn:Hn. revert s Hn.
    induction n as [n IH] using lt_wf_ind. intros s -> Hs.
    destruct (decide (s = [])) as [->|Hne]; [by exists []|].
    rewrite utf8string_check_unfold, utf8_loop_body_head in Hs by done.
    destruct (utf8_head s) as [[cp s']|] eqn:Hh; [|done].
    apply utf8_head_decode in Hh as [Hcp ->]. pose proof (length_utf8_encode cp).
    destruct (IH (length s')) with (s := s') as (cps & Hcps & ->); [rewrite length_app; lia | done..|].
    exists (cp :: cps). split; [by constructor | done].
  - intros (cps & Hcps & ->). induction Hcps as [|cp cps Hcp _ IH]; [done|].
    unfold utf8_encode_string in *. simpl. by rewrite utf8string_check_step.
Qed.
