(* ===== verification/Wire.v ===== *)
(** * Wire primitives

    util/variable_bytes.hpp, util/endian_convert.hpp and
    protocol/packet/impl/copy_to_static_vector.hpp: the variable byte
    integers, the big-endian integers and the "copy a field and advance"
    helpers every packet codec is made of.

    A [buffer] (util/buffer.hpp) is a view on shared bytes; its content is a
    [list byte].  A function that advances an iterator or removes a prefix
    returns the bytes that are left. *)
From S2P Require Import Prelude Boost.

(** ** Variable byte integers *)

(** [while (val > 127)]: at most four bytes are pushed, [fuel] counts them. *)
Fixpoint variable_bytes_loop (fuel : nat) (val : Z) : list byte :=
  match fuel with
  | O => []
  | S fuel' =>
    if 127 <? val then
      to_byte (Z.lor (Z.land val 0x7f) 0x80) :: variable_bytes_loop fuel' (Z.shiftr val 7)
    else [to_byte (Z.land val 0x7f)]
  end.

Definition val_to_variable_bytes (val : Z) : list byte :=
  if 0xfffffff <? val then [] else variable_bytes_loop 4 val.

Fixpoint variable_bytes_to_val_loop (val mul : Z) (it : list byte) : option Z * list byte :=
  match it with
  | [] => (None, [])
  | b :: it' =>
    if mul =? 128 * 128 * 128 * 128 then (None, it')
    else
      let val := val + Z.land (u8 b) 0x7f * mul in
      let mul := mul * 128 in
      if Z.land (u8 b) 0x80 =? 0 then (Some (val mod 2 ^ 32), it')
      else variable_bytes_to_val_loop val mul it'
  end.

(** the value, and the iterator after the call *)
Definition variable_bytes_to_val (it : list byte) : option Z * list byte :=
  variable_bytes_to_val_loop 0 1 it.

(** ** Big-endian integers *)
Section endian.
Context {BE : BoostEndian}.

Definition endian_load (size : nat) (buf : list byte) : Z := boost_endian_load size (firstn size buf).

Definition endian_store (size : nat) (val : Z) : list byte := boost_endian_store size val.

Definition endian_static_vector (size : nat) (val : Z) : list byte := boost_endian_store size val.
End endian.

(** ** Copying a field out of a buffer *)

(** [copy_advance] and [insert_advance]: [None] is [false], otherwise the
    bytes copied and the buffer without them. *)
Definition copy_advance (N : nat) (buf : list byte) : option (list byte * list byte) :=
  if decide (length buf < N)%nat then None else Some (firstn N buf, skipn N buf).

Definition insert_advance (N : nat) (buf : list byte) : option (list byte * list byte) :=
  if decide (length buf < N)%nat then None else Some (firstn N buf, skipn N buf).

(** the decoded length, the bytes of the length field, the rest *)
Definition insert_advance_variable_length (buf : list byte) : option (Z * list byte * list byte) :=
  match buf with
  | [] => None
  | _ =>
    match variable_bytes_to_val buf with
    | (Some len, rest) => Some (len, firstn (length buf - length rest) buf, rest)
    | (None, _) => None
    end
  end.

(** ** Facts *)

Definition max_variable_bytes : Z := 0xfffffff.

(** The masks of one byte in arithmetic. *)
Lemma land_7f v : Z.land v 0x7f = v mod 128.
Proof. change 0x7f with (Z.ones 7). by rewrite Z.land_ones. Qed.

Lemma lor_80 v : 0 <= v < 128 -> Z.lor v 0x80 = v + 128.
Proof.
  intros Hv. rewrite <- Z.lxor_lor, <- Z.add_nocarry_lxor; [done| |];
    (assert (Hb : Z.land v 0x80 = 0); [|done]).
  all: apply Z.bits_inj'; intros n Hn; rewrite Z.land_spec, Z.bits_0.
  all: destruct (decide (n = 7)) as [->|Hne].
  all: try (rewrite (Z.bits_above_log2 v 7); [done | lia | ]).
  all: try (destruct (decide (v = 0)) as [->|]; [done | apply Z.log2_lt_pow2; lia]).
  all: change 0x80 with (2 ^ 7); rewrite (Z.pow2_bits_false 7 n) by done; apply andb_false_r.
Qed.

Lemma continuation_bit b : (Z.land (u8 b) 0x80 =? 0) = (u8 b <? 128).
Proof.
  apply Bool.eqb_prop. revert b.
  apply (forall_bytes (fun b => Bool.eqb (Z.land (u8 b) 0x80 =? 0) (u8 b <? 128))). vm_compute. done.
Qed.

#[local] Ltac Zify.zify_post_hook ::= Z.div_mod_to_equations.

(** One encoded byte. *)
Lemma variable_bytes_loop_last fuel val :
  0 <= val <= 127 -> variable_bytes_loop (S fuel) val = [to_byte val].
Proof.
  intros Hv. simpl. destruct (Z.ltb_spec 127 val); [lia|].
  rewrite land_7f, Z.mod_small by lia. done.
Qed.

Lemma variable_bytes_loop_more fuel val :
  127 < val -> variable_bytes_loop (S fuel) val = to_byte (val mod 128 + 128) :: variable_bytes_loop fuel (val / 128).
Proof.
  intros Hv. simpl. destruct (Z.ltb_spec 127 val); [|lia].
  rewrite land_7f, lor_80 by (apply Z.mod_pos_bound; lia). by rewrite Z.shiftr_div_pow2.
Qed.

(** One decoded byte. *)
Lemma to_val_loop_cons val mul b it :
  mul <> 128 * 128 * 128 * 128 ->
  variable_bytes_to_val_loop val mul (b :: it) =
    if u8 b <? 128 then (Some ((val + u8 b * mul) mod 2 ^ 32), it)
    else variable_bytes_to_val_loop (val + (u8 b - 128) * mul) (mul * 128) it.
Proof.
  intros Hm. cbn [variable_bytes_to_val_loop]. rewrite (proj2 (Z.eqb_neq _ _) Hm), continuation_bit, land_7f.
  pose proof (u8_range b). destruct (Z.ltb_spec (u8 b) 128).
  - by rewrite (Z.mod_small (u8 b) 128) by lia.
  - replace (u8 b mod 128) with (u8 b - 128); [done|]. lia.
Qed.

Lemma to_val_loop_encode fuel val acc rest mul :
  0 <= val < 128 ^ Z.of_nat fuel -> mul * 128 ^ Z.of_nat fuel = 128 ^ 4 -> 0 < mul -> 0 <= acc < mul ->
  (0 < fuel)%nat ->
  variable_bytes_to_val_loop acc mul (variable_bytes_loop fuel val ++ rest) = (Some (acc + val * mul), rest).
Proof.
  revert val acc mul. induction fuel as [|fuel IH]; intros val acc mul Hv Hm Hmul Hacc Hf; [lia|].
  rewrite Nat2Z.inj_succ, Z.pow_succ_r in Hv, Hm by lia.
  set (P := 128 ^ Z.of_nat fuel) in *. assert (0 < P) by (apply Z.pow_pos_nonneg; lia).
  assert (mul <> 128 * 128 * 128 * 128) by (change (128 ^ 4) with (128 * 128 * 128 * 128) in Hm; nia).
  destruct (Z.le_gt_cases val 127) as [Hs|Hb].
  - rewrite variable_bytes_loop_last by lia. simpl app. rewrite to_val_loop_cons by done.
    rewrite u8_to_byte_small by lia. destruct (Z.ltb_spec val 128); [|lia].
    rewrite Z.mod_small; [done|]. change (128 ^ 4) with (2 ^ 28) in Hm. nia.
  - rewrite variable_bytes_loop_more by lia. cbn [app]. rewrite to_val_loop_cons by done.
    rewrite u8_to_byte_small by lia. destruct (Z.ltb_spec (val mod 128 + 128) 128); [lia|].
    destruct fuel as [|fuel']; [exfalso; unfold P in *; simpl in *; lia|].
    rewrite IH; [|split; [lia|apply Z.div_lt_upper_bound; lia] | nia | nia | nia | lia].
    do 2 f_equal. lia.
Qed.

Lemma length_variable_bytes_loop fuel val n :
  0 <= val < 128 ^ Z.of_nat n -> (0 < n <= fuel)%nat -> (1 <= length (variable_bytes_loop fuel val) <= n)%nat.
Proof.
  revert val n. induction fuel as [|fuel IH]; intros val n Hv Hn; [lia|].
  destruct (Z.le_gt_cases val 127) as [Hs|Hb].
  - rewrite variable_bytes_loop_last by lia. simpl. lia.
  - rewrite variable_bytes_loop_more by lia. cbn [length].
    destruct n as [|n]; [lia|]. rewrite Nat2Z.inj_succ, Z.pow_succ_r in Hv by lia.
    destruct n as [|n]; [change (128 ^ Z.of_nat 0) with 1 in Hv; lia|].
    destruct (IH (val / 128) (S n)); [split; [lia|apply Z.div_lt_upper_bound; lia] | lia | lia].
Qed.

Lemma length_val_to_variable_bytes v :
  0 <= v <= max_variable_bytes -> (1 <= length (val_to_variable_bytes v) <= 4)%nat.
Proof.
  unfold max_variable_bytes, val_to_variable_bytes. intros Hv. destruct (Z.ltb_spec 0xfffffff v); [lia|].
  apply length_variable_bytes_loop; [change (128 ^ Z.of_nat 4) with 0x10000000; lia | lia].
Qed.

(** no encoding has more than four bytes, whatever the value *)
Lemma val_to_variable_bytes_le4 v : (length (val_to_variable_bytes v) <= 4)%nat.
Proof.
  unfold val_to_variable_bytes. destruct (_ <? _); [simpl; lia|].
  generalize 4%nat as fuel. intros fuel. revert v. induction fuel as [|fuel IH]; intros v; simpl; [done|].
  destruct (_ <? _); simpl; [|lia]. specialize (IH (Z.shiftr v 7)). lia.
Qed.

Lemma to_val_loop_decode k acc mul it v rest :
  variable_bytes_to_val_loop acc mul it = (Some v, rest) ->
  mul * 128 ^ Z.of_nat k = 128 ^ 4 -> 0 < mul -> 0 <= acc < mul ->
  exists pre, it = pre ++ rest /\ (1 <= length pre <= k)%nat /\ 0 <= v < mul * 128 ^ Z.of_nat (length pre).
Proof.
  revert k acc mul. induction it as [|b it IH]; intros k acc mul; [done|].
  intros Hl Hm Hmul Hacc. destruct k as [|k].
  - change (128 ^ Z.of_nat 0) with 1 in Hm. replace mul with (128 * 128 * 128 * 128) in Hl by lia. done.
  - rewrite Nat2Z.inj_succ, Z.pow_succ_r in Hm by lia.
    assert (0 < 128 ^ Z.of_nat k) by (apply Z.pow_pos_nonneg; lia).
    rewrite to_val_loop_cons in Hl by (change (128 ^ 4) with (128 * 128 * 128 * 128) in Hm; nia).
    pose proof (u8_range b). destruct (Z.ltb_spec (u8 b) 128).
    + injection Hl as <- <-. exists [b]. change (128 ^ 4) with (2 ^ 28) in Hm. cbn [length app].
      change (128 ^ Z.of_nat 1) with 128. rewrite Z.mod_small by nia. split; [done|]. split; [lia|nia].
    + apply (IH k) in Hl as (pre & -> & Hlen & Hv); [|nia..].
      exists (b :: pre). cbn [length app]. rewrite Nat2Z.inj_succ, Z.pow_succ_r by lia.
      split; [done|]. split; [lia|nia].
Qed.

Lemma to_val_of_bytes v rest :
  0 <= v <= max_variable_bytes -> variable_bytes_to_val (val_to_variable_bytes v ++ rest) = (Some v, rest).
Proof.
  unfold max_variable_bytes, val_to_variable_bytes, variable_bytes_to_val. intros Hv.
  destruct (Z.ltb_spec 0xfffffff v); [lia|].
  rewrite (to_val_loop_encode 4 v 0 rest 1); [do 2 f_equal; lia | | reflexivity | lia..].
  change (128 ^ Z.of_nat 4) with 0x10000000. lia.
Qed.

(** every value a variable byte integer can carry is read back from its
    encoding, whatever follows it, and the bytes that follow are left in
    place. *)
Theorem variable_bytes_roundtrip v rest :
  0 <= v <= max_variable_bytes -> variable_bytes_to_val (val_to_variable_bytes v ++ rest) = (Some v, rest).
Proof. apply to_val_of_bytes. Qed.

Lemma variable_bytes_roundtrip_witness :
  0 <= 16384 <= max_variable_bytes /\
  variable_bytes_to_val (val_to_variable_bytes 16384 ++ [x07]) = (Some 16384, [x07]).
Proof. split; [unfold max_variable_bytes; lia | apply variable_bytes_roundtrip; unfold max_variable_bytes; lia]. Defined.

Lemma to_val_bounds it v rest :
  variable_bytes_to_val it = (Some v, rest) ->
  0 <= v <= max_variable_bytes /\
  exists pre, it = pre ++ rest /\ (1 <= length pre <= 4)%nat /\ (length (val_to_variable_bytes v) <= length pre)%nat.
Proof.
  unfold max_variable_bytes, variable_bytes_to_val. intros H.
  apply (to_val_loop_decode 4) in H as (pre & -> & Hlen & Hv); [|reflexivity | lia..].
  assert (128 ^ Z.of_nat (length pre) <= 128 ^ 4) by (apply Z.pow_le_mono_r; lia).
  change (128 ^ 4) with 0x10000000 in *. split; [lia|]. exists pre. split; [done|]. split; [lia|].
  unfold val_to_variable_bytes. destruct (Z.ltb_spec 0xfffffff v); [simpl; lia|].
  apply length_variable_bytes_loop; lia.
Qed.

(** a variable byte integer, the shortest one or not: seven bits in each
    byte, the lowest first, and a byte less than 128 at the end *)
Fixpoint vbi (bs : list byte) : option Z :=
  match bs with
  | [] => None
  | b :: bs =>
    if u8 b <? 128 then match bs with [] => Some (u8 b) | _ => None end
    else v ← vbi bs; Some (u8 b - 128 + 128 * v)
  end.

Lemma vbi_range bs v : vbi bs = Some v -> 0 <= v < 128 ^ Z.of_nat (length bs).
Proof.
  revert v. induction bs as [|b bs IH]; intros v; [done|]. cbn [vbi length]. rewrite Nat2Z.inj_succ, Z.pow_succ_r by lia.
  pose proof (u8_range b). destruct (Z.ltb_spec (u8 b) 128).
  - destruct bs; [|done]. intros [= <-]. simpl. lia.
  - destruct (vbi bs) as [w|]; [|done]. intros [= <-]. specialize (IH w eq_refl). lia.
Qed.

Lemma to_val_loop_vbi it : forall acc mul v rest,
  variable_bytes_to_val_loop acc mul it = (Some v, rest) ->
  exists pre w, it = pre ++ rest /\ vbi pre = Some w /\ v = (acc + w * mul) mod 2 ^ 32.
Proof.
  induction it as [|b it IH]; intros acc mul v rest; [done|]. destruct (decide (mul = 128 * 128 * 128 * 128)) as [->|Hm]; [done|].
  rewrite to_val_loop_cons by done. destruct (u8 b <? 128) eqn:Hb.
  - intros [= <- <-]. exists [b], (u8 b). cbn [vbi]. by rewrite Hb.
  - intros (pre & w & -> & Hw & ->)%IH. exists (b :: pre), (u8 b - 128 + 128 * w). cbn [vbi]. rewrite Hb, Hw.
    split; [done|]. split; [done|]. f_equal. lia.
Qed.

(** what the decoder reads is such an integer, and it gives its value *)
Lemma to_val_vbi it v rest :
  variable_bytes_to_val it = (Some v, rest) -> exists pre, it = pre ++ rest /\ (length pre <= 4)%nat /\ vbi pre = Some v.
Proof.
  intros H. apply to_val_bounds in H as Hb. destruct Hb as (_ & pre' & Hpre' & Hlen & _).
  apply to_val_loop_vbi in H as (pre & w & -> & Hw & ->). apply app_inv_tail in Hpre' as <-. exists pre. split; [done|]. split; [lia|].
  rewrite Hw. f_equal. apply vbi_range in Hw.
  assert (128 ^ Z.of_nat (length pre) <= 128 ^ 4) by (apply Z.pow_le_mono_r; lia). change (128 ^ 4) with 0x10000000 in *.
  rewrite Z.mod_small; lia.
Qed.

(** a decoded variable byte integer is in range, the decoder consumed
    between one and four bytes, and no fewer than the encoder would produce
    for the value. *)
Theorem variable_bytes_to_val_bounds it v rest :
  variable_bytes_to_val it = (Some v, rest) ->
  0 <= v <= max_variable_bytes /\
  exists pre, it = pre ++ rest /\ (1 <= length pre <= 4)%nat /\ (length (val_to_variable_bytes v) <= length pre)%nat.
Proof. apply to_val_bounds. Qed.

Lemma variable_bytes_to_val_bounds_witness :
  exists pre, [xff; xff; xff; x7f; x01] = pre ++ [x01] /\ (1 <= length pre <= 4)%nat /\
    (length (val_to_variable_bytes 0xfffffff) <= length pre)%nat.
Proof. apply (variable_bytes_to_val_bounds _ 0xfffffff [x01]). reflexivity. Defined.

(** ** Field copies *)

Lemma copy_advance_app N l rest : length l = N -> copy_advance N (l ++ rest) = Some (l, rest).
Proof.
  intros <-. unfold copy_advance. rewrite length_app, decide_False by lia.
  by rewrite firstn_app, Nat.sub_diag, firstn_all, firstn_O, app_nil_r, skipn_app, Nat.sub_diag, skipn_all.
Qed.

Lemma copy_advance_Some N buf l rest :
  copy_advance N buf = Some (l, rest) -> buf = l ++ rest /\ length l = N.
Proof.
  unfold copy_advance. case_decide; [done|]. intros [= <- <-].
  rewrite firstn_skipn, length_firstn. split; [done | lia].
Qed.

Lemma insert_advance_copy N buf : insert_advance N buf = copy_advance N buf.
Proof. reflexivity. Qed.

Lemma insert_advance_app N l rest : length l = N -> insert_advance N (l ++ rest) = Some (l, rest).
Proof. rewrite insert_advance_copy. apply copy_advance_app. Qed.

Lemma insert_advance_variable_length_encode v rest :
  0 <= v <= max_variable_bytes ->
  insert_advance_variable_length (val_to_variable_bytes v ++ rest) = Some (v, val_to_variable_bytes v, rest).
Proof.
  intros Hv. pose proof (length_val_to_variable_bytes v Hv) as Hl. unfold insert_advance_variable_length.
  rewrite to_val_of_bytes, length_app, Nat.add_sub, firstn_app, Nat.sub_diag, firstn_all, app_nil_r by done.
  destruct (val_to_variable_bytes v); [simpl in Hl; lia | done].
Qed.

Section endian_facts.
Context {BE : BoostEndian} {BEO : BoostEndianOk}.

Lemma endian_store_bytes size v :
  0 <= v < 256 ^ Z.of_nat size -> endian_store size v = be_bytes size v.
Proof. apply boost_endian_store_spec. Qed.

Lemma length_endian_store size v : 0 <= v < 256 ^ Z.of_nat size -> length (endian_store size v) = size.
Proof. intros Hv. rewrite endian_store_bytes by done. apply length_be_bytes. Qed.

Lemma endian_load_val size buf : (size <= length buf)%nat -> endian_load size buf = be_val (firstn size buf).
Proof. intros Hl. apply boost_endian_load_spec. rewrite length_firstn. lia. Qed.

Lemma endian_load_bound size buf :
  (size <= length buf)%nat -> 0 <= endian_load size buf < 256 ^ Z.of_nat size.
Proof.
  intros Hl. rewrite endian_load_val by done. pose proof (be_val_bound (firstn size buf)) as Hb.
  rewrite length_firstn in Hb. by replace (Nat.min size (length buf)) with size in Hb by lia.
Qed.

Lemma load_of_store size v rest :
  0 <= v < 256 ^ Z.of_nat size -> endian_load size (endian_store size v ++ rest) = v.
Proof.
  intros Hv. rewrite endian_load_val by (rewrite length_app, length_endian_store by done; lia).
  rewrite firstn_app, length_endian_store, Nat.sub_diag, app_nil_r by done.
  rewrite firstn_all2 by (rewrite length_endian_store by done; lia).
  rewrite endian_store_bytes by done. by apply be_val_bytes.
Qed.

(** A value of [size] bytes stored big-endian is loaded back, whatever
    bytes follow. *)
Lemma endian_store_load size v rest :
  0 <= v < 256 ^ Z.of_nat size -> endian_load size (endian_store size v ++ rest) = v.
Proof. apply load_of_store. Qed.
End endian_facts.

