(* ===== verification/ValueAllocator.v ===== *)
(** * Value allocation: util/value_allocator.hpp

    The allocator keeps the vacant values of [lowest, highest] as disjoint
    intervals in an ordered Boost.MultiIndex container.  The abstract state
    is the set of vacant values; every operation is proved to change it the
    way its comment promises, and to keep the intervals sorted, disjoint and
    merged. *)
From S2P Require Import Prelude Boost.

Record value_interval := mk_interval { low : Z; high : Z }.

#[export] Instance value_interval_eq_dec : EqDecision value_interval.
Proof. solve_decision. Defined.

(** [value_interval(v)] *)
Definition point (v : Z) : value_interval := mk_interval v v.

(** [operator<] *)
Definition interval_lt (lhs rhs : value_interval) : bool :=
  (low lhs <? low rhs) && (high lhs <? low rhs).

Definition pool_index : list (index value_interval) := [ordered_unique interval_lt].

(** [upper_bound(x)]: the elements before the iterator, and from it on. *)
Fixpoint upper_bound {E} (lt : E -> E -> bool) (x : E) (l : list E) : list E * list E :=
  match l with
  | [] => ([], [])
  | e :: l' =>
    if lt x e then ([], l)
    else let (before, from) := upper_bound lt x l' in (e :: before, from)
  end.

Section value_allocator.
Context {BMI : BoostMultiIndex}.

(** [std::uint16_t] or [std::uint32_t] *)
Variable bits : Z.

(** The usual arithmetic conversions: a type narrower than [int] is
    promoted to [int], [std::uint32_t] arithmetic wraps. *)
Definition promoted (z : Z) : Z := if bits <? 32 then z else z mod 2 ^ bits.

Definition to_value (z : Z) : Z := z mod 2 ^ bits.

Record value_allocator := mk_allocator {
  pool_ : mi pool_index;
  lowest_ : Z;
  highest_ : Z;
}.

Definition set_pool (a : value_allocator) (p : mi pool_index) : value_allocator :=
  mk_allocator p (lowest_ a) (highest_ a).

(** begin() .. end() *)
Definition pool (a : value_allocator) : list value_interval := mi_range 0 (pool_ a).

Definition emplace_interval (iv : value_interval) (a : value_allocator) : value_allocator :=
  set_pool a (fst (mi_emplace iv (pool_ a))).

Definition modify_interval (it new : value_interval) (a : value_allocator) : value_allocator :=
  set_pool a (mi_modify it new (pool_ a)).

Definition erase_interval (it : value_interval) (a : value_allocator) : value_allocator :=
  set_pool a (mi_erase it (pool_ a)).

(** the constructor *)
Definition make_value_allocator (lowest highest : Z) : value_allocator :=
  emplace_interval (mk_interval lowest highest) (mk_allocator mi_empty lowest highest).

Definition allocate (a : value_allocator) : option Z * value_allocator :=
  match pool a with
  | [] => (None, a)
  | it :: _ =>
    let value := low it in
    (Some value,
     if promoted (low it + 1) <=? high it
     then modify_interval it (mk_interval (to_value (low it + 1)) (high it)) a
     else erase_interval it a)
  end.

Definition first_vacant (a : value_allocator) : option Z :=
  match pool a with
  | [] => None
  | it :: _ => Some (low it)
  end.

Definition deallocate (value : Z) (a : value_allocator) : value_allocator :=
  let (before, from) := upper_bound interval_lt (point value) (pool a) in
  match from with
  | [] =>
    match last before with
    | None => emplace_interval (point value) a
    | Some itl =>
      if promoted (high itl + 1) =? value
      then modify_interval itl (mk_interval (low itl) value) a
      else emplace_interval (point value) a
    end
  | itr :: _ =>
    match last before with
    | None =>
      if promoted (value + 1) =? low itr
      then modify_interval itr (mk_interval value (high itr)) a
      else emplace_interval (point value) a
    | Some itl =>
      if promoted (high itl + 1) =? value then
        if promoted (value + 1) =? low itr then
          let right := high itr in
          modify_interval itl (mk_interval (low itl) right) (erase_interval itr a)
        else modify_interval itl (mk_interval (low itl) value) a
      else
        if promoted (value + 1) =? low itr
        then modify_interval itr (mk_interval value (high itr)) a
        else emplace_interval (point value) a
    end
  end.

(** [pool_.find(value_interval{value})] *)
Definition find_interval (value : Z) (a : value_allocator) : option value_interval :=
  List.find (equiv_by interval_lt (point value)) (pool a).

Definition use (value : Z) (a : value_allocator) : bool * value_allocator :=
  match find_interval value a with
  | None => (false, a)
  | Some iv =>
    let a := erase_interval iv a in
    let a := if low iv <? value
             then emplace_interval (mk_interval (low iv) (to_value (value - 1))) a else a in
    let a := if promoted (value + 1) <=? high iv
             then emplace_interval (mk_interval (to_value (value + 1)) (high iv)) a else a in
    (true, a)
  end.

Definition is_used (value : Z) (a : value_allocator) : bool :=
  match find_interval value a with None => true | Some _ => false end.

Definition clear (a : value_allocator) : value_allocator :=
  emplace_interval (mk_interval (lowest_ a) (highest_ a)) (set_pool a mi_empty).

Definition interval_count (a : value_allocator) : nat := length (pool a).
End value_allocator.

(** ** Sorted, disjoint, merged intervals *)

(** [l] is a sequence of nonempty intervals within [lo, hi], each separated
    from the next by at least one value. *)
Fixpoint intervals (lo : Z) (l : list value_interval) (hi : Z) : Prop :=
  match l with
  | [] => True
  | iv :: l' => lo <= low iv <= high iv /\ high iv <= hi /\ intervals (high iv + 2) l' hi
  end.

Definition covers (l : list value_interval) (v : Z) : Prop := Exists (fun iv => low iv <= v <= high iv) l.

(** the least value an interval after [l] may start with *)
Fixpoint after (lo : Z) (l : list value_interval) : Z :=
  match l with
  | [] => lo
  | iv :: l' => after (high iv + 2) l'
  end.

Lemma intervals_app lo l1 l2 hi :
  intervals lo (l1 ++ l2) hi <-> intervals lo l1 hi /\ intervals (after lo l1) l2 hi.
Proof. revert lo; induction l1 as [|iv l1 IH]; intros lo; simpl; [tauto|]. rewrite IH. tauto. Qed.

Lemma after_snoc lo l iv : after lo (l ++ [iv]) = high iv + 2.
Proof. revert lo; induction l as [|e l IH]; intros lo; simpl; [done | apply IH]. Qed.

Lemma intervals_weaken lo lo' l hi : lo' <= lo -> intervals lo l hi -> intervals lo' l hi.
Proof. destruct l; simpl; [done | intros ? (? & ? & ?); split_and!; [lia..|done]]. Qed.

Lemma intervals_Forall lo l hi :
  intervals lo l hi -> Forall (fun iv => lo <= low iv <= high iv /\ high iv <= hi) l.
Proof.
  revert lo; induction l as [|iv l IH]; intros lo; simpl; [done|]. intros (? & ? & Hl).
  constructor; [lia|]. eapply Forall_impl; [apply (IH _ Hl)|]. simpl. intros; lia.
Qed.

Lemma intervals_before lo l hi : intervals lo l hi -> Forall (fun iv => high iv + 2 <= after lo l) l.
Proof.
  induction l as [|iv l IH] using rev_ind; [done|]. rewrite after_snoc, intervals_app. intros (Hl & Hiv).
  apply Forall_app. split; [|by repeat constructor].
  eapply Forall_impl; [apply (IH Hl)|]. simpl in *. intros; lia.
Qed.

Lemma covers_cons iv l v : covers (iv :: l) v <-> low iv <= v <= high iv \/ covers l v.
Proof. apply Exists_cons. Qed.

Lemma covers_app l1 l2 v : covers (l1 ++ l2) v <-> covers l1 v \/ covers l2 v.
Proof. apply Exists_app. Qed.

Lemma covers_nil v : covers [] v <-> False.
Proof. apply Exists_nil. Qed.

Lemma covers_bounds lo l hi v : intervals lo l hi -> covers l v -> lo <= v <= hi.
Proof.
  intros Hl Hv. apply intervals_Forall in Hl. rewrite Forall_forall in Hl.
  apply Exists_exists in Hv as (iv & Hiv & ?). specialize (Hl iv Hiv). simpl in Hl. lia.
Qed.

Lemma covers_before lo l hi v : intervals lo l hi -> covers l v -> v + 2 <= after lo l.
Proof.
  intros Hl Hv. apply intervals_before in Hl. rewrite Forall_forall in Hl.
  apply Exists_exists in Hv as (iv & Hiv & ?). specialize (Hl iv Hiv). simpl in Hl. lia.
Qed.

Lemma intervals_NoDup lo l hi : intervals lo l hi -> NoDup l.
Proof.
  revert lo; induction l as [|iv l IH]; intros lo; simpl; [constructor|]. intros (? & ? & Hl).
  constructor; [|eauto]. intros Hin. apply intervals_Forall in Hl. rewrite Forall_forall in Hl.
  specialize (Hl iv Hin). simpl in Hl. lia.
Qed.

(** the split around an interval is the one its neighbours impose *)
Lemma intervals_splits lo l1 iv l2 hi :
  intervals lo (l1 ++ iv :: l2) hi -> splits interval_lt iv l1 l2.
Proof.
  rewrite intervals_app. simpl. intros (H1 & (? & ? & H2)).
  pose proof (intervals_before _ _ _ H1) as Hb. pose proof (intervals_Forall _ _ _ H1) as Hf.
  apply intervals_Forall in H2. rewrite Forall_forall in Hb, Hf, H2.
  unfold splits, interval_lt. rewrite !Forall_forall.
  split; intros e He; [specialize (Hb e He); specialize (Hf e He) | specialize (H2 e He)]; simpl in *; lia.
Qed.

Lemma splits_no_conflict iv l1 l2 e :
  splits interval_lt iv l1 l2 -> e ∈ l1 ++ l2 -> conflicts pool_index iv e = false.
Proof.
  intros [H1 H2] He. rewrite Forall_forall in H1, H2. unfold conflicts, equiv_by. simpl.
  apply elem_of_app in He as [He|He]; [rewrite (H1 e He) | rewrite (H2 e He)]; simpl; by rewrite ?andb_false_r.
Qed.

Lemma interval_lt_asym : asymmetric interval_lt.
Proof. intros a b. unfold interval_lt. lia. Qed.

(** ** Looking up a value *)

Lemma upper_bound_app {E} (lt : E -> E -> bool) x l l1 l2 : upper_bound lt x l = (l1, l2) -> l = l1 ++ l2.
Proof.
  revert l1 l2. induction l as [|e l IH]; simpl; intros l1 l2; [by intros [= <- <-]|].
  destruct (lt x e); [by intros [= <- <-]|]. destruct (upper_bound lt x l) as [b f].
  intros [= <- <-]. simpl. by rewrite <- (IH b f).
Qed.

Lemma upper_bound_point lo l hi v l1 l2 :
  intervals lo l hi -> upper_bound interval_lt (point v) l = (l1, l2) ->
  Forall (fun iv => low iv <= v) l1 /\ Forall (fun iv => v < low iv) l2.
Proof.
  revert lo l1 l2. induction l as [|e l IH]; simpl; intros lo l1 l2 Hl; [by intros [= <- <-]|].
  destruct Hl as (? & ? & Hl). destruct (interval_lt (point v) e) eqn:Hlt.
  - intros [= <- <-]. split; [done|]. unfold interval_lt, point in Hlt; simpl in Hlt.
    constructor; [lia|]. eapply Forall_impl; [apply (intervals_Forall _ _ _ Hl)|]. simpl. intros; lia.
  - destruct (upper_bound interval_lt (point v) l) as [b f] eqn:Hu. intros [= <- <-].
    destruct (IH _ _ _ Hl eq_refl). unfold interval_lt, point in Hlt; simpl in Hlt.
    split; [constructor; [lia|done] | done].
Qed.

Lemma equiv_point v iv : low iv <= high iv -> equiv_by interval_lt (point v) iv = true <-> low iv <= v <= high iv.
Proof. intros Hiv. unfold equiv_by, interval_lt, point. simpl. lia. Qed.

Lemma find_point_Some lo l hi v iv :
  intervals lo l hi -> List.find (equiv_by interval_lt (point v)) l = Some iv ->
  iv ∈ l /\ low iv <= v <= high iv.
Proof.
  intros Hl Hf. apply find_some in Hf as [Hin He]. apply list_elem_of_In in Hin. split; [done|].
  apply intervals_Forall in Hl. rewrite Forall_forall in Hl. specialize (Hl iv Hin). simpl in Hl.
  by apply equiv_point in He; [|lia].
Qed.

Lemma find_point_None lo l hi v :
  intervals lo l hi -> List.find (equiv_by interval_lt (point v)) l = None <-> ~ covers l v.
Proof.
  intros Hl. apply intervals_Forall in Hl. rewrite Forall_forall in Hl. split.
  - intros Hf Hc. apply Exists_exists in Hc as (iv & Hin & Hv). pose proof (Hl iv Hin) as Hb. simpl in Hb.
    apply list_elem_of_In in Hin. pose proof (find_none _ _ Hf iv Hin) as Hn.
    apply (equiv_point v iv) in Hv; [congruence | lia].
  - intros Hc. destruct (List.find _ l) as [iv|] eqn:Hf; [|done]. exfalso. apply Hc.
    apply find_some in Hf as [Hin He]. apply list_elem_of_In in Hin. apply Exists_exists. exists iv.
    split; [done|]. specialize (Hl iv Hin). simpl in Hl. by apply equiv_point in He; [|lia].
Qed.

(** Discharges an [intervals] goal on explicit intervals. *)
Ltac solve_intervals :=
  simpl; repeat match goal with |- _ /\ _ => split end;
  first [done | lia | eapply intervals_weaken; [|eassumption]; lia].

(** ** The operations on the container *)

Section allocator_facts.
Context {BMI : BoostMultiIndex} {BMO : BoostMultiIndexOk}.
Implicit Types a : value_allocator.

(** Class invariant. *)
Definition allocator_ok a : Prop :=
  mi_ok (pool_ a) /\ intervals (lowest_ a) (pool a) (highest_ a).

(** the abstract state: the vacant values *)
Definition vacant a (v : Z) : Prop := covers (pool a) v.

(** What an operation establishes: the invariant, the bounds kept, and the
    vacant values described by [P]. *)
Definition becomes a a' (P : Z -> Prop) : Prop :=
  allocator_ok a' /\ lowest_ a' = lowest_ a /\ highest_ a' = highest_ a /\ forall v, vacant a' v <-> P v.

Lemma becomes_pool a p l (P : Z -> Prop) :
  mi_ok p -> mi_range 0 p = l -> intervals (lowest_ a) l (highest_ a) -> (forall v, covers l v <-> P v) ->
  becomes a (set_pool a p) P.
Proof.
  intros Hok Hp Hl HP. unfold becomes, allocator_ok, vacant, pool, set_pool in *. simpl in *.
  rewrite Hp. split_and!; done.
Qed.

Lemma emplace_range (p : mi pool_index) l1 l2 iv lo hi :
  mi_ok p -> mi_range 0 p = l1 ++ l2 -> intervals lo (l1 ++ iv :: l2) hi ->
  mi_ok (fst (mi_emplace iv p)) /\ mi_range 0 (fst (mi_emplace iv p)) = l1 ++ iv :: l2.
Proof.
  intros Hok Hp Hi. apply intervals_splits in Hi as Hs.
  destruct (mi_emplace_done p iv) as (_ & Hok' & _ & Hr & _); [done| |].
  { intros y Hy. rewrite Hp in Hy. eauto using splits_no_conflict. }
  split; [done|]. apply (Hr 0%nat interval_lt); [done | apply interval_lt_asym | done..].
Qed.

Lemma modify_range (p : mi pool_index) l1 l2 it iv lo hi :
  mi_ok p -> mi_range 0 p = l1 ++ it :: l2 -> intervals lo (l1 ++ it :: l2) hi ->
  intervals lo (l1 ++ iv :: l2) hi ->
  mi_ok (mi_modify it iv p) /\ mi_range 0 (mi_modify it iv p) = l1 ++ iv :: l2.
Proof.
  intros Hok Hp Ho Hi. apply intervals_splits in Hi as Hs. apply intervals_NoDup in Ho as Hd.
  destruct (mi_modify_done p it iv l1 l2) as (Hok' & _ & Hr & _); [done | by rewrite Hp | done | |].
  { intros z Hz. eauto using splits_no_conflict. }
  split; [done|]. apply (Hr 0%nat interval_lt l1 l2); [done | apply interval_lt_asym | done..].
Qed.

Lemma erase_range (p : mi pool_index) l1 l2 it lo hi :
  mi_ok p -> mi_range 0 p = l1 ++ it :: l2 -> intervals lo (l1 ++ it :: l2) hi ->
  mi_ok (mi_erase it p) /\ mi_range 0 (mi_erase it p) = l1 ++ l2.
Proof.
  intros Hok Hp Ho. apply intervals_NoDup in Ho as Hd. rewrite <- Hp in Hd.
  destruct (mi_erase_spec p it) as (Hok' & Hr & _); [done | rewrite Hp; set_solver | done..|].
  split; [done|]. by apply (Hr 0%nat).
Qed.

Lemma intervals_middle lo l1 it l2 hi :
  intervals lo (l1 ++ it :: l2) hi ->
  intervals lo l1 hi /\ after lo l1 <= low it <= high it /\ high it <= hi /\ intervals (high it + 2) l2 hi.
Proof. rewrite intervals_app. simpl. intros (? & ? & ? & ?). split_and!; done || lia. Qed.

Lemma intervals_middle_low lo l1 it l2 hi : intervals lo (l1 ++ it :: l2) hi -> lo <= low it.
Proof. intros Hi. apply intervals_Forall, Forall_app in Hi as [_ Hi]. apply Forall_inv in Hi. lia. Qed.

Lemma last_inv {A} (l : list A) x : last l = Some x -> exists l', l = l' ++ [x].
Proof. intros Hl. destruct l as [|y l _] using rev_ind; [done|]. rewrite last_snoc in Hl. simplify_eq. eauto. Qed.

Lemma last_None_inv {A} (l : list A) : last l = None -> l = [].
Proof. apply last_None. Qed.

(** *** Construction *)

Lemma full_pool lo hi (p : mi pool_index) a :
  lo <= hi -> lowest_ a = lo -> highest_ a = hi -> mi_ok p -> mi_range 0 p = [] ->
  becomes a (set_pool a (fst (mi_emplace (mk_interval lo hi) p))) (fun v => lo <= v <= hi).
Proof.
  intros Hle Hlo Hhi Hok Hp.
  assert (Hi : intervals lo [mk_interval lo hi] hi) by (solve_intervals).
  destruct (emplace_range p [] [] (mk_interval lo hi) lo hi) as [? Hr]; [done..|].
  eapply becomes_pool; [done | done | by rewrite Hlo, Hhi |].
  intros v. simpl. rewrite covers_cons, covers_nil. simpl. tauto.
Qed.

Lemma make_value_allocator_ok lo hi :
  lo <= hi ->
  let a := make_value_allocator lo hi in
  allocator_ok a /\ lowest_ a = lo /\ highest_ a = hi /\ forall v, vacant a v <-> lo <= v <= hi.
Proof.
  intros Hle. simpl. unfold make_value_allocator, emplace_interval.
  destruct (full_pool lo hi mi_empty (mk_allocator mi_empty lo hi)) as (? & ? & ? & ?);
    [done | done | done | apply mi_ok_empty | apply mi_range_empty|]. done.
Qed.

Lemma clear_ok a :
  lowest_ a <= highest_ a ->
  becomes a (clear a) (fun v => lowest_ a <= v <= highest_ a).
Proof.
  intros Hle. unfold clear, emplace_interval.
  apply (full_pool (lowest_ a) (highest_ a) mi_empty (set_pool a mi_empty));
    [done | done | done | apply mi_ok_empty | apply mi_range_empty].
Qed.

Lemma is_used_ok a v : allocator_ok a -> is_used v a = true <-> ~ vacant a v.
Proof.
  intros [_ Hi]. unfold is_used, find_interval, vacant. rewrite <- (find_point_None _ _ _ v Hi).
  destruct (List.find _ _); done.
Qed.

(** Machine arithmetic agrees with integer arithmetic on the values of the
    allocator: a type narrower than [int], or a bound below the maximum. *)
Variable bits : Z.

Definition width_ok a : Prop :=
  0 <= lowest_ a <= highest_ a /\ highest_ a < 2 ^ bits /\ (bits < 32 \/ highest_ a + 1 < 2 ^ bits).

Lemma promoted_ok a z : width_ok a -> 0 <= z <= highest_ a + 1 -> promoted bits z = z.
Proof.
  unfold width_ok, promoted. intros (? & ? & [|]) Hz; destruct (Z.ltb_spec bits 32); try lia; try done.
  apply Z.mod_small. lia.
Qed.

Lemma to_value_ok a z : width_ok a -> 0 <= z <= highest_ a -> to_value bits z = z.
Proof. unfold width_ok, to_value. intros (? & ? & _) Hz. apply Z.mod_small. lia. Qed.

(** *** allocate *)

Lemma allocate_ok a :
  allocator_ok a -> width_ok a ->
  match allocate bits a with
  | (None, a') => a' = a /\ forall v, ~ vacant a v
  | (Some v, a') => vacant a v /\ (forall w, vacant a w -> v <= w) /\ becomes a a' (fun w => vacant a w /\ w <> v)
  end.
Proof.
  intros [Hok Hi] Hw. unfold allocate, vacant in *. destruct (pool a) as [|it l] eqn:Hp.
  { split; [done|]. intros v. rewrite covers_nil. tauto. }
  simpl in Hi. destruct Hi as (Hlo & Hhi & Hl).
  assert (Hrest : forall w, covers l w -> high it + 2 <= w) by (intros w Hc; apply (covers_bounds _ _ _ _ Hl Hc)).
  split; [apply covers_cons; lia|]. split.
  { intros w. rewrite covers_cons. intros [?|Hc]; [lia | specialize (Hrest w Hc); lia]. }
  pose proof Hw as (Hb & _). rewrite (promoted_ok a) by (done || lia).
  destruct (Z.leb_spec (low it + 1) (high it)).
  - rewrite (to_value_ok a) by (done || lia).
    destruct (modify_range (pool_ a) [] l it (mk_interval (low it + 1) (high it)) (lowest_ a) (highest_ a))
      as [? Hr]; [done | done | solve_intervals.. |].
    eapply becomes_pool; [done | done | solve_intervals |].
    intros w. simpl. rewrite !covers_cons. simpl. specialize (Hrest w). intuition lia.
  - destruct (erase_range (pool_ a) [] l it (lowest_ a) (highest_ a)) as [? Hr];
      [done | done | solve_intervals |].
    eapply becomes_pool; [done | done | simpl; eapply intervals_weaken; [|done]; lia |].
    intros w. simpl. rewrite covers_cons. specialize (Hrest w). intuition lia.
Qed.

(** *** deallocate *)

(** The vacant values and the value next to the split of [upper_bound]. *)
Lemma emplace_point_new a v l1 l2 :
  mi_ok (pool_ a) -> pool a = l1 ++ l2 -> intervals (lowest_ a) (l1 ++ point v :: l2) (highest_ a) ->
  becomes a (emplace_interval (point v) a) (fun w => vacant a w \/ w = v).
Proof.
  intros Hok Hp Hi. destruct (emplace_range (pool_ a) l1 l2 (point v) _ _ Hok Hp Hi) as [? Hr].
  eapply becomes_pool; [done | done | done |]. unfold vacant. rewrite Hp.
  intros w. rewrite !covers_app, covers_cons. simpl. intuition lia.
Qed.

Lemma emplace_point_used a v it :
  allocator_ok a -> it ∈ pool a -> low it <= v <= high it ->
  becomes a (emplace_interval (point v) a) (fun w => vacant a w \/ w = v).
Proof.
  intros [Hok Hi] Hin Hv. unfold emplace_interval.
  rewrite (mi_emplace_fail (pool_ a) (point v) it);
    [|done|done|unfold conflicts; simpl; rewrite (proj2 (equiv_point v it ltac:(lia)) Hv); done].
  eapply becomes_pool; [done | done | done |]. intros w. unfold vacant.
  split; [tauto|]. intros [?| ->]; [done|]. apply Exists_exists. eauto.
Qed.

Lemma extend_interval a v l1 it new l2 :
  mi_ok (pool_ a) -> pool a = l1 ++ it :: l2 -> intervals (lowest_ a) (l1 ++ it :: l2) (highest_ a) ->
  intervals (lowest_ a) (l1 ++ new :: l2) (highest_ a) ->
  (forall w, low new <= w <= high new <-> low it <= w <= high it \/ w = v) ->
  becomes a (modify_interval it new a) (fun w => vacant a w \/ w = v).
Proof.
  intros Hok Hp Ho Hi Hnew. destruct (modify_range (pool_ a) l1 l2 it new _ _ Hok Hp Ho Hi) as [? Hr].
  eapply becomes_pool; [done | done | done |]. intros w. unfold vacant. rewrite Hp.
  rewrite !covers_app, !covers_cons, Hnew. tauto.
Qed.

Lemma join_intervals a v l1 itl itr l2 :
  allocator_ok a -> pool a = l1 ++ itl :: itr :: l2 -> high itl + 1 = v -> v + 1 = low itr ->
  becomes a (modify_interval itl (mk_interval (low itl) (high itr)) (erase_interval itr a))
    (fun w => vacant a w \/ w = v).
Proof.
  intros [Hok Hi] Hp Hl Hr. rewrite Hp in Hi.
  assert (Hi' : intervals (lowest_ a) (l1 ++ [itl]) (highest_ a) /\ intervals (high itl + 2) (itr :: l2) (highest_ a)).
  { change (itl :: itr :: l2) with ([itl] ++ itr :: l2) in Hi. rewrite app_assoc, intervals_app, after_snoc in Hi. done. }
  destruct Hi' as [Hi1 Hi2]. simpl in Hi2. destruct Hi2 as (? & ? & Hi2).
  apply intervals_middle in Hi1 as (Hi1 & ? & ? & _).
  destruct (erase_range (pool_ a) (l1 ++ [itl]) l2 itr (lowest_ a) (highest_ a)) as [Hok1 Hr1];
    [done | by rewrite <- app_assoc | by rewrite <- app_assoc |].
  rewrite <- app_assoc in Hr1.
  assert (intervals (lowest_ a) (l1 ++ itl :: l2) (highest_ a)).
  { apply intervals_app. solve_intervals. }
  destruct (modify_range (mi_erase itr (pool_ a)) l1 l2 itl (mk_interval (low itl) (high itr))
              (lowest_ a) (highest_ a)) as [? Hr2]; [done..| |].
  { apply intervals_app. solve_intervals. }
  apply (becomes_pool a (mi_modify itl (mk_interval (low itl) (high itr)) (mi_erase itr (pool_ a)))
           (l1 ++ mk_interval (low itl) (high itr) :: l2)); [done | done | |].
  - apply intervals_app. solve_intervals.
  - intros w. unfold vacant. rewrite Hp. rewrite !covers_app, !covers_cons. simpl. intuition lia.
Qed.

Lemma deallocate_ok a v :
  allocator_ok a -> width_ok a -> lowest_ a <= v <= highest_ a ->
  becomes a (deallocate bits v a) (fun w => vacant a w \/ w = v).
Proof.
  intros Ha Hw Hv. pose proof Ha as [Hok Hi]. pose proof Hw as (Hb & _). unfold deallocate.
  destruct (upper_bound interval_lt (point v) (pool a)) as [l1 l2] eqn:Hu.
  pose proof (upper_bound_point _ _ _ _ _ _ Hi Hu) as [H1 H2]. apply upper_bound_app in Hu as Hp.
  rewrite Hp in Hi. assert (Hl2 : forall itr l, l2 = itr :: l -> v < low itr) by (intros ? ? ->; by inversion H2).
  destruct (last l1) as [itl|] eqn:Hlast.
  - apply last_inv in Hlast as [l1' ->].
    assert (Hlv : low itl <= v) by (apply Forall_app in H1 as [_ H1]; by inversion H1).
    assert (Hi0 := Hi). rewrite <- app_assoc in Hi0. simpl in Hi0.
    pose proof (intervals_middle_low _ _ _ _ _ Hi0).
    apply intervals_middle in Hi0 as (Hi1 & ? & ? & Hi2).
    rewrite (promoted_ok a) by (done || lia).
    assert (Hused : low itl <= v <= high itl -> becomes a (emplace_interval (point v) a) (fun w => vacant a w \/ w = v)).
    { intros. apply (emplace_point_used a v itl); [done | | done].
      rewrite Hp. apply elem_of_app. left. apply elem_of_app. right. by constructor. }
    destruct l2 as [|itr l2].
    + destruct (Z.eqb_spec (high itl + 1) v).
      * apply (extend_interval a v l1' itl _ []); [done | by rewrite Hp, <- app_assoc | by rewrite <- app_assoc in Hi | | simpl; lia].
        apply intervals_app. solve_intervals.
      * destruct (decide (v <= high itl)); [apply Hused; lia|].
        apply (emplace_point_new a v (l1' ++ [itl]) []); [done..|].
        apply intervals_app. rewrite after_snoc. rewrite app_nil_r in Hi. solve_intervals.
    + specialize (Hl2 itr l2 eq_refl). simpl in Hi2. destruct Hi2 as (? & ? & Hi2).
      rewrite (promoted_ok a) by (done || lia).
      destruct (Z.eqb_spec (high itl + 1) v); destruct (Z.eqb_spec (v + 1) (low itr)).
      * apply (join_intervals a v l1' itl itr l2); [done | by rewrite Hp, <- app_assoc | done..].
      * apply (extend_interval a v l1' itl _ (itr :: l2)); [done | by rewrite Hp, <- app_assoc | by rewrite <- app_assoc in Hi | | simpl; lia].
        apply intervals_app. solve_intervals.
      * apply (extend_interval a v (l1' ++ [itl]) itr _ l2); [done | done | done | | simpl; lia].
        apply intervals_app in Hi as [? _]. apply intervals_app. rewrite after_snoc. solve_intervals.
      * destruct (decide (v <= high itl)); [apply Hused; lia|].
        apply (emplace_point_new a v (l1' ++ [itl]) (itr :: l2)); [done..|].
        apply intervals_app in Hi as [? _]. apply intervals_app. rewrite after_snoc. solve_intervals.
  - apply last_None_inv in Hlast as ->. simpl in Hi, Hp. destruct l2 as [|itr l2].
    + apply (emplace_point_new a v [] []); [done..|]. solve_intervals.
    + specialize (Hl2 itr l2 eq_refl). simpl in Hi. destruct Hi as (? & ? & Hi2).
      rewrite (promoted_ok a) by (done || lia). destruct (Z.eqb_spec (v + 1) (low itr)).
      * apply (extend_interval a v [] itr _ l2); [done | done | solve_intervals.. | simpl; lia].
      * apply (emplace_point_new a v [] (itr :: l2)); [done..|]. solve_intervals.
Qed.

(** *** use *)

(** what is left of an interval on both sides of [v] *)
Definition left_of (v : Z) (iv : value_interval) : list value_interval :=
  if low iv <? v then [mk_interval (low iv) (v - 1)] else [].
Definition right_of (v : Z) (iv : value_interval) : list value_interval :=
  if v + 1 <=? high iv then [mk_interval (v + 1) (high iv)] else [].

Lemma intervals_left lo l1 iv hi v :
  intervals lo l1 hi -> after lo l1 <= low iv -> low iv <= v <= hi ->
  intervals lo (l1 ++ left_of v iv) hi /\ after lo (l1 ++ left_of v iv) <= v + 1.
Proof.
  intros H1 Ha Hv. unfold left_of. destruct (Z.ltb_spec (low iv) v).
  - rewrite intervals_app, after_snoc. solve_intervals.
  - rewrite app_nil_r. solve_intervals.
Qed.

Lemma intervals_right lo iv l2 hi v :
  lo <= v + 1 -> v <= high iv <= hi -> intervals (high iv + 2) l2 hi -> intervals lo (right_of v iv ++ l2) hi.
Proof. intros Hlo Hv H2. unfold right_of. destruct (Z.leb_spec (v + 1) (high iv)); solve_intervals. Qed.

Lemma covers_cut lo l1 iv l2 hi v w :
  intervals lo (l1 ++ iv :: l2) hi -> low iv <= v <= high iv ->
  covers ((l1 ++ left_of v iv) ++ right_of v iv ++ l2) w <-> covers (l1 ++ iv :: l2) w /\ w <> v.
Proof.
  intros Hi Hv. apply intervals_middle in Hi as (H1 & ? & ? & H2).
  pose proof (covers_before _ _ _ w H1). pose proof (covers_bounds _ _ _ w H2).
  rewrite !covers_app, covers_cons. unfold left_of, right_of.
  destruct (Z.ltb_spec (low iv) v); destruct (Z.leb_spec (v + 1) (high iv));
    rewrite ?covers_cons, ?covers_nil; simpl; intuition lia.
Qed.

(** emplacing an optional interval *)
Lemma emplace_piece (p : mi pool_index) (c : bool) l1 l2 iv lo hi :
  mi_ok p -> mi_range 0 p = l1 ++ l2 -> intervals lo (l1 ++ (if c then [iv] else []) ++ l2) hi ->
  let p' := if c then fst (mi_emplace iv p) else p in
  mi_ok p' /\ mi_range 0 p' = l1 ++ (if c then [iv] else []) ++ l2.
Proof. destruct c; simpl; intros; [by eapply emplace_range | done]. Qed.

Lemma use_ok a v :
  allocator_ok a -> width_ok a ->
  match use bits v a with
  | (true, a') => vacant a v /\ becomes a a' (fun w => vacant a w /\ w <> v)
  | (false, a') => ~ vacant a v /\ a' = a
  end.
Proof.
  intros [Hok Hi] Hw. pose proof Hw as (Hb & _). unfold use, find_interval.
  destruct (List.find (equiv_by interval_lt (point v)) (pool a)) as [iv|] eqn:Hf; simpl.
  2: { apply (find_point_None _ _ _ _ Hi) in Hf. done. }
  apply (find_point_Some _ _ _ _ _ Hi) in Hf as [Hin Hv].
  split; [apply Exists_exists; eauto|].
  apply list_elem_of_split in Hin as (l1 & l2 & Hp). rewrite Hp in Hi.
  destruct (erase_range (pool_ a) l1 l2 iv _ _ Hok Hp Hi) as [Hok1 Hr1].
  pose proof (intervals_middle_low _ _ _ _ _ Hi) as Hlo.
  assert (HV := fun w => covers_cut _ _ _ _ _ v w Hi Hv).
  apply intervals_middle in Hi as (Hi1 & ? & ? & Hi2).
  destruct (intervals_left _ _ iv _ v Hi1) as [HL HA]; [lia..|].
  pose proof (intervals_right _ iv l2 (highest_ a) v HA ltac:(lia) Hi2) as HR.
  assert (HLL : intervals (lowest_ a) (l1 ++ left_of v iv ++ l2) (highest_ a)).
  { rewrite app_assoc, intervals_app. solve_intervals. }
  pose proof (emplace_piece _ (low iv <? v) l1 l2 (mk_interval (low iv) (v - 1)) _ _ Hok1 Hr1 HLL) as [Hok2 Hr2].
  fold (left_of v iv) in Hr2. rewrite app_assoc in Hr2.
  assert (HI : intervals (lowest_ a) ((l1 ++ left_of v iv) ++ right_of v iv ++ l2) (highest_ a)).
  { by rewrite intervals_app. }
  pose proof (emplace_piece _ (v + 1 <=? high iv) _ _ (mk_interval (v + 1) (high iv)) _ _ Hok2 Hr2 HI) as [Hok3 Hr3].
  fold (right_of v iv) in Hr3. rewrite (promoted_ok a) by (done || lia).
  match type of Hr3 with mi_range 0 ?p = _ =>
    assert (Hres : forall a', a' = set_pool a p -> becomes a a' (fun w => vacant a w /\ w <> v)) end.
  { intros a' ->. eapply becomes_pool; [done | done | done |]. intros w. rewrite HV. unfold vacant. by rewrite Hp. }
  apply Hres. unfold emplace_interval, erase_interval, set_pool. simpl.
  destruct (Z.ltb_spec (low iv) v); destruct (Z.leb_spec (v + 1) (high iv)); simpl;
    rewrite ?(to_value_ok a) by (done || lia); done.
Qed.
End allocator_facts.

(** ** Refinement: the allocator implements a set of vacant values *)

Inductive alloc_op := op_allocate | op_first_vacant | op_deallocate (v : Z) | op_use (v : Z) | op_is_used (v : Z) | op_clear.

Inductive alloc_out := out_value (v : option Z) | out_bool (b : bool) | out_unit.

Definition run_op `{BoostMultiIndex} (bits : Z) (op : alloc_op) (a : value_allocator) : alloc_out * value_allocator :=
  match op with
  | op_allocate => let (v, a') := allocate bits a in (out_value v, a')
  | op_first_vacant => (out_value (first_vacant a), a)
  | op_deallocate v => (out_unit, deallocate bits v a)
  | op_use v => let (b, a') := use bits v a in (out_bool b, a')
  | op_is_used v => (out_bool (is_used v a), a)
  | op_clear => (out_unit, clear a)
  end.

Definition least_of (S : Z -> Prop) (v : option Z) : Prop :=
  match v with
  | Some v => S v /\ forall w, S w -> v <= w
  | None => forall w, ~ S w
  end.

(** The abstract machine on the set of vacant values. *)
Inductive spec_op (lo hi : Z) (S : Z -> Prop) : alloc_op -> alloc_out -> (Z -> Prop) -> Prop :=
| spec_allocate v S' : least_of S v -> (forall w, S' w <-> S w /\ Some w <> v) -> spec_op lo hi S op_allocate (out_value v) S'
| spec_first_vacant v S' : least_of S v -> (forall w, S' w <-> S w) -> spec_op lo hi S op_first_vacant (out_value v) S'
| spec_deallocate v S' : (forall w, S' w <-> S w \/ w = v) -> spec_op lo hi S (op_deallocate v) out_unit S'
| spec_use v b S' : (b = true <-> S v) -> (forall w, S' w <-> S w /\ w <> v) -> spec_op lo hi S (op_use v) (out_bool b) S'
| spec_is_used v b S' : (b = true <-> ~ S v) -> (forall w, S' w <-> S w) -> spec_op lo hi S (op_is_used v) (out_bool b) S'
| spec_clear S' : (forall w, S' w <-> lo <= w <= hi) -> spec_op lo hi S op_clear out_unit S'.

Definition op_in_range (lo hi : Z) (op : alloc_op) : Prop :=
  match op with op_deallocate v => lo <= v <= hi | _ => True end.

Fixpoint run_ops `{BoostMultiIndex} (bits : Z) (ops : list alloc_op) (a : value_allocator) : list alloc_out * value_allocator :=
  match ops with
  | [] => ([], a)
  | op :: ops' =>
    let (o, a1) := run_op bits op a in
    let (os, a2) := run_ops bits ops' a1 in (o :: os, a2)
  end.

Inductive spec_ops (lo hi : Z) : (Z -> Prop) -> list alloc_op -> list alloc_out -> (Z -> Prop) -> Prop :=
| spec_nil S S' : (forall w, S' w <-> S w) -> spec_ops lo hi S [] [] S'
| spec_cons S op o S1 ops os S2 :
    spec_op lo hi S op o S1 -> spec_ops lo hi S1 ops os S2 -> spec_ops lo hi S (op :: ops) (o :: os) S2.

(** The machine does not distinguish sets with the same members. *)
Lemma least_of_ext (S T : Z -> Prop) v : (forall w, S w <-> T w) -> least_of S v -> least_of T v.
Proof. intros HST. destruct v; simpl; setoid_rewrite HST; done. Qed.

Lemma spec_op_ext lo hi (S T : Z -> Prop) op o S' :
  (forall w, S w <-> T w) -> spec_op lo hi S op o S' -> spec_op lo hi T op o S'.
Proof.
  intros HST. destruct 1 as [v S' Hl HS|v S' Hl HS|v S' HS|v b S' Hb HS|v b S' Hb HS|S' HS];
    setoid_rewrite HST in HS || idtac; constructor; eauto using least_of_ext; by rewrite <- HST.
Qed.

#[export] Instance spec_ops_proper lo hi :
  Proper (pointwise_relation Z iff ==> eq ==> eq ==> pointwise_relation Z iff ==> iff) (spec_ops lo hi).
Proof.
  assert (Hgen : forall S ops os S', spec_ops lo hi S ops os S' -> forall T T',
    (forall w, S w <-> T w) -> (forall w, S' w <-> T' w) -> spec_ops lo hi T ops os T').
  { intros S ops os S' H. induction H as [S S' HS|S op o S1 ops os S2 Hop Hrest IH]; intros T T' HT HT'.
    - constructor. intros w. by rewrite <- HT', HS, HT.
    - econstructor; [by eapply spec_op_ext|]. by apply IH. }
  intros S T HST ops ? <- os ? <- S' T' HST'. split; intros H; (eapply Hgen; [apply H|..]); intros w;
    (apply HST || apply HST' || (symmetry; apply HST) || (symmetry; apply HST')).
Qed.

Section refinement.
Context {BMI : BoostMultiIndex} {BMO : BoostMultiIndexOk}.
Variable bits : Z.

Lemma first_vacant_ok a : allocator_ok a -> least_of (vacant a) (first_vacant a).
Proof.
  intros [_ Hi]. unfold first_vacant, vacant. destruct (pool a) as [|it l]; simpl.
  - intros w. rewrite covers_nil. tauto.
  - simpl in Hi. destruct Hi as (? & ? & Hl). split; [apply covers_cons; lia|].
    intros w. rewrite covers_cons. intros [?|Hc]; [lia|]. pose proof (covers_bounds _ _ _ _ Hl Hc). lia.
Qed.

Lemma run_op_spec a op :
  allocator_ok a -> width_ok bits a -> op_in_range (lowest_ a) (highest_ a) op ->
  let (o, a') := run_op bits op a in
  spec_op (lowest_ a) (highest_ a) (vacant a) op o (vacant a') /\
  allocator_ok a' /\ lowest_ a' = lowest_ a /\ highest_ a' = highest_ a.
Proof.
  intros Ha Hw Hop. destruct op as [| |v|v|v|]; simpl.
  - pose proof (allocate_ok bits a Ha Hw) as H. destruct (allocate bits a) as [[v|] a'].
    + destruct H as (Hv & Hl & Hok & Hlo & Hhi & Hs). split_and!; try done.
      constructor; [done|]. intros w. rewrite Hs. intuition congruence.
    + destruct H as [-> Hn]. split_and!; try done. by constructor; [done|intuition].
  - split_and!; try done. constructor; [by apply first_vacant_ok | done].
  - destruct (deallocate_ok bits a v Ha Hw Hop) as (Hok & Hlo & Hhi & Hs). split_and!; try done. by constructor.
  - pose proof (use_ok bits a v Ha Hw) as H. destruct (use bits v a) as [[|] a'].
    + destruct H as (Hv & Hok & Hlo & Hhi & Hs). split_and!; try done. by constructor.
    + destruct H as [Hv ->]. split_and!; try done. constructor; [done|].
      intros w. split; [|tauto]. intros Hw'. split; [done|]. by intros ->.
  - split_and!; try done. constructor; [by apply is_used_ok | done].
  - destruct Hw as (? & _). destruct (clear_ok a) as (Hok & Hlo & Hhi & Hs); [lia|].
    split_and!; try done. by constructor.
Qed.

Lemma run_ops_spec ops a :
  allocator_ok a -> width_ok bits a -> Forall (op_in_range (lowest_ a) (highest_ a)) ops ->
  let (os, a') := run_ops bits ops a in
  spec_ops (lowest_ a) (highest_ a) (vacant a) ops os (vacant a') /\ allocator_ok a'.
Proof.
  revert a. induction ops as [|op ops IH]; intros a Ha Hw Hf; simpl; [by split; [constructor|]|].
  apply Forall_cons in Hf as [Hop Hf].
  pose proof (run_op_spec a op Ha Hw Hop) as H. destruct (run_op bits op a) as [o a1].
  destruct H as (Hs & Ha1 & Hlo & Hhi).
  assert (Hw1 : width_ok bits a1) by (unfold width_ok in *; by rewrite Hlo, Hhi).
  rewrite <- Hlo, <- Hhi in Hf. specialize (IH a1 Ha1 Hw1 Hf).
  destruct (run_ops bits ops a1) as [os a2]. destruct IH as [Hs2 Ha2]. rewrite Hlo, Hhi in Hs2.
  split; [by econstructor | done].
Qed.

(** C4: every sequence of calls on a fresh allocator behaves like the
    abstract machine on the set of vacant values, initially all of
    [lo, hi]: [allocate] takes the least vacant value, [use] and [is_used]
    decide membership, [deallocate] gives a value back (also when it was
    vacant), [clear] restores the full set; and the intervals stay sorted,
    disjoint and merged. *)
Theorem value_allocator_refines lo hi ops :
  0 <= lo <= hi -> hi < 2 ^ bits -> bits < 32 \/ hi + 1 < 2 ^ bits -> Forall (op_in_range lo hi) ops ->
  let (os, a) := run_ops bits ops (make_value_allocator lo hi) in
  spec_ops lo hi (fun v => lo <= v <= hi) ops os (vacant a) /\ allocator_ok a.
Proof.
  intros Hle Hb Hn Hf. destruct (make_value_allocator_ok lo hi) as (Ha & Hlo & Hhi & Hv); [lia|].
  assert (Hw : width_ok bits (make_value_allocator lo hi)) by (unfold width_ok; by rewrite Hlo, Hhi).
  rewrite <- Hlo, <- Hhi in Hf. pose proof (run_ops_spec ops _ Ha Hw Hf) as H.
  destruct (run_ops bits ops _) as [os a]. destruct H as [Hs Hok]. rewrite Hlo, Hhi in Hs. split; [|done].
  rewrite <- (spec_ops_proper lo hi _ _ Hv ops _ eq_refl os _ eq_refl (vacant a) (vacant a)); [done|].
  intros w. done.
Qed.
End refinement.

Lemma value_allocator_refines_witness :
  let (os, a) := run_ops (H := ListMultiIndex.list_multi_index) 16
                   [op_allocate; op_use 2; op_deallocate 1; op_is_used 2] (make_value_allocator 1 65535) in
  spec_ops 1 65535 (fun v => 1 <= v <= 65535) [op_allocate; op_use 2; op_deallocate 1; op_is_used 2] os (vacant a) /\
  allocator_ok (BMO := ListMultiIndex.list_multi_index_ok) a.
Proof.
  apply (value_allocator_refines (BMO := ListMultiIndex.list_multi_index_ok)); [lia | reflexivity | left; lia|].
  repeat constructor; simpl; lia.
Defined.

Section wrap.
Context {BMI : BoostMultiIndex} {BMO : BoostMultiIndexOk}.

(** with [std::uint32_t] values the increment of [allocate] wraps at
    the top of the range: when 4294967295 is the only vacant value, it is
    handed out, the pool becomes the whole range from 0, and the next call
    hands out 0, which is below the lowest value of a packet id
    allocator. *)
Theorem allocate_wraps_at_32_bits (a : value_allocator) :
  mi_ok (pool_ a) -> pool a = [mk_interval 4294967295 4294967295] ->
  fst (allocate 32 a) = Some 4294967295 /\
  fst (allocate 32 (snd (allocate 32 a))) = Some 0.
Proof.
  intros Hok Hp.
  assert (Ha : snd (allocate 32 a) = modify_interval (mk_interval 4294967295 4294967295) (mk_interval 0 4294967295) a).
  { unfold allocate. rewrite Hp. reflexivity. }
  rewrite Ha. split; [unfold allocate; by rewrite Hp|].
  destruct (modify_range (pool_ a) [] [] (mk_interval 4294967295 4294967295) (mk_interval 0 4294967295) 0 4294967295)
    as [_ Hr]; [done | done | solve_intervals..|].
  unfold allocate, pool, modify_interval. cbn [pool_ set_pool]. rewrite Hr. done.
Qed.
End wrap.

Lemma allocate_wraps_at_32_bits_witness :
  let a := make_value_allocator (BMI := ListMultiIndex.list_multi_index) 4294967295 4294967295 in
  fst (allocate 32 a) = Some 4294967295 /\ fst (allocate 32 (snd (allocate 32 a))) = Some 0.
Proof.
  apply (allocate_wraps_at_32_bits (BMO := ListMultiIndex.list_multi_index_ok)); [|reflexivity].
  apply (make_value_allocator_ok (BMO := ListMultiIndex.list_multi_index_ok) 4294967295 4294967295). lia.
Defined.
