(* ===== verification/PacketIdManager.v ===== *)
(** * Packet identifiers: protocol/impl/packet_id_manager.hpp

    [packet_id_manager] wraps the value allocator over [1, max].  The
    connection is verified against the interface of this file; the second
    half discharges the interface with the allocator. *)
From S2P Require Import Prelude Boost ValueAllocator.

(** ** Interface *)

Class PacketIdManager (M : Type) : Type := {
  pm_new : M;
  acquire_unique_id : M -> option Z * M;
  register_id : Z -> M -> bool * M;
  is_used_id : Z -> M -> bool;
  release_id : Z -> M -> M;
  pm_clear : M -> M;
}.

(** [max]: [std::numeric_limits<packet_id_type>::max()]. *)
Class PacketIdManagerOk (M : Type) {PM : PacketIdManager M} (max : Z) : Type := {
  pm_ok : M -> Prop;
  pm_ok_new : pm_ok pm_new;
  is_used_id_new : forall v, is_used_id v pm_new = false <-> 1 <= v <= max;
  acquire_unique_id_spec : forall m, pm_ok m ->
    match acquire_unique_id m with
    | (Some v, m') =>
      1 <= v <= max /\ is_used_id v m = false /\ (forall w, is_used_id w m = false -> v <= w) /\
      pm_ok m' /\ forall w, is_used_id w m' = (w =? v) || is_used_id w m
    | (None, m') => m' = m /\ forall w, is_used_id w m = true
    end;
  register_id_spec : forall m v, pm_ok m ->
    fst (register_id v m) = negb (is_used_id v m) /\ pm_ok (snd (register_id v m)) /\
    forall w, is_used_id w (snd (register_id v m)) = (w =? v) || is_used_id w m;
  release_id_spec : forall m v, pm_ok m -> 1 <= v <= max ->
    pm_ok (release_id v m) /\ forall w, is_used_id w (release_id v m) = negb (w =? v) && is_used_id w m;
  pm_clear_spec : forall m, pm_ok m ->
    pm_ok (pm_clear m) /\ forall v, is_used_id v (pm_clear m) = false <-> 1 <= v <= max;
}.

(** ** Implementation *)

Section implementation.
Context {BMI : BoostMultiIndex}.
(** the width of [packet_id_type] *)
Variable bits : Z.

Record packet_id_manager := mk_packet_id_manager { va_ : value_allocator }.

Definition max_packet_id : Z := 2 ^ bits - 1.

Definition make_packet_id_manager : packet_id_manager :=
  mk_packet_id_manager (make_value_allocator 1 max_packet_id).

Definition acquire (m : packet_id_manager) : option Z * packet_id_manager :=
  let (v, a) := allocate bits (va_ m) in (v, mk_packet_id_manager a).

Definition register (packet_id : Z) (m : packet_id_manager) : bool * packet_id_manager :=
  let (b, a) := use bits packet_id (va_ m) in (b, mk_packet_id_manager a).

Definition id_is_used (packet_id : Z) (m : packet_id_manager) : bool := is_used packet_id (va_ m).

Definition release (packet_id : Z) (m : packet_id_manager) : packet_id_manager :=
  mk_packet_id_manager (deallocate bits packet_id (va_ m)).

Definition clear_ids (m : packet_id_manager) : packet_id_manager := mk_packet_id_manager (clear (va_ m)).

#[export] Instance allocator_manager : PacketIdManager packet_id_manager := {
  pm_new := make_packet_id_manager;
  acquire_unique_id := acquire;
  register_id := register;
  is_used_id := id_is_used;
  release_id := release;
  pm_clear := clear_ids;
}.
End implementation.

Section laws.
Context {BMI : BoostMultiIndex} {BMO : BoostMultiIndexOk}.
Variable bits : Z.
Hypothesis Hbits : 1 <= bits < 32.

Abbreviation max := (max_packet_id bits).

Definition manager_ok (m : packet_id_manager) : Prop :=
  allocator_ok (va_ m) /\ lowest_ (va_ m) = 1 /\ highest_ (va_ m) = max.

Lemma max_packet_id_bound : 1 <= max < 2 ^ bits.
Proof.
  unfold max_packet_id. assert (2 ^ 1 <= 2 ^ bits) by (apply Z.pow_le_mono_r; lia). lia.
Qed.

Lemma manager_width m : manager_ok m -> width_ok bits (va_ m).
Proof.
  intros (_ & Hlo & Hhi). pose proof max_packet_id_bound. unfold width_ok. rewrite Hlo, Hhi. lia.
Qed.

Lemma is_used_vacant m v : manager_ok m -> id_is_used v m = false <-> vacant (va_ m) v.
Proof.
  intros (Ha & _). rewrite <- Bool.not_true_iff_false. unfold id_is_used. rewrite is_used_ok by done.
  unfold vacant, covers. destruct (decide (Exists (fun iv => low iv <= v <= high iv) (pool (va_ m)))); tauto.
Qed.

Lemma vacant_range m v : manager_ok m -> vacant (va_ m) v -> 1 <= v <= max.
Proof. intros ([_ Hi] & Hlo & Hhi) Hv. rewrite Hlo, Hhi in Hi. by apply (covers_bounds _ _ _ _ Hi). Qed.

(** the value of [is_used] from the vacant values *)
Lemma is_used_becomes m a' (P : Z -> Prop) :
  manager_ok m -> becomes (va_ m) a' P ->
  manager_ok (mk_packet_id_manager a') /\ forall w, id_is_used w (mk_packet_id_manager a') = false <-> P w.
Proof.
  intros (_ & Hlo & Hhi) (Ha & Hlo' & Hhi' & HP).
  assert (Hm : manager_ok (mk_packet_id_manager a')) by (split_and!; simpl; congruence || done).
  split; [done|]. intros w. rewrite is_used_vacant by done. apply HP.
Qed.

Lemma bool_eq_false (b c : bool) : (b = false <-> c = false) -> b = c.
Proof. destruct b, c; intuition. Qed.

#[export] Instance allocator_manager_ok : PacketIdManagerOk packet_id_manager (PM := allocator_manager bits) max.
Proof.
  pose proof max_packet_id_bound as Hmax.
  refine {| pm_ok := manager_ok |}; simpl.
  - destruct (make_value_allocator_ok 1 max) as (? & ? & ? & _); [lia|]. split_and!; done.
  - intros v. destruct (make_value_allocator_ok 1 max) as (Ha & Hlo & Hhi & Hv); [lia|].
    rewrite is_used_vacant by (split_and!; done). apply Hv.
  - intros m Hm. unfold acquire. pose proof (allocate_ok bits (va_ m) (proj1 Hm) (manager_width m Hm)) as H.
    destruct (allocate bits (va_ m)) as [[v|] a'].
    + destruct H as (Hv & Hleast & Hb). split; [by apply (vacant_range m)|].
      split; [by apply is_used_vacant|]. split; [intros w Hw; apply Hleast; by apply is_used_vacant in Hw|].
      destruct (is_used_becomes m _ _ Hm Hb) as [Hm' Hu]. split; [done|]. intros w.
      apply bool_eq_false. rewrite Hu, <- is_used_vacant by done. rewrite orb_false_iff, Z.eqb_neq. tauto.
    + destruct H as [-> Hn]. split; [by destruct m|]. intros w. apply Bool.not_false_iff_true.
      rewrite is_used_vacant by done. apply Hn.
  - intros m v Hm. unfold register. pose proof (use_ok bits (va_ m) v (proj1 Hm) (manager_width m Hm)) as H.
    destruct (use bits v (va_ m)) as [[|] a']; simpl; destruct H as [Hv H].
    + apply is_used_vacant in Hv as ->; [|done]. destruct (is_used_becomes m _ _ Hm H) as [Hm' Hu].
      split; [done|]. split; [done|]. intros w.
      apply bool_eq_false. rewrite Hu, <- is_used_vacant by done. rewrite orb_false_iff, Z.eqb_neq. tauto.
    + subst a'. rewrite <- is_used_vacant in Hv by done. apply Bool.not_false_iff_true in Hv as Hu. rewrite Hu.
      replace (mk_packet_id_manager (va_ m)) with m by (by destruct m). split; [done|]. split; [done|].
      intros w. destruct (Z.eqb_spec w v) as [->|]; done.
  - intros m v Hm Hv. unfold release. pose proof Hm as (Ha & Hlo & Hhi).
    pose proof (deallocate_ok bits (va_ m) v Ha (manager_width m Hm)) as H. rewrite Hlo, Hhi in H.
    destruct (is_used_becomes m _ _ Hm (H Hv)) as [Hm' Hu]. split; [done|]. intros w.
    apply bool_eq_false. rewrite Hu, <- is_used_vacant by done.
    rewrite andb_false_iff, Bool.negb_false_iff, Z.eqb_eq. tauto.
  - intros m Hm. pose proof Hm as (Ha & Hlo & Hhi). pose proof (clear_ok (va_ m)) as H. rewrite Hlo, Hhi in H.
    apply (is_used_becomes m); [done|]. apply H. lia.
Defined.
End laws.
