(* ===== verification/TopicAlias.v ===== *)
(** * Topic aliases: util/topic_alias_recv.hpp and util/topic_alias_send.hpp

    The receiving side maps aliases to topics.  The sending side also finds
    an alias by topic and picks the least recently used alias; it keeps the
    unused aliases in a value allocator and the mappings in a container with
    three indices (alias, topic, time). *)
From S2P Require Import Prelude Boost ValueAllocator.

Lemma bytes_lt_equiv a b : equiv_by bytes_lt a b = true <-> a = b.
Proof.
  unfold equiv_by. revert b. induction a as [|x a IH]; intros [|y b]; simpl; try done.
  specialize (IH b).
  destruct (Z.ltb_spec (u8 x) (u8 y)); destruct (Z.ltb_spec (u8 y) (u8 x)); try lia; simpl.
  - split; [done | intros [= -> ->]; lia].
  - rewrite andb_false_r. split; [done | intros [= -> ->]; lia].
  - assert (Hxy : x = y) by (apply u8_inj; lia). subst y. rewrite Z.eqb_refl. simpl.
    rewrite IH. split; [by intros -> | by intros [= ->]].
Qed.

(** ** Indices with an integer key *)
Section key.
Context {E : Type} (key : E -> Z).

Definition key_lt (a b : E) : bool := key a <? key b.

(** [lower_bound(a)]: the first element whose key is not less than [a] *)
Definition lower_bound (a : Z) (l : list E) : option E := List.find (fun e => negb (key e <? a)) l.

Lemma equiv_by_key x y : equiv_by key_lt x y = (key x =? key y).
Proof. unfold equiv_by, key_lt. destruct (Z.ltb_spec (key x) (key y)), (Z.ltb_spec (key y) (key x)); simpl; lia. Qed.

Lemma key_lt_order :
  (forall a b d, key_lt b a = false -> key_lt d b = false -> key_lt d a = false) /\ asymmetric key_lt.
Proof. unfold key_lt. split; repeat intro; lia. Qed.

Lemma unique_for_key a (l : list E) : NoDup (map key l) -> unique_for (fun e => key e =? a) l.
Proof. intros Hd. apply (unique_key key); [done|]. intros x y. lia. Qed.

Lemma lower_bound_spec a (l : list E) :
  StronglySorted (fun x y => key_lt y x = false) l ->
  match lower_bound a l with
  | Some it => it ∈ l /\ (key it <> a -> forall e, e ∈ l -> key e <> a)
  | None => forall e, e ∈ l -> key e <> a
  end.
Proof.
  unfold key_lt, lower_bound. induction 1 as [|x l Hs IH Hx]; simpl; [intros e He; by apply not_elem_of_nil in He|].
  rewrite Forall_forall in Hx. destruct (Z.ltb_spec (key x) a) as [Hlt|Hge]; simpl.
  - destruct (List.find _ l) as [it|].
    + destruct IH as [Hin Hne]. split; [by right|]. intros Hna e He.
      apply elem_of_cons in He as [->|He]; [lia | by apply Hne].
    + intros e He. apply elem_of_cons in He as [->|He]; [lia | by apply IH].
  - split; [by left|]. intros Hne e He. apply elem_of_cons in He as [->|He]; [done|].
    specialize (Hx e He). simpl in Hx. lia.
Qed.

(** [insert_or_update] of both classes: [x] is the new entry, [y it] the
    entry [it] is modified to. *)
Section put.
Context {BMI : BoostMultiIndex} {BMO : BoostMultiIndexOk} {HE : EqDecision E} (ix : list (index E)).
Implicit Types c : mi (ordered_unique key_lt :: ix).
Abbreviation elements c := (mi_range 0 c).

Definition put (a : Z) (x : E) (y : E -> E) c : mi (ordered_unique key_lt :: ix) :=
  match lower_bound a (elements c) with
  | Some it => if key it =? a then mi_modify it (y it) c else fst (mi_emplace x c)
  | None => fst (mi_emplace x c)
  end.

(** [c'] has [x] in the place of the elements of [c] with the key [a] *)
Definition replaces a x c c' : Prop :=
  mi_ok c' /\ NoDup (map key (elements c')) /\
  exists l, elements c' ≡ₚ x :: l /\ forall e, e ∈ l <-> e ∈ elements c /\ key e <> a.

Lemma keyed_sorted c : mi_ok c -> StronglySorted (fun x y => key_lt y x = false) (elements c).
Proof.
  intros Hok. destruct key_lt_order. by apply (mi_range_sorted _ 0%nat (ordered_unique key_lt)).
Qed.

Lemma NoDup_keys_middle l1 it l2 :
  NoDup (map key (l1 ++ it :: l2)) -> NoDup (map key (l1 ++ l2)) /\ forall e, e ∈ l1 ++ l2 -> key e <> key it.
Proof.
  rewrite map_app. simpl. rewrite <- Permutation_middle, <- map_app. intros Hd.
  apply NoDup_cons in Hd as [Hn Hd]. split; [done|]. intros e He Heq. apply Hn. rewrite <- Heq.
  apply list_elem_of_fmap. eauto.
Qed.

(** an element modified to [x], under its key *)
Lemma modify_replaces a x it c :
  mi_ok c -> NoDup (map key (elements c)) -> it ∈ elements c -> key it = a -> key x = a ->
  (forall z, z ∈ elements c -> key z <> a -> conflicts (ordered_unique key_lt :: ix) x z = false) ->
  replaces a x c (mi_modify it x c).
Proof.
  intros Hok Hd Hin Ha Hx Hc. apply list_elem_of_split in Hin as (l1 & l2 & Hl). assert (Hd' := Hd). rewrite Hl in Hd'.
  apply NoDup_keys_middle in Hd' as [Hd' Hne'].
  destruct (mi_modify_done c it x l1 l2) as (Hok' & _ & _ & Hp); [done | by apply (NoDup_map_NoDup key) | done | |].
  { intros z Hz. apply Hc; [rewrite Hl, <- Permutation_middle; by right | rewrite <- Ha; auto]. }
  specialize (Hp ltac:(done)). split; [done|]. split.
  - rewrite Hp. simpl. constructor; [|done]. intros Hz.
    apply list_elem_of_fmap in Hz as (e & He & Hz). apply (Hne' e Hz). congruence.
  - exists (l1 ++ l2). split; [done|]. intros e. rewrite Hl, <- Permutation_middle, elem_of_cons. split.
    + intros He. split; [by right|]. rewrite <- Ha. auto.
    + intros [[->|He] He']; done.
Qed.

Lemma put_replaces a x y c :
  mi_ok c -> NoDup (map key (elements c)) -> key x = a -> (forall it, key it = a -> y it = x) ->
  (forall z, z ∈ elements c -> key z <> a -> conflicts (ordered_unique key_lt :: ix) x z = false) ->
  replaces a x c (put a x y c).
Proof.
  intros Hok Hd Hx Hy Hc. unfold put. pose proof (lower_bound_spec a _ (keyed_sorted c Hok)) as Hlb.
  assert (Hnew : (forall e, e ∈ elements c -> key e <> a) -> replaces a x c (fst (mi_emplace x c))).
  { intros Hn. destruct (mi_emplace_done c x) as (_ & Hok' & _ & _ & Hp); [done | by auto |].
    specialize (Hp ltac:(done)). split; [done|]. split; [|exists (elements c); split; [done|]; intros e; split; [auto | tauto]].
    rewrite Hp. simpl. constructor; [|done]. intros Hin.
    apply list_elem_of_fmap in Hin as (e & He & Hin). apply (Hn e Hin). congruence. }
  destruct (lower_bound a (elements c)) as [it|]; [|by apply Hnew]. destruct Hlb as [Hin Hne].
  destruct (Z.eqb_spec (key it) a) as [Ha|Ha]; [|by apply Hnew; auto]. rewrite (Hy it Ha). by apply modify_replaces.
Qed.

(** an entry that conflicts with an element of another key: the elements
    with the key [a] are gone, the others stay *)
Lemma put_refused a x y z c :
  mi_ok c -> NoDup (map key (elements c)) -> (forall it, key it = a -> y it = x) ->
  z ∈ elements c -> key z <> a -> conflicts (ordered_unique key_lt :: ix) x z = true ->
  mi_ok (put a x y c) /\ sublist (elements (put a x y c)) (elements c) /\
  forall e, e ∈ elements (put a x y c) <-> e ∈ elements c /\ key e <> a.
Proof.
  intros Hok Hd Hy Hz Hne Hc. unfold put. pose proof (lower_bound_spec a _ (keyed_sorted c Hok)) as Hlb.
  rewrite (mi_emplace_fail c x z) by done. simpl.
  assert (Hsame : (forall e, e ∈ elements c -> key e <> a) ->
    mi_ok c /\ sublist (elements c) (elements c) /\ forall e, e ∈ elements c <-> e ∈ elements c /\ key e <> a).
  { intros Hn. split; [done|]. split; [done|]. intros e. split; [auto | tauto]. }
  destruct (lower_bound a (elements c)) as [it|]; [|by apply Hsame]. destruct Hlb as [Hin Hno].
  destruct (Z.eqb_spec (key it) a) as [Ha|Ha]; [|by apply Hsame, Hno].
  apply list_elem_of_split in Hin as (l1 & l2 & Hl). assert (Hd' := Hd). rewrite Hl in Hd'.
  apply NoDup_keys_middle in Hd' as [_ Hne']. rewrite (Hy it Ha).
  destruct (mi_modify_collision c it x z l1 l2) as [Hok' ->]; try done.
  - by apply (NoDup_map_NoDup key).
  - rewrite Hl, <- Permutation_middle in Hz. by apply elem_of_cons in Hz as [->|Hz].
  - split; [done|]. rewrite Hl. split; [by apply sublist_app, sublist_cons|].
    intros e. rewrite <- Permutation_middle, elem_of_cons. split.
    + intros He. split; [by right|]. rewrite <- Ha. auto.
    + intros [[->|He] He']; done.
Qed.

(** a lookup by key *)
Lemma find_replaces a x b c c' :
  key x = a -> NoDup (map key (elements c)) -> replaces a x c c' ->
  List.find (fun e => key e =? b) (elements c') =
  (if b =? a then Some x else List.find (fun e => key e =? b) (elements c)).
Proof.
  intros Hx Hd (_ & Hd' & l & Hp & Hl). pose proof (unique_for_key b _ Hd') as Hu'.
  pose proof (unique_for_key b _ Hd) as Hu. destruct (Z.eqb_spec b a) as [->|Hne].
  - apply find_Some_iff; [done|]. rewrite Hp. split; [by left | by apply Z.eqb_eq].
  - rewrite (find_perm _ _ _ Hp Hu'), find_cons. destruct (Z.eqb_spec (key x) b); [congruence|].
    assert (Hul : unique_for (fun e => key e =? b) l) by (intros z w Hz Hw; apply Hu; by apply Hl).
    destruct (List.find _ (elements c)) as [e|] eqn:Hf.
    + apply (find_Some_iff _ _ _ Hu) in Hf as [He Hb]. apply Z.eqb_eq in Hb as Hb'.
      apply find_Some_iff; [done|]. split; [apply Hl; split; [done|congruence] | done].
    + apply find_None_iff. intros e He. apply Hl in He as [He _]. by apply (proj1 (find_None_iff _ _) Hf).
Qed.
End put.
End key.

(** ** Receiving side *)
Module Recv.
Record entry := mk_entry { topic : list byte; alias : Z }.

#[export] Instance entry_eq_dec : EqDecision entry.
Proof. solve_decision. Defined.

Definition mi_topic_alias : list (index entry) := [ordered_unique (key_lt alias)].

Definition min_ : Z := 1.

Section recv.
Context {BMI : BoostMultiIndex}.

Record topic_alias_recv := mk_recv { max_ : Z; aliases_ : mi mi_topic_alias }.

Definition make_topic_alias_recv (max : Z) : topic_alias_recv := mk_recv max mi_empty.

Definition entries (s : topic_alias_recv) : list entry := mi_range 0 (aliases_ s).

Definition insert_or_update (t : list byte) (a : Z) (s : topic_alias_recv) : topic_alias_recv :=
  match lower_bound alias a (entries s) with
  | Some it =>
    if alias it =? a
    then mk_recv (max_ s) (mi_modify it (mk_entry t (alias it)) (aliases_ s))
    else mk_recv (max_ s) (fst (mi_emplace (mk_entry t a) (aliases_ s)))
  | None => mk_recv (max_ s) (fst (mi_emplace (mk_entry t a) (aliases_ s)))
  end.

(** the empty string when there is no mapping *)
Definition find (a : Z) (s : topic_alias_recv) : list byte :=
  if (min_ <=? a) && (a <=? max_ s) then
    match List.find (fun e => alias e =? a) (entries s) with
    | Some it => topic it
    | None => []
    end
  else [].

Definition clear (s : topic_alias_recv) : topic_alias_recv := mk_recv (max_ s) mi_empty.
End recv.

Section recv_facts.
Context {BMI : BoostMultiIndex} {BMO : BoostMultiIndexOk}.

Definition recv_ok (s : topic_alias_recv) : Prop :=
  mi_ok (aliases_ s) /\ NoDup (map alias (entries s)).

Lemma alias_conflict x y : conflicts mi_topic_alias x y = (alias x =? alias y).
Proof. unfold conflicts. simpl. by rewrite orb_false_r, equiv_by_key. Qed.

Lemma insert_or_update_replaces s t a :
  recv_ok s -> replaces alias [] a (mk_entry t a) (aliases_ s) (aliases_ (insert_or_update t a s)).
Proof.
  intros [Hok Hd]. replace (aliases_ (insert_or_update t a s))
    with (put alias [] a (mk_entry t a) (fun it => mk_entry t (alias it)) (aliases_ s)).
  - apply put_replaces; [done..| |].
    + by intros it ->.
    + intros z _ Hz. rewrite alias_conflict. simpl. lia.
  - unfold insert_or_update, put, entries. destruct (lower_bound _ _ _) as [it|]; [|done].
    by destruct (alias it =? a).
Qed.

Lemma make_recv_ok max : recv_ok (make_topic_alias_recv max).
Proof. split; [apply mi_ok_empty|]. unfold entries. simpl. rewrite mi_range_empty. constructor. Qed.

(** the receiving side is a map from the aliases 1..max to topics: a
    lookup after [insert_or_update] returns the new topic for that alias
    and the old result for every other one, an unmapped or out of range
    alias yields the empty string, and [clear] empties it. *)
Theorem topic_alias_recv_map s t a b :
  recv_ok s -> 1 <= a <= max_ s ->
  recv_ok (insert_or_update t a s) /\
  find b (insert_or_update t a s) = (if b =? a then t else find b s) /\
  find b (clear s) = [] /\ recv_ok (clear s) /\ find b (make_topic_alias_recv (max_ s)) = [].
Proof.
  intros Hs Ha. pose proof (insert_or_update_replaces s t a Hs) as Hr.
  assert (Hs' : recv_ok (insert_or_update t a s)) by (split; apply Hr).
  assert (Hmax : max_ (insert_or_update t a s) = max_ s).
  { unfold insert_or_update. destruct (lower_bound alias a (entries s)) as [it|]; [by destruct (alias it =? a) | done]. }
  assert (Hempty : find b (clear s) = []).
  { unfold find, entries, clear. simpl. rewrite mi_range_empty. by destruct (_ && _). }
  split; [done|]. split; [|split; [done|split; [apply (make_recv_ok (max_ s)) | done]]].
  unfold find. rewrite Hmax, (find_replaces alias [] a (mk_entry t a) b _ _ eq_refl (proj2 Hs) Hr : List.find _ (entries _) = _).
  unfold min_. destruct (Z.eqb_spec b a) as [->|Hne]; [|done].
  by replace ((1 <=? a) && (a <=? max_ s)) with true by lia.
Qed.

End recv_facts.

Lemma topic_alias_recv_map_witness :
  let s := make_topic_alias_recv (BMI := ListMultiIndex.list_multi_index) 4 in
  find 3 (insert_or_update [x61] 3 s) = [x61] /\
  recv_ok (BMO := ListMultiIndex.list_multi_index_ok) (insert_or_update [x61] 3 s).
Proof.
  simpl. destruct (topic_alias_recv_map (BMO := ListMultiIndex.list_multi_index_ok)
    (make_topic_alias_recv 4) [x61] 3 3) as (Hok & Hf & _); [apply make_recv_ok | simpl; lia|].
  split; [apply Hf | apply Hok].
Defined.
End Recv.

(** ** Sending side

    [std::chrono::steady_clock::now()] is the argument [now]. *)
Module Send.
Record entry := mk_entry { topic : list byte; alias : Z; tp : Z }.

#[export] Instance entry_eq_dec : EqDecision entry.
Proof. solve_decision. Defined.

Definition topic_lt (a b : entry) : bool := bytes_lt (topic a) (topic b).

Definition mi_topic_alias : list (index entry) :=
  [ordered_unique (key_lt alias); ordered_unique topic_lt; ordered_non_unique (key_lt tp)].

Definition tag_alias := 0%nat.
Definition tag_topic_name := 1%nat.
Definition tag_tp := 2%nat.

Definition min_ : Z := 1.

(** [topic_alias_type] is [std::uint16_t] *)
Definition topic_alias_bits : Z := 16.

Section send.
Context {BMI : BoostMultiIndex}.

Record topic_alias_send := mk_send {
  max_ : Z;
  aliases_ : mi mi_topic_alias;
  va_ : value_allocator;
}.

Definition make_topic_alias_send (max : Z) : topic_alias_send :=
  mk_send max mi_empty (make_value_allocator min_ max).

Definition entries (s : topic_alias_send) : list entry := mi_range tag_alias (aliases_ s).

Definition set_aliases (s : topic_alias_send) (c : mi mi_topic_alias) : topic_alias_send :=
  mk_send (max_ s) c (va_ s).

Definition insert_or_update (t : list byte) (a now : Z) (s : topic_alias_send) : topic_alias_send :=
  let s := mk_send (max_ s) (aliases_ s) (snd (use topic_alias_bits a (va_ s))) in
  let new := fst (mi_emplace (mk_entry t a now) (aliases_ s)) in
  match lower_bound alias a (entries s) with
  | None => set_aliases s new
  | Some it =>
    if negb (alias it =? a) then set_aliases s new
    else set_aliases s (mi_modify it (mk_entry t (alias it) now) (aliases_ s))
  end.

Definition find_entry (a : Z) (s : topic_alias_send) : option entry :=
  List.find (fun e => alias e =? a) (entries s).

(** [find(topic_alias_type)]: also moves the entry in the time order *)
Definition find (a now : Z) (s : topic_alias_send) : list byte * topic_alias_send :=
  if (min_ <=? a) && (a <=? max_ s) then
    match find_entry a s with
    | None => ([], s)
    | Some it =>
      (topic it, set_aliases s (mi_modify it (mk_entry (topic it) (alias it) now) (aliases_ s)))
    end
  else ([], s).

Definition find_without_touch (a : Z) (s : topic_alias_send) : list byte :=
  if (min_ <=? a) && (a <=? max_ s) then
    match find_entry a s with
    | None => []
    | Some it => topic it
    end
  else [].

(** [find(std::string_view)] *)
Definition find_alias (t : list byte) (s : topic_alias_send) : option Z :=
  match List.find (fun e => bool_decide (topic e = t)) (mi_range tag_topic_name (aliases_ s)) with
  | None => None
  | Some it => Some (alias it)
  end.

Definition clear (s : topic_alias_send) : topic_alias_send :=
  mk_send (max_ s) mi_empty (ValueAllocator.clear (va_ s)).

(** [None]: [begin()] of an empty container is dereferenced *)
Definition get_lru_alias (s : topic_alias_send) : option Z :=
  match first_vacant (va_ s) with
  | Some a => Some a
  | None =>
    match mi_range tag_tp (aliases_ s) with
    | [] => None
    | it :: _ => Some (alias it)
    end
  end.
End send.

Section send_facts.
Context {BMI : BoostMultiIndex} {BMO : BoostMultiIndexOk}.
Implicit Types s : topic_alias_send.

(** What holds of the table whatever is put in: an alias has at most one
    topic and a topic at most one alias, an alias with a topic is not
    vacant, and aliases are taken from a table without entries only when
    they are vacant. *)
Record table_ok s : Prop := mk_table_ok {
  table_mi : mi_ok (aliases_ s);
  table_alias : NoDup (map alias (entries s));
  table_topic : NoDup (map topic (entries s));
  table_va : allocator_ok (va_ s);
  table_lowest : lowest_ (va_ s) = min_;
  table_highest : highest_ (va_ s) = max_ s;
  table_max : 1 <= max_ s < 2 ^ topic_alias_bits;
  table_entries : forall e, e ∈ entries s -> 1 <= alias e <= max_ s /\ ~ vacant (va_ s) (alias e);
  table_lru : entries s = [] -> vacant (va_ s) 1;
}.

(** The vacant aliases of the allocator are all the aliases without entry. *)
Definition complete s : Prop :=
  forall v, 1 <= v <= max_ s -> ~ vacant (va_ s) v -> exists e, e ∈ entries s /\ alias e = v.

(** the topic is not the topic of another alias *)
Definition fresh_topic (t : list byte) (a : Z) s : Prop :=
  forall e, e ∈ entries s -> alias e <> a -> topic e <> t.

Lemma topic_conflict x y :
  conflicts mi_topic_alias x y = (alias x =? alias y) || bool_decide (topic x = topic y).
Proof.
  unfold conflicts. simpl. rewrite equiv_by_key, !orb_false_r. f_equal.
  apply eq_true_iff_eq. rewrite bool_decide_eq_true. change (equiv_by topic_lt x y) with (equiv_by bytes_lt (topic x) (topic y)).
  apply bytes_lt_equiv.
Qed.

(** *** Lookups *)

Lemma same_elements s k :
  mi_ok (aliases_ s) -> (k < 3)%nat -> mi_range k (aliases_ s) ≡ₚ entries s.
Proof. intros Hok Hk. apply (mi_range_perm (ix := mi_topic_alias)); [done | done | unfold tag_alias; simpl; lia]. Qed.

Lemma unique_topic s u : table_ok s -> unique_for (fun e => bool_decide (topic e = u)) (entries s).
Proof.
  intros Hs. apply (unique_key topic); [apply (table_topic _ Hs)|]. intros x y. rewrite !bool_decide_eq_true. congruence.
Qed.

Lemma topic_inj s x y : table_ok s -> x ∈ entries s -> y ∈ entries s -> topic x = topic y -> x = y.
Proof. intros Hs Hx Hy Heq. apply (unique_topic s (topic y) Hs); by rewrite ?bool_decide_eq_true. Qed.

Lemma alias_inj s x y : table_ok s -> x ∈ entries s -> y ∈ entries s -> alias x = alias y -> x = y.
Proof. intros Hs Hx Hy Heq. apply (unique_for_key alias (alias y) _ (table_alias _ Hs)); by rewrite ?Z.eqb_eq. Qed.

Lemma find_alias_Some s u a :
  table_ok s -> find_alias u s = Some a <-> exists e, e ∈ entries s /\ topic e = u /\ alias e = a.
Proof.
  intros Hs. unfold find_alias.
  assert (Hp : mi_range tag_topic_name (aliases_ s) ≡ₚ entries s).
  { apply same_elements; [apply (table_mi _ Hs) | unfold tag_topic_name; lia]. }
  rewrite (find_perm _ _ _ Hp) by (apply (unique_for_perm _ (entries s)); [done | by apply unique_topic]).
  pose proof (unique_topic s u Hs) as Hu. destruct (List.find _ (entries s)) as [e|] eqn:Hf.
  - apply (find_Some_iff _ _ _ Hu) in Hf as [He Ht]. apply bool_decide_eq_true in Ht. split.
    + intros [= <-]. eauto.
    + intros (e' & He' & Ht' & <-). f_equal. f_equal. apply (topic_inj s); congruence.
  - split; [done|]. intros (e & He & Ht & _). pose proof (proj1 (find_None_iff _ _) Hf e He) as Hn.
    by apply bool_decide_eq_false in Hn.
Qed.

(** the lookup by topic decides whether a topic is fresh *)
Lemma fresh_or_taken t a s :
  table_ok s ->
  match find_alias t s with
  | None => fresh_topic t a s
  | Some b => if b =? a then fresh_topic t a s
              else exists z, z ∈ entries s /\ topic z = t /\ alias z = b /\ b <> a
  end.
Proof.
  intros Hs. destruct (find_alias t s) as [b|] eqn:Hf.
  - apply find_alias_Some in Hf as (z & Hz & Ht & Hb); [|done]. destruct (Z.eqb_spec b a) as [->|Hne]; [|by exists z].
    intros e He Hne Hte. apply Hne. rewrite <- Hb. f_equal. apply (topic_inj s); congruence.
  - intros e He _ Ht. assert (find_alias t s = Some (alias e)) by (apply find_alias_Some; eauto). congruence.
Qed.

Lemma find_entry_Some s a e : table_ok s -> find_entry a s = Some e <-> e ∈ entries s /\ alias e = a.
Proof.
  intros Hs. unfold find_entry. rewrite find_Some_iff by (apply unique_for_key, (table_alias _ Hs)). by rewrite Z.eqb_eq.
Qed.

(** *** The entry of an alias replaced *)

Lemma vacant_alias_range s v : table_ok s -> vacant (va_ s) v -> 1 <= v <= max_ s.
Proof.
  intros Hs Hv. pose proof (table_va _ Hs) as [_ Hi].
  rewrite <- (table_highest _ Hs). change 1 with min_. rewrite <- (table_lowest _ Hs). by apply (covers_bounds _ _ _ v Hi).
Qed.

Lemma table_width s : table_ok s -> width_ok topic_alias_bits (va_ s).
Proof.
  intros Hs. unfold width_ok, topic_alias_bits. rewrite (table_lowest _ Hs), (table_highest _ Hs).
  pose proof (table_max _ Hs). unfold min_, topic_alias_bits in *. lia.
Qed.

Lemma use_becomes s a :
  table_ok s -> becomes (va_ s) (snd (use topic_alias_bits a (va_ s))) (fun w => vacant (va_ s) w /\ w <> a).
Proof.
  intros Hs. pose proof (use_ok _ _ a (table_va _ Hs) (table_width s Hs)) as Hu.
  destruct (use _ _ _) as [[|] v]; simpl; [apply Hu|]. destruct Hu as [Hv ->].
  split; [apply (table_va _ Hs)|]. split; [done|]. split; [done|]. intros w. split; [|tauto].
  intros Hw. split; [done|]. intros ->. done.
Qed.

(** [s'] is [s] with the topic [t] for the alias [a] *)
Definition mapped (t : list byte) (a now : Z) s s' : Prop :=
  replaces alias _ a (mk_entry t a now) (aliases_ s) (aliases_ s') /\ max_ s' = max_ s /\
  becomes (va_ s) (va_ s') (fun w => vacant (va_ s) w /\ w <> a).

Lemma mapped_elements t a now s s' :
  mapped t a now s s' ->
  exists l, entries s' ≡ₚ mk_entry t a now :: l /\ (forall e, e ∈ l <-> e ∈ entries s /\ alias e <> a) /\ NoDup (map alias l).
Proof.
  intros ((_ & Hd & l & Hp & Hl) & _). exists l. split; [done|]. split; [done|].
  rewrite Hp in Hd. by apply NoDup_cons in Hd as [_ Hd].
Qed.

Lemma mapped_ok t a now s s' : table_ok s -> 1 <= a <= max_ s -> fresh_topic t a s -> mapped t a now s s' -> table_ok s'.
Proof.
  intros Hs Ha Hf Hm. pose proof (mapped_elements _ _ _ _ _ Hm) as (l & Hp & Hl & Hdl).
  destruct Hm as ((Hok & Hd & _) & Hmax & Hva & Hlo & Hhi & Hv). constructor; rewrite ?Hmax; try done.
  - rewrite Hp. simpl. constructor.
    + intros Hin. apply list_elem_of_fmap in Hin as (e & He & Hin). apply Hl in Hin as [Hin Hne].
      by apply (Hf e Hin Hne).
    + apply NoDup_fmap_2_strong; [|by apply (NoDup_map_NoDup alias)].
      intros e1 e2 [H1 _]%Hl [H2 _]%Hl. by apply (topic_inj s).
  - rewrite Hlo. apply (table_lowest _ Hs).
  - rewrite Hhi. apply (table_highest _ Hs).
  - apply (table_max _ Hs).
  - intros e. rewrite Hp, elem_of_cons, Hv. intros [->|[He Hne]%Hl]; [simpl; tauto|].
    destruct (table_entries _ Hs e He). tauto.
  - intros Hnil. rewrite Hnil in Hp. by apply Permutation_nil_cons in Hp.
Qed.

Lemma mapped_complete t a now s s' : complete s -> mapped t a now s s' -> complete s'.
Proof.
  intros Hc Hm. pose proof (mapped_elements _ _ _ _ _ Hm) as (l & Hp & Hl & _).
  destruct Hm as (_ & Hmax & _ & _ & _ & Hv). intros v. rewrite Hmax, Hv. setoid_rewrite Hp. setoid_rewrite elem_of_cons.
  intros Hr Hn. destruct (decide (v = a)) as [->|Hne]; [by exists (mk_entry t a now); auto|].
  destruct (Hc v Hr) as (e & He & <-); [tauto|]. exists e. split; [right; by apply Hl | done].
Qed.

Lemma mapped_topic t a now s s' b :
  table_ok s -> 1 <= a <= max_ s -> mapped t a now s s' ->
  find_without_touch b s' = if b =? a then t else find_without_touch b s.
Proof.
  intros Hs Ha (Hr & Hmax & _). unfold find_without_touch, find_entry. rewrite Hmax.
  rewrite (find_replaces alias _ a (mk_entry t a now) b _ _ eq_refl (table_alias _ Hs) Hr : List.find _ (entries s') = _).
  unfold min_. destruct (Z.eqb_spec b a) as [->|Hne]; [|done].
  by replace ((1 <=? a) && (a <=? max_ s)) with true by lia.
Qed.

Lemma mapped_alias t a now s s' u b :
  table_ok s -> table_ok s' -> mapped t a now s s' ->
  find_alias u s' = Some b <-> (u = t /\ b = a) \/ (b <> a /\ find_alias u s = Some b).
Proof.
  intros Hs Hs' Hm. pose proof (mapped_elements _ _ _ _ _ Hm) as (l & Hp & Hl & _).
  rewrite !find_alias_Some by done. setoid_rewrite Hp. setoid_rewrite elem_of_cons. split.
  - intros (e & [->|[He Hne]%Hl] & <- & <-); [by left | right; eauto].
  - intros [[-> ->]|(Hne & e & He & <- & <-)]; [by exists (mk_entry t a now); auto|].
    exists e. split; [right; by apply Hl | done].
Qed.

(** *** [insert_or_update] *)

Lemma aliases_insert s t a now :
  aliases_ (insert_or_update t a now s) =
  put alias _ a (mk_entry t a now) (fun it => mk_entry t (alias it) now) (aliases_ s).
Proof.
  unfold insert_or_update, put, entries, set_aliases. simpl.
  change (mi_range tag_alias (aliases_ s)) with (mi_range 0 (aliases_ s)).
  destruct (lower_bound _ _ _) as [it|]; simpl; [|done]. by destruct (alias it =? a).
Qed.

Lemma va_insert s t a now :
  va_ (insert_or_update t a now s) = snd (use topic_alias_bits a (va_ s)) /\
  max_ (insert_or_update t a now s) = max_ s.
Proof.
  unfold insert_or_update, set_aliases. destruct (lower_bound _ _ _) as [it|]; simpl; [|done].
  by destruct (negb _).
Qed.

Lemma insert_mapped s t a now :
  table_ok s -> fresh_topic t a s -> mapped t a now s (insert_or_update t a now s).
Proof.
  intros Hs Hf. destruct (va_insert s t a now) as [Hva Hmax]. split; [|split; [done | rewrite Hva; by apply use_becomes]].
  rewrite aliases_insert. apply put_replaces; [apply (table_mi _ Hs) | apply (table_alias _ Hs) | done | |].
  - by intros it ->.
  - intros z Hz Hne. change (conflicts mi_topic_alias (mk_entry t a now) z = false). rewrite topic_conflict. simpl.
    apply orb_false_iff. split; [lia|]. apply bool_decide_eq_false. intros Heq. by apply (Hf z Hz).
Qed.

(** The topic of another alias is refused, and the alias loses the topic
    it had. *)
Lemma insert_refused s t a now z :
  table_ok s -> z ∈ entries s -> alias z <> a -> topic z = t ->
  mi_ok (aliases_ (insert_or_update t a now s)) /\ sublist (entries (insert_or_update t a now s)) (entries s) /\
  forall e, e ∈ entries (insert_or_update t a now s) <-> e ∈ entries s /\ alias e <> a.
Proof.
  intros Hs Hz Hne Ht. unfold entries at 1 3. rewrite aliases_insert.
  apply (put_refused alias _ a _ _ z); [apply (table_mi _ Hs) | apply (table_alias _ Hs) | by intros it -> | done..|].
  change (conflicts mi_topic_alias (mk_entry t a now) z = true). rewrite topic_conflict. simpl.
  rewrite bool_decide_eq_true_2 by done. apply orb_true_r.
Qed.

Lemma refused_ok s t a now z :
  table_ok s -> z ∈ entries s -> alias z <> a -> topic z = t -> table_ok (insert_or_update t a now s).
Proof.
  intros Hs Hz Hne Ht. destruct (insert_refused s t a now z Hs Hz Hne Ht) as (Hok & Hsub & Hl).
  destruct (va_insert s t a now) as [Hva Hmax]. destruct (use_becomes s a Hs) as (Hao & Hlo & Hhi & Hv).
  constructor; rewrite ?Hva, ?Hmax, ?Hlo, ?Hhi; try done; try apply Hs.
  - eapply sublist_NoDup; [apply (table_alias _ Hs)|]. by apply (fmap_sublist alias).
  - eapply sublist_NoDup; [apply (table_topic _ Hs)|]. by apply (fmap_sublist topic).
  - intros e [He _]%Hl. rewrite Hv. destruct (table_entries _ Hs e He). tauto.
  - intros Hnil. assert (Hz' : z ∈ entries (insert_or_update t a now s)) by (by apply Hl).
    rewrite Hnil in Hz'. by apply not_elem_of_nil in Hz'.
Qed.

Lemma insert_ok s t a now : table_ok s -> 1 <= a <= max_ s -> table_ok (insert_or_update t a now s).
Proof.
  intros Hs Ha. pose proof (fresh_or_taken t a s Hs) as Hf. destruct (find_alias t s) as [b|].
  - destruct (Z.eqb_spec b a).
    + by apply (mapped_ok t a now s), insert_mapped.
    + destruct Hf as (z & Hz & Ht & <- & Hne). by apply (refused_ok s t a now z).
  - by apply (mapped_ok t a now s), insert_mapped.
Qed.

Lemma refused_lookups s t a now z :
  table_ok s -> z ∈ entries s -> alias z <> a -> topic z = t ->
  let s' := insert_or_update t a now s in
  find_without_touch a s' = [] /\ (forall b, b <> a -> find_without_touch b s' = find_without_touch b s) /\
  forall u b, find_alias u s' = Some b <-> find_alias u s = Some b /\ b <> a.
Proof.
  intros Hs Hz Hne Ht s'. pose proof (refused_ok s t a now z Hs Hz Hne Ht) as Hs'. fold s' in Hs'.
  destruct (insert_refused s t a now z Hs Hz Hne Ht) as (_ & _ & Hl). fold s' in Hl.
  destruct (va_insert s t a now) as [_ Hmax]. fold s' in Hmax.
  assert (Hfe : forall b e, find_entry b s' = Some e <-> find_entry b s = Some e /\ b <> a).
  { intros b e. rewrite !find_entry_Some, Hl by done. intuition congruence. }
  split_and!.
  - unfold find_without_touch. destruct (_ && _); [|done]. destruct (find_entry a s') as [e|] eqn:He; [|done].
    by apply Hfe in He as [_ ?].
  - intros b Hb. unfold find_without_touch. rewrite Hmax. destruct (_ && _); [|done].
    replace (find_entry b s') with (find_entry b s); [done|]. apply option_eq. intros e. rewrite Hfe. tauto.
  - intros u b. rewrite !find_alias_Some by done. setoid_rewrite Hl. split.
    + intros (e & [He Hea] & <- & <-). eauto.
    + intros [(e & He & <- & <-) Hb]. eauto.
Qed.

(** *** [find] *)

Lemma find_mapped s a now e :
  table_ok s -> find_entry a s = Some e ->
  mapped (topic e) a now s (set_aliases s (mi_modify e (mk_entry (topic e) (alias e) now) (aliases_ s))).
Proof.
  intros Hs [He Ha]%find_entry_Some; [|done]. split; [|split; [done|]].
  - rewrite Ha. cbn [set_aliases aliases_].
    apply modify_replaces; [apply (table_mi _ Hs) | apply (table_alias _ Hs) | done..|].
    intros z Hz Hne. change (conflicts mi_topic_alias (mk_entry (topic e) a now) z = false). rewrite topic_conflict. simpl.
    apply orb_false_iff. split; [lia|]. apply bool_decide_eq_false. intros Heq. apply Hne.
    rewrite <- Ha. f_equal. by apply (topic_inj s).
  - split; [apply (table_va _ Hs)|]. split; [done|]. split; [done|]. intros w. cbn [set_aliases va_]. split; [|tauto].
    intros Hw. split; [done|]. intros ->. apply (proj2 (table_entries _ Hs e He)). by rewrite Ha.
Qed.

Lemma topic_of_entry s a e :
  table_ok s -> find_entry a s = Some e -> fresh_topic (topic e) a s /\ 1 <= a <= max_ s /\ find_without_touch a s = topic e.
Proof.
  intros Hs Hf. pose proof Hf as [He Ha]%find_entry_Some; [|done].
  assert (Hr : 1 <= a <= max_ s) by (rewrite <- Ha; apply (table_entries _ Hs e He)).
  split; [|split; [done|]].
  - intros z Hz Hne Heq. apply Hne. rewrite <- Ha. f_equal. by apply (topic_inj s).
  - unfold find_without_touch, min_. rewrite Hf. by replace ((1 <=? a) && (a <=? max_ s)) with true by lia.
Qed.

(** the entry is used now, and nothing else changes *)
Lemma find_same s a now :
  table_ok s ->
  fst (find a now s) = find_without_touch a s /\ table_ok (snd (find a now s)) /\
  max_ (snd (find a now s)) = max_ s /\
  (forall b, find_without_touch b (snd (find a now s)) = find_without_touch b s) /\
  (forall u, find_alias u (snd (find a now s)) = find_alias u s).
Proof.
  intros Hs. unfold find. unfold find_without_touch at 1. destruct (_ && _); [|by split_and!].
  destruct (find_entry a s) as [e|] eqn:Hf; [|by split_and!]. cbn [fst snd].
  destruct (topic_of_entry s a e Hs Hf) as (Hfresh & Ha & Ht). pose proof (find_mapped s a now e Hs Hf) as Hm.
  pose proof (mapped_ok _ _ _ _ _ Hs Ha Hfresh Hm) as Hs'. split; [done|]. split; [done|]. split; [done|]. split.
  - intros b. rewrite (mapped_topic _ _ _ _ _ b Hs Ha Hm). destruct (Z.eqb_spec b a) as [->|]; done.
  - intros u. apply option_eq. intros b. rewrite (mapped_alias _ _ _ _ _ u b Hs Hs' Hm). split; [|].
    + intros [[-> ->]|[_ ?]]; [|done]. apply find_alias_Some; [done|]. exists e. by apply find_entry_Some in Hf as [? ?].
    + intros (z & Hz & <- & <-)%find_alias_Some; [|done]. destruct (decide (alias z = a)) as [Hza|Hne].
      * left. apply find_entry_Some in Hf as [He Hea]; [|done]. split; [|done]. f_equal. apply (alias_inj s); congruence.
      * right. split; [done|]. apply find_alias_Some; eauto.
Qed.


(** The alias to reuse is the least vacant one, which has no topic; when
    none is vacant, it is the alias used the longest time ago.  There is
    always one, so [begin()] of the time index is never dereferenced on an
    empty container. *)
Theorem topic_alias_send_lru s :
  table_ok s ->
  exists a, get_lru_alias s = Some a /\ 1 <= a <= max_ s /\
    if is_used a (va_ s)
    then exists e, e ∈ entries s /\ alias e = a /\ forall e', e' ∈ entries s -> tp e <= tp e'
    else find_without_touch a s = [] /\ forall b, 1 <= b < a -> is_used b (va_ s) = true.
Proof.
  intros Hs. pose proof (table_va _ Hs) as Hao. pose proof (first_vacant_ok _ Hao) as Hfv. unfold get_lru_alias.
  destruct (first_vacant (va_ s)) as [a|]; simpl in Hfv.
  - destruct Hfv as [Hva Hleast]. exists a. split; [done|]. split; [by apply vacant_alias_range|].
    destruct (is_used a (va_ s)) eqn:Hu.
    { by apply is_used_ok in Hu. }
    split.
    + unfold find_without_touch. destruct (_ && _); [|done]. destruct (find_entry a s) as [e|] eqn:He; [|done].
      apply find_entry_Some in He as [He Hea]; [|done]. destruct (table_entries _ Hs e He) as [_ Hn]. by rewrite Hea in Hn.
    + intros b Hb. apply is_used_ok; [done|]. intros Hbv%Hleast. lia.
  - assert (Hp : mi_range tag_tp (aliases_ s) ≡ₚ entries s).
    { apply same_elements; [apply (table_mi _ Hs) | unfold tag_tp; lia]. }
    destruct (key_lt_order tp) as [Ht Has].
    pose proof (mi_range_sorted (aliases_ s) tag_tp (ordered_non_unique (key_lt tp)) (key_lt tp) (table_mi _ Hs) eq_refl eq_refl Ht Has) as Hsort.
    destruct (mi_range tag_tp (aliases_ s)) as [|it l].
    + apply Permutation_nil in Hp. by apply (table_lru _ Hs), Hfv in Hp.
    + assert (Hit : it ∈ entries s) by (rewrite <- Hp; by left). destruct (table_entries _ Hs it Hit) as [Hr Hn].
      exists (alias it). split; [done|].
      split; [done|]. rewrite (proj2 (is_used_ok (va_ s) (alias it) Hao)) by done.
      exists it. split; [done|]. split; [done|]. intros e. rewrite <- Hp, elem_of_cons. intros [->|He]; [lia|].
      apply StronglySorted_inv in Hsort as [_ Hsort]. rewrite Forall_forall in Hsort. specialize (Hsort e He).
      unfold key_lt in Hsort. simpl in Hsort. lia.
Qed.

Lemma make_table_ok max : 1 <= max < 2 ^ topic_alias_bits -> table_ok (make_topic_alias_send max).
Proof.
  intros Hm. destruct (make_value_allocator_ok 1 max) as (? & ? & ? & Hv); [lia|].
  constructor; unfold entries; simpl; rewrite ?mi_range_empty; try done; [apply mi_ok_empty | constructor.. | |].
  - intros e He. by apply not_elem_of_nil in He.
  - intros _. unfold min_. apply Hv. lia.
Qed.

Lemma make_complete max : 1 <= max -> complete (make_topic_alias_send max).
Proof.
  intros Hm. destruct (make_value_allocator_ok 1 max) as (? & ? & ? & Hv); [lia|].
  intros v. unfold make_topic_alias_send, min_. simpl. rewrite Hv. tauto.
Qed.
End send_facts.

Section examples.
#[local] Existing Instances ListMultiIndex.list_multi_index ListMultiIndex.list_multi_index_ok.

Definition example_send : topic_alias_send := insert_or_update [x61] 1 10 (make_topic_alias_send 2).

Lemma example_send_ok : table_ok example_send.
Proof. apply insert_ok; [by apply make_table_ok | done]. Qed.
End examples.


Lemma topic_alias_send_lru_witness : exists a, get_lru_alias example_send = Some a /\ 1 <= a <= 2.
Proof.
  destruct (topic_alias_send_lru (BMO := ListMultiIndex.list_multi_index_ok) example_send example_send_ok) as (a & ? & ? & _).
  by exists a.
Defined.
End Send.
