(* ===== verification/Error.v ===== *)
(** * Error codes: protocol/error.hpp and protocol/impl/error.hpp

    The reason codes are enumerations over [std::uint8_t]; the parsers cast
    any byte to them, so they are integers here, with the enumerators as
    constants.  An [error_code] is a value in a category; the category
    decides which values are failures. *)
From S2P Require Import Prelude.

Module mqtt_error.
Definition partial_error_detected : Z := 0x0101.
Definition packet_enqueued : Z := 0x0102.
Definition all_error_detected : Z := 0x0180.
Definition packet_identifier_fully_used : Z := 0x0181.
Definition packet_identifier_conflict : Z := 0x0182.
Definition packet_identifier_invalid : Z := 0x0183.
Definition packet_not_allowed_to_send : Z := 0x0184.
Definition packet_not_allowed_to_store : Z := 0x0185.
Definition packet_not_regulated : Z := 0x0186.
End mqtt_error.

Module connect_return_code.
Definition accepted : Z := 0.
Definition unacceptable_protocol_version : Z := 1.
Definition identifier_rejected : Z := 2.
Definition server_unavailable : Z := 3.
Definition bad_user_name_or_password : Z := 4.
Definition not_authorized : Z := 5.
End connect_return_code.

Module suback_return_code.
Definition success_maximum_qos_0 : Z := 0x00.
Definition success_maximum_qos_1 : Z := 0x01.
Definition success_maximum_qos_2 : Z := 0x02.
Definition failure : Z := 0x80.
End suback_return_code.

Module connect_reason_code.
Definition success : Z := 0x00.
Definition unspecified_error : Z := 0x80.
Definition malformed_packet : Z := 0x81.
Definition protocol_error : Z := 0x82.
Definition implementation_specific_error : Z := 0x83.
Definition unsupported_protocol_version : Z := 0x84.
Definition client_identifier_not_valid : Z := 0x85.
Definition bad_user_name_or_password : Z := 0x86.
Definition not_authorized : Z := 0x87.
Definition server_unavailable : Z := 0x88.
Definition server_busy : Z := 0x89.
Definition banned : Z := 0x8a.
Definition bad_authentication_method : Z := 0x8c.
Definition topic_name_invalid : Z := 0x90.
Definition packet_too_large : Z := 0x95.
Definition quota_exceeded : Z := 0x97.
Definition payload_format_invalid : Z := 0x99.
Definition retain_not_supported : Z := 0x9a.
Definition qos_not_supported : Z := 0x9b.
Definition use_another_server : Z := 0x9c.
Definition server_moved : Z := 0x9d.
Definition connection_rate_exceeded : Z := 0x9f.
End connect_reason_code.

Module disconnect_reason_code.
Definition normal_disconnection : Z := 0x00.
Definition disconnect_with_will_message : Z := 0x04.
Definition unspecified_error : Z := 0x80.
Definition malformed_packet : Z := 0x81.
Definition protocol_error : Z := 0x82.
Definition implementation_specific_error : Z := 0x83.
Definition not_authorized : Z := 0x87.
Definition server_busy : Z := 0x89.
Definition server_shutting_down : Z := 0x8b.
Definition keep_alive_timeout : Z := 0x8d.
Definition session_taken_over : Z := 0x8e.
Definition topic_filter_invalid : Z := 0x8f.
Definition topic_name_invalid : Z := 0x90.
Definition receive_maximum_exceeded : Z := 0x93.
Definition topic_alias_invalid : Z := 0x94.
Definition packet_too_large : Z := 0x95.
Definition message_rate_too_high : Z := 0x96.
Definition quota_exceeded : Z := 0x97.
Definition administrative_action : Z := 0x98.
Definition payload_format_invalid : Z := 0x99.
Definition retain_not_supported : Z := 0x9a.
Definition qos_not_supported : Z := 0x9b.
Definition use_another_server : Z := 0x9c.
Definition server_moved : Z := 0x9d.
Definition shared_subscriptions_not_supported : Z := 0x9e.
Definition connection_rate_exceeded : Z := 0x9f.
Definition maximum_connect_time : Z := 0xa0.
Definition subscription_identifiers_not_supported : Z := 0xa1.
Definition wildcard_subscriptions_not_supported : Z := 0xa2.
End disconnect_reason_code.

Module suback_reason_code.
Definition granted_qos_0 : Z := 0x00.
Definition granted_qos_1 : Z := 0x01.
Definition granted_qos_2 : Z := 0x02.
Definition unspecified_error : Z := 0x80.
Definition implementation_specific_error : Z := 0x83.
Definition not_authorized : Z := 0x87.
Definition topic_filter_invalid : Z := 0x8f.
Definition packet_identifier_in_use : Z := 0x91.
Definition quota_exceeded : Z := 0x97.
Definition shared_subscriptions_not_supported : Z := 0x9e.
Definition subscription_identifiers_not_supported : Z := 0xa1.
Definition wildcard_subscriptions_not_supported : Z := 0xa2.
End suback_reason_code.

Module unsuback_reason_code.
Definition success : Z := 0x00.
Definition no_subscription_existed : Z := 0x11.
Definition unspecified_error : Z := 0x80.
Definition implementation_specific_error : Z := 0x83.
Definition not_authorized : Z := 0x87.
Definition topic_filter_invalid : Z := 0x8f.
Definition packet_identifier_in_use : Z := 0x91.
End unsuback_reason_code.

Module puback_reason_code.
Definition success : Z := 0x00.
Definition no_matching_subscribers : Z := 0x10.
Definition unspecified_error : Z := 0x80.
Definition implementation_specific_error : Z := 0x83.
Definition not_authorized : Z := 0x87.
Definition topic_name_invalid : Z := 0x90.
Definition packet_identifier_in_use : Z := 0x91.
Definition quota_exceeded : Z := 0x97.
Definition payload_format_invalid : Z := 0x99.
End puback_reason_code.

Module pubrec_reason_code.
Definition success : Z := 0x00.
Definition no_matching_subscribers : Z := 0x10.
Definition unspecified_error : Z := 0x80.
Definition implementation_specific_error : Z := 0x83.
Definition not_authorized : Z := 0x87.
Definition topic_name_invalid : Z := 0x90.
Definition packet_identifier_in_use : Z := 0x91.
Definition quota_exceeded : Z := 0x97.
Definition payload_format_invalid : Z := 0x99.
End pubrec_reason_code.

Module pubrel_reason_code.
Definition success : Z := 0x00.
Definition packet_identifier_not_found : Z := 0x92.
End pubrel_reason_code.

Module pubcomp_reason_code.
Definition success : Z := 0x00.
Definition packet_identifier_not_found : Z := 0x92.
End pubcomp_reason_code.

Module auth_reason_code.
Definition success : Z := 0x00.
Definition continue_authentication : Z := 0x18.
Definition re_authenticate : Z := 0x19.
End auth_reason_code.

(** The categories, one per enumeration. *)
Inductive error_category :=
| mqtt_error_category
| connect_return_code_category
| suback_return_code_category
| connect_reason_code_category
| disconnect_reason_code_category
| suback_reason_code_category
| unsuback_reason_code_category
| puback_reason_code_category
| pubrec_reason_code_category
| pubrel_reason_code_category
| pubcomp_reason_code_category
| auth_reason_code_category.

Record error_code := make_error_code { category : error_category; value : Z }.

#[export] Instance error_category_eq_dec : EqDecision error_category.
Proof. solve_decision. Defined.

#[export] Instance error_code_eq_dec : EqDecision error_code.
Proof. solve_decision. Defined.

(** [failed(int v)] of the category, and [operator bool] of the code *)
Definition category_failed (c : error_category) (v : Z) : bool :=
  match c with
  | mqtt_error_category => negb (Z.land v 0x80 =? 0)
  | connect_return_code_category => negb (v =? 0)
  | _ => 0x80 <=? v
  end.

Definition failed (ec : error_code) : bool := category_failed (category ec) (value ec).

Definition mqtt_ec (v : Z) : error_code := make_error_code mqtt_error_category v.
Definition disconnect_ec (v : Z) : error_code := make_error_code disconnect_reason_code_category v.

(** ** Results

    A function with an [error_code& ec] argument, or that throws
    [system_error]: [Err ec] or [Ok] of what it returns.  [Undef] is a read
    outside of the buffer, whose result C++ leaves undefined. *)
Inductive result (A : Type) : Type :=
| Ok (a : A)
| Err (ec : error_code)
| Undef.
Arguments Ok {A} a.
Arguments Err {A} ec.
Arguments Undef {A}.

Definition result_bind {A B} (r : result A) (f : A -> result B) : result B :=
  match r with
  | Ok a => f a
  | Err ec => Err ec
  | Undef => Undef
  end.

(** a failed bounds check *)
Definition or_error {A} (o : option A) (ec : error_code) : result A :=
  match o with
  | Some a => Ok a
  | None => Err ec
  end.

Definition guard (b : bool) (ec : error_code) : result unit := if b then Ok tt else Err ec.

Declare Scope result_scope.
Delimit Scope result_scope with result.
Notation "'let?' x := r 'in' f" := (result_bind r (fun x => f))
  (at level 10, x pattern, r at level 100, f at level 200) : result_scope.
Notation "'check?' b 'else' ec 'in' f" := (result_bind (guard b ec) (fun _ => f))
  (at level 10, b at level 100, ec at level 100, f at level 200) : result_scope.

(** [buf.front()], and [buf.remove_prefix(1)] *)
Definition front (buf : list byte) : result (byte * list byte) :=
  match buf with
  | [] => Undef
  | b :: buf => Ok (b, buf)
  end.

Definition malformed : error_code := disconnect_ec disconnect_reason_code.malformed_packet.
Definition connect_ec (v : Z) : error_code := make_error_code connect_reason_code_category v.
Definition protocol_error : error_code := disconnect_ec disconnect_reason_code.protocol_error.

(** Every error the parsers report is a failure. *)
Lemma malformed_failed : failed malformed = true.
Proof. reflexivity. Qed.

(** ** Inversion *)

Lemma result_bind_Ok {A B} (r : result A) (f : A -> result B) b :
  result_bind r f = Ok b -> exists a, r = Ok a /\ f a = Ok b.
Proof. destruct r; simpl; [eauto | done..]. Qed.

Lemma or_error_Ok {A} (o : option A) ec a : or_error o ec = Ok a -> o = Some a.
Proof. by destruct o; simpl; intros [= ->]. Qed.

Lemma guard_Ok b ec u : guard b ec = Ok u -> b = true.
Proof. by destruct b. Qed.

Lemma front_Ok buf b rest : front buf = Ok (b, rest) -> buf = b :: rest.
Proof. destruct buf; [done|]. by intros [= -> ->]. Qed.

(** Takes a successful sequence of binds apart. *)
Ltac bind_inv :=
  repeat match goal with
  | H : result_bind _ _ = Ok _ |- _ => apply result_bind_Ok in H as (? & ? & H)
  | H : or_error _ _ = Ok _ |- _ => apply or_error_Ok in H
  | H : guard _ _ = Ok _ |- _ => apply guard_Ok in H
  | H : Ok _ = Ok _ |- _ => injection H as H
  | H : Err _ = Ok _ |- _ => discriminate H
  | H : Undef = Ok _ |- _ => discriminate H
  | x : unit |- _ => destruct x
  | x : (_ * _)%type |- _ => destruct x
  end.
