(* ===== verification/ErrorMessages.v ===== *)
(** * Messages of error codes: protocol/impl/error.hpp

    The names of the enumerators, as the output operators and the categories
    give them.  A [switch] is the list of its cases and the default. *)
From Stdlib Require Import String.
From S2P Require Import Prelude Error.

Open Scope string_scope.
Open Scope Z_scope.

Fixpoint switch (cases : list (Z * string)) (default : string) (v : Z) : string :=
  match cases with
  | [] => default
  | (c, s) :: cases => if v =? c then s else switch cases default v
  end.

Definition mqtt_error_cases : list (Z * string) := [
  (mqtt_error.partial_error_detected, "partial_error_detected");
  (mqtt_error.all_error_detected, "all_error_detected");
  (mqtt_error.packet_identifier_fully_used, "packet_identifier_fully_used");
  (mqtt_error.packet_identifier_conflict, "packet_identifier_conflict");
  (mqtt_error.packet_identifier_invalid, "packet_identifier_invalid");
  (mqtt_error.packet_not_allowed_to_send, "packet_not_allowed_to_send");
  (mqtt_error.packet_not_allowed_to_store, "packet_not_allowed_to_store");
  (mqtt_error.packet_not_regulated, "packet_not_regulated")].
Definition mqtt_error_to_string : Z -> string := switch mqtt_error_cases "unknown_mqtt_error".

Definition connect_return_code_cases : list (Z * string) := [
  (connect_return_code.accepted, "accepted");
  (connect_return_code.unacceptable_protocol_version, "unacceptable_protocol_version");
  (connect_return_code.identifier_rejected, "identifier_rejected");
  (connect_return_code.server_unavailable, "server_unavailable");
  (connect_return_code.bad_user_name_or_password, "bad_user_name_or_password");
  (connect_return_code.not_authorized, "not_authorized")].
Definition connect_return_code_to_string : Z -> string := switch connect_return_code_cases "unknown_connect_return_code".

Definition suback_return_code_cases : list (Z * string) := [
  (suback_return_code.success_maximum_qos_0, "success_maximum_qos_0");
  (suback_return_code.success_maximum_qos_1, "success_maximum_qos_1");
  (suback_return_code.success_maximum_qos_2, "success_maximum_qos_2");
  (suback_return_code.failure, "failure")].
Definition suback_return_code_to_string : Z -> string := switch suback_return_code_cases "unknown_suback_return_code".

Definition connect_reason_code_cases : list (Z * string) := [
  (connect_reason_code.success, "success");
  (connect_reason_code.unspecified_error, "unspecified_error");
  (connect_reason_code.malformed_packet, "malformed_packet");
  (connect_reason_code.protocol_error, "protocol_error");
  (connect_reason_code.implementation_specific_error, "implementation_specific_error");
  (connect_reason_code.unsupported_protocol_version, "unsupported_protocol_version");
  (connect_reason_code.client_identifier_not_valid, "client_identifier_not_valid");
  (connect_reason_code.bad_user_name_or_password, "bad_user_name_or_password");
  (connect_reason_code.not_authorized, "not_authorized");
  (connect_reason_code.server_unavailable, "server_unavailable");
  (connect_reason_code.server_busy, "server_busy");
  (connect_reason_code.banned, "banned");
  (connect_reason_code.bad_authentication_method, "bad_authentication_method");
  (connect_reason_code.topic_name_invalid, "topic_name_invalid");
  (connect_reason_code.packet_too_large, "packet_too_large");
  (connect_reason_code.quota_exceeded, "quota_exceeded");
  (connect_reason_code.payload_format_invalid, "payload_format_invalid");
  (connect_reason_code.retain_not_supported, "retain_not_supported");
  (connect_reason_code.qos_not_supported, "qos_not_supported");
  (connect_reason_code.use_another_server, "use_another_server");
  (connect_reason_code.server_moved, "server_moved");
  (connect_reason_code.connection_rate_exceeded, "connection_rate_exceeded")].
Definition connect_reason_code_to_string : Z -> string := switch connect_reason_code_cases "unknown_connect_reason_code".

Definition disconnect_reason_code_cases : list (Z * string) := [
  (disconnect_reason_code.normal_disconnection, "normal_disconnection");
  (disconnect_reason_code.disconnect_with_will_message, "disconnect_with_will_message");
  (disconnect_reason_code.unspecified_error, "unspecified_error");
  (disconnect_reason_code.malformed_packet, "malformed_packet");
  (disconnect_reason_code.protocol_error, "protocol_error");
  (disconnect_reason_code.implementation_specific_error, "implementation_specific_error");
  (disconnect_reason_code.not_authorized, "not_authorized");
  (disconnect_reason_code.server_busy, "server_busy");
  (disconnect_reason_code.server_shutting_down, "server_shutting_down");
  (disconnect_reason_code.keep_alive_timeout, "keep_alive_timeout");
  (disconnect_reason_code.session_taken_over, "session_taken_over");
  (disconnect_reason_code.topic_filter_invalid, "topic_filter_invalid");
  (disconnect_reason_code.topic_name_invalid, "topic_name_invalid");
  (disconnect_reason_code.receive_maximum_exceeded, "receive_maximum_exceeded");
  (disconnect_reason_code.topic_alias_invalid, "topic_alias_invalid");
  (disconnect_reason_code.packet_too_large, "packet_too_large");
  (disconnect_reason_code.message_rate_too_high, "message_rate_too_high");
  (disconnect_reason_code.quota_exceeded, "quota_exceeded");
  (disconnect_reason_code.administrative_action, "administrative_action");
  (disconnect_reason_code.payload_format_invalid, "payload_format_invalid");
  (disconnect_reason_code.retain_not_supported, "retain_not_supported");
  (disconnect_reason_code.qos_not_supported, "qos_not_supported");
  (disconnect_reason_code.use_another_server, "use_another_server");
  (disconnect_reason_code.server_moved, "server_moved");
  (disconnect_reason_code.shared_subscriptions_not_supported, "shared_subscriptions_not_supported");
  (disconnect_reason_code.connection_rate_exceeded, "connection_rate_exceeded");
  (disconnect_reason_code.maximum_connect_time, "maximum_connect_time");
  (disconnect_reason_code.subscription_identifiers_not_supported, "subscription_identifiers_not_supported");
  (disconnect_reason_code.wildcard_subscriptions_not_supported, "wildcard_subscriptions_not_supported")].
Definition disconnect_reason_code_to_string : Z -> string := switch disconnect_reason_code_cases "unknown_disconnect_reason_code".

Definition suback_reason_code_cases : list (Z * string) := [
  (suback_reason_code.granted_qos_0, "granted_qos_0");
  (suback_reason_code.granted_qos_1, "granted_qos_1");
  (suback_reason_code.granted_qos_2, "granted_qos_2");
  (suback_reason_code.unspecified_error, "unspecified_error");
  (suback_reason_code.implementation_specific_error, "implementation_specific_error");
  (suback_reason_code.not_authorized, "not_authorized");
  (suback_reason_code.topic_filter_invalid, "topic_filter_invalid");
  (suback_reason_code.packet_identifier_in_use, "packet_identifier_in_use");
  (suback_reason_code.quota_exceeded, "quota_exceeded");
  (suback_reason_code.shared_subscriptions_not_supported, "shared_subscriptions_not_supported");
  (suback_reason_code.subscription_identifiers_not_supported, "subscription_identifiers_not_supported");
  (suback_reason_code.wildcard_subscriptions_not_supported, "wildcard_subscriptions_not_supported")].
Definition suback_reason_code_to_string : Z -> string := switch suback_reason_code_cases "unknown_suback_reason_code".

Definition unsuback_reason_code_cases : list (Z * string) := [
  (unsuback_reason_code.success, "success");
  (unsuback_reason_code.no_subscription_existed, "no_subscription_existed");
  (unsuback_reason_code.unspecified_error, "unspecified_error");
  (unsuback_reason_code.implementation_specific_error, "implementation_specific_error");
  (unsuback_reason_code.not_authorized, "not_authorized");
  (unsuback_reason_code.topic_filter_invalid, "topic_filter_invalid");
  (unsuback_reason_code.packet_identifier_in_use, "packet_identifier_in_use")].
Definition unsuback_reason_code_to_string : Z -> string := switch unsuback_reason_code_cases "unknown_unsuback_reason_code".

Definition puback_reason_code_cases : list (Z * string) := [
  (puback_reason_code.success, "success");
  (puback_reason_code.no_matching_subscribers, "no_matching_subscribers");
  (puback_reason_code.unspecified_error, "unspecified_error");
  (puback_reason_code.implementation_specific_error, "implementation_specific_error");
  (puback_reason_code.not_authorized, "not_authorized");
  (puback_reason_code.topic_name_invalid, "topic_name_invalid");
  (puback_reason_code.packet_identifier_in_use, "packet_identifier_in_use");
  (puback_reason_code.quota_exceeded, "quota_exceeded");
  (puback_reason_code.payload_format_invalid, "payload_format_invalid")].
Definition puback_reason_code_to_string : Z -> string := switch puback_reason_code_cases "unknown_puback_reason_code".

Definition pubrec_reason_code_cases : list (Z * string) := [
  (pubrec_reason_code.success, "success");
  (pubrec_reason_code.no_matching_subscribers, "no_matching_subscribers");
  (pubrec_reason_code.unspecified_error, "unspecified_error");
  (pubrec_reason_code.implementation_specific_error, "implementation_specific_error");
  (pubrec_reason_code.not_authorized, "not_authorized");
  (pubrec_reason_code.topic_name_invalid, "topic_name_invalid");
  (pubrec_reason_code.packet_identifier_in_use, "packet_identifier_in_use");
  (pubrec_reason_code.quota_exceeded, "quota_exceeded");
  (pubrec_reason_code.payload_format_invalid, "payload_format_invalid")].
Definition pubrec_reason_code_to_string : Z -> string := switch pubrec_reason_code_cases "unknown_pubrec_reason_code".

Definition pubrel_reason_code_cases : list (Z * string) := [
  (pubrel_reason_code.success, "success");
  (pubrel_reason_code.packet_identifier_not_found, "packet_identifier_not_found")].
Definition pubrel_reason_code_to_string : Z -> string := switch pubrel_reason_code_cases "unknown_pubrel_reason_code".

Definition pubcomp_reason_code_cases : list (Z * string) := [
  (pubcomp_reason_code.success, "success");
  (pubcomp_reason_code.packet_identifier_not_found, "packet_identifier_not_found")].
Definition pubcomp_reason_code_to_string : Z -> string := switch pubcomp_reason_code_cases "unknown_pubcomp_reason_code".

Definition auth_reason_code_cases : list (Z * string) := [
  (auth_reason_code.success, "success");
  (auth_reason_code.continue_authentication, "continue_authentication");
  (auth_reason_code.re_authenticate, "re_authenticate")].
Definition auth_reason_code_to_string : Z -> string := switch auth_reason_code_cases "unknown_auth_reason_code".

(** the categories *)
Definition category_name (c : error_category) : string :=
  match c with
  | mqtt_error_category => "async_mqtt_mqtt_error"
  | connect_return_code_category => "async_mqtt_connect_return_code"
  | suback_return_code_category => "async_mqtt_suback_return_code"
  | connect_reason_code_category => "async_mqtt_connect_reason_code"
  | disconnect_reason_code_category => "async_mqtt_disconnect_reason_code"
  | suback_reason_code_category => "async_mqtt_suback_reason_code"
  | unsuback_reason_code_category => "async_mqtt_unsuback_reason_code"
  | puback_reason_code_category => "async_mqtt_puback_reason_code"
  | pubrec_reason_code_category => "async_mqtt_pubrec_reason_code"
  | pubrel_reason_code_category => "async_mqtt_pubrel_reason_code"
  | pubcomp_reason_code_category => "async_mqtt_pubcomp_reason_code"
  | auth_reason_code_category => "async_mqtt_auth_reason_code"
  end.
Definition message (c : error_category) : Z -> string :=
  match c with
  | mqtt_error_category => mqtt_error_to_string
  | connect_return_code_category => connect_return_code_to_string
  | suback_return_code_category => suback_return_code_to_string
  | connect_reason_code_category => connect_reason_code_to_string
  | disconnect_reason_code_category => disconnect_reason_code_to_string
  | suback_reason_code_category => suback_reason_code_to_string
  | unsuback_reason_code_category => unsuback_reason_code_to_string
  | puback_reason_code_category => puback_reason_code_to_string
  | pubrec_reason_code_category => pubrec_reason_code_to_string
  | pubrel_reason_code_category => pubrel_reason_code_to_string
  | pubcomp_reason_code_category => pubcomp_reason_code_to_string
  | auth_reason_code_category => auth_reason_code_to_string
  end.

(** ** Facts *)

Definition cases (c : error_category) : list (Z * string) :=
  match c with
  | mqtt_error_category => mqtt_error_cases
  | connect_return_code_category => connect_return_code_cases
  | suback_return_code_category => suback_return_code_cases
  | connect_reason_code_category => connect_reason_code_cases
  | disconnect_reason_code_category => disconnect_reason_code_cases
  | suback_reason_code_category => suback_reason_code_cases
  | unsuback_reason_code_category => unsuback_reason_code_cases
  | puback_reason_code_category => puback_reason_code_cases
  | pubrec_reason_code_category => pubrec_reason_code_cases
  | pubrel_reason_code_category => pubrel_reason_code_cases
  | pubcomp_reason_code_category => pubcomp_reason_code_cases
  | auth_reason_code_category => auth_reason_code_cases
  end.

Definition is_known (c : error_category) (v : Z) : bool := existsb (fun e => v =? fst e) (cases c).

Lemma switch_injective l d v w :
  NoDup (map snd l) -> d ∉ map snd l -> switch l d v = switch l d w -> v = w \/ (existsb (fun e => v =? fst e) l = false /\ existsb (fun e => w =? fst e) l = false).
Proof.
  assert (Hin : forall l v, existsb (fun e => v =? fst e) l = true -> switch l d v ∈ map snd l).
  { clear l v w. intros l v. induction l as [|[c s] l IH]; [done|]. cbn. destruct (v =? c); [intros _; apply list_elem_of_here | intros; by apply list_elem_of_further, IH]. }
  assert (Hout : forall l v, existsb (fun e => v =? fst e) l = false -> switch l d v = d).
  { clear l v w Hin. intros l v. induction l as [|[c s] l IH]; [done|]. cbn. by destruct (v =? c). }
  induction l as [|[c s] l IH]; cbn [switch map existsb fst snd]; [by right|]. intros [Hs Hnd]%NoDup_cons Hd Heq.
  assert (d <> s /\ d ∉ map snd l) as [Hds Hdl] by (split; [intros ->; apply Hd, list_elem_of_here | intros H; by apply Hd, list_elem_of_further]).
  assert (Hno : forall u, switch l d u <> s).
  { intros u Hu. destruct (existsb (fun e => u =? fst e) l) eqn:He; [apply Hin in He; congruence|]. apply Hout in He. congruence. }
  destruct (Z.eqb_spec v c) as [->|Hv], (Z.eqb_spec w c) as [->|Hw]; [by left | by destruct (Hno w) | by destruct (Hno v) | by apply IH].
Qed.

(** two codes of a category have the same message only if they are the same
    code or neither has one of its own *)
Lemma message_injective c v w : message c v = message c w -> v = w \/ (is_known c v = false /\ is_known c w = false).
Proof. destruct c; apply switch_injective; apply (bool_decide_unpack _); by vm_compute. Qed.

(** the enumerator that has none *)
Lemma packet_enqueued_unknown : message mqtt_error_category mqtt_error.packet_enqueued = "unknown_mqtt_error".
Proof. reflexivity. Qed.
