(* ===== verification/Property.v ===== *)
(** * MQTT v5 properties

    protocol/packet/property_id.hpp, impl/validate_property.hpp,
    detail/base_property.hpp, impl/property.hpp and impl/property_variant.ipp:
    the 27 property classes, the locations they are allowed in, how they are
    built from values, serialized and parsed.

    [as::buffer(&id_, 1)] takes the first byte of an [int]; the model has the
    identifier in it, as on a little-endian host. *)
From S2P Require Import Prelude Boost Utf8 Wire Error.

Module property_id.
Inductive id :=
| payload_format_indicator | message_expiry_interval | content_type | response_topic
| correlation_data | subscription_identifier | session_expiry_interval
| assigned_client_identifier | server_keep_alive | authentication_method
| authentication_data | request_problem_information | will_delay_interval
| request_response_information | response_information | server_reference | reason_string
| receive_maximum | topic_alias_maximum | topic_alias | maximum_qos | retain_available
| user_property | maximum_packet_size | wildcard_subscription_available
| subscription_identifier_available | shared_subscription_available.

Definition value (i : id) : Z :=
  match i with
  | payload_format_indicator => 1 | message_expiry_interval => 2 | content_type => 3
  | response_topic => 8 | correlation_data => 9 | subscription_identifier => 11
  | session_expiry_interval => 17 | assigned_client_identifier => 18 | server_keep_alive => 19
  | authentication_method => 21 | authentication_data => 22 | request_problem_information => 23
  | will_delay_interval => 24 | request_response_information => 25 | response_information => 26
  | server_reference => 28 | reason_string => 31 | receive_maximum => 33
  | topic_alias_maximum => 34 | topic_alias => 35 | maximum_qos => 36 | retain_available => 37
  | user_property => 38 | maximum_packet_size => 39 | wildcard_subscription_available => 40
  | subscription_identifier_available => 41 | shared_subscription_available => 42
  end.

Definition all : list id :=
  [payload_format_indicator; message_expiry_interval; content_type; response_topic;
   correlation_data; subscription_identifier; session_expiry_interval;
   assigned_client_identifier; server_keep_alive; authentication_method;
   authentication_data; request_problem_information; will_delay_interval;
   request_response_information; response_information; server_reference; reason_string;
   receive_maximum; topic_alias_maximum; topic_alias; maximum_qos; retain_available;
   user_property; maximum_packet_size; wildcard_subscription_available;
   subscription_identifier_available; shared_subscription_available].

(** [static_cast<property::id>(buf.front())]; [None] is a value that is not
    an enumerator, which [validate_property] refuses everywhere *)
Definition of_byte (b : byte) : option id := List.find (fun i => value i =? u8 b) all.

Definition byte_of (i : id) : byte := to_byte (value i).

Lemma of_byte_of i : of_byte (byte_of i) = Some i.
Proof. by destruct i; vm_compute. Qed.

Lemma of_byte_Some b i : of_byte b = Some i -> b = byte_of i.
Proof.
  intros H. apply find_some in H as [_ H]. apply u8_inj. unfold byte_of.
  rewrite u8_to_byte_small by (by destruct i; simpl). lia.
Qed.
End property_id.

Module property_location.
Inductive location :=
| connect | will | connack | publish | puback | pubrec | pubrel | pubcomp
| subscribe | suback | unsubscribe | unsuback | disconnect | auth.
End property_location.

Definition validate_property (loc : property_location.location) (i : property_id.id) : bool :=
  match loc with
  | property_location.connect =>
    match i with
    | property_id.session_expiry_interval | property_id.authentication_method
    | property_id.authentication_data | property_id.request_problem_information
    | property_id.request_response_information | property_id.receive_maximum
    | property_id.topic_alias_maximum | property_id.user_property
    | property_id.maximum_packet_size => true
    | _ => false
    end
  | property_location.will =>
    match i with
    | property_id.payload_format_indicator | property_id.message_expiry_interval
    | property_id.content_type | property_id.response_topic | property_id.correlation_data
    | property_id.will_delay_interval | property_id.user_property => true
    | _ => false
    end
  | property_location.connack =>
    match i with
    | property_id.session_expiry_interval | property_id.assigned_client_identifier
    | property_id.server_keep_alive | property_id.authentication_method
    | property_id.authentication_data | property_id.response_information
    | property_id.server_reference | property_id.reason_string | property_id.receive_maximum
    | property_id.topic_alias_maximum | property_id.maximum_qos | property_id.retain_available
    | property_id.user_property | property_id.maximum_packet_size
    | property_id.wildcard_subscription_available | property_id.subscription_identifier_available
    | property_id.shared_subscription_available => true
    | _ => false
    end
  | property_location.publish =>
    match i with
    | property_id.payload_format_indicator | property_id.message_expiry_interval
    | property_id.content_type | property_id.response_topic | property_id.correlation_data
    | property_id.subscription_identifier | property_id.topic_alias
    | property_id.user_property => true
    | _ => false
    end
  | property_location.puback | property_location.pubrec | property_location.pubrel
  | property_location.pubcomp | property_location.suback | property_location.unsuback =>
    match i with
    | property_id.reason_string | property_id.user_property => true
    | _ => false
    end
  | property_location.subscribe =>
    match i with
    | property_id.subscription_identifier | property_id.user_property => true
    | _ => false
    end
  | property_location.unsubscribe =>
    match i with
    | property_id.user_property => true
    | _ => false
    end
  | property_location.disconnect =>
    match i with
    | property_id.session_expiry_interval | property_id.server_reference
    | property_id.reason_string | property_id.user_property => true
    | _ => false
    end
  | property_location.auth =>
    match i with
    | property_id.authentication_method | property_id.authentication_data
    | property_id.reason_string | property_id.user_property => true
    | _ => false
    end
  end.

(** ** The property classes

    A class derives from one of four bases: [n_bytes_property] has [buf_],
    [binary_property] and [string_property] a two byte length and the
    content, [variable_property] an encoded variable byte integer;
    [user_property] has two [len_str]. *)
Definition n_bytes_property := list byte.
Record binary_property := mk_binary { length_ : list byte; buf_ : list byte }.
Definition variable_property := list byte.
Record len_str := mk_len_str { len : list byte; buf : list byte }.

Inductive property_variant :=
| payload_format_indicator (p : n_bytes_property)
| message_expiry_interval (p : n_bytes_property)
| content_type (p : binary_property)
| response_topic (p : binary_property)
| correlation_data (p : binary_property)
| subscription_identifier (p : variable_property)
| session_expiry_interval (p : n_bytes_property)
| assigned_client_identifier (p : binary_property)
| server_keep_alive (p : n_bytes_property)
| authentication_method (p : binary_property)
| authentication_data (p : binary_property)
| request_problem_information (p : n_bytes_property)
| will_delay_interval (p : n_bytes_property)
| request_response_information (p : n_bytes_property)
| response_information (p : binary_property)
| server_reference (p : binary_property)
| reason_string (p : binary_property)
| receive_maximum (p : n_bytes_property)
| topic_alias_maximum (p : n_bytes_property)
| topic_alias (p : n_bytes_property)
| maximum_qos (p : n_bytes_property)
| retain_available (p : n_bytes_property)
| user_property (key_ val_ : len_str)
| maximum_packet_size (p : n_bytes_property)
| wildcard_subscription_available (p : n_bytes_property)
| subscription_identifier_available (p : n_bytes_property)
| shared_subscription_available (p : n_bytes_property).

#[export] Instance binary_property_eq_dec : EqDecision binary_property.
Proof. solve_decision. Defined.
#[export] Instance len_str_eq_dec : EqDecision len_str.
Proof. solve_decision. Defined.
#[export] Instance property_variant_eq_dec : EqDecision property_variant.
Proof. solve_decision. Defined.

(** The member functions of [property_variant]. *)
Module pv.
Definition id (pv : property_variant) : property_id.id :=
match pv with
| payload_format_indicator _ => property_id.payload_format_indicator
| message_expiry_interval _ => property_id.message_expiry_interval
| content_type _ => property_id.content_type
| response_topic _ => property_id.response_topic
| correlation_data _ => property_id.correlation_data
| subscription_identifier _ => property_id.subscription_identifier
| session_expiry_interval _ => property_id.session_expiry_interval
| assigned_client_identifier _ => property_id.assigned_client_identifier
| server_keep_alive _ => property_id.server_keep_alive
| authentication_method _ => property_id.authentication_method
| authentication_data _ => property_id.authentication_data
| request_problem_information _ => property_id.request_problem_information
| will_delay_interval _ => property_id.will_delay_interval
| request_response_information _ => property_id.request_response_information
| response_information _ => property_id.response_information
| server_reference _ => property_id.server_reference
| reason_string _ => property_id.reason_string
| receive_maximum _ => property_id.receive_maximum
| topic_alias_maximum _ => property_id.topic_alias_maximum
| topic_alias _ => property_id.topic_alias
| maximum_qos _ => property_id.maximum_qos
| retain_available _ => property_id.retain_available
| user_property _ _ => property_id.user_property
| maximum_packet_size _ => property_id.maximum_packet_size
| wildcard_subscription_available _ => property_id.wildcard_subscription_available
| subscription_identifier_available _ => property_id.subscription_identifier_available
| shared_subscription_available _ => property_id.shared_subscription_available
end.

(** The base a class derives from, with its content. *)
Inductive base :=
| n_bytes (p : n_bytes_property)
| binary (p : binary_property)
| variable (p : variable_property)
| key_val (k v : len_str).

Definition base_of (pv : property_variant) : base :=
match pv with
| payload_format_indicator p | message_expiry_interval p | session_expiry_interval p
| server_keep_alive p | request_problem_information p | will_delay_interval p
| request_response_information p | receive_maximum p | topic_alias_maximum p | topic_alias p
| maximum_qos p | retain_available p | maximum_packet_size p
| wildcard_subscription_available p | subscription_identifier_available p
| shared_subscription_available p => n_bytes p
| content_type p | response_topic p | correlation_data p | assigned_client_identifier p
| authentication_method p | authentication_data p | response_information p
| server_reference p | reason_string p => binary p
| subscription_identifier p => variable p
| user_property k v => key_val k v
end.

(** [const_buffer_sequence()], [size()], [num_of_const_buffer_sequence()] *)
Definition const_buffer_sequence (pv : property_variant) : list (list byte) :=
let id_ := [property_id.byte_of (id pv)] in
match base_of pv with
| n_bytes p => [id_; p]
| binary p => [id_; length_ p; buf_ p]
| variable p => [id_; p]
| key_val k v => [id_; len k; buf k; len v; buf v]
end.

Definition len_str_size (s : len_str) : Z := Z.of_nat (length (len s)) + Z.of_nat (length (buf s)).

Definition size (pv : property_variant) : Z :=
match base_of pv with
| n_bytes p => 1 + Z.of_nat (length p)
| binary p => 1 + Z.of_nat (length (length_ p)) + Z.of_nat (length (buf_ p))
| variable p => 1 + Z.of_nat (length p)
| key_val k v => 1 + len_str_size k + len_str_size v
end.

Definition num_of_const_buffer_sequence (pv : property_variant) : nat :=
match base_of pv with
| n_bytes _ => 2
| binary _ => 3
| variable _ => 2
| key_val _ _ => (1 + 2 + 2)
end.

(** the bytes on the wire *)
Definition bytes (pv : property_variant) : list byte := concat (const_buffer_sequence pv).
End pv.

Definition properties := list property_variant.

(** The free functions on [properties]. *)
Module props.
Definition size (props : properties) : Z := fold_left (fun total p => total + pv.size p) props 0.

Definition const_buffer_sequence (props : properties) : list (list byte) :=
  fold_left (fun v p => v ++ pv.const_buffer_sequence p) props [].

Definition num_of_const_buffer_sequence (props : properties) : nat :=
  fold_left (fun total p => (total + pv.num_of_const_buffer_sequence p)%nat) props 0%nat.

Definition bytes (props : properties) : list byte := concat (const_buffer_sequence props).
End props.

(** ** Building properties *)

Inductive payload_format := format_binary | format_string.

(** [qos]: packet/qos.hpp *)
Module qos.
Definition at_most_once : Z := 0.
Definition at_least_once : Z := 1.
Definition exactly_once : Z := 2.
End qos.

Section property.
Context {BE : BoostEndian}.

(** *** Constructors from values

    [Err] is the [system_error] thrown, or the [bad_numeric_cast] of
    [boost::numeric_cast], which is not an error code of the library. *)
Definition bad_numeric_cast : error_code := mqtt_ec 0.

Definition make_binary_property (b : list byte) : result binary_property :=
  if 0xffff <? Z.of_nat (length b) then Err malformed
  else Ok (mk_binary (endian_store 2 (Z.of_nat (length b))) b).

Definition make_string_property (b : list byte) : result binary_property :=
  (let? p := make_binary_property b in
   check? utf8string_check b else malformed in
   Ok p)%result.

Definition make_variable_property (value : Z) : variable_property := val_to_variable_bytes value.

Definition bool_byte (value : bool) : n_bytes_property := if value then [x01] else [x00].

Definition make_payload_format_indicator (fmt : payload_format) : property_variant :=
  payload_format_indicator (match fmt with format_binary => [x00] | format_string => [x01] end).
Definition make_message_expiry_interval (val : Z) : property_variant :=
  message_expiry_interval (endian_static_vector 4 val).
Definition make_content_type (val : list byte) : result property_variant :=
  (let? p := make_string_property val in Ok (content_type p))%result.
Definition make_response_topic (val : list byte) : result property_variant :=
  (let? p := make_string_property val in Ok (response_topic p))%result.
Definition make_correlation_data (val : list byte) : result property_variant :=
  (let? p := make_binary_property val in Ok (correlation_data p))%result.
Definition make_subscription_identifier (val : Z) : result property_variant :=
  if val =? 0 then Err protocol_error else Ok (subscription_identifier (make_variable_property val)).
Definition make_session_expiry_interval (val : Z) : property_variant :=
  session_expiry_interval (endian_static_vector 4 val).
Definition make_assigned_client_identifier (val : list byte) : result property_variant :=
  (let? p := make_string_property val in Ok (assigned_client_identifier p))%result.
Definition make_server_keep_alive (val : Z) : property_variant :=
  server_keep_alive (endian_static_vector 2 val).
Definition make_authentication_method (val : list byte) : result property_variant :=
  (let? p := make_string_property val in Ok (authentication_method p))%result.
Definition make_authentication_data (val : list byte) : result property_variant :=
  (let? p := make_binary_property val in Ok (authentication_data p))%result.
Definition make_request_problem_information (value : bool) : property_variant :=
  request_problem_information (bool_byte value).
Definition make_will_delay_interval (val : Z) : property_variant :=
  will_delay_interval (endian_static_vector 4 val).
Definition make_request_response_information (value : bool) : property_variant :=
  request_response_information (bool_byte value).
Definition make_response_information (val : list byte) : result property_variant :=
  (let? p := make_string_property val in Ok (response_information p))%result.
Definition make_server_reference (val : list byte) : result property_variant :=
  (let? p := make_string_property val in Ok (server_reference p))%result.
Definition make_reason_string (val : list byte) : result property_variant :=
  (let? p := make_string_property val in Ok (reason_string p))%result.
Definition make_receive_maximum (val : Z) : result property_variant :=
  if val =? 0 then Err protocol_error else Ok (receive_maximum (endian_static_vector 2 val)).
Definition make_topic_alias_maximum (val : Z) : property_variant :=
  topic_alias_maximum (endian_static_vector 2 val).
Definition make_topic_alias (val : Z) : property_variant := topic_alias (endian_static_vector 2 val).
Definition make_maximum_qos (value : Z) : result property_variant :=
  if negb (value =? qos.at_most_once) && negb (value =? qos.at_least_once) then Err protocol_error
  else Ok (maximum_qos [to_byte value]).
Definition make_retain_available (value : bool) : property_variant := retain_available (bool_byte value).
Definition make_len_str (b : list byte) : result len_str :=
  (check? Z.of_nat (length b) <=? 0xffff else bad_numeric_cast in
   check? utf8string_check b else malformed in
   Ok (mk_len_str (endian_static_vector 2 (Z.of_nat (length b))) b))%result.
Definition make_user_property (key val : list byte) : result property_variant :=
  (let? key_ := make_len_str key in
   let? val_ := make_len_str val in
   Ok (user_property key_ val_))%result.
Definition make_maximum_packet_size (val : Z) : result property_variant :=
  if val =? 0 then Err protocol_error else Ok (maximum_packet_size (endian_static_vector 4 val)).
Definition make_wildcard_subscription_available (value : bool) : property_variant :=
  wildcard_subscription_available (bool_byte value).
Definition make_subscription_identifier_available (value : bool) : property_variant :=
  subscription_identifier_available (bool_byte value).
Definition make_shared_subscription_available (value : bool) : property_variant :=
  shared_subscription_available (bool_byte value).

(** *** Values *)
Definition uint_val (n : nat) (p : n_bytes_property) : Z := endian_load n p.
Definition bool_val (p : n_bytes_property) : bool :=
  match p with
  | b :: _ => u8 b =? 1
  | [] => false
  end.
Definition variable_val (p : variable_property) : option Z := fst (variable_bytes_to_val p).

(** *** Parsing *)

(** the [N] bytes of an [n_bytes_property] *)
Definition parse_n_bytes (N : nat) (b : list byte) : result (n_bytes_property * list byte) :=
  or_error (insert_advance N b) malformed.

(** the content after its two byte length *)
Definition parse_content (b : list byte) : result (list byte * list byte) :=
  (check? 2 <=? Z.of_nat (length b) else malformed in
   let len := endian_load 2 b in
   check? 2 + len <=? Z.of_nat (length b) else malformed in
   Ok (firstn (Z.to_nat len) (skipn 2 b), skipn (Z.to_nat (2 + len)) b))%result.

Definition parse_string (b : list byte) : result (binary_property * list byte) :=
  (let? (content, rest) := parse_content b in
   let? p := make_string_property content in
   Ok (p, rest))%result.

Definition parse_binary (b : list byte) : result (binary_property * list byte) :=
  (let? (content, rest) := parse_content b in
   let? p := make_binary_property content in
   Ok (p, rest))%result.

Definition parse_payload_format_indicator (b : list byte) : result (property_variant * list byte) :=
  (let? (p, rest) := parse_n_bytes 1 b in
   check? match p with v :: _ => (u8 v =? 0) || (u8 v =? 1) | [] => false end else malformed in
   Ok (payload_format_indicator p, rest))%result.

Definition parse_subscription_identifier (b : list byte) : result (property_variant * list byte) :=
  match variable_bytes_to_val b with
  | (Some val, rest) =>
    if val =? 0 then Err protocol_error
    else Ok (subscription_identifier (make_variable_property val), rest)
  | (None, _) => Err malformed
  end.

Definition parse_receive_maximum (b : list byte) : result (property_variant * list byte) :=
  (let? (p, rest) := parse_n_bytes 2 b in
   check? negb (uint_val 2 p =? 0) else protocol_error in
   Ok (receive_maximum p, rest))%result.

Definition parse_maximum_qos (b : list byte) : result (property_variant * list byte) :=
  (let? (p, rest) := parse_n_bytes 1 b in
   check? match p with
          | v :: _ => (u8 v =? qos.at_most_once) || (u8 v =? qos.at_least_once)
          | [] => false
          end else protocol_error in
   Ok (maximum_qos p, rest))%result.

Definition parse_maximum_packet_size (b : list byte) : result (property_variant * list byte) :=
  (let? (p, rest) := parse_n_bytes 4 b in
   check? negb (uint_val 4 p =? 0) else protocol_error in
   Ok (maximum_packet_size p, rest))%result.

(** [len_str(buffer, error_code&)] and [user_property(Buffer&&, Buffer&&,
    error_code&)]: the last statement is [ec = error_code{}], so the result
    of the UTF-8 checks is lost. *)
Definition len_str_of (b : list byte) : len_str :=
  mk_len_str (endian_static_vector 2 (Z.of_nat (length b))) b.

Definition user_property_ec (key val : list byte) : result property_variant :=
  let key_ := len_str_of key in
  let val_ := len_str_of val in
  if 0xffff <? pv.len_str_size key_ then Err malformed
  else if 0xffff <? pv.len_str_size val_ then Err malformed
  else Ok (user_property key_ val_).

Definition parse_user_property (b : list byte) : result (property_variant * list byte) :=
  (let? (key, b) := parse_content b in
   let? (val, b) := parse_content b in
   let? p := user_property_ec key val in
   Ok (p, b))%result.

Definition parsed {A} (f : A -> property_variant) (r : result (A * list byte)) : result (property_variant * list byte) :=
  (let? (p, rest) := r in Ok (f p, rest))%result.

Definition make_property_variant (b : list byte) (loc : property_location.location)
  : result (property_variant * list byte) :=
  match b with
  | [] => Err malformed
  | front :: b =>
    match property_id.of_byte front with
    | None => Err malformed
    | Some i =>
      if negb (validate_property loc i) then Err malformed
      else
        match i with
        | property_id.payload_format_indicator => parse_payload_format_indicator b
        | property_id.message_expiry_interval => parsed message_expiry_interval (parse_n_bytes 4 b)
        | property_id.content_type => parsed content_type (parse_string b)
        | property_id.response_topic => parsed response_topic (parse_string b)
        | property_id.correlation_data => parsed correlation_data (parse_binary b)
        | property_id.subscription_identifier => parse_subscription_identifier b
        | property_id.session_expiry_interval => parsed session_expiry_interval (parse_n_bytes 4 b)
        | property_id.assigned_client_identifier => parsed assigned_client_identifier (parse_string b)
        | property_id.server_keep_alive => parsed server_keep_alive (parse_n_bytes 2 b)
        | property_id.authentication_method => parsed authentication_method (parse_string b)
        | property_id.authentication_data => parsed authentication_data (parse_binary b)
        | property_id.request_problem_information => parsed request_problem_information (parse_n_bytes 1 b)
        | property_id.will_delay_interval => parsed will_delay_interval (parse_n_bytes 4 b)
        | property_id.request_response_information => parsed request_response_information (parse_n_bytes 1 b)
        | property_id.response_information => parsed response_information (parse_string b)
        | property_id.server_reference => parsed server_reference (parse_string b)
        | property_id.reason_string => parsed reason_string (parse_string b)
        | property_id.receive_maximum => parse_receive_maximum b
        | property_id.topic_alias_maximum => parsed topic_alias_maximum (parse_n_bytes 2 b)
        | property_id.topic_alias => parsed topic_alias (parse_n_bytes 2 b)
        | property_id.maximum_qos => parse_maximum_qos b
        | property_id.retain_available => parsed retain_available (parse_n_bytes 1 b)
        | property_id.user_property => parse_user_property b
        | property_id.maximum_packet_size => parse_maximum_packet_size b
        | property_id.wildcard_subscription_available => parsed wildcard_subscription_available (parse_n_bytes 1 b)
        | property_id.subscription_identifier_available => parsed subscription_identifier_available (parse_n_bytes 1 b)
        | property_id.shared_subscription_available => parsed shared_subscription_available (parse_n_bytes 1 b)
        end
    end
  end.

(** [while (!buf.empty())]: every iteration consumes a byte, so the length
    of the buffer is enough fuel. *)
Fixpoint make_properties_loop (fuel : nat) (b : list byte) (loc : property_location.location) : result properties :=
  match b, fuel with
  | [], _ => Ok []
  | _, O => Err malformed
  | _, S fuel =>
    (let? (p, b) := make_property_variant b loc in
     let? props := make_properties_loop fuel b loc in
     Ok (p :: props))%result
  end.

Definition make_properties (b : list byte) (loc : property_location.location) : result properties :=
  make_properties_loop (length b) b loc.
End property.

Create HintDb property.

(** ** What a well formed property is *)

Definition binary_ok (p : binary_property) : Prop :=
  Z.of_nat (length (buf_ p)) <= 0xffff /\ length_ p = be_bytes 2 (Z.of_nat (length (buf_ p))).

Definition string_ok (p : binary_property) : Prop := binary_ok p /\ utf8string_check (buf_ p) = true.

(** two bytes less than a string: the limit compares the size with its length
    field *)
Definition len_str_ok (s : len_str) : Prop :=
  Z.of_nat (length (buf s)) <= 0xfffd /\ len s = be_bytes 2 (Z.of_nat (length (buf s))).

Definition property_ok (p : property_variant) : Prop :=
  match p with
  | payload_format_indicator v | maximum_qos v => v = [x00] \/ v = [x01]
  | request_problem_information v | request_response_information v | retain_available v
  | wildcard_subscription_available v | subscription_identifier_available v
  | shared_subscription_available v => length v = 1%nat
  | server_keep_alive v | topic_alias_maximum v | topic_alias v => length v = 2%nat
  | receive_maximum v => length v = 2%nat /\ be_val v <> 0
  | message_expiry_interval v | session_expiry_interval v | will_delay_interval v => length v = 4%nat
  | maximum_packet_size v => length v = 4%nat /\ be_val v <> 0
  | correlation_data v | authentication_data v => binary_ok v
  | content_type v | response_topic v | assigned_client_identifier v | authentication_method v
  | response_information v | server_reference v | reason_string v => string_ok v
  | subscription_identifier v => exists n, 1 <= n <= max_variable_bytes /\ v = val_to_variable_bytes n
  | user_property k v => len_str_ok k /\ len_str_ok v
  end.

Section property_facts.
Context {BE : BoostEndian} {BEO : BoostEndianOk}.

Lemma parse_n_bytes_app N p rest : length p = N -> parse_n_bytes N (p ++ rest) = Ok (p, rest).
Proof. intros Hl. unfold parse_n_bytes. by rewrite insert_advance_app. Qed.

Lemma parse_n_bytes_Ok N b p rest : parse_n_bytes N b = Ok (p, rest) -> b = p ++ rest /\ length p = N.
Proof. intros H. apply or_error_Ok in H. rewrite insert_advance_copy in H. by apply copy_advance_Some. Qed.

Lemma parse_content_app l c rest :
  Z.of_nat (length c) <= 0xffff -> l = be_bytes 2 (Z.of_nat (length c)) ->
  parse_content (l ++ c ++ rest) = Ok (c, rest).
Proof.
  intros Hc ->. unfold parse_content.
  assert (Hp : 0 <= Z.of_nat (length c) < 256 ^ Z.of_nat 2) by (change (256 ^ Z.of_nat 2) with 65536; lia).
  rewrite <- endian_store_bytes, load_of_store by done. rewrite endian_store_bytes by done.
  rewrite !length_app, length_be_bytes.
  rewrite (proj2 (Z.leb_le 2 _)) by lia. cbn [guard result_bind]. rewrite (proj2 (Z.leb_le _ _)) by lia.
  cbn [guard result_bind]. pose proof (length_be_bytes 2 (Z.of_nat (length c))) as Hl.
  replace (Z.to_nat (2 + Z.of_nat (length c))) with (length c + length (be_bytes 2 (Z.of_nat (length c))))%nat by lia.
  rewrite <- skipn_skipn, <- Hl at 1. rewrite Nat2Z.id, !drop_app_length, take_app_length. done.
Qed.

Lemma parse_content_Ok b c rest :
  parse_content b = Ok (c, rest) ->
  Z.of_nat (length c) <= 0xffff /\ b = be_bytes 2 (Z.of_nat (length c)) ++ c ++ rest.
Proof.
  intros H. unfold parse_content in H. bind_inv.
  match goal with H : (2 <=? _) = true |- _ => apply Z.leb_le in H as Hl2 end.
  match goal with H : (2 + _ <=? _) = true |- _ => apply Z.leb_le in H as Hl end.
  subst c rest.
  pose proof (endian_load_bound 2 b ltac:(lia)) as Hb. change (256 ^ Z.of_nat 2) with 65536 in Hb.
  rewrite endian_load_val in Hb, Hl |- * by lia.
  assert (Hlen : length (firstn 2 b) = 2%nat) by (rewrite length_firstn; lia).
  pose proof (be_bytes_val (firstn 2 b)) as Hbe. rewrite Hlen in Hbe.
  set (n := be_val (firstn 2 b)) in *.
  assert (Hc : length (firstn (Z.to_nat n) (skipn 2 b)) = Z.to_nat n) by (rewrite length_firstn, length_skipn; lia).
  rewrite Hc, Z2Nat.id, Hbe by lia. split; [lia|].
  replace (Z.to_nat (2 + n)) with (Z.to_nat n + 2)%nat by lia. rewrite <- skipn_skipn.
  rewrite firstn_skipn. symmetry. apply firstn_skipn.
Qed.

Lemma make_binary_property_ok c :
  Z.of_nat (length c) <= 0xffff -> make_binary_property c = Ok (mk_binary (be_bytes 2 (Z.of_nat (length c))) c).
Proof.
  intros Hc. unfold make_binary_property. destruct (Z.ltb_spec 0xffff (Z.of_nat (length c))); [lia|].
  rewrite endian_store_bytes by (change (256 ^ Z.of_nat 2) with 65536; lia). done.
Qed.

Lemma make_binary_property_Ok c p : make_binary_property c = Ok p -> binary_ok p /\ buf_ p = c.
Proof.
  unfold make_binary_property. destruct (Z.ltb_spec 0xffff (Z.of_nat (length c))); [done|]. intros [= <-].
  split; [split; simpl; [done|]|done]. apply endian_store_bytes. change (256 ^ Z.of_nat 2) with 65536. lia.
Qed.

Lemma make_string_property_Ok c p : make_string_property c = Ok p -> string_ok p /\ buf_ p = c.
Proof.
  intros H. unfold make_string_property in H. bind_inv. subst.
  match goal with H : make_binary_property _ = Ok _ |- _ => apply make_binary_property_Ok in H as [? <-] end.
  done.
Qed.

Lemma parse_binary_app p rest : binary_ok p -> parse_binary (length_ p ++ buf_ p ++ rest) = Ok (p, rest).
Proof.
  intros [Hl Hlen]. unfold parse_binary. rewrite parse_content_app by done. simpl.
  rewrite make_binary_property_ok by done. simpl. rewrite <- Hlen. by destruct p.
Qed.

Lemma parse_string_app p rest : string_ok p -> parse_string (length_ p ++ buf_ p ++ rest) = Ok (p, rest).
Proof.
  intros [[Hl Hlen] Hu]. unfold parse_string. rewrite parse_content_app by done. simpl.
  unfold make_string_property. rewrite make_binary_property_ok by done. simpl. rewrite Hu. simpl.
  rewrite <- Hlen. by destruct p.
Qed.

Lemma parse_binary_Ok b p rest : parse_binary b = Ok (p, rest) -> b = length_ p ++ buf_ p ++ rest /\ binary_ok p.
Proof.
  intros H. unfold parse_binary in H. bind_inv. simplify_eq/=.
  match goal with H : parse_content _ = Ok _ |- _ => apply parse_content_Ok in H as [_ ->] end.
  match goal with H : make_binary_property _ = Ok _ |- _ => apply make_binary_property_Ok in H as [[? Hl] <-] end.
  by rewrite Hl.
Qed.

Lemma parse_string_Ok b p rest : parse_string b = Ok (p, rest) -> b = length_ p ++ buf_ p ++ rest /\ string_ok p.
Proof.
  intros H. unfold parse_string in H. bind_inv. simplify_eq/=.
  match goal with H : parse_content _ = Ok _ |- _ => apply parse_content_Ok in H as [_ ->] end.
  match goal with H : make_string_property _ = Ok _ |- _ => apply make_string_property_Ok in H as [[[? Hl] ?] <-] end.
  by rewrite Hl.
Qed.

Lemma len_str_of_ok s : len_str_ok s -> len_str_of (buf s) = s /\ (0xffff <? pv.len_str_size s) = false.
Proof.
  intros [Hb Hl]. unfold len_str_of, endian_static_vector. split.
  - change (boost_endian_store 2 (Z.of_nat (length (buf s)))) with (endian_store 2 (Z.of_nat (length (buf s)))).
    rewrite endian_store_bytes by (change (256 ^ Z.of_nat 2) with 65536; lia). rewrite <- Hl. by destruct s.
  - unfold pv.len_str_size. rewrite Hl, length_be_bytes. change (Z.of_nat 2) with 2. lia.
Qed.

Lemma len_str_of_Ok c :
  Z.of_nat (length c) <= 0xffff -> (0xffff <? pv.len_str_size (len_str_of c)) = false ->
  len_str_ok (len_str_of c) /\ len (len_str_of c) = be_bytes 2 (Z.of_nat (length c)).
Proof.
  intros Hc. unfold pv.len_str_size, len_str_of, len_str_ok, endian_static_vector. simpl.
  change (boost_endian_store 2 ?v) with (endian_store 2 v).
  rewrite endian_store_bytes by (change (256 ^ Z.of_nat 2) with 65536; lia). rewrite length_be_bytes.
  change (Z.of_nat 2) with 2. intros Hx%Z.ltb_ge. split; [split; [lia|done]|done].
Qed.

Lemma parse_user_property_app k v rest :
  len_str_ok k -> len_str_ok v ->
  parse_user_property (len k ++ buf k ++ len v ++ buf v ++ rest) = Ok (user_property k v, rest).
Proof.
  intros Hk Hv. destruct (len_str_of_ok k Hk) as [Hko Hks]. destruct (len_str_of_ok v Hv) as [Hvo Hvs].
  unfold parse_user_property. destruct Hk as [? ?]. destruct Hv as [? ?].
  rewrite parse_content_app by (done || lia). simpl. rewrite parse_content_app by (done || lia). simpl.
  unfold user_property_ec. by rewrite Hko, Hvo, Hks, Hvs.
Qed.

Lemma parse_user_property_Ok b p rest :
  parse_user_property b = Ok (p, rest) ->
  exists k v, p = user_property k v /\ len_str_ok k /\ len_str_ok v /\ b = len k ++ buf k ++ len v ++ buf v ++ rest.
Proof.
  intros H. unfold parse_user_property in H. bind_inv. simplify_eq/=.
  repeat match goal with H : parse_content _ = Ok _ |- _ => apply parse_content_Ok in H as [? ->] end.
  match goal with H : user_property_ec ?k ?v = _ |- _ => unfold user_property_ec in H;
    destruct (0xffff <? pv.len_str_size (len_str_of k)) eqn:Hk; [done|];
    destruct (0xffff <? pv.len_str_size (len_str_of v)) eqn:Hv; [done|] end.
  simplify_eq/=. apply len_str_of_Ok in Hk as [? Hlk]; [|done]. apply len_str_of_Ok in Hv as [? Hlv]; [|done].
  eexists _, _. split; [done|]. by rewrite Hlk, Hlv.
Qed.

Lemma parsed_n_bytes_app f N p rest : length p = N -> parsed f (parse_n_bytes N (p ++ rest)) = Ok (f p, rest).
Proof. intros Hl. by rewrite parse_n_bytes_app. Qed.

Lemma parsed_string_app f p rest :
  string_ok p -> parsed f (parse_string (length_ p ++ buf_ p ++ rest)) = Ok (f p, rest).
Proof. intros Hp. by rewrite parse_string_app. Qed.

Lemma parsed_binary_app f p rest :
  binary_ok p -> parsed f (parse_binary (length_ p ++ buf_ p ++ rest)) = Ok (f p, rest).
Proof. intros Hp. by rewrite parse_binary_app. Qed.

Lemma uint_val_be n p : length p = n -> uint_val n p = be_val p.
Proof. intros Hl. unfold uint_val. rewrite endian_load_val by lia. by rewrite firstn_all2 by lia. Qed.

Hint Resolve parsed_n_bytes_app parsed_string_app parsed_binary_app : property.

Lemma make_property_variant_bytes p loc rest :
  property_ok p -> validate_property loc (pv.id p) = true ->
  make_property_variant (pv.bytes p ++ rest) loc = Ok (p, rest).
Proof.
  intros Hp Hv. unfold make_property_variant, pv.bytes, pv.const_buffer_sequence.
  destruct p; simpl pv.id in *; simpl pv.base_of; cbn [concat app]; rewrite property_id.of_byte_of, Hv;
    cbn [negb]; rewrite ?app_nil_r, <- ?app_assoc; simpl in Hp; eauto with property.
  - unfold parse_payload_format_indicator. by destruct Hp as [-> | ->].
  - destruct Hp as (n & Hn & ->). unfold parse_subscription_identifier, make_variable_property.
    rewrite to_val_of_bytes by lia. by rewrite (proj2 (Z.eqb_neq n 0)) by lia.
  - destruct Hp as [Hl Hne]. unfold parse_receive_maximum. rewrite parse_n_bytes_app by done. simpl.
    rewrite uint_val_be by done. by rewrite (proj2 (Z.eqb_neq _ _) Hne).
  - unfold parse_maximum_qos. by destruct Hp as [-> | ->].
  - destruct Hp. by apply parse_user_property_app.
  - destruct Hp as [Hl Hne]. unfold parse_maximum_packet_size. rewrite parse_n_bytes_app by done. simpl.
    rewrite uint_val_be by done. by rewrite (proj2 (Z.eqb_neq _ _) Hne).
Qed.

Lemma size_bytes p : pv.size p = Z.of_nat (length (pv.bytes p)).
Proof.
  unfold pv.size, pv.bytes, pv.const_buffer_sequence, pv.len_str_size. destruct (pv.base_of p); simpl;
    rewrite ?length_app; simpl; lia.
Qed.

(** bytes that encode a property: those of its serialization, where a
    subscription identifier may also be written in more bytes than needed *)
Definition encodes (p : property_variant) (bs : list byte) : Prop :=
  bs = pv.bytes p \/
  exists v vb, vbi vb = Some v /\ p = subscription_identifier (make_variable_property v) /\
    bs = property_id.byte_of property_id.subscription_identifier :: vb.

(** what parsing a property consumes and yields *)
Definition consumed (i : property_id.id) (b : list byte) (p : property_variant) (rest : list byte) : Prop :=
  pv.id p = i /\ property_ok p /\
  exists pre, property_id.byte_of i :: b = pre ++ rest /\ (length (pv.bytes p) <= length pre)%nat /\
    encodes p pre.

Lemma consumed_exact i b p rest :
  pv.id p = i -> property_ok p -> property_id.byte_of i :: b = pv.bytes p ++ rest -> consumed i b p rest.
Proof. intros Hi Hp Hb. split; [done|]. split; [done|]. exists (pv.bytes p). split; [done|]. split; [done | by left]. Qed.

Lemma parsed_Ok {A} (f : A -> property_variant) r p rest :
  parsed f r = Ok (p, rest) -> exists a, r = Ok (a, rest) /\ p = f a.
Proof. intros H. unfold parsed in H. bind_inv. simplify_eq. eauto. Qed.

Lemma consumed_n_bytes i b p rest f N :
  parsed f (parse_n_bytes N b) = Ok (p, rest) ->
  (forall a, pv.id (f a) = i /\ pv.base_of (f a) = pv.n_bytes a /\ (length a = N -> property_ok (f a))) ->
  consumed i b p rest.
Proof.
  intros (a & H & ->)%parsed_Ok Hf. apply parse_n_bytes_Ok in H as [-> Hl]. destruct (Hf a) as (Hi & Hb & Hok).
  apply consumed_exact; [done | by apply Hok|]. unfold pv.bytes, pv.const_buffer_sequence.
  rewrite Hi, Hb. simpl. by rewrite app_nil_r.
Qed.

Lemma consumed_binary i b p rest f :
  parsed f (parse_binary b) = Ok (p, rest) ->
  (forall a, pv.id (f a) = i /\ pv.base_of (f a) = pv.binary a /\ (binary_ok a -> property_ok (f a))) ->
  consumed i b p rest.
Proof.
  intros (a & H & ->)%parsed_Ok Hf. apply parse_binary_Ok in H as [-> Hl]. destruct (Hf a) as (Hi & Hb & Hok).
  apply consumed_exact; [done | by apply Hok|]. unfold pv.bytes, pv.const_buffer_sequence.
  rewrite Hi, Hb. simpl. by rewrite app_nil_r, <- app_assoc.
Qed.

Lemma consumed_string i b p rest f :
  parsed f (parse_string b) = Ok (p, rest) ->
  (forall a, pv.id (f a) = i /\ pv.base_of (f a) = pv.binary a /\ (string_ok a -> property_ok (f a))) ->
  consumed i b p rest.
Proof.
  intros (a & H & ->)%parsed_Ok Hf. apply parse_string_Ok in H as [-> Hl]. destruct (Hf a) as (Hi & Hb & Hok).
  apply consumed_exact; [done | by apply Hok|]. unfold pv.bytes, pv.const_buffer_sequence.
  rewrite Hi, Hb. simpl. by rewrite app_nil_r, <- app_assoc.
Qed.

(** a one byte property limited to 0 and 1 *)
Lemma zero_or_one p v w :
  length p = 1%nat -> 0 <= v < 256 -> 0 <= w < 256 ->
  match p with b :: _ => (u8 b =? v) || (u8 b =? w) | [] => false end = true -> p = [to_byte v] \/ p = [to_byte w].
Proof.
  intros Hl Hv Hw. destruct p as [|b [|c p]]; try done. intros H.
  apply orb_true_iff in H as [H|H]; apply Z.eqb_eq in H; [left|right]; f_equal; apply u8_inj;
    by rewrite u8_to_byte_small.
Qed.

Lemma consumed_subscription_identifier b p rest :
  parse_subscription_identifier b = Ok (p, rest) -> consumed property_id.subscription_identifier b p rest.
Proof.
  unfold parse_subscription_identifier. destruct (variable_bytes_to_val b) as [[n|] r] eqn:Hv; [|done].
  destruct (Z.eqb_spec n 0); [done|]. intros [= <- <-]. pose proof Hv as (pre' & Hpre' & _ & Hvbi)%to_val_vbi.
  apply to_val_bounds in Hv as (Hn & pre & -> & Hpre & Hlen). apply app_inv_tail in Hpre' as <-. split; [done|].
  split; [exists n; split; [lia|done]|]. exists (property_id.byte_of property_id.subscription_identifier :: pre).
  split; [done|]. split; [|right; by exists n, pre]. unfold pv.bytes. simpl. rewrite app_nil_r. unfold make_variable_property. lia.
Qed.

Lemma make_property_variant_Ok b loc p rest :
  make_property_variant b loc = Ok (p, rest) ->
  property_ok p /\ validate_property loc (pv.id p) = true /\
  exists pre, b = pre ++ rest /\ (1 <= length (pv.bytes p) <= length pre)%nat /\
    encodes p pre.
Proof.
  intros H. destruct b as [|front b]; simpl in H; [done|].
  destruct (property_id.of_byte front) as [i|] eqn:Hf; [|done]. apply property_id.of_byte_Some in Hf as ->.
  destruct (validate_property loc i) eqn:Hv; simpl in H; [|done].
  assert (Hc : consumed i b p rest).
  { destruct i; try (eapply consumed_n_bytes; [exact H | by intros a; simpl]);
      try (eapply consumed_binary; [exact H | by intros a; simpl]);
      try (eapply consumed_string; [exact H | by intros a; simpl]).
    - unfold parse_payload_format_indicator in H. bind_inv. simplify_eq.
      match goal with H : parse_n_bytes _ _ = _ |- _ => apply parse_n_bytes_Ok in H as [-> Hl] end.
      apply consumed_exact; [done | by apply (zero_or_one _ 0 1) | by unfold pv.bytes; simpl; rewrite app_nil_r].
    - by apply consumed_subscription_identifier.
    - unfold parse_receive_maximum in H. bind_inv. simplify_eq.
      match goal with H : parse_n_bytes _ _ = _ |- _ => apply parse_n_bytes_Ok in H as [-> Hl] end.
      apply consumed_exact; [done | | by unfold pv.bytes; simpl; rewrite app_nil_r].
      split; [done|]. rewrite <- (uint_val_be 2) by done. by apply Z.eqb_neq, negb_true_iff.
    - unfold parse_maximum_qos in H. bind_inv. simplify_eq.
      match goal with H : parse_n_bytes _ _ = _ |- _ => apply parse_n_bytes_Ok in H as [-> Hl] end.
      apply consumed_exact; [done | by apply (zero_or_one _ 0 1) | by unfold pv.bytes; simpl; rewrite app_nil_r].
    - apply parse_user_property_Ok in H as (k & v & -> & Hk & Hv' & ->).
      apply consumed_exact; [done | done | unfold pv.bytes; simpl; by rewrite app_nil_r, <- !app_assoc].
    - unfold parse_maximum_packet_size in H. bind_inv. simplify_eq.
      match goal with H : parse_n_bytes _ _ = _ |- _ => apply parse_n_bytes_Ok in H as [-> Hl] end.
      apply consumed_exact; [done | | by unfold pv.bytes; simpl; rewrite app_nil_r].
      split; [done|]. rewrite <- (uint_val_be 4) by done. by apply Z.eqb_neq, negb_true_iff. }
  destruct Hc as (<- & Hok & pre & Hb & Hlen & Hpre). split; [done|]. split; [done|]. exists pre.
  split; [done|]. split; [|done]. split; [|done]. unfold pv.bytes, pv.const_buffer_sequence.
  destruct (pv.base_of p); simpl; lia.
Qed.

(** *** Sequences of properties *)

Lemma buffers_app acc ps :
  fold_left (fun v p => v ++ pv.const_buffer_sequence p) ps acc = acc ++ concat (map pv.const_buffer_sequence ps).
Proof.
  revert acc. induction ps as [|p ps IH]; intros acc; simpl; [by rewrite app_nil_r|].
  by rewrite IH, app_assoc.
Qed.

Lemma props_bytes_cons p ps : props.bytes (p :: ps) = pv.bytes p ++ props.bytes ps.
Proof. unfold props.bytes, props.const_buffer_sequence. simpl. by rewrite !buffers_app, concat_app. Qed.

Lemma props_size_acc acc ps : fold_left (fun total p => total + pv.size p) ps acc = acc + props.size ps.
Proof.
  unfold props.size. revert acc. induction ps as [|p ps IH]; intros acc; simpl; [lia|].
  rewrite (IH (acc + _)), (IH (0 + pv.size p)). lia.
Qed.

Lemma props_size_bytes ps : props.size ps = Z.of_nat (length (props.bytes ps)).
Proof.
  induction ps as [|p ps IH]; [done|]. rewrite props_bytes_cons, length_app. unfold props.size. simpl.
  rewrite props_size_acc, IH, size_bytes. lia.
Qed.

Lemma props_size_nonneg ps : 0 <= props.size ps.
Proof. rewrite props_size_bytes. lia. Qed.

Lemma props_size_cons p ps : props.size (p :: ps) = pv.size p + props.size ps.
Proof. unfold props.size at 1. simpl. by rewrite props_size_acc. Qed.

Lemma props_size_snoc ps p : props.size (ps ++ [p]) = props.size ps + pv.size p.
Proof. unfold props.size. by rewrite fold_left_app. Qed.

Lemma props_num_bufs ps : props.num_of_const_buffer_sequence ps = length (props.const_buffer_sequence ps).
Proof.
  unfold props.num_of_const_buffer_sequence, props.const_buffer_sequence. rewrite buffers_app. simpl.
  enough (forall acc, fold_left (fun total p => (total + pv.num_of_const_buffer_sequence p)%nat) ps acc =
    (acc + length (concat (map pv.const_buffer_sequence ps)))%nat) as -> by done.
  induction ps as [|p ps IH]; intros acc; simpl; [lia|]. rewrite IH, length_app.
  unfold pv.num_of_const_buffer_sequence, pv.const_buffer_sequence. destruct (pv.base_of p); simpl; lia.
Qed.

Definition props_ok (loc : property_location.location) (ps : properties) : Prop :=
  Forall (fun p => property_ok p /\ validate_property loc (pv.id p) = true) ps.

(** the length of the buffer is enough fuel *)
Lemma make_properties_fuel f1 f2 b loc :
  (length b <= f1)%nat -> (length b <= f2)%nat ->
  make_properties_loop f1 b loc = make_properties_loop f2 b loc.
Proof.
  revert f2 b. induction f1 as [|f1 IH]; intros f2 [|c b] H1 H2; simpl in H1; try lia; try by destruct f2.
  destruct f2 as [|f2]; simpl in H2; [lia|]. cbn [make_properties_loop].
  destruct (make_property_variant (c :: b) loc) as [[p rest]|ec|] eqn:H; [|done..]. simpl.
  apply make_property_variant_Ok in H as (_ & _ & pre & Hb & Hlen & _).
  apply (f_equal length) in Hb. rewrite length_app in Hb. simpl in Hb.
  rewrite (IH f2 rest); [done | lia..].
Qed.

Lemma make_properties_cons b loc p rest :
  make_property_variant b loc = Ok (p, rest) ->
  make_properties b loc = (let? ps := make_properties rest loc in Ok (p :: ps))%result.
Proof.
  intros H. pose proof H as (_ & _ & pre & Hb & Hlen & _)%make_property_variant_Ok. unfold make_properties.
  apply (f_equal length) in Hb. rewrite length_app in Hb.
  destruct b as [|c b]; [simpl in Hb; lia|]. cbn [length make_properties_loop]. rewrite H. simpl.
  rewrite (make_properties_fuel _ (length rest)); [done | simpl in Hb; lia | lia].
Qed.

Lemma make_properties_bytes loc ps : props_ok loc ps -> make_properties (props.bytes ps) loc = Ok ps.
Proof.
  induction 1 as [|p ps [Hp Hv] Hps IH]; [done|]. rewrite props_bytes_cons.
  rewrite (make_properties_cons _ _ p (props.bytes ps)) by (by apply make_property_variant_bytes). by rewrite IH.
Qed.

Lemma make_properties_Ok loc b ps :
  make_properties b loc = Ok ps ->
  props_ok loc ps /\ exists chunks, b = concat chunks /\ Forall2 encodes ps chunks.
Proof.
  revert ps. induction b as [b IH] using (induction_ltof1 _ (@length byte)). unfold ltof in IH. intros ps H.
  destruct b as [|c b]; [injection H as <-; split; [constructor | by exists []]|].
  destruct (make_property_variant (c :: b) loc) as [[p rest]|ec|] eqn:Hp.
  2,3: unfold make_properties in H; cbn [length make_properties_loop] in H; by rewrite Hp in H.
  rewrite (make_properties_cons _ _ _ _ Hp) in H. bind_inv. subst ps.
  apply make_property_variant_Ok in Hp as (Hok & Hv & pre & Hb & Hlen & Hpre).
  match goal with H : make_properties rest loc = Ok ?q |- _ => rename H into Hr; rename q into ps end.
  destruct (IH rest) with (ps := ps) as (Hps & chunks & -> & Hchunks); [rewrite Hb, length_app; lia | done |].
  split; [by constructor|]. exists (pre :: chunks). split; [done | by constructor].
Qed.

Lemma encodes_exact p bs : encodes p bs -> pv.id p <> property_id.subscription_identifier -> bs = pv.bytes p.
Proof. by intros [->|(v & vb & _ & -> & _)]. Qed.

Lemma chunks_exact ps chunks :
  Forall2 encodes ps chunks -> Forall (fun p => pv.id p <> property_id.subscription_identifier) ps -> concat chunks = props.bytes ps.
Proof.
  induction 1 as [|p bs ps chunks Hp _ IH]; [done|]. intros (Hne & Hf)%Forall_cons. rewrite props_bytes_cons. cbn [concat].
  by rewrite (IH Hf), (encodes_exact p bs Hp Hne).
Qed.

(** C23: well formed properties that are allowed at a location are read back
    from their serialization, whose length is what [size] and
    [num_of_const_buffer_sequence] announce. *)
Theorem properties_roundtrip loc ps :
  props_ok loc ps ->
  make_properties (props.bytes ps) loc = Ok ps /\
  props.size ps = Z.of_nat (length (props.bytes ps)) /\
  props.num_of_const_buffer_sequence ps = length (props.const_buffer_sequence ps).
Proof. intros H. split; [by apply make_properties_bytes|]. split; [apply props_size_bytes | apply props_num_bufs]. Qed.

(** C38: the parser accepts nothing but well formed properties allowed at the
    location, and it reads all of the input: the input is the encodings of the
    properties one after the other.  An encoding is the serialization of the
    property, or for a subscription identifier any variable byte integer of
    the value, also one that is not the shortest.  Without a subscription
    identifier the properties serialize to the bytes that were read. *)
Theorem properties_parse_sound loc b ps :
  make_properties b loc = Ok ps ->
  props_ok loc ps /\ (exists chunks, b = concat chunks /\ Forall2 encodes ps chunks) /\
  (Forall (fun p => pv.id p <> property_id.subscription_identifier) ps -> props.bytes ps = b).
Proof.
  intros (Hok & chunks & -> & Hc)%make_properties_Ok. split; [done|]. split; [by exists chunks|].
  intros Hf. symmetry. by apply chunks_exact.
Qed.

(** *** Properties built from values *)

(** every property a constructor call returns; the integers are of the
    parameter types *)
Inductive built : property_variant -> Prop :=
| built_payload_format_indicator fmt : built (make_payload_format_indicator fmt)
| built_message_expiry_interval v : 0 <= v < 2 ^ 32 -> built (make_message_expiry_interval v)
| built_content_type v p : make_content_type v = Ok p -> built p
| built_response_topic v p : make_response_topic v = Ok p -> built p
| built_correlation_data v p : make_correlation_data v = Ok p -> built p
| built_subscription_identifier v p : 0 <= v < 2 ^ 32 -> make_subscription_identifier v = Ok p -> built p
| built_session_expiry_interval v : 0 <= v < 2 ^ 32 -> built (make_session_expiry_interval v)
| built_assigned_client_identifier v p : make_assigned_client_identifier v = Ok p -> built p
| built_server_keep_alive v : 0 <= v < 2 ^ 16 -> built (make_server_keep_alive v)
| built_authentication_method v p : make_authentication_method v = Ok p -> built p
| built_authentication_data v p : make_authentication_data v = Ok p -> built p
| built_request_problem_information b : built (make_request_problem_information b)
| built_will_delay_interval v : 0 <= v < 2 ^ 32 -> built (make_will_delay_interval v)
| built_request_response_information b : built (make_request_response_information b)
| built_response_information v p : make_response_information v = Ok p -> built p
| built_server_reference v p : make_server_reference v = Ok p -> built p
| built_reason_string v p : make_reason_string v = Ok p -> built p
| built_receive_maximum v p : 0 <= v < 2 ^ 16 -> make_receive_maximum v = Ok p -> built p
| built_topic_alias_maximum v : 0 <= v < 2 ^ 16 -> built (make_topic_alias_maximum v)
| built_topic_alias v : 0 <= v < 2 ^ 16 -> built (make_topic_alias v)
| built_maximum_qos v p : make_maximum_qos v = Ok p -> built p
| built_retain_available b : built (make_retain_available b)
| built_user_property k v p : make_user_property k v = Ok p -> built p
| built_maximum_packet_size v p : 0 <= v < 2 ^ 32 -> make_maximum_packet_size v = Ok p -> built p
| built_wildcard_subscription_available b : built (make_wildcard_subscription_available b)
| built_subscription_identifier_available b : built (make_subscription_identifier_available b)
| built_shared_subscription_available b : built (make_shared_subscription_available b).

(** the two cases the constructors let through and the wire format does not:
    a subscription identifier that does not fit a variable byte integer and
    a user property with a string of 65534 or 65535 bytes *)
Definition oversized (p : property_variant) : Prop :=
  match p with
  | subscription_identifier v => v = []
  | user_property k v => 0xfffd < Z.of_nat (length (buf k)) \/ 0xfffd < Z.of_nat (length (buf v))
  | _ => False
  end.

Lemma length_endian_static_vector n v : 0 <= v < 256 ^ Z.of_nat n -> length (endian_static_vector n v) = n.
Proof. apply length_endian_store. Qed.

Lemma be_val_endian_static_vector n v : 0 <= v < 256 ^ Z.of_nat n -> be_val (endian_static_vector n v) = v.
Proof.
  intros Hv. unfold endian_static_vector. fold (endian_store n v). rewrite endian_store_bytes by done.
  by apply be_val_bytes.
Qed.

Lemma make_len_str_Ok b s :
  make_len_str b = Ok s -> buf s = b /\ len s = be_bytes 2 (Z.of_nat (length b)) /\ utf8string_check b = true.
Proof.
  intros H. unfold make_len_str in H. bind_inv. subst s. simpl. split; [done|]. split; [|done].
  apply endian_store_bytes. change (256 ^ Z.of_nat 2) with 65536. lia.
Qed.

Lemma built_string f v p :
  (let? s := make_string_property v in Ok (f s))%result = Ok p -> (forall s, string_ok s -> property_ok (f s)) -> property_ok p.
Proof. intros H Hf. bind_inv. subst. eapply Hf, make_string_property_Ok. eassumption. Qed.

Lemma built_binary f v p :
  (let? s := make_binary_property v in Ok (f s))%result = Ok p -> (forall s, binary_ok s -> property_ok (f s)) -> property_ok p.
Proof. intros H Hf. bind_inv. subst. eapply Hf, make_binary_property_Ok. eassumption. Qed.

(** C40: a property built from a value is well formed, or one of the two
    oversized kinds. *)
Theorem built_property_ok p : built p -> property_ok p \/ oversized p.
Proof.
  intros Hb. destruct Hb; try (left; by apply length_endian_static_vector); try (left; by destruct b);
    try (left; eapply built_string; [eassumption | by simpl]); try (left; eapply built_binary; [eassumption | by simpl]).
  - left. destruct fmt; simpl; auto.
  - unfold make_subscription_identifier in *. destruct (Z.eqb_spec v 0); simplify_eq. simpl.
    unfold make_variable_property. destruct (Z.ltb_spec max_variable_bytes v) as [Hm|Hm].
    + right. unfold val_to_variable_bytes, max_variable_bytes in *. by rewrite (proj2 (Z.ltb_lt _ _) Hm).
    + left. exists v. split; [lia|done].
  - unfold make_receive_maximum in *. destruct (Z.eqb_spec v 0); simplify_eq. left. split.
    + by apply length_endian_static_vector.
    + by rewrite be_val_endian_static_vector.
  - unfold make_maximum_qos in *. destruct (Z.eqb_spec v qos.at_most_once) as [->|]; simplify_eq/=; [by left; left|].
    destruct (Z.eqb_spec v qos.at_least_once) as [->|]; simplify_eq/=; by left; right.
  - unfold make_user_property in *. bind_inv. subst.
    repeat match goal with H : make_len_str _ = Ok _ |- _ => apply make_len_str_Ok in H as (<- & ? & _) end.
    simpl. unfold len_str_ok.
    match goal with |- context [buf ?a] => destruct (Z.le_gt_cases (Z.of_nat (length (buf a))) 0xfffd) end;
      match goal with |- context [_ \/ 0xfffd < Z.of_nat (length (buf ?a))] =>
        destruct (Z.le_gt_cases (Z.of_nat (length (buf a))) 0xfffd) end; tauto || (right; lia).
  - unfold make_maximum_packet_size in *. destruct (Z.eqb_spec v 0); simplify_eq. left. split.
    + by apply length_endian_static_vector.
    + by rewrite be_val_endian_static_vector.
Qed.

(** a user property whose key is not valid UTF-8 cannot be built from
    the value, and is accepted from the wire: the constructor the parser
    uses resets the error of the check. *)
Theorem user_property_utf8_ignored loc k v rest :
  validate_property loc property_id.user_property = true -> utf8string_check k = false ->
  Z.of_nat (length k) <= 0xfffd -> Z.of_nat (length v) <= 0xfffd ->
  make_user_property k v = Err malformed /\
  exists p, pv.id p = property_id.user_property /\
    make_property_variant (property_id.byte_of property_id.user_property ::
      be_bytes 2 (Z.of_nat (length k)) ++ k ++ be_bytes 2 (Z.of_nat (length v)) ++ v ++ rest) loc = Ok (p, rest).
Proof.
  intros Hloc Hu Hk Hv. split.
  - unfold make_user_property, make_len_str. rewrite (proj2 (Z.leb_le _ _)) by lia. simpl. by rewrite Hu.
  - set (ks := mk_len_str (be_bytes 2 (Z.of_nat (length k))) k).
    set (vs := mk_len_str (be_bytes 2 (Z.of_nat (length v))) v).
    exists (user_property ks vs). split; [done|].
    pose proof (make_property_variant_bytes (user_property ks vs) loc rest) as H.
    unfold pv.bytes in H. simpl in H. rewrite app_nil_r, <- !app_assoc in H. apply H; [|done]. done.
Qed.
End property_facts.

Section examples.
#[local] Existing Instances BigEndian.big_endian BigEndian.big_endian_ok.

Definition example_properties : properties :=
  [make_topic_alias 5; make_message_expiry_interval 60].

Lemma example_properties_ok : props_ok property_location.publish example_properties.
Proof. repeat constructor. Qed.

End examples.

Lemma properties_roundtrip_witness :
  make_properties (BE := BigEndian.big_endian) [x23; x00; x05; x02; x00; x00; x00; x3c] property_location.publish
  = Ok example_properties.
Proof.
  apply (properties_roundtrip (BEO := BigEndian.big_endian_ok) _ _ example_properties_ok).
Defined.

Lemma properties_parse_sound_witness :
  props_ok property_location.publish example_properties.
Proof.
  apply (properties_parse_sound (BEO := BigEndian.big_endian_ok) property_location.publish
    [x23; x00; x05; x02; x00; x00; x00; x3c]). vm_compute. reflexivity.
Defined.

Lemma built_property_ok_witness :
  property_ok (make_topic_alias (BE := BigEndian.big_endian) 7) \/ oversized (make_topic_alias (BE := BigEndian.big_endian) 7).
Proof. apply (built_property_ok (BEO := BigEndian.big_endian_ok)). constructor. lia. Defined.

Lemma user_property_utf8_ignored_witness :
  make_user_property (BE := BigEndian.big_endian) [xff] [x61] = Err malformed /\
  exists p, pv.id p = property_id.user_property /\
    make_property_variant (BE := BigEndian.big_endian) [x26; x00; x01; xff; x00; x01; x61] property_location.publish = Ok (p, []).
Proof.
  apply (user_property_utf8_ignored (BEO := BigEndian.big_endian_ok) property_location.publish [xff] [x61] []);
    [vm_compute; reflexivity .. | simpl; lia | simpl; lia].
Defined.
