(* ===== verification/Field.v ===== *)
(** * Fields of a packet

    What the parsers of packet/impl/*.ipp repeat: the property field with its
    length, and a string or binary field with a length of two bytes.  The
    error code is the one the class reports. *)
From S2P Require Import Prelude Boost Utf8 Wire Error Property.

Section field.
Context {BE : BoostEndian}.

(** the property length, its bytes, the properties and the rest *)
Definition parse_property_field (ec : error_code) (loc : property_location.location) (buf : list byte)
    : result (Z * list byte * properties * list byte) :=
  (let? (property_length, property_length_buf, buf) := or_error (insert_advance_variable_length buf) ec in
   check? property_length <=? Z.of_nat (length buf) else ec in
   let? ps := make_properties (firstn (Z.to_nat property_length) buf) loc in
   Ok (property_length, property_length_buf, ps, skipn (Z.to_nat property_length) buf))%result.

(** the bytes of the length, the content and the rest *)
Definition parse_field (ec : error_code) (buf : list byte) : result (list byte * list byte * list byte) :=
  (let? (length_buf, buf) := or_error (insert_advance 2 buf) ec in
   let n := endian_load 2 length_buf in
   check? n <=? Z.of_nat (length buf) else ec in
   Ok (length_buf, firstn (Z.to_nat n) buf, skipn (Z.to_nat n) buf))%result.

Definition parse_utf8_field (ec : error_code) (buf : list byte) : result (list byte * list byte * list byte) :=
  (let? (length_buf, s, buf) := parse_field ec buf in
   check? utf8string_check s else ec in
   Ok (length_buf, s, buf))%result.
End field.

(** ** Facts *)

Lemma firstn_skipn_exact (a b : list byte) :
  firstn (Z.to_nat (Z.of_nat (length a))) (a ++ b) = a /\ skipn (Z.to_nat (Z.of_nat (length a))) (a ++ b) = b.
Proof. rewrite Nat2Z.id. split; [by rewrite take_app_length | by rewrite drop_app_length]. Qed.

Section field_facts.
Context {BE : BoostEndian} {BEO : BoostEndianOk}.

Lemma parse_property_field_bytes ec loc plb ps n rest :
  props_ok loc ps -> n = props.size ps -> n <= max_variable_bytes -> plb = val_to_variable_bytes n ->
  parse_property_field ec loc (plb ++ props.bytes ps ++ rest) = Ok (n, plb, ps, rest).
Proof.
  intros Hps Hn Hmax ->. unfold parse_property_field. pose proof (props_size_nonneg ps).
  rewrite insert_advance_variable_length_encode by lia. simpl. subst n.
  rewrite (proj2 (Z.leb_le _ _)) by (rewrite length_app, props_size_bytes; lia). simpl.
  rewrite props_size_bytes. destruct (firstn_skipn_exact (props.bytes ps) rest) as [-> ->].
  by rewrite make_properties_bytes.
Qed.

(** a content with its length field *)
Definition field_ok (s length_buf : list byte) : Prop :=
  Z.of_nat (length s) <= 0xffff /\ length_buf = be_bytes 2 (Z.of_nat (length s)).

Lemma field_load s length_buf : field_ok s length_buf -> length length_buf = 2%nat /\ endian_load 2 length_buf = Z.of_nat (length s).
Proof.
  intros (Hl & ->). split; [apply length_be_bytes|].
  assert (0 <= Z.of_nat (length s) < 256 ^ Z.of_nat 2) by (change (256 ^ Z.of_nat 2) with 65536; lia).
  rewrite <- endian_store_bytes, <- (app_nil_r (endian_store _ _)) by done. by apply load_of_store.
Qed.

Lemma parse_field_bytes ec s length_buf rest :
  field_ok s length_buf -> parse_field ec (length_buf ++ s ++ rest) = Ok (length_buf, s, rest).
Proof.
  intros H. apply field_load in H as [Hl Hn]. unfold parse_field. rewrite insert_advance_app by done. simpl.
  rewrite Hn, (proj2 (Z.leb_le _ _)) by (rewrite length_app; lia). simpl.
  by destruct (firstn_skipn_exact s rest) as [-> ->].
Qed.

Lemma parse_utf8_field_bytes ec s length_buf rest :
  field_ok s length_buf -> utf8string_check s = true ->
  parse_utf8_field ec (length_buf ++ s ++ rest) = Ok (length_buf, s, rest).
Proof. intros H Hu. unfold parse_utf8_field. rewrite parse_field_bytes by done. simpl. by rewrite Hu. Qed.

(** [endian_static_vector(size)] of a size that fits *)
Lemma field_ok_length s : Z.of_nat (length s) <= 0xffff -> field_ok s (endian_store 2 (Z.of_nat (length s))).
Proof. intros H. split; [done|]. apply endian_store_bytes. change (256 ^ Z.of_nat 2) with 65536. lia. Qed.

(** What the field parsers accept. *)
Lemma parse_field_Ok ec buf length_buf s rest :
  parse_field ec buf = Ok (length_buf, s, rest) -> buf = length_buf ++ s ++ rest /\ field_ok s length_buf.
Proof.
  unfold parse_field. intros H. bind_inv.
  match goal with H : insert_advance 2 buf = Some _ |- _ => apply copy_advance_Some in H as [-> Hl] end.
  match goal with H : (_ <=? _) = true |- _ => apply Z.leb_le in H; rename H into Hle end.
  subst s rest length_buf. rewrite firstn_skipn. split; [done|].
  pose proof (endian_load_bound 2 l) as Hb. change (256 ^ Z.of_nat 2) with 65536 in Hb.
  assert (Hn : Z.of_nat (length (firstn (Z.to_nat (endian_load 2 l)) l0)) = endian_load 2 l) by (rewrite length_firstn; lia).
  split; rewrite Hn; [lia|]. rewrite endian_load_val, firstn_all2 by lia. rewrite <- Hl. symmetry. apply be_bytes_val.
Qed.

Lemma parse_utf8_field_Ok ec buf length_buf s rest :
  parse_utf8_field ec buf = Ok (length_buf, s, rest) ->
  buf = length_buf ++ s ++ rest /\ field_ok s length_buf /\ utf8string_check s = true.
Proof.
  unfold parse_utf8_field. intros H. bind_inv.
  match goal with H : parse_field _ _ = Ok _ |- _ => apply parse_field_Ok in H as [? ?] end. by subst.
Qed.
End field_facts.
