(* ===== verification/Packet.v ===== *)
(** * Packets

    The packet classes of protocol/packet/v3_1_1_*.hpp and v5_*.hpp with their
    private members, the two variants, and the type predicates of
    packet_traits.hpp.  Classes whose members are the same share a record: the
    variant constructor tells them apart.  A [static_vector<char, N>] and a
    [buffer] are byte lists, a [std::size_t] is an integer. *)
From S2P Require Import Prelude Boost Wire Error Property.

(** ** Fixed headers: control_packet_type.hpp, detail/fixed_header.hpp *)
Module control_packet_type.
Definition connect : Z := 0x10.
Definition connack : Z := 0x20.
Definition publish : Z := 0x30.
Definition puback : Z := 0x40.
Definition pubrec : Z := 0x50.
Definition pubrel : Z := 0x60.
Definition pubcomp : Z := 0x70.
Definition subscribe : Z := 0x80.
Definition suback : Z := 0x90.
Definition unsubscribe : Z := 0xa0.
Definition unsuback : Z := 0xb0.
Definition pingreq : Z := 0xc0.
Definition pingresp : Z := 0xd0.
Definition disconnect : Z := 0xe0.
Definition auth : Z := 0xf0.
End control_packet_type.

Definition get_control_packet_type (v : Z) : Z := Z.land v 0xf0.

(** [control_packet_reserved_bits], [None] for a type that is not listed *)
Definition control_packet_reserved_bits (cpt : Z) : option Z :=
  if existsb (Z.eqb cpt) [control_packet_type.pubrel; control_packet_type.subscribe; control_packet_type.unsubscribe]
  then Some 2
  else if existsb (Z.eqb cpt)
    [control_packet_type.connect; control_packet_type.connack; control_packet_type.puback;
     control_packet_type.pubrec; control_packet_type.pubcomp; control_packet_type.suback;
     control_packet_type.unsuback; control_packet_type.pingreq; control_packet_type.pingresp;
     control_packet_type.disconnect; control_packet_type.auth]
  then Some 0
  else None.

Definition get_control_packet_type_with_check (v : Z) : option Z :=
  let cpt := Z.land v 0xf0 in
  let rsv := Z.land v 0x0f in
  let valid :=
    if cpt =? control_packet_type.publish then true
    else match control_packet_reserved_bits cpt with Some b => rsv =? b | None => false end in
  if valid then Some cpt else None.

Definition make_fixed_header (type flags : Z) : Z := Z.lor type (Z.land flags 0x0f).

(** ** Publish options: pubopts.hpp *)
Module pub.
Definition is_dup (v : Z) : bool := negb (Z.land v 8 =? 0).
Definition get_qos (v : Z) : Z := Z.shiftr (Z.land v 6) 1.
Definition is_retain (v : Z) : bool := negb (Z.land v 1 =? 0).
Definition set_dup (fixed_header : Z) (dup : bool) : Z :=
  if dup then Z.lor fixed_header 8 else Z.land fixed_header 0xf7.
(** [opts(qos)] *)
Definition opts_of_qos (value : Z) : Z := Z.shiftl value 1 mod 256.
End pub.

(** [qos::at_least_once] or [qos::exactly_once] *)
Definition is_qos12 (q : Z) : bool := (q =? qos.at_least_once) || (q =? qos.exactly_once).

(** ** The packet classes *)

(** v3_1_1: connack, puback, pubrec, pubrel, pubcomp, unsuback, pingreq,
    pingresp, disconnect; v5: pingreq, pingresp *)
Record fixed_packet := mk_fixed { all_ : list byte }.

Module v3_1_1.
Record connect_packet := mk_connect {
  fixed_header_ : Z;
  connect_flags_ : Z;
  remaining_length_ : Z;
  remaining_length_buf_ : list byte;
  protocol_name_and_level_ : list byte;
  client_id_ : list byte;
  client_id_length_buf_ : list byte;
  will_topic_ : list byte;
  will_topic_length_buf_ : list byte;
  will_message_ : list byte;
  will_message_length_buf_ : list byte;
  user_name_ : list byte;
  user_name_length_buf_ : list byte;
  password_ : list byte;
  password_length_buf_ : list byte;
  keep_alive_buf_ : list byte;
}.
End v3_1_1.

Module v5.
Record connect_packet := mk_connect {
  fixed_header_ : Z;
  connect_flags_ : Z;
  remaining_length_ : Z;
  remaining_length_buf_ : list byte;
  protocol_name_and_level_ : list byte;
  client_id_ : list byte;
  client_id_length_buf_ : list byte;
  will_topic_ : list byte;
  will_topic_length_buf_ : list byte;
  will_message_ : list byte;
  will_message_length_buf_ : list byte;
  will_property_length_ : Z;
  will_property_length_buf_ : list byte;
  will_props_ : properties;
  user_name_ : list byte;
  user_name_length_buf_ : list byte;
  password_ : list byte;
  password_length_buf_ : list byte;
  keep_alive_buf_ : list byte;
  property_length_ : Z;
  property_length_buf_ : list byte;
  props_ : properties;
}.
End v5.

(** v5::connack_packet *)
Module v5_connack.
Record connack_packet := mk_connack {
  fixed_header_ : Z;
  remaining_length_ : Z;
  remaining_length_buf_ : list byte;
  connect_acknowledge_flags_ : Z;
  reason_code_ : Z;
  property_length_ : Z;
  property_length_buf_ : list byte;
  props_ : properties;
}.
End v5_connack.

(** v3_1_1::basic_publish_packet *)
Module v3_publish.
Record publish_packet := mk_publish {
  fixed_header_ : Z;
  topic_name_ : list byte;
  topic_name_length_buf_ : list byte;
  packet_id_ : list byte;
  payloads_ : list (list byte);
  remaining_length_ : Z;
  remaining_length_buf_ : list byte;
}.
End v3_publish.

(** v5::basic_publish_packet *)
Module v5_publish.
Record publish_packet := mk_publish {
  fixed_header_ : Z;
  topic_name_ : list byte;
  topic_name_length_buf_ : list byte;
  packet_id_ : list byte;
  property_length_ : Z;
  property_length_buf_ : list byte;
  props_ : properties;
  payloads_ : list (list byte);
  remaining_length_ : Z;
  remaining_length_buf_ : list byte;
}.
End v5_publish.

(** v5::basic_puback_packet, basic_pubrec_packet, basic_pubrel_packet and
    basic_pubcomp_packet *)
Module v5_ack.
Record ack_packet := mk_ack {
  fixed_header_ : Z;
  remaining_length_ : Z;
  remaining_length_buf_ : list byte;
  packet_id_ : list byte;
  reason_code_ : option Z;
  property_length_ : Z;
  property_length_buf_ : list byte;
  props_ : properties;
}.
End v5_ack.

(** v5::disconnect_packet and v5::auth_packet *)
Module v5_reason.
Record reason_packet := mk_reason {
  fixed_header_ : Z;
  remaining_length_ : Z;
  remaining_length_buf_ : list byte;
  reason_code_ : option Z;
  property_length_ : Z;
  property_length_buf_ : list byte;
  props_ : properties;
}.
End v5_reason.

(** topic_sharename.hpp and topic_subopts.hpp *)
Record topic_sharename := mk_topic_sharename { all_topic_ : list byte; topic_ : list byte; sharename_ : list byte }.
Record topic_subopts := mk_topic_subopts { topic_sharename_ : topic_sharename; opts_ : Z }.

(** v3_1_1 and v5 subscribe, unsubscribe, suback, and v5 unsuback: the entry
    types differ, and v3_1_1 has no properties (length 0, empty buffer and
    list). *)
Module entries_packet.
Record entries_packet (entry : Type) := mk_entries {
  fixed_header_ : Z;
  topic_length_buf_entries_ : list (list byte);
  entries_ : list entry;
  packet_id_ : list byte;
  remaining_length_ : Z;
  remaining_length_buf_ : list byte;
  property_length_ : Z;
  property_length_buf_ : list byte;
  props_ : properties;
}.
Arguments fixed_header_ {entry}.
Arguments topic_length_buf_entries_ {entry}.
Arguments entries_ {entry}.
Arguments packet_id_ {entry}.
Arguments remaining_length_ {entry}.
Arguments remaining_length_buf_ {entry}.
Arguments property_length_ {entry}.
Arguments property_length_buf_ {entry}.
Arguments props_ {entry}.
Arguments mk_entries {entry}.
End entries_packet.

Definition subscribe_packet := entries_packet.entries_packet topic_subopts.
Definition unsubscribe_packet := entries_packet.entries_packet topic_sharename.
(** the entries are reason codes *)
Definition code_packet := entries_packet.entries_packet Z.

(** [basic_packet_variant]: packet_variant.hpp *)
Inductive packet_variant :=
| v3_1_1_connect (p : v3_1_1.connect_packet)
| v3_1_1_connack (p : fixed_packet)
| v3_1_1_publish (p : v3_publish.publish_packet)
| v3_1_1_puback (p : fixed_packet)
| v3_1_1_pubrec (p : fixed_packet)
| v3_1_1_pubrel (p : fixed_packet)
| v3_1_1_pubcomp (p : fixed_packet)
| v3_1_1_subscribe (p : subscribe_packet)
| v3_1_1_suback (p : code_packet)
| v3_1_1_unsubscribe (p : unsubscribe_packet)
| v3_1_1_unsuback (p : fixed_packet)
| v3_1_1_pingreq (p : fixed_packet)
| v3_1_1_pingresp (p : fixed_packet)
| v3_1_1_disconnect (p : fixed_packet)
| v5_connect (p : v5.connect_packet)
| v5_connack (p : v5_connack.connack_packet)
| v5_publish (p : v5_publish.publish_packet)
| v5_puback (p : v5_ack.ack_packet)
| v5_pubrec (p : v5_ack.ack_packet)
| v5_pubrel (p : v5_ack.ack_packet)
| v5_pubcomp (p : v5_ack.ack_packet)
| v5_subscribe (p : subscribe_packet)
| v5_suback (p : code_packet)
| v5_unsubscribe (p : unsubscribe_packet)
| v5_unsuback (p : code_packet)
| v5_pingreq (p : fixed_packet)
| v5_pingresp (p : fixed_packet)
| v5_disconnect (p : v5_reason.reason_packet)
| v5_auth (p : v5_reason.reason_packet).

(** ** [size()] *)
Definition fixed_size (p : fixed_packet) : Z := Z.of_nat (length (all_ p)).

(** fixed header, remaining length, the rest *)
Definition framed_size (remaining_length_buf_ : list byte) (remaining_length_ : Z) : Z :=
  1 + Z.of_nat (length remaining_length_buf_) + remaining_length_.

Definition packet_size (pv : packet_variant) : Z :=
  match pv with
  | v3_1_1_connack p | v3_1_1_puback p | v3_1_1_pubrec p | v3_1_1_pubrel p | v3_1_1_pubcomp p
  | v3_1_1_unsuback p | v3_1_1_pingreq p | v3_1_1_pingresp p | v3_1_1_disconnect p
  | v5_pingreq p | v5_pingresp p => fixed_size p
  | v3_1_1_connect p => framed_size (v3_1_1.remaining_length_buf_ p) (v3_1_1.remaining_length_ p)
  | v3_1_1_publish p => framed_size (v3_publish.remaining_length_buf_ p) (v3_publish.remaining_length_ p)
  | v3_1_1_subscribe p | v5_subscribe p =>
    framed_size (entries_packet.remaining_length_buf_ p) (entries_packet.remaining_length_ p)
  | v3_1_1_unsubscribe p | v5_unsubscribe p =>
    framed_size (entries_packet.remaining_length_buf_ p) (entries_packet.remaining_length_ p)
  | v3_1_1_suback p | v5_suback p | v5_unsuback p =>
    framed_size (entries_packet.remaining_length_buf_ p) (entries_packet.remaining_length_ p)
  | v5_connect p => framed_size (v5.remaining_length_buf_ p) (v5.remaining_length_ p)
  | v5_connack p => framed_size (v5_connack.remaining_length_buf_ p) (v5_connack.remaining_length_ p)
  | v5_publish p => framed_size (v5_publish.remaining_length_buf_ p) (v5_publish.remaining_length_ p)
  | v5_puback p | v5_pubrec p | v5_pubrel p | v5_pubcomp p =>
    framed_size (v5_ack.remaining_length_buf_ p) (v5_ack.remaining_length_ p)
  | v5_disconnect p | v5_auth p => framed_size (v5_reason.remaining_length_buf_ p) (v5_reason.remaining_length_ p)
  end.

(** ** packet_traits.hpp *)
Definition is_client_sendable (pv : packet_variant) : bool :=
  match pv with
  | v3_1_1_connect _ | v3_1_1_pingreq _ | v3_1_1_disconnect _ | v3_1_1_publish _ | v3_1_1_puback _
  | v3_1_1_pubrec _ | v3_1_1_pubrel _ | v3_1_1_pubcomp _ | v3_1_1_subscribe _ | v3_1_1_unsubscribe _
  | v5_connect _ | v5_pingreq _ | v5_disconnect _ | v5_publish _ | v5_puback _ | v5_pubrec _
  | v5_pubrel _ | v5_pubcomp _ | v5_subscribe _ | v5_unsubscribe _ | v5_auth _ => true
  | _ => false
  end.

Definition is_server_sendable (pv : packet_variant) : bool :=
  match pv with
  | v3_1_1_connack _ | v3_1_1_pingresp _ | v3_1_1_publish _ | v3_1_1_puback _ | v3_1_1_pubrec _
  | v3_1_1_pubrel _ | v3_1_1_pubcomp _ | v3_1_1_suback _ | v3_1_1_unsuback _ | v5_connack _
  | v5_pingresp _ | v5_disconnect _ | v5_publish _ | v5_puback _ | v5_pubrec _ | v5_pubrel _
  | v5_pubcomp _ | v5_suback _ | v5_unsuback _ | v5_auth _ => true
  | _ => false
  end.

Definition is_v5 (pv : packet_variant) : bool :=
  match pv with
  | v5_connect _ | v5_connack _ | v5_pingreq _ | v5_pingresp _ | v5_disconnect _ | v5_publish _
  | v5_puback _ | v5_pubrec _ | v5_pubrel _ | v5_pubcomp _ | v5_subscribe _ | v5_suback _
  | v5_unsubscribe _ | v5_unsuback _ | v5_auth _ => true
  | _ => false
  end.

Definition is_v3_1_1 (pv : packet_variant) : bool :=
  match pv with
  | v3_1_1_connect _ | v3_1_1_connack _ | v3_1_1_pingreq _ | v3_1_1_pingresp _ | v3_1_1_disconnect _
  | v3_1_1_publish _ | v3_1_1_puback _ | v3_1_1_pubrec _ | v3_1_1_pubrel _ | v3_1_1_pubcomp _
  | v3_1_1_subscribe _ | v3_1_1_suback _ | v3_1_1_unsubscribe _ | v3_1_1_unsuback _ => true
  | _ => false
  end.

Definition is_auth (pv : packet_variant) : bool := match pv with v5_auth _ => true | _ => false end.
Definition is_connect (pv : packet_variant) : bool :=
  match pv with v3_1_1_connect _ | v5_connect _ => true | _ => false end.
Definition is_connack (pv : packet_variant) : bool :=
  match pv with v3_1_1_connack _ | v5_connack _ => true | _ => false end.
Definition is_publish (pv : packet_variant) : bool :=
  match pv with v3_1_1_publish _ | v5_publish _ => true | _ => false end.
Definition is_pubrel (pv : packet_variant) : bool :=
  match pv with v3_1_1_pubrel _ | v5_pubrel _ => true | _ => false end.
Definition is_subscribe (pv : packet_variant) : bool :=
  match pv with v3_1_1_subscribe _ | v5_subscribe _ => true | _ => false end.
Definition is_unsubscribe (pv : packet_variant) : bool :=
  match pv with v3_1_1_unsubscribe _ | v5_unsubscribe _ => true | _ => false end.

Definition own_packet_id (pv : packet_variant) : bool :=
  is_publish pv || is_pubrel pv || is_subscribe pv || is_unsubscribe pv.

(** ** Accessors the connection uses *)
Section accessors.
Context {BE : BoostEndian}.
(** [PacketIdBytes] *)
Variable pidb : nat.

(** [endian_load(packet_id_.data())], [endian_load(&all_[2])] *)
Definition load_packet_id (packet_id_ : list byte) : Z := endian_load pidb packet_id_.
Definition fixed_packet_id (p : fixed_packet) : Z := endian_load pidb (skipn 2 (all_ p)).

(** [packet_id()] of the classes that have it, 0 for the others *)
Definition packet_id (pv : packet_variant) : Z :=
  match pv with
  | v3_1_1_publish p => load_packet_id (v3_publish.packet_id_ p)
  | v5_publish p => load_packet_id (v5_publish.packet_id_ p)
  | v3_1_1_puback p | v3_1_1_pubrec p | v3_1_1_pubrel p | v3_1_1_pubcomp p | v3_1_1_unsuback p => fixed_packet_id p
  | v5_puback p | v5_pubrec p | v5_pubrel p | v5_pubcomp p => load_packet_id (v5_ack.packet_id_ p)
  | v3_1_1_subscribe p | v5_subscribe p => load_packet_id (entries_packet.packet_id_ p)
  | v3_1_1_unsubscribe p | v5_unsubscribe p => load_packet_id (entries_packet.packet_id_ p)
  | v3_1_1_suback p | v5_suback p | v5_unsuback p => load_packet_id (entries_packet.packet_id_ p)
  | _ => 0
  end.

Definition v3_clean_session (p : v3_1_1.connect_packet) : bool := negb (Z.land (v3_1_1.connect_flags_ p) 2 =? 0).
Definition v3_keep_alive (p : v3_1_1.connect_packet) : Z := endian_load 2 (v3_1_1.keep_alive_buf_ p).
Definition v5_clean_start (p : v5.connect_packet) : bool := negb (Z.land (v5.connect_flags_ p) 2 =? 0).
Definition v5_keep_alive (p : v5.connect_packet) : Z := endian_load 2 (v5.keep_alive_buf_ p).

Definition is_session_present (v : Z) : bool := negb (Z.land v 1 =? 0).
Definition v3_connack_session_present (p : fixed_packet) : bool :=
  is_session_present (u8 (nth 2 (all_ p) x00)).
Definition v3_connack_code (p : fixed_packet) : Z := u8 (nth 3 (all_ p) x00).
Definition v5_connack_session_present (p : v5_connack.connack_packet) : bool :=
  is_session_present (v5_connack.connect_acknowledge_flags_ p).
(** [code()]: [success] is 0 in every enumeration *)
Definition v5_ack_code (p : v5_ack.ack_packet) : Z := default 0 (v5_ack.reason_code_ p).
End accessors.

(** ** Facts *)

Lemma get_qos_range v : 0 <= pub.get_qos v < 4.
Proof.
  unfold pub.get_qos. change 6 with (Z.shiftl (Z.ones 2) 1). rewrite Z.shiftr_land.
  change (Z.shiftr (Z.shiftl (Z.ones 2) 1) 1) with (Z.ones 2). rewrite Z.land_ones by lia. apply Z.mod_pos_bound. lia.
Qed.

(** Every packet belongs to exactly one protocol version. *)
Lemma version_exclusive pv : is_v5 pv = negb (is_v3_1_1 pv).
Proof. by destruct pv. Qed.
