(* ===== verification/PublishPacket.v ===== *)
(** * PUBLISH packets: packet/impl/v5_publish.ipp, v3_1_1_publish.ipp

    Construction, serialization, parsing and, for v5, the operations that
    replace the topic by a topic alias and back.  [std::size_t] arithmetic
    wraps at 64 bits.  The [boost::numeric_cast<std::uint32_t>] of a length
    throws from 2^32 on: constructors have the check, the alias operations,
    whose packets are below that, do not. *)
From S2P Require Import Prelude Boost Utf8 Wire Error Property Field Packet.

Definition size_t (z : Z) : Z := z mod 2 ^ 64.

Definition payload_size (payloads : list (list byte)) : Z :=
  fold_left (fun total p => total + Z.of_nat (length p)) payloads 0.

(** [val_to_variable_bytes(boost::numeric_cast<std::uint32_t>(v))] *)
Definition variable_length_buf (v : Z) : result (list byte) :=
  if 2 ^ 32 <=? v then Err bad_numeric_cast else Ok (val_to_variable_bytes v).

Module V5.
Import v5_publish.

Section v5.
Context {BE : BoostEndian}.
Variable pidb : nat.

Definition make_publish (packet_id : Z) (topic_name : list byte) (payloads : list (list byte))
    (pubopts : Z) (props : properties) : result publish_packet :=
  let fixed_header := Z.lor (make_fixed_header control_packet_type.publish 0) pubopts in
  let property_length := props.size props in
  let q := pub.get_qos pubopts in
  let remaining_length :=
    2 + Z.of_nat (length topic_name) + (if is_qos12 q then Z.of_nat pidb else 0) in
  (check? Z.of_nat (length topic_name) <=? 0xffff else malformed in
   let topic_name_length_buf := endian_store 2 (Z.of_nat (length topic_name)) in
   let remaining_length := remaining_length + payload_size payloads in
   check? utf8string_check topic_name else malformed in
   let? property_length_buf := variable_length_buf property_length in
   check? forallb (fun p => validate_property property_location.publish (pv.id p)) props else malformed in
   let remaining_length := remaining_length + (Z.of_nat (length property_length_buf) + property_length) in
   let? remaining_length_buf := variable_length_buf remaining_length in
   check? (if is_qos12 q then negb (packet_id =? 0) else packet_id =? 0) else protocol_error in
   Ok (mk_publish fixed_header topic_name topic_name_length_buf
         (endian_store pidb (if is_qos12 q then packet_id else 0))
         property_length property_length_buf props payloads remaining_length remaining_length_buf))%result.

Definition opts (p : publish_packet) : Z := fixed_header_ p.
Definition packet_id (p : publish_packet) : Z := load_packet_id pidb (packet_id_ p).

Definition const_buffer_sequence (p : publish_packet) : list (list byte) :=
  [[to_byte (fixed_header_ p)]; remaining_length_buf_ p; topic_name_length_buf_ p; topic_name_ p] ++
  (if negb (packet_id p =? 0) then [packet_id_ p] else []) ++
  [property_length_buf_ p] ++ props.const_buffer_sequence (props_ p) ++ payloads_ p.

Definition size (p : publish_packet) : Z := framed_size (remaining_length_buf_ p) (remaining_length_ p).

Definition num_of_const_buffer_sequence (p : publish_packet) : nat :=
  1 + 1 + 2 + (if packet_id p =? 0 then 0 else 1) + 1 +
  props.num_of_const_buffer_sequence (props_ p) + length (payloads_ p).

(** *** Topic alias operations *)

Definition update_remaining_length (n : Z) (p : publish_packet) : publish_packet :=
  mk_publish (fixed_header_ p) (topic_name_ p) (topic_name_length_buf_ p) (packet_id_ p)
    (property_length_ p) (property_length_buf_ p) (props_ p) (payloads_ p) n (val_to_variable_bytes n).

(** [property_length_] and its buffer for the new properties, and the
    difference of the buffer sizes *)
Definition update_property_length (n : Z) (ps : properties) (p : publish_packet) : publish_packet * Z :=
  let buf := val_to_variable_bytes n in
  (mk_publish (fixed_header_ p) (topic_name_ p) (topic_name_length_buf_ p) (packet_id_ p)
     n buf ps (payloads_ p) (remaining_length_ p) (remaining_length_buf_ p),
   Z.of_nat (length buf) - Z.of_nat (length (property_length_buf_ p))).

Definition set_topic (t : list byte) (p : publish_packet) : publish_packet :=
  mk_publish (fixed_header_ p) t (endian_store 2 (Z.of_nat (length t))) (packet_id_ p)
    (property_length_ p) (property_length_buf_ p) (props_ p) (payloads_ p)
    (remaining_length_ p) (remaining_length_buf_ p).

Definition remove_topic_add_topic_alias (val : Z) (p : publish_packet) : publish_packet :=
  let prop := make_topic_alias val in
  let prop_size := pv.size prop in
  let (p, diff) := update_property_length (size_t (property_length_ p + prop_size)) (props_ p ++ [prop]) p in
  let old_topic_name_size := Z.of_nat (length (topic_name_ p)) in
  let p := set_topic [] p in
  update_remaining_length (size_t (remaining_length_ p + (prop_size + diff - old_topic_name_size))) p.

Definition add_topic_alias (val : Z) (p : publish_packet) : publish_packet :=
  let prop := make_topic_alias val in
  let prop_size := pv.size prop in
  let (p, diff) := update_property_length (size_t (property_length_ p + prop_size)) (props_ p ++ [prop]) p in
  update_remaining_length (size_t (remaining_length_ p + (prop_size + diff))) p.

Definition add_topic (topic : list byte) (p : publish_packet) : publish_packet :=
  let p := set_topic topic p in
  update_remaining_length (size_t (remaining_length_ p + Z.of_nat (length (topic_name_ p)))) p.

Definition is_topic_alias (p : property_variant) : bool :=
  match pv.id p with property_id.topic_alias => true | _ => false end.

(** the properties left, and the size of those removed *)
Fixpoint remove_topic_alias_impl (ps : properties) : properties * Z :=
  match ps with
  | [] => ([], 0)
  | it :: ps =>
    let (left, n) := remove_topic_alias_impl ps in
    if is_topic_alias it then (left, pv.size it + n) else (it :: left, n)
  end.

Definition remove_topic_alias (p : publish_packet) : publish_packet :=
  let (ps, prop_size) := remove_topic_alias_impl (props_ p) in
  let (p, diff) := update_property_length (size_t (property_length_ p - prop_size)) ps p in
  update_remaining_length (size_t (remaining_length_ p + (- prop_size + diff))) p.

Definition remove_topic_alias_add_topic (topic : list byte) (p : publish_packet) : publish_packet :=
  let (ps, prop_size) := remove_topic_alias_impl (props_ p) in
  let p := set_topic topic p in
  let (p, diff) := update_property_length (size_t (property_length_ p - prop_size)) ps p in
  update_remaining_length
    (size_t (remaining_length_ p + (Z.of_nat (length (topic_name_ p)) - prop_size + diff))) p.

Definition set_dup (dup : bool) (p : publish_packet) : publish_packet :=
  mk_publish (pub.set_dup (fixed_header_ p) dup) (topic_name_ p) (topic_name_length_buf_ p) (packet_id_ p)
    (property_length_ p) (property_length_buf_ p) (props_ p) (payloads_ p)
    (remaining_length_ p) (remaining_length_buf_ p).

(** *** Parsing *)

(** the packet identifier is on the wire when the QoS is 1 or 2 *)
Definition parse_packet_id (q : Z) (buf : list byte) : result (list byte * list byte) :=
  if q =? qos.at_most_once then Ok (endian_store pidb 0, buf)
  else if is_qos12 q then or_error (copy_advance pidb buf) malformed
  else Err malformed.

Definition parse_properties (loc : property_location.location) (buf : list byte)
    : result (Z * list byte * properties * list byte) := parse_property_field malformed loc buf.

Definition parse_publish (buf : list byte) : result publish_packet :=
  match buf with
  | [] => Err malformed
  | front :: buf =>
    let fixed_header := u8 front in
    (let? (remaining_length, remaining_length_buf, buf) := or_error (insert_advance_variable_length buf) malformed in
     let? (topic_name_length_buf, buf) := or_error (insert_advance 2 buf) malformed in
     let topic_name_length := endian_load 2 topic_name_length_buf in
     check? topic_name_length <=? Z.of_nat (length buf) else malformed in
     let topic_name := firstn (Z.to_nat topic_name_length) buf in
     check? utf8string_check topic_name else malformed in
     let buf := skipn (Z.to_nat topic_name_length) buf in
     let? (packet_id, buf) := parse_packet_id (pub.get_qos fixed_header) buf in
     let? (property_length, property_length_buf, ps, buf) := parse_properties property_location.publish buf in
     Ok (mk_publish fixed_header topic_name topic_name_length_buf packet_id property_length
           property_length_buf ps (match buf with [] => [] | _ => [buf] end)
           remaining_length remaining_length_buf))%result
  end.
End v5.
End V5.

Module V3.
Import v3_publish.

Section v3.
Context {BE : BoostEndian}.
Variable pidb : nat.

(** [endian_store(0, packet_id_.data())]: 0 is an [int], so four bytes are
    written, and this is what is left in the buffer of [PacketIdBytes]; the
    others are written after its end, which is undefined behaviour that the
    model does not have ([zero_id_overruns]). *)
Definition zero_packet_id : list byte := firstn pidb (endian_store 4 0).

Definition make_publish (packet_id : Z) (topic_name : list byte) (payloads : list (list byte))
    (pubopts : Z) : result publish_packet :=
  let q := pub.get_qos pubopts in
  let remaining_length :=
    2 + Z.of_nat (length topic_name) + (if is_qos12 q then Z.of_nat pidb else 0) in
  (check? Z.of_nat (length topic_name) <=? 0xffff else malformed in
   let topic_name_length_buf := endian_store 2 (Z.of_nat (length topic_name)) in
   let remaining_length := remaining_length + payload_size payloads in
   check? utf8string_check topic_name else malformed in
   let? remaining_length_buf := variable_length_buf remaining_length in
   let? packet_id_buf :=
     if q =? qos.at_most_once then
       if negb (packet_id =? 0) then Err malformed else Ok zero_packet_id
     else if is_qos12 q then
       if packet_id =? 0 then Err malformed else Ok (endian_store pidb packet_id)
     else Err malformed in
   Ok (mk_publish (Z.lor (make_fixed_header control_packet_type.publish 0) pubopts) topic_name
         topic_name_length_buf packet_id_buf payloads remaining_length remaining_length_buf))%result.

Definition opts (p : publish_packet) : Z := fixed_header_ p.
Definition packet_id (p : publish_packet) : Z := load_packet_id pidb (packet_id_ p).

Definition const_buffer_sequence (p : publish_packet) : list (list byte) :=
  [[to_byte (fixed_header_ p)]; remaining_length_buf_ p; topic_name_length_buf_ p; topic_name_ p] ++
  (if negb (packet_id p =? 0) then [packet_id_ p] else []) ++ payloads_ p.

Definition size (p : publish_packet) : Z := framed_size (remaining_length_buf_ p) (remaining_length_ p).

Definition num_of_const_buffer_sequence (p : publish_packet) : nat :=
  1 + 1 + 2 + (if packet_id p =? 0 then 0 else 1) + length (payloads_ p).

Definition set_dup (dup : bool) (p : publish_packet) : publish_packet :=
  mk_publish (pub.set_dup (fixed_header_ p) dup) (topic_name_ p) (topic_name_length_buf_ p) (packet_id_ p)
    (payloads_ p) (remaining_length_ p) (remaining_length_buf_ p).

Definition parse_publish (buf : list byte) : result publish_packet :=
  match buf with
  | [] => Err malformed
  | front :: buf =>
    let fixed_header := u8 front in
    let qos_value := pub.get_qos fixed_header in
    (check? match get_control_packet_type_with_check fixed_header with
            | Some cpt => cpt =? control_packet_type.publish
            | None => false
            end else malformed in
     let? (remaining_length, remaining_length_buf, buf) := or_error (insert_advance_variable_length buf) malformed in
     check? remaining_length =? Z.of_nat (length buf) else malformed in
     let? (topic_name_length_buf, buf) := or_error (insert_advance 2 buf) malformed in
     let topic_name_length := endian_load 2 topic_name_length_buf in
     check? topic_name_length <=? Z.of_nat (length buf) else malformed in
     let topic_name := firstn (Z.to_nat topic_name_length) buf in
     check? utf8string_check topic_name else malformed in
     let buf := skipn (Z.to_nat topic_name_length) buf in
     let? (packet_id, buf) := V5.parse_packet_id pidb qos_value buf in
     Ok (mk_publish fixed_header topic_name topic_name_length_buf packet_id
           (match buf with [] => [] | _ => [buf] end) remaining_length remaining_length_buf))%result
  end.
End v3.
End V3.

(** ** Facts *)

Lemma payload_size_concat l : payload_size l = Z.of_nat (length (concat l)).
Proof.
  unfold payload_size. enough (forall acc, fold_left (fun total p => total + Z.of_nat (length p)) l acc =
    acc + Z.of_nat (length (concat l))) as -> by done.
  induction l as [|p l IH]; intros acc; simpl; [lia|]. rewrite IH, length_app. lia.
Qed.

Lemma payload_size_nonneg l : 0 <= payload_size l.
Proof. rewrite payload_size_concat. lia. Qed.

Lemma size_t_small z : 0 <= z < 2 ^ 64 -> size_t z = z.
Proof. apply Z.mod_small. Qed.

Lemma parse_properties_bytes `{BEO : BoostEndianOk} loc plb ps n rest :
  props_ok loc ps -> n = props.size ps -> n <= max_variable_bytes -> plb = val_to_variable_bytes n ->
  V5.parse_properties loc (plb ++ props.bytes ps ++ rest) = Ok (n, plb, ps, rest).
Proof. apply parse_property_field_bytes. Qed.

Section publish_facts.
Context {BE : BoostEndian} {BEO : BoostEndianOk}.
Variable pidb : nat.
Hypothesis Hpidb : (0 < pidb <= 4)%nat.

(** the topic with its length field *)
Definition topic_ok (t lbuf : list byte) : Prop :=
  Z.of_nat (length t) <= 0xffff /\ utf8string_check t = true /\ lbuf = be_bytes 2 (Z.of_nat (length t)).

(** the identifier is nonzero exactly when the QoS is 1 or 2 *)
Definition packet_id_ok (fixed_header : Z) (packet_id_ : list byte) : Prop :=
  length packet_id_ = pidb /\
  is_qos12 (pub.get_qos fixed_header) = negb (load_packet_id pidb packet_id_ =? 0).

Definition header_ok (fixed_header : Z) : Prop :=
  0 <= fixed_header < 256 /\ pub.get_qos fixed_header <= 2 /\
  get_control_packet_type fixed_header = control_packet_type.publish.

Lemma load_packet_id_val b : length b = pidb -> load_packet_id pidb b = be_val b.
Proof. intros Hl. unfold load_packet_id. rewrite endian_load_val by lia. by rewrite firstn_all2 by lia. Qed.

Lemma pow_pidb : 2 ^ 8 <= 256 ^ Z.of_nat pidb.
Proof. change (2 ^ 8) with (256 ^ 1). apply Z.pow_le_mono_r; lia. Qed.

Lemma store_load_packet_id v : 0 <= v < 256 ^ Z.of_nat pidb -> load_packet_id pidb (endian_store pidb v) = v.
Proof. intros Hv. unfold load_packet_id. rewrite <- (app_nil_r (endian_store _ _)). by apply load_of_store. Qed.

Lemma parse_packet_id_bytes fh b rest :
  header_ok fh -> packet_id_ok fh b ->
  V5.parse_packet_id pidb (pub.get_qos fh)
    (concat (if negb (load_packet_id pidb b =? 0) then [b] else []) ++ rest) = Ok (b, rest).
Proof.
  intros (_ & Hq & _) [Hl Hb]. unfold V5.parse_packet_id. rewrite <- Hb.
  pose proof (get_qos_range fh). unfold qos.at_most_once.
  destruct (Z.eqb_spec (pub.get_qos fh) 0) as [H0|H0].
  - rewrite H0 in *. change (is_qos12 0) with false in *. simpl. do 2 f_equal.
    symmetry in Hb. apply negb_false_iff, Z.eqb_eq in Hb. rewrite load_packet_id_val in Hb by done.
    rewrite endian_store_bytes by (pose proof pow_pidb; lia). by rewrite <- Hb, <- Hl, be_bytes_val.
  - assert (Hi : is_qos12 (pub.get_qos fh) = true) by (unfold is_qos12, qos.at_least_once, qos.exactly_once; lia).
    rewrite Hi. simpl. rewrite app_nil_r, copy_advance_app by done. done.
Qed.

Lemma parse_topic t lbuf rest :
  topic_ok t lbuf ->
  insert_advance 2 (lbuf ++ t ++ rest) = Some (lbuf, t ++ rest) /\ endian_load 2 lbuf = Z.of_nat (length t).
Proof.
  intros (Hl & _ & ->). split; [apply insert_advance_app, length_be_bytes|].
  assert (0 <= Z.of_nat (length t) < 256 ^ Z.of_nat 2) by (change (256 ^ Z.of_nat 2) with 65536; lia).
  rewrite <- endian_store_bytes, <- (app_nil_r (endian_store _ _)) by done. by apply load_of_store.
Qed.

(** the payload as parsing gives it: one buffer, or none *)
Definition one_payload (l : list (list byte)) : list (list byte) :=
  match concat l with [] => [] | b => [b] end.

Section v5.
Import v5_publish.
Implicit Types p : publish_packet.

Definition body_length p : Z :=
  2 + Z.of_nat (length (topic_name_ p)) + (if is_qos12 (pub.get_qos (fixed_header_ p)) then Z.of_nat pidb else 0) +
  Z.of_nat (length (property_length_buf_ p)) + property_length_ p + payload_size (payloads_ p).

(** Class invariant: every stored length is the length of what it counts. *)
Definition v5_publish_ok p : Prop :=
  header_ok (fixed_header_ p) /\ topic_ok (topic_name_ p) (topic_name_length_buf_ p) /\
  packet_id_ok (fixed_header_ p) (packet_id_ p) /\
  props_ok property_location.publish (props_ p) /\ property_length_ p = props.size (props_ p) /\
  property_length_buf_ p = val_to_variable_bytes (property_length_ p) /\
  remaining_length_ p = body_length p /\ remaining_length_ p <= max_variable_bytes /\
  remaining_length_buf_ p = val_to_variable_bytes (remaining_length_ p).

Lemma v5_publish_bounds p :
  v5_publish_ok p -> 0 <= property_length_ p <= max_variable_bytes /\ 0 <= remaining_length_ p.
Proof.
  intros (_ & _ & _ & _ & Hpl & _ & Hr & Hmax & _). unfold body_length in Hr.
  pose proof (props_size_nonneg (props_ p)). pose proof (payload_size_nonneg (payloads_ p)).
  destruct (is_qos12 _); lia.
Qed.

(** the wire format behind the remaining length *)
Definition v5_body p : list byte :=
  topic_name_length_buf_ p ++ topic_name_ p ++
  concat (if negb (V5.packet_id pidb p =? 0) then [packet_id_ p] else []) ++
  property_length_buf_ p ++ props.bytes (props_ p) ++ concat (payloads_ p).

Lemma v5_bytes p :
  concat (V5.const_buffer_sequence pidb p) =
  to_byte (fixed_header_ p) :: remaining_length_buf_ p ++ v5_body p.
Proof.
  unfold V5.const_buffer_sequence, v5_body, props.bytes. simpl.
  by rewrite !concat_app; simpl; rewrite ?concat_app, ?app_nil_r, <- ?app_assoc.
Qed.

Lemma length_v5_body p : v5_publish_ok p -> Z.of_nat (length (v5_body p)) = remaining_length_ p.
Proof.
  intros (_ & (_ & _ & Ht) & [Hl Hq] & _ & Hpl & _ & -> & _). unfold v5_body, body_length.
  rewrite !length_app, Ht, length_be_bytes, Hq, payload_size_concat, Hpl, props_size_bytes.
  unfold V5.packet_id. destruct (load_packet_id _ _ =? 0); simpl; rewrite ?app_nil_r; lia.
Qed.

Lemma v5_publish_size p :
  v5_publish_ok p -> V5.size p = Z.of_nat (length (concat (V5.const_buffer_sequence pidb p))).
Proof.
  intros Hp. rewrite v5_bytes. cbn [length]. rewrite length_app. unfold V5.size, framed_size.
  pose proof (length_v5_body p Hp). lia.
Qed.

Lemma parse_publish_bytes p :
  v5_publish_ok p ->
  V5.parse_publish pidb (concat (V5.const_buffer_sequence pidb p)) =
  Ok (mk_publish (fixed_header_ p) (topic_name_ p) (topic_name_length_buf_ p) (packet_id_ p)
        (property_length_ p) (property_length_buf_ p) (props_ p) (one_payload (payloads_ p))
        (remaining_length_ p) (remaining_length_buf_ p)).
Proof.
  intros Hp. pose proof (v5_publish_bounds p Hp) as [Hplb Hrl].
  pose proof Hp as (Hh & Ht & Hid & Hps & Hpl & Hplbuf & Hr & Hmax & Hrb).
  rewrite v5_bytes. unfold V5.parse_publish, v5_body.
  rewrite u8_to_byte_small by apply Hh. rewrite Hrb, insert_advance_variable_length_encode by lia. simpl.
  destruct (parse_topic _ _ (concat (if negb (V5.packet_id pidb p =? 0) then [packet_id_ p] else []) ++
    property_length_buf_ p ++ props.bytes (props_ p) ++ concat (payloads_ p)) Ht) as [-> Hlen]. simpl.
  rewrite Hlen, (proj2 (Z.leb_le _ _)) by (rewrite length_app; lia). simpl.
  match goal with |- context [firstn _ (topic_name_ p ++ ?r)] =>
    destruct (firstn_skipn_exact (topic_name_ p) r) as [-> ->] end.
  rewrite (proj1 (proj2 Ht)). simpl. unfold V5.packet_id. rewrite parse_packet_id_bytes by done. simpl.
  rewrite (parse_properties_bytes _ _ _ (property_length_ p)) by (done || lia). simpl. unfold one_payload. by destruct (concat (payloads_ p)).
Qed.

(** *** Changing the topic and the properties *)

(** What the alias operations promise: the same packet with the given
    topic and properties, all lengths recomputed. *)
Definition with_content (t : list byte) (ps : properties) p : publish_packet :=
  let plb := val_to_variable_bytes (props.size ps) in
  let n := 2 + Z.of_nat (length t) + (if is_qos12 (pub.get_qos (fixed_header_ p)) then Z.of_nat pidb else 0) +
           Z.of_nat (length plb) + props.size ps + payload_size (payloads_ p) in
  mk_publish (fixed_header_ p) t (be_bytes 2 (Z.of_nat (length t))) (packet_id_ p) (props.size ps) plb ps
    (payloads_ p) n (val_to_variable_bytes n).

Lemma with_content_ok t ps p :
  v5_publish_ok p -> Z.of_nat (length t) <= 0xffff -> utf8string_check t = true ->
  props_ok property_location.publish ps -> remaining_length_ (with_content t ps p) <= max_variable_bytes ->
  v5_publish_ok (with_content t ps p).
Proof.
  intros (Hh & _ & Hid & _) Ht Hu Hps Hmax. split; [done|]. split; [split; [done|split; done]|].
  split; [done|]. split; [done|]. split; [done|]. split; [done|]. split; [done|]. split; done.
Qed.

Lemma topic_alias_prop v :
  0 <= v < 2 ^ 16 -> pv.size (make_topic_alias v) = 3 /\ property_ok (make_topic_alias v) /\
  validate_property property_location.publish (pv.id (make_topic_alias v)) = true.
Proof.
  intros Hv. pose proof (length_endian_static_vector 2 v Hv) as Hl.
  unfold pv.size. simpl. rewrite Hl. done.
Qed.

Lemma props_ok_snoc_alias ps v :
  0 <= v < 2 ^ 16 -> props_ok property_location.publish ps ->
  props_ok property_location.publish (ps ++ [make_topic_alias v]).
Proof. intros Hv Hps. apply Forall_app. split; [done|]. constructor; [|done]. by apply topic_alias_prop. Qed.

Lemma remove_topic_alias_impl_filter ps :
  V5.remove_topic_alias_impl ps =
  (List.filter (fun x => negb (V5.is_topic_alias x)) ps,
   props.size ps - props.size (List.filter (fun x => negb (V5.is_topic_alias x)) ps)).
Proof.
  induction ps as [|p ps IH]; [done|]. simpl. rewrite IH, !props_size_cons.
  destruct (V5.is_topic_alias p); simpl; rewrite ?props_size_cons; f_equal; lia.
Qed.

Lemma filter_props_size f ps : props.size (List.filter f ps) <= props.size ps.
Proof.
  induction ps as [|p ps IH]; [done|]. simpl. rewrite props_size_cons, size_bytes.
  destruct (f p); [rewrite props_size_cons, size_bytes|]; lia.
Qed.

Lemma props_ok_filter f ps :
  props_ok property_location.publish ps -> props_ok property_location.publish (List.filter f ps).
Proof.
  unfold props_ok. rewrite !Forall_forall. intros H p Hp. apply H.
  apply list_elem_of_In in Hp. apply filter_In in Hp as [Hp _]. by apply list_elem_of_In.
Qed.

(** The arithmetic of all the operations: no wrap-around takes place. *)
Lemma rebuild_lengths p t ps n r :
  v5_publish_ok p -> Z.of_nat (length t) <= 0xffff -> props.size ps <= property_length_ p + 3 ->
  n = props.size ps -> r = remaining_length_ (with_content t ps p) ->
  mk_publish (fixed_header_ p) t (endian_store 2 (Z.of_nat (length t))) (packet_id_ p) (size_t n)
    (val_to_variable_bytes (size_t n)) ps (payloads_ p) (size_t r) (val_to_variable_bytes (size_t r)) =
  with_content t ps p.
Proof.
  intros Hp Ht Hps -> ->. pose proof (v5_publish_bounds p Hp) as [Hplb Hrl].
  destruct Hp as (_ & _ & _ & _ & _ & _ & Hr & Hmax & _). unfold body_length in Hr.
  pose proof (props_size_nonneg ps). pose proof (payload_size_nonneg (payloads_ p)).
  pose proof (val_to_variable_bytes_le4 (props.size ps)). unfold max_variable_bytes in *.
  rewrite endian_store_bytes by (change (256 ^ Z.of_nat 2) with 65536; lia).
  rewrite (size_t_small (props.size ps)) by lia. unfold with_content. simpl.
  assert (0 <= (if is_qos12 (pub.get_qos (fixed_header_ p)) then Z.of_nat pidb else 0) <= 4) by (destruct (is_qos12 _); lia).
  rewrite size_t_small by lia. done.
Qed.

(** Turns [with_content t ps p] into what an operation computes, with [n]
    for the property length. *)
Ltac recompute p t ps n :=
  match goal with
  | |- context [val_to_variable_bytes (size_t (remaining_length_ p + ?e))] =>
    rewrite <- (rebuild_lengths p t ps n (remaining_length_ p + e));
    [ | done | done | rewrite ?props_size_snoc; lia | rewrite ?props_size_snoc; lia
      | rewrite ?(size_t_small n) by (pose proof (v5_publish_bounds p ltac:(done)); unfold max_variable_bytes in *; lia);
        cbn [with_content remaining_length_] in *; rewrite ?props_size_snoc;
        repeat match goal with H : property_length_ p = props.size (props_ p) |- _ => rewrite <- ?H; clear H end;
        repeat match goal with H : property_length_buf_ p = _ |- _ => rewrite <- ?H; clear H end;
        cbn [length] in *; lia ]
  end.

Lemma remove_topic_add_topic_alias_eq v p :
  v5_publish_ok p -> 0 <= v < 2 ^ 16 ->
  V5.remove_topic_add_topic_alias v p = with_content [] (props_ p ++ [make_topic_alias v]) p.
Proof.
  intros Hp Hv. destruct (topic_alias_prop v Hv) as [Hsz _].
  pose proof Hp as (_ & _ & _ & _ & Hpl & Hplb & Hr & _). unfold body_length in Hr.
  unfold V5.remove_topic_add_topic_alias, V5.update_property_length, V5.update_remaining_length, V5.set_topic. simpl.
  apply rebuild_lengths; [done | simpl; lia | rewrite props_size_snoc; lia | rewrite props_size_snoc; lia|].
  rewrite size_t_small by (pose proof (v5_publish_bounds p Hp); unfold max_variable_bytes in *; lia).
  simpl. rewrite props_size_snoc, Hsz, <- Hpl. lia.
Qed.

Lemma add_topic_alias_eq v p :
  v5_publish_ok p -> 0 <= v < 2 ^ 16 ->
  V5.add_topic_alias v p = with_content (topic_name_ p) (props_ p ++ [make_topic_alias v]) p.
Proof.
  intros Hp Hv. destruct (topic_alias_prop v Hv) as [Hsz _].
  pose proof Hp as (_ & (Ht & _ & Htl) & _ & _ & Hpl & Hplb & Hr & _). unfold body_length in Hr.
  unfold V5.add_topic_alias, V5.update_property_length, V5.update_remaining_length. simpl.
  recompute p (topic_name_ p) (props_ p ++ [make_topic_alias v]) (property_length_ p + pv.size (make_topic_alias v)).
  rewrite Htl, endian_store_bytes by (change (256 ^ Z.of_nat 2) with 65536; lia). done.
Qed.

Lemma add_topic_eq t p :
  v5_publish_ok p -> topic_name_ p = [] -> Z.of_nat (length t) <= 0xffff ->
  V5.add_topic t p = with_content t (props_ p) p.
Proof.
  intros Hp Hempty Ht. pose proof Hp as (_ & _ & _ & _ & Hpl & Hplb & Hr & _). unfold body_length in Hr.
  rewrite Hempty in Hr. unfold V5.add_topic, V5.update_remaining_length, V5.set_topic. simpl.
  pose proof (v5_publish_bounds p Hp) as [Hb _]. unfold max_variable_bytes in Hb.
  recompute p t (props_ p) (property_length_ p).
  by rewrite (size_t_small (property_length_ p)), <- Hplb by lia.
Qed.

Lemma remove_topic_alias_eq p :
  v5_publish_ok p ->
  V5.remove_topic_alias p =
  with_content (topic_name_ p) (List.filter (fun x => negb (V5.is_topic_alias x)) (props_ p)) p.
Proof.
  intros Hp. pose proof Hp as (_ & (Ht & _ & Htl) & _ & _ & Hpl & Hplb & Hr & _). unfold body_length in Hr.
  unfold V5.remove_topic_alias. rewrite remove_topic_alias_impl_filter.
  set (ps := List.filter _ (props_ p)).
  assert (Hle : 0 <= props.size ps <= props.size (props_ p)) by (split; [apply props_size_nonneg | apply filter_props_size]).
  unfold V5.update_property_length, V5.update_remaining_length. simpl.
  replace (property_length_ p - (props.size (props_ p) - props.size ps)) with (props.size ps) by lia.
  recompute p (topic_name_ p) ps (props.size ps).
  rewrite Htl, endian_store_bytes by (change (256 ^ Z.of_nat 2) with 65536; lia). done.
Qed.

Lemma remove_topic_alias_add_topic_eq t p :
  v5_publish_ok p -> topic_name_ p = [] -> Z.of_nat (length t) <= 0xffff ->
  V5.remove_topic_alias_add_topic t p =
  with_content t (List.filter (fun x => negb (V5.is_topic_alias x)) (props_ p)) p.
Proof.
  intros Hp Hempty Ht. pose proof Hp as (_ & _ & _ & _ & Hpl & Hplb & Hr & _). unfold body_length in Hr.
  rewrite Hempty in Hr. unfold V5.remove_topic_alias_add_topic. rewrite remove_topic_alias_impl_filter.
  set (ps := List.filter _ (props_ p)).
  assert (Hle : 0 <= props.size ps <= props.size (props_ p)) by (split; [apply props_size_nonneg | apply filter_props_size]).
  unfold V5.update_property_length, V5.update_remaining_length, V5.set_topic. simpl.
  replace (property_length_ p - (props.size (props_ p) - props.size ps)) with (props.size ps) by lia.
  apply rebuild_lengths; [done | done | lia | done|].
  rewrite size_t_small by (pose proof (v5_publish_bounds p Hp); unfold max_variable_bytes in *; lia).
  simpl in *. lia.
Qed.

Lemma num_of_buffers p :
  V5.num_of_const_buffer_sequence pidb p = length (V5.const_buffer_sequence pidb p).
Proof.
  unfold V5.num_of_const_buffer_sequence, V5.const_buffer_sequence. rewrite !length_app, props_num_bufs.
  destruct (_ =? 0); simpl; lia.
Qed.

(** A well formed v5 PUBLISH is read back from its serialization, its
    payload buffers merged into one, and [size] and
    [num_of_const_buffer_sequence] are exact. *)
Lemma v5_publish_roundtrip p :
  v5_publish_ok p ->
  V5.parse_publish pidb (concat (V5.const_buffer_sequence pidb p)) =
    Ok (mk_publish (fixed_header_ p) (topic_name_ p) (topic_name_length_buf_ p) (packet_id_ p)
          (property_length_ p) (property_length_buf_ p) (props_ p) (one_payload (payloads_ p))
          (remaining_length_ p) (remaining_length_buf_ p)) /\
  V5.size p = Z.of_nat (length (concat (V5.const_buffer_sequence pidb p))) /\
  V5.num_of_const_buffer_sequence pidb p = length (V5.const_buffer_sequence pidb p).
Proof.
  intros Hp. split; [by apply parse_publish_bytes|]. split; [by apply v5_publish_size | apply num_of_buffers].
Qed.

(** each topic alias operation is the replacement of topic and
    properties it stands for, with every length recomputed: swapping the
    topic for an alias, adding an alias, restoring the topic, removing the
    aliases. *)
Theorem v5_publish_alias_ops p v t :
  v5_publish_ok p -> 0 <= v < 2 ^ 16 -> Z.of_nat (length t) <= 0xffff ->
  let alias := make_topic_alias v in
  let no_alias := List.filter (fun x => negb (V5.is_topic_alias x)) (props_ p) in
  V5.remove_topic_add_topic_alias v p = with_content [] (props_ p ++ [alias]) p /\
  V5.add_topic_alias v p = with_content (topic_name_ p) (props_ p ++ [alias]) p /\
  V5.remove_topic_alias p = with_content (topic_name_ p) no_alias p /\
  (topic_name_ p = [] ->
   V5.add_topic t p = with_content t (props_ p) p /\
   V5.remove_topic_alias_add_topic t p = with_content t no_alias p).
Proof.
  intros Hp Hv Ht. split; [by apply remove_topic_add_topic_alias_eq|]. split; [by apply add_topic_alias_eq|].
  split; [by apply remove_topic_alias_eq|]. intros He.
  split; [by apply add_topic_eq | by apply remove_topic_alias_add_topic_eq].
Qed.

Lemma get_qos_header o : pub.get_qos (Z.lor (make_fixed_header control_packet_type.publish 0) o) = pub.get_qos o.
Proof. unfold pub.get_qos. by rewrite Z.land_lor_distr_l. Qed.

Definition v5_arguments_ok (packet_id : Z) (topic : list byte) (pubopts : Z) (ps : properties) : bool :=
  (Z.of_nat (length topic) <=? 0xffff) && utf8string_check topic &&
  forallb (fun x => validate_property property_location.publish (pv.id x)) ps &&
  (if is_qos12 (pub.get_qos pubopts) then negb (packet_id =? 0) else packet_id =? 0).

Lemma Forall_validated ps loc :
  Forall property_ok ps -> forallb (fun x => validate_property loc (pv.id x)) ps = true -> props_ok loc ps.
Proof.
  intros Hp Hv. rewrite forallb_forall in Hv. unfold props_ok. rewrite Forall_forall in Hp |- *.
  intros x Hx. split; [by apply Hp|]. apply Hv. by apply list_elem_of_In.
Qed.

(** The constructor's packet, whatever its length. *)
Lemma make_publish_Ok pid topic payloads pubopts ps p :
  V5.make_publish pidb pid topic payloads pubopts ps = Ok p ->
  v5_arguments_ok pid topic pubopts ps = true /\
  fixed_header_ p = Z.lor (make_fixed_header control_packet_type.publish 0) pubopts /\
  topic_name_ p = topic /\ topic_name_length_buf_ p = endian_store 2 (Z.of_nat (length topic)) /\
  packet_id_ p = endian_store pidb (if is_qos12 (pub.get_qos pubopts) then pid else 0) /\
  property_length_ p = props.size ps /\ property_length_buf_ p = val_to_variable_bytes (props.size ps) /\
  props_ p = ps /\ payloads_ p = payloads /\ remaining_length_ p = body_length p /\
  remaining_length_buf_ p = val_to_variable_bytes (remaining_length_ p).
Proof.
  intros H. unfold V5.make_publish in H. bind_inv. subst p.
  repeat match goal with H : variable_length_buf _ = Ok _ |- _ =>
    unfold variable_length_buf in H; destruct (_ <=? _) in H; [done|]; injection H as <- end.
  split; [|do 8 (split; [done|]); split; [|done]].
  - unfold v5_arguments_ok. repeat (apply andb_true_iff; split); done.
  - unfold body_length. simpl. rewrite get_qos_header. lia.
Qed.

Lemma make_publish_defined packet_id topic payloads opts ps :
  V5.make_publish pidb packet_id topic payloads opts ps <> Undef.
Proof.
  unfold V5.make_publish, guard, variable_length_buf. cbv zeta.
  repeat (match goal with |- context[if ?b then _ else _] => destruct b end; simpl); done.
Qed.

(** The constructor fails on a topic that is too long or not UTF-8, on
    a property that is not allowed, and when the packet identifier does
    not fit the QoS; otherwise the packet is well formed as long as its
    remaining length is one a variable byte integer can carry.  Beyond
    that it still returns a packet, without remaining length on the wire. *)
Theorem make_v5_publish pid topic payloads pubopts ps :
  0 <= pid < 256 ^ Z.of_nat pidb -> Forall property_ok ps ->
  header_ok (Z.lor (make_fixed_header control_packet_type.publish 0) pubopts) ->
  (v5_arguments_ok pid topic pubopts ps = false ->
   exists ec, V5.make_publish pidb pid topic payloads pubopts ps = Err ec) /\
  (forall p, V5.make_publish pidb pid topic payloads pubopts ps = Ok p ->
   if remaining_length_ p <=? max_variable_bytes
   then v5_publish_ok p /\ V5.packet_id pidb p = pid
   else remaining_length_buf_ p = []).
Proof.
  intros Hpid Hps Hh. split.
  - intros Ha. destruct (V5.make_publish _ _ _ _ _ _) as [p|ec|] eqn:H; [|by eauto|by apply make_publish_defined in H].
    apply make_publish_Ok in H as [Ha' _]. congruence.
  - intros p H. apply make_publish_Ok in H as (Ha & Hfh & Ht & Htl & Hid & Hpl & Hplb & Hpp & Hpay & Hr & Hrb).
    unfold v5_arguments_ok in Ha. rewrite !andb_true_iff in Ha. destruct Ha as (((Hlen & Hu) & Hval) & Hq).
    apply Z.leb_le in Hlen. destruct (Z.leb_spec (remaining_length_ p) max_variable_bytes) as [Hmax|Hmax].
    2: { rewrite Hrb. unfold val_to_variable_bytes, max_variable_bytes in *. by rewrite (proj2 (Z.ltb_lt _ _) Hmax). }
    assert (Hpid' : V5.packet_id pidb p = if is_qos12 (pub.get_qos pubopts) then pid else 0).
    { unfold V5.packet_id. rewrite Hid. apply store_load_packet_id. destruct (is_qos12 _); lia. }
    split.
    + split; [by rewrite Hfh|]. split.
      { rewrite Ht, Htl. split; [done|]. split; [done|]. apply endian_store_bytes.
        change (256 ^ Z.of_nat 2) with 65536. lia. }
      split; [|rewrite Hpp, Hpl; split; [by apply Forall_validated | done]]. split.
      * rewrite Hid, length_endian_store; [done|]. destruct (is_qos12 _); lia.
      * unfold V5.packet_id in Hpid'. rewrite Hpid', Hfh, get_qos_header. destruct (is_qos12 _); [by rewrite Hq | done].
    + rewrite Hpid'. destruct (is_qos12 _); [done|]. by apply Z.eqb_eq in Hq.
Qed.
End v5.

Section v3.
Import v3_publish.
Implicit Types p : publish_packet.

Definition v3_body_length p : Z :=
  2 + Z.of_nat (length (topic_name_ p)) + (if is_qos12 (pub.get_qos (fixed_header_ p)) then Z.of_nat pidb else 0) +
  payload_size (payloads_ p).

Definition v3_publish_ok p : Prop :=
  header_ok (fixed_header_ p) /\ topic_ok (topic_name_ p) (topic_name_length_buf_ p) /\
  packet_id_ok (fixed_header_ p) (packet_id_ p) /\ remaining_length_ p = v3_body_length p /\
  remaining_length_ p <= max_variable_bytes /\
  remaining_length_buf_ p = val_to_variable_bytes (remaining_length_ p).

Definition v3_body p : list byte :=
  topic_name_length_buf_ p ++ topic_name_ p ++
  concat (if negb (V3.packet_id pidb p =? 0) then [packet_id_ p] else []) ++ concat (payloads_ p).

Lemma v3_bytes p :
  concat (V3.const_buffer_sequence pidb p) =
  to_byte (fixed_header_ p) :: remaining_length_buf_ p ++ v3_body p.
Proof. unfold V3.const_buffer_sequence, v3_body. simpl. by rewrite concat_app, <- ?app_assoc. Qed.

Lemma length_v3_body p : v3_publish_ok p -> Z.of_nat (length (v3_body p)) = remaining_length_ p.
Proof.
  intros (_ & (_ & _ & Ht) & [Hl Hq] & -> & _). unfold v3_body, v3_body_length.
  rewrite !length_app, Ht, length_be_bytes, Hq, payload_size_concat.
  unfold V3.packet_id. destruct (load_packet_id _ _ =? 0); simpl; rewrite ?app_nil_r; lia.
Qed.

Lemma publish_header_check fh :
  header_ok fh -> get_control_packet_type_with_check fh = Some control_packet_type.publish.
Proof.
  intros (_ & _ & H). unfold get_control_packet_type_with_check. unfold get_control_packet_type in H. by rewrite H.
Qed.

(** A well formed v3.1.1 PUBLISH is read back from its serialization,
    and [size] and [num_of_const_buffer_sequence] are exact. *)
Lemma v3_publish_roundtrip p :
  v3_publish_ok p ->
  V3.parse_publish pidb (concat (V3.const_buffer_sequence pidb p)) =
    Ok (mk_publish (fixed_header_ p) (topic_name_ p) (topic_name_length_buf_ p) (packet_id_ p)
          (one_payload (payloads_ p)) (remaining_length_ p) (remaining_length_buf_ p)) /\
  V3.size p = Z.of_nat (length (concat (V3.const_buffer_sequence pidb p))) /\
  V3.num_of_const_buffer_sequence pidb p = length (V3.const_buffer_sequence pidb p).
Proof.
  intros Hp. pose proof Hp as (Hh & Ht & Hid & Hr & Hmax & Hrb). pose proof (length_v3_body p Hp) as Hlb. split; [|split].
  - rewrite v3_bytes. unfold V3.parse_publish. rewrite u8_to_byte_small by apply Hh.
    rewrite publish_header_check by done. simpl. rewrite Hrb, insert_advance_variable_length_encode by lia. simpl.
    rewrite (proj2 (Z.eqb_eq _ _)) by done. simpl. unfold v3_body.
    destruct (parse_topic _ _ (concat (if negb (V3.packet_id pidb p =? 0) then [packet_id_ p] else []) ++
      concat (payloads_ p)) Ht) as [-> Hlen]. simpl.
    rewrite Hlen, (proj2 (Z.leb_le _ _)) by (rewrite length_app; lia). simpl.
    match goal with |- context [firstn _ (topic_name_ p ++ ?r)] =>
      destruct (firstn_skipn_exact (topic_name_ p) r) as [-> ->] end.
    rewrite (proj1 (proj2 Ht)). simpl. unfold V3.packet_id. rewrite parse_packet_id_bytes by done. simpl.
    unfold one_payload. by destruct (concat (payloads_ p)).
  - rewrite v3_bytes. cbn [length]. rewrite length_app. unfold V3.size, framed_size. lia.
  - unfold V3.num_of_const_buffer_sequence, V3.const_buffer_sequence. rewrite !length_app.
    destruct (_ =? 0); simpl; lia.
Qed.

(** the zero identifier of a constructor has two more bytes than the buffer
    of an identifier of two bytes; what is in the buffer is the identifier *)
Lemma zero_id_overruns : (pidb < 4)%nat -> (pidb < length (endian_store 4 0))%nat.
Proof. by rewrite length_endian_store by done. Qed.

Lemma zero_packet_id_store : V3.zero_packet_id pidb = endian_store pidb 0.
Proof.
  assert (Hz : forall n, 0 <= 0 < 256 ^ Z.of_nat n) by (intros n; split; [done | by apply Z.pow_pos_nonneg; lia]).
  unfold V3.zero_packet_id. rewrite !endian_store_bytes by apply Hz. destruct pidb as [|[|[|[|[|n]]]]]; (reflexivity || lia).
Qed.

(** what the constructor returns is well formed, as long as its remaining
    length is one a variable byte integer can carry *)
Lemma make_v3_publish pid topic payloads pubopts p :
  0 <= pid < 256 ^ Z.of_nat pidb -> header_ok (Z.lor (make_fixed_header control_packet_type.publish 0) pubopts) ->
  V3.make_publish pidb pid topic payloads pubopts = Ok p -> remaining_length_ p <= max_variable_bytes ->
  v3_publish_ok p /\ V3.packet_id pidb p = pid.
Proof.
  intros Hpid Hh H Hmax. unfold V3.make_publish in H. bind_inv.
  assert (Hbuf : exists b, length b = pidb /\ load_packet_id pidb b = pid /\
    is_qos12 (pub.get_qos pubopts) = negb (pid =? 0) /\ packet_id_ p = b).
  { match goal with H : (if _ =? qos.at_most_once then _ else _) = Ok _ |- _ => rename H into Hq end.
    destruct (Z.eqb_spec (pub.get_qos pubopts) qos.at_most_once) as [Hz|Hz].
    - destruct (Z.eqb_spec pid 0) as [->|]; [|done]. injection Hq as <-. subst p. rewrite zero_packet_id_store, Hz.
      eexists. split; [|split; [|split; reflexivity]]; [by apply length_endian_store | by apply store_load_packet_id].
    - destruct (is_qos12 (pub.get_qos pubopts)); [|done]. destruct (Z.eqb_spec pid 0); [done|]. injection Hq as <-. subst p.
      eexists. split; [|split; [|split; reflexivity]]; [by apply length_endian_store | by apply store_load_packet_id]. }
  destruct Hbuf as (b & Hlb & Hload & Hqos & Hid).
  match goal with H : variable_length_buf _ = Ok _ |- _ =>
    unfold variable_length_buf in H; destruct (_ <=? _) in H; [done|]; injection H as <- end.
  subst p. cbn [packet_id_] in Hid. subst b. split; [|exact Hload]. split; [exact Hh|]. split; [|split; [|split; [|split; [exact Hmax | done]]]].
  - split; [cbn; lia|]. split; [done|]. apply endian_store_bytes. change (256 ^ Z.of_nat 2) with 65536. cbn. lia.
  - split; [exact Hlb|]. cbn [fixed_header_ packet_id_]. by rewrite get_qos_header, Hload.
  - unfold v3_body_length. cbn [remaining_length_ topic_name_ fixed_header_ payloads_]. rewrite get_qos_header. lia.
Qed.
End v3.
End publish_facts.

Section examples.
#[local] Existing Instances BigEndian.big_endian BigEndian.big_endian_ok.

(** topic "a", QoS 1, packet identifier 7, payload "hi" *)
Definition example_v5 : v5_publish.publish_packet :=
  v5_publish.mk_publish 0x32 [x61] [x00; x01] [x00; x07] 0 [x00] [] [[x68]; [x69]] 8 [x08].

Definition example_v3 : v3_publish.publish_packet :=
  v3_publish.mk_publish 0x32 [x61] [x00; x01] [x00; x07] [[x68]; [x69]] 7 [x07].

Lemma example_v5_ok : v5_publish_ok 2 example_v5.
Proof.
  split; [by vm_compute|]. split; [by vm_compute|]. split; [by vm_compute|]. split; [constructor|].
  split; [done|]. split; [done|]. split; [done|]. split; [by vm_compute | done].
Qed.

Lemma example_v3_ok : v3_publish_ok 2 example_v3.
Proof.
  split; [by vm_compute|]. split; [by vm_compute|]. split; [by vm_compute|]. split; [done|]. split; [by vm_compute|done].
Qed.
End examples.

Lemma v5_publish_alias_ops_witness :
  v5_publish.topic_name_ (V5.remove_topic_add_topic_alias (BE := BigEndian.big_endian) 3 example_v5) = [].
Proof.
  destruct (v5_publish_alias_ops (BEO := BigEndian.big_endian_ok) 2 ltac:(lia) example_v5 3 [x62] example_v5_ok)
    as (H & _); [lia | simpl; lia|].
  rewrite H. reflexivity.
Defined.

Lemma make_v5_publish_witness :
  exists p, V5.make_publish (BE := BigEndian.big_endian) 2 7 [x61] [[x68]; [x69]] 2 [] = Ok p /\
    V5.packet_id (BE := BigEndian.big_endian) 2 p = 7.
Proof.
  destruct (make_v5_publish (BEO := BigEndian.big_endian_ok) 2 ltac:(lia) 7 [x61] [[x68]; [x69]] 2 []) as [_ H].
  - change (256 ^ Z.of_nat 2) with 65536. lia.
  - constructor.
  - by vm_compute.
  - exists example_v5. split; [vm_compute; reflexivity|].
    apply (H example_v5). vm_compute. reflexivity.
Defined.

