(* ===== verification/ControlPacket.v ===== *)
(** * The other packets the connection builds

    v3_1_1 CONNACK, PUBACK, PUBREC, PUBREL, PUBCOMP, UNSUBACK, PINGREQ,
    PINGRESP and DISCONNECT, v5 CONNACK, PUBACK, PUBREC, PUBREL, PUBCOMP,
    PINGREQ, PINGRESP, DISCONNECT and AUTH.  Files with the same code for
    several packet types are translated once, with the type, the reserved
    bits, the property location and the reason codes as parameters, and
    instantiated per file.  Of v5 CONNACK the constructor is here and the parser
    in ConnectPacket.v. *)
From S2P Require Import Prelude Boost Utf8 Wire Error Property Packet PublishPacket.

(** [get_control_packet_type_with_check(v) == cpt] *)
Definition is_type (cpt v : Z) : bool :=
  match get_control_packet_type_with_check v with
  | Some c => c =? cpt
  | None => false
  end.

(** ** Packets of a fixed layout *)
Module Fixed.
Section fixed.
Context {BE : BoostEndian}.
Variable pidb : nat.

(** fixed header, remaining length, packet identifier *)
Definition make_with_packet_id (cpt flags packet_id : Z) : fixed_packet :=
  mk_fixed (to_byte (make_fixed_header cpt flags) :: to_byte (Z.of_nat pidb) :: endian_store pidb packet_id).

Definition make_v3_puback := make_with_packet_id control_packet_type.puback 0.
Definition make_v3_pubrec := make_with_packet_id control_packet_type.pubrec 0.
Definition make_v3_pubrel := make_with_packet_id control_packet_type.pubrel 2.
Definition make_v3_pubcomp := make_with_packet_id control_packet_type.pubcomp 0.
Definition make_v3_unsuback := make_with_packet_id control_packet_type.unsuback 0.

Definition make_v3_connack (session_present : bool) (return_code : Z) : fixed_packet :=
  mk_fixed [to_byte (make_fixed_header control_packet_type.connack 0); x02;
            (if session_present then x01 else x00); to_byte return_code].

Definition make_empty (cpt : Z) : fixed_packet := mk_fixed [to_byte (make_fixed_header cpt 0); x00].

Definition make_v3_pingreq := make_empty control_packet_type.pingreq.
Definition make_v3_pingresp := make_empty control_packet_type.pingresp.
Definition make_v3_disconnect := make_empty control_packet_type.disconnect.
Definition make_v5_pingreq := make_empty control_packet_type.pingreq.
Definition make_v5_pingresp := make_empty control_packet_type.pingresp.

Definition const_buffer_sequence (p : fixed_packet) : list (list byte) := [all_ p].

(** the first byte with its type, and the second *)
Definition parse_two (cpt : Z) (buf : list byte) : result (byte * byte * list byte) :=
  match buf with
  | [] => Err malformed
  | h :: buf =>
    (check? is_type cpt (u8 h) else malformed in
     match buf with
     | [] => Err malformed
     | r :: buf => Ok (h, r, buf)
     end)%result
  end.

Definition parse_with_packet_id (cpt : Z) (buf : list byte) : result fixed_packet :=
  (let? (h, r, buf) := parse_two cpt buf in
   check? u8 r =? Z.of_nat pidb else malformed in
   check? Z.of_nat (length buf) =? Z.of_nat pidb else malformed in
   Ok (mk_fixed (h :: r :: buf)))%result.

Definition parse_v3_puback := parse_with_packet_id control_packet_type.puback.
Definition parse_v3_pubrec := parse_with_packet_id control_packet_type.pubrec.
Definition parse_v3_pubrel := parse_with_packet_id control_packet_type.pubrel.
Definition parse_v3_pubcomp := parse_with_packet_id control_packet_type.pubcomp.
Definition parse_v3_unsuback := parse_with_packet_id control_packet_type.unsuback.

(** bytes after the remaining length 0 are not looked at *)
Definition parse_empty (cpt : Z) (buf : list byte) : result fixed_packet :=
  (let? (h, r, _) := parse_two cpt buf in
   check? u8 r =? 0 else malformed in
   Ok (mk_fixed [h; r]))%result.

Definition parse_v3_pingreq := parse_empty control_packet_type.pingreq.
Definition parse_v3_pingresp := parse_empty control_packet_type.pingresp.
Definition parse_v3_disconnect := parse_empty control_packet_type.disconnect.
Definition parse_v5_pingreq := parse_empty control_packet_type.pingreq.
Definition parse_v5_pingresp := parse_empty control_packet_type.pingresp.

Definition parse_v3_connack (buf : list byte) : result fixed_packet :=
  (let? (h, r, buf) := parse_two control_packet_type.connack buf in
   check? u8 r =? 2 else malformed in
   match buf with
   | [flags; code] =>
     check? Z.land (u8 flags) 0xfe =? 0 else malformed in
     check? u8 code <=? 5 else malformed in
     Ok (mk_fixed [h; r; flags; code])
   | _ => Err malformed
   end)%result.
End fixed.
End Fixed.

(** ** v5 packets with an optional reason code and properties *)

(** What differs between the classes: control packet type, reserved bits of
    the fixed header, property location, reason codes the parser accepts. *)
Record reason_class := mk_class {
  class_type : Z;
  class_flags : Z;
  class_location : property_location.location;
  class_codes : list Z;
}.

Definition puback_class : reason_class :=
  mk_class control_packet_type.puback 0 property_location.puback
    [0x00; 0x10; 0x80; 0x83; 0x87; 0x90; 0x91; 0x97; 0x99].
Definition pubrec_class : reason_class :=
  mk_class control_packet_type.pubrec 0 property_location.pubrec
    [0x00; 0x10; 0x80; 0x83; 0x87; 0x90; 0x91; 0x97; 0x99].
Definition pubrel_class : reason_class :=
  mk_class control_packet_type.pubrel 2 property_location.pubrel [0x00; 0x92].
Definition pubcomp_class : reason_class :=
  mk_class control_packet_type.pubcomp 0 property_location.pubcomp [0x00; 0x92].
Definition disconnect_class : reason_class :=
  mk_class control_packet_type.disconnect 0 property_location.disconnect
    [0x00; 0x04; 0x80; 0x81; 0x82; 0x83; 0x87; 0x89; 0x8b; 0x8d; 0x8e; 0x8f; 0x90; 0x93; 0x94; 0x95; 0x96;
     0x97; 0x98; 0x99; 0x9a; 0x9b; 0x9c; 0x9d; 0x9e; 0x9f; 0xa0; 0xa1; 0xa2].
Definition auth_class : reason_class :=
  mk_class control_packet_type.auth 0 property_location.auth [0x00; 0x18; 0x19].

(** ** The reason code and the properties *)
Section reason.
Context {BE : BoostEndian}.

(** the remaining length beyond [base] and the property length buffer;
    [remaining_length_buf_] is filled by a scope guard at every exit *)
Definition reason_lengths (cls : reason_class) (base : Z) (reason_code : option Z) (ps : properties)
    : result (Z * list byte) :=
  match reason_code with
  | None => Ok (base, [])
  | Some _ =>
    let remaining_length := base + 1 in
    if props.size ps =? 0 then Ok (remaining_length, [])
    else
      (let? property_length_buf := variable_length_buf (props.size ps) in
       check? forallb (fun p => validate_property (class_location cls) (pv.id p)) ps else malformed in
       Ok (remaining_length + (Z.of_nat (length property_length_buf) + props.size ps), property_length_buf))%result
  end.

Definition reason_buffers (reason_code : option Z) (property_length_buf : list byte) (ps : properties)
    : list (list byte) :=
  match reason_code with
  | None => []
  | Some c =>
    [to_byte c] ::
    (if decide (property_length_buf = []) then [] else property_length_buf :: props.const_buffer_sequence ps)
  end.

(** the reason code, which [short] says is the end of the packet, and the
    properties *)
Definition parse_reason (cls : reason_class) (short : bool) (buf : list byte)
    : result (option Z * Z * list byte * properties) :=
  (let? (c, buf) := front buf in
   check? existsb (Z.eqb (u8 c)) (class_codes cls) else malformed in
   if short then
     check? match buf with [] => true | _ => false end else malformed in
     Ok (Some (u8 c), 0, [], [])
   else
     let? (property_length, property_length_buf, ps, buf) := V5.parse_properties (class_location cls) buf in
     check? match buf with [] => true | _ => false end else malformed in
     Ok (Some (u8 c), property_length, property_length_buf, ps))%result.
End reason.

Module Ack.
Import v5_ack.

Section ack.
Context {BE : BoostEndian}.
Variable pidb : nat.

Definition make_ack (cls : reason_class) (packet_id : Z) (reason_code : option Z) (ps : properties) : result ack_packet :=
  (let? (remaining_length, property_length_buf) := reason_lengths cls (Z.of_nat pidb) reason_code ps in
   let? remaining_length_buf := variable_length_buf remaining_length in
   Ok (mk_ack (make_fixed_header (class_type cls) (class_flags cls)) remaining_length remaining_length_buf
         (endian_store pidb packet_id) reason_code (props.size ps) property_length_buf ps))%result.

Definition make_v5_puback := make_ack puback_class.
Definition make_v5_pubrec := make_ack pubrec_class.
Definition make_v5_pubrel := make_ack pubrel_class.
Definition make_v5_pubcomp := make_ack pubcomp_class.

(** [basic_puback_packet(packet_id)] and the like: no reason code and no
    properties, which cannot fail *)
Definition make_ack_id (cls : reason_class) (packet_id : Z) : ack_packet :=
  mk_ack (make_fixed_header (class_type cls) (class_flags cls)) (Z.of_nat pidb)
    (val_to_variable_bytes (Z.of_nat pidb)) (endian_store pidb packet_id) None 0 [] [].

Definition const_buffer_sequence (p : ack_packet) : list (list byte) :=
  [to_byte (fixed_header_ p)] :: remaining_length_buf_ p :: packet_id_ p ::
  reason_buffers (reason_code_ p) (property_length_buf_ p) (props_ p).

Definition size (p : ack_packet) : Z := framed_size (remaining_length_buf_ p) (remaining_length_ p).

Definition code (p : ack_packet) : Z := v5_ack_code p.

(** [remaining_length_ == 3] is written for two byte identifiers *)
Definition parse_ack (cls : reason_class) (buf : list byte) : result ack_packet :=
  match buf with
  | [] => Err malformed
  | front :: buf =>
    (let? (remaining_length, remaining_length_buf, buf) := or_error (insert_advance_variable_length buf) malformed in
     let? (packet_id, buf) := or_error (insert_advance pidb buf) malformed in
     if remaining_length =? Z.of_nat pidb then
       check? match buf with [] => true | _ => false end else malformed in
       Ok (mk_ack (u8 front) remaining_length remaining_length_buf packet_id None 0 [] [])
     else
       let? (reason_code, property_length, property_length_buf, ps) :=
         parse_reason cls (remaining_length =? 3) buf in
       Ok (mk_ack (u8 front) remaining_length remaining_length_buf packet_id reason_code property_length
             property_length_buf ps))%result
  end.

Definition parse_v5_puback := parse_ack puback_class.
Definition parse_v5_pubrec := parse_ack pubrec_class.
Definition parse_v5_pubrel := parse_ack pubrel_class.
Definition parse_v5_pubcomp := parse_ack pubcomp_class.
End ack.
End Ack.

Module Reason.
Import v5_reason.

Section reason_packet.
Context {BE : BoostEndian}.

Definition make_reason (cls : reason_class) (reason_code : option Z) (ps : properties) : result reason_packet :=
  (let? (remaining_length, property_length_buf) := reason_lengths cls 0 reason_code ps in
   let? remaining_length_buf := variable_length_buf remaining_length in
   Ok (mk_reason (make_fixed_header (class_type cls) (class_flags cls)) remaining_length remaining_length_buf
         reason_code (props.size ps) property_length_buf ps))%result.

Definition make_v5_disconnect := make_reason disconnect_class.
Definition make_v5_auth := make_reason auth_class.

(** [disconnect_packet(reason_code)] *)
Definition make_disconnect_code (reason_code : Z) : reason_packet :=
  mk_reason (make_fixed_header control_packet_type.disconnect 0) 1 (val_to_variable_bytes 1)
    (Some reason_code) 0 [] [].

Definition const_buffer_sequence (p : reason_packet) : list (list byte) :=
  [to_byte (fixed_header_ p)] :: remaining_length_buf_ p ::
  reason_buffers (reason_code_ p) (property_length_buf_ p) (props_ p).

Definition size (p : reason_packet) : Z := framed_size (remaining_length_buf_ p) (remaining_length_ p).

Definition parse_reason_packet (cls : reason_class) (buf : list byte) : result reason_packet :=
  match buf with
  | [] => Err malformed
  | front :: buf =>
    (let? (remaining_length, remaining_length_buf, buf) := or_error (insert_advance_variable_length buf) malformed in
     if remaining_length =? 0 then
       check? match buf with [] => true | _ => false end else malformed in
       Ok (mk_reason (u8 front) remaining_length remaining_length_buf None 0 [] [])
     else
       let? (reason_code, property_length, property_length_buf, ps) :=
         parse_reason cls (remaining_length =? 1) buf in
       Ok (mk_reason (u8 front) remaining_length remaining_length_buf reason_code property_length
             property_length_buf ps))%result
  end.

Definition parse_v5_disconnect := parse_reason_packet disconnect_class.
Definition parse_v5_auth := parse_reason_packet auth_class.
End reason_packet.
End Reason.

Module Connack.
Import v5_connack.

Section connack.
Context {BE : BoostEndian}.

Definition make_v5_connack (session_present : bool) (reason_code : Z) (ps : properties) : result connack_packet :=
  (let? property_length_buf := variable_length_buf (props.size ps) in
   check? forallb (fun p => validate_property property_location.connack (pv.id p)) ps else malformed in
   let remaining_length := 1 + 1 + (Z.of_nat (length property_length_buf) + props.size ps) in
   let? remaining_length_buf := variable_length_buf remaining_length in
   Ok (mk_connack (make_fixed_header control_packet_type.connack 0) remaining_length remaining_length_buf
         (if session_present then 1 else 0) reason_code (props.size ps) property_length_buf ps))%result.

(** the packet without properties, which cannot fail *)
Definition make_v5_connack_code (session_present : bool) (reason_code : Z) : connack_packet :=
  mk_connack (make_fixed_header control_packet_type.connack 0) 3 (val_to_variable_bytes 3)
    (if session_present then 1 else 0) reason_code 0 (val_to_variable_bytes 0) [].
End connack.
End Connack.

(** ** Facts *)

Section facts.
Context {BE : BoostEndian} {BEO : BoostEndianOk}.
Variable pidb : nat.
Hypothesis Hpidb : (0 < pidb <= 4)%nat.

Lemma fixed_packet_roundtrip cpt flags pid :
  0 <= pid < 256 ^ Z.of_nat pidb -> is_type cpt (u8 (to_byte (make_fixed_header cpt flags))) = true ->
  let p := Fixed.make_with_packet_id pidb cpt flags pid in
  Fixed.parse_with_packet_id pidb cpt (all_ p) = Ok p /\ fixed_packet_id pidb p = pid /\
  fixed_size p = 2 + Z.of_nat pidb.
Proof.
  intros Hpid Ht. cbv zeta. unfold Fixed.make_with_packet_id, Fixed.parse_with_packet_id, Fixed.parse_two. simpl.
  rewrite Ht. simpl. rewrite u8_to_byte_small by lia. rewrite Z.eqb_refl. simpl.
  rewrite length_endian_store, Z.eqb_refl by done. simpl. split; [done|].
  unfold fixed_packet_id, fixed_size. simpl. rewrite length_endian_store by done. split; [|lia].
  fold (load_packet_id pidb (endian_store pidb pid)). by apply store_load_packet_id.
Qed.

(** *** Reason code and properties *)

(** what the constructors store *)
Definition reason_ok (cls : reason_class) (reason_code : option Z) (pl : Z) (plb : list byte) (ps : properties) : Prop :=
  pl = props.size ps /\ pl <= max_variable_bytes /\ props_ok (class_location cls) ps /\
  match reason_code with
  | None => ps = [] /\ plb = []
  | Some c => In c (class_codes cls) /\ plb = (if pl =? 0 then [] else val_to_variable_bytes pl)
  end.

(** the bytes a reason code and properties take *)
Definition reason_length (reason_code : option Z) (pl : Z) (plb : list byte) : Z :=
  match reason_code with None => 0 | Some _ => 1 + Z.of_nat (length plb) + pl end.

Definition class_ok (cls : reason_class) : Prop := Forall (fun c => 0 <= c < 256) (class_codes cls).

Lemma props_size_0 ps : props.size ps = 0 -> ps = [].
Proof.
  destruct ps as [|p ps]; [done|]. rewrite props_size_cons, size_bytes. pose proof (props_size_nonneg ps).
  unfold pv.bytes, pv.const_buffer_sequence. destruct (pv.base_of p); simpl; lia.
Qed.

Lemma val_to_variable_bytes_nonempty v : 0 <= v <= max_variable_bytes -> val_to_variable_bytes v <> [].
Proof. intros Hv He. pose proof (length_val_to_variable_bytes v Hv) as Hl. rewrite He in Hl. simpl in Hl. lia. Qed.

Lemma reason_buffers_bytes cls c pl plb ps :
  reason_ok cls (Some c) pl plb ps ->
  concat (reason_buffers (Some c) plb ps) = to_byte c :: (if pl =? 0 then [] else val_to_variable_bytes pl ++ props.bytes ps).
Proof.
  intros (Hpl & Hmax & _ & _ & ->). unfold reason_buffers, props.bytes. cbn [concat app]. f_equal.
  destruct (Z.eqb_spec pl 0) as [H0|H0]; [done|]. rewrite decide_False; [done|].
  apply val_to_variable_bytes_nonempty. pose proof (props_size_nonneg ps). lia.
Qed.

Lemma length_reason_buffers cls rc pl plb ps :
  reason_ok cls rc pl plb ps -> Z.of_nat (length (concat (reason_buffers rc plb ps))) = reason_length rc pl plb.
Proof.
  intros H. destruct rc as [c|]; [|by destruct H as (_ & _ & _ & -> & ->)].
  rewrite (reason_buffers_bytes cls c pl) by done. destruct H as (Hpl & _ & _ & _ & ->). unfold reason_length.
  cbn [length]. destruct (Z.eqb_spec pl 0) as [->|H0]; [done|].
  rewrite length_app. rewrite Hpl at 3. rewrite props_size_bytes. lia.
Qed.

(** parsing what the buffers hold; [short] is the test on the remaining
    length, which has to hold exactly when there are no properties *)
Lemma parse_reason_bytes cls c pl plb ps short :
  class_ok cls -> reason_ok cls (Some c) pl plb ps -> short = (pl =? 0) ->
  parse_reason cls short (concat (reason_buffers (Some c) plb ps)) = Ok (Some c, pl, plb, ps).
Proof.
  intros Hcls H ->. rewrite (reason_buffers_bytes cls c pl) by done.
  destruct H as (Hpl & Hmax & Hps & Hc & ->). unfold parse_reason. cbn [front result_bind].
  unfold class_ok in Hcls. rewrite Forall_forall in Hcls.
  rewrite u8_to_byte_small by (apply Hcls; by apply list_elem_of_In).
  assert (He : existsb (Z.eqb c) (class_codes cls) = true).
  { apply existsb_exists. exists c. split; [done | apply Z.eqb_refl]. }
  rewrite He. simpl. destruct (Z.eqb_spec pl 0) as [->|H0]; simpl.
  - symmetry in Hpl. apply props_size_0 in Hpl. by subst ps.
  - rewrite <- (app_nil_r (props.bytes ps)).
    rewrite (parse_properties_bytes _ _ _ pl) by done. done.
Qed.

Definition ack_ok (cls : reason_class) (p : v5_ack.ack_packet) : Prop :=
  v5_ack.fixed_header_ p = make_fixed_header (class_type cls) (class_flags cls) /\
  length (v5_ack.packet_id_ p) = pidb /\
  reason_ok cls (v5_ack.reason_code_ p) (v5_ack.property_length_ p) (v5_ack.property_length_buf_ p) (v5_ack.props_ p) /\
  v5_ack.remaining_length_ p =
    Z.of_nat pidb + reason_length (v5_ack.reason_code_ p) (v5_ack.property_length_ p) (v5_ack.property_length_buf_ p) /\
  v5_ack.remaining_length_ p <= max_variable_bytes /\
  v5_ack.remaining_length_buf_ p = val_to_variable_bytes (v5_ack.remaining_length_ p).

Definition known_class (cls : reason_class) : Prop :=
  cls = puback_class \/ cls = pubrec_class \/ cls = pubrel_class \/ cls = pubcomp_class \/
  cls = disconnect_class \/ cls = auth_class.

Lemma known_class_ok cls :
  known_class cls -> class_ok cls /\
  u8 (to_byte (make_fixed_header (class_type cls) (class_flags cls))) = make_fixed_header (class_type cls) (class_flags cls).
Proof.
  assert (Hb : forall l, forallb (fun c => (0 <=? c) && (c <? 256)) l = true -> Forall (fun c => 0 <= c < 256) l).
  { intros l Hl. apply Forall_forall. intros c Hc. rewrite forallb_forall in Hl.
    apply list_elem_of_In, Hl in Hc. lia. }
  intros [->|[->|[->|[->|[->| ->]]]]]; (split; [apply Hb | ]); by vm_compute.
Qed.

Lemma reason_length_nonneg rc pl plb : 0 <= pl -> 0 <= reason_length rc pl plb.
Proof. destruct rc; simpl; lia. Qed.

(** the bytes of an acknowledgement *)
Lemma ack_bytes p :
  concat (Ack.const_buffer_sequence p) =
  to_byte (v5_ack.fixed_header_ p) :: v5_ack.remaining_length_buf_ p ++ v5_ack.packet_id_ p ++
  concat (reason_buffers (v5_ack.reason_code_ p) (v5_ack.property_length_buf_ p) (v5_ack.props_ p)).
Proof. done. Qed.

(** parsing up to the reason code *)
Lemma parse_ack_bytes cls p :
  known_class cls -> ack_ok cls p ->
  Ack.parse_ack pidb cls (concat (Ack.const_buffer_sequence p)) =
  match v5_ack.reason_code_ p with
  | None => Ok p
  | Some c =>
    (let? (rc, pl, plb, ps) := parse_reason cls (v5_ack.remaining_length_ p =? 3)
       (concat (reason_buffers (Some c) (v5_ack.property_length_buf_ p) (v5_ack.props_ p))) in
     Ok (v5_ack.mk_ack (v5_ack.fixed_header_ p) (v5_ack.remaining_length_ p) (v5_ack.remaining_length_buf_ p)
           (v5_ack.packet_id_ p) rc pl plb ps))%result
  end.
Proof.
  intros Hk (Hfh & Hid & Hr & Hrl & Hmax & Hrb). apply known_class_ok in Hk as [_ Hu].
  pose proof (props_size_nonneg (v5_ack.props_ p)). pose proof Hr as (Hpl & _).
  pose proof (reason_length_nonneg (v5_ack.reason_code_ p) (v5_ack.property_length_ p) (v5_ack.property_length_buf_ p)).
  rewrite ack_bytes, Hrb. unfold Ack.parse_ack. rewrite Hfh, Hu.
  rewrite insert_advance_variable_length_encode by lia. simpl.
  rewrite insert_advance_app by done. simpl. rewrite <- Hfh, <- Hrb.
  destruct (v5_ack.reason_code_ p) as [c|] eqn:Hc.
  - rewrite (proj2 (Z.eqb_neq _ _)); [done|]. rewrite Hrl. simpl. lia.
  - rewrite Hrl. simpl. rewrite Z.add_0_r, Z.eqb_refl. simpl. destruct Hr as (_ & _ & _ & Hps & Hplb).
    rewrite Hps in Hpl. destruct p; simpl in *. subst. f_equal. f_equal. lia.
Qed.

Lemma ack_size cls p : ack_ok cls p -> Ack.size p = Z.of_nat (length (concat (Ack.const_buffer_sequence p))).
Proof.
  intros (Hfh & Hid & Hr & Hrl & _). rewrite ack_bytes. cbn [length]. rewrite !length_app, Hid.
  pose proof (length_reason_buffers _ _ _ _ _ Hr). unfold Ack.size, framed_size. lia.
Qed.

(** A v5 PUBACK, PUBREC, PUBREL or PUBCOMP is read back from what it
    serializes to when packet identifiers have two bytes, or it has no
    reason code, or it has properties. *)
Lemma v5_ack_roundtrip cls p :
  known_class cls -> ack_ok cls p -> pidb = 2%nat \/ v5_ack.reason_code_ p = None \/ v5_ack.props_ p <> [] ->
  Ack.parse_ack pidb cls (concat (Ack.const_buffer_sequence p)) = Ok p /\
  Ack.size p = Z.of_nat (length (concat (Ack.const_buffer_sequence p))).
Proof.
  intros Hk Hp Hcase. split; [|by eapply ack_size]. rewrite parse_ack_bytes by done.
  apply known_class_ok in Hk as [Hcls _]. destruct Hp as (_ & _ & Hr & Hrl & _).
  destruct (v5_ack.reason_code_ p) as [c|] eqn:Hc; [|done].
  rewrite (parse_reason_bytes cls c (v5_ack.property_length_ p)); [|done|done|].
  - simpl. destruct p; simpl in *; by subst.
  - pose proof Hr as (Hpl & Hplmax & _ & _ & Hplb). rewrite Hrl. unfold reason_length. rewrite Hplb.
    pose proof (props_size_nonneg (v5_ack.props_ p)).
    destruct (Z.eqb_spec (v5_ack.property_length_ p) 0) as [H0|H0].
    + symmetry in Hpl. rewrite H0 in Hpl. apply props_size_0 in Hpl. rewrite H0. simpl.
      destruct Hcase as [->|[?|?]]; done.
    + assert ((1 <= length (val_to_variable_bytes (v5_ack.property_length_ p)))%nat).
      { apply length_val_to_variable_bytes. lia. }
      apply Z.eqb_neq. lia.
Qed.

(** the parser takes a remaining length of three, not of one more than
    the identifier, for a packet that ends with its reason code: with four
    byte identifiers such a packet is refused as malformed. *)
Theorem v5_ack_reason_code_lost cls p c :
  known_class cls -> ack_ok cls p -> pidb = 4%nat -> v5_ack.reason_code_ p = Some c -> v5_ack.props_ p = [] ->
  Ack.parse_ack pidb cls (concat (Ack.const_buffer_sequence p)) = Err malformed.
Proof.
  intros Hk Hp H4 Hc Hps. rewrite parse_ack_bytes by done. rewrite Hc.
  apply known_class_ok in Hk as [Hcls _]. destruct Hp as (_ & _ & Hr & Hrl & _). rewrite Hc in Hr, Hrl.
  rewrite (reason_buffers_bytes cls c (v5_ack.property_length_ p)) by done.
  destruct Hr as (Hpl & _ & _ & Hin & Hplb). rewrite Hps in Hpl.
  change (props.size []) with 0 in Hpl. rewrite Hpl in *. simpl in *. subst. rewrite Hrl, Hplb. simpl.
  unfold parse_reason; cbn [front result_bind]. unfold class_ok in Hcls. rewrite Forall_forall in Hcls.
  rewrite u8_to_byte_small by (apply Hcls; by apply list_elem_of_In).
  assert (He : existsb (Z.eqb c) (class_codes cls) = true).
  { apply existsb_exists. exists c. split; [done | apply Z.eqb_refl]. }
  by rewrite He.
Qed.

Definition reason_packet_ok (cls : reason_class) (p : v5_reason.reason_packet) : Prop :=
  v5_reason.fixed_header_ p = make_fixed_header (class_type cls) (class_flags cls) /\
  reason_ok cls (v5_reason.reason_code_ p) (v5_reason.property_length_ p) (v5_reason.property_length_buf_ p) (v5_reason.props_ p) /\
  v5_reason.remaining_length_ p =
    reason_length (v5_reason.reason_code_ p) (v5_reason.property_length_ p) (v5_reason.property_length_buf_ p) /\
  v5_reason.remaining_length_ p <= max_variable_bytes /\
  v5_reason.remaining_length_buf_ p = val_to_variable_bytes (v5_reason.remaining_length_ p).

(** A v5 DISCONNECT or AUTH is read back from what it serializes to. *)
Lemma v5_reason_roundtrip cls p :
  known_class cls -> reason_packet_ok cls p ->
  Reason.parse_reason_packet cls (concat (Reason.const_buffer_sequence p)) = Ok p /\
  Reason.size p = Z.of_nat (length (concat (Reason.const_buffer_sequence p))).
Proof.
  intros Hk (Hfh & Hr & Hrl & Hmax & Hrb). apply known_class_ok in Hk as [Hcls Hu].
  pose proof (props_size_nonneg (v5_reason.props_ p)). pose proof Hr as (Hpl & Hplmax & _).
  pose proof (reason_length_nonneg (v5_reason.reason_code_ p) (v5_reason.property_length_ p) (v5_reason.property_length_buf_ p)).
  split.
  - unfold Reason.const_buffer_sequence. cbn [concat app]. rewrite Hrb. unfold Reason.parse_reason_packet.
    rewrite Hfh, Hu. rewrite insert_advance_variable_length_encode by lia. simpl. rewrite <- Hfh, <- Hrb.
    destruct (v5_reason.reason_code_ p) as [c|] eqn:Hc.
    + rewrite (proj2 (Z.eqb_neq _ _)) by (rewrite Hrl; simpl; lia).
      rewrite (parse_reason_bytes cls c (v5_reason.property_length_ p)); [|done|done|].
      * simpl. destruct p; simpl in *; by subst.
      * destruct Hr as (_ & _ & _ & _ & Hplb). rewrite Hrl. simpl. rewrite Hplb.
        destruct (Z.eqb_spec (v5_reason.property_length_ p) 0) as [Hz|Hz]; [by rewrite Hz|].
        apply Z.eqb_neq. lia.
    + rewrite Hrl. simpl. destruct Hr as (_ & _ & _ & Hps & Hplb). rewrite Hps in Hpl.
      destruct p; simpl in *. by subst.
  - unfold Reason.const_buffer_sequence. cbn [concat app length]. rewrite length_app.
    pose proof (length_reason_buffers _ _ _ _ _ Hr). unfold Reason.size, framed_size. lia.
Qed.
End facts.

Section examples.
#[local] Existing Instances BigEndian.big_endian BigEndian.big_endian_ok.

Lemma v5_ack_reason_code_lost_witness :
  let p := v5_ack.mk_ack 0x40 5 [x05] [x00; x00; x00; x07] (Some 0x10) 0 [] [] in
  Ack.parse_v5_puback 4 (concat (Ack.const_buffer_sequence p)) = Err malformed.
Proof.
  cbv zeta.
  refine (v5_ack_reason_code_lost 4 ltac:(lia) puback_class (v5_ack.mk_ack 0x40 5 [x05] [x00; x00; x00; x07] (Some 0x10) 0 [] [])
    0x10 _ _ _ _ _); try reflexivity.
  - unfold known_class. tauto.
  - unfold ack_ok, reason_ok. split_and!; first [reflexivity | exact (Forall_nil_2 _) | by vm_compute | simpl; tauto].
Defined.

End examples.
