(* ===== verification/EntryPacket.v ===== *)
(** * SUBSCRIBE, UNSUBSCRIBE, SUBACK and v5 UNSUBACK

    packet/impl/v3_1_1_subscribe.ipp, v5_subscribe.ipp, the same four for
    unsubscribe and suback, v5_unsuback.ipp, topic_sharename.hpp,
    topic_subopts.hpp and subopts.hpp.  All have a packet identifier,
    properties (v5) and a list of entries; what differs is a record.  The
    entries are topic filters with or without options ([Topics]), or codes
    ([Codes]). *)
From S2P Require Import Prelude Boost Utf8 Wire Error Property Field Packet PublishPacket ControlPacket.

(** ** Topic filters and their options *)

(** [find_first_of('/')]: what is before and after *)
Fixpoint find_slash (s : list byte) : option (list byte * list byte) :=
  match s with
  | [] => None
  | c :: s =>
    if decide (c = x2f) then Some ([], s)
    else match find_slash s with Some (before, after) => Some (c :: before, after) | None => None end
  end.

(** "$share/" *)
Definition shared_prefix : list byte := [x24; x73; x68; x61; x72; x65; x2f].

Definition make_topic_sharename (all_topic : list byte) : topic_sharename :=
  if decide (firstn (length shared_prefix) all_topic = shared_prefix) then
    let sharename := skipn (length shared_prefix) all_topic in
    match find_slash sharename with
    | None | Some ([], _) => mk_topic_sharename all_topic [] sharename
    | Some (_, topic) =>
      mk_topic_sharename all_topic topic (firstn (length sharename - length topic - 1) sharename)
    end
  else mk_topic_sharename all_topic all_topic [].

(** subopts.hpp *)
Module sub.
Definition get_retain_handling (opts : Z) : Z := Z.land opts 0x30.
Definition get_rap (opts : Z) : Z := Z.land opts 0x08.
Definition get_nl (opts : Z) : Z := Z.land opts 0x04.
Definition get_qos (opts : Z) : Z := Z.land opts 0x03.
End sub.

(** the enumerators of [qos] and [retain_handling] *)
Definition is_qos (q : Z) : bool := existsb (Z.eqb q) [qos.at_most_once; qos.at_least_once; qos.exactly_once].
Definition is_retain_handling (v : Z) : bool := existsb (Z.eqb v) [0x00; 0x10; 0x20].

Definition check_v3_opts (e : topic_subopts) : result unit :=
  (check? Z.land (opts_ e) 0xfc =? 0 else malformed in
   guard (is_qos (sub.get_qos (opts_ e))) malformed)%result.

Definition check_v5_opts (e : topic_subopts) : result unit :=
  (check? Z.land (opts_ e) 0xc0 =? 0 else malformed in
   check? is_qos (sub.get_qos (opts_ e)) else malformed in
   check? is_retain_handling (sub.get_retain_handling (opts_ e)) else malformed in
   guard (negb ((sub.get_nl (opts_ e) =? 0x04) && negb (bool_decide (sharename_ (topic_sharename_ e) = [])))) protocol_error)%result.

(** ** What the packets share *)
Section frame.
Context {BE : BoostEndian}.
Variable pidb : nat.

(** [property_length_buf_] of the v5 packets, with the check of the
    properties; v3.1.1 packets have none *)
Definition make_property_length (loc : option property_location.location) (ps : properties) : result (list byte) :=
  match loc with
  | None => Ok []
  | Some loc =>
    (let? buf := variable_length_buf (props.size ps) in
     check? forallb (fun p => validate_property loc (pv.id p)) ps else malformed in
     Ok buf)%result
  end.

Definition property_buffers (loc : option property_location.location) (buf : list byte) (ps : properties)
    : list (list byte) :=
  match loc with
  | None => []
  | Some _ => buf :: props.const_buffer_sequence ps
  end.

Definition property_buffer_count (loc : option property_location.location) (buf : list byte) (ps : properties) : nat :=
  match loc with
  | None => 0
  | Some _ => if decide (length buf = 0%nat) then 0 else 1 + props.num_of_const_buffer_sequence ps
  end.

(** fixed header to properties, and the bytes left, which have to be some *)
Definition parse_frame (cpt : Z) (loc : option property_location.location) (buf : list byte)
    : result (Z * (Z * list byte) * list byte * (Z * list byte * properties) * list byte) :=
  match buf with
  | [] => Err malformed
  | fixed_header :: buf =>
    (check? is_type cpt (u8 fixed_header) else malformed in
     let? (remaining_length, remaining_length_buf, buf) := or_error (insert_advance_variable_length buf) malformed in
     check? remaining_length =? Z.of_nat (length buf) else malformed in
     let? (packet_id, buf) := or_error (copy_advance pidb buf) malformed in
     let? (property_length, property_length_buf, ps, buf) :=
       match loc with
       | None => Ok (0, [], [], buf)
       | Some loc => parse_property_field malformed loc buf
       end in
     check? negb (bool_decide (buf = [])) else protocol_error in
     Ok (u8 fixed_header, (remaining_length, remaining_length_buf), packet_id,
         (property_length, property_length_buf, ps), buf))%result
  end.
End frame.

(** ** SUBSCRIBE and UNSUBSCRIBE *)
Record topics_class (entry : Type) := mk_topics {
  tc_type : Z;
  tc_location : option property_location.location;
  (** the constructor refuses a packet without entries *)
  tc_refuse_empty : bool;
  tc_topic : entry -> topic_sharename;
  (** the buffers after the topic filter *)
  tc_options : entry -> list (list byte);
  tc_check : entry -> result unit;
  tc_parse : topic_sharename -> list byte -> result (entry * list byte);
}.
Arguments mk_topics {entry}.
Arguments tc_type {entry}.
Arguments tc_location {entry}.
Arguments tc_refuse_empty {entry}.
Arguments tc_topic {entry}.
Arguments tc_options {entry}.
Arguments tc_check {entry}.
Arguments tc_parse {entry}.

Definition parse_options (check : topic_subopts -> result unit) (t : topic_sharename) (buf : list byte)
    : result (topic_subopts * list byte) :=
  match buf with
  | [] => Err malformed
  | opts :: buf =>
    let e := mk_topic_subopts t (u8 opts) in
    (let? _ := check e in Ok (e, buf))%result
  end.

Definition subscribe_class (loc : option property_location.location) (refuse_empty : bool)
    (check : topic_subopts -> result unit) : topics_class topic_subopts :=
  mk_topics control_packet_type.subscribe loc refuse_empty topic_sharename_ (fun e => [[to_byte (opts_ e)]])
    check (parse_options check).

Definition unsubscribe_class (loc : option property_location.location) : topics_class topic_sharename :=
  mk_topics control_packet_type.unsubscribe loc false id (fun _ => []) (fun _ => Ok tt) (fun t buf => Ok (t, buf)).

Definition v3_subscribe_class := subscribe_class None true check_v3_opts.
Definition v5_subscribe_class := subscribe_class (Some property_location.subscribe) false check_v5_opts.
Definition v3_unsubscribe_class := unsubscribe_class None.
Definition v5_unsubscribe_class := unsubscribe_class (Some property_location.unsubscribe).

Module Topics.
Import entries_packet.

Section topics.
Context {BE : BoostEndian} {entry : Type}.
Variable pidb : nat.
Variable cls : topics_class entry.
Implicit Types p : entries_packet entry.

Definition topic_bytes (e : entry) : list byte := all_topic_ (tc_topic cls e).

Fixpoint check_entries (entries : list entry) : result unit :=
  match entries with
  | [] => Ok tt
  | e :: entries =>
    (let? _ := tc_check cls e in
     check? utf8string_check (topic_bytes e) else malformed in
     check_entries entries)%result
  end.

(** length field, topic filter, options *)
Definition entry_size (e : entry) : Z :=
  2 + Z.of_nat (length (topic_bytes e)) + Z.of_nat (length (concat (tc_options cls e))).

Definition entries_size (entries : list entry) : Z := fold_left (fun total e => total + entry_size e) entries 0.

Definition make (packet_id : Z) (entries : list entry) (ps : properties) : result (entries_packet entry) :=
  (check? forallb (fun e => Z.of_nat (length (topic_bytes e)) <=? 0xffff) entries else malformed in
   let topic_length_bufs := map (fun e => endian_store 2 (Z.of_nat (length (topic_bytes e)))) entries in
   check? negb (tc_refuse_empty cls && bool_decide (length entries = 0%nat)) else protocol_error in
   let? property_length_buf := make_property_length (tc_location cls) ps in
   let? _ := check_entries entries in
   let remaining_length :=
     Z.of_nat pidb + (Z.of_nat (length property_length_buf) + props.size ps) + entries_size entries in
   let? remaining_length_buf := variable_length_buf remaining_length in
   Ok (mk_entries (make_fixed_header (tc_type cls) 2) topic_length_bufs entries (endian_store pidb packet_id)
         remaining_length remaining_length_buf (props.size ps) property_length_buf ps))%result.

Definition entry_buffers (length_buf : list byte) (e : entry) : list (list byte) :=
  length_buf :: topic_bytes e :: tc_options cls e.

Definition const_buffer_sequence p : list (list byte) :=
  [[to_byte (fixed_header_ p)]; remaining_length_buf_ p; packet_id_ p] ++
  property_buffers (tc_location cls) (property_length_buf_ p) (props_ p) ++
  concat (zip_with entry_buffers (topic_length_buf_entries_ p) (entries_ p)).

Definition size p : Z := framed_size (remaining_length_buf_ p) (remaining_length_ p).

(** three buffers per entry with options, two without *)
Definition num_of_const_buffer_sequence (per_entry : nat) p : nat :=
  1 + 1 + 1 + property_buffer_count (tc_location cls) (property_length_buf_ p) (props_ p) +
  length (entries_ p) * per_entry.

Definition parse_entry (buf : list byte) : result (list byte * entry * list byte) :=
  (let? (length_buf, topic, buf) := parse_utf8_field malformed buf in
   let? (e, buf) := tc_parse cls (make_topic_sharename topic) buf in
   Ok (length_buf, e, buf))%result.

(** [while (!buf.empty())]: an entry has at least the two bytes of its
    length, so the length of the buffer is fuel enough *)
Fixpoint parse_entries (fuel : nat) (buf : list byte) : result (list (list byte) * list entry) :=
  match buf, fuel with
  | [], _ => Ok ([], [])
  | _, O => Err malformed
  | _, S fuel =>
    (let? (length_buf, e, buf) := parse_entry buf in
     let? (length_bufs, entries) := parse_entries fuel buf in
     Ok (length_buf :: length_bufs, e :: entries))%result
  end.

Definition parse (buf : list byte) : result (entries_packet entry) :=
  (let? (fixed_header, (remaining_length, remaining_length_buf), packet_id, (pl, plb, ps), buf) :=
     parse_frame pidb (tc_type cls) (tc_location cls) buf in
   let? (length_bufs, entries) := parse_entries (length buf) buf in
   Ok (mk_entries fixed_header length_bufs entries packet_id remaining_length remaining_length_buf pl plb ps))%result.
End topics.

Section instances.
Context {BE : BoostEndian}.
Variable pidb : nat.
Definition make_v3_subscribe (packet_id : Z) (params : list topic_subopts) : result subscribe_packet :=
  make pidb v3_subscribe_class packet_id params [].
Definition make_v5_subscribe := make pidb v5_subscribe_class.
Definition make_v3_unsubscribe (packet_id : Z) (params : list topic_sharename) : result unsubscribe_packet :=
  make pidb v3_unsubscribe_class packet_id params [].
Definition make_v5_unsubscribe := make pidb v5_unsubscribe_class.
Definition parse_v3_subscribe : list byte -> result subscribe_packet := parse pidb v3_subscribe_class.
Definition parse_v5_subscribe : list byte -> result subscribe_packet := parse pidb v5_subscribe_class.
Definition parse_v3_unsubscribe : list byte -> result unsubscribe_packet := parse pidb v3_unsubscribe_class.
Definition parse_v5_unsubscribe : list byte -> result unsubscribe_packet := parse pidb v5_unsubscribe_class.
End instances.
End Topics.

(** ** SUBACK and UNSUBACK *)
Record codes_class := mk_codes {
  cc_type : Z;
  cc_location : option property_location.location;
  cc_codes : list Z;
}.

Definition v3_suback_class : codes_class := mk_codes control_packet_type.suback None [0x00; 0x01; 0x02; 0x80].
Definition v5_suback_class : codes_class :=
  mk_codes control_packet_type.suback (Some property_location.suback)
    [0x00; 0x01; 0x02; 0x80; 0x83; 0x87; 0x8f; 0x91; 0x97; 0x9e; 0xa1; 0xa2].
Definition v5_unsuback_class : codes_class :=
  mk_codes control_packet_type.unsuback (Some property_location.unsuback)
    [0x00; 0x11; 0x80; 0x83; 0x87; 0x8f; 0x91].

Module Codes.
Import entries_packet.

Section codes.
Context {BE : BoostEndian}.
Variable pidb : nat.
Variable cls : codes_class.
Implicit Types p : code_packet.

Definition make (packet_id : Z) (entries : list Z) (ps : properties) : result code_packet :=
  (let? property_length_buf := make_property_length (cc_location cls) ps in
   let remaining_length :=
     Z.of_nat pidb + Z.of_nat (length entries) + (Z.of_nat (length property_length_buf) + props.size ps) in
   let? remaining_length_buf := variable_length_buf remaining_length in
   Ok (mk_entries (make_fixed_header (cc_type cls) 0) [] entries (endian_store pidb packet_id)
         remaining_length remaining_length_buf (props.size ps) property_length_buf ps))%result.

Definition const_buffer_sequence p : list (list byte) :=
  [[to_byte (fixed_header_ p)]; remaining_length_buf_ p; packet_id_ p] ++
  property_buffers (cc_location cls) (property_length_buf_ p) (props_ p) ++
  [map to_byte (entries_ p)].

Definition size p : Z := framed_size (remaining_length_buf_ p) (remaining_length_ p).

Definition num_of_const_buffer_sequence p : nat :=
  1 + 1 + 1 + property_buffer_count (cc_location cls) (property_length_buf_ p) (props_ p) + 1.

Fixpoint parse_codes (buf : list byte) : result (list Z) :=
  match buf with
  | [] => Ok []
  | rc :: buf =>
    (check? existsb (Z.eqb (u8 rc)) (cc_codes cls) else malformed in
     let? codes := parse_codes buf in Ok (u8 rc :: codes))%result
  end.

Definition parse (buf : list byte) : result code_packet :=
  (let? (fixed_header, (remaining_length, remaining_length_buf), packet_id, (pl, plb, ps), buf) :=
     parse_frame pidb (cc_type cls) (cc_location cls) buf in
   let? codes := parse_codes buf in
   Ok (mk_entries fixed_header [] codes packet_id remaining_length remaining_length_buf pl plb ps))%result.
End codes.

Section instances.
Context {BE : BoostEndian}.
Variable pidb : nat.
Definition make_v3_suback (packet_id : Z) (params : list Z) : result code_packet :=
  make pidb v3_suback_class packet_id params [].
Definition make_v5_suback := make pidb v5_suback_class.
Definition make_v5_unsuback := make pidb v5_unsuback_class.
Definition parse_v3_suback := parse pidb v3_suback_class.
Definition parse_v5_suback := parse pidb v5_suback_class.
Definition parse_v5_unsuback := parse pidb v5_unsuback_class.
End instances.
End Codes.

(** ** Facts *)

Lemma variable_length_buf_Ok v buf : variable_length_buf v = Ok buf -> buf = val_to_variable_bytes v.
Proof. unfold variable_length_buf. destruct (_ <=? _); [done|]. by intros [= <-]. Qed.

(** What a class of topic packets has to satisfy: the type is one the parser
    knows, and an entry that comes from a topic filter is read back. *)
Class TopicsOk {entry} (cls : topics_class entry) (made : entry -> Prop) : Prop := {
  topics_header : let fh := make_fixed_header (tc_type cls) 2 in is_type (tc_type cls) fh = true /\ u8 (to_byte fh) = fh;
  topics_made e : made e -> tc_topic cls e = make_topic_sharename (all_topic_ (tc_topic cls e));
  topics_parse e rest : made e -> tc_check cls e = Ok tt ->
    tc_parse cls (tc_topic cls e) (concat (tc_options cls e) ++ rest) = Ok (e, rest);
}.

(** built by the constructors of topic_sharename and topic_subopts *)
Definition made_topic (t : topic_sharename) : Prop := t = make_topic_sharename (all_topic_ t).
Definition made_subopts (e : topic_subopts) : Prop := made_topic (topic_sharename_ e) /\ 0 <= opts_ e < 256.

#[export] Instance subscribe_ok loc refuse check : TopicsOk (subscribe_class loc refuse check) made_subopts.
Proof.
  split; [by vm_compute | by intros e [? _] |]. intros [t o] rest [_ Ho] Hc. simpl in *.
  rewrite u8_to_byte_small by done. by rewrite Hc.
Qed.

#[export] Instance unsubscribe_ok loc : TopicsOk (unsubscribe_class loc) made_topic.
Proof. split; [by vm_compute | done | done]. Qed.

Lemma make_topic_all t : all_topic_ (make_topic_sharename t) = t.
Proof. unfold make_topic_sharename. case_decide; [|done]. by destruct (find_slash _) as [[[|? ?] ?]|]. Qed.

(** a filter that is built is the one given *)
Lemma made_topic_make t : made_topic (make_topic_sharename t).
Proof. unfold made_topic. by rewrite make_topic_all. Qed.

Section facts.
Context {BE : BoostEndian} {BEO : BoostEndianOk}.
Variable pidb : nat.
Hypothesis Hpidb : (0 < pidb <= 4)%nat.

Definition property_part_ok (loc : option property_location.location) (pl : Z) (plb : list byte) (ps : properties) : Prop :=
  match loc with
  | None => pl = 0 /\ plb = [] /\ ps = []
  | Some loc => props_ok loc ps /\ pl = props.size ps /\ pl <= max_variable_bytes /\ plb = val_to_variable_bytes pl
  end.

Lemma make_property_length_Ok loc ps buf :
  Forall property_ok ps -> (loc = None -> ps = []) -> props.size ps <= max_variable_bytes ->
  make_property_length loc ps = Ok buf -> property_part_ok loc (props.size ps) buf ps.
Proof.
  intros Hps Hn Hmax H. destruct loc as [loc|]; simpl in *.
  - bind_inv. match goal with H : variable_length_buf _ = Ok _ |- _ => apply variable_length_buf_Ok in H end. subst.
    split; [|done]. by eapply Forall_validated.
  - injection H as <-. by rewrite Hn.
Qed.

Lemma length_property_buffers loc pl plb ps :
  property_part_ok loc pl plb ps ->
  Z.of_nat (length (concat (property_buffers loc plb ps))) = Z.of_nat (length plb) + pl.
Proof.
  destruct loc as [loc|]; simpl; [|by intros (-> & -> & ->)]. intros (_ & -> & _).
  rewrite length_app. fold (props.bytes ps). rewrite props_size_bytes. lia.
Qed.

Lemma property_buffers_count loc pl plb ps :
  property_part_ok loc pl plb ps -> property_buffer_count loc plb ps = length (property_buffers loc plb ps).
Proof.
  destruct loc as [loc|]; simpl; [|done]. intros (_ & Hpl & Hmax & ->). pose proof (props_size_nonneg ps).
  rewrite decide_False; [by rewrite props_num_bufs|].
  pose proof (length_val_to_variable_bytes pl). lia.
Qed.

(** Reading the frame of what is serialized. *)
Lemma parse_frame_bytes cpt loc fh rl packet_id pl plb ps body :
  is_type cpt fh = true /\ u8 (to_byte fh) = fh -> length packet_id = pidb -> property_part_ok loc pl plb ps ->
  rl = Z.of_nat (length (packet_id ++ concat (property_buffers loc plb ps) ++ body)) -> rl <= max_variable_bytes ->
  parse_frame pidb cpt loc
    (to_byte fh :: val_to_variable_bytes rl ++ packet_id ++ concat (property_buffers loc plb ps) ++ body) =
  if bool_decide (body = []) then Err protocol_error
  else Ok (fh, (rl, val_to_variable_bytes rl), packet_id, (pl, plb, ps), body).
Proof.
  intros [Ht Hu] Hid Hp Hrl Hmax. unfold parse_frame. rewrite Hu, Ht. simpl.
  rewrite insert_advance_variable_length_encode by lia. simpl. rewrite <- Hrl, Z.eqb_refl. simpl.
  rewrite copy_advance_app by done. simpl. destruct loc as [loc|]; simpl in *.
  - destruct Hp as (Hps & Hpl & Hplm & Hplb). rewrite <- app_assoc. fold (props.bytes ps).
    rewrite (parse_property_field_bytes malformed loc plb ps pl) by done. simpl. by case_bool_decide.
  - destruct Hp as (-> & -> & ->). by case_bool_decide.
Qed.

(** *** Topic filters *)
Section topics.
Import entries_packet.
Context {entry : Type} {cls : topics_class entry} {made : entry -> Prop} {TOK : TopicsOk cls made}.
Abbreviation topic_bytes := (Topics.topic_bytes cls).
Abbreviation entry_size := (Topics.entry_size cls).
Implicit Types p : entries_packet entry.

Definition length_buf_of (e : entry) : list byte := endian_store 2 (Z.of_nat (length (topic_bytes e))).

Definition entry_bytes (e : entry) : list byte := concat (Topics.entry_buffers cls (length_buf_of e) e).

(** an entry the constructor lets through *)
Definition entry_ok (e : entry) : Prop :=
  made e /\ Z.of_nat (length (topic_bytes e)) <= 0xffff /\ tc_check cls e = Ok tt /\ utf8string_check (topic_bytes e) = true.

Lemma check_entries_Ok entries :
  Forall made entries -> forallb (fun e => Z.of_nat (length (topic_bytes e)) <=? 0xffff) entries = true ->
  Topics.check_entries cls entries = Ok tt -> Forall entry_ok entries.
Proof.
  induction entries as [|e entries IH]; intros Hm Hl H; [constructor|]. simpl in *. bind_inv.
  apply Forall_cons in Hm as [He Hm]. apply andb_true_iff in Hl as [Hle Hl]. constructor; [|by apply IH].
  split_and!; [done | lia | done | done].
Qed.

Lemma length_entry_bytes e : entry_ok e -> Z.of_nat (length (entry_bytes e)) = entry_size e.
Proof.
  intros (_ & Hl & _). unfold entry_bytes, Topics.entry_buffers, Topics.entry_size, length_buf_of. cbn [concat].
  rewrite !length_app, length_endian_store by lia. unfold topic_bytes. lia.
Qed.

Lemma parse_entry_bytes e rest :
  entry_ok e -> Topics.parse_entry cls (entry_bytes e ++ rest) = Ok (length_buf_of e, e, rest).
Proof.
  intros (Hm & Hl & Hc & Hu). unfold Topics.parse_entry, entry_bytes, Topics.entry_buffers. cbn [concat].
  rewrite <- !app_assoc, parse_utf8_field_bytes by (done || by apply field_ok_length). simpl.
  unfold topic_bytes, Topics.topic_bytes. rewrite <- topics_made by done. by rewrite topics_parse.
Qed.

Lemma parse_entries_bytes entries fuel :
  Forall entry_ok entries -> (length (concat (map entry_bytes entries)) <= fuel)%nat ->
  Topics.parse_entries cls fuel (concat (map entry_bytes entries)) = Ok (map length_buf_of entries, entries).
Proof.
  revert fuel. induction entries as [|e entries IH]; intros fuel Hok Hf; simpl in *; [by destruct fuel|].
  apply Forall_cons in Hok as [He Hok]. pose proof (length_entry_bytes e He) as Hl. unfold Topics.entry_size in Hl.
  rewrite length_app in Hf. destruct (entry_bytes e ++ concat (map entry_bytes entries)) as [|b l] eqn:Hb.
  { apply (f_equal length) in Hb. rewrite length_app in Hb. simpl in Hb. lia. }
  destruct fuel as [|fuel]; [lia|]. cbn [Topics.parse_entries]. rewrite <- Hb, parse_entry_bytes by done. simpl.
  rewrite IH by (done || lia). done.
Qed.

Lemma entries_buffers entries :
  concat (concat (zip_with (Topics.entry_buffers cls) (map length_buf_of entries) entries)) =
  concat (map entry_bytes entries).
Proof. induction entries as [|e entries IH]; [done|]. cbn [map zip_with concat]. by rewrite concat_app, IH. Qed.

Lemma length_entries_bytes entries :
  Forall entry_ok entries -> Z.of_nat (length (concat (map entry_bytes entries))) = Topics.entries_size cls entries.
Proof.
  intros H. unfold Topics.entries_size.
  enough (forall acc, fold_left (fun total e => total + entry_size e) entries acc =
    acc + Z.of_nat (length (concat (map entry_bytes entries)))) as -> by lia.
  induction H as [|e entries He H IH]; intros acc; simpl; [lia|]. rewrite IH, length_app.
  rewrite <- length_entry_bytes by done. lia.
Qed.

Lemma concat_entries_nil entries :
  Forall entry_ok entries -> concat (map entry_bytes entries) = [] <-> entries = [].
Proof.
  intros H. split; [|by intros ->]. destruct H as [|e entries He]; [done|]. simpl. intros [Hb _]%app_eq_nil.
  pose proof (length_entry_bytes e He) as Hl. rewrite Hb in Hl. unfold Topics.entry_size in Hl. simpl in Hl. lia.
Qed.

(** What the constructor builds. *)
Lemma make_topics_Ok pid entries ps p :
  Forall made entries -> Forall property_ok ps -> (tc_location cls = None -> ps = []) ->
  Topics.make pidb cls pid entries ps = Ok p -> remaining_length_ p <= max_variable_bytes ->
  Forall entry_ok entries /\ (tc_refuse_empty cls = true -> entries <> []) /\
  p = mk_entries (make_fixed_header (tc_type cls) 2) (map length_buf_of entries) entries (endian_store pidb pid)
    (remaining_length_ p) (val_to_variable_bytes (remaining_length_ p)) (props.size ps) (property_length_buf_ p) ps /\
  property_part_ok (tc_location cls) (props.size ps) (property_length_buf_ p) ps /\
  remaining_length_ p = Z.of_nat pidb + (Z.of_nat (length (property_length_buf_ p)) + props.size ps) +
    Topics.entries_size cls entries.
Proof.
  intros Hm Hps Hn H Hmax. unfold Topics.make in H. bind_inv. subst p. simpl in *.
  repeat match goal with H : variable_length_buf _ = Ok _ |- _ => apply variable_length_buf_Ok in H; subst end.
  match goal with H : Topics.check_entries _ _ = _ |- _ => apply check_entries_Ok in H; [rename H into He|done..] end.
  match goal with H : negb _ = true |- _ => rename H into Hr end.
  match goal with H : make_property_length _ _ = _ |- _ => rename H into Hl end.
  pose proof (length_entries_bytes entries He) as Hz.
  split_and!; [done | | done | | done].
  - intros Ht ->. by rewrite Ht in Hr.
  - eapply make_property_length_Ok; try done. lia.
Qed.

(** The bytes of what it builds, and reading them. *)
Lemma parse_topics_bytes pid entries ps p :
  0 <= pid < 256 ^ Z.of_nat pidb -> Forall made entries -> Forall property_ok ps -> (tc_location cls = None -> ps = []) ->
  Topics.make pidb cls pid entries ps = Ok p -> remaining_length_ p <= max_variable_bytes ->
  Topics.parse pidb cls (concat (Topics.const_buffer_sequence cls p)) =
    (if bool_decide (entries = []) then Err protocol_error else Ok p) /\
  Topics.size p = Z.of_nat (length (concat (Topics.const_buffer_sequence cls p))).
Proof.
  intros Hpid Hm Hps Hn H Hmax. apply make_topics_Ok in H as (He & _ & Hp & Hpp & Hrl); try done.
  assert (Hc : concat (Topics.const_buffer_sequence cls p) =
    to_byte (make_fixed_header (tc_type cls) 2) :: val_to_variable_bytes (remaining_length_ p) ++ endian_store pidb pid ++
    concat (property_buffers (tc_location cls) (property_length_buf_ p) ps) ++ concat (map entry_bytes entries)).
  { rewrite Hp. unfold Topics.const_buffer_sequence. cbn [concat app fixed_header_ remaining_length_buf_ packet_id_
      property_length_buf_ props_ topic_length_buf_entries_ entries_ remaining_length_].
    by rewrite concat_app, entries_buffers. }
  pose proof (length_property_buffers _ _ _ _ Hpp) as Hlp. pose proof (length_entries_bytes _ He) as Hle.
  assert (Hb : remaining_length_ p = Z.of_nat (length (endian_store pidb pid ++
    concat (property_buffers (tc_location cls) (property_length_buf_ p) ps) ++ concat (map entry_bytes entries)))).
  { rewrite !length_app, length_endian_store by done. lia. }
  rewrite Hc. split.
  - unfold Topics.parse. rewrite (parse_frame_bytes _ _ _ _ _ (props.size ps)); [|apply topics_header | by apply length_endian_store | done..].
    rewrite (bool_decide_ext _ _ (concat_entries_nil entries He)). case_bool_decide as Hz; [done|].
    cbn [result_bind]. rewrite parse_entries_bytes by (done || lia). cbn [result_bind]. by rewrite <- Hp.
  - assert (Hrb : remaining_length_buf_ p = val_to_variable_bytes (remaining_length_ p)) by (by rewrite Hp).
    unfold Topics.size, framed_size. rewrite Hrb. cbn [length]. rewrite length_app. lia.
Qed.

(** a SUBSCRIBE or UNSUBSCRIBE of either version that the constructor
    builds, and whose remaining length a variable byte integer can carry,
    is read back from what it serializes to, with its packet identifier;
    but without entries, which only the constructor of the v3.1.1 SUBSCRIBE
    refuses, the parser reports a protocol error. *)
Theorem topics_roundtrip pid entries ps p :
  0 <= pid < 256 ^ Z.of_nat pidb -> Forall made entries -> Forall property_ok ps -> (tc_location cls = None -> ps = []) ->
  Topics.make pidb cls pid entries ps = Ok p -> remaining_length_ p <= max_variable_bytes ->
  Topics.parse pidb cls (concat (Topics.const_buffer_sequence cls p)) =
    (if bool_decide (entries = []) then Err protocol_error else Ok p) /\
  (tc_refuse_empty cls = true -> entries <> []) /\
  Topics.size p = Z.of_nat (length (concat (Topics.const_buffer_sequence cls p))) /\
  load_packet_id pidb (packet_id_ p) = pid /\ entries_ p = entries /\ props_ p = ps.
Proof.
  intros Hpid Hm Hps Hn H Hmax. destruct (parse_topics_bytes _ _ _ _ Hpid Hm Hps Hn H Hmax) as [H1 H2].
  apply make_topics_Ok in H as (_ & Hr & Hp & _); try done. split_and!; try done; rewrite Hp; simpl; try done.
  by apply store_load_packet_id.
Qed.
End topics.

(** *** Codes *)

(** What a class of code packets has to satisfy. *)
Class CodesOk (cls : codes_class) : Prop := {
  codes_header : let fh := make_fixed_header (cc_type cls) 0 in is_type (cc_type cls) fh = true /\ u8 (to_byte fh) = fh;
  codes_bytes : forallb (fun c => (0 <=? c) && (c <? 256)) (cc_codes cls) = true;
}.

Section codes.
Import entries_packet.
Context {cls : codes_class} {COK : CodesOk cls}.
Implicit Types p : code_packet.

Lemma parse_codes_bytes codes :
  Forall (fun c => In c (cc_codes cls)) codes -> Codes.parse_codes cls (map to_byte codes) = Ok codes.
Proof.
  pose proof codes_bytes as Hb. rewrite forallb_forall in Hb.
  induction 1 as [|c codes Hc _ IH]; [done|]. cbn [map Codes.parse_codes].
  rewrite u8_to_byte_small by (specialize (Hb c Hc); lia).
  rewrite (proj2 (existsb_exists _ _)) by (exists c; split; [done | apply Z.eqb_refl]). simpl. by rewrite IH.
Qed.

(** A SUBACK of either version or a v5 UNSUBACK that the constructor
    builds with codes of its enumeration is read back from what it
    serializes to, with its packet identifier; without codes the parser
    reports a protocol error. *)
Lemma codes_roundtrip pid codes ps p :
  0 <= pid < 256 ^ Z.of_nat pidb -> Forall (fun c => In c (cc_codes cls)) codes -> Forall property_ok ps ->
  (cc_location cls = None -> ps = []) ->
  Codes.make pidb cls pid codes ps = Ok p -> remaining_length_ p <= max_variable_bytes ->
  Codes.parse pidb cls (concat (Codes.const_buffer_sequence cls p)) =
    (if bool_decide (codes = []) then Err protocol_error else Ok p) /\
  Codes.size p = Z.of_nat (length (concat (Codes.const_buffer_sequence cls p))) /\
  load_packet_id pidb (packet_id_ p) = pid /\ entries_ p = codes /\ props_ p = ps.
Proof.
  intros Hpid Hc Hps Hn H Hmax. unfold Codes.make in H. bind_inv.
  match goal with H : make_property_length _ _ = Ok ?b |- _ => rename H into Hl; rename b into plb end.
  match goal with H : variable_length_buf _ = _ |- _ => apply variable_length_buf_Ok in H; subst end. simpl in *.
  apply make_property_length_Ok in Hl; try done; [|lia].
  pose proof (length_property_buffers _ _ _ _ Hl) as Hlp. unfold Codes.const_buffer_sequence. cbn [concat app fixed_header_
    remaining_length_buf_ packet_id_ property_length_buf_ props_ entries_ remaining_length_].
  rewrite concat_app. cbn [concat]. rewrite app_nil_r.
  match goal with |- context[val_to_variable_bytes ?rl] => assert (Hb : rl = Z.of_nat (length (endian_store pidb pid ++
    concat (property_buffers (cc_location cls) plb ps) ++ map to_byte codes))) end.
  { rewrite !length_app, length_endian_store, length_map by done. lia. }
  split_and!; try done; [| | by apply store_load_packet_id].
  - unfold Codes.parse. rewrite (parse_frame_bytes _ _ _ _ _ (props.size ps));
      [|apply codes_header | by apply length_endian_store | done..].
    replace (bool_decide (map to_byte codes = [])) with (bool_decide (codes = [])) by (apply bool_decide_ext; by destruct codes). case_bool_decide as Hz; [done|].
    cbn [result_bind]. by rewrite parse_codes_bytes.
  - unfold Codes.size, framed_size. cbn [remaining_length_buf_ remaining_length_ length]. rewrite length_app. lia.
Qed.
End codes.
End facts.

#[export] Instance v3_suback_ok : CodesOk v3_suback_class.
Proof. by split; vm_compute. Qed.
#[export] Instance v5_suback_ok : CodesOk v5_suback_class.
Proof. by split; vm_compute. Qed.
#[export] Instance v5_unsuback_ok : CodesOk v5_unsuback_class.
Proof. by split; vm_compute. Qed.

Section examples.
#[local] Existing Instances BigEndian.big_endian BigEndian.big_endian_ok.

(** "$share/g/t" with QoS 1, and "a" with QoS 2 and no local *)
Definition example_entries : list topic_subopts :=
  [mk_topic_subopts (make_topic_sharename [x24; x73; x68; x61; x72; x65; x2f; x67; x2f; x74]) 1;
   mk_topic_subopts (make_topic_sharename [x61]) 6].

Lemma example_sharename :
  make_topic_sharename [x24; x73; x68; x61; x72; x65; x2f; x67; x2f; x74] =
  mk_topic_sharename [x24; x73; x68; x61; x72; x65; x2f; x67; x2f; x74] [x74] [x67].
Proof. reflexivity. Qed.

Lemma topics_roundtrip_witness :
  (exists p, Topics.make_v5_subscribe 2 7 example_entries [] = Ok p /\
    Topics.parse_v5_subscribe 2 (concat (Topics.const_buffer_sequence v5_subscribe_class p)) = Ok p) /\
  (exists p, Topics.make_v5_unsubscribe 2 7 [] [] = Ok p /\
    Topics.parse_v5_unsubscribe 2 (concat (Topics.const_buffer_sequence v5_unsubscribe_class p)) = Err protocol_error).
Proof.
  split; eexists; (split; [reflexivity|]).
  - refine (proj1 (topics_roundtrip 2 _ (made := made_subopts) 7 example_entries [] _ _ _ _ _ _ _)); try done; try lia.
    repeat constructor; simpl; lia.
  - refine (proj1 (topics_roundtrip 2 _ (made := made_topic) 7 [] [] _ _ _ _ _ _ _)); done || lia || constructor.
Defined.

End examples.
