(* ===== verification/ConnectPacket.v ===== *)
(** * CONNECT and v5 CONNACK

    packet/impl/v3_1_1_connect.ipp, v5_connect.ipp, v5_connack.ipp,
    connect_flags.hpp and packet/will.hpp.  A CONNECT that does not parse is
    reported in the category of the CONNACK codes, but for its properties. *)
From S2P Require Import Prelude Boost Utf8 Wire Error Property Field Packet PublishPacket ControlPacket EntryPacket.

Definition connect_malformed : error_code := connect_ec connect_reason_code.malformed_packet.
Definition unsupported_version : error_code := connect_ec connect_reason_code.unsupported_protocol_version.

(** ** connect_flags.hpp *)
Module connect_flags.
Definition has_will_flag (v : Z) : bool := negb (Z.land v 0x04 =? 0).
Definition will_retain (v : Z) : bool := negb (Z.land v 0x20 =? 0).
Definition has_password_flag (v : Z) : bool := negb (Z.land v 0x40 =? 0).
Definition has_user_name_flag (v : Z) : bool := negb (Z.land v 0x80 =? 0).
Definition set_will_qos (v q : Z) : Z := Z.lor v (Z.shiftl q 3 mod 256).
Definition will_qos (v : Z) : Z := Z.shiftr (Z.land v 0x18) 3.
End connect_flags.

(** ** will.hpp *)
Record will := make_will {
  topic : list byte;
  message : list byte;
  pubopts : Z;
  will_props : properties;
}.

(** ** What both versions share *)
Section shared.
Context {BE : BoostEndian}.

(** [connect_flags_] as the constructor fills it *)
Definition make_flags (clean user_name password : bool) (w : option will) : Z :=
  let flags := if clean then 0x02 else 0 in
  let flags := if user_name then Z.lor flags 0x80 else flags in
  let flags := if password then Z.lor flags 0x40 else flags in
  match w with
  | None => flags
  | Some w =>
    let flags := Z.lor flags 0x04 in
    let flags := if pub.is_retain (pubopts w) then Z.lor flags 0x20 else flags in
    connect_flags.set_will_qos flags (pub.get_qos (pubopts w))
  end.

(** [boost::numeric_cast<std::uint16_t>] of a size *)
Definition size_buf (s : list byte) : result (list byte) :=
  if 0xffff <? Z.of_nat (length s) then Err bad_numeric_cast else Ok (endian_store 2 (Z.of_nat (length s))).

(** an optional string: the content and its length field, which are empty
    without it *)
Definition make_optional (check : list byte -> bool) (s : option (list byte)) : result (list byte * list byte) :=
  match s with
  | None => Ok ([], [])
  | Some s =>
    (check? check s else connect_malformed in
     let? length_buf := size_buf s in
     Ok (s, length_buf))%result
  end.

(** the topic and the message of the will, with their length fields *)
Definition make_will_fields (w : option will) : result (list byte * list byte * list byte * list byte) :=
  match w with
  | None => Ok ([], [], [], [])
  | Some w =>
    (check? utf8string_check (topic w) else connect_malformed in
     let? topic_length_buf := size_buf (topic w) in
     check? Z.of_nat (length (message w)) <=? 0xffff else connect_malformed in
     let? message_length_buf := size_buf (message w) in
     Ok (topic w, topic_length_buf, message w, message_length_buf))%result
  end.

Definition optional_size (s : option (list byte)) : Z :=
  match s with None => 0 | Some s => 2 + Z.of_nat (length s) end.

Definition will_size (w : option will) : Z :=
  match w with None => 0 | Some w => 2 + Z.of_nat (length (topic w)) + 2 + Z.of_nat (length (message w)) end.

(** "\0\4MQTT" and the level *)
Definition protocol_name_and_level (level : byte) : list byte := [x00; x04; x4d; x51; x54; x54; level].

(** fixed header, lengths, protocol name and level, flags, keep alive *)
Definition parse_connect_head (level : byte) (buf : list byte)
    : result (Z * (Z * list byte) * list byte * Z * list byte * list byte) :=
  match buf with
  | [] => Err connect_malformed
  | fixed_header :: buf =>
    (check? is_type control_packet_type.connect (u8 fixed_header) else connect_malformed in
     let? (remaining_length, remaining_length_buf, buf) :=
       or_error (insert_advance_variable_length buf) connect_malformed in
     check? remaining_length =? Z.of_nat (length buf) else connect_malformed in
     let? (name_and_level, buf) := or_error (insert_advance 7 buf) connect_malformed in
     check? bool_decide (name_and_level = protocol_name_and_level level) else unsupported_version in
     match buf with
     | [] => Err connect_malformed
     | flags :: buf =>
       check? Z.land (u8 flags) 1 =? 0 else connect_malformed in
       let? (keep_alive_buf, buf) := or_error (insert_advance 2 buf) connect_malformed in
       Ok (u8 fixed_header, (remaining_length, remaining_length_buf), name_and_level, u8 flags, keep_alive_buf, buf)
     end)%result
  end.

(** the bits of the will with the will flag clear *)
Definition check_no_will (flags : Z) : result unit :=
  (check? negb (connect_flags.will_retain flags) else connect_malformed in
   guard (connect_flags.will_qos flags =? qos.at_most_once) connect_malformed)%result.

(** topic and message, with their length fields *)
Definition parse_will_fields (buf : list byte)
    : result (list byte * list byte * list byte * list byte * list byte) :=
  (let? (topic_length_buf, topic, buf) := parse_utf8_field connect_malformed buf in
   let? (message_length_buf, message, buf) := parse_field connect_malformed buf in
   Ok (topic, topic_length_buf, message, message_length_buf, buf))%result.

Definition parse_user_name (flags : Z) (buf : list byte) : result (list byte * list byte * list byte) :=
  if connect_flags.has_user_name_flag flags then parse_utf8_field connect_malformed buf else Ok ([], [], buf).

(** the password has to end the packet; without one, bytes that are left
    are ignored *)
Definition parse_password (flags : Z) (buf : list byte) : result (list byte * list byte) :=
  if connect_flags.has_password_flag flags then
    (let? (length_buf, buf) := or_error (insert_advance 2 buf) connect_malformed in
     check? Z.of_nat (length buf) =? endian_load 2 length_buf else connect_malformed in
     Ok (length_buf, buf))%result
  else Ok ([], []).

Definition optional_buffers (flag : bool) (length_buf s : list byte) : list (list byte) :=
  if flag then [length_buf; s] else [].

Definition optional_value (flag : bool) (s : list byte) : option (list byte) := if flag then Some s else None.

(** [will_retain | will_qos] *)
Definition will_opts (flags : Z) : Z :=
  Z.lor (if connect_flags.will_retain flags then 1 else 0) (pub.opts_of_qos (connect_flags.will_qos flags)).
End shared.

(** ** v3_1_1::connect_packet *)
Module V3Connect.
Import v3_1_1 connect_flags.

Section connect.
Context {BE : BoostEndian}.
Implicit Types p : connect_packet.

Definition make (clean_session : bool) (keep_alive_sec : Z) (client_id : list byte) (w : option will)
    (user_name password : option (list byte)) : result connect_packet :=
  (let? client_id_length_buf := size_buf client_id in
   check? utf8string_check client_id else connect_malformed in
   let? (user_name_, user_name_length_buf) := make_optional utf8string_check user_name in
   let? (password_, password_length_buf) := make_optional (fun _ => true) password in
   let? (will_topic, will_topic_length_buf, will_message, will_message_length_buf) := make_will_fields w in
   let remaining_length :=
     2 + 4 + 1 + 1 + 2 + 2 + Z.of_nat (length client_id) + optional_size user_name + optional_size password + will_size w in
   let? remaining_length_buf := variable_length_buf remaining_length in
   Ok (mk_connect (make_fixed_header control_packet_type.connect 0)
         (make_flags clean_session (bool_decide (is_Some user_name)) (bool_decide (is_Some password)) w)
         remaining_length remaining_length_buf (protocol_name_and_level x04)
         client_id client_id_length_buf will_topic will_topic_length_buf will_message will_message_length_buf
         user_name_ user_name_length_buf password_ password_length_buf (endian_store 2 keep_alive_sec)))%result.

Definition const_buffer_sequence p : list (list byte) :=
  let flags := connect_flags_ p in
  [[to_byte (fixed_header_ p)]; remaining_length_buf_ p; protocol_name_and_level_ p; [to_byte flags];
   keep_alive_buf_ p; client_id_length_buf_ p; client_id_ p] ++
  (if has_will_flag flags
   then [will_topic_length_buf_ p; will_topic_ p; will_message_length_buf_ p; will_message_ p] else []) ++
  optional_buffers (has_user_name_flag flags) (user_name_length_buf_ p) (user_name_ p) ++
  optional_buffers (has_password_flag flags) (password_length_buf_ p) (password_ p).

Definition size p : Z := framed_size (remaining_length_buf_ p) (remaining_length_ p).

Definition num_of_const_buffer_sequence p : nat :=
  1 + 1 + 1 + 1 + 1 + 2 + (if has_will_flag (connect_flags_ p) then 2 + 2 else 0) +
  (if has_user_name_flag (connect_flags_ p) then 2 else 0) + (if has_password_flag (connect_flags_ p) then 2 else 0).

Definition user_name p : option (list byte) := optional_value (has_user_name_flag (connect_flags_ p)) (user_name_ p).
Definition password p : option (list byte) := optional_value (has_password_flag (connect_flags_ p)) (password_ p).
Definition get_will p : option will :=
  if has_will_flag (connect_flags_ p)
  then Some (make_will (will_topic_ p) (will_message_ p) (will_opts (connect_flags_ p)) []) else None.

Definition parse_will (flags : Z) (buf : list byte)
    : result (list byte * list byte * list byte * list byte * list byte) :=
  if has_will_flag flags then
    (check? is_qos (will_qos flags) else connect_malformed in
     parse_will_fields buf)%result
  else (let? _ := check_no_will flags in Ok ([], [], [], [], buf))%result.

Definition parse (buf : list byte) : result connect_packet :=
  (let? (fixed_header, (remaining_length, remaining_length_buf), name_and_level, flags, keep_alive_buf, buf) :=
     parse_connect_head x04 buf in
   let? (client_id_length_buf, client_id, buf) := parse_utf8_field connect_malformed buf in
   let? (will_topic, will_topic_length_buf, will_message, will_message_length_buf, buf) := parse_will flags buf in
   let? (user_name_length_buf, user_name, buf) := parse_user_name flags buf in
   let? (password_length_buf, password) := parse_password flags buf in
   Ok (mk_connect fixed_header flags remaining_length remaining_length_buf name_and_level client_id client_id_length_buf
         will_topic will_topic_length_buf will_message will_message_length_buf
         user_name user_name_length_buf password password_length_buf keep_alive_buf))%result.
End connect.
End V3Connect.

(** ** v5::connect_packet *)
Module V5Connect.
Import v5 connect_flags.

Section connect.
Context {BE : BoostEndian}.
Implicit Types p : connect_packet.

(** the properties of the will and their length; the code leaves
    [will_property_length_] without value when there is no will *)
Definition make_will_props (w : option will) : result (Z * list byte * properties) :=
  match w with
  | None => Ok (0, [], [])
  | Some w =>
    (let? buf := variable_length_buf (props.size (will_props w)) in
     check? forallb (fun prop => validate_property property_location.will (pv.id prop)) (will_props w) else connect_malformed in
     Ok (props.size (will_props w), buf, will_props w))%result
  end.

Definition make (clean_start : bool) (keep_alive_sec : Z) (client_id : list byte) (w : option will)
    (user_name password : option (list byte)) (ps : properties) : result connect_packet :=
  (let? property_length_buf := variable_length_buf (props.size ps) in
   let? client_id_length_buf := size_buf client_id in
   check? utf8string_check client_id else connect_malformed in
   let? (user_name_, user_name_length_buf) := make_optional utf8string_check user_name in
   let? (password_, password_length_buf) := make_optional (fun _ => true) password in
   check? forallb (fun prop => validate_property property_location.connect (pv.id prop)) ps else connect_malformed in
   let? (will_topic, will_topic_length_buf, will_message, will_message_length_buf) := make_will_fields w in
   let? (will_property_length, will_property_length_buf, will_ps) := make_will_props w in
   let remaining_length :=
     2 + 4 + 1 + 1 + 2 + 2 + Z.of_nat (length client_id) + optional_size user_name + optional_size password +
     (Z.of_nat (length property_length_buf) + props.size ps) +
     (Z.of_nat (length will_property_length_buf) + will_property_length + will_size w) in
   let? remaining_length_buf := variable_length_buf remaining_length in
   Ok (mk_connect (make_fixed_header control_packet_type.connect 0)
         (make_flags clean_start (bool_decide (is_Some user_name)) (bool_decide (is_Some password)) w)
         remaining_length remaining_length_buf (protocol_name_and_level x05)
         client_id client_id_length_buf will_topic will_topic_length_buf will_message will_message_length_buf
         will_property_length will_property_length_buf will_ps
         user_name_ user_name_length_buf password_ password_length_buf (endian_store 2 keep_alive_sec)
         (props.size ps) property_length_buf ps))%result.

Definition const_buffer_sequence p : list (list byte) :=
  let flags := connect_flags_ p in
  [[to_byte (fixed_header_ p)]; remaining_length_buf_ p; protocol_name_and_level_ p; [to_byte flags];
   keep_alive_buf_ p; property_length_buf_ p] ++ props.const_buffer_sequence (props_ p) ++
  [client_id_length_buf_ p; client_id_ p] ++
  (if has_will_flag flags
   then will_property_length_buf_ p :: props.const_buffer_sequence (will_props_ p) ++
     [will_topic_length_buf_ p; will_topic_ p; will_message_length_buf_ p; will_message_ p] else []) ++
  optional_buffers (has_user_name_flag flags) (user_name_length_buf_ p) (user_name_ p) ++
  optional_buffers (has_password_flag flags) (password_length_buf_ p) (password_ p).

Definition size p : Z := framed_size (remaining_length_buf_ p) (remaining_length_ p).

Definition num_of_const_buffer_sequence p : nat :=
  1 + 1 + 1 + 1 + 1 + 1 + props.num_of_const_buffer_sequence (props_ p) + 2 +
  (if has_will_flag (connect_flags_ p) then 1 + props.num_of_const_buffer_sequence (will_props_ p) + 2 + 2 else 0) +
  (if has_user_name_flag (connect_flags_ p) then 2 else 0) + (if has_password_flag (connect_flags_ p) then 2 else 0).

Definition user_name p : option (list byte) := optional_value (has_user_name_flag (connect_flags_ p)) (user_name_ p).
Definition password p : option (list byte) := optional_value (has_password_flag (connect_flags_ p)) (password_ p).
Definition get_will p : option will :=
  if has_will_flag (connect_flags_ p)
  then Some (make_will (will_topic_ p) (will_message_ p) (will_opts (connect_flags_ p)) (will_props_ p)) else None.

Definition parse_will (flags : Z) (buf : list byte)
    : result (list byte * list byte * list byte * list byte * (Z * list byte * properties) * list byte) :=
  if has_will_flag flags then
    (check? is_qos (will_qos flags) else connect_malformed in
     let? (pl, plb, ps, buf) := parse_property_field connect_malformed property_location.will buf in
     let? (topic, topic_length_buf, message, message_length_buf, buf) := parse_will_fields buf in
     Ok (topic, topic_length_buf, message, message_length_buf, (pl, plb, ps), buf))%result
  else (let? _ := check_no_will flags in Ok ([], [], [], [], (0, [], []), buf))%result.

Definition parse (buf : list byte) : result connect_packet :=
  (let? (fixed_header, (remaining_length, remaining_length_buf), name_and_level, flags, keep_alive_buf, buf) :=
     parse_connect_head x05 buf in
   let? (property_length, property_length_buf, ps, buf) :=
     parse_property_field connect_malformed property_location.connect buf in
   let? (client_id_length_buf, client_id, buf) := parse_utf8_field connect_malformed buf in
   let? (will_topic, will_topic_length_buf, will_message, will_message_length_buf, (wpl, wplb, wps), buf) :=
     parse_will flags buf in
   let? (user_name_length_buf, user_name, buf) := parse_user_name flags buf in
   let? (password_length_buf, password) := parse_password flags buf in
   Ok (mk_connect fixed_header flags remaining_length remaining_length_buf name_and_level client_id client_id_length_buf
         will_topic will_topic_length_buf will_message will_message_length_buf wpl wplb wps
         user_name user_name_length_buf password password_length_buf keep_alive_buf
         property_length property_length_buf ps))%result.
End connect.
End V5Connect.

(** ** v5::connack_packet: parsing; its constructor is in ControlPacket *)
Module V5Connack.
Import v5_connack.

Section connack.
Context {BE : BoostEndian}.
Implicit Types p : connack_packet.

(** the enumerators of [connect_reason_code] *)
Definition reason_codes : list Z :=
  [0x00; 0x80; 0x81; 0x82; 0x83; 0x84; 0x85; 0x86; 0x87; 0x88; 0x89; 0x8a; 0x8c; 0x90; 0x95; 0x97; 0x99; 0x9a;
   0x9b; 0x9c; 0x9d; 0x9f].

Definition const_buffer_sequence p : list (list byte) :=
  [[to_byte (fixed_header_ p)]; remaining_length_buf_ p; [to_byte (connect_acknowledge_flags_ p)];
   [to_byte (reason_code_ p)]; property_length_buf_ p] ++ props.const_buffer_sequence (props_ p).

Definition size p : Z := framed_size (remaining_length_buf_ p) (remaining_length_ p).

Definition num_of_const_buffer_sequence p : nat :=
  1 + 1 + 1 + 1 + 1 + props.num_of_const_buffer_sequence (props_ p).

Definition session_present p : bool := v5_connack_session_present p.
Definition code p : Z := reason_code_ p.

(** the reason code is read without a look at the size: a packet that ends
    with its flags is read beyond its end *)
Definition parse (buf : list byte) : result connack_packet :=
  match buf with
  | [] => Err malformed
  | fixed_header :: buf =>
    (check? is_type control_packet_type.connack (u8 fixed_header) else malformed in
     let? (remaining_length, remaining_length_buf, buf) := or_error (insert_advance_variable_length buf) malformed in
     check? remaining_length =? Z.of_nat (length buf) else malformed in
     match buf with
     | [] => Err malformed
     | flags :: buf =>
       check? Z.land (u8 flags) 0xfe =? 0 else malformed in
       let? (code, buf) := front buf in
       check? existsb (Z.eqb (u8 code)) reason_codes else malformed in
       let? (pl, plb, ps, buf) := parse_property_field malformed property_location.connack buf in
       check? bool_decide (buf = []) else malformed in
       Ok (mk_connack (u8 fixed_header) remaining_length remaining_length_buf (u8 flags) (u8 code) pl plb ps)
     end)%result
  end.
End connack.
End V5Connack.

(** ** Facts *)

(** the will has one of the three QoS *)
Definition will_ok (w : option will) : Prop :=
  match w with None => True | Some w => 0 <= pubopts w < 256 /\ pub.get_qos (pubopts w) <= 2 end.

(** What the flags say. *)
Lemma make_flags_spec clean user password w :
  will_ok w ->
  let f := make_flags clean user password w in
  0 <= f < 256 /\ Z.land f 1 = 0 /\ negb (Z.land f 2 =? 0) = clean /\
  connect_flags.has_user_name_flag f = user /\ connect_flags.has_password_flag f = password /\
  connect_flags.has_will_flag f = bool_decide (is_Some w) /\
  connect_flags.will_retain f = from_option (fun w => pub.is_retain (pubopts w)) false w /\
  connect_flags.will_qos f = from_option (fun w => pub.get_qos (pubopts w)) 0 w.
Proof.
  destruct w as [w|]; cbn [will_ok from_option make_flags].
  - intros [_ Hq]. pose proof (get_qos_range (pubopts w)). rewrite bool_decide_true by eauto.
    assert (Hc : pub.get_qos (pubopts w) = 0 \/ pub.get_qos (pubopts w) = 1 \/ pub.get_qos (pubopts w) = 2) by lia.
    destruct Hc as [-> | [-> | ->]]; destruct clean, user, password, (pub.is_retain (pubopts w)); by vm_compute.
  - intros _. destruct clean, user, password; by vm_compute.
Qed.

(** the dup bit is not carried by the flags *)
Lemma will_opts_bits opts :
  0 <= opts < 256 ->
  Z.lor (if pub.is_retain opts then 1 else 0) (pub.opts_of_qos (pub.get_qos opts)) = Z.land opts 7.
Proof.
  intros Ho. rewrite <- (u8_to_byte_small opts) by done. generalize (to_byte opts). intros b.
  apply Z.eqb_eq. revert b. apply forall_bytes. by vm_compute.
Qed.

Section facts.
Context {BE : BoostEndian} {BEO : BoostEndianOk}.

Lemma size_buf_Ok s length_buf : size_buf s = Ok length_buf -> field_ok s length_buf.
Proof.
  unfold size_buf. destruct (Z.ltb_spec 0xffff (Z.of_nat (length s))); [done|]. intros [= <-]. by apply field_ok_length.
Qed.

Lemma make_optional_Ok check s content length_buf :
  make_optional check s = Ok (content, length_buf) ->
  match s with
  | None => content = [] /\ length_buf = []
  | Some s => content = s /\ field_ok s length_buf /\ check s = true
  end.
Proof.
  destruct s as [s|]; simpl; intros H; bind_inv; [|by subst].
  match goal with H : size_buf _ = _ |- _ => apply size_buf_Ok in H end. by subst.
Qed.

Lemma make_will_fields_Ok w t tb m mb :
  make_will_fields w = Ok (t, tb, m, mb) ->
  match w with
  | None => t = [] /\ tb = [] /\ m = [] /\ mb = []
  | Some w => t = topic w /\ m = message w /\ field_ok t tb /\ field_ok m mb /\ utf8string_check t = true
  end.
Proof.
  destruct w as [w|]; simpl; intros H; bind_inv; [|by subst].
  repeat match goal with H : size_buf _ = _ |- _ => apply size_buf_Ok in H end. by subst.
Qed.

Lemma length_field_ok s length_buf : field_ok s length_buf -> Z.of_nat (length length_buf) = 2.
Proof. intros H. apply field_load in H as [H _]. lia. Qed.

(** *** Reading what is serialized *)

Lemma parse_connect_head_bytes level rl flags keep_alive_buf body :
  length keep_alive_buf = 2%nat -> 0 <= flags < 256 -> Z.land flags 1 = 0 ->
  rl = 10 + Z.of_nat (length body) -> rl <= max_variable_bytes ->
  parse_connect_head level (to_byte 0x10 :: val_to_variable_bytes rl ++ protocol_name_and_level level ++
    to_byte flags :: keep_alive_buf ++ body) =
  Ok (0x10, (rl, val_to_variable_bytes rl), protocol_name_and_level level, flags, keep_alive_buf, body).
Proof.
  intros Hk Hf H1 Hrl Hmax. unfold parse_connect_head. change (u8 (to_byte 0x10)) with 0x10.
  change (is_type control_packet_type.connect 0x10) with true. cbn [guard result_bind].
  rewrite insert_advance_variable_length_encode by lia. cbn [or_error result_bind].
  rewrite (proj2 (Z.eqb_eq _ _)) by (rewrite length_app; cbn [length]; rewrite length_app; simpl; lia). cbn [guard result_bind].
  rewrite insert_advance_app by done. cbn [or_error result_bind]. rewrite bool_decide_true by done. cbn [guard result_bind].
  rewrite u8_to_byte_small, H1 by done. cbn [Z.eqb guard result_bind]. by rewrite insert_advance_app.
Qed.

Lemma parse_user_name_bytes flags length_buf s rest :
  (if connect_flags.has_user_name_flag flags then field_ok s length_buf /\ utf8string_check s = true
   else s = [] /\ length_buf = []) ->
  parse_user_name flags (concat (optional_buffers (connect_flags.has_user_name_flag flags) length_buf s) ++ rest) =
  Ok (length_buf, s, rest).
Proof.
  unfold parse_user_name, optional_buffers. destruct (connect_flags.has_user_name_flag flags).
  - intros [H Hu]. cbn [concat]. rewrite app_nil_r, <- app_assoc. by apply parse_utf8_field_bytes.
  - by intros [-> ->].
Qed.

Lemma parse_password_bytes flags length_buf s :
  (if connect_flags.has_password_flag flags then field_ok s length_buf else s = [] /\ length_buf = []) ->
  parse_password flags (concat (optional_buffers (connect_flags.has_password_flag flags) length_buf s)) = Ok (length_buf, s).
Proof.
  unfold parse_password, optional_buffers. destruct (connect_flags.has_password_flag flags).
  - intros H. apply field_load in H as [Hl Hn]. cbn [concat]. rewrite app_nil_r, insert_advance_app by done. simpl.
    by rewrite Hn, Z.eqb_refl.
  - by intros [-> ->].
Qed.

Lemma parse_will_fields_bytes t tb m mb rest :
  field_ok t tb -> field_ok m mb -> utf8string_check t = true ->
  parse_will_fields (tb ++ t ++ mb ++ m ++ rest) = Ok (t, tb, m, mb, rest).
Proof.
  intros Ht Hm Hu. unfold parse_will_fields. rewrite parse_utf8_field_bytes by done. simpl.
  by rewrite parse_field_bytes.
Qed.

(** An optional field, its length and its value. *)
Lemma make_optional_bytes check s content length_buf flag :
  make_optional check s = Ok (content, length_buf) -> flag = bool_decide (is_Some s) ->
  (if flag then field_ok content length_buf /\ check content = true else content = [] /\ length_buf = []) /\
  Z.of_nat (length (concat (optional_buffers flag length_buf content))) = optional_size s /\
  optional_value flag content = s.
Proof.
  intros H ->. apply make_optional_Ok in H. destruct s as [s|].
  - rewrite bool_decide_true by eauto. destruct H as (-> & Hf & Hc). split; [done|]. split; [|done].
    apply length_field_ok in Hf. cbn [optional_buffers concat optional_size]. rewrite !length_app. simpl. lia.
  - rewrite bool_decide_false by (by intros [? ?]). by destruct H as [-> ->].
Qed.

Lemma will_fields_length w t tb m mb :
  make_will_fields w = Ok (t, tb, m, mb) ->
  Z.of_nat (length (tb ++ t ++ mb ++ m)) = will_size w.
Proof.
  intros H. apply make_will_fields_Ok in H. destruct w as [w|]; [|by destruct H as (-> & -> & -> & ->)].
  destruct H as (-> & -> & Ht & Hm & _). apply length_field_ok in Ht, Hm. cbn [will_size]. rewrite !length_app. lia.
Qed.

Lemma optional_size_nonneg s : 0 <= optional_size s.
Proof. destruct s; simpl; lia. Qed.

Lemma will_size_nonneg w : 0 <= will_size w.
Proof. destruct w; simpl; lia. Qed.

(** The flags, the user name and the password of what a constructor
    builds. *)
Lemma connect_parts clean user password w u ub pw pb :
  will_ok w -> make_optional utf8string_check user = Ok (u, ub) -> make_optional (fun _ => true) password = Ok (pw, pb) ->
  let flags := make_flags clean (bool_decide (is_Some user)) (bool_decide (is_Some password)) w in
  let user_bytes := concat (optional_buffers (connect_flags.has_user_name_flag flags) ub u) in
  let password_bytes := concat (optional_buffers (connect_flags.has_password_flag flags) pb pw) in
  (0 <= flags < 256 /\ Z.land flags 1 = 0 /\ negb (Z.land flags 2 =? 0) = clean) /\
  (forall rest, parse_user_name flags (user_bytes ++ rest) = Ok (ub, u, rest)) /\
  parse_password flags password_bytes = Ok (pb, pw) /\
  Z.of_nat (length user_bytes) = optional_size user /\ Z.of_nat (length password_bytes) = optional_size password /\
  optional_value (connect_flags.has_user_name_flag flags) u = user /\
  optional_value (connect_flags.has_password_flag flags) pw = password.
Proof.
  intros Hw Hu Hp. cbv zeta.
  pose proof (make_flags_spec clean (bool_decide (is_Some user)) (bool_decide (is_Some password)) w Hw)
    as (Hf & Hf0 & Hcl & Hfu & Hfp & _).
  apply make_optional_bytes with (1 := Hu) in Hfu as (Hu1 & Hu2 & Hu3).
  apply make_optional_bytes with (1 := Hp) in Hfp as (Hp1 & Hp2 & Hp3).
  split; [exact (conj Hf (conj Hf0 Hcl))|]. split; [intros rest; by apply parse_user_name_bytes|]. split; [|done].
  apply parse_password_bytes. by destruct (connect_flags.has_password_flag _); [destruct Hp1|].
Qed.

(** The will flag and the options of the will. *)
Lemma will_flags clean user password w :
  will_ok w -> let flags := make_flags clean user password w in
  connect_flags.has_will_flag flags = bool_decide (is_Some w) /\
  match w with
  | Some w => is_qos (connect_flags.will_qos flags) = true /\ will_opts flags = Z.land (pubopts w) 7
  | None => check_no_will flags = Ok tt
  end.
Proof.
  intros Hw. cbv zeta. pose proof (make_flags_spec clean user password w Hw) as (_ & _ & _ & _ & _ & Hf & Hr & Hq).
  split; [done|]. destruct w as [w|]; cbn [from_option] in Hr, Hq.
  - destruct Hw as [Ho Hw]. unfold will_opts. rewrite Hr, Hq, will_opts_bits by done. split; [|done].
    pose proof (get_qos_range (pubopts w)). unfold is_qos, qos.at_most_once, qos.at_least_once, qos.exactly_once. simpl. lia.
  - unfold check_no_will. by rewrite Hr, Hq.
Qed.

Section v3.
Import v3_1_1.
Implicit Types p : connect_packet.

(** what a v3.1.1 CONNECT has of a will *)
Definition v3_will (w : will) : will := make_will (topic w) (message w) (Z.land (pubopts w) 7) [].

(** The will in what a constructor builds. *)
Lemma v3_will_bytes clean user password w t tb m mb :
  will_ok w -> make_will_fields w = Ok (t, tb, m, mb) ->
  let flags := make_flags clean user password w in
  let will_bytes := concat (if connect_flags.has_will_flag flags then [tb; t; mb; m] else []) in
  (forall rest, V3Connect.parse_will flags (will_bytes ++ rest) = Ok (t, tb, m, mb, rest)) /\
  Z.of_nat (length will_bytes) = will_size w /\
  (if connect_flags.has_will_flag flags then Some (make_will t m (will_opts flags) []) else None) = option_map v3_will w.
Proof.
  intros Hw H. cbv zeta. pose proof (will_flags clean user password w Hw) as [Hf Hd].
  pose proof (will_fields_length _ _ _ _ _ H) as Hl. apply make_will_fields_Ok in H. unfold V3Connect.parse_will.
  rewrite Hf. destruct w as [w|]; [rewrite bool_decide_true by eauto | rewrite bool_decide_false by (by intros [? ?])].
  - destruct Hd as [-> ->]. destruct H as (-> & -> & Ht & Hm & Hu). cbn [guard result_bind concat]. rewrite app_nil_r.
    split_and!; [|done..]. intros rest. rewrite <- !app_assoc. by apply parse_will_fields_bytes.
  - rewrite Hd. by destruct H as (-> & -> & -> & ->).
Qed.

(** A v3.1.1 CONNECT the constructor builds, with a will of QoS 0, 1 or
    2 and a remaining length a variable byte integer can carry, is read back
    from what it serializes to, and its accessors give the arguments, but for
    the dup bit and the properties of the will, which are dropped. *)
Lemma v3_connect_roundtrip clean keep_alive client_id w user password p :
  0 <= keep_alive < 65536 -> will_ok w ->
  V3Connect.make clean keep_alive client_id w user password = Ok p -> remaining_length_ p <= max_variable_bytes ->
  V3Connect.parse (concat (V3Connect.const_buffer_sequence p)) = Ok p /\
  V3Connect.size p = Z.of_nat (length (concat (V3Connect.const_buffer_sequence p))) /\
  v3_clean_session p = clean /\ v3_keep_alive p = keep_alive /\ client_id_ p = client_id /\
  V3Connect.user_name p = user /\ V3Connect.password p = password /\ V3Connect.get_will p = option_map v3_will w.
Proof.
  intros Hk Hw H Hmax. unfold V3Connect.make in H. bind_inv.
  match goal with H : variable_length_buf _ = _ |- _ => apply variable_length_buf_Ok in H; subst end.
  match goal with H : size_buf _ = _ |- _ => apply size_buf_Ok in H; rename H into Hc end.
  match goal with Hu : make_optional _ user = _, Hp : make_optional _ password = _ |- _ =>
    destruct (connect_parts clean _ _ w _ _ _ _ Hw Hu Hp) as ((Hf & Hf0 & Hcl) & Hu1 & Hp1 & Hu2 & Hp2 & Hu3 & Hp3) end.
  match goal with H : make_will_fields _ = _ |- _ =>
    destruct (v3_will_bytes clean (bool_decide (is_Some user)) (bool_decide (is_Some password)) _ _ _ _ _ Hw H) as (Hw1 & Hw2 & Hw3) end.
  assert (Hka : length (endian_store 2 keep_alive) = 2%nat) by (apply length_endian_store; lia).
  unfold V3Connect.size, V3Connect.const_buffer_sequence, framed_size. set (flags := make_flags _ _ _ w) in *.
  simpl remaining_length_ in Hmax. pose proof (length_field_ok _ _ Hc) as Hl2.
  cbn [fixed_header_ connect_flags_ remaining_length_ remaining_length_buf_ protocol_name_and_level_ client_id_
    client_id_length_buf_ will_topic_ will_topic_length_buf_ will_message_ will_message_length_buf_ user_name_
    user_name_length_buf_ password_ password_length_buf_ keep_alive_buf_ concat app].
  rewrite !concat_app. split_and!; [| | exact Hcl | | done | exact Hu3 | exact Hp3 | exact Hw3].
  - unfold V3Connect.parse. rewrite parse_connect_head_bytes; [|done..| |done].
    2: { rewrite !length_app. lia. }
    cbn [result_bind]. rewrite parse_utf8_field_bytes by done. cbn [result_bind]. rewrite Hw1. cbn [result_bind].
    rewrite Hu1. cbn [result_bind]. by rewrite Hp1.
  - cbn [length]. rewrite !length_app. cbn [length]. rewrite !length_app. cbn [length protocol_name_and_level]. lia.
  - unfold v3_keep_alive. simpl. rewrite <- (app_nil_r (endian_store _ _)). apply load_of_store. lia.
Qed.
End v3.

Section v5.
Import v5.
Implicit Types p : connect_packet.

(** what a v5 CONNECT has of a will *)
Definition v5_will (w : will) : will := make_will (topic w) (message w) (Z.land (pubopts w) 7) (will_props w).

Definition will_props_ok (w : option will) : Prop :=
  match w with None => True | Some w => Forall property_ok (will_props w) end.

Lemma make_will_props_Ok w pl plb ps :
  will_props_ok w -> V5Connect.make_will_props w = Ok (pl, plb, ps) -> pl <= max_variable_bytes ->
  match w with
  | None => pl = 0 /\ plb = [] /\ ps = []
  | Some w => ps = will_props w /\ property_part_ok (Some property_location.will) pl plb ps
  end.
Proof.
  intros Hps H Hmax. destruct w as [w|]; simpl in H; bind_inv; [|by subst].
  match goal with H : variable_length_buf _ = _ |- _ => apply variable_length_buf_Ok in H end. subst.
  split; [done|]. split; [by apply Forall_validated | done].
Qed.

Lemma make_will_props_nonneg w pl plb ps : V5Connect.make_will_props w = Ok (pl, plb, ps) -> 0 <= pl.
Proof. destruct w as [w|]; simpl; intros H; bind_inv; subst; [apply props_size_nonneg | lia]. Qed.

(** The will in what a constructor builds. *)
Lemma v5_will_bytes clean user password w t tb m mb pl plb ps :
  will_ok w -> will_props_ok w -> make_will_fields w = Ok (t, tb, m, mb) ->
  V5Connect.make_will_props w = Ok (pl, plb, ps) -> pl <= max_variable_bytes ->
  let flags := make_flags clean user password w in
  let will_bytes := concat (if connect_flags.has_will_flag flags
    then plb :: props.const_buffer_sequence ps ++ [tb; t; mb; m] else []) in
  (forall rest, V5Connect.parse_will flags (will_bytes ++ rest) = Ok (t, tb, m, mb, (pl, plb, ps), rest)) /\
  Z.of_nat (length will_bytes) = Z.of_nat (length plb) + pl + will_size w /\
  (if connect_flags.has_will_flag flags then Some (make_will t m (will_opts flags) ps) else None) = option_map v5_will w.
Proof.
  intros Hw Hps H Hmp Hmax. cbv zeta. pose proof (will_flags clean user password w Hw) as [Hf Hd].
  pose proof (will_fields_length _ _ _ _ _ H) as Hl. apply make_will_fields_Ok in H.
  apply make_will_props_Ok in Hmp; [|done..]. unfold V5Connect.parse_will.
  rewrite Hf. destruct w as [w|]; [rewrite bool_decide_true by eauto | rewrite bool_decide_false by (by intros [? ?])].
  - destruct Hd as [-> ->]. destruct H as (-> & -> & Ht & Hm & Hu). destruct Hmp as (-> & Hpp & Hpl & _ & Hplb).
    cbn [guard result_bind concat]. rewrite concat_app. cbn [concat]. rewrite app_nil_r.
    fold (props.bytes (will_props w)). split_and!; [| |done].
    + intros rest. rewrite <- !app_assoc, (parse_property_field_bytes connect_malformed property_location.will plb _ pl) by done.
      cbn [result_bind]. by rewrite parse_will_fields_bytes.
    + rewrite length_app, length_app, Hpl, props_size_bytes. lia.
  - rewrite Hd. by destruct H as (-> & -> & -> & ->), Hmp as (-> & -> & ->).
Qed.

(** A v5 CONNECT the constructor builds, with a will of QoS 0, 1 or 2
    and a remaining length a variable byte integer can carry, is read back
    from what it serializes to, and its accessors give the arguments, but for
    the dup bit of the will, which is dropped. *)
Lemma v5_connect_roundtrip clean keep_alive client_id w user password ps p :
  0 <= keep_alive < 65536 -> will_ok w -> will_props_ok w -> Forall property_ok ps ->
  V5Connect.make clean keep_alive client_id w user password ps = Ok p -> remaining_length_ p <= max_variable_bytes ->
  V5Connect.parse (concat (V5Connect.const_buffer_sequence p)) = Ok p /\
  V5Connect.size p = Z.of_nat (length (concat (V5Connect.const_buffer_sequence p))) /\
  v5_clean_start p = clean /\ v5_keep_alive p = keep_alive /\ client_id_ p = client_id /\ props_ p = ps /\
  V5Connect.user_name p = user /\ V5Connect.password p = password /\ V5Connect.get_will p = option_map v5_will w.
Proof.
  intros Hk Hw Hwp Hps H Hmax. unfold V5Connect.make in H. bind_inv.
  repeat match goal with H : variable_length_buf _ = _ |- _ => apply variable_length_buf_Ok in H; subst end.
  match goal with H : size_buf _ = _ |- _ => apply size_buf_Ok in H; rename H into Hc end.
  match goal with Hu : make_optional _ user = _, Hp : make_optional _ password = _ |- _ =>
    destruct (connect_parts clean _ _ w _ _ _ _ Hw Hu Hp) as ((Hf & Hf0 & Hcl) & Hu1 & Hp1 & Hu2 & Hp2 & Hu3 & Hp3) end.
  assert (Hka : length (endian_store 2 keep_alive) = 2%nat) by (apply length_endian_store; lia).
  simpl remaining_length_ in Hmax. pose proof (props_size_nonneg ps) as Hp0. pose proof (length_field_ok _ _ Hc) as Hl2.
  pose proof (optional_size_nonneg user). pose proof (optional_size_nonneg password). pose proof (will_size_nonneg w).
  match goal with Hf : make_will_fields _ = _, Hp : V5Connect.make_will_props _ = _ |- _ =>
    pose proof (make_will_props_nonneg _ _ _ _ Hp);
    destruct (v5_will_bytes clean (bool_decide (is_Some user)) (bool_decide (is_Some password)) _ _ _ _ _ _ _ _ Hw Hwp Hf Hp)
      as (Hw1 & Hw2 & Hw3); [lia|] end.
  unfold V5Connect.size, V5Connect.const_buffer_sequence, framed_size. set (flags := make_flags _ _ _ w) in *.
  cbn [fixed_header_ connect_flags_ remaining_length_ remaining_length_buf_ protocol_name_and_level_ client_id_
    client_id_length_buf_ will_topic_ will_topic_length_buf_ will_message_ will_message_length_buf_ user_name_
    user_name_length_buf_ password_ password_length_buf_ keep_alive_buf_ property_length_buf_ props_
    will_property_length_buf_ will_props_ concat app].
  rewrite !concat_app. cbn [concat app]. rewrite !concat_app. fold (props.bytes ps). pose proof (props_size_bytes ps) as Hpb.
  split_and!; [| | exact Hcl | | done | done | exact Hu3 | exact Hp3 | exact Hw3].
  - unfold V5Connect.parse. rewrite parse_connect_head_bytes; [|done..| |done].
    2: { rewrite !length_app. lia. }
    cbn [result_bind]. rewrite (parse_property_field_bytes connect_malformed property_location.connect _ _ (props.size ps));
      [|by apply Forall_validated | done | lia | done]. cbn [result_bind].
    rewrite parse_utf8_field_bytes by done. cbn [result_bind]. rewrite Hw1. cbn [result_bind].
    rewrite Hu1. cbn [result_bind]. by rewrite Hp1.
  - cbn [length]. rewrite !length_app. cbn [length]. rewrite !length_app. cbn [length protocol_name_and_level]. lia.
  - unfold v5_keep_alive. simpl. rewrite <- (app_nil_r (endian_store _ _)). apply load_of_store. lia.
Qed.
End v5.

Section connack.
Import v5_connack.
Implicit Types p : connack_packet.

(** A v5 CONNACK the constructor builds with one of the reason codes,
    and whose remaining length a variable byte integer can carry, is read
    back from what it serializes to. *)
Lemma v5_connack_roundtrip session_present code ps p :
  In code V5Connack.reason_codes -> Forall property_ok ps ->
  Connack.make_v5_connack session_present code ps = Ok p -> remaining_length_ p <= max_variable_bytes ->
  V5Connack.parse (concat (V5Connack.const_buffer_sequence p)) = Ok p /\
  V5Connack.size p = Z.of_nat (length (concat (V5Connack.const_buffer_sequence p))) /\
  V5Connack.session_present p = session_present /\ V5Connack.code p = code /\ props_ p = ps.
Proof.
  intros Hc Hps H Hmax. unfold Connack.make_v5_connack in H. bind_inv.
  repeat match goal with H : variable_length_buf _ = _ |- _ => apply variable_length_buf_Ok in H; subst end.
  simpl remaining_length_ in Hmax. pose proof (props_size_nonneg ps). pose proof (props_size_bytes ps) as Hpb.
  assert (Hb : 0 <= code < 256).
  { pose proof (eq_refl : forallb (fun c => (0 <=? c) && (c <? 256)) V5Connack.reason_codes = true) as Hr.
    rewrite forallb_forall in Hr. specialize (Hr _ Hc). lia. }
  unfold V5Connack.size, V5Connack.const_buffer_sequence, framed_size.
  cbn [fixed_header_ remaining_length_ remaining_length_buf_ connect_acknowledge_flags_ reason_code_ property_length_
    property_length_buf_ props_ concat app].
  fold (props.bytes ps). split_and!; [| | by destruct session_present | done..].
  - unfold V5Connack.parse. change (is_type _ (u8 (to_byte (make_fixed_header control_packet_type.connack 0)))) with true.
    cbn [guard result_bind]. rewrite insert_advance_variable_length_encode by lia. cbn [or_error result_bind].
    rewrite (proj2 (Z.eqb_eq _ _)) by (cbn [length]; rewrite length_app; lia). cbn [guard result_bind].
    replace (Z.land _ 0xfe =? 0) with true by (by destruct session_present). cbn [guard result_bind front].
    rewrite u8_to_byte_small by done.
    rewrite (proj2 (existsb_exists _ _)) by (exists code; split; [done | apply Z.eqb_refl]). cbn [guard result_bind].
    rewrite <- (app_nil_r (props.bytes ps)),
      (parse_property_field_bytes malformed property_location.connack _ _ (props.size ps));
      [|by apply Forall_validated | done | lia | done].
    by destruct session_present.
  - cbn [length]. rewrite length_app. cbn [length]. rewrite length_app. lia.
Qed.
End connack.
End facts.

(** A v5 CONNACK that ends with its flags: the parser reads the reason code
    behind the end of the packet. *)
Lemma v5_connack_short `{BE : BoostEndian} flags :
  Z.land (u8 flags) 0xfe = 0 -> V5Connack.parse [x20; x01; flags] = Undef.
Proof. intros Hf. unfold V5Connack.parse. simpl. by rewrite Hf. Qed.

(** for the witnesses *)
Definition example_will : will := make_will [x77] [x62; x79; x65] 3 [].
