(* ===== verification/Store.v ===== *)
(** * The store of packets to send again

    protocol/packet/store_packet_variant.hpp and protocol/impl/store.hpp: the
    QoS 1 and 2 PUBLISH packets and the PUBREL packets that wait for a
    response, in the order they were added, unique by the response they wait
    for and the packet identifier.  [erase_publish], which nothing calls, is
    left out: it names an index tag the container does not have. *)
From S2P Require Import Prelude Boost Wire Error Property Packet.

#[export] Instance fixed_packet_eq_dec : EqDecision fixed_packet.
Proof. solve_decision. Defined.
#[export] Instance v3_publish_eq_dec : EqDecision v3_publish.publish_packet.
Proof. solve_decision. Defined.
#[export] Instance v5_publish_eq_dec : EqDecision v5_publish.publish_packet.
Proof. solve_decision. Defined.
#[export] Instance v5_ack_eq_dec : EqDecision v5_ack.ack_packet.
Proof. solve_decision. Defined.

(** ** [basic_store_packet_variant] *)

Inductive response_packet :=
| res_v3_1_1_puback | res_v3_1_1_pubrec | res_v3_1_1_pubcomp | res_v5_puback | res_v5_pubrec | res_v5_pubcomp.

#[export] Instance response_packet_eq_dec : EqDecision response_packet.
Proof. solve_decision. Defined.

(** the value of the enumerator *)
Definition response_number (r : response_packet) : Z :=
  match r with
  | res_v3_1_1_puback => 0 | res_v3_1_1_pubrec => 1 | res_v3_1_1_pubcomp => 2
  | res_v5_puback => 3 | res_v5_pubrec => 4 | res_v5_pubcomp => 5
  end.

(** [variant_t] *)
Inductive stored :=
| stored_v3_publish (p : v3_publish.publish_packet)
| stored_v3_pubrel (p : fixed_packet)
| stored_v5_publish (p : v5_publish.publish_packet)
| stored_v5_pubrel (p : v5_ack.ack_packet).

Record store_packet_variant := mk_store_packet { res_ : response_packet; var_ : stored }.

#[export] Instance stored_eq_dec : EqDecision stored.
Proof. solve_decision. Defined.
#[export] Instance store_packet_variant_eq_dec : EqDecision store_packet_variant.
Proof. solve_decision. Defined.

(** the constructors, [None] when they throw and for the packets that have
    no constructor *)
Definition make_store_packet (pv : packet_variant) : option store_packet_variant :=
  match pv with
  | v3_1_1_publish p =>
    let q := pub.get_qos (v3_publish.fixed_header_ p) in
    if q =? qos.at_least_once then Some (mk_store_packet res_v3_1_1_puback (stored_v3_publish p))
    else if q =? qos.exactly_once then Some (mk_store_packet res_v3_1_1_pubrec (stored_v3_publish p))
    else None
  | v3_1_1_pubrel p => Some (mk_store_packet res_v3_1_1_pubcomp (stored_v3_pubrel p))
  | v5_publish p =>
    let q := pub.get_qos (v5_publish.fixed_header_ p) in
    if q =? qos.at_least_once then Some (mk_store_packet res_v5_puback (stored_v5_publish p))
    else if q =? qos.exactly_once then Some (mk_store_packet res_v5_pubrec (stored_v5_publish p))
    else None
  | v5_pubrel p => Some (mk_store_packet res_v5_pubcomp (stored_v5_pubrel p))
  | _ => None
  end.

(** [operator basic_packet_variant] *)
Definition stored_packet (s : stored) : packet_variant :=
  match s with
  | stored_v3_publish p => v3_1_1_publish p
  | stored_v3_pubrel p => v3_1_1_pubrel p
  | stored_v5_publish p => v5_publish p
  | stored_v5_pubrel p => v5_pubrel p
  end.

Definition store_packet (e : store_packet_variant) : packet_variant := stored_packet (var_ e).

Definition response_packet_type (e : store_packet_variant) : response_packet := res_ e.

Definition store_packet_size (e : store_packet_variant) : Z := packet_size (store_packet e).

Section store.
Context {BE : BoostEndian} {BMI : BoostMultiIndex}.
Variable pidb : nat.

Definition store_packet_id (e : store_packet_variant) : Z := packet_id pidb (store_packet e).

(** the first MessageExpiryInterval of a v5 PUBLISH *)
Fixpoint first_message_expiry_interval (ps : properties) : Z :=
  match ps with
  | [] => 0
  | message_expiry_interval p :: _ => uint_val 4 p
  | _ :: ps => first_message_expiry_interval ps
  end.

Definition get_message_expiry_interval (e : store_packet_variant) : Z :=
  match var_ e with
  | stored_v5_publish p => first_message_expiry_interval (v5_publish.props_ p)
  | _ => 0
  end.

(** *** [store] *)

(** the composite key, compared lexicographically *)
Definition store_lt (a b : store_packet_variant) : bool :=
  (response_number (res_ a) <? response_number (res_ b)) ||
  ((response_number (res_ a) =? response_number (res_ b)) && (store_packet_id a <? store_packet_id b)).

Definition mi_elem : list (index store_packet_variant) := [sequenced; ordered_unique store_lt].

Definition store : Type := mi mi_elem.

Definition empty_store : store := mi_empty.

(** the sequenced index *)
Definition elems (t : store) : list store_packet_variant := mi_range 0 t.

Definition add (packet : packet_variant) (t : store) : store * bool :=
  match packet with
  | v3_1_1_publish p =>
    if is_qos12 (pub.get_qos (v3_publish.fixed_header_ p)) then
      match make_store_packet packet with Some e => mi_emplace e t | None => (t, false) end
    else (t, false)
  | v5_publish p =>
    if is_qos12 (pub.get_qos (v5_publish.fixed_header_ p)) then
      match make_store_packet packet with Some e => mi_emplace e t | None => (t, false) end
    else (t, false)
  | v3_1_1_pubrel _ | v5_pubrel _ =>
    match make_store_packet packet with Some e => mi_emplace e t | None => (t, false) end
  | _ => (t, false)
  end.

Definition has_key (r : response_packet) (packet_id : Z) (e : store_packet_variant) : bool :=
  (response_number (res_ e) =? response_number r) && (store_packet_id e =? packet_id).

(** a lookup in the second index *)
Definition erase (r : response_packet) (packet_id : Z) (t : store) : store * bool :=
  match List.find (has_key r packet_id) (mi_range 1 t) with
  | None => (t, false)
  | Some it => (mi_erase it t, true)
  end.

Definition clear (t : store) : store := mi_empty.

(** the callback may change a state of its own *)
Fixpoint for_each_loop {S} (func : store_packet_variant -> S -> bool * S) (l : list store_packet_variant)
    (t : store) (s : S) : store * S :=
  match l with
  | [] => (t, s)
  | it :: l =>
    let (keep, s) := func it s in
    for_each_loop func l (if keep then t else mi_erase it t) s
  end.

Definition for_each {S} (func : store_packet_variant -> S -> bool * S) (t : store) (s : S) : store * S :=
  for_each_loop func (elems t) t s.

Definition get_stored (t : store) : list store_packet_variant := elems t.
End store.

(** ** Facts *)

Section store_facts.
Context {BE : BoostEndian} {BMI : BoostMultiIndex} {BMO : BoostMultiIndexOk}.
Variable pidb : nat.
Implicit Types t : store pidb.

Definition store_key (e : store_packet_variant) : response_packet * Z := (res_ e, store_packet_id pidb e).

(** Class invariant: no two packets wait for the same response. *)
Definition store_ok t : Prop := mi_ok t /\ NoDup (map store_key (elems pidb t)).

Lemma response_number_inj a b : response_number a = response_number b -> a = b.
Proof. by destruct a, b. Qed.

Lemma has_key_iff r i e : has_key pidb r i e = true <-> store_key e = (r, i).
Proof.
  unfold has_key, store_key. rewrite andb_true_iff, !Z.eqb_eq. split.
  - intros [Hr ->]. by rewrite (response_number_inj _ _ Hr).
  - by intros [= -> ->].
Qed.

Lemma store_conflict x y : conflicts (mi_elem pidb) x y = has_key pidb (res_ x) (store_packet_id pidb x) y.
Proof.
  unfold conflicts, equiv_by, store_lt, has_key. cbn [existsb mi_elem]. rewrite orb_false_r. unfold store_lt.
  generalize (response_number (res_ x)) (response_number (res_ y)) (store_packet_id pidb x) (store_packet_id pidb y).
  intros a b c d. lia.
Qed.

Lemma empty_store_ok : store_ok (empty_store pidb).
Proof. split; [apply mi_ok_empty|]. unfold elems, empty_store. rewrite mi_range_empty. constructor. Qed.

Lemma elems_empty : elems pidb (empty_store pidb) = [].
Proof. apply mi_range_empty. Qed.

Lemma unique_for_has_key r i (l : list store_packet_variant) :
  NoDup (map store_key l) -> unique_for (has_key pidb r i) l.
Proof.
  intros Hd. apply (unique_key store_key); [done|]. intros x y Hx%has_key_iff Hy%has_key_iff. congruence.
Qed.

Lemma elems_by_key t r i :
  store_ok t -> List.find (has_key pidb r i) (mi_range 1 t) = List.find (has_key pidb r i) (elems pidb t).
Proof.
  intros [Hok Hd]. assert (Hp : elems pidb t ≡ₚ mi_range 1 t) by (apply mi_range_perm; [done | simpl; lia..]).
  symmetry. apply find_perm; [done | by apply unique_for_has_key].
Qed.

(** *** The abstract store: a list of packets with distinct keys *)

Definition key_free (r : response_packet) (i : Z) (l : list store_packet_variant) : bool :=
  negb (existsb (has_key pidb r i) l).

(** PUBLISH with QoS 1 or 2, or PUBREL, that is not there yet *)
Definition spec_add (packet : packet_variant) (l : list store_packet_variant) : list store_packet_variant * bool :=
  match make_store_packet packet with
  | Some e => if key_free (res_ e) (store_packet_id pidb e) l then (l ++ [e], true) else (l, false)
  | None => (l, false)
  end.

Definition spec_erase (r : response_packet) (i : Z) (l : list store_packet_variant)
    : list store_packet_variant * bool :=
  (List.filter (fun e => negb (has_key pidb r i e)) l, negb (key_free r i l)).

(** the packets for which the callback returns true *)
Fixpoint spec_for_each {S} (func : store_packet_variant -> S -> bool * S) (l : list store_packet_variant) (s : S)
    : list store_packet_variant * S :=
  match l with
  | [] => ([], s)
  | e :: l =>
    let (keep, s) := func e s in
    let (l', s) := spec_for_each func l s in
    ((if keep then e :: l' else l'), s)
  end.

Lemma key_free_iff r i l : key_free r i l = true <-> ~ (r, i) ∈ map store_key l.
Proof.
  unfold key_free. rewrite negb_true_iff, <- not_true_iff_false, existsb_exists, list_elem_of_fmap.
  split; intros Hn (e & H1 & H2); apply Hn; exists e.
  - split; [by apply list_elem_of_In | by apply has_key_iff].
  - apply has_key_iff in H2. by rewrite list_elem_of_In.
Qed.

Lemma emplace_store t e :
  store_ok t ->
  store_ok (fst (mi_emplace e t)) /\
  (elems pidb (fst (mi_emplace e t)), snd (mi_emplace e t)) =
    if key_free (res_ e) (store_packet_id pidb e) (elems pidb t) then (elems pidb t ++ [e], true)
    else (elems pidb t, false).
Proof.
  intros [Hok Hd]. destruct (key_free _ _ _) eqn:Hf.
  - destruct (mi_emplace_done t e) as (Hs & Hok' & Happ & _); [done| |].
    { intros y Hy. rewrite store_conflict. apply negb_true_iff in Hf. apply not_true_iff_false. intros Hc.
      apply not_true_iff_false in Hf. apply Hf, existsb_exists. exists y. by rewrite <- list_elem_of_In. }
    specialize (Happ eq_refl). unfold store_ok, elems. rewrite Happ, Hs. split; [|done]. split; [done|].
    apply key_free_iff in Hf. rewrite map_app. simpl. apply NoDup_app. split_and!; [done | |apply NoDup_singleton].
    intros k Hk Hin. apply list_elem_of_singleton in Hin. by subst.
  - assert (Hx : existsb (has_key pidb (res_ e) (store_packet_id pidb e)) (elems pidb t) = true)
      by (unfold key_free in Hf; by destruct (existsb _ _)).
    apply existsb_exists in Hx as (y & Hy & Hk). rewrite <- list_elem_of_In in Hy.
    rewrite (mi_emplace_fail t e y); [done|done|done|by rewrite store_conflict].
Qed.

Lemma filter_all (l : list store_packet_variant) p : (forall e, e ∈ l -> p e = true) -> List.filter p l = l.
Proof.
  induction l as [|e l IH]; intros H; simpl; [done|]. rewrite (H e) by (by left).
  rewrite IH; [done|]. intros x Hx. apply H. by right.
Qed.

Lemma erase_elem t e l1 l2 :
  store_ok t -> elems pidb t = l1 ++ e :: l2 ->
  store_ok (mi_erase e t) /\ elems pidb (mi_erase e t) = l1 ++ l2 /\
  l1 ++ l2 = List.filter (fun x => negb (has_key pidb (res_ e) (store_packet_id pidb e) x)) (elems pidb t).
Proof.
  intros [Hok Hd] Hl. destruct (mi_erase_spec t e) as (Hok' & He & _); [done| | |done|].
  { unfold elems in Hl. rewrite Hl. apply elem_of_app. right. by left. }
  { by apply (NoDup_map_NoDup store_key). }
  specialize (He 0%nat l1 l2 eq_refl Hl). fold (elems pidb (mi_erase e t)) in He.
  rewrite Hl, map_app in Hd. simpl in Hd. rewrite NoDup_app, NoDup_cons in Hd.
  destruct Hd as (Hd1 & Hd12 & Hn & Hd2).
  split; [split; [done|]|split; [done|]].
  - rewrite He, map_app, NoDup_app. split_and!; [done | | done]. intros k Hk Hk'. apply (Hd12 k Hk). by right.
  - rewrite Hl, List.filter_app. simpl.
    replace (has_key pidb (res_ e) (store_packet_id pidb e) e) with true by (symmetry; by apply has_key_iff). simpl.
    rewrite !filter_all; [done | |]; intros x Hx; apply negb_true_iff, not_true_iff_false;
      intros Hk%has_key_iff.
    + apply Hn. unfold store_key at 1. rewrite <- Hk. apply list_elem_of_fmap. eauto.
    + apply (Hd12 (store_key x)); [apply list_elem_of_fmap; eauto | unfold store_key in Hk |- *; rewrite Hk; by left].
Qed.

Lemma add_refines packet t :
  store_ok t ->
  store_ok (fst (add pidb packet t)) /\
  (elems pidb (fst (add pidb packet t)), snd (add pidb packet t)) = spec_add packet (elems pidb t).
Proof.
  intros Ht. unfold spec_add.
  destruct packet; try done; simpl; unfold is_qos12; try (by apply emplace_store);
    (destruct (_ =? qos.at_least_once); [by apply emplace_store|]);
    (destruct (_ =? qos.exactly_once); [by apply emplace_store | done]).
Qed.

Lemma erase_refines r i t :
  store_ok t ->
  store_ok (fst (erase pidb r i t)) /\
  (elems pidb (fst (erase pidb r i t)), snd (erase pidb r i t)) = spec_erase r i (elems pidb t).
Proof.
  intros Ht. unfold erase, spec_erase. rewrite elems_by_key by done.
  destruct (List.find _ _) as [e|] eqn:Hf.
  - apply find_some in Hf as [He Hk]. apply has_key_iff in Hk as Hk'. unfold store_key in Hk'. injection Hk' as <- <-.
    assert (Hx : key_free (res_ e) (store_packet_id pidb e) (elems pidb t) = false).
    { unfold key_free. apply negb_false_iff, existsb_exists. eauto. }
    rewrite Hx. apply list_elem_of_In, list_elem_of_split in He as (l1 & l2 & Hl).
    destruct (erase_elem t e l1 l2 Ht Hl) as (Hok & Hel & Hfl). simpl. by rewrite Hel, Hfl.
  - assert (Hx : key_free r i (elems pidb t) = true).
    { unfold key_free. apply negb_true_iff, not_true_iff_false. intros (y & Hy & Hk)%existsb_exists.
      pose proof (find_none _ _ Hf y Hy). congruence. }
    rewrite Hx. simpl. split; [done|]. rewrite filter_all; [done|]. intros e He. apply list_elem_of_In in He.
    by rewrite (find_none _ _ Hf e He).
Qed.

Lemma for_each_loop_refines {S} (func : store_packet_variant -> S -> bool * S) l2 : forall l1 t s,
  store_ok t -> elems pidb t = l1 ++ l2 ->
  let r := for_each_loop pidb func l2 t s in
  store_ok (fst r) /\ (elems pidb (fst r), snd r) =
    (l1 ++ fst (spec_for_each func l2 s), snd (spec_for_each func l2 s)).
Proof.
  induction l2 as [|e l2 IH]; intros l1 t s Ht Hl; simpl; [by rewrite Hl|].
  destruct (func e s) as [[|] s'].
  - destruct (IH (l1 ++ [e]) t s' Ht) as [Hok Heq]; [by rewrite <- app_assoc|].
    split; [done|]. rewrite Heq. destruct (spec_for_each func l2 s') as [l' s'']. simpl. by rewrite <- app_assoc.
  - destruct (erase_elem t e l1 l2 Ht Hl) as (Hok' & Hel & _). destruct (IH l1 _ s' Hok' Hel) as [Hok Heq].
    split; [done|]. rewrite Heq. by destruct (spec_for_each func l2 s').
Qed.

Lemma for_each_refines {S} (func : store_packet_variant -> S -> bool * S) t s :
  store_ok t ->
  store_ok (fst (for_each pidb func t s)) /\
  (elems pidb (fst (for_each pidb func t s)), snd (for_each pidb func t s)) = spec_for_each func (elems pidb t) s.
Proof.
  intros Ht. destruct (for_each_loop_refines func (elems pidb t) [] t s Ht eq_refl) as [Hok Heq].
  split; [done|]. unfold for_each. rewrite Heq. simpl. by destruct (spec_for_each _ _ _).
Qed.

(** C24: the store refines a list of packets in insertion order with
    distinct keys (response, packet identifier): [add] appends a PUBLISH
    with QoS 1 or 2 or a PUBREL whose key is free and changes nothing
    otherwise, [erase] removes the packet with the key, [for_each] keeps the
    packets its callback accepts and runs it in order, and each returns
    what the list operation returns. *)
Theorem store_refines {S} packet r i (func : store_packet_variant -> S -> bool * S) t s :
  store_ok t ->
  (store_ok (fst (add pidb packet t)) /\
   (elems pidb (fst (add pidb packet t)), snd (add pidb packet t)) = spec_add packet (elems pidb t)) /\
  (store_ok (fst (erase pidb r i t)) /\
   (elems pidb (fst (erase pidb r i t)), snd (erase pidb r i t)) = spec_erase r i (elems pidb t)) /\
  (store_ok (fst (for_each pidb func t s)) /\
   (elems pidb (fst (for_each pidb func t s)), snd (for_each pidb func t s)) = spec_for_each func (elems pidb t) s) /\
  (store_ok (clear pidb t) /\ get_stored pidb (clear pidb t) = []) /\ get_stored pidb t = elems pidb t.
Proof.
  intros Ht. split; [by apply add_refines|]. split; [by apply erase_refines|]. split; [by apply for_each_refines|].
  split; [|done]. split; [apply empty_store_ok | apply elems_empty].
Qed.
End store_facts.

Section examples.
#[local] Existing Instances BigEndian.big_endian ListMultiIndex.list_multi_index ListMultiIndex.list_multi_index_ok.

Lemma store_refines_witness :
  let pubrel id := v3_1_1_pubrel (mk_fixed [x62; x02; x00; id]) in
  let t := fst (add 2 (pubrel x05) (fst (add 2 (pubrel x09) (empty_store 2)))) in
  store_ok 2 t /\ map (store_packet_id 2) (elems 2 t) = [9; 5].
Proof.
  cbv zeta.
  set (t0 := fst (add 2 (v3_1_1_pubrel (mk_fixed [x62; x02; x00; x09])) (empty_store 2))).
  assert (H0 : store_ok 2 t0) by exact (proj1 (add_refines 2 _ _ (empty_store_ok 2))).
  destruct (store_refines 2 (v3_1_1_pubrel (mk_fixed [x62; x02; x00; x05])) res_v5_puback 0
    (fun e n => (true, (n + 1)%nat)) t0 0%nat H0) as ((H & _) & _).
  split; [exact H | vm_compute; reflexivity].
Defined.
End examples.
