(* ===== verification/PacketBuilder.v ===== *)
(** * Assembling packets from received bytes

    [recv_packet_builder] of protocol/impl/connection_impl.hpp and
    connection_impl.ipp: a state machine that takes the bytes of a stream,
    stops after one packet and leaves the rest in the stream.  The received
    part of [raw_buf_], up to [raw_buf_ptr_], is a byte list; [read_packet_]
    is an error code or a packet's bytes.  [in_avail()] is the number of bytes
    of the stream, as for the buffers of a string stream. *)
From S2P Require Import Prelude Boost Wire Error.

(** an error, or the bytes of a packet *)
Inductive error_packet := ep_error (ec : error_code) | ep_packet (packet : list byte).

Inductive read_state := rs_fixed_header | rs_remaining_length | rs_payload.

Record recv_packet_builder := mk_builder {
  read_state_ : read_state;
  remaining_length_ : Z;
  multiplier_ : Z;
  header_remaining_length_buf_ : list byte;
  raw_buf_ : list byte;
  raw_buf_size_ : Z;
  read_packet_ : option error_packet;
}.

Definition make_builder : recv_packet_builder := mk_builder rs_fixed_header 0 1 [] [] 0 None.

Definition initialize (b : recv_packet_builder) : recv_packet_builder :=
  mk_builder rs_fixed_header 0 1 [] [] 0 (read_packet_ b).

Definition emplace (ep : error_packet) (b : recv_packet_builder) : recv_packet_builder :=
  mk_builder (read_state_ b) (remaining_length_ b) (multiplier_ b) (header_remaining_length_buf_ b)
    (raw_buf_ b) (raw_buf_size_ b) (Some ep).

Definition clear (b : recv_packet_builder) : recv_packet_builder :=
  mk_builder (read_state_ b) (remaining_length_ b) (multiplier_ b) (header_remaining_length_buf_ b)
    (raw_buf_ b) (raw_buf_size_ b) None.

Definition has_value (b : recv_packet_builder) : bool :=
  match read_packet_ b with Some _ => true | None => false end.

Definition packet_too_large : error_code := disconnect_ec disconnect_reason_code.packet_too_large.

(** one byte in the state [fixed_header] *)
Definition recv_fixed_header (fixed_header : byte) (b : recv_packet_builder) : recv_packet_builder :=
  mk_builder rs_remaining_length (remaining_length_ b) (multiplier_ b)
    (header_remaining_length_buf_ b ++ [fixed_header]) (raw_buf_ b) (raw_buf_size_ b) (read_packet_ b).

(** one byte in the state [remaining_length]; the flag says that the function
    returns.  No value reaches 2^28, so [std::size_t] does not wrap. *)
Definition recv_remaining_length (encoded_byte : byte) (b : recv_packet_builder) : recv_packet_builder * bool :=
  let header := header_remaining_length_buf_ b ++ [encoded_byte] in
  let remaining_length := remaining_length_ b + Z.land (u8 encoded_byte) 0x7f * multiplier_ b in
  let multiplier := multiplier_ b * 128 in
  if Z.land (u8 encoded_byte) 0x80 =? 0 then
    let raw_buf_size := Z.of_nat (length header) + remaining_length in
    let b := mk_builder (read_state_ b) remaining_length multiplier header header raw_buf_size (read_packet_ b) in
    if remaining_length =? 0 then (initialize (emplace (ep_packet (raw_buf_ b)) b), true)
    else (mk_builder rs_payload remaining_length multiplier header header raw_buf_size (read_packet_ b), false)
  else
    let b := mk_builder (read_state_ b) remaining_length multiplier header (raw_buf_ b) (raw_buf_size_ b) (read_packet_ b) in
    if multiplier =? 128 * 128 * 128 * 128 then (initialize (emplace (ep_error packet_too_large) b), true)
    else (b, false).

(** the state [payload], which always returns *)
Definition recv_payload (stream : list byte) (b : recv_packet_builder) : recv_packet_builder * list byte :=
  let copied := firstn (Z.to_nat (remaining_length_ b)) stream in
  let rest := skipn (Z.to_nat (remaining_length_ b)) stream in
  let copied_size := Z.of_nat (length copied) in
  if copied_size =? remaining_length_ b
  then (initialize (emplace (ep_packet (raw_buf_ b ++ copied)) b), rest)
  else (mk_builder (read_state_ b) (remaining_length_ b - copied_size) (multiplier_ b)
          (header_remaining_length_buf_ b) (raw_buf_ b ++ copied) (raw_buf_size_ b) (read_packet_ b), rest).

(** [recv(std::istream&)]: the builder and the bytes left in the stream *)
Fixpoint recv (stream : list byte) (b : recv_packet_builder) : recv_packet_builder * list byte :=
  match stream with
  | [] => (b, [])
  | c :: stream' =>
    match read_state_ b with
    | rs_fixed_header => recv stream' (recv_fixed_header c b)
    | rs_remaining_length =>
      let (b, finished) := recv_remaining_length c b in
      if finished then (b, stream') else recv stream' b
    | rs_payload => recv_payload stream b
    end
  end.

(** The calls that consume a stream: [recv], then the packet is taken as
    [process_recv_packet] takes it, until the stream is empty. *)
Fixpoint recv_loop (fuel : nat) (stream : list byte) (b : recv_packet_builder)
    : list error_packet * recv_packet_builder :=
  match fuel, stream with
  | S fuel, _ :: _ =>
    let (b, rest) := recv stream b in
    let (eps, b') := recv_loop fuel rest (clear b) in
    (match read_packet_ b with Some ep => ep :: eps | None => eps end, b')
  | _, _ => ([], b)
  end.

Definition recv_all (stream : list byte) (b : recv_packet_builder) := recv_loop (length stream) stream b.

(** ** The abstract builder: the bytes since the last packet *)

(** the bytes of a length of at most [n] bytes, [None] inside when there are
    more, [None] when the bytes end before it does *)
Fixpoint split_length (n : nat) (s : list byte) : option (option (list byte) * list byte) :=
  match n, s with
  | O, _ => Some (None, s)
  | _, [] => None
  | S n, c :: s =>
    if u8 c <? 128 then Some (Some [c], s)
    else match split_length n s with
         | Some (Some l, rest) => Some (Some (c :: l), rest)
         | r => r
         end
  end.

Fixpoint length_val (l : list byte) : Z :=
  match l with
  | [] => 0
  | c :: l => u8 c mod 128 + 128 * length_val l
  end.

(** the first packet of the bytes, if it is complete or has no valid length *)
Definition split_packet (s : list byte) : option (error_packet * list byte) :=
  match s with
  | [] => None
  | h :: s =>
    match split_length 4 s with
    | None => None
    | Some (None, rest) => Some (ep_error packet_too_large, rest)
    | Some (Some l, rest) =>
      if length_val l <=? Z.of_nat (length rest)
      then Some (ep_packet (h :: l ++ firstn (Z.to_nat (length_val l)) rest), skipn (Z.to_nat (length_val l)) rest)
      else None
    end
  end.

(** the packets of the bytes, and the bytes after them *)
Fixpoint split_packets (fuel : nat) (s : list byte) : list error_packet * list byte :=
  match fuel with
  | O => ([], s)
  | S fuel =>
    match split_packet s with
    | None => ([], s)
    | Some (ep, rest) => let (eps, tail) := split_packets fuel rest in (ep :: eps, tail)
    end
  end.

(** ** Facts *)

Definition continues (c : byte) : Prop := 128 <= u8 c.

Lemma split_length_cont l : forall n s, Forall continues l -> (length l <= n)%nat ->
  split_length n (l ++ s) =
  match split_length (n - length l) s with
  | Some (Some l', rest) => Some (Some (l ++ l'), rest)
  | r => r
  end.
Proof.
  induction l as [|c l IH]; intros n s Hl Hn; simpl.
  - rewrite Nat.sub_0_r. by destruct (split_length n s) as [[[?|] ?]|].
  - inversion Hl as [|? ? Hc Hl']; subst. destruct n as [|n]; [simpl in Hn; lia|]. simpl.
    unfold continues in Hc. destruct (Z.ltb_spec (u8 c) 128); [lia|]. rewrite IH by (done || simpl in Hn; lia).
    by destruct (split_length (n - length l) s) as [[[?|] ?]|].
Qed.

(** a complete length is read whatever follows *)
Lemma split_length_app n : forall s l rest x,
  split_length n s = Some (Some l, rest) -> s = l ++ rest /\ split_length n (l ++ x) = Some (Some l, x).
Proof.
  induction n as [|n IH]; intros s l rest x; simpl; [done|]. destruct s as [|c s]; [done|].
  destruct (Z.ltb_spec (u8 c) 128) as [Hc|Hc].
  - intros [= <- <-]. split; [done|]. simpl. by destruct (Z.ltb_spec (u8 c) 128); [|lia].
  - destruct (split_length n s) as [[[l'|] r]|] eqn:Hs; [|done..]. intros [= <- <-].
    destruct (IH s l' r x Hs) as [-> Hx]. split; [done|]. simpl.
    destruct (Z.ltb_spec (u8 c) 128); [lia|]. by rewrite Hx.
Qed.

Lemma split_length_le n : forall s l rest, split_length n s = Some (l, rest) -> (length rest <= length s)%nat.
Proof.
  induction n as [|n IH]; intros s l rest; simpl; [by intros [= <- <-]|]. destruct s as [|c s]; [done|].
  destruct (u8 c <? 128); [intros [= <- <-]; simpl; lia|]. destruct (split_length n s) as [[[l'|] r]|] eqn:Hs; [| |done];
    intros [= <- <-]; apply IH in Hs; simpl; lia.
Qed.

Lemma length_val_nonneg l : 0 <= length_val l.
Proof. induction l as [|c l IH]; simpl; [lia|]. pose proof (Z.mod_pos_bound (u8 c) 128 eq_refl). lia. Qed.

Lemma length_val_app l1 l2 : length_val (l1 ++ l2) = length_val l1 + 128 ^ Z.of_nat (length l1) * length_val l2.
Proof.
  induction l1 as [|c l1 IH]; cbn [app length length_val]; [change (128 ^ Z.of_nat 0) with 1; lia|].
  rewrite IH, Nat2Z.inj_succ, Z.pow_succ_r by lia. lia.
Qed.

(** The state after the bytes [pending] of an incomplete packet. *)
Inductive builder_at : list byte -> recv_packet_builder -> Prop :=
| at_fixed_header : builder_at [] make_builder
| at_remaining_length h l :
    Forall continues l -> (length l < 4)%nat ->
    builder_at (h :: l)
      (mk_builder rs_remaining_length (length_val l) (128 ^ Z.of_nat (length l)) (h :: l) [] 0 None)
| at_payload h l body m :
    split_length 4 l = Some (Some l, []) -> Z.of_nat (length body) < length_val l ->
    builder_at (h :: l ++ body)
      (mk_builder rs_payload (length_val l - Z.of_nat (length body)) m (h :: l) (h :: l ++ body)
         (1 + Z.of_nat (length l) + length_val l) None).

(** [recv] does to the stream what the abstract builder does *)
Definition recv_result (pending stream : list byte) (r : recv_packet_builder * list byte) : Prop :=
  match split_packet (pending ++ stream) with
  | Some (ep, rest) => r = (emplace ep make_builder, rest)
  | None => builder_at (pending ++ stream) (fst r) /\ snd r = []
  end.

Lemma split_packet_length h l x :
  split_length 4 l = Some (Some l, []) ->
  split_packet (h :: l ++ x) =
  if length_val l <=? Z.of_nat (length x)
  then Some (ep_packet (h :: l ++ firstn (Z.to_nat (length_val l)) x), skipn (Z.to_nat (length_val l)) x) else None.
Proof. intros Hl. unfold split_packet. by destruct (split_length_app 4 l l [] x Hl) as [_ ->]. Qed.

Lemma recv_payload_spec h l body m stream :
  split_length 4 l = Some (Some l, []) -> Z.of_nat (length body) < length_val l ->
  recv_result (h :: l ++ body) stream
    (recv_payload stream (mk_builder rs_payload (length_val l - Z.of_nat (length body)) m (h :: l) (h :: l ++ body)
       (1 + Z.of_nat (length l) + length_val l) None)).
Proof.
  intros Hl Hb. unfold recv_result, recv_payload. cbn [app remaining_length_]. rewrite <- app_assoc.
  rewrite split_packet_length, length_app by done. rewrite length_firstn.
  destruct (Z.leb_spec (length_val l) (Z.of_nat (length body + length stream))) as [Hle|Hgt].
  - rewrite (proj2 (Z.eqb_eq _ _)) by lia. unfold initialize, emplace, make_builder. cbn [read_packet_ raw_buf_].
    rewrite firstn_app, skipn_app, (firstn_all2 body), (skipn_all2 body) by lia. cbn [app].
    replace (Z.to_nat (length_val l) - length body)%nat with (Z.to_nat (length_val l - Z.of_nat (length body))) by lia.
    by rewrite <- app_assoc.
  - rewrite (proj2 (Z.eqb_neq _ _)) by lia. cbn [fst snd read_state_ multiplier_ header_remaining_length_buf_ raw_buf_
      raw_buf_size_ read_packet_]. rewrite firstn_all2, skipn_all2 by lia. split; [|done].
    replace (length_val l - Z.of_nat (length body) - _) with (length_val l - Z.of_nat (length (body ++ stream)))
      by (rewrite length_app; lia).
    rewrite <- app_comm_cons, <- app_assoc. apply at_payload; [done|]. rewrite length_app. lia.
Qed.

Lemma recv_empty p b : builder_at p b -> recv_result p [] (b, []).
Proof.
  intros Hb. unfold recv_result. rewrite app_nil_r. enough (split_packet p = None) as -> by done.
  destruct Hb as [|h l Hl Hn|h l body m Hl Hb]; [done| |].
  - unfold split_packet. rewrite <- (app_nil_r l), split_length_cont by (done || lia).
    destruct (4 - length l)%nat eqn:He; [lia | done].
  - rewrite split_packet_length by done. destruct (Z.leb_spec (length_val l) (Z.of_nat (length body))); [lia|done].
Qed.

Lemma split_length_S n c s :
  split_length (S n) (c :: s) =
  if u8 c <? 128 then Some (Some [c], s)
  else match split_length n s with Some (Some l, rest) => Some (Some (c :: l), rest) | r => r end.
Proof. reflexivity. Qed.

(** the byte [c] in the state [remaining_length] *)
Lemma split_length_snoc l c s :
  Forall continues l -> (length l < 4)%nat ->
  split_length 4 (l ++ c :: s) =
  if u8 c <? 128 then Some (Some (l ++ [c]), s)
  else if decide (length l = 3%nat) then Some (None, s) else split_length 4 ((l ++ [c]) ++ s).
Proof.
  intros Hl Hn. rewrite split_length_cont by (done || lia). destruct (4 - length l)%nat as [|n] eqn:He; [lia|].
  rewrite split_length_S. destruct (Z.ltb_spec (u8 c) 128) as [Hc|Hc]; [done|]. case_decide as H3.
  - by replace n with 0%nat by lia.
  - rewrite split_length_cont; [|apply Forall_app; split; [done|by constructor] | rewrite length_app; simpl; lia].
    rewrite length_app. replace (4 - (length l + length [c]))%nat with n by (simpl; lia).
    destruct (split_length n s) as [[[?|] ?]|]; [|done..]. by rewrite <- app_assoc.
Qed.

Lemma length_val_snoc l c : length_val (l ++ [c]) = length_val l + Z.land (u8 c) 0x7f * 128 ^ Z.of_nat (length l).
Proof. rewrite length_val_app, land_7f. cbn [length_val]. lia. Qed.

Lemma pow_128_limit (n : nat) : (n < 4)%nat -> (128 ^ Z.of_nat n * 128 =? 128 * 128 * 128 * 128) = bool_decide (n = 3%nat).
Proof. intros Hn. do 4 (destruct n as [|n]; [reflexivity|]). lia. Qed.

Lemma recv_remaining_length_spec h l c stream :
  Forall continues l -> (length l < 4)%nat ->
  let (b, finished) := recv_remaining_length c
    (mk_builder rs_remaining_length (length_val l) (128 ^ Z.of_nat (length l)) (h :: l) [] 0 None) in
  if finished then recv_result (h :: l) (c :: stream) (b, stream) else builder_at (h :: l ++ [c]) b.
Proof.
  intros Hl Hn. unfold recv_remaining_length. cbn [header_remaining_length_buf_ remaining_length_ multiplier_
    read_state_ raw_buf_ raw_buf_size_ read_packet_]. rewrite continuation_bit, <- length_val_snoc, pow_128_limit by done.
  unfold recv_result, split_packet. cbn [app]. rewrite split_length_snoc by done.
  destruct (Z.ltb_spec (u8 c) 128) as [Hc|Hc].
  - destruct (Z.eqb_spec (length_val (l ++ [c])) 0) as [H0|H0].
    + rewrite H0.
      rewrite (proj2 (Z.leb_le 0 _)) by lia. rewrite firstn_O, skipn_O, app_nil_r. done.
    + pose proof (length_val_nonneg (l ++ [c])).
      pose proof (at_payload h (l ++ [c]) [] (128 ^ Z.of_nat (length l) * 128)) as Hp.
      rewrite app_nil_r in Hp. change (Z.of_nat (length [])) with 0 in Hp. rewrite Z.sub_0_r in Hp.
      replace (Z.of_nat (length (h :: l ++ [c])) + length_val (l ++ [c]))
        with (1 + Z.of_nat (length (l ++ [c])) + length_val (l ++ [c])) by (cbn [length]; lia).
      apply Hp; [|lia]. rewrite split_length_snoc by done. by rewrite (proj2 (Z.ltb_lt _ _)) by done.
  - case_bool_decide as H3.
    + by rewrite decide_True by done.
    + replace (128 ^ Z.of_nat (length l) * 128) with (128 ^ Z.of_nat (length (l ++ [c])))
        by (rewrite length_app, Nat2Z.inj_add, Z.pow_add_r by lia; reflexivity).
      apply at_remaining_length; [apply Forall_app; split; [done|by constructor] | rewrite length_app; simpl; lia].
Qed.

Lemma recv_spec stream : forall p b, builder_at p b -> recv_result p stream (recv stream b).
Proof.
  induction stream as [|c stream IH]; intros p b Hb; [by apply recv_empty|].
  destruct Hb as [|h l Hl Hn|h l body m Hl Hb]; cbn [recv read_state_].
  - apply (IH [c] (mk_builder rs_remaining_length 0 1 [c] [] 0 None)).
    apply (at_remaining_length c []); [constructor | simpl; lia].
  - pose proof (recv_remaining_length_spec h l c stream Hl Hn) as Hr.
    destruct (recv_remaining_length _ _) as [b [|]]; [done|]. apply IH in Hr. unfold recv_result in *.
    change ((h :: l ++ [c]) ++ stream) with (((h :: l) ++ [c]) ++ stream) in Hr. by rewrite <- app_assoc in Hr.
  - by apply recv_payload_spec.
Qed.

(** C26: [recv] is the abstract builder: with the bytes of an incomplete
    packet received so far, it gives the packet, or the error for a length
    of more than four bytes, exactly when these bytes and the stream have
    one, leaves the bytes after it in the stream and is reset; otherwise it
    takes the whole stream. *)
Theorem packet_builder_refines stream p b : builder_at p b -> recv_result p stream (recv stream b).
Proof. apply recv_spec. Qed.

Lemma packet_builder_refines_witness :
  recv [x05; x68; x69; x6a] (mk_builder rs_remaining_length 0 1 [x30] [] 0 None) =
    (mk_builder rs_payload 2 128 [x30; x05] [x30; x05; x68; x69; x6a] 7 None, []) /\
  recv_result [x30; x05; x68; x69; x6a] [x6b; x6c; xc0]
    (recv [x6b; x6c; xc0] (mk_builder rs_payload 2 128 [x30; x05] [x30; x05; x68; x69; x6a] 7 None)).
Proof.
  split; [reflexivity|]. apply (packet_builder_refines [x6b; x6c; xc0]).
  apply (at_payload x30 [x05] [x68; x69; x6a] 128); [reflexivity | vm_compute; reflexivity].
Defined.

(** *** Streams of packets *)

(** the packets of the bytes, and the bytes of an incomplete packet *)
Definition packets (s : list byte) : list error_packet * list byte := split_packets (length s) s.

Lemma split_packet_smaller s ep rest : split_packet s = Some (ep, rest) -> (length rest < length s)%nat.
Proof.
  destruct s as [|h s]; unfold split_packet; [done|]. destruct (split_length 4 s) as [[[l|] r]|] eqn:Hs; [| |done].
  - apply split_length_le in Hs. destruct (_ <=? _); [|done]. intros [= _ <-]. rewrite length_skipn. cbn [length]. lia.
  - apply split_length_le in Hs. intros [= _ <-]. cbn [length]. lia.
Qed.

Lemma split_packets_fuel n1 : forall n2 s, (length s <= n1)%nat -> (length s <= n2)%nat ->
  split_packets n1 s = split_packets n2 s.
Proof.
  induction n1 as [|n1 IH]; intros n2 s H1 H2.
  - destruct s; [|simpl in H1; lia]. by destruct n2.
  - simpl. destruct (split_packet s) as [[ep rest]|] eqn:Hs.
    + apply split_packet_smaller in Hs as Hlt. destruct n2 as [|n2]; [lia|]. simpl. rewrite Hs.
      by rewrite (IH n2 rest) by lia.
    + destruct n2; simpl; [done | by rewrite Hs].
Qed.

Lemma packets_eq s :
  packets s =
  match split_packet s with
  | None => ([], s)
  | Some (ep, rest) => let (eps, tail) := packets rest in (ep :: eps, tail)
  end.
Proof.
  unfold packets. destruct s as [|h s]; [done|]. cbn [length split_packets].
  destruct (split_packet (h :: s)) as [[ep rest]|] eqn:Hs; [|done]. apply split_packet_smaller in Hs.
  by rewrite (split_packets_fuel (length s) (length rest)) by (simpl in *; lia).
Qed.

Lemma split_length_more n : forall s l rest x,
  split_length n s = Some (l, rest) -> split_length n (s ++ x) = Some (l, rest ++ x).
Proof.
  induction n as [|n IH]; intros s l rest x; simpl; [by intros [= <- <-]|]. destruct s as [|c s]; [done|]. simpl.
  destruct (u8 c <? 128); [by intros [= <- <-]|]. destruct (split_length n s) as [[[l'|] r]|] eqn:Hs; [| |done];
    rewrite (IH _ _ _ x Hs); by intros [= <- <-].
Qed.

Lemma split_packet_more s ep rest x :
  split_packet s = Some (ep, rest) -> split_packet (s ++ x) = Some (ep, rest ++ x).
Proof.
  destruct s as [|h s]; unfold split_packet; [done|]. cbn [app].
  destruct (split_length 4 s) as [[[l|] r]|] eqn:Hs; [| |done];
    rewrite (split_length_more _ _ _ _ x Hs); [|by intros [= <- <-]].
  destruct (Z.leb_spec (length_val l) (Z.of_nat (length r))) as [Hle|]; [|done]. intros [= <- <-].
  pose proof (length_val_nonneg l).
  rewrite (proj2 (Z.leb_le _ _)) by (rewrite length_app; lia). rewrite firstn_app, skipn_app.
  replace (Z.to_nat (length_val l) - length r)%nat with 0%nat by lia. by rewrite firstn_O, skipn_O, app_nil_r.
Qed.

Lemma packets_app s1 : forall s2,
  packets (s1 ++ s2) = let (e1, t) := packets s1 in let (e2, tail) := packets (t ++ s2) in (e1 ++ e2, tail).
Proof.
  induction s1 as [s1 IH] using (induction_ltof1 _ length). unfold ltof in IH. intros s2.
  rewrite (packets_eq s1). destruct (split_packet s1) as [[ep rest]|] eqn:Hs; [|by destruct (packets (s1 ++ s2))].
  rewrite packets_eq, (split_packet_more _ _ _ s2 Hs). apply split_packet_smaller in Hs. rewrite (IH rest Hs).
  destruct (packets rest) as [e1 t]. by destruct (packets (t ++ s2)).
Qed.

Lemma recv_le stream : forall b, (length (snd (recv stream b)) <= length stream)%nat.
Proof.
  induction stream as [|c stream IH]; intros b; cbn [recv]; [done|]. destruct (read_state_ b).
  - specialize (IH (recv_fixed_header c b)). simpl. lia.
  - destruct (recv_remaining_length c b) as [b' [|]]; [simpl; lia|]. specialize (IH b'). simpl. lia.
  - unfold recv_payload. destruct (_ =? _); cbn [snd]; rewrite length_skipn; lia.
Qed.

(** a call with bytes takes at least one *)
Lemma recv_lt c stream p b : builder_at p b -> (length (snd (recv (c :: stream) b)) < length (c :: stream))%nat.
Proof.
  intros [|h l Hl Hn|h l body m Hl Hb]; cbn [recv read_state_].
  - pose proof (recv_le stream (recv_fixed_header c make_builder)). simpl in *. lia.
  - destruct (recv_remaining_length c _) as [b' [|]]; [simpl; lia|]. pose proof (recv_le stream b'). simpl. lia.
  - unfold recv_payload. cbn [remaining_length_]. destruct (_ =? _); cbn [snd]; rewrite length_skipn; cbn [length]; lia.
Qed.

Lemma recv_loop_spec fuel : forall stream p b,
  (length stream <= fuel)%nat -> builder_at p b ->
  fst (recv_loop fuel stream b) = fst (packets (p ++ stream)) /\
  builder_at (snd (packets (p ++ stream))) (snd (recv_loop fuel stream b)).
Proof.
  induction fuel as [|fuel IH]; intros stream p b Hf Hb.
  all: pose proof (recv_empty p b Hb) as H0; unfold recv_result in H0; rewrite app_nil_r in H0.
  all: destruct stream as [|c stream]; [| try (simpl in Hf; lia)].
  1,2: rewrite app_nil_r, packets_eq; destruct (split_packet p) as [[ep rest]|]; [|done];
       apply (f_equal (fun r => read_packet_ (fst r))) in H0; simpl in H0; by destruct Hb.
  pose proof (recv_spec (c :: stream) p b Hb) as Hr. unfold recv_result in Hr. rewrite packets_eq.
  cbn [recv_loop]. destruct (split_packet (p ++ c :: stream)) as [[ep rest]|] eqn:Hs.
  - pose proof (recv_lt c stream p b Hb) as Hlt. rewrite Hr in *. cbn [snd] in Hlt.
    destruct (IH rest [] make_builder) as [He Ht]; [simpl in *; lia | constructor |]. cbn [app] in He, Ht.
    change (clear (emplace ep make_builder)) with make_builder.
    destruct (recv_loop fuel rest make_builder) as [eps b']. cbn [fst snd read_packet_ emplace] in *.
    destruct (packets rest) as [eps' t]. cbn [fst snd] in *. by subst.
  - destruct (recv (c :: stream) b) as [b' rest]. cbn [fst snd] in Hr. destruct Hr as [Hb' ->].
    assert (Hn : read_packet_ b' = None) by (by destruct Hb'). rewrite Hn.
    assert (Hc : clear b' = b') by (by destruct Hb'). rewrite Hc. by destruct fuel.
Qed.

Fixpoint recv_chunks (chunks : list (list byte)) (b : recv_packet_builder)
    : list error_packet * recv_packet_builder :=
  match chunks with
  | [] => ([], b)
  | c :: chunks =>
    let (e1, b) := recv_all c b in
    let (e2, b) := recv_chunks chunks b in
    (e1 ++ e2, b)
  end.

Lemma builder_at_packets p b : builder_at p b -> packets p = ([], p).
Proof.
  intros Hb. pose proof (recv_empty p b Hb) as H0. unfold recv_result in H0. rewrite app_nil_r in H0.
  rewrite packets_eq. destruct (split_packet p) as [[ep rest]|]; [|done].
  apply (f_equal (fun r => read_packet_ (fst r))) in H0. simpl in H0. by destruct Hb.
Qed.

Lemma recv_chunks_spec chunks : forall p b,
  builder_at p b ->
  fst (recv_chunks chunks b) = fst (packets (p ++ concat chunks)) /\
  builder_at (snd (packets (p ++ concat chunks))) (snd (recv_chunks chunks b)).
Proof.
  induction chunks as [|c chunks IH]; intros p b Hb; simpl.
  - rewrite app_nil_r. by rewrite (builder_at_packets p b Hb).
  - destruct (recv_loop_spec (length c) c p b) as [He Ht]; [done..|]. unfold recv_all.
    destruct (recv_loop (length c) c b) as [e1 b1]. cbn [fst snd] in *. rewrite app_assoc, packets_app.
    destruct (packets (p ++ c)) as [e1' t]. cbn [fst snd] in *. subst e1'. destruct (IH t b1 Ht) as [He2 Ht2].
    destruct (recv_chunks chunks b1) as [e2 b2]. destruct (packets (t ++ concat chunks)) as [e2' t2].
    cbn [fst snd] in *. by subst.
Qed.

(** fixed header, remaining length, and that many bytes: what every packet
    serializes to *)
Definition framed (p : list byte) : Prop :=
  exists h body, Z.of_nat (length body) <= max_variable_bytes /\
    p = h :: val_to_variable_bytes (Z.of_nat (length body)) ++ body.

Lemma split_length_variable_bytes fuel : forall val,
  0 <= val < 128 ^ Z.of_nat fuel -> (0 < fuel)%nat ->
  split_length fuel (variable_bytes_loop fuel val) = Some (Some (variable_bytes_loop fuel val), []) /\
  length_val (variable_bytes_loop fuel val) = val.
Proof.
  induction fuel as [|fuel IH]; intros val Hv Hf; [lia|]. rewrite Nat2Z.inj_succ, Z.pow_succ_r in Hv by lia.
  destruct (Z.le_gt_cases val 127) as [Hs|Hb].
  - rewrite variable_bytes_loop_last by lia. rewrite split_length_S, u8_to_byte_small by lia.
    destruct (Z.ltb_spec val 128); [|lia]. split; [done|]. cbn [length_val].
    rewrite u8_to_byte_small by lia. rewrite Z.mod_small; lia.
  - rewrite variable_bytes_loop_more by lia. pose proof (Z.mod_pos_bound val 128 eq_refl).
    rewrite split_length_S. cbn [length_val]. rewrite u8_to_byte_small by lia.
    destruct (Z.ltb_spec (val mod 128 + 128) 128); [lia|].
    destruct fuel as [|fuel]; [change (128 ^ Z.of_nat 0) with 1 in Hv; lia|].
    destruct (IH (val / 128)) as [-> ->]; [split; [apply Z.div_pos; lia | apply Z.div_lt_upper_bound; lia] | lia |].
    split; [done|]. replace (val mod 128 + 128) with (val mod 128 + 1 * 128) by lia.
    rewrite Z.mod_add, Z.mod_mod by lia. pose proof (Z.div_mod val 128). lia.
Qed.

Lemma split_packet_framed p rest : framed p -> split_packet (p ++ rest) = Some (ep_packet p, rest).
Proof.
  intros (h & body & Hl & ->). unfold max_variable_bytes in Hl.
  destruct (split_length_variable_bytes 4 (Z.of_nat (length body))) as [Hs Hv];
    [change (128 ^ Z.of_nat 4) with 0x10000000; lia | lia |].
  assert (Hvb : val_to_variable_bytes (Z.of_nat (length body)) = variable_bytes_loop 4 (Z.of_nat (length body))).
  { unfold val_to_variable_bytes. by destruct (Z.ltb_spec 0xfffffff (Z.of_nat (length body))); [lia|]. }
  rewrite Hvb, <- app_comm_cons, <- app_assoc, split_packet_length, Hv by done.
  rewrite (proj2 (Z.leb_le _ _)) by (rewrite length_app; lia).
  rewrite Nat2Z.id. by rewrite take_app_length, drop_app_length.
Qed.

Lemma packets_framed ps tail : Forall framed ps -> packets tail = ([], tail) ->
  packets (concat ps ++ tail) = (map ep_packet ps, tail).
Proof.
  induction 1 as [|p ps Hp _ IH]; intros Ht; [done|]. simpl. rewrite <- app_assoc, packets_eq, split_packet_framed by done.
  by rewrite IH.
Qed.

(** C3: a stream of packets, cut into chunks in any way, gives exactly these
    packets in order; bytes of an incomplete packet at its end stay in the
    builder. *)
Theorem packet_builder_stream chunks ps tail :
  Forall framed ps -> split_packet tail = None -> concat chunks = concat ps ++ tail ->
  fst (recv_chunks chunks make_builder) = map ep_packet ps /\ builder_at tail (snd (recv_chunks chunks make_builder)).
Proof.
  intros Hps Ht Hc. destruct (recv_chunks_spec chunks [] make_builder at_fixed_header) as [He Hb].
  cbn [app] in *. rewrite Hc, packets_framed in He, Hb by (done || by rewrite packets_eq, Ht). done.
Qed.

Lemma packet_builder_stream_witness :
  let ps := [[xc0; x00]; [x30; x03; x00; x01; x61]] in
  concat [[xc0]; []; [x00; x30; x03; x00]; [x01]; [x61; x40]] = concat ps ++ [x40] /\
  fst (recv_chunks [[xc0]; []; [x00; x30; x03; x00]; [x01]; [x61; x40]] make_builder) = map ep_packet ps.
Proof.
  split; [reflexivity|].
  apply (packet_builder_stream [[xc0]; []; [x00; x30; x03; x00]; [x01]; [x61; x40]]
    [[xc0; x00]; [x30; x03; x00; x01; x61]] [x40]); [|reflexivity..].
  constructor; [exists xc0, []; split; [vm_compute; congruence | reflexivity]|].
  constructor; [exists x30, [x00; x01; x61]; split; [vm_compute; congruence | reflexivity]|constructor].
Defined.
