(* ===== verification/ConnectionState.v ===== *)
(** * The connection: state, events and programs

    The members of [basic_connection_impl] (protocol/impl/connection_impl.hpp),
    the enumerations it uses (role.hpp, connection_status.hpp,
    protocol_version.hpp, timer.hpp), the callbacks of [basic_connection] as
    events, and the monad the member functions are written in. *)
From S2P Require Import Prelude Boost Wire Error Property Packet PacketIdManager TopicAlias Store PacketBuilder.

(** ** Enumerations *)

Module role.
Inductive t := client | server | any.
End role.

Module connection_status.
Inductive t := connecting | connected | disconnected.
End connection_status.

Module protocol_version.
Inductive t := undetermined | v3_1_1 | v5.
End protocol_version.

Module timer_kind.
Inductive t := pingreq_send | pingreq_recv | pingresp_recv.
End timer_kind.

Module timer_op.
Inductive t := reset | cancel.
End timer_op.

#[export] Instance status_eq_dec : EqDecision connection_status.t.
Proof. solve_decision. Defined.
#[export] Instance version_eq_dec : EqDecision protocol_version.t.
Proof. solve_decision. Defined.
#[export] Instance timer_kind_eq_dec : EqDecision timer_kind.t.
Proof. solve_decision. Defined.

Definition can_send_as_client (r : role.t) : bool := match r with role.client | role.any => true | role.server => false end.
Definition can_send_as_server (r : role.t) : bool := match r with role.server | role.any => true | role.client => false end.

(** property.hpp *)
Definition packet_size_no_limit : Z := 1 + 4 + 128 * 128 * 128 * 128.

(** ** Callbacks *)

(** The virtual functions of [basic_connection], in the order they are
    called.  Durations are in milliseconds. *)
Inductive event :=
| on_error (ec : error_code)
| on_send (packet : packet_variant) (release_packet_id_if_send_error : option Z)
| on_packet_id_release (packet_id : Z)
| on_receive (packet : packet_variant)
| on_timer_op (op : timer_op.t) (kind : timer_kind.t) (ms : option Z)
| on_close.

(** ** State *)
Section state.
Context {M : Type} {PM : PacketIdManager M} {BE : BoostEndian} {BMI : BoostMultiIndex}.
(** [PacketIdBytes] *)
Context {pidb : nat}.

Record connection := mk_connection {
  protocol_version_ : protocol_version.t;
  pid_man_ : M;
  pid_suback_ : gset Z;
  pid_unsuback_ : gset Z;
  pid_puback_ : gset Z;
  pid_pubrec_ : gset Z;
  pid_pubcomp_ : gset Z;
  need_store_ : bool;
  store_ : store pidb;
  offline_publish_ : bool;
  auto_pub_response_ : bool;
  auto_ping_response_ : bool;
  auto_map_topic_alias_send_ : bool;
  auto_replace_topic_alias_send_ : bool;
  topic_alias_send_ : option Send.topic_alias_send;
  topic_alias_recv_ : option Recv.topic_alias_recv;
  publish_send_max_ : option Z;
  publish_recv_max_ : option Z;
  publish_send_count_ : Z;
  publish_recv_ : gset Z;
  maximum_packet_size_send_ : Z;
  maximum_packet_size_recv_ : Z;
  status_ : connection_status.t;
  pingreq_send_interval_ms_ : option Z;
  pingreq_recv_timeout_ms_ : option Z;
  pingresp_recv_timeout_ms_ : option Z;
  qos2_publish_handled_ : gset Z;
  qos2_publish_processing_ : gset Z;
  pingreq_send_set_ : bool;
  pingreq_recv_set_ : bool;
  pingresp_recv_set_ : bool;
  rpb_ : PacketBuilder.recv_packet_builder;
  is_client_ : bool;
}.

(** the member initializers *)
Definition make_connection (ver : protocol_version.t) : connection :=
  mk_connection ver pm_new ∅ ∅ ∅ ∅ ∅ false (empty_store pidb) false false false false false None None
    None None 0 ∅ packet_size_no_limit packet_size_no_limit connection_status.disconnected
    None None None ∅ ∅ false false false make_builder true.

(** *** Assignments *)

Definition set_protocol_version_ (x : protocol_version.t) (c : connection) : connection :=
  mk_connection
    x (pid_man_ c) (pid_suback_ c) (pid_unsuback_ c) (pid_puback_ c) (pid_pubrec_ c) (pid_pubcomp_ c)
    (need_store_ c) (store_ c) (offline_publish_ c) (auto_pub_response_ c) (auto_ping_response_ c)
    (auto_map_topic_alias_send_ c) (auto_replace_topic_alias_send_ c) (topic_alias_send_ c)
    (topic_alias_recv_ c) (publish_send_max_ c) (publish_recv_max_ c) (publish_send_count_ c)
    (publish_recv_ c) (maximum_packet_size_send_ c) (maximum_packet_size_recv_ c) (status_ c)
    (pingreq_send_interval_ms_ c) (pingreq_recv_timeout_ms_ c) (pingresp_recv_timeout_ms_ c)
    (qos2_publish_handled_ c) (qos2_publish_processing_ c) (pingreq_send_set_ c) (pingreq_recv_set_ c)
    (pingresp_recv_set_ c) (rpb_ c) (is_client_ c).
Definition set_pid_man_ (x : M) (c : connection) : connection :=
  mk_connection
    (protocol_version_ c) x (pid_suback_ c) (pid_unsuback_ c) (pid_puback_ c) (pid_pubrec_ c)
    (pid_pubcomp_ c) (need_store_ c) (store_ c) (offline_publish_ c) (auto_pub_response_ c)
    (auto_ping_response_ c) (auto_map_topic_alias_send_ c) (auto_replace_topic_alias_send_ c)
    (topic_alias_send_ c) (topic_alias_recv_ c) (publish_send_max_ c) (publish_recv_max_ c)
    (publish_send_count_ c) (publish_recv_ c) (maximum_packet_size_send_ c) (maximum_packet_size_recv_ c)
    (status_ c) (pingreq_send_interval_ms_ c) (pingreq_recv_timeout_ms_ c) (pingresp_recv_timeout_ms_ c)
    (qos2_publish_handled_ c) (qos2_publish_processing_ c) (pingreq_send_set_ c) (pingreq_recv_set_ c)
    (pingresp_recv_set_ c) (rpb_ c) (is_client_ c).
Definition set_pid_suback_ (x : gset Z) (c : connection) : connection :=
  mk_connection
    (protocol_version_ c) (pid_man_ c) x (pid_unsuback_ c) (pid_puback_ c) (pid_pubrec_ c) (pid_pubcomp_ c)
    (need_store_ c) (store_ c) (offline_publish_ c) (auto_pub_response_ c) (auto_ping_response_ c)
    (auto_map_topic_alias_send_ c) (auto_replace_topic_alias_send_ c) (topic_alias_send_ c)
    (topic_alias_recv_ c) (publish_send_max_ c) (publish_recv_max_ c) (publish_send_count_ c)
    (publish_recv_ c) (maximum_packet_size_send_ c) (maximum_packet_size_recv_ c) (status_ c)
    (pingreq_send_interval_ms_ c) (pingreq_recv_timeout_ms_ c) (pingresp_recv_timeout_ms_ c)
    (qos2_publish_handled_ c) (qos2_publish_processing_ c) (pingreq_send_set_ c) (pingreq_recv_set_ c)
    (pingresp_recv_set_ c) (rpb_ c) (is_client_ c).
Definition set_pid_unsuback_ (x : gset Z) (c : connection) : connection :=
  mk_connection
    (protocol_version_ c) (pid_man_ c) (pid_suback_ c) x (pid_puback_ c) (pid_pubrec_ c) (pid_pubcomp_ c)
    (need_store_ c) (store_ c) (offline_publish_ c) (auto_pub_response_ c) (auto_ping_response_ c)
    (auto_map_topic_alias_send_ c) (auto_replace_topic_alias_send_ c) (topic_alias_send_ c)
    (topic_alias_recv_ c) (publish_send_max_ c) (publish_recv_max_ c) (publish_send_count_ c)
    (publish_recv_ c) (maximum_packet_size_send_ c) (maximum_packet_size_recv_ c) (status_ c)
    (pingreq_send_interval_ms_ c) (pingreq_recv_timeout_ms_ c) (pingresp_recv_timeout_ms_ c)
    (qos2_publish_handled_ c) (qos2_publish_processing_ c) (pingreq_send_set_ c) (pingreq_recv_set_ c)
    (pingresp_recv_set_ c) (rpb_ c) (is_client_ c).
Definition set_pid_puback_ (x : gset Z) (c : connection) : connection :=
  mk_connection
    (protocol_version_ c) (pid_man_ c) (pid_suback_ c) (pid_unsuback_ c) x (pid_pubrec_ c) (pid_pubcomp_ c)
    (need_store_ c) (store_ c) (offline_publish_ c) (auto_pub_response_ c) (auto_ping_response_ c)
    (auto_map_topic_alias_send_ c) (auto_replace_topic_alias_send_ c) (topic_alias_send_ c)
    (topic_alias_recv_ c) (publish_send_max_ c) (publish_recv_max_ c) (publish_send_count_ c)
    (publish_recv_ c) (maximum_packet_size_send_ c) (maximum_packet_size_recv_ c) (status_ c)
    (pingreq_send_interval_ms_ c) (pingreq_recv_timeout_ms_ c) (pingresp_recv_timeout_ms_ c)
    (qos2_publish_handled_ c) (qos2_publish_processing_ c) (pingreq_send_set_ c) (pingreq_recv_set_ c)
    (pingresp_recv_set_ c) (rpb_ c) (is_client_ c).
Definition set_pid_pubrec_ (x : gset Z) (c : connection) : connection :=
  mk_connection
    (protocol_version_ c) (pid_man_ c) (pid_suback_ c) (pid_unsuback_ c) (pid_puback_ c) x (pid_pubcomp_ c)
    (need_store_ c) (store_ c) (offline_publish_ c) (auto_pub_response_ c) (auto_ping_response_ c)
    (auto_map_topic_alias_send_ c) (auto_replace_topic_alias_send_ c) (topic_alias_send_ c)
    (topic_alias_recv_ c) (publish_send_max_ c) (publish_recv_max_ c) (publish_send_count_ c)
    (publish_recv_ c) (maximum_packet_size_send_ c) (maximum_packet_size_recv_ c) (status_ c)
    (pingreq_send_interval_ms_ c) (pingreq_recv_timeout_ms_ c) (pingresp_recv_timeout_ms_ c)
    (qos2_publish_handled_ c) (qos2_publish_processing_ c) (pingreq_send_set_ c) (pingreq_recv_set_ c)
    (pingresp_recv_set_ c) (rpb_ c) (is_client_ c).
Definition set_pid_pubcomp_ (x : gset Z) (c : connection) : connection :=
  mk_connection
    (protocol_version_ c) (pid_man_ c) (pid_suback_ c) (pid_unsuback_ c) (pid_puback_ c) (pid_pubrec_ c) x
    (need_store_ c) (store_ c) (offline_publish_ c) (auto_pub_response_ c) (auto_ping_response_ c)
    (auto_map_topic_alias_send_ c) (auto_replace_topic_alias_send_ c) (topic_alias_send_ c)
    (topic_alias_recv_ c) (publish_send_max_ c) (publish_recv_max_ c) (publish_send_count_ c)
    (publish_recv_ c) (maximum_packet_size_send_ c) (maximum_packet_size_recv_ c) (status_ c)
    (pingreq_send_interval_ms_ c) (pingreq_recv_timeout_ms_ c) (pingresp_recv_timeout_ms_ c)
    (qos2_publish_handled_ c) (qos2_publish_processing_ c) (pingreq_send_set_ c) (pingreq_recv_set_ c)
    (pingresp_recv_set_ c) (rpb_ c) (is_client_ c).
Definition set_need_store_ (x : bool) (c : connection) : connection :=
  mk_connection
    (protocol_version_ c) (pid_man_ c) (pid_suback_ c) (pid_unsuback_ c) (pid_puback_ c) (pid_pubrec_ c)
    (pid_pubcomp_ c) x (store_ c) (offline_publish_ c) (auto_pub_response_ c) (auto_ping_response_ c)
    (auto_map_topic_alias_send_ c) (auto_replace_topic_alias_send_ c) (topic_alias_send_ c)
    (topic_alias_recv_ c) (publish_send_max_ c) (publish_recv_max_ c) (publish_send_count_ c)
    (publish_recv_ c) (maximum_packet_size_send_ c) (maximum_packet_size_recv_ c) (status_ c)
    (pingreq_send_interval_ms_ c) (pingreq_recv_timeout_ms_ c) (pingresp_recv_timeout_ms_ c)
    (qos2_publish_handled_ c) (qos2_publish_processing_ c) (pingreq_send_set_ c) (pingreq_recv_set_ c)
    (pingresp_recv_set_ c) (rpb_ c) (is_client_ c).
Definition set_store_ (x : store pidb) (c : connection) : connection :=
  mk_connection
    (protocol_version_ c) (pid_man_ c) (pid_suback_ c) (pid_unsuback_ c) (pid_puback_ c) (pid_pubrec_ c)
    (pid_pubcomp_ c) (need_store_ c) x (offline_publish_ c) (auto_pub_response_ c) (auto_ping_response_ c)
    (auto_map_topic_alias_send_ c) (auto_replace_topic_alias_send_ c) (topic_alias_send_ c)
    (topic_alias_recv_ c) (publish_send_max_ c) (publish_recv_max_ c) (publish_send_count_ c)
    (publish_recv_ c) (maximum_packet_size_send_ c) (maximum_packet_size_recv_ c) (status_ c)
    (pingreq_send_interval_ms_ c) (pingreq_recv_timeout_ms_ c) (pingresp_recv_timeout_ms_ c)
    (qos2_publish_handled_ c) (qos2_publish_processing_ c) (pingreq_send_set_ c) (pingreq_recv_set_ c)
    (pingresp_recv_set_ c) (rpb_ c) (is_client_ c).
Definition set_offline_publish_ (x : bool) (c : connection) : connection :=
  mk_connection
    (protocol_version_ c) (pid_man_ c) (pid_suback_ c) (pid_unsuback_ c) (pid_puback_ c) (pid_pubrec_ c)
    (pid_pubcomp_ c) (need_store_ c) (store_ c) x (auto_pub_response_ c) (auto_ping_response_ c)
    (auto_map_topic_alias_send_ c) (auto_replace_topic_alias_send_ c) (topic_alias_send_ c)
    (topic_alias_recv_ c) (publish_send_max_ c) (publish_recv_max_ c) (publish_send_count_ c)
    (publish_recv_ c) (maximum_packet_size_send_ c) (maximum_packet_size_recv_ c) (status_ c)
    (pingreq_send_interval_ms_ c) (pingreq_recv_timeout_ms_ c) (pingresp_recv_timeout_ms_ c)
    (qos2_publish_handled_ c) (qos2_publish_processing_ c) (pingreq_send_set_ c) (pingreq_recv_set_ c)
    (pingresp_recv_set_ c) (rpb_ c) (is_client_ c).
Definition set_auto_pub_response_ (x : bool) (c : connection) : connection :=
  mk_connection
    (protocol_version_ c) (pid_man_ c) (pid_suback_ c) (pid_unsuback_ c) (pid_puback_ c) (pid_pubrec_ c)
    (pid_pubcomp_ c) (need_store_ c) (store_ c) (offline_publish_ c) x (auto_ping_response_ c)
    (auto_map_topic_alias_send_ c) (auto_replace_topic_alias_send_ c) (topic_alias_send_ c)
    (topic_alias_recv_ c) (publish_send_max_ c) (publish_recv_max_ c) (publish_send_count_ c)
    (publish_recv_ c) (maximum_packet_size_send_ c) (maximum_packet_size_recv_ c) (status_ c)
    (pingreq_send_interval_ms_ c) (pingreq_recv_timeout_ms_ c) (pingresp_recv_timeout_ms_ c)
    (qos2_publish_handled_ c) (qos2_publish_processing_ c) (pingreq_send_set_ c) (pingreq_recv_set_ c)
    (pingresp_recv_set_ c) (rpb_ c) (is_client_ c).
Definition set_auto_ping_response_ (x : bool) (c : connection) : connection :=
  mk_connection
    (protocol_version_ c) (pid_man_ c) (pid_suback_ c) (pid_unsuback_ c) (pid_puback_ c) (pid_pubrec_ c)
    (pid_pubcomp_ c) (need_store_ c) (store_ c) (offline_publish_ c) (auto_pub_response_ c) x
    (auto_map_topic_alias_send_ c) (auto_replace_topic_alias_send_ c) (topic_alias_send_ c)
    (topic_alias_recv_ c) (publish_send_max_ c) (publish_recv_max_ c) (publish_send_count_ c)
    (publish_recv_ c) (maximum_packet_size_send_ c) (maximum_packet_size_recv_ c) (status_ c)
    (pingreq_send_interval_ms_ c) (pingreq_recv_timeout_ms_ c) (pingresp_recv_timeout_ms_ c)
    (qos2_publish_handled_ c) (qos2_publish_processing_ c) (pingreq_send_set_ c) (pingreq_recv_set_ c)
    (pingresp_recv_set_ c) (rpb_ c) (is_client_ c).
Definition set_auto_map_topic_alias_send_ (x : bool) (c : connection) : connection :=
  mk_connection
    (protocol_version_ c) (pid_man_ c) (pid_suback_ c) (pid_unsuback_ c) (pid_puback_ c) (pid_pubrec_ c)
    (pid_pubcomp_ c) (need_store_ c) (store_ c) (offline_publish_ c) (auto_pub_response_ c)
    (auto_ping_response_ c) x (auto_replace_topic_alias_send_ c) (topic_alias_send_ c)
    (topic_alias_recv_ c) (publish_send_max_ c) (publish_recv_max_ c) (publish_send_count_ c)
    (publish_recv_ c) (maximum_packet_size_send_ c) (maximum_packet_size_recv_ c) (status_ c)
    (pingreq_send_interval_ms_ c) (pingreq_recv_timeout_ms_ c) (pingresp_recv_timeout_ms_ c)
    (qos2_publish_handled_ c) (qos2_publish_processing_ c) (pingreq_send_set_ c) (pingreq_recv_set_ c)
    (pingresp_recv_set_ c) (rpb_ c) (is_client_ c).
Definition set_auto_replace_topic_alias_send_ (x : bool) (c : connection) : connection :=
  mk_connection
    (protocol_version_ c) (pid_man_ c) (pid_suback_ c) (pid_unsuback_ c) (pid_puback_ c) (pid_pubrec_ c)
    (pid_pubcomp_ c) (need_store_ c) (store_ c) (offline_publish_ c) (auto_pub_response_ c)
    (auto_ping_response_ c) (auto_map_topic_alias_send_ c) x (topic_alias_send_ c) (topic_alias_recv_ c)
    (publish_send_max_ c) (publish_recv_max_ c) (publish_send_count_ c) (publish_recv_ c)
    (maximum_packet_size_send_ c) (maximum_packet_size_recv_ c) (status_ c) (pingreq_send_interval_ms_ c)
    (pingreq_recv_timeout_ms_ c) (pingresp_recv_timeout_ms_ c) (qos2_publish_handled_ c)
    (qos2_publish_processing_ c) (pingreq_send_set_ c) (pingreq_recv_set_ c) (pingresp_recv_set_ c)
    (rpb_ c) (is_client_ c).
Definition set_topic_alias_send_ (x : option Send.topic_alias_send) (c : connection) : connection :=
  mk_connection
    (protocol_version_ c) (pid_man_ c) (pid_suback_ c) (pid_unsuback_ c) (pid_puback_ c) (pid_pubrec_ c)
    (pid_pubcomp_ c) (need_store_ c) (store_ c) (offline_publish_ c) (auto_pub_response_ c)
    (auto_ping_response_ c) (auto_map_topic_alias_send_ c) (auto_replace_topic_alias_send_ c) x
    (topic_alias_recv_ c) (publish_send_max_ c) (publish_recv_max_ c) (publish_send_count_ c)
    (publish_recv_ c) (maximum_packet_size_send_ c) (maximum_packet_size_recv_ c) (status_ c)
    (pingreq_send_interval_ms_ c) (pingreq_recv_timeout_ms_ c) (pingresp_recv_timeout_ms_ c)
    (qos2_publish_handled_ c) (qos2_publish_processing_ c) (pingreq_send_set_ c) (pingreq_recv_set_ c)
    (pingresp_recv_set_ c) (rpb_ c) (is_client_ c).
Definition set_topic_alias_recv_ (x : option Recv.topic_alias_recv) (c : connection) : connection :=
  mk_connection
    (protocol_version_ c) (pid_man_ c) (pid_suback_ c) (pid_unsuback_ c) (pid_puback_ c) (pid_pubrec_ c)
    (pid_pubcomp_ c) (need_store_ c) (store_ c) (offline_publish_ c) (auto_pub_response_ c)
    (auto_ping_response_ c) (auto_map_topic_alias_send_ c) (auto_replace_topic_alias_send_ c)
    (topic_alias_send_ c) x (publish_send_max_ c) (publish_recv_max_ c) (publish_send_count_ c)
    (publish_recv_ c) (maximum_packet_size_send_ c) (maximum_packet_size_recv_ c) (status_ c)
    (pingreq_send_interval_ms_ c) (pingreq_recv_timeout_ms_ c) (pingresp_recv_timeout_ms_ c)
    (qos2_publish_handled_ c) (qos2_publish_processing_ c) (pingreq_send_set_ c) (pingreq_recv_set_ c)
    (pingresp_recv_set_ c) (rpb_ c) (is_client_ c).
Definition set_publish_send_max_ (x : option Z) (c : connection) : connection :=
  mk_connection
    (protocol_version_ c) (pid_man_ c) (pid_suback_ c) (pid_unsuback_ c) (pid_puback_ c) (pid_pubrec_ c)
    (pid_pubcomp_ c) (need_store_ c) (store_ c) (offline_publish_ c) (auto_pub_response_ c)
    (auto_ping_response_ c) (auto_map_topic_alias_send_ c) (auto_replace_topic_alias_send_ c)
    (topic_alias_send_ c) (topic_alias_recv_ c) x (publish_recv_max_ c) (publish_send_count_ c)
    (publish_recv_ c) (maximum_packet_size_send_ c) (maximum_packet_size_recv_ c) (status_ c)
    (pingreq_send_interval_ms_ c) (pingreq_recv_timeout_ms_ c) (pingresp_recv_timeout_ms_ c)
    (qos2_publish_handled_ c) (qos2_publish_processing_ c) (pingreq_send_set_ c) (pingreq_recv_set_ c)
    (pingresp_recv_set_ c) (rpb_ c) (is_client_ c).
Definition set_publish_recv_max_ (x : option Z) (c : connection) : connection :=
  mk_connection
    (protocol_version_ c) (pid_man_ c) (pid_suback_ c) (pid_unsuback_ c) (pid_puback_ c) (pid_pubrec_ c)
    (pid_pubcomp_ c) (need_store_ c) (store_ c) (offline_publish_ c) (auto_pub_response_ c)
    (auto_ping_response_ c) (auto_map_topic_alias_send_ c) (auto_replace_topic_alias_send_ c)
    (topic_alias_send_ c) (topic_alias_recv_ c) (publish_send_max_ c) x (publish_send_count_ c)
    (publish_recv_ c) (maximum_packet_size_send_ c) (maximum_packet_size_recv_ c) (status_ c)
    (pingreq_send_interval_ms_ c) (pingreq_recv_timeout_ms_ c) (pingresp_recv_timeout_ms_ c)
    (qos2_publish_handled_ c) (qos2_publish_processing_ c) (pingreq_send_set_ c) (pingreq_recv_set_ c)
    (pingresp_recv_set_ c) (rpb_ c) (is_client_ c).
Definition set_publish_send_count_ (x : Z) (c : connection) : connection :=
  mk_connection
    (protocol_version_ c) (pid_man_ c) (pid_suback_ c) (pid_unsuback_ c) (pid_puback_ c) (pid_pubrec_ c)
    (pid_pubcomp_ c) (need_store_ c) (store_ c) (offline_publish_ c) (auto_pub_response_ c)
    (auto_ping_response_ c) (auto_map_topic_alias_send_ c) (auto_replace_topic_alias_send_ c)
    (topic_alias_send_ c) (topic_alias_recv_ c) (publish_send_max_ c) (publish_recv_max_ c) x
    (publish_recv_ c) (maximum_packet_size_send_ c) (maximum_packet_size_recv_ c) (status_ c)
    (pingreq_send_interval_ms_ c) (pingreq_recv_timeout_ms_ c) (pingresp_recv_timeout_ms_ c)
    (qos2_publish_handled_ c) (qos2_publish_processing_ c) (pingreq_send_set_ c) (pingreq_recv_set_ c)
    (pingresp_recv_set_ c) (rpb_ c) (is_client_ c).
Definition set_publish_recv_ (x : gset Z) (c : connection) : connection :=
  mk_connection
    (protocol_version_ c) (pid_man_ c) (pid_suback_ c) (pid_unsuback_ c) (pid_puback_ c) (pid_pubrec_ c)
    (pid_pubcomp_ c) (need_store_ c) (store_ c) (offline_publish_ c) (auto_pub_response_ c)
    (auto_ping_response_ c) (auto_map_topic_alias_send_ c) (auto_replace_topic_alias_send_ c)
    (topic_alias_send_ c) (topic_alias_recv_ c) (publish_send_max_ c) (publish_recv_max_ c)
    (publish_send_count_ c) x (maximum_packet_size_send_ c) (maximum_packet_size_recv_ c) (status_ c)
    (pingreq_send_interval_ms_ c) (pingreq_recv_timeout_ms_ c) (pingresp_recv_timeout_ms_ c)
    (qos2_publish_handled_ c) (qos2_publish_processing_ c) (pingreq_send_set_ c) (pingreq_recv_set_ c)
    (pingresp_recv_set_ c) (rpb_ c) (is_client_ c).
Definition set_maximum_packet_size_send_ (x : Z) (c : connection) : connection :=
  mk_connection
    (protocol_version_ c) (pid_man_ c) (pid_suback_ c) (pid_unsuback_ c) (pid_puback_ c) (pid_pubrec_ c)
    (pid_pubcomp_ c) (need_store_ c) (store_ c) (offline_publish_ c) (auto_pub_response_ c)
    (auto_ping_response_ c) (auto_map_topic_alias_send_ c) (auto_replace_topic_alias_send_ c)
    (topic_alias_send_ c) (topic_alias_recv_ c) (publish_send_max_ c) (publish_recv_max_ c)
    (publish_send_count_ c) (publish_recv_ c) x (maximum_packet_size_recv_ c) (status_ c)
    (pingreq_send_interval_ms_ c) (pingreq_recv_timeout_ms_ c) (pingresp_recv_timeout_ms_ c)
    (qos2_publish_handled_ c) (qos2_publish_processing_ c) (pingreq_send_set_ c) (pingreq_recv_set_ c)
    (pingresp_recv_set_ c) (rpb_ c) (is_client_ c).
Definition set_maximum_packet_size_recv_ (x : Z) (c : connection) : connection :=
  mk_connection
    (protocol_version_ c) (pid_man_ c) (pid_suback_ c) (pid_unsuback_ c) (pid_puback_ c) (pid_pubrec_ c)
    (pid_pubcomp_ c) (need_store_ c) (store_ c) (offline_publish_ c) (auto_pub_response_ c)
    (auto_ping_response_ c) (auto_map_topic_alias_send_ c) (auto_replace_topic_alias_send_ c)
    (topic_alias_send_ c) (topic_alias_recv_ c) (publish_send_max_ c) (publish_recv_max_ c)
    (publish_send_count_ c) (publish_recv_ c) (maximum_packet_size_send_ c) x (status_ c)
    (pingreq_send_interval_ms_ c) (pingreq_recv_timeout_ms_ c) (pingresp_recv_timeout_ms_ c)
    (qos2_publish_handled_ c) (qos2_publish_processing_ c) (pingreq_send_set_ c) (pingreq_recv_set_ c)
    (pingresp_recv_set_ c) (rpb_ c) (is_client_ c).
Definition set_status_ (x : connection_status.t) (c : connection) : connection :=
  mk_connection
    (protocol_version_ c) (pid_man_ c) (pid_suback_ c) (pid_unsuback_ c) (pid_puback_ c) (pid_pubrec_ c)
    (pid_pubcomp_ c) (need_store_ c) (store_ c) (offline_publish_ c) (auto_pub_response_ c)
    (auto_ping_response_ c) (auto_map_topic_alias_send_ c) (auto_replace_topic_alias_send_ c)
    (topic_alias_send_ c) (topic_alias_recv_ c) (publish_send_max_ c) (publish_recv_max_ c)
    (publish_send_count_ c) (publish_recv_ c) (maximum_packet_size_send_ c) (maximum_packet_size_recv_ c) x
    (pingreq_send_interval_ms_ c) (pingreq_recv_timeout_ms_ c) (pingresp_recv_timeout_ms_ c)
    (qos2_publish_handled_ c) (qos2_publish_processing_ c) (pingreq_send_set_ c) (pingreq_recv_set_ c)
    (pingresp_recv_set_ c) (rpb_ c) (is_client_ c).
Definition set_pingreq_send_interval_ms_ (x : option Z) (c : connection) : connection :=
  mk_connection
    (protocol_version_ c) (pid_man_ c) (pid_suback_ c) (pid_unsuback_ c) (pid_puback_ c) (pid_pubrec_ c)
    (pid_pubcomp_ c) (need_store_ c) (store_ c) (offline_publish_ c) (auto_pub_response_ c)
    (auto_ping_response_ c) (auto_map_topic_alias_send_ c) (auto_replace_topic_alias_send_ c)
    (topic_alias_send_ c) (topic_alias_recv_ c) (publish_send_max_ c) (publish_recv_max_ c)
    (publish_send_count_ c) (publish_recv_ c) (maximum_packet_size_send_ c) (maximum_packet_size_recv_ c)
    (status_ c) x (pingreq_recv_timeout_ms_ c) (pingresp_recv_timeout_ms_ c) (qos2_publish_handled_ c)
    (qos2_publish_processing_ c) (pingreq_send_set_ c) (pingreq_recv_set_ c) (pingresp_recv_set_ c)
    (rpb_ c) (is_client_ c).
Definition set_pingreq_recv_timeout_ms_ (x : option Z) (c : connection) : connection :=
  mk_connection
    (protocol_version_ c) (pid_man_ c) (pid_suback_ c) (pid_unsuback_ c) (pid_puback_ c) (pid_pubrec_ c)
    (pid_pubcomp_ c) (need_store_ c) (store_ c) (offline_publish_ c) (auto_pub_response_ c)
    (auto_ping_response_ c) (auto_map_topic_alias_send_ c) (auto_replace_topic_alias_send_ c)
    (topic_alias_send_ c) (topic_alias_recv_ c) (publish_send_max_ c) (publish_recv_max_ c)
    (publish_send_count_ c) (publish_recv_ c) (maximum_packet_size_send_ c) (maximum_packet_size_recv_ c)
    (status_ c) (pingreq_send_interval_ms_ c) x (pingresp_recv_timeout_ms_ c) (qos2_publish_handled_ c)
    (qos2_publish_processing_ c) (pingreq_send_set_ c) (pingreq_recv_set_ c) (pingresp_recv_set_ c)
    (rpb_ c) (is_client_ c).
Definition set_pingresp_recv_timeout_ms_ (x : option Z) (c : connection) : connection :=
  mk_connection
    (protocol_version_ c) (pid_man_ c) (pid_suback_ c) (pid_unsuback_ c) (pid_puback_ c) (pid_pubrec_ c)
    (pid_pubcomp_ c) (need_store_ c) (store_ c) (offline_publish_ c) (auto_pub_response_ c)
    (auto_ping_response_ c) (auto_map_topic_alias_send_ c) (auto_replace_topic_alias_send_ c)
    (topic_alias_send_ c) (topic_alias_recv_ c) (publish_send_max_ c) (publish_recv_max_ c)
    (publish_send_count_ c) (publish_recv_ c) (maximum_packet_size_send_ c) (maximum_packet_size_recv_ c)
    (status_ c) (pingreq_send_interval_ms_ c) (pingreq_recv_timeout_ms_ c) x (qos2_publish_handled_ c)
    (qos2_publish_processing_ c) (pingreq_send_set_ c) (pingreq_recv_set_ c) (pingresp_recv_set_ c)
    (rpb_ c) (is_client_ c).
Definition set_qos2_publish_handled_ (x : gset Z) (c : connection) : connection :=
  mk_connection
    (protocol_version_ c) (pid_man_ c) (pid_suback_ c) (pid_unsuback_ c) (pid_puback_ c) (pid_pubrec_ c)
    (pid_pubcomp_ c) (need_store_ c) (store_ c) (offline_publish_ c) (auto_pub_response_ c)
    (auto_ping_response_ c) (auto_map_topic_alias_send_ c) (auto_replace_topic_alias_send_ c)
    (topic_alias_send_ c) (topic_alias_recv_ c) (publish_send_max_ c) (publish_recv_max_ c)
    (publish_send_count_ c) (publish_recv_ c) (maximum_packet_size_send_ c) (maximum_packet_size_recv_ c)
    (status_ c) (pingreq_send_interval_ms_ c) (pingreq_recv_timeout_ms_ c) (pingresp_recv_timeout_ms_ c) x
    (qos2_publish_processing_ c) (pingreq_send_set_ c) (pingreq_recv_set_ c) (pingresp_recv_set_ c)
    (rpb_ c) (is_client_ c).
Definition set_qos2_publish_processing_ (x : gset Z) (c : connection) : connection :=
  mk_connection
    (protocol_version_ c) (pid_man_ c) (pid_suback_ c) (pid_unsuback_ c) (pid_puback_ c) (pid_pubrec_ c)
    (pid_pubcomp_ c) (need_store_ c) (store_ c) (offline_publish_ c) (auto_pub_response_ c)
    (auto_ping_response_ c) (auto_map_topic_alias_send_ c) (auto_replace_topic_alias_send_ c)
    (topic_alias_send_ c) (topic_alias_recv_ c) (publish_send_max_ c) (publish_recv_max_ c)
    (publish_send_count_ c) (publish_recv_ c) (maximum_packet_size_send_ c) (maximum_packet_size_recv_ c)
    (status_ c) (pingreq_send_interval_ms_ c) (pingreq_recv_timeout_ms_ c) (pingresp_recv_timeout_ms_ c)
    (qos2_publish_handled_ c) x (pingreq_send_set_ c) (pingreq_recv_set_ c) (pingresp_recv_set_ c) (rpb_ c)
    (is_client_ c).
Definition set_pingreq_send_set_ (x : bool) (c : connection) : connection :=
  mk_connection
    (protocol_version_ c) (pid_man_ c) (pid_suback_ c) (pid_unsuback_ c) (pid_puback_ c) (pid_pubrec_ c)
    (pid_pubcomp_ c) (need_store_ c) (store_ c) (offline_publish_ c) (auto_pub_response_ c)
    (auto_ping_response_ c) (auto_map_topic_alias_send_ c) (auto_replace_topic_alias_send_ c)
    (topic_alias_send_ c) (topic_alias_recv_ c) (publish_send_max_ c) (publish_recv_max_ c)
    (publish_send_count_ c) (publish_recv_ c) (maximum_packet_size_send_ c) (maximum_packet_size_recv_ c)
    (status_ c) (pingreq_send_interval_ms_ c) (pingreq_recv_timeout_ms_ c) (pingresp_recv_timeout_ms_ c)
    (qos2_publish_handled_ c) (qos2_publish_processing_ c) x (pingreq_recv_set_ c) (pingresp_recv_set_ c)
    (rpb_ c) (is_client_ c).
Definition set_pingreq_recv_set_ (x : bool) (c : connection) : connection :=
  mk_connection
    (protocol_version_ c) (pid_man_ c) (pid_suback_ c) (pid_unsuback_ c) (pid_puback_ c) (pid_pubrec_ c)
    (pid_pubcomp_ c) (need_store_ c) (store_ c) (offline_publish_ c) (auto_pub_response_ c)
    (auto_ping_response_ c) (auto_map_topic_alias_send_ c) (auto_replace_topic_alias_send_ c)
    (topic_alias_send_ c) (topic_alias_recv_ c) (publish_send_max_ c) (publish_recv_max_ c)
    (publish_send_count_ c) (publish_recv_ c) (maximum_packet_size_send_ c) (maximum_packet_size_recv_ c)
    (status_ c) (pingreq_send_interval_ms_ c) (pingreq_recv_timeout_ms_ c) (pingresp_recv_timeout_ms_ c)
    (qos2_publish_handled_ c) (qos2_publish_processing_ c) (pingreq_send_set_ c) x (pingresp_recv_set_ c)
    (rpb_ c) (is_client_ c).
Definition set_pingresp_recv_set_ (x : bool) (c : connection) : connection :=
  mk_connection
    (protocol_version_ c) (pid_man_ c) (pid_suback_ c) (pid_unsuback_ c) (pid_puback_ c) (pid_pubrec_ c)
    (pid_pubcomp_ c) (need_store_ c) (store_ c) (offline_publish_ c) (auto_pub_response_ c)
    (auto_ping_response_ c) (auto_map_topic_alias_send_ c) (auto_replace_topic_alias_send_ c)
    (topic_alias_send_ c) (topic_alias_recv_ c) (publish_send_max_ c) (publish_recv_max_ c)
    (publish_send_count_ c) (publish_recv_ c) (maximum_packet_size_send_ c) (maximum_packet_size_recv_ c)
    (status_ c) (pingreq_send_interval_ms_ c) (pingreq_recv_timeout_ms_ c) (pingresp_recv_timeout_ms_ c)
    (qos2_publish_handled_ c) (qos2_publish_processing_ c) (pingreq_send_set_ c) (pingreq_recv_set_ c) x
    (rpb_ c) (is_client_ c).
Definition set_rpb_ (x : PacketBuilder.recv_packet_builder) (c : connection) : connection :=
  mk_connection
    (protocol_version_ c) (pid_man_ c) (pid_suback_ c) (pid_unsuback_ c) (pid_puback_ c) (pid_pubrec_ c)
    (pid_pubcomp_ c) (need_store_ c) (store_ c) (offline_publish_ c) (auto_pub_response_ c)
    (auto_ping_response_ c) (auto_map_topic_alias_send_ c) (auto_replace_topic_alias_send_ c)
    (topic_alias_send_ c) (topic_alias_recv_ c) (publish_send_max_ c) (publish_recv_max_ c)
    (publish_send_count_ c) (publish_recv_ c) (maximum_packet_size_send_ c) (maximum_packet_size_recv_ c)
    (status_ c) (pingreq_send_interval_ms_ c) (pingreq_recv_timeout_ms_ c) (pingresp_recv_timeout_ms_ c)
    (qos2_publish_handled_ c) (qos2_publish_processing_ c) (pingreq_send_set_ c) (pingreq_recv_set_ c)
    (pingresp_recv_set_ c) x (is_client_ c).
Definition set_is_client_ (x : bool) (c : connection) : connection :=
  mk_connection
    (protocol_version_ c) (pid_man_ c) (pid_suback_ c) (pid_unsuback_ c) (pid_puback_ c) (pid_pubrec_ c)
    (pid_pubcomp_ c) (need_store_ c) (store_ c) (offline_publish_ c) (auto_pub_response_ c)
    (auto_ping_response_ c) (auto_map_topic_alias_send_ c) (auto_replace_topic_alias_send_ c)
    (topic_alias_send_ c) (topic_alias_recv_ c) (publish_send_max_ c) (publish_recv_max_ c)
    (publish_send_count_ c) (publish_recv_ c) (maximum_packet_size_send_ c) (maximum_packet_size_recv_ c)
    (status_ c) (pingreq_send_interval_ms_ c) (pingreq_recv_timeout_ms_ c) (pingresp_recv_timeout_ms_ c)
    (qos2_publish_handled_ c) (qos2_publish_processing_ c) (pingreq_send_set_ c) (pingreq_recv_set_ c)
    (pingresp_recv_set_ c) (rpb_ c) x.

End state.

Arguments connection M {BE BMI} pidb.

(** ** Programs

    A member function runs from a state to a state and the callbacks it makes
    on the way.  It can throw [system_error], and a failed [BOOST_ASSERT] or
    an access the language leaves undefined has no outcome to speak of. *)
Section prog.
Context {M : Type} {BE : BoostEndian} {BMI : BoostMultiIndex} {pidb : nat}.

Inductive outcome (A : Type) : Type :=
| Return (a : A) (c : connection M pidb) (es : list event)
| Throw (ec : error_code) (c : connection M pidb) (es : list event)
| Undefined.
Arguments Return {A} a c es.
Arguments Throw {A} ec c es.
Arguments Undefined {A}.

Definition prog (A : Type) : Type := connection M pidb -> outcome A.

#[export] Instance prog_ret : MRet prog := fun A a c => Return a c [].

#[export] Instance prog_bind : MBind prog := fun A B f m c =>
  match m c with
  | Return a c1 es1 =>
    match f a c1 with
    | Return b c2 es2 => Return b c2 (es1 ++ es2)
    | Throw ec c2 es2 => Throw ec c2 (es1 ++ es2)
    | Undefined => Undefined
    end
  | Throw ec c1 es1 => Throw ec c1 es1
  | Undefined => Undefined
  end.

Definition gets {A} (f : connection M pidb -> A) : prog A := fun c => Return (f c) c [].
Definition modify (f : connection M pidb -> connection M pidb) : prog unit := fun c => Return tt (f c) [].
Definition emit (e : event) : prog unit := fun c => Return tt c [e].
Definition throw {A} (ec : error_code) : prog A := fun c => Throw ec c [].
Definition undefined {A} : prog A := fun _ => Undefined.

(** [BOOST_ASSERT] *)
Definition assert (b : bool) : prog unit := if b then mret tt else undefined.

(** a constructor that throws *)
Definition or_throw {A} (r : result A) : prog A :=
  match r with
  | Ok a => mret a
  | Err ec => throw ec
  | Undef => undefined
  end.

(** a value the code takes for granted *)
Definition or_undefined {A} (o : option A) : prog A :=
  match o with
  | Some a => mret a
  | None => undefined
  end.

Definition when (b : bool) (m : prog unit) : prog unit := if b then m else mret tt.

Fixpoint for_each {A} (f : A -> prog unit) (l : list A) : prog unit :=
  match l with
  | [] => mret tt
  | x :: l => f x ;; for_each f l
  end.
End prog.

Arguments outcome M {BE BMI} pidb A.
Arguments prog M {BE BMI} pidb A.
Arguments Return {M BE BMI pidb A} a c es.
Arguments Throw {M BE BMI pidb A} ec c es.
Arguments Undefined {M BE BMI pidb A}.
