(* ===== verification/BufferToPacket.v ===== *)
(** * Parsing by packet type: impl/buffer_to_packet_variant.ipp

    [buffer_to_packet_variant] looks at the type in the first byte and at the
    protocol version and calls the parser of the class.  The version of a
    CONNECT is read from the packet when the connection does not know it
    (packet/impl/get_protocol_version.hpp).  [packet_bytes] is what
    [basic_packet_variant::const_buffer_sequence] serializes to. *)
From S2P Require Import Prelude Boost Utf8 Wire Error Property Field Packet PublishPacket ControlPacket.
From S2P Require Import EntryPacket ConnectPacket PacketBuilder Store ConnectionState.

(** [static_cast<protocol_version>]: the values that are not enumerators take
    the same branch as [undetermined] *)
Definition version_of_byte (b : byte) : protocol_version.t :=
  if u8 b =? 4 then protocol_version.v3_1_1
  else if u8 b =? 5 then protocol_version.v5
  else protocol_version.undetermined.

(** [buf.size() >= 6] is what the code tests before it reads [buf[6]] *)
Definition get_protocol_version (buf : list byte) : result protocol_version.t :=
  match insert_advance_variable_length (skipn 1 buf) with
  | Some (_, _, buf) =>
    if 6 <=? Z.of_nat (length buf) then
      match nth_error buf 6 with
      | Some b => Ok (version_of_byte b)
      | None => Undef
      end
    else Ok protocol_version.undetermined
  | None => Ok protocol_version.undetermined
  end.

Definition as_packet {A} (packet : A -> packet_variant) (r : result A) : result packet_variant :=
  (let? p := r in Ok (packet p))%result.

(** the two versions of a class; the others are a protocol error *)
Definition by_version (ver : protocol_version.t) (v3 v5 : result packet_variant) : result packet_variant :=
  match ver with
  | protocol_version.v3_1_1 => v3
  | protocol_version.v5 => v5
  | protocol_version.undetermined => Err protocol_error
  end.

Section parse.
Context {BE : BoostEndian}.
Variable pidb : nat.

Definition parse_connect (ver : protocol_version.t) (buf : list byte) : result packet_variant :=
  let v3 := as_packet v3_1_1_connect (V3Connect.parse buf) in
  let v5 := as_packet v5_connect (V5Connect.parse buf) in
  match ver with
  | protocol_version.v3_1_1 => v3
  | protocol_version.v5 => v5
  | protocol_version.undetermined =>
    (let? ver := get_protocol_version buf in
     match ver with
     | protocol_version.v3_1_1 => v3
     | protocol_version.v5 => v5
     | protocol_version.undetermined => Err unsupported_version
     end)%result
  end.

Definition parse_type (cpt : Z) (ver : protocol_version.t) (buf : list byte) : result packet_variant :=
  if cpt =? control_packet_type.connect then parse_connect ver buf
  else if cpt =? control_packet_type.connack then
    by_version ver (as_packet v3_1_1_connack (Fixed.parse_v3_connack buf)) (as_packet v5_connack (V5Connack.parse buf))
  else if cpt =? control_packet_type.publish then
    by_version ver (as_packet v3_1_1_publish (V3.parse_publish pidb buf)) (as_packet v5_publish (V5.parse_publish pidb buf))
  else if cpt =? control_packet_type.puback then
    by_version ver (as_packet v3_1_1_puback (Fixed.parse_v3_puback pidb buf)) (as_packet v5_puback (Ack.parse_v5_puback pidb buf))
  else if cpt =? control_packet_type.pubrec then
    by_version ver (as_packet v3_1_1_pubrec (Fixed.parse_v3_pubrec pidb buf)) (as_packet v5_pubrec (Ack.parse_v5_pubrec pidb buf))
  else if cpt =? control_packet_type.pubrel then
    by_version ver (as_packet v3_1_1_pubrel (Fixed.parse_v3_pubrel pidb buf)) (as_packet v5_pubrel (Ack.parse_v5_pubrel pidb buf))
  else if cpt =? control_packet_type.pubcomp then
    by_version ver (as_packet v3_1_1_pubcomp (Fixed.parse_v3_pubcomp pidb buf)) (as_packet v5_pubcomp (Ack.parse_v5_pubcomp pidb buf))
  else if cpt =? control_packet_type.subscribe then
    by_version ver (as_packet v3_1_1_subscribe (Topics.parse_v3_subscribe pidb buf))
      (as_packet v5_subscribe (Topics.parse_v5_subscribe pidb buf))
  else if cpt =? control_packet_type.suback then
    by_version ver (as_packet v3_1_1_suback (Codes.parse_v3_suback pidb buf)) (as_packet v5_suback (Codes.parse_v5_suback pidb buf))
  else if cpt =? control_packet_type.unsubscribe then
    by_version ver (as_packet v3_1_1_unsubscribe (Topics.parse_v3_unsubscribe pidb buf))
      (as_packet v5_unsubscribe (Topics.parse_v5_unsubscribe pidb buf))
  else if cpt =? control_packet_type.unsuback then
    by_version ver (as_packet v3_1_1_unsuback (Fixed.parse_v3_unsuback pidb buf))
      (as_packet v5_unsuback (Codes.parse_v5_unsuback pidb buf))
  else if cpt =? control_packet_type.pingreq then
    by_version ver (as_packet v3_1_1_pingreq (Fixed.parse_v3_pingreq buf)) (as_packet v5_pingreq (Fixed.parse_v5_pingreq buf))
  else if cpt =? control_packet_type.pingresp then
    by_version ver (as_packet v3_1_1_pingresp (Fixed.parse_v3_pingresp buf)) (as_packet v5_pingresp (Fixed.parse_v5_pingresp buf))
  else if cpt =? control_packet_type.disconnect then
    by_version ver (as_packet v3_1_1_disconnect (Fixed.parse_v3_disconnect buf))
      (as_packet v5_disconnect (Reason.parse_v5_disconnect buf))
  else if cpt =? control_packet_type.auth then
    by_version ver (Err protocol_error) (as_packet v5_auth (Reason.parse_v5_auth buf))
  else Err malformed.

Definition buffer_to_packet_variant (buf : list byte) (ver : protocol_version.t) : result packet_variant :=
  match buf with
  | [] | [_] => Err malformed
  | b :: _ => parse_type (get_control_packet_type (u8 b)) ver buf
  end.

(** ** Serializing *)
Definition const_buffer_sequence (pv : packet_variant) : list (list byte) :=
  match pv with
  | v3_1_1_connack p | v3_1_1_puback p | v3_1_1_pubrec p | v3_1_1_pubrel p | v3_1_1_pubcomp p
  | v3_1_1_unsuback p | v3_1_1_pingreq p | v3_1_1_pingresp p | v3_1_1_disconnect p
  | v5_pingreq p | v5_pingresp p => Fixed.const_buffer_sequence p
  | v3_1_1_connect p => V3Connect.const_buffer_sequence p
  | v3_1_1_publish p => V3.const_buffer_sequence pidb p
  | v3_1_1_subscribe p => Topics.const_buffer_sequence v3_subscribe_class p
  | v3_1_1_suback p => Codes.const_buffer_sequence v3_suback_class p
  | v3_1_1_unsubscribe p => Topics.const_buffer_sequence v3_unsubscribe_class p
  | v5_connect p => V5Connect.const_buffer_sequence p
  | v5_connack p => V5Connack.const_buffer_sequence p
  | v5_publish p => V5.const_buffer_sequence pidb p
  | v5_puback p | v5_pubrec p | v5_pubrel p | v5_pubcomp p => Ack.const_buffer_sequence p
  | v5_subscribe p => Topics.const_buffer_sequence v5_subscribe_class p
  | v5_suback p => Codes.const_buffer_sequence v5_suback_class p
  | v5_unsubscribe p => Topics.const_buffer_sequence v5_unsubscribe_class p
  | v5_unsuback p => Codes.const_buffer_sequence v5_unsuback_class p
  | v5_disconnect p | v5_auth p => Reason.const_buffer_sequence p
  end.

Definition packet_bytes (pv : packet_variant) : list byte := concat (const_buffer_sequence pv).
End parse.

(** ** What the constructors build *)
Section built.
Context {BE : BoostEndian}.
Variable pidb : nat.

Definition id_range (pid : Z) : Prop := 0 <= pid < 256 ^ Z.of_nat pidb.

Definition built_fixed (make : Z -> fixed_packet) (p : fixed_packet) : Prop := exists pid, id_range pid /\ p = make pid.

Definition built_ack (cls : reason_class) (p : v5_ack.ack_packet) : Prop :=
  ack_ok pidb cls p /\ (pidb = 2%nat \/ v5_ack.reason_code_ p = None \/ v5_ack.props_ p <> []).

Definition built_topics {entry} (cls : topics_class entry) (made : entry -> Prop)
    (p : entries_packet.entries_packet entry) : Prop :=
  exists pid entries ps, id_range pid /\ Forall made entries /\ entries <> [] /\ Forall property_ok ps /\
    (tc_location cls = None -> ps = []) /\ Topics.make pidb cls pid entries ps = Ok p /\
    entries_packet.remaining_length_ p <= max_variable_bytes.

Definition built_codes (cls : codes_class) (p : code_packet) : Prop :=
  exists pid codes ps, id_range pid /\ Forall (fun c => In c (cc_codes cls)) codes /\ codes <> [] /\ Forall property_ok ps /\
    (cc_location cls = None -> ps = []) /\ Codes.make pidb cls pid codes ps = Ok p /\
    entries_packet.remaining_length_ p <= max_variable_bytes.

(** The packets of a class that can go over the wire: what the constructors
    build (a PUBLISH as [make_v3_publish] and [make_v5_publish] give it), with
    the length within what a variable byte integer can carry, codes of the
    enumerations, and a will with a QoS.  Two kinds of packets that the
    constructors accept are left out, since the parsers do not give them back:
    a SUBSCRIBE of v5 and an UNSUBSCRIBE without entries
    ([topics_roundtrip] has their error), and, unless packet identifiers have two bytes, a v5
    acknowledgement that ends with its reason code
    ([v5_ack_reason_code_lost]). *)
Definition built (pv : packet_variant) : Prop :=
  match pv with
  | v3_1_1_connect p =>
    exists clean keep_alive client_id w user password, 0 <= keep_alive < 65536 /\ will_ok w /\
      V3Connect.make clean keep_alive client_id w user password = Ok p /\ v3_1_1.remaining_length_ p <= max_variable_bytes
  | v3_1_1_connack p => exists session_present code, 0 <= code <= 5 /\ p = Fixed.make_v3_connack session_present code
  | v3_1_1_publish p => v3_publish_ok pidb p
  | v3_1_1_puback p => built_fixed (Fixed.make_v3_puback pidb) p
  | v3_1_1_pubrec p => built_fixed (Fixed.make_v3_pubrec pidb) p
  | v3_1_1_pubrel p => built_fixed (Fixed.make_v3_pubrel pidb) p
  | v3_1_1_pubcomp p => built_fixed (Fixed.make_v3_pubcomp pidb) p
  | v3_1_1_subscribe p => built_topics v3_subscribe_class made_subopts p
  | v3_1_1_suback p => built_codes v3_suback_class p
  | v3_1_1_unsubscribe p => built_topics v3_unsubscribe_class made_topic p
  | v3_1_1_unsuback p => built_fixed (Fixed.make_v3_unsuback pidb) p
  | v3_1_1_pingreq p => p = Fixed.make_v3_pingreq
  | v3_1_1_pingresp p => p = Fixed.make_v3_pingresp
  | v3_1_1_disconnect p => p = Fixed.make_v3_disconnect
  | v5_connect p =>
    exists clean keep_alive client_id w user password ps, 0 <= keep_alive < 65536 /\ will_ok w /\ will_props_ok w /\
      Forall property_ok ps /\ V5Connect.make clean keep_alive client_id w user password ps = Ok p /\
      v5.remaining_length_ p <= max_variable_bytes
  | v5_connack p =>
    exists session_present code ps, In code V5Connack.reason_codes /\ Forall property_ok ps /\
      Connack.make_v5_connack session_present code ps = Ok p /\ v5_connack.remaining_length_ p <= max_variable_bytes
  | v5_publish p => v5_publish_ok pidb p
  | v5_puback p => built_ack puback_class p
  | v5_pubrec p => built_ack pubrec_class p
  | v5_pubrel p => built_ack pubrel_class p
  | v5_pubcomp p => built_ack pubcomp_class p
  | v5_subscribe p => built_topics v5_subscribe_class made_subopts p
  | v5_suback p => built_codes v5_suback_class p
  | v5_unsubscribe p => built_topics v5_unsubscribe_class made_topic p
  | v5_unsuback p => built_codes v5_unsuback_class p
  | v5_pingreq p => p = Fixed.make_v5_pingreq
  | v5_pingresp p => p = Fixed.make_v5_pingresp
  | v5_disconnect p => reason_packet_ok disconnect_class p
  | v5_auth p => reason_packet_ok auth_class p
  end.

(** the payload of a PUBLISH arrives as one buffer *)
Definition as_received (pv : packet_variant) : packet_variant :=
  match pv with
  | v3_1_1_publish p =>
    v3_1_1_publish (v3_publish.mk_publish (v3_publish.fixed_header_ p) (v3_publish.topic_name_ p)
      (v3_publish.topic_name_length_buf_ p) (v3_publish.packet_id_ p) (one_payload (v3_publish.payloads_ p))
      (v3_publish.remaining_length_ p) (v3_publish.remaining_length_buf_ p))
  | v5_publish p =>
    v5_publish (v5_publish.mk_publish (v5_publish.fixed_header_ p) (v5_publish.topic_name_ p)
      (v5_publish.topic_name_length_buf_ p) (v5_publish.packet_id_ p) (v5_publish.property_length_ p)
      (v5_publish.property_length_buf_ p) (v5_publish.props_ p) (one_payload (v5_publish.payloads_ p))
      (v5_publish.remaining_length_ p) (v5_publish.remaining_length_buf_ p))
  | _ => pv
  end.

Definition packet_version (pv : packet_variant) : protocol_version.t :=
  if is_v5 pv then protocol_version.v5 else protocol_version.v3_1_1.

Definition packet_type (pv : packet_variant) : Z :=
  match pv with
  | v3_1_1_connect _ | v5_connect _ => control_packet_type.connect
  | v3_1_1_connack _ | v5_connack _ => control_packet_type.connack
  | v3_1_1_publish _ | v5_publish _ => control_packet_type.publish
  | v3_1_1_puback _ | v5_puback _ => control_packet_type.puback
  | v3_1_1_pubrec _ | v5_pubrec _ => control_packet_type.pubrec
  | v3_1_1_pubrel _ | v5_pubrel _ => control_packet_type.pubrel
  | v3_1_1_pubcomp _ | v5_pubcomp _ => control_packet_type.pubcomp
  | v3_1_1_subscribe _ | v5_subscribe _ => control_packet_type.subscribe
  | v3_1_1_suback _ | v5_suback _ => control_packet_type.suback
  | v3_1_1_unsubscribe _ | v5_unsubscribe _ => control_packet_type.unsubscribe
  | v3_1_1_unsuback _ | v5_unsuback _ => control_packet_type.unsuback
  | v3_1_1_pingreq _ | v5_pingreq _ => control_packet_type.pingreq
  | v3_1_1_pingresp _ | v5_pingresp _ => control_packet_type.pingresp
  | v3_1_1_disconnect _ | v5_disconnect _ => control_packet_type.disconnect
  | v5_auth _ => control_packet_type.auth
  end.

(** fixed header of the type, remaining length, and that many bytes *)
Definition frame_of (cpt : Z) (bytes : list byte) : Prop :=
  exists h body, Z.of_nat (length body) <= max_variable_bytes /\
    bytes = h :: val_to_variable_bytes (Z.of_nat (length body)) ++ body /\ get_control_packet_type (u8 h) = cpt.
End built.

(** ** Facts *)

Lemma is_type_type cpt v : is_type cpt v = true -> get_control_packet_type v = cpt.
Proof.
  unfold is_type, get_control_packet_type_with_check, get_control_packet_type.
  match goal with |- context[if ?b then Some _ else None] => destruct b end; [apply Z.eqb_eq | done].
Qed.

(** Every serialization is a frame when [size()] is its length. *)
Lemma frame_from_size cpt fh rl body :
  get_control_packet_type (u8 (to_byte fh)) = cpt -> rl <= max_variable_bytes ->
  framed_size (val_to_variable_bytes rl) rl = Z.of_nat (length (to_byte fh :: val_to_variable_bytes rl ++ body)) ->
  frame_of cpt (to_byte fh :: val_to_variable_bytes rl ++ body).
Proof.
  unfold framed_size. cbn [length]. rewrite length_app. intros Ht Hmax Hs. exists (to_byte fh), body.
  assert (rl = Z.of_nat (length body)) as <- by lia. done.
Qed.

Lemma frame_framed cpt bytes : frame_of cpt bytes -> framed bytes.
Proof. intros (h & body & Hl & Hb & _). by exists h, body. Qed.

Section facts.
Context {BE : BoostEndian} {BEO : BoostEndianOk}.
Variable pidb : nat.
Hypothesis Hpidb : (0 < pidb <= 4)%nat.

Lemma parse_frame_type cpt bytes ver :
  frame_of cpt bytes -> buffer_to_packet_variant pidb bytes ver = parse_type pidb cpt ver bytes.
Proof.
  intros (h & body & Hl & -> & <-). unfold buffer_to_packet_variant.
  pose proof (val_to_variable_bytes_nonempty pidb Hpidb (Z.of_nat (length body))) as Hn.
  destruct (val_to_variable_bytes _) as [|b rlb]; [|done]. exfalso. apply Hn; [lia | done].
Qed.

(** *** The frames, class by class *)

Lemma fixed_id_frame cpt flags pid :
  id_range pidb pid -> get_control_packet_type (u8 (to_byte (make_fixed_header cpt flags))) = cpt ->
  frame_of cpt (all_ (Fixed.make_with_packet_id pidb cpt flags pid)).
Proof.
  intros Hp Ht. pose proof (length_endian_store pidb pid Hp) as Hl. exists (to_byte (make_fixed_header cpt flags)), (endian_store pidb pid).
  rewrite Hl. split; [unfold max_variable_bytes; lia|]. split; [|done].
  assert (Hc : pidb = 1%nat \/ pidb = 2%nat \/ pidb = 3%nat \/ pidb = 4%nat) by lia.
  unfold Fixed.make_with_packet_id. simpl. f_equal. f_equal. destruct Hc as [-> | [-> | [-> | ->]]]; reflexivity.
Qed.

Lemma ack_frame cls p : known_class cls -> ack_ok pidb cls p -> frame_of (class_type cls) (concat (Ack.const_buffer_sequence p)).
Proof.
  intros Hk Hp. pose proof (ack_size pidb Hpidb _ _ Hp) as Hs. destruct Hp as (Hf & _ & _ & _ & Hm & Hb).
  unfold Ack.size in Hs. rewrite ack_bytes, Hb, Hf in *. apply frame_from_size; [|done..].
  by destruct Hk as [->|[->|[->|[->|[->| ->]]]]].
Qed.

Lemma reason_frame cls p :
  known_class cls -> reason_packet_ok cls p -> frame_of (class_type cls) (concat (Reason.const_buffer_sequence p)).
Proof.
  intros Hk Hp. pose proof (proj2 (v5_reason_roundtrip pidb Hpidb _ _ Hk Hp)) as Hs. destruct Hp as (Hf & _ & _ & Hm & Hb).
  unfold Reason.size, Reason.const_buffer_sequence in *. rewrite Hb, Hf in *. apply frame_from_size; [|done..].
  by destruct Hk as [->|[->|[->|[->|[->| ->]]]]].
Qed.

Lemma topics_frame {entry} (cls : topics_class entry) made `{TOK : !TopicsOk cls made} p :
  built_topics pidb cls made p -> frame_of (tc_type cls) (concat (Topics.const_buffer_sequence cls p)).
Proof.
  intros (pid & entries & ps & Hpid & Hm & Hne & Hps & Hn & H & Hmax).
  destruct (parse_topics_bytes pidb Hpidb _ _ _ _ Hpid Hm Hps Hn H Hmax) as [_ Hs].
  destruct (make_topics_Ok pidb Hpidb _ _ _ _ Hm Hps Hn H Hmax) as (_ & _ & Hp & _). pose proof topics_header as [Ht Hu].
  rewrite Hp in Hs |- *. apply frame_from_size; [|done..]. cbn [entries_packet.fixed_header_]. rewrite Hu. by apply is_type_type.
Qed.

Lemma codes_frame cls `{COK : !CodesOk cls} p :
  built_codes pidb cls p -> frame_of (cc_type cls) (concat (Codes.const_buffer_sequence cls p)).
Proof.
  intros (pid & codes & ps & Hpid & Hc & Hne & Hps & Hn & H & Hmax).
  destruct (codes_roundtrip pidb Hpidb _ _ _ _ Hpid Hc Hps Hn H Hmax) as (_ & Hs & _).
  unfold Codes.make in H. bind_inv. subst p. pose proof codes_header as [Ht Hu].
  match goal with H : variable_length_buf _ = _ |- _ => apply variable_length_buf_Ok in H; subst end.
  apply frame_from_size; [|done..]. cbn [entries_packet.fixed_header_]. rewrite Hu. by apply is_type_type.
Qed.

Lemma v3_connect_frame clean keep_alive client_id w user password p :
  0 <= keep_alive < 65536 -> will_ok w -> V3Connect.make clean keep_alive client_id w user password = Ok p ->
  v3_1_1.remaining_length_ p <= max_variable_bytes ->
  frame_of control_packet_type.connect (concat (V3Connect.const_buffer_sequence p)).
Proof.
  intros Hk Hw H Hmax. destruct (v3_connect_roundtrip _ _ _ _ _ _ _ Hk Hw H Hmax) as (_ & Hs & _).
  unfold V3Connect.make in H. bind_inv. subst p.
  match goal with H : variable_length_buf _ = _ |- _ => apply variable_length_buf_Ok in H; subst end.
  by apply frame_from_size.
Qed.

Lemma v5_connect_frame clean keep_alive client_id w user password ps p :
  0 <= keep_alive < 65536 -> will_ok w -> will_props_ok w -> Forall property_ok ps ->
  V5Connect.make clean keep_alive client_id w user password ps = Ok p ->
  v5.remaining_length_ p <= max_variable_bytes ->
  frame_of control_packet_type.connect (concat (V5Connect.const_buffer_sequence p)).
Proof.
  intros Hk Hw Hwp Hps H Hmax. destruct (v5_connect_roundtrip _ _ _ _ _ _ _ _ Hk Hw Hwp Hps H Hmax) as (_ & Hs & _).
  unfold V5Connect.make in H. bind_inv. subst p.
  repeat match goal with H : variable_length_buf _ = _ |- _ => apply variable_length_buf_Ok in H; subst end.
  by apply frame_from_size.
Qed.

Lemma v5_connack_frame session_present code ps p :
  In code V5Connack.reason_codes -> Forall property_ok ps -> Connack.make_v5_connack session_present code ps = Ok p ->
  v5_connack.remaining_length_ p <= max_variable_bytes ->
  frame_of control_packet_type.connack (concat (V5Connack.const_buffer_sequence p)).
Proof.
  intros Hc Hps H Hmax. destruct (v5_connack_roundtrip _ _ _ _ Hc Hps H Hmax) as (_ & Hs & _).
  unfold Connack.make_v5_connack in H. bind_inv. subst p.
  repeat match goal with H : variable_length_buf _ = _ |- _ => apply variable_length_buf_Ok in H; subst end.
  by apply frame_from_size.
Qed.

Lemma publish_frame fh rl rlb body bytes :
  header_ok fh -> rlb = val_to_variable_bytes rl -> rl <= max_variable_bytes -> Z.of_nat (length body) = rl ->
  bytes = to_byte fh :: rlb ++ body -> frame_of control_packet_type.publish bytes.
Proof.
  intros (Hf & _ & Ht) -> Hmax Hl ->. apply frame_from_size; [by rewrite u8_to_byte_small | done|].
  unfold framed_size. cbn [length]. rewrite length_app. lia.
Qed.

Lemma as_packet_Ok {A} (packet : A -> packet_variant) r p : r = Ok p -> as_packet packet r = Ok (packet p).
Proof. by intros ->. Qed.

(** What the frame lemmas and the parsers' lemmas say, for all classes: the
    bytes are a frame, the parser of the type gives the packet, and [size()]
    is exact. *)
Definition read_back (pv : packet_variant) : Prop :=
  frame_of (packet_type pv) (packet_bytes pidb pv) /\
  parse_type pidb (packet_type pv) (packet_version pv) (packet_bytes pidb pv) = Ok (as_received pv) /\
  packet_size pv = Z.of_nat (length (packet_bytes pidb pv)).

Lemma read_fixed cpt flags p packet :
  built_fixed pidb (Fixed.make_with_packet_id pidb cpt flags) p ->
  is_type cpt (u8 (to_byte (make_fixed_header cpt flags))) = true ->
  frame_of cpt (concat (Fixed.const_buffer_sequence p)) /\
  as_packet packet (Fixed.parse_with_packet_id pidb cpt (concat (Fixed.const_buffer_sequence p))) = Ok (packet p) /\
  fixed_size p = Z.of_nat (length (concat (Fixed.const_buffer_sequence p))).
Proof.
  intros (pid & Hpid & ->) Ht. unfold Fixed.const_buffer_sequence. cbn [concat]. rewrite app_nil_r.
  split; [|split; [|done]]; [apply fixed_id_frame; [done|]; by apply is_type_type|].
  unfold as_packet. by rewrite (proj1 (fixed_packet_roundtrip pidb Hpidb cpt flags pid Hpid Ht)).
Qed.

Lemma read_ack cls p packet :
  known_class cls -> built_ack pidb cls p -> frame_of (class_type cls) (concat (Ack.const_buffer_sequence p)) /\
  as_packet packet (Ack.parse_ack pidb cls (concat (Ack.const_buffer_sequence p))) = Ok (packet p) /\
  framed_size (v5_ack.remaining_length_buf_ p) (v5_ack.remaining_length_ p) =
    Z.of_nat (length (concat (Ack.const_buffer_sequence p))).
Proof.
  intros Hk [Hp Hc]. destruct (v5_ack_roundtrip pidb Hpidb cls p Hk Hp Hc) as [Hparse Hs].
  split; [by apply ack_frame|]. split; [|done]. unfold as_packet. by rewrite Hparse.
Qed.

Lemma read_reason cls p packet :
  known_class cls -> reason_packet_ok cls p -> frame_of (class_type cls) (concat (Reason.const_buffer_sequence p)) /\
  as_packet packet (Reason.parse_reason_packet cls (concat (Reason.const_buffer_sequence p))) = Ok (packet p) /\
  framed_size (v5_reason.remaining_length_buf_ p) (v5_reason.remaining_length_ p) =
    Z.of_nat (length (concat (Reason.const_buffer_sequence p))).
Proof.
  intros Hk Hp. destruct (v5_reason_roundtrip pidb Hpidb cls p Hk Hp) as [Hparse Hs].
  split; [by apply reason_frame|]. split; [|done]. unfold as_packet. by rewrite Hparse.
Qed.

Lemma read_topics {entry} (cls : topics_class entry) made `{TOK : !TopicsOk cls made} p packet :
  built_topics pidb cls made p -> frame_of (tc_type cls) (concat (Topics.const_buffer_sequence cls p)) /\
  as_packet packet (Topics.parse pidb cls (concat (Topics.const_buffer_sequence cls p))) = Ok (packet p) /\
  framed_size (entries_packet.remaining_length_buf_ p) (entries_packet.remaining_length_ p) =
    Z.of_nat (length (concat (Topics.const_buffer_sequence cls p))).
Proof.
  intros Hb. split; [by eapply topics_frame|]. destruct Hb as (pid & entries & ps & Hpid & Hm & Hne & Hps & Hn & H & Hmax).
  destruct (parse_topics_bytes pidb Hpidb _ _ _ _ Hpid Hm Hps Hn H Hmax) as [Hparse Hs]. split; [|done].
  unfold as_packet. by rewrite Hparse, bool_decide_false.
Qed.

Lemma read_codes cls `{COK : !CodesOk cls} p packet :
  built_codes pidb cls p -> frame_of (cc_type cls) (concat (Codes.const_buffer_sequence cls p)) /\
  as_packet packet (Codes.parse pidb cls (concat (Codes.const_buffer_sequence cls p))) = Ok (packet p) /\
  framed_size (entries_packet.remaining_length_buf_ p) (entries_packet.remaining_length_ p) =
    Z.of_nat (length (concat (Codes.const_buffer_sequence cls p))).
Proof.
  intros Hb. split; [by eapply codes_frame|]. destruct Hb as (pid & codes & ps & Hpid & Hc & Hne & Hps & Hn & H & Hmax).
  destruct (codes_roundtrip pidb Hpidb _ _ _ _ Hpid Hc Hps Hn H Hmax) as (Hparse & Hs & _). split; [|done].
  unfold as_packet. by rewrite Hparse, bool_decide_false.
Qed.

(** Every built packet is read back. *)
Lemma built_read_back pv : built pidb pv -> read_back pv.
Proof.
  assert (Hk : forall cls, In cls [puback_class; pubrec_class; pubrel_class; pubcomp_class; disconnect_class; auth_class] ->
    known_class cls) by (simpl; unfold known_class; intuition).
  destruct pv as [p|p|p|p|p|p|p|p|p|p|p|p|p|p|p|p|p|p|p|p|p|p|p|p|p|p|p|p|p]; cbn [built]; intros H.
  - destruct H as (clean & ka & cid & w & user & pw & Hka & Hw & Hm & Hmax).
    destruct (v3_connect_roundtrip _ _ _ _ _ _ _ Hka Hw Hm Hmax) as (Hp & Hs & _).
    split; [by eapply v3_connect_frame|]. split; [|exact Hs]. exact (as_packet_Ok v3_1_1_connect _ _ Hp).
  - destruct H as (sp & code & Hc & ->). split; [|split; [|by destruct sp]].
    + exists x20, [if sp then x01 else x00; to_byte code]. by destruct sp.
    + cbn. unfold Fixed.parse_v3_connack. simpl. rewrite u8_to_byte_small by lia. rewrite (proj2 (Z.leb_le _ _)) by lia.
      by destruct sp.
  - destruct (v3_publish_roundtrip pidb Hpidb p H) as (Hp & Hs & _). pose proof (length_v3_body pidb Hpidb p H).
    destruct H as (Hh & _ & _ & _ & Hmax & Hb). split; [|split; [|exact Hs]].
    + by eapply publish_frame; [..|apply v3_bytes].
    + exact (as_packet_Ok v3_1_1_publish _ _ Hp).
  - exact (read_fixed control_packet_type.puback 0 p v3_1_1_puback H eq_refl).
  - exact (read_fixed control_packet_type.pubrec 0 p v3_1_1_pubrec H eq_refl).
  - exact (read_fixed control_packet_type.pubrel 2 p v3_1_1_pubrel H eq_refl).
  - exact (read_fixed control_packet_type.pubcomp 0 p v3_1_1_pubcomp H eq_refl).
  - exact (read_topics v3_subscribe_class made_subopts p v3_1_1_subscribe H).
  - exact (read_codes v3_suback_class p v3_1_1_suback H).
  - exact (read_topics v3_unsubscribe_class made_topic p v3_1_1_unsubscribe H).
  - exact (read_fixed control_packet_type.unsuback 0 p v3_1_1_unsuback H eq_refl).
  - subst p. split; [exists xc0, []|]; by vm_compute.
  - subst p. split; [exists xd0, []|]; by vm_compute.
  - subst p. split; [exists xe0, []|]; by vm_compute.
  - destruct H as (clean & ka & cid & w & user & pw & ps & Hka & Hw & Hwp & Hps & Hm & Hmax).
    destruct (v5_connect_roundtrip _ _ _ _ _ _ _ _ Hka Hw Hwp Hps Hm Hmax) as (Hp & Hs & _).
    split; [by eapply v5_connect_frame|]. split; [|exact Hs]. exact (as_packet_Ok v5_connect _ _ Hp).
  - destruct H as (sp & code & ps & Hc & Hps & Hm & Hmax).
    destruct (v5_connack_roundtrip _ _ _ _ Hc Hps Hm Hmax) as (Hp & Hs & _).
    split; [by eapply v5_connack_frame|]. split; [|exact Hs]. exact (as_packet_Ok v5_connack _ _ Hp).
  - pose proof (parse_publish_bytes pidb Hpidb p H) as Hp. pose proof (v5_publish_size pidb Hpidb p H) as Hs.
    pose proof (length_v5_body pidb Hpidb p H).
    destruct H as (Hh & _ & _ & _ & _ & _ & _ & Hmax & Hb). split; [|split; [|exact Hs]].
    + by eapply publish_frame; [..|apply v5_bytes].
    + exact (as_packet_Ok v5_publish _ _ Hp).
  - exact (read_ack puback_class p v5_puback (Hk puback_class ltac:(simpl; tauto)) H).
  - exact (read_ack pubrec_class p v5_pubrec (Hk pubrec_class ltac:(simpl; tauto)) H).
  - exact (read_ack pubrel_class p v5_pubrel (Hk pubrel_class ltac:(simpl; tauto)) H).
  - exact (read_ack pubcomp_class p v5_pubcomp (Hk pubcomp_class ltac:(simpl; tauto)) H).
  - exact (read_topics v5_subscribe_class made_subopts p v5_subscribe H).
  - exact (read_codes v5_suback_class p v5_suback H).
  - exact (read_topics v5_unsubscribe_class made_topic p v5_unsubscribe H).
  - exact (read_codes v5_unsuback_class p v5_unsuback H).
  - subst p. split; [exists xc0, []|]; by vm_compute.
  - subst p. split; [exists xd0, []|]; by vm_compute.
  - exact (read_reason disconnect_class p v5_disconnect (Hk disconnect_class ltac:(simpl; tauto)) H).
  - exact (read_reason auth_class p v5_auth (Hk auth_class ltac:(simpl; tauto)) H).
Qed.

(** *** The version of a CONNECT *)

Lemma get_protocol_version_connect h rl level rest :
  0 <= rl <= max_variable_bytes ->
  get_protocol_version (h :: val_to_variable_bytes rl ++ protocol_name_and_level level ++ rest) = Ok (version_of_byte level).
Proof.
  intros Hrl. unfold get_protocol_version, skipn. rewrite insert_advance_variable_length_encode by done.
  by rewrite (proj2 (Z.leb_le _ _)) by (simpl; lia).
Qed.

Lemma framed_size_nonneg h rl body :
  framed_size (val_to_variable_bytes rl) rl = Z.of_nat (length (h :: val_to_variable_bytes rl ++ body)) -> 0 <= rl.
Proof. unfold framed_size. cbn [length]. rewrite length_app. lia. Qed.

Lemma connect_version pv :
  built pidb pv -> is_connect pv = true -> get_protocol_version (packet_bytes pidb pv) = Ok (packet_version pv).
Proof.
  destruct pv as [p| | | | | | | | | | | | | |p| | | | | | | | | | | | | |]; try done; intros H _; cbn [built] in H.
  - destruct H as (clean & ka & cid & w & user & pw & Hka & Hw & Hm & Hmax).
    destruct (v3_connect_roundtrip _ _ _ _ _ _ _ Hka Hw Hm Hmax) as (_ & Hs & _).
    unfold V3Connect.make in Hm. bind_inv. subst p.
    match goal with H : variable_length_buf _ = _ |- _ => apply variable_length_buf_Ok in H; subst end.
    apply framed_size_nonneg in Hs. by apply get_protocol_version_connect.
  - destruct H as (clean & ka & cid & w & user & pw & ps & Hka & Hw & Hwp & Hps & Hm & Hmax).
    destruct (v5_connect_roundtrip _ _ _ _ _ _ _ _ Hka Hw Hwp Hps Hm Hmax) as (_ & Hs & _).
    unfold V5Connect.make in Hm. bind_inv. subst p.
    repeat match goal with H : variable_length_buf _ = _ |- _ => apply variable_length_buf_Ok in H; subst end.
    apply framed_size_nonneg in Hs. by apply get_protocol_version_connect.
Qed.

Lemma parse_connect_version bytes pv ver :
  get_protocol_version bytes = Ok (packet_version pv) -> is_connect pv = true ->
  (ver = packet_version pv \/ ver = protocol_version.undetermined) ->
  parse_type pidb (packet_type pv) ver bytes = parse_type pidb (packet_type pv) (packet_version pv) bytes.
Proof.
  intros Hv Hc [->|Hver]; [done|]. subst ver. revert Hv.
  destruct pv; try done; cbn; intros Hv; unfold parse_connect; by rewrite Hv.
Qed.

(** [built] packets are parsed as [as_received] by any connection that has
    their version or, for a CONNECT, no version yet. *)
Lemma built_parse pv ver :
  built pidb pv -> ver = packet_version pv \/ (ver = protocol_version.undetermined /\ is_connect pv = true) ->
  buffer_to_packet_variant pidb (packet_bytes pidb pv) ver = Ok (as_received pv).
Proof.
  intros Hb Hver. destruct (built_read_back pv Hb) as (Hf & Hp & _). rewrite (parse_frame_type _ _ _ Hf), <- Hp.
  destruct Hver as [->|[-> Hc]]; [done|]. apply parse_connect_version; auto using connect_version.
Qed.

(** C36: what a CONNECT is constructed from arrives.  A v3.1.1 or v5 CONNECT
    built from arguments (a will of QoS 0, 1 or 2; a remaining length a
    variable byte integer can carry) and serialized is parsed, by a connection
    that knows no version yet, into a packet whose accessors give the
    arguments.  The dup bit of the will is dropped, and in v3.1.1 its
    properties. *)
Theorem connect_arguments clean keep_alive client_id w user password :
  0 <= keep_alive < 65536 -> will_ok w ->
  (forall p, V3Connect.make clean keep_alive client_id w user password = Ok p ->
    v3_1_1.remaining_length_ p <= max_variable_bytes ->
    exists q, buffer_to_packet_variant pidb (packet_bytes pidb (v3_1_1_connect p)) protocol_version.undetermined =
        Ok (v3_1_1_connect q) /\
      v3_clean_session q = clean /\ v3_keep_alive q = keep_alive /\ v3_1_1.client_id_ q = client_id /\
      V3Connect.user_name q = user /\ V3Connect.password q = password /\ V3Connect.get_will q = option_map v3_will w) /\
  (forall ps p, will_props_ok w -> Forall property_ok ps ->
    V5Connect.make clean keep_alive client_id w user password ps = Ok p -> v5.remaining_length_ p <= max_variable_bytes ->
    exists q, buffer_to_packet_variant pidb (packet_bytes pidb (v5_connect p)) protocol_version.undetermined =
        Ok (v5_connect q) /\
      v5_clean_start q = clean /\ v5_keep_alive q = keep_alive /\ v5.client_id_ q = client_id /\ v5.props_ q = ps /\
      V5Connect.user_name q = user /\ V5Connect.password q = password /\ V5Connect.get_will q = option_map v5_will w).
Proof.
  intros Hk Hw. split.
  - intros p H Hmax. destruct (v3_connect_roundtrip _ _ _ _ _ _ _ Hk Hw H Hmax) as (_ & _ & Ha). exists p. split; [|exact Ha].
    apply (built_parse (v3_1_1_connect p)); [|by right]. by exists clean, keep_alive, client_id, w, user, password.
  - intros ps p Hwp Hps H Hmax. destruct (v5_connect_roundtrip _ _ _ _ _ _ _ _ Hk Hw Hwp Hps H Hmax) as (_ & _ & Ha).
    exists p. split; [|exact Ha]. apply (built_parse (v5_connect p)); [|by right].
    by exists clean, keep_alive, client_id, w, user, password, ps.
Qed.
End facts.

Section examples.
#[local] Existing Instances BigEndian.big_endian BigEndian.big_endian_ok.


Lemma connect_arguments_witness :
  exists p q, V3Connect.make true 60 [x63] (Some example_will) (Some [x75]) None = Ok p /\
    buffer_to_packet_variant 2 (packet_bytes 2 (v3_1_1_connect p)) protocol_version.undetermined = Ok (v3_1_1_connect q) /\
    v3_keep_alive q = 60 /\ V3Connect.user_name q = Some [x75].
Proof.
  eexists. assert (Hw : will_ok (Some example_will)) by (split; vm_compute; intuition discriminate).
  destruct (connect_arguments 2 ltac:(lia) true 60 [x63] (Some example_will) (Some [x75]) None ltac:(lia) Hw) as [H _].
  edestruct H as (q & Hq & _ & Hk & _ & Hu & _); [reflexivity | done |].
  exists q. split; [reflexivity|]. by split.
Defined.
End examples.
