(* ===== verification/ReadBounds.v ===== *)
(** * What the parsers read and give

    Which packets make a parser read outside of the bytes of the packet.
    [defined] says it does not; a parser is a sequence of binds, and is
    defined when its steps are.  And what a packet that was parsed is like. *)
From S2P Require Import Prelude Boost Utf8 Wire Error Property Field Packet PublishPacket ControlPacket.
From S2P Require Import EntryPacket ConnectPacket PacketBuilder Store ConnectionState BufferToPacket.

Definition defined {A} (r : result A) : Prop := r <> Undef.

Create HintDb defined.

Section steps.
Context {A B : Type}.

Lemma defined_Ok (a : A) : defined (Ok a).
Proof. done. Qed.
Lemma defined_Err ec : defined (Err (A := A) ec).
Proof. done. Qed.
Lemma defined_or_error (o : option A) ec : defined (or_error o ec).
Proof. by destruct o. Qed.
Lemma defined_guard b ec : defined (guard b ec).
Proof. by destruct b. Qed.
Lemma defined_bind (r : result A) (f : A -> result B) :
  defined r -> (forall a, r = Ok a -> defined (f a)) -> defined (result_bind r f).
Proof. intros H Hf. destruct r; simpl; [by apply Hf | done | by destruct H]. Qed.
End steps.

#[export] Hint Resolve defined_Ok defined_Err defined_or_error defined_guard : defined.

Ltac defined_step :=
  match goal with
  | |- defined (result_bind _ _) => apply defined_bind; [|intros ? _]
  | |- defined (match ?x with _ => _ end) => destruct x
  | |- defined _ => solve [auto with defined]
  end.
Ltac is_defined := repeat defined_step.

Section parsers.
Context {BE : BoostEndian}.
Variable pidb : nat.

Lemma defined_parsed {A} (f : A -> property_variant) r : defined r -> defined (parsed f r).
Proof. intros H. unfold parsed. is_defined. Qed.

Lemma defined_make_property_variant b loc : defined (make_property_variant b loc).
Proof.
  unfold make_property_variant, parse_payload_format_indicator, parse_subscription_identifier, parse_receive_maximum,
    parse_maximum_qos, parse_user_property, user_property_ec, parse_maximum_packet_size.
  is_defined; apply defined_parsed || idtac;
    unfold parse_n_bytes, parse_string, parse_binary, make_string_property, make_binary_property, parse_content; is_defined.
Qed.
#[local] Hint Resolve defined_make_property_variant : defined.

Lemma defined_make_properties b loc : defined (make_properties b loc).
Proof.
  unfold make_properties. generalize (length b). intros fuel. revert b.
  induction fuel as [|fuel IH]; intros [|c b]; cbn [make_properties_loop]; is_defined.
Qed.
#[local] Hint Resolve defined_make_properties : defined.

Lemma defined_parse_property_field ec loc buf : defined (parse_property_field ec loc buf).
Proof. unfold parse_property_field. is_defined. Qed.
Lemma defined_parse_field ec buf : defined (parse_field ec buf).
Proof. unfold parse_field. is_defined. Qed.
#[local] Hint Resolve defined_parse_property_field defined_parse_field : defined.

Lemma defined_parse_utf8_field ec buf : defined (parse_utf8_field ec buf).
Proof. unfold parse_utf8_field. is_defined. Qed.
#[local] Hint Resolve defined_parse_utf8_field : defined.

Lemma defined_as_packet {A} (packet : A -> packet_variant) r : defined r -> defined (as_packet packet r).
Proof. intros H. unfold as_packet. is_defined. Qed.

Lemma defined_by_version ver v3 v5 : defined v3 -> defined v5 -> defined (by_version ver v3 v5).
Proof. by destruct ver. Qed.

(** *** Class by class *)

Lemma defined_fixed cpt buf :
  defined (Fixed.parse_with_packet_id pidb cpt buf) /\ defined (Fixed.parse_empty cpt buf) /\
  defined (Fixed.parse_v3_connack buf).
Proof.
  unfold Fixed.parse_with_packet_id, Fixed.parse_empty, Fixed.parse_v3_connack, Fixed.parse_two. split_and!; is_defined.
Qed.

Lemma defined_publish buf : defined (V3.parse_publish pidb buf) /\ defined (V5.parse_publish pidb buf).
Proof. unfold V3.parse_publish, V5.parse_publish, V5.parse_packet_id, V5.parse_properties. split; cbv zeta; is_defined. Qed.

Lemma defined_frame cpt loc buf : defined (parse_frame pidb cpt loc buf).
Proof. unfold parse_frame. is_defined. Qed.
#[local] Hint Resolve defined_frame : defined.

Lemma defined_codes cls buf : defined (Codes.parse pidb cls buf).
Proof.
  assert (forall l, defined (Codes.parse_codes cls l)) by (induction l; cbn [Codes.parse_codes]; is_defined).
  unfold Codes.parse. is_defined.
Qed.

Lemma defined_topics {entry} (cls : topics_class entry) buf :
  (forall t b, defined (tc_parse cls t b)) -> defined (Topics.parse pidb cls buf).
Proof.
  intros Ht. assert (forall fuel b, defined (Topics.parse_entries cls fuel b)).
  { induction fuel as [|fuel IH]; intros [|c b]; cbn [Topics.parse_entries]; unfold Topics.parse_entry; is_defined. }
  unfold Topics.parse. is_defined.
Qed.

Lemma defined_options check t b : (forall e, defined (check e)) -> defined (parse_options check t b).
Proof. intros H. unfold parse_options. is_defined. Qed.

Lemma defined_subscribe buf :
  defined (Topics.parse_v3_subscribe pidb buf) /\ defined (Topics.parse_v5_subscribe pidb buf) /\
  defined (Topics.parse_v3_unsubscribe pidb buf) /\ defined (Topics.parse_v5_unsubscribe pidb buf).
Proof.
  split_and!; apply defined_topics; intros t b; simpl; [| |is_defined..]; apply defined_options; intros e;
    unfold check_v3_opts, check_v5_opts; is_defined.
Qed.

Lemma defined_connect buf : defined (V3Connect.parse buf) /\ defined (V5Connect.parse buf).
Proof.
  unfold V3Connect.parse, V5Connect.parse, parse_connect_head, V3Connect.parse_will, V5Connect.parse_will, check_no_will,
    parse_will_fields, parse_user_name, parse_password. split; is_defined.
Qed.

(** what is left after the reason code has to be there *)
Lemma defined_parse_reason cls short buf : buf <> [] -> defined (parse_reason cls short buf).
Proof. intros Hb. destruct buf as [|c buf]; [done|]. unfold parse_reason, V5.parse_properties. cbn [front result_bind]. is_defined. Qed.

(** a packet whose remaining length is the number of bytes that follow *)
Definition whole (buf : list byte) (h : byte) (l body : list byte) : Prop :=
  buf = h :: l ++ body /\ insert_advance_variable_length (l ++ body) = Some (Z.of_nat (length body), l, body).

Lemma defined_ack cls buf h l body : whole buf h l body -> defined (Ack.parse_ack pidb cls buf).
Proof.
  intros [-> Hl]. unfold Ack.parse_ack. rewrite Hl. cbn [or_error result_bind].
  destruct (insert_advance pidb body) as [[id rest]|] eqn:Hi; [|done]. cbn [or_error result_bind].
  apply copy_advance_Some in Hi as [-> Hid]. destruct (Z.eqb_spec (Z.of_nat (length (id ++ rest))) (Z.of_nat pidb)) as [He|He].
  - is_defined.
  - assert (rest <> []) by (intros ->; apply He; rewrite length_app; simpl; lia).
    apply defined_bind; [by apply defined_parse_reason | intros ? _]. is_defined.
Qed.

Lemma defined_reason cls buf h l body : whole buf h l body -> defined (Reason.parse_reason_packet cls buf).
Proof.
  intros [-> Hl]. unfold Reason.parse_reason_packet. rewrite Hl. cbn [or_error result_bind].
  destruct (Z.eqb_spec (Z.of_nat (length body)) 0) as [He|He]; [is_defined|].
  apply defined_bind; [apply defined_parse_reason; by intros -> | intros ? _]. is_defined.
Qed.

Lemma connack_undefined buf h l body :
  whole buf h l body ->
  V5Connack.parse buf = Undef <->
  is_type control_packet_type.connack (u8 h) = true /\ exists flags, body = [flags] /\ Z.land (u8 flags) 0xfe = 0.
Proof.
  intros [-> Hl]. unfold V5Connack.parse. destruct (is_type control_packet_type.connack (u8 h)).
  2: { split; [done | by intros [? _]]. }
  cbn [guard result_bind]. rewrite Hl. cbn [or_error result_bind]. rewrite Z.eqb_refl. cbn [guard result_bind].
  destruct body as [|flags body]; [split; [done | by intros (_ & ? & ? & _)]|].
  destruct (Z.eqb_spec (Z.land (u8 flags) 0xfe) 0) as [Hf|Hf]; cbn [guard result_bind].
  2: { split; [done | by intros (_ & ? & [= <- _] & ?)]. }
  destruct body as [|code body]; cbn [front result_bind].
  - split; [eauto | done].
  - split; [intros Hu | by intros (_ & ? & [=] & _)]. exfalso. revert Hu. change (defined (A := v5_connack.connack_packet)
      (result_bind (guard (existsb (Z.eqb (u8 code)) V5Connack.reason_codes) malformed) (fun _ => result_bind
      (parse_property_field malformed property_location.connack body) (fun a => let '(pl, plb, ps, buf) := a in
      result_bind (guard (bool_decide (buf = [])) malformed) (fun _ => Ok (v5_connack.mk_connack (u8 h)
      (Z.of_nat (length (flags :: code :: body))) l (u8 flags) (u8 code) pl plb ps)))))). is_defined.
Qed.

Lemma get_protocol_version_undefined buf h l body :
  whole buf h l body -> get_protocol_version buf = Undef <-> length body = 6%nat.
Proof.
  intros [-> Hl]. unfold get_protocol_version, skipn. rewrite Hl.
  destruct (Z.leb_spec 6 (Z.of_nat (length body))); [|split; [done | lia]].
  destruct (nth_error body 6) eqn:Hn; [|apply nth_error_None in Hn].
  - assert (nth_error body 6 <> None) as H6 by congruence. apply nth_error_Some in H6. split; [done | lia].
  - split; [lia | done].
Qed.

(** *** By type *)

Lemma undef_as_packet {A} (packet : A -> packet_variant) r : as_packet packet r = Undef <-> r = Undef.
Proof. by destruct r. Qed.

Lemma defined_by_types ver buf h l body cpt :
  whole buf h l body -> cpt <> control_packet_type.connect -> cpt <> control_packet_type.connack ->
  defined (parse_type pidb cpt ver buf).
Proof.
  intros Hw H1%Z.eqb_neq H2%Z.eqb_neq. unfold parse_type. rewrite H1, H2.
  pose proof (defined_publish buf) as [? ?]. pose proof (defined_subscribe buf) as (? & ? & ? & ?).
  repeat match goal with |- context[if ?b then _ else _] => destruct b end; try done;
    apply defined_by_version; try done; apply defined_as_packet;
    first [done | apply defined_fixed | apply defined_codes | by eapply defined_ack | by eapply defined_reason].
Qed.

Lemma parse_connect_undefined ver buf h l body :
  whole buf h l body -> parse_connect ver buf = Undef <-> ver = protocol_version.undetermined /\ length body = 6%nat.
Proof.
  intros Hw. rewrite <- (get_protocol_version_undefined _ _ _ _ Hw). pose proof (defined_connect buf) as [Hv3 Hv5].
  assert (H3 : as_packet v3_1_1_connect (V3Connect.parse buf) <> Undef) by by rewrite undef_as_packet.
  assert (H5 : as_packet v5_connect (V5Connect.parse buf) <> Undef) by by rewrite undef_as_packet.
  unfold parse_connect. destruct ver; [| |]; try (split; [done | by intros [? _]]).
  split; [intros H; split; [done|] | by intros [_ ->]]. revert H.
  destruct (get_protocol_version buf) as [[]|ec|]; cbn [result_bind]; done.
Qed.

(** a v5 CONNACK of one byte with good flags, where the reason code behind
    them is read; and a CONNECT of six bytes on a connection without a
    version, where the version behind the protocol name is read *)
Definition too_short (ver : protocol_version.t) (h : byte) (body : list byte) : Prop :=
  (ver = protocol_version.v5 /\ is_type control_packet_type.connack (u8 h) = true /\
   exists flags, body = [flags] /\ Z.land (u8 flags) 0xfe = 0) \/
  (ver = protocol_version.undetermined /\ get_control_packet_type (u8 h) = control_packet_type.connect /\
   length body = 6%nat).

(** For a packet of any type and any protocol version whose remaining length
    is the number of the bytes behind it, whatever these bytes are, the parser
    reads inside of the packet, but for the packets that are too short. *)
Lemma parse_undefined buf h l body ver :
  whole buf h l body -> buffer_to_packet_variant pidb buf ver = Undef <-> too_short ver h body.
Proof.
  unfold too_short. intros Hw. pose proof (connack_undefined _ _ _ _ Hw) as Hk. pose proof (parse_connect_undefined ver _ _ _ _ Hw) as Hc.
  assert (Hb : buffer_to_packet_variant pidb buf ver = parse_type pidb (get_control_packet_type (u8 h)) ver buf).
  { destruct Hw as [-> Hl]. destruct l; [destruct body; [done|]|done]. destruct ver; done. }
  rewrite Hb. destruct (Z.eq_dec (get_control_packet_type (u8 h)) control_packet_type.connect) as [He|He].
  { assert (is_type control_packet_type.connack (u8 h) = false) as ->.
    { apply not_true_is_false. intros Ht%is_type_type. by rewrite He in Ht. }
    rewrite He. cbn [parse_type Z.eqb]. unfold parse_type. rewrite Z.eqb_refl, Hc. intuition congruence. }
  destruct (Z.eq_dec (get_control_packet_type (u8 h)) control_packet_type.connack) as [Hn|Hn].
  - rewrite Hn. change (parse_type pidb control_packet_type.connack ver buf) with
      (by_version ver (as_packet v3_1_1_connack (Fixed.parse_v3_connack buf)) (as_packet v5_connack (V5Connack.parse buf))).
    pose proof (proj2 (proj2 (defined_fixed 0 buf))) as Hv3. pose proof (undef_as_packet v3_1_1_connack (Fixed.parse_v3_connack buf)).
    pose proof (undef_as_packet v5_connack (V5Connack.parse buf)). unfold defined in Hv3.
    destruct ver; cbn [by_version]; intuition congruence.
  - pose proof (defined_by_types ver _ _ _ _ _ Hw He Hn) as Hd. unfold defined in Hd.
    split; [done|]. intros [(_ & Ht%is_type_type & _) | (_ & Ht & _)]; congruence.
Qed.
End parsers.

Section arrives.
Context {BE : BoostEndian} {BEO : BoostEndianOk}.
Variable pidb : nat.

(** the properties of a received CONNECT or CONNACK are well formed *)
Definition arrives_ok (pv : packet_variant) : Prop :=
  match pv with
  | v5_connect p => Forall property_ok (v5.props_ p)
  | v5_connack p => Forall property_ok (v5_connack.props_ p)
  | _ => True
  end.

(** ** What the parser gives *)

Lemma as_packet_inv {A} (packet : A -> packet_variant) r pv :
  as_packet packet r = Ok pv -> exists p, r = Ok p /\ pv = packet p.
Proof. unfold as_packet. intros H. bind_inv. eauto. Qed.

Lemma by_version_inv ver v3 v5 pv :
  by_version ver v3 v5 = Ok pv ->
  (ver = protocol_version.v3_1_1 /\ v3 = Ok pv) \/ (ver = protocol_version.v5 /\ v5 = Ok pv).
Proof. destruct ver; simpl; auto; done. Qed.

Lemma property_field_ok ec loc b pl plb ps rest :
  parse_property_field ec loc b = Ok (pl, plb, ps, rest) -> Forall property_ok ps.
Proof.
  unfold parse_property_field. intros H. bind_inv. subst.
  match goal with H : make_properties _ _ = Ok _ |- _ => apply make_properties_Ok in H as [H _] end.
  eapply Forall_impl; [eassumption|]. by intros ? [].
Qed.

(** the version a packet is parsed for *)
Definition parsed_for (ver : protocol_version.t) (pv : packet_variant) : Prop :=
  packet_version pv = ver \/ (ver = protocol_version.undetermined /\ is_connect pv = true).

Lemma v5_connect_arrives buf p : V5Connect.parse buf = Ok p -> Forall property_ok (v5.props_ p).
Proof. unfold V5Connect.parse. intros H. bind_inv. subst. by eapply property_field_ok. Qed.

Lemma v5_connack_arrives buf p : V5Connack.parse buf = Ok p -> Forall property_ok (v5_connack.props_ p).
Proof.
  unfold V5Connack.parse. intros H. destruct buf; [done|]. bind_inv.
  match goal with H : match ?b with _ => _ end = Ok _ |- _ => destruct b; [done|] end. bind_inv. subst.
  by eapply property_field_ok.
Qed.

Lemma parse_type_arrives cpt ver buf pv :
  parse_type pidb cpt ver buf = Ok pv -> parsed_for ver pv /\ arrives_ok pv.
Proof.
  unfold parse_type, parsed_for. intros H.
  repeat match type of H with (if ?b then _ else _) = _ => destruct b; [|] end.
  2-15: apply by_version_inv in H as [[-> H]|[-> H]]; [try discriminate H|]; apply as_packet_inv in H as (p & Hp & ->).
  2-29: split; [by left|]; try done.
  2: by eapply v5_connack_arrives.
  unfold parse_connect in H. destruct ver.
  - bind_inv. match goal with v : protocol_version.t |- _ => destruct v end; [done|..];
      apply as_packet_inv in H as (p & Hp & ->); (split; [by right|]); [done|]. by eapply v5_connect_arrives.
  - apply as_packet_inv in H as (p & Hp & ->). split; [by left | done].
  - apply as_packet_inv in H as (p & Hp & ->). split; [by left|]. by eapply v5_connect_arrives.
Qed.

Lemma parse_arrives buf ver pv :
  buffer_to_packet_variant pidb buf ver = Ok pv -> parsed_for ver pv /\ arrives_ok pv.
Proof. destruct buf as [|h [|c buf]]; [done..|]. apply parse_type_arrives. Qed.

End arrives.
