(* ===== verification/ConnectionSend.v ===== *)
(** * The connection: sending

    protocol/impl/connection_send.ipp, and the private functions of
    protocol/impl/connection_impl.ipp it uses.  [process_send_packet] is a
    template on the packet type: an [if constexpr] on the type is a match on
    the variant.  A block of it that can return gives [None] or [false] when
    it returns [false].  [now] is the steady clock. *)
From S2P Require Import Prelude Boost Wire Error Property Packet PublishPacket PacketIdManager TopicAlias Store.
From S2P Require Import ConnectionState.

Section send.
Context {M : Type} {PM : PacketIdManager M} {BE : BoostEndian} {BMI : BoostMultiIndex}.
Variable pidb : nat.
Variable Role : role.t.

Abbreviation program := (prog M pidb).

(** ** Private functions of connection_impl.ipp *)

Definition not_allowed_to_send : error_code := mqtt_ec mqtt_error.packet_not_allowed_to_send.

(** [pid_man_.release_id(packet_id); con_.on_packet_id_release(packet_id);] *)
Definition release_id_and_notify (packet_id : Z) : program unit :=
  modify (fun c => set_pid_man_ (release_id packet_id (pid_man_ c)) c);;
  emit (on_packet_id_release packet_id).

(** the same under [if (packet_id != 0)] *)
Definition release_if_nonzero (packet_id : Z) : program unit :=
  when (negb (packet_id =? 0)) (release_id_and_notify packet_id).

Definition initialize (is_client : bool) : program unit :=
  modify (set_publish_send_max_ None);;
  modify (set_publish_recv_max_ None);;
  modify (set_publish_send_count_ 0);;
  modify (set_topic_alias_send_ None);;
  modify (set_topic_alias_recv_ None);;
  modify (set_publish_recv_ ∅);;
  modify (set_qos2_publish_processing_ ∅);;
  modify (set_need_store_ false);;
  modify (set_pid_suback_ ∅);;
  modify (set_pid_unsuback_ ∅);;
  modify (set_is_client_ is_client).

Definition cancel_pingreq_send : program unit :=
  modify (set_pingreq_send_set_ false);;
  emit (on_timer_op timer_op.cancel timer_kind.pingreq_send None).
Definition cancel_pingreq_recv : program unit :=
  modify (set_pingreq_recv_set_ false);;
  emit (on_timer_op timer_op.cancel timer_kind.pingreq_recv None).
Definition cancel_pingresp_recv : program unit :=
  modify (set_pingresp_recv_set_ false);;
  emit (on_timer_op timer_op.cancel timer_kind.pingresp_recv None).

Definition cancel_timers : program unit :=
  b ← gets pingreq_send_set_; when b cancel_pingreq_send;;
  b ← gets pingreq_recv_set_; when b cancel_pingreq_recv;;
  b ← gets pingresp_recv_set_; when b cancel_pingresp_recv.

Definition reset_pingreq_send (ms : Z) : program unit :=
  modify (set_pingreq_send_set_ true);;
  emit (on_timer_op timer_op.reset timer_kind.pingreq_send (Some ms)).
Definition reset_pingreq_recv (ms : Z) : program unit :=
  modify (set_pingreq_recv_set_ true);;
  emit (on_timer_op timer_op.reset timer_kind.pingreq_recv (Some ms)).
Definition reset_pingresp_recv (ms : Z) : program unit :=
  modify (set_pingresp_recv_set_ true);;
  emit (on_timer_op timer_op.reset timer_kind.pingresp_recv (Some ms)).

Fixpoint get_topic_alias (ps : properties) : option Z :=
  match ps with
  | [] => None
  | topic_alias p :: _ => Some (uint_val 2 p)
  | _ :: ps => get_topic_alias ps
  end.

Definition validate_topic_alias_range (ta : Z) : program bool :=
  o ← gets topic_alias_send_;
  mret (match o with
        | None => false
        | Some t => negb ((ta =? 0) || (Send.max_ t <? ta))
        end).

(** the topic of the alias, which becomes the most recently used *)
Definition validate_topic_alias (now : Z) (ta_opt : option Z) : program (option (list byte)) :=
  match ta_opt with
  | None => mret None
  | Some ta =>
    ok ← validate_topic_alias_range ta;
    if negb ok then mret None
    else
      o ← gets topic_alias_send_;
      t ← or_undefined o;
      modify (set_topic_alias_send_ (Some (snd (Send.find ta now t))));;
      mret (match fst (Send.find ta now t) with [] => None | topic => Some topic end)
  end.

Definition validate_maximum_packet_size (size : Z) : program bool :=
  n ← gets maximum_packet_size_send_; mret (size <=? n).

(** the packets that are still too large are dropped *)
Definition send_stored : program unit :=
  c ← gets id;
  let func e (s : M * list event) :=
    if maximum_packet_size_send_ c <? store_packet_size e
    then (false, (release_id (store_packet_id pidb e) (fst s), snd s ++ [on_packet_id_release (store_packet_id pidb e)]))
    else (true, (fst s, snd s ++ [on_send (store_packet e) None])) in
  let r := Store.for_each pidb func (store_ c) (pid_man_ c, []) in
  modify (set_store_ (fst r));;
  modify (set_pid_man_ (fst (snd r)));;
  for_each emit (snd (snd r)).

(** ** [process_send_packet] *)

Definition version_check (c : connection M pidb) (pv : packet_variant) : bool :=
  match protocol_version_ c with
  | protocol_version.v3_1_1 => is_v3_1_1 pv
  | protocol_version.v5 => is_v5 pv
  | protocol_version.undetermined => false
  end.

Definition status_check (c : connection M pidb) (pv : packet_variant) : bool :=
  if is_connect pv then bool_decide (status_ c = connection_status.disconnected)
  else if is_connack pv then bool_decide (status_ c = connection_status.connecting)
  else if is_auth pv then negb (bool_decide (status_ c = connection_status.disconnected))
  else bool_decide (status_ c = connection_status.connected) || is_publish pv.

Definition role_check (pv : packet_variant) : bool :=
  (can_send_as_client Role && is_client_sendable pv) || (can_send_as_server Role && is_server_sendable pv).

(** what a CONNECT and a CONNACK do to the session *)
Definition clear_session : program unit :=
  modify (fun c => set_pid_man_ (pm_clear (pid_man_ c)) c);;
  modify (fun c => set_store_ (Store.clear pidb (store_ c)) c).

Definition clear_pids : program unit :=
  modify (set_pid_puback_ ∅);;
  modify (set_pid_pubrec_ ∅);;
  modify (set_pid_pubcomp_ ∅).

(** the visitor of a sent CONNECT ([true]) or CONNACK *)
Definition sent_property (is_connect : bool) (prop : property_variant) : program unit :=
  match prop with
  | topic_alias_maximum p =>
    when (negb (uint_val 2 p =? 0)) (modify (set_topic_alias_recv_ (Some (Recv.make_topic_alias_recv (uint_val 2 p)))))
  | receive_maximum p =>
    assert (negb (uint_val 2 p =? 0));;
    modify (set_publish_recv_max_ (Some (uint_val 2 p)))
  | maximum_packet_size p =>
    assert (negb (uint_val 4 p =? 0));;
    modify (set_maximum_packet_size_recv_ (uint_val 4 p))
  | session_expiry_interval p =>
    when (is_connect && negb (uint_val 4 p =? 0)) (modify (set_need_store_ true))
  | _ => mret tt
  end.

(** [pingreq_send_interval_ms_.emplace(...)] when there is none *)
Definition set_keep_alive (keep_alive : Z) : program unit :=
  i ← gets pingreq_send_interval_ms_;
  when (negb (keep_alive =? 0) && bool_decide (i = None)) (modify (set_pingreq_send_interval_ms_ (Some (keep_alive * 1000)))).

Definition send_connack (accepted : bool) (ps : properties) : program unit :=
  if accepted then
    modify (set_status_ connection_status.connected);;
    for_each (sent_property false) ps
  else
    modify (set_status_ connection_status.disconnected);;
    cancel_timers.

Definition start_or_accept (pv : packet_variant) : program unit :=
  match pv with
  | v3_1_1_connect p =>
    initialize true;;
    modify (set_status_ connection_status.connecting);;
    set_keep_alive (v3_keep_alive p);;
    (if v3_clean_session p then
       clear_session;;
       modify (set_need_store_ false);;
       clear_pids
     else modify (set_need_store_ true));;
    modify (set_topic_alias_send_ None)
  | v5_connect p =>
    initialize true;;
    modify (set_status_ connection_status.connecting);;
    set_keep_alive (v5_keep_alive p);;
    when (v5_clean_start p) (clear_session;; clear_pids);;
    for_each (sent_property true) (v5.props_ p)
  | v3_1_1_connack p => send_connack (v3_connack_code p =? connect_return_code.accepted) []
  | v5_connack p => send_connack (v5_connack.reason_code_ p =? connect_reason_code.success) (v5_connack.props_ p)
  | _ => mret tt
  end.

(** [on_error(packet_not_allowed_to_send)] and the release *)
Definition refuse_publish (packet_id : Z) : program unit :=
  emit (on_error not_allowed_to_send);;
  release_if_nonzero packet_id.

(** reject offline topic_alias; [false] when it returns *)
Definition reject_offline_alias (pv : packet_variant) : program bool :=
  match pv with
  | v5_publish p =>
    s ← gets status_;
    if negb (bool_decide (s = connection_status.connected)) && bool_decide (is_Some (get_topic_alias (v5_publish.props_ p)))
    then refuse_publish (packet_id pidb pv);; mret false
    else mret true
  | _ => mret true
  end.

(** [props.erase(it)] for the first topic alias *)
Fixpoint erase_topic_alias (ps : properties) : properties :=
  match ps with
  | [] => []
  | p :: ps => if V5.is_topic_alias p then ps else p :: erase_topic_alias ps
  end.

Definition store_add (pv : packet_variant) : program unit :=
  modify (fun c => set_store_ (fst (add pidb pv (store_ c))) c).

(** the v5 PUBLISH that is stored: with its topic and without alias.
    [Some] is [topic_alias_validated]. *)
Definition store_v5_publish (now packet_id : Z) (p : v5_publish.publish_packet) : program (option bool) :=
  let props := erase_topic_alias (v5_publish.props_ p) in
  match v5_publish.topic_name_ p with
  | [] =>
    topic_opt ← validate_topic_alias now (get_topic_alias (v5_publish.props_ p));
    match topic_opt with
    | None => refuse_publish packet_id;; mret None
    | Some topic =>
      sp ← or_throw (V5.make_publish pidb packet_id topic (v5_publish.payloads_ p) (V5.opts p) props);
      ok ← validate_maximum_packet_size (V5.size sp);
      if negb ok then refuse_publish packet_id;; mret None
      else store_add (v5_publish (V5.set_dup true sp));; mret (Some true)
    end
  | topic =>
    sp ← or_throw (V5.make_publish pidb packet_id topic (v5_publish.payloads_ p) (V5.opts p) props);
    store_add (v5_publish (V5.set_dup true sp));; mret (Some false)
  end.

(** the PUBLISH part of "store publish/pubrel packet", for its QoS:
    [topic_alias_validated] and [release_packet_id_if_send_error] *)
Definition store_publish (now : Z) (pv : packet_variant) (q : Z) : program (option (bool * option Z)) :=
  if negb (is_qos12 q) then mret (Some (false, None))
  else
    let pid := packet_id pidb pv in
    used ← gets (fun c => is_used_id pid (pid_man_ c));
    if negb used then
      emit (on_error (mqtt_ec mqtt_error.packet_identifier_invalid));; mret None
    else
      c ← gets id;
      r ← (if need_store_ c && (negb (bool_decide (status_ c = connection_status.disconnected)) || offline_publish_ c) then
             match pv with
             | v5_publish p =>
               r ← store_v5_publish now pid p;
               mret (match r with Some b => Some (b, None) | None => None end)
             | v3_1_1_publish p =>
               store_add (v3_1_1_publish (V3.set_dup true p));; mret (Some (false, None))
             | _ => mret (Some (false, None))
             end
           else mret (Some (false, Some pid)));
      match r with
      | None => mret None
      | Some r =>
        (if q =? qos.exactly_once then
           modify (fun c => set_qos2_publish_processing_ ({[pid]} ∪ qos2_publish_processing_ c) c);;
           modify (fun c => set_pid_pubrec_ ({[pid]} ∪ pid_pubrec_ c) c)
         else modify (fun c => set_pid_puback_ ({[pid]} ∪ pid_puback_ c) c));;
        mret (Some r)
      end.

Definition map_alias (now ta : Z) (topic : list byte) : program unit :=
  o ← gets topic_alias_send_;
  t ← or_undefined o;
  modify (set_topic_alias_send_ (Some (Send.insert_or_update topic ta now t))).

(** the automatic aliases *)
Definition auto_topic_alias (now : Z) (p : v5_publish.publish_packet) : program v5_publish.publish_packet :=
  c ← gets id;
  if negb (bool_decide (status_ c = connection_status.connected)) then mret p
  else if auto_map_topic_alias_send_ c then
    match topic_alias_send_ c with
    | None => mret p
    | Some t =>
      match Send.find_alias (v5_publish.topic_name_ p) t with
      | Some ta => mret (V5.remove_topic_add_topic_alias ta p)
      | None =>
        lru_ta ← or_undefined (Send.get_lru_alias t);
        map_alias now lru_ta (v5_publish.topic_name_ p);;
        mret (V5.add_topic_alias lru_ta p)
      end
    end
  else if auto_replace_topic_alias_send_ c then
    match topic_alias_send_ c with
    | None => mret p
    | Some t =>
      match Send.find_alias (v5_publish.topic_name_ p) t with
      | Some ta => mret (V5.remove_topic_add_topic_alias ta p)
      | None => mret p
      end
    end
  else mret p.

(** apply topic_alias: the packet to send *)
Definition apply_topic_alias (now : Z) (topic_alias_validated : bool) (p : v5_publish.publish_packet)
    : program (option v5_publish.publish_packet) :=
  let pid := V5.packet_id pidb p in
  let ta_opt := get_topic_alias (v5_publish.props_ p) in
  match v5_publish.topic_name_ p with
  | [] =>
    ok ← (if topic_alias_validated then mret true
          else topic_opt ← validate_topic_alias now ta_opt; mret (bool_decide (is_Some topic_opt)));
    if negb ok then refuse_publish pid;; mret None else mret (Some p)
  | topic =>
    match ta_opt with
    | Some ta =>
      ok ← validate_topic_alias_range ta;
      if negb ok then refuse_publish pid;; mret None
      else map_alias now ta topic;; mret (Some p)
    | None => p ← auto_topic_alias now p; mret (Some p)
    end
  end.

(** receive_maximum for sending; [publish_send_count_] has 16 bits *)
Definition count_publish (pid q : Z) : program bool :=
  if negb (is_qos12 q) then mret true
  else
    c ← gets id;
    match publish_send_max_ c with
    | None => mret true
    | Some n =>
      if publish_send_count_ c =? n then
        emit (on_error (disconnect_ec disconnect_reason_code.receive_maximum_exceeded));;
        release_if_nonzero pid;;
        mret false
      else
        modify (set_publish_send_count_ ((publish_send_count_ c + 1) mod 2 ^ 16));;
        mret true
    end.

(** PUBACK to UNSUBSCRIBE; the result is [release_packet_id_if_send_error] *)
Definition update_packet_ids (pv : packet_variant) : program (option Z) :=
  let pid := packet_id pidb pv in
  match pv with
  | v5_puback _ | v5_pubcomp _ =>
    modify (fun c => set_publish_recv_ (publish_recv_ c ∖ {[pid]}) c);; mret None
  | v5_pubrec p =>
    when (failed (make_error_code pubrec_reason_code_category (v5_ack_code p)))
      (modify (fun c => set_publish_recv_ (publish_recv_ c ∖ {[pid]}) c);;
       modify (fun c => set_qos2_publish_handled_ (qos2_publish_handled_ c ∖ {[pid]}) c));;
    mret None
  | v3_1_1_pubrel _ | v5_pubrel _ =>
    used ← gets (fun c => is_used_id pid (pid_man_ c));
    assert used;;
    need ← gets need_store_;
    when need (store_add pv);;
    modify (fun c => set_pid_pubcomp_ ({[pid]} ∪ pid_pubcomp_ c) c);;
    mret None
  | v3_1_1_subscribe _ | v5_subscribe _ =>
    used ← gets (fun c => is_used_id pid (pid_man_ c));
    assert used;;
    modify (fun c => set_pid_suback_ ({[pid]} ∪ pid_suback_ c) c);;
    mret (Some pid)
  | v3_1_1_unsubscribe _ | v5_unsubscribe _ =>
    used ← gets (fun c => is_used_id pid (pid_man_ c));
    assert used;;
    modify (fun c => set_pid_unsuback_ ({[pid]} ∪ pid_unsuback_ c) c);;
    mret (Some pid)
  | _ => mret None
  end.

(** the calls of [on_send] *)
Definition send_packet (pv : packet_variant) (release_packet_id_if_send_error : option Z) : program bool :=
  match pv with
  | v3_1_1_pingreq _ | v5_pingreq _ =>
    emit (on_send pv release_packet_id_if_send_error);;
    o ← gets pingresp_recv_timeout_ms_;
    match o with
    | Some ms => reset_pingresp_recv ms
    | None => mret tt
    end;;
    mret true
  | v3_1_1_disconnect _ | v5_disconnect _ =>
    modify (set_status_ connection_status.disconnected);;
    cancel_timers;;
    emit (on_send pv release_packet_id_if_send_error);;
    emit on_close;;
    mret true
  | v3_1_1_publish _ | v5_publish _ =>
    c ← gets id;
    if bool_decide (status_ c = connection_status.connected) then
      emit (on_send pv release_packet_id_if_send_error);; mret true
    else if offline_publish_ c then mret true
    else refuse_publish (packet_id pidb pv);; mret false
  | _ => emit (on_send pv release_packet_id_if_send_error);; mret true
  end.

(** from "store publish/pubrel packet" on, for the packet types *)
Definition send_publish_v5 (now : Z) (p : v5_publish.publish_packet) : program bool :=
  let q := pub.get_qos (v5_publish.fixed_header_ p) in
  r ← store_publish now (v5_publish p) q;
  match r with
  | None => mret false
  | Some (topic_alias_validated, release) =>
    r ← apply_topic_alias now topic_alias_validated p;
    match r with
    | None => mret false
    | Some p =>
      ok ← count_publish (V5.packet_id pidb p) q;
      if negb ok then mret false else send_packet (v5_publish p) release
    end
  end.

Definition send_publish_v3 (now : Z) (p : v3_publish.publish_packet) : program bool :=
  r ← store_publish now (v3_1_1_publish p) (pub.get_qos (v3_publish.fixed_header_ p));
  match r with
  | None => mret false
  | Some (_, release) => send_packet (v3_1_1_publish p) release
  end.

Definition process_send_packet (now : Z) (pv : packet_variant) : program bool :=
  c ← gets id;
  if negb (role_check pv) || negb (status_check c pv) || negb (version_check c pv) then
    emit (on_error not_allowed_to_send);; mret false
  else
    fits ← validate_maximum_packet_size (packet_size pv);
    if negb fits then
      emit (on_error not_allowed_to_send);;
      when (own_packet_id pv) (release_if_nonzero (packet_id pidb pv));;
      mret false
    else
      start_or_accept pv;;
      ok ← reject_offline_alias pv;
      if negb ok then mret false
      else
        match pv with
        | v5_publish p => send_publish_v5 now p
        | v3_1_1_publish p => send_publish_v3 now p
        | _ => release ← update_packet_ids pv; send_packet pv release
        end.

(** [send]: [send_and_post_process] *)
Definition send (now : Z) (pv : packet_variant) : program unit :=
  sent ← process_send_packet now pv;
  when sent
    (when (is_connack pv) send_stored;;
     when (can_send_as_client Role)
       (c ← gets id;
        match is_client_ c, pingreq_send_interval_ms_ c with
        | true, Some ms =>
          if bool_decide (status_ c = connection_status.disconnected) then mret tt else reset_pingreq_send ms
        | _, _ => mret tt
        end)).
End send.
