(* ===== verification/ConnectionRecv.v ===== *)
(** * The connection: receiving, timers and the rest of the interface

    protocol/impl/connection_impl.ipp.  The visitor of [process_recv_packet]
    has a function per packet type here.  The parser is in BufferToPacket.v,
    and [now] is the steady clock. *)
From stdpp Require Import sorting.
From S2P Require Import PacketBuilder.
From S2P Require Import Prelude Boost Wire Error Property Packet PublishPacket ControlPacket PacketIdManager.
From S2P Require Import TopicAlias Store ConnectionState BufferToPacket ConnectionSend.

Section recv.
Context {M : Type} {PM : PacketIdManager M} {BE : BoostEndian} {BMI : BoostMultiIndex}.
Variable pidb : nat.
Variable Role : role.t.
Variable now : Z.

Abbreviation program := (prog M pidb).
Abbreviation send := (send pidb Role now).

(** ** [process_recv_packet] *)

(** a v5 DISCONNECT with the reason code, then the error *)
Definition disconnect_and_error (code : Z) : program unit :=
  send (v5_disconnect (Reason.make_disconnect_code code));;
  emit (on_error (disconnect_ec code)).

Definition close_and_error (code : Z) : program unit :=
  emit on_close;;
  emit (on_error (disconnect_ec code)).

(** [protocol_satisfied] *)
Definition protocol_satisfied (c : connection M pidb) (pv : packet_variant) : bool :=
  if is_connect pv then bool_decide (status_ c = connection_status.disconnected)
  else if is_connack pv then bool_decide (status_ c = connection_status.connecting)
  else if is_auth pv then negb (bool_decide (status_ c = connection_status.disconnected))
  else bool_decide (status_ c = connection_status.connected).

Definition pingreq_recv_op : program unit :=
  o ← gets pingreq_recv_timeout_ms_;
  match o with
  | None => mret tt
  | Some ms =>
    s ← gets status_;
    if bool_decide (s = connection_status.connecting) || bool_decide (s = connection_status.connected)
    then reset_pingreq_recv pidb ms
    else cancel_pingreq_recv pidb
  end.

(** how most functions of the visitor end *)
Definition accept (pv : packet_variant) : program unit :=
  pingreq_recv_op;;
  emit (on_receive pv).

Definition is_connected : program bool :=
  s ← gets status_; mret (bool_decide (s = connection_status.connected)).

(** [auto_pub_response_ && status_ == connected] *)
Definition auto_response : program bool :=
  a ← gets auto_pub_response_;
  s ← is_connected;
  mret (a && s).

Definition set_recv_timeout (keep_alive : Z) : program unit :=
  when (negb (keep_alive =? 0)) (modify (set_pingreq_recv_timeout_ms_ (Some (keep_alive * 1000 * 3 / 2)))).

(** *** CONNECT and CONNACK *)

(** the visitor of the properties of a received CONNECT ([true]) or CONNACK *)
Definition received_property (is_connect : bool) (set_pingreq_send_interval : Z -> program unit)
    (prop : property_variant) : program unit :=
  match prop with
  | topic_alias_maximum p =>
    when (0 <? uint_val 2 p) (modify (set_topic_alias_send_ (Some (Send.make_topic_alias_send (uint_val 2 p)))))
  | receive_maximum p =>
    assert (negb (uint_val 2 p =? 0));;
    modify (set_publish_send_max_ (Some (uint_val 2 p)))
  | maximum_packet_size p =>
    assert (negb (uint_val 4 p =? 0));;
    modify (set_maximum_packet_size_send_ (uint_val 4 p))
  | session_expiry_interval p =>
    when (is_connect && negb (uint_val 4 p =? 0)) (modify (set_need_store_ true))
  | server_keep_alive p =>
    when (negb is_connect && can_send_as_client Role) (set_pingreq_send_interval (uint_val 2 p * 1000))
  | _ => mret tt
  end.

(** [set_pingreq_send_interval(duration)], in milliseconds *)
Definition set_pingreq_send_interval (duration : Z) : program unit :=
  if duration =? 0 then
    modify (set_pingreq_send_interval_ms_ None);;
    modify (set_pingreq_send_set_ false);;
    emit (on_timer_op timer_op.cancel timer_kind.pingreq_send None)
  else
    modify (set_pingreq_send_interval_ms_ (Some duration));;
    modify (set_pingreq_send_set_ true);;
    emit (on_timer_op timer_op.reset timer_kind.pingreq_send (Some duration)).

Definition recv_v3_connect (p : v3_1_1.connect_packet) : program unit :=
  initialize pidb false;;
  modify (set_protocol_version_ protocol_version.v3_1_1);;
  modify (set_status_ connection_status.connecting);;
  set_recv_timeout (v3_keep_alive p);;
  (if v3_clean_session p then
     modify (set_need_store_ false);;
     clear_pids pidb
   else modify (set_need_store_ true));;
  accept (v3_1_1_connect p).

Definition recv_v5_connect (p : v5.connect_packet) : program unit :=
  initialize pidb false;;
  modify (set_protocol_version_ protocol_version.v5);;
  modify (set_status_ connection_status.connecting);;
  set_recv_timeout (v5_keep_alive p);;
  when (v5_clean_start p) (clear_pids pidb);;
  for_each (received_property true set_pingreq_send_interval) (v5.props_ p);;
  accept (v5_connect p).

(** a CONNACK that accepts *)
Definition resume_session (session_present : bool) : program unit :=
  if session_present then send_stored pidb
  else clear_session pidb;; clear_pids pidb.

Definition recv_v3_connack (p : fixed_packet) : program unit :=
  when (v3_connack_code p =? connect_return_code.accepted)
    (modify (set_status_ connection_status.connected);;
     resume_session (v3_connack_session_present p));;
  emit (on_receive (v3_1_1_connack p)).

Definition recv_v5_connack (p : v5_connack.connack_packet) : program unit :=
  when (v5_connack.reason_code_ p =? connect_reason_code.success)
    (modify (set_status_ connection_status.connected);;
     for_each (received_property false set_pingreq_send_interval) (v5_connack.props_ p);;
     resume_session (v5_connack_session_present p));;
  emit (on_receive (v5_connack p)).

(** *** PUBLISH *)

(** [qos2_publish_handled_]: whether the packet identifier was there *)
Definition handle_qos2 (pid : Z) : program bool :=
  h ← gets qos2_publish_handled_;
  if bool_decide (pid ∈ h) then mret true
  else modify (fun c => set_qos2_publish_handled_ ({[pid]} ∪ qos2_publish_handled_ c) c);; mret false.

Definition recv_v3_publish (p : v3_publish.publish_packet) : program unit :=
  let q := pub.get_qos (v3_publish.fixed_header_ p) in
  let pid := V3.packet_id pidb p in
  if q =? qos.at_most_once then accept (v3_1_1_publish p)
  else if q =? qos.at_least_once then
    a ← auto_response;
    when a (send (v3_1_1_puback (Fixed.make_v3_puback pidb pid)));;
    accept (v3_1_1_publish p)
  else if q =? qos.exactly_once then
    already_handled ← handle_qos2 pid;
    s ← is_connected;
    a ← gets auto_pub_response_;
    when (s && (a || already_handled)) (send (v3_1_1_pubrec (Fixed.make_v3_pubrec pidb pid)));;
    pingreq_recv_op;;
    when (negb already_handled) (emit (on_receive (v3_1_1_publish p)))
  else mret tt.

(** the quota of receive_maximum: [false] when it is exceeded *)
Definition receive_quota (pid : Z) : program bool :=
  c ← gets id;
  if match publish_recv_max_ c with
     | Some n => Z.of_nat (size (publish_recv_ c)) =? n
     | None => false
     end
  then disconnect_and_error disconnect_reason_code.receive_maximum_exceeded;; mret false
  else modify (fun c => set_publish_recv_ ({[pid]} ∪ publish_recv_ c) c);; mret true.

(** the QoS of a v5 PUBLISH: [already_handled], [puback_send],
    [pubrec_send], or nothing when the function returns *)
Definition recv_v5_qos (pid q : Z) : program (option (bool * bool * bool)) :=
  if q =? qos.at_least_once then
    ok ← receive_quota pid;
    if negb ok then mret None
    else a ← auto_response; mret (Some (false, a, false))
  else if q =? qos.exactly_once then
    ok ← receive_quota pid;
    if negb ok then mret None
    else
      already_handled ← handle_qos2 pid;
      s ← is_connected;
      a ← gets auto_pub_response_;
      mret (Some (already_handled, false, s && (a || already_handled)))
  else mret (Some (false, false, false)).

(** the alias is not one the peer may use *)
Definition alias_out_of_range (ta : Z) (o : option Recv.topic_alias_recv) : bool :=
  (ta =? 0) || match o with None => true | Some t => Recv.max_ t <? ta end.

(** the topic of a v5 PUBLISH: the packet with its topic, or nothing when
    the function returns *)
Definition recv_v5_topic (p : v5_publish.publish_packet) : program (option v5_publish.publish_packet) :=
  let invalid := (disconnect_and_error disconnect_reason_code.topic_alias_invalid;; mret None) : program (option v5_publish.publish_packet) in
  let ta_opt := get_topic_alias (v5_publish.props_ p) in
  o ← gets topic_alias_recv_;
  match v5_publish.topic_name_ p with
  | [] =>
    match ta_opt with
    | None => invalid
    | Some ta =>
      if alias_out_of_range ta o then invalid
      else
        t ← or_undefined o;
        match Recv.find ta t with
        | [] => invalid
        | topic => mret (Some (V5.add_topic topic p))
        end
    end
  | topic =>
    match ta_opt with
    | None => mret (Some p)
    | Some ta =>
      if alias_out_of_range ta o then invalid
      else
        t ← or_undefined o;
        modify (set_topic_alias_recv_ (Some (Recv.insert_or_update topic ta t)));;
        mret (Some p)
    end
  end.

Definition recv_v5_publish (p : v5_publish.publish_packet) : program unit :=
  let pid := V5.packet_id pidb p in
  r ← recv_v5_qos pid (pub.get_qos (v5_publish.fixed_header_ p));
  match r with
  | None => mret tt
  | Some (already_handled, puback_send, pubrec_send) =>
    r ← recv_v5_topic p;
    match r with
    | None => mret tt
    | Some p =>
      when puback_send (send (v5_puback (Ack.make_ack_id pidb puback_class pid)));;
      when pubrec_send (send (v5_pubrec (Ack.make_ack_id pidb pubrec_class pid)));;
      pingreq_recv_op;;
      when (negb already_handled) (emit (on_receive (v5_publish p)))
    end
  end.

(** *** Responses *)

(** [pid_xxx_.erase(packet_id)]: whether it was there *)
Definition erase_pid (get : connection M pidb -> gset Z) (set : gset Z -> connection M pidb -> connection M pidb)
    (pid : Z) : program bool :=
  s ← gets get;
  modify (fun c => set (get c ∖ {[pid]}) c);;
  mret (bool_decide (pid ∈ s)).

Definition store_erase (r : response_packet) (pid : Z) : program unit :=
  modify (fun c => set_store_ (fst (erase pidb r pid (store_ c))) c).

(** [--publish_send_count_] when there is a receive_maximum *)
Definition uncount : program unit :=
  o ← gets publish_send_max_;
  when (bool_decide (is_Some o))
    (modify (fun c => set_publish_send_count_ ((publish_send_count_ c - 1) mod 2 ^ 16) c)).

Definition end_processing (pid : Z) : program unit :=
  modify (fun c => set_qos2_publish_processing_ (qos2_publish_processing_ c ∖ {[pid]}) c).

(** an identifier no packet waits for *)
Definition unknown_id (v5 : bool) : program unit :=
  if v5 then disconnect_and_error disconnect_reason_code.protocol_error
  else close_and_error disconnect_reason_code.protocol_error.

Definition recv_puback (v5 : bool) (pv : packet_variant) : program unit :=
  let pid := packet_id pidb pv in
  known ← erase_pid pid_puback_ set_pid_puback_ pid;
  if negb known then unknown_id v5
  else
    store_erase (if v5 then res_v5_puback else res_v3_1_1_puback) pid;;
    release_id_and_notify pidb pid;;
    when v5 uncount;;
    accept pv.

Definition recv_v3_pubrec (p : fixed_packet) : program unit :=
  let pid := fixed_packet_id pidb p in
  known ← erase_pid pid_pubrec_ set_pid_pubrec_ pid;
  if negb known then unknown_id false
  else
    store_erase res_v3_1_1_pubrec pid;;
    a ← auto_response;
    when a (send (v3_1_1_pubrel (Fixed.make_v3_pubrel pidb pid)));;
    accept (v3_1_1_pubrec p).

Definition recv_v5_pubrec (p : v5_ack.ack_packet) : program unit :=
  let pid := packet_id pidb (v5_pubrec p) in
  known ← erase_pid pid_pubrec_ set_pid_pubrec_ pid;
  if negb known then unknown_id true
  else
    store_erase res_v5_pubrec pid;;
    (if failed (make_error_code pubrec_reason_code_category (v5_ack_code p)) then
       release_id_and_notify pidb pid;;
       end_processing pid;;
       uncount
     else
       a ← auto_response;
       when a (send (v5_pubrel (Ack.make_ack_id pidb pubrel_class pid))));;
    accept (v5_pubrec p).

Definition recv_pubrel (pv response : packet_variant) : program unit :=
  let pid := packet_id pidb pv in
  modify (fun c => set_qos2_publish_handled_ (qos2_publish_handled_ c ∖ {[pid]}) c);;
  a ← auto_response;
  when a (send response);;
  accept pv.

Definition recv_pubcomp (v5 : bool) (pv : packet_variant) : program unit :=
  let pid := packet_id pidb pv in
  known ← erase_pid pid_pubcomp_ set_pid_pubcomp_ pid;
  if negb known then unknown_id v5
  else
    store_erase (if v5 then res_v5_pubcomp else res_v3_1_1_pubcomp) pid;;
    release_id_and_notify pidb pid;;
    end_processing pid;;
    when v5 uncount;;
    accept pv.

Definition recv_suback (v5 : bool) (pv : packet_variant) : program unit :=
  let pid := packet_id pidb pv in
  known ← erase_pid pid_suback_ set_pid_suback_ pid;
  if negb known then unknown_id v5
  else release_id_and_notify pidb pid;; accept pv.

Definition recv_unsuback (v5 : bool) (pv : packet_variant) : program unit :=
  let pid := packet_id pidb pv in
  known ← erase_pid pid_unsuback_ set_pid_unsuback_ pid;
  if negb known then unknown_id v5
  else release_id_and_notify pidb pid;; accept pv.

(** *** PINGREQ, PINGRESP, DISCONNECT *)

Definition recv_pingreq (pv response : packet_variant) : program unit :=
  a ← gets auto_ping_response_;
  s ← is_connected;
  when (can_send_as_server Role && a && s) (send response);;
  accept pv.

Definition recv_pingresp (pv : packet_variant) : program unit :=
  cancel_pingresp_recv pidb;;
  emit (on_receive pv).

Definition recv_disconnect (pv : packet_variant) : program unit :=
  modify (set_status_ connection_status.disconnected);;
  cancel_timers pidb;;
  emit (on_receive pv).

(** the visitor *)
Definition process_packet (pv : packet_variant) : program unit :=
  match pv with
  | v3_1_1_connect p => recv_v3_connect p
  | v5_connect p => recv_v5_connect p
  | v3_1_1_connack p => recv_v3_connack p
  | v5_connack p => recv_v5_connack p
  | v3_1_1_publish p => recv_v3_publish p
  | v5_publish p => recv_v5_publish p
  | v3_1_1_puback _ => recv_puback false pv
  | v5_puback _ => recv_puback true pv
  | v3_1_1_pubrec p => recv_v3_pubrec p
  | v5_pubrec p => recv_v5_pubrec p
  | v3_1_1_pubrel p =>
    recv_pubrel pv (v3_1_1_pubcomp (Fixed.make_v3_pubcomp pidb (packet_id pidb pv)))
  | v5_pubrel p =>
    recv_pubrel pv (v5_pubcomp (Ack.make_ack_id pidb pubcomp_class (packet_id pidb pv)))
  | v3_1_1_pubcomp _ => recv_pubcomp false pv
  | v5_pubcomp _ => recv_pubcomp true pv
  | v3_1_1_subscribe _ | v5_subscribe _ | v3_1_1_unsubscribe _ | v5_unsubscribe _ | v5_auth _ => accept pv
  | v3_1_1_suback _ => recv_suback false pv
  | v5_suback _ => recv_suback true pv
  | v3_1_1_unsuback _ => recv_unsuback false pv
  | v5_unsuback _ => recv_unsuback true pv
  | v3_1_1_pingreq _ => recv_pingreq pv (v3_1_1_pingresp Fixed.make_v3_pingresp)
  | v5_pingreq _ => recv_pingreq pv (v5_pingresp Fixed.make_v5_pingresp)
  | v3_1_1_pingresp _ | v5_pingresp _ => recv_pingresp pv
  | v3_1_1_disconnect _ | v5_disconnect _ => recv_disconnect pv
  end.

(** the error codes the parser reports *)
Definition recv_parse_error (ec : error_code) : program unit :=
  c ← gets id;
  if bool_decide (status_ c = connection_status.disconnected) &&
     bool_decide (category ec = connect_reason_code_category)
  then
    modify (set_status_ connection_status.connecting);;
    (if bool_decide (protocol_version_ c = protocol_version.v5)
     then send (v5_connack (Connack.make_v5_connack_code false (value ec)))
     else send (v3_1_1_connack (Fixed.make_v3_connack false (value ec))));;
    emit (on_error (make_error_code connect_reason_code_category (value ec)))
  else
    (if bool_decide (status_ c = connection_status.connected) && bool_decide (protocol_version_ c = protocol_version.v5)
     then send (v5_disconnect (Reason.make_disconnect_code (value ec)))
     else emit on_close);;
    emit (on_error (disconnect_ec (value ec))).

Definition process_recv_packet : program unit :=
  rpb ← gets rpb_;
  match PacketBuilder.read_packet_ rpb with
  | None => mret tt
  | Some ep =>
    modify (set_rpb_ (PacketBuilder.clear rpb));;
    match ep with
    | ep_error ec =>
      modify (set_status_ connection_status.disconnected);;
      cancel_timers pidb;;
      emit on_close;;
      emit (on_error ec)
    | ep_packet buf =>
      c ← gets id;
      if maximum_packet_size_recv_ c <? Z.of_nat (length buf) then
        assert (bool_decide (protocol_version_ c = protocol_version.v5));;
        disconnect_and_error disconnect_reason_code.packet_too_large
      else
        match buffer_to_packet_variant pidb buf (protocol_version_ c) with
        | Undef => undefined
        | Err ec => recv_parse_error ec
        | Ok pv =>
          if protocol_satisfied c pv then process_packet pv
          else emit (on_error protocol_error)
        end
    end
  end.

(** [recv(std::istream&)]: the bytes left in the stream *)
Definition recv (stream : list byte) : program (list byte) :=
  rpb ← gets rpb_;
  let r := PacketBuilder.recv stream rpb in
  modify (set_rpb_ (fst r));;
  process_recv_packet;;
  mret (snd r).

(** ** The rest of the interface *)

Definition timeout_disconnect : program unit :=
  s ← is_connected;
  when s
    (d ← or_throw (Reason.make_v5_disconnect (Some disconnect_reason_code.keep_alive_timeout) []);
     send (v5_disconnect d)).

Definition notify_timer_fired (kind : timer_kind.t) : program unit :=
  match kind with
  | timer_kind.pingreq_send =>
    modify (set_pingreq_send_set_ false);;
    ver ← gets protocol_version_;
    s ← is_connected;
    match ver with
    | protocol_version.v3_1_1 => when s (send (v3_1_1_pingreq Fixed.make_v3_pingreq))
    | protocol_version.v5 => when s (send (v5_pingreq Fixed.make_v5_pingreq))
    | protocol_version.undetermined => undefined
    end
  | timer_kind.pingreq_recv =>
    modify (set_pingreq_recv_set_ false);;
    ver ← gets protocol_version_;
    match ver with
    | protocol_version.v3_1_1 => emit on_close
    | protocol_version.v5 => timeout_disconnect
    | protocol_version.undetermined => undefined
    end
  | timer_kind.pingresp_recv =>
    modify (set_pingresp_recv_set_ false);;
    ver ← gets protocol_version_;
    match ver with
    | protocol_version.v3_1_1 => emit on_close
    | protocol_version.v5 => timeout_disconnect
    | protocol_version.undetermined => undefined
    end
  end.

Definition release_packet_id (pid : Z) : program unit :=
  used ← gets (fun c => is_used_id pid (pid_man_ c));
  when used (release_id_and_notify pidb pid).

(** [for (auto packet_id : pids) release_packet_id(packet_id);], in the
    ascending order of the [std::set] *)
Definition release_all (pids : gset Z) : program unit :=
  for_each release_packet_id (merge_sort Z.le (elements pids)).

Definition notify_closed : program unit :=
  modify (set_maximum_packet_size_send_ packet_size_no_limit);;
  modify (set_maximum_packet_size_recv_ packet_size_no_limit);;
  modify (set_status_ connection_status.disconnected);;
  modify (set_topic_alias_send_ None);;
  modify (set_topic_alias_recv_ None);;
  pids ← gets pid_suback_; release_all pids;;
  modify (set_pid_suback_ ∅);;
  pids ← gets pid_unsuback_; release_all pids;;
  modify (set_pid_unsuback_ ∅);;
  need ← gets need_store_;
  when (negb need)
    (modify (set_qos2_publish_processing_ ∅);;
     modify (set_qos2_publish_handled_ ∅);;
     pids ← gets pid_puback_; release_all pids;;
     modify (set_pid_puback_ ∅);;
     pids ← gets pid_pubrec_; release_all pids;;
     modify (set_pid_pubrec_ ∅);;
     pids ← gets pid_pubcomp_; release_all pids;;
     modify (set_pid_pubcomp_ ∅));;
  cancel_timers pidb.

Definition set_pingresp_recv_timeout (duration : Z) : program unit :=
  modify (set_pingresp_recv_timeout_ms_ (if duration =? 0 then None else Some duration)).

Definition set_auto_pub_response (val : bool) : program unit := modify (set_auto_pub_response_ val).
Definition set_offline_publish (val : bool) : program unit := modify (set_offline_publish_ val).
Definition set_auto_ping_response (val : bool) : program unit := modify (set_auto_ping_response_ val).
Definition set_auto_map_topic_alias_send (val : bool) : program unit := modify (set_auto_map_topic_alias_send_ val).
Definition set_auto_replace_topic_alias_send (val : bool) : program unit :=
  modify (set_auto_replace_topic_alias_send_ val).

Definition acquire_unique_packet_id : program (option Z) :=
  m ← gets pid_man_;
  modify (set_pid_man_ (snd (acquire_unique_id m)));;
  mret (fst (acquire_unique_id m)).

Definition register_packet_id (pid : Z) : program bool :=
  m ← gets pid_man_;
  modify (set_pid_man_ (snd (register_id pid m)));;
  mret (fst (register_id pid m)).

Definition restore_qos2_publish_handled_pids (pids : gset Z) : program unit := modify (set_qos2_publish_handled_ pids).

(** a packet to restore; [add_store] of an identifier in use skips it *)
Definition restore_packet (e : store_packet_variant) : program unit :=
  let pid := store_packet_id pidb e in
  match var_ e with
  | stored_v3_publish _ | stored_v5_publish _ =>
    let q := match var_ e with
             | stored_v3_publish p => pub.get_qos (v3_publish.fixed_header_ p)
             | stored_v5_publish p => pub.get_qos (v5_publish.fixed_header_ p)
             | _ => 0
             end in
    if q =? qos.at_least_once then modify (fun c => set_pid_puback_ ({[pid]} ∪ pid_puback_ c) c)
    else when (q =? qos.exactly_once) (modify (fun c => set_pid_pubrec_ ({[pid]} ∪ pid_pubrec_ c) c))
  | stored_v3_pubrel _ | stored_v5_pubrel _ => modify (fun c => set_pid_pubcomp_ ({[pid]} ∪ pid_pubcomp_ c) c)
  end;;
  registered ← register_packet_id pid;
  when registered (store_add pidb (store_packet e)).

Definition restore_packets (pvs : list store_packet_variant) : program unit := for_each restore_packet pvs.

(** *** Observers *)

Definition get_receive_maximum_vacancy_for_send (c : connection M pidb) : option Z :=
  match publish_send_max_ c with
  | Some n => Some (size_t (n - publish_send_count_ c))
  | None => None
  end.

Definition get_qos2_publish_handled_pids (c : connection M pidb) : gset Z := qos2_publish_handled_ c.
Definition get_stored_packets (c : connection M pidb) : list store_packet_variant := get_stored pidb (store_ c).
Definition get_protocol_version (c : connection M pidb) : protocol_version.t := protocol_version_ c.
Definition is_publish_processing (pid : Z) (c : connection M pidb) : bool :=
  bool_decide (pid ∈ qos2_publish_processing_ c).
Definition get_connection_status (c : connection M pidb) : connection_status.t := status_ c.

(** the packet without alias, or the error; [topic_alias_send_] is taken
    for granted *)
Definition regulate_for_store (p : v5_publish.publish_packet) : program (result v5_publish.publish_packet) :=
  match v5_publish.topic_name_ p with
  | [] =>
    match get_topic_alias (v5_publish.props_ p) with
    | None => mret (Err (mqtt_ec mqtt_error.packet_not_regulated))
    | Some ta =>
      o ← gets topic_alias_send_;
      t ← or_undefined o;
      match Send.find_without_touch ta t with
      | [] => mret (Err (mqtt_ec mqtt_error.packet_not_regulated))
      | topic => mret (Ok (V5.remove_topic_alias_add_topic topic p))
      end
    end
  | _ => mret (Ok (V5.remove_topic_alias p))
  end.
End recv.
