(* ===== verification/ConnectionLogic.v ===== *)
(** * Reasoning about connection programs

    A run takes a state to a state with the callbacks made.  A property of a
    run is a relation between the three that composes; [seg] follows a
    program statement by statement. *)
From S2P Require Import Prelude Boost Error Property Packet PacketIdManager Store ConnectionState.

Section logic.
Context {M : Type} {BE : BoostEndian} {BMI : BoostMultiIndex} {pidb : nat}.
Implicit Types c : connection M pidb.

Definition run_relation : Type := connection M pidb -> list event -> connection M pidb -> Prop.

(** relations that hold of a run when they hold of its parts *)
Class Composes (R : run_relation) : Prop := {
  composes_refl : forall c, R c [] c;
  composes_trans : forall c1 es1 c2 es2 c3, R c1 es1 c2 -> R c2 es2 c3 -> R c1 (es1 ++ es2) c3;
}.

Definition ends (R : run_relation) {A} c (es : list event) (o : outcome M pidb A) : Prop :=
  match o with
  | Return _ c' es' | Throw _ c' es' => R c (es ++ es') c'
  | Undefined => True
  end.

(** [m] is still to run from [c'], where the run from [c] has come with
    the callbacks [es] *)
Definition seg (R : run_relation) {A} c es c' (m : prog M pidb A) : Prop := ends R c es (m c').

(** every run of [m] from [c] satisfies [R] *)
Definition runs (R : run_relation) {A} c (m : prog M pidb A) : Prop := seg R c [] c m.

Section rules.
Variable R : run_relation.
Context {HR : Composes R}.

Lemma seg_ret {A} c es c' (a : A) : R c es c' -> seg R c es c' (mret a).
Proof. unfold seg. simpl. by rewrite app_nil_r. Qed.

Lemma seg_ret_bind {A B} c es c' (a : A) (f : A -> prog M pidb B) :
  seg R c es c' (f a) -> seg R c es c' (mret a ≫= f).
Proof. unfold seg, mbind, prog_bind. simpl. by destruct (f a c'). Qed.

Lemma seg_gets {A} c es c' (g : connection M pidb -> A) : R c es c' -> seg R c es c' (gets g).
Proof. unfold seg. simpl. by rewrite app_nil_r. Qed.

Lemma seg_gets_bind {A B} c es c' (g : connection M pidb -> A) (f : A -> prog M pidb B) :
  seg R c es c' (f (g c')) -> seg R c es c' (gets g ≫= f).
Proof. unfold seg, mbind, prog_bind. simpl. by destruct (f (g c') c'). Qed.

Lemma seg_modify c es c' g : R c es (g c') -> seg R c es c' (modify g).
Proof. unfold seg. simpl. by rewrite app_nil_r. Qed.

Lemma seg_modify_bind {B} c es c' g (f : unit -> prog M pidb B) :
  seg R c es (g c') (f tt) -> seg R c es c' (modify g ≫= f).
Proof. unfold seg, mbind, prog_bind. simpl. by destruct (f tt (g c')). Qed.

Lemma seg_emit c es c' e : R c (es ++ [e]) c' -> seg R c es c' (emit e).
Proof. done. Qed.

Lemma seg_emit_bind {B} c es c' e (f : unit -> prog M pidb B) :
  seg R c (es ++ [e]) c' (f tt) -> seg R c es c' (emit e ≫= f).
Proof.
  unfold seg, mbind, prog_bind. simpl. destruct (f tt c'); simpl; [|by rewrite <- app_assoc.. |done];
  by rewrite <- app_assoc.
Qed.

Lemma seg_throw {A} c es c' ec : R c es c' -> seg R c es c' (throw ec : prog M pidb A).
Proof. unfold seg. simpl. by rewrite app_nil_r. Qed.

Lemma seg_throw_bind {A B} c es c' ec (f : A -> prog M pidb B) :
  R c es c' -> seg R c es c' (throw ec ≫= f).
Proof. unfold seg. simpl. by rewrite app_nil_r. Qed.

Lemma seg_undefined {A} c es c' : seg R c es c' (undefined : prog M pidb A).
Proof. done. Qed.

Lemma seg_undefined_bind {A B} c es c' (f : A -> prog M pidb B) : seg R c es c' (undefined ≫= f).
Proof. done. Qed.

Lemma seg_bind_bind {A B C} c es c' (m : prog M pidb A) (f : A -> prog M pidb B) (g : B -> prog M pidb C) :
  seg R c es c' (m ≫= fun a => f a ≫= g) -> seg R c es c' ((m ≫= f) ≫= g).
Proof.
  unfold seg, mbind, prog_bind. destruct (m c') as [a c1 es1|ec c1 es1|]; simpl; [|done..].
  destruct (f a c1) as [b c2 es2|ec c2 es2|]; simpl; [|done..]. destruct (g b c2); simpl; by rewrite ?app_assoc.
Qed.

(** a call whose runs satisfy [R] *)
Lemma seg_call {A} c es c' (m : prog M pidb A) : R c es c' -> runs R c' m -> seg R c es c' m.
Proof.
  unfold runs, seg. intros H1. destruct (m c') as [a c2 es2|ec c2 es2|]; simpl; [|by eapply composes_trans..|done].
  by apply composes_trans.
Qed.

Lemma seg_call_bind {A B} c es c' (m : prog M pidb A) (f : A -> prog M pidb B) :
  R c es c' -> runs R c' m ->
  (forall a c2 es2, m c' = Return a c2 es2 -> R c' es2 c2 -> runs R c2 (f a)) ->
  seg R c es c' (m ≫= f).
Proof.
  unfold runs, seg, mbind, prog_bind. intros H1 Hm Hf.
  destruct (m c') as [a c2 es2|ec c2 es2|] eqn:Hc; simpl in *; [|by apply composes_trans with c'|done].
  specialize (Hf a c2 es2 eq_refl Hm). assert (H2 : R c (es ++ es2) c2) by by apply composes_trans with c'.
  destruct (f a c2) as [b c3 es3|ec c3 es3|]; simpl in *; [|rewrite app_assoc; by apply composes_trans with c2|done].
  rewrite app_assoc. by apply composes_trans with c2.
Qed.

(** a call with a relation of its own *)
Lemma seg_cut (S : run_relation) {A B} c es c' (m : prog M pidb A) (f : A -> prog M pidb B) :
  runs S c' m ->
  (forall c2 es2, S c' es2 c2 -> R c (es ++ es2) c2) ->
  (forall a c2 es2, m c' = Return a c2 es2 -> S c' es2 c2 -> seg R c (es ++ es2) c2 (f a)) ->
  seg R c es c' (m ≫= f).
Proof.
  unfold runs, seg, mbind, prog_bind. intros Hm Ht Hf.
  destruct (m c') as [a c2 es2|ec c2 es2|]; simpl in *; [|by apply Ht|done].
  specialize (Hf a c2 es2 eq_refl Hm). destruct (f a c2); simpl in *; by rewrite ?app_assoc.
Qed.

Lemma runs_for_each {A} (f : A -> prog M pidb unit) (l : list A) c :
  (forall x c, x ∈ l -> runs R c (f x)) -> runs R c (for_each f l).
Proof.
  revert c. induction l as [|x l IH]; intros c Hf; simpl.
  - apply seg_ret, composes_refl.
  - apply seg_call_bind; [apply composes_refl | apply Hf; by left |]. intros _ c2 es2 _ _. apply IH.
    intros y c' Hy. apply Hf. by right.
Qed.

Lemma runs_weaken (S : run_relation) {A} c (m : prog M pidb A) :
  (forall c es c', S c es c' -> R c es c') -> runs S c m -> runs R c m.
Proof. unfold runs, seg. intros H. destruct (m c); simpl; auto. Qed.

(** from a run to its result *)
Lemma runs_Return {A} c (m : prog M pidb A) a c' es : runs R c m -> m c = Return a c' es -> R c es c'.
Proof. unfold runs, seg. intros H Heq. by rewrite Heq in H. Qed.
End rules.

(** *** Results *)

(** every result of [m] satisfies [P] *)
Definition yields {A} (P : A -> Prop) (m : prog M pidb A) : Prop :=
  forall c, match m c with Return a _ _ => P a | _ => True end.

Lemma yields_ret {A} (P : A -> Prop) a : P a -> yields P (mret a).
Proof. by intros Ha c. Qed.

Lemma yields_bind {A B} (Q : A -> Prop) (P : B -> Prop) (m : prog M pidb A) (f : A -> prog M pidb B) :
  yields Q m -> (forall a, Q a -> yields P (f a)) -> yields P (m ≫= f).
Proof.
  intros Hm Hf c. specialize (Hm c). unfold mbind, prog_bind. destruct (m c) as [a c1 es1|ec c1 es1|]; [|done..].
  specialize (Hf a Hm c1). by destruct (f a c1).
Qed.

Lemma yields_any {A} (m : prog M pidb A) : yields (fun _ => True) m.
Proof. intros c. by destruct (m c). Qed.

Lemma yields_skip {A B} (P : B -> Prop) (m : prog M pidb A) (f : A -> prog M pidb B) :
  (forall a, yields P (f a)) -> yields P (m ≫= f).
Proof. intros Hf. apply yields_bind with (fun _ => True); [apply yields_any | auto]. Qed.

Lemma yields_Return {A} (P : A -> Prop) (m : prog M pidb A) c a c' es : yields P m -> m c = Return a c' es -> P a.
Proof. intros H Heq. specialize (H c). by rewrite Heq in H. Qed.

(** *** Relations *)

(** [I] is an invariant *)
Definition keeps (I : connection M pidb -> Prop) : run_relation := fun c _ c' => I c -> I c'.

#[export] Instance keeps_composes I : Composes (keeps I).
Proof. split; unfold keeps; auto. Qed.

(** a part of the state does not change *)
Definition fixes {T} (f : connection M pidb -> T) : run_relation := fun c _ c' => f c' = f c.

#[export] Instance fixes_composes {T} (f : connection M pidb -> T) : Composes (fixes f).
Proof. split; unfold fixes; congruence. Qed.

(** the callbacks satisfy [P] *)
Definition calls (P : event -> Prop) : run_relation := fun _ es _ => Forall P es.

#[export] Instance calls_composes P : Composes (calls P).
Proof. split; unfold calls; [constructor|]. intros. by apply Forall_app. Qed.

(** [P] replays the callbacks *)
Definition replays {S} (view : connection M pidb -> S) (play : event -> S -> S) : run_relation :=
  fun c es c' => view c' = fold_left (fun s e => play e s) es (view c).

#[export] Instance replays_composes {S} (view : connection M pidb -> S) play : Composes (replays view play).
Proof. split; unfold replays; [done|]. intros. rewrite fold_left_app. congruence. Qed.

(** *** Exact runs

    From the result of the rest of a program to the result of the
    program. *)

Lemma x_assoc {A B C} c (m : prog M pidb A) (f : A -> prog M pidb B) (g : B -> prog M pidb C) o :
  (m ≫= fun a => f a ≫= g) c = o -> ((m ≫= f) ≫= g) c = o.
Proof.
  intros <-. unfold mbind, prog_bind. destruct (m c) as [a c1 es1|ec c1 es1|]; simpl; [|done..].
  destruct (f a c1) as [b c2 es2|ec c2 es2|]; simpl; [|done..]. destruct (g b c2); by rewrite ?app_assoc.
Qed.

Lemma x_ret_bind {A B} c (a : A) (f : A -> prog M pidb B) o : f a c = o -> (mret a ≫= f) c = o.
Proof. intros <-. unfold mbind, prog_bind. simpl. by destruct (f a c). Qed.

Lemma x_gets_bind {A B} c (g : connection M pidb -> A) (f : A -> prog M pidb B) o : f (g c) c = o -> (gets g ≫= f) c = o.
Proof. intros <-. unfold mbind, prog_bind. simpl. by destruct (f (g c) c). Qed.

Lemma x_modify_bind {B} c g (f : unit -> prog M pidb B) o : f tt (g c) = o -> (modify g ≫= f) c = o.
Proof. intros <-. unfold mbind, prog_bind. simpl. by destruct (f tt (g c)). Qed.

Lemma x_emit_bind {B} c e (f : unit -> prog M pidb B) b c' es :
  f tt c = Return b c' es -> (emit e ≫= f) c = Return b c' (e :: es).
Proof. intros H. unfold mbind, prog_bind. simpl. by rewrite H. Qed.

Lemma x_call_bind {A B} c (m : prog M pidb A) (f : A -> prog M pidb B) a c1 es1 b c2 es2 :
  m c = Return a c1 es1 -> f a c1 = Return b c2 es2 -> (m ≫= f) c = Return b c2 (es1 ++ es2).
Proof. intros H1 H2. unfold mbind, prog_bind. by rewrite H1, H2. Qed.

Lemma x_last {A} c (m : prog M pidb A) o : (m ≫= mret) c = o -> m c = o.
Proof. intros <-. unfold mbind, prog_bind. destruct (m c); simpl; by rewrite ?app_nil_r. Qed.
End logic.

Arguments run_relation M {BE BMI} pidb.

(** Follows a program up to the calls and the leaves. *)
Ltac seg_step :=
  lazymatch goal with
  | |- runs _ _ _ => unfold runs
  | |- seg _ _ _ _ ((_ ≫= _) ≫= _) => apply seg_bind_bind
  | |- seg _ _ _ _ (mret _) => apply seg_ret
  | |- seg _ _ _ _ (mret _ ≫= _) => apply seg_ret_bind
  | |- seg _ _ _ _ (gets _) => apply seg_gets
  | |- seg _ _ _ _ (gets _ ≫= _) => apply seg_gets_bind; cbv beta delta [id]
  | |- seg _ _ _ _ (modify _) => apply seg_modify; cbv beta
  | |- seg _ _ _ _ (modify _ ≫= _) => apply seg_modify_bind; cbv beta
  | |- seg _ _ _ _ (emit _) => apply seg_emit
  | |- seg _ _ _ _ (emit _ ≫= _) => apply seg_emit_bind
  | |- seg _ _ _ _ (throw _) => apply seg_throw
  | |- seg _ _ _ _ (throw _ ≫= _) => apply seg_throw_bind
  | |- seg _ _ _ _ undefined => apply seg_undefined
  | |- seg _ _ _ _ (undefined ≫= _) => apply seg_undefined_bind
  | |- seg _ _ _ _ (assert ?b) => unfold assert at 1; destruct b eqn:?; try discriminate
  | |- seg _ _ _ _ (assert ?b ≫= _) => unfold assert at 1; destruct b eqn:?; try discriminate
  | |- seg _ _ _ _ (when ?b _) => unfold when at 1; destruct b eqn:?; try discriminate
  | |- seg _ _ _ _ (when ?b _ ≫= _) => unfold when at 1; destruct b eqn:?; try discriminate
  | |- seg _ _ _ _ (or_throw ?r) => unfold or_throw at 1; destruct r eqn:?; try discriminate
  | |- seg _ _ _ _ (or_throw ?r ≫= _) => unfold or_throw at 1; destruct r eqn:?; try discriminate
  | |- seg _ _ _ _ (or_undefined ?r) => unfold or_undefined at 1; destruct r eqn:?; try discriminate
  | |- seg _ _ _ _ (or_undefined ?r ≫= _) => unfold or_undefined at 1; destruct r eqn:?; try discriminate
  | |- seg _ _ _ _ (if ?b then _ else _) => destruct b eqn:?; try discriminate
  | |- seg _ _ _ _ ((if ?b then _ else _) ≫= _) => destruct b eqn:?; try discriminate
  | |- seg _ _ _ _ (match ?x with _ => _ end) => destruct x eqn:?; try discriminate
  | |- seg _ _ _ _ (match ?x with _ => _ end ≫= _) => destruct x eqn:?; try discriminate
  end.

(** Conditions that follow from the hypotheses. *)
Ltac x_cond :=
  cbn -[packet_id packet_size Z.leb]; repeat (match goal with H : _ = _ |- _ => progress rewrite H end); reflexivity.

Ltac x_scrutinee x :=
  first [ match goal with H : ?x' = _ |- _ => change x with x'; rewrite H end
        | let H := fresh in
          first [assert (H : x = true) by x_cond | assert (H : x = false) by x_cond]; rewrite H; clear H
        | let x' := eval cbn -[packet_id packet_size Z.leb] in x in progress change x with x' ];
  cbv beta iota.

(** Runs a program as far as its conditions are known. *)
Ltac x_step :=
  lazymatch goal with
  | |- ((_ ≫= _) ≫= _) _ = _ => apply x_assoc
  | |- (mret _ ≫= _) _ = _ => apply x_ret_bind; cbv beta
  | |- (gets _ ≫= _) _ = _ => apply x_gets_bind; cbv beta delta [id]
  | |- (modify _ ≫= _) _ = _ => apply x_modify_bind; cbv beta
  | |- (emit _ ≫= _) _ = _ => apply x_emit_bind; cbv beta
  | |- (when ?b _ ≫= _) _ = _ => unfold when at 1
  | |- (when ?b _) _ = _ => unfold when at 1
  | |- (assert ?b ≫= _) _ = _ => unfold assert at 1
  | |- (or_undefined ?b ≫= _) _ = _ => unfold or_undefined at 1
  | |- (or_throw ?b ≫= _) _ = _ => unfold or_throw at 1
  | |- ((match ?x with _ => _ end) ≫= _) _ = _ => x_scrutinee x
  | |- (match ?x with _ => _ end) _ = _ => x_scrutinee x
  | |- mret _ _ = _ => reflexivity
  | |- emit _ _ = _ => reflexivity
  | |- modify _ _ = _ => reflexivity
  | |- gets _ _ = _ => reflexivity
  end.

Lemma runs_assume {M} {BE : BoostEndian} {BMI : BoostMultiIndex} {pidb} (I : connection M pidb -> Prop) {A} c (m : prog M pidb A) :
  (I c -> runs (keeps I) c m) -> runs (keeps I) c m.
Proof. unfold runs, seg, ends, keeps. destruct (m c); auto. Qed.

(** The runs the development knows about. *)
Create HintDb runs discriminated.

(** Small functions to unfold. *)
Create HintDb inline.

(** Calls whose runs are in the database [runs]; [leaf] proves the relation
    of the statements before the call. *)
Tactic Notation "seg_known" tactic3(leaf) :=
  lazymatch goal with
  | |- seg _ _ _ _ (?m ≫= _) =>
    eapply seg_call_bind; [exact _ | leaf | solve [eauto with runs] | intros]
  | |- seg _ _ _ _ _ => eapply seg_call; [exact _ | leaf | solve [eauto with runs]]
  end.

Tactic Notation "seg_go" tactic3(leaf) :=
  cbv zeta; repeat first [seg_step; cbv zeta | seg_known leaf].
