(* ===== verification/ConnectionInvariant.v ===== *)
(** * The connection: interface calls and the type invariant

    Every call of the interface as one step, the states a connection can
    reach, and the invariant that holds in all of them: the components are
    well formed, packet identifiers are in range, the counters have their
    width. *)
From stdpp Require Import sorting.
From S2P Require Import PacketBuilder.
From S2P Require Import Prelude Boost Wire Error Property Packet PublishPacket ControlPacket PacketIdManager.
From S2P Require Import TopicAlias Store ConnectionState BufferToPacket ConnectionSend ConnectionRecv ConnectionLogic.

Section invariant.
Context {M : Type} {PM : PacketIdManager M} {BE : BoostEndian} {BEO : BoostEndianOk}
        {BMI : BoostMultiIndex} {BMO : BoostMultiIndexOk}.
Context {pidb : nat} {max : Z} {PMO : PacketIdManagerOk M max}.
Variable Role : role.t.
Hypothesis Hpidb : (0 < pidb <= 4)%nat.
Hypothesis Hmax : max < 256 ^ Z.of_nat pidb.

Implicit Types c : connection M pidb.

Definition id_ok (pid : Z) : Prop := 1 <= pid <= max.
Definition ids_ok (s : gset Z) : Prop := forall pid, pid ∈ s -> id_ok pid.

Definition store_good (t : store pidb) : Prop :=
  store_ok pidb t /\ forall e, e ∈ elems pidb t -> id_ok (store_packet_id pidb e).

Definition alias_recv_good (o : option Recv.topic_alias_recv) : Prop :=
  match o with Some t => Recv.recv_ok t | None => True end.

Definition alias_send_good (o : option Send.topic_alias_send) : Prop :=
  match o with Some t => Send.table_ok t | None => True end.

(** Both topic alias tables are well formed.  The sending one need not be
    [Send.complete]: a user who gives two aliases one topic leaves an alias
    without topic that is not vacant. *)
Record connection_ok c : Prop := mk_connection_ok {
  ok_pid_man : pm_ok (pid_man_ c);
  ok_suback : ids_ok (pid_suback_ c);
  ok_unsuback : ids_ok (pid_unsuback_ c);
  ok_puback : ids_ok (pid_puback_ c);
  ok_pubrec : ids_ok (pid_pubrec_ c);
  ok_pubcomp : ids_ok (pid_pubcomp_ c);
  ok_store : store_good (store_ c);
  ok_alias_recv : alias_recv_good (topic_alias_recv_ c);
  ok_alias_send : alias_send_good (topic_alias_send_ c);
  ok_count : 0 <= publish_send_count_ c < 2 ^ 16;
  ok_rpb : exists pending, PacketBuilder.builder_at pending (rpb_ c);
}.

(** What the user has to see to: packet identifiers are in range. *)
Definition send_ok (pv : packet_variant) : Prop :=
  match pv with
  | v3_1_1_publish p =>
    packet_id pidb pv = 0 /\ is_qos12 (pub.get_qos (v3_publish.fixed_header_ p)) = false \/ id_ok (packet_id pidb pv)
  | v5_publish p =>
    packet_id pidb pv = 0 /\ is_qos12 (pub.get_qos (v5_publish.fixed_header_ p)) = false \/ id_ok (packet_id pidb pv)
  | v3_1_1_pubrel _ | v5_pubrel _ | v3_1_1_subscribe _ | v5_subscribe _ | v3_1_1_unsubscribe _ | v5_unsubscribe _ =>
    id_ok (packet_id pidb pv)
  | _ => True
  end.

(** *** Lemmas on the parts *)

Lemma ids_ok_empty : ids_ok ∅.
Proof. intros pid. set_solver. Qed.
Lemma ids_ok_insert pid s : id_ok pid -> ids_ok s -> ids_ok ({[pid]} ∪ s).
Proof. intros Hp Hs q. rewrite elem_of_union, elem_of_singleton. intros [->|Hq]; [done | by apply Hs]. Qed.
Lemma ids_ok_remove pid s : ids_ok s -> ids_ok (s ∖ {[pid]}).
Proof. intros Hs q. rewrite elem_of_difference. intros [Hq _]. by apply Hs. Qed.

Lemma release_ok pid (m : M) : id_ok pid -> pm_ok m -> pm_ok (release_id pid m).
Proof. intros Hp Hm. by apply release_id_spec. Qed.
Lemma pm_clear_ok (m : M) : pm_ok m -> pm_ok (pm_clear m).
Proof. intros Hm. by apply pm_clear_spec. Qed.

Lemma store_good_empty : store_good (empty_store pidb).
Proof. split; [apply empty_store_ok|]. intros e. rewrite elems_empty. set_solver. Qed.

Lemma store_good_clear t : store_good (Store.clear pidb t).
Proof. apply store_good_empty. Qed.

Lemma make_store_packet_id pv e : make_store_packet pv = Some e -> store_packet_id pidb e = packet_id pidb pv.
Proof. destruct pv; simpl; try done; [| by intros [= <-] | |by intros [= <-]]; repeat case_match; by intros [= <-]. Qed.

Lemma store_good_add pv t : id_ok (packet_id pidb pv) -> store_good t -> store_good (fst (add pidb pv t)).
Proof.
  intros Hp [Ht He]. destruct (add_refines pidb pv t Ht) as [Ht' Heq]. split; [done|].
  apply (f_equal fst) in Heq. cbn [fst] in Heq. rewrite Heq. unfold spec_add.
  destruct (make_store_packet pv) as [e|] eqn:Hm; [|done]. destruct (key_free _ _ _); [|done].
  intros x Hx. cbn [fst] in Hx. apply elem_of_app in Hx as [Hx|Hx%list_elem_of_singleton]; [by apply He|].
  subst. by rewrite (make_store_packet_id pv).
Qed.

Lemma store_good_erase r pid t : store_good t -> store_good (fst (erase pidb r pid t)).
Proof.
  intros [Ht He]. destruct (erase_refines pidb r pid t Ht) as [Ht' Heq]. split; [done|].
  apply (f_equal fst) in Heq. cbn [fst spec_erase] in Heq. rewrite Heq. intros e Hx.
  apply list_elem_of_In, filter_In in Hx as [Hx _]. by apply He, list_elem_of_In.
Qed.

Lemma spec_for_each_In {S} func l (s : S) e : e ∈ fst (spec_for_each func l s) -> e ∈ l.
Proof.
  revert s. induction l as [|x l IH]; intros s; simpl; [done|]. destruct (func x s) as [keep s1].
  specialize (IH s1). destruct (spec_for_each func l s1) as [l' s2]. simpl in *.
  destruct keep; [rewrite !elem_of_cons; intuition | intros H; right; auto].
Qed.

(** *** Private functions *)

Abbreviation K := (keeps connection_ok).

#[local] Hint Resolve ids_ok_empty ids_ok_insert ids_ok_remove release_ok pm_clear_ok
  store_good_clear store_good_add store_good_erase : core.

Lemma mod16 z : 0 <= z mod 2 ^ 16 < 2 ^ 16.
Proof. by apply Z.mod_pos_bound. Qed.
#[local] Hint Resolve mod16 : core.

(** the invariant after some assignments *)
Ltac keep_leaf :=
  idtac; let H := fresh "H" in
  unfold keeps; intros H; destruct H; constructor; simpl; eauto; try done.

Ltac keep :=
  apply runs_assume; let Hok := fresh "Hok" in intros Hok; cbv zeta;
  repeat first [seg_step; cbv zeta | seg_known keep_leaf; try (apply runs_assume; let Hok := fresh "Hok" in intros Hok)];
  try keep_leaf.

Lemma keep_release c pid : id_ok pid -> runs K c (release_id_and_notify pidb pid).
Proof. intros Hp. unfold release_id_and_notify. keep. Qed.
#[local] Hint Resolve keep_release : runs.

Lemma keep_release_if_nonzero c pid : pid = 0 \/ id_ok pid -> runs K c (release_if_nonzero pidb pid).
Proof.
  intros Hp. unfold release_if_nonzero. destruct (Z.eqb_spec pid 0); simpl; [keep|].
  apply keep_release. tauto.
Qed.
#[local] Hint Resolve keep_release_if_nonzero : runs.

Lemma keep_initialize c b : runs K c (initialize pidb b).
Proof. unfold initialize. keep. Qed.

Lemma keep_cancel_timers c : runs K c (cancel_timers pidb).
Proof. unfold cancel_timers, cancel_pingreq_send, cancel_pingreq_recv, cancel_pingresp_recv. keep. Qed.

Lemma keep_reset_pingreq_send c ms : runs K c (reset_pingreq_send pidb ms).
Proof. unfold reset_pingreq_send. keep. Qed.
Lemma keep_reset_pingreq_recv c ms : runs K c (reset_pingreq_recv pidb ms).
Proof. unfold reset_pingreq_recv. keep. Qed.
Lemma keep_reset_pingresp_recv c ms : runs K c (reset_pingresp_recv pidb ms).
Proof. unfold reset_pingresp_recv. keep. Qed.
Lemma keep_cancel_pingreq_recv c : runs K c (cancel_pingreq_recv pidb).
Proof. unfold cancel_pingreq_recv. keep. Qed.
Lemma keep_cancel_pingresp_recv c : runs K c (cancel_pingresp_recv pidb).
Proof. unfold cancel_pingresp_recv. keep. Qed.

Lemma keep_validate_alias c now ta_opt : runs K c (validate_topic_alias pidb now ta_opt).
Proof.
  unfold validate_topic_alias, validate_topic_alias_range. keep.
  match goal with H : topic_alias_send_ c = Some _, H' : alias_send_good _ |- _ => rewrite H in H'; by apply Send.find_same end.
Qed.

Lemma keep_emits c es : runs K c (for_each emit es).
Proof. apply runs_for_each; [exact _|]. intros e c' _. keep. Qed.

#[local] Hint Resolve keep_initialize keep_cancel_timers keep_reset_pingreq_send keep_reset_pingreq_recv
  keep_reset_pingresp_recv keep_cancel_pingreq_recv keep_cancel_pingresp_recv keep_validate_alias keep_emits : runs.

(** dropping stored packets releases identifiers of the store *)
Lemma send_stored_pids l n (s : M * list event) :
  (forall e, e ∈ l -> id_ok (store_packet_id pidb e)) -> pm_ok (fst s) ->
  pm_ok (fst (snd (spec_for_each (fun e (s : M * list event) =>
    if n <? store_packet_size e
    then (false, (release_id (store_packet_id pidb e) (fst s), snd s ++ [on_packet_id_release (store_packet_id pidb e)]))
    else (true, (fst s, snd s ++ [on_send (store_packet e) None]))) l s))).
Proof.
  revert s. induction l as [|e l IH]; intros s Hl Hs; simpl; [done|].
  destruct (n <? store_packet_size e); cbn [fst snd].
  - match goal with |- context [spec_for_each ?f l ?s'] => specialize (IH s'); destruct (spec_for_each f l s') as [l' s''] end.
    apply IH; [intros x Hx; apply Hl; by right |]. apply release_ok; [|done]. apply Hl. by left.
  - match goal with |- context [spec_for_each ?f l ?s'] => specialize (IH s'); destruct (spec_for_each f l s') as [l' s''] end.
    apply IH; [intros x Hx; apply Hl; by right | done].
Qed.

Lemma keep_send_stored c : runs K c (send_stored pidb).
Proof.
  apply runs_assume. intros Hok. unfold send_stored. apply seg_gets_bind. cbv zeta beta delta [id].
  match goal with |- context [Store.for_each pidb ?f ?t ?s] =>
    destruct (for_each_refines pidb f t s (proj1 (ok_store _ Hok))) as [Hs Heq];
    pose proof (send_stored_pids (elems pidb t) (maximum_packet_size_send_ c) s (proj2 (ok_store _ Hok)) (ok_pid_man _ Hok)) as Hm;
    set (r := Store.for_each pidb f t s) in *
  end.
  rewrite <- Heq in Hm. simpl in Hm.
  seg_go keep_leaf. split; [done|]. intros e He. apply (proj2 (ok_store _ Hok)).
  apply (f_equal fst) in Heq. simpl in Heq. simpl in He. rewrite Heq in He. by apply spec_for_each_In in He.
Qed.
#[local] Hint Resolve keep_send_stored : runs.

(** *** Sending *)

Lemma keep_clear_session c : runs K c (clear_session pidb).
Proof. unfold clear_session. keep. Qed.
Lemma keep_clear_pids c : runs K c (clear_pids pidb).
Proof. unfold clear_pids. keep. Qed.
Lemma keep_sent_property c b p : runs K c (sent_property pidb b p).
Proof. unfold sent_property. keep. apply Recv.make_recv_ok. Qed.
Lemma keep_set_keep_alive c k : runs K c (set_keep_alive pidb k).
Proof. unfold set_keep_alive. keep. Qed.
#[local] Hint Resolve keep_clear_session keep_clear_pids keep_sent_property keep_set_keep_alive : runs.

Lemma keep_sent_properties c b l : runs K c (for_each (sent_property pidb b) l).
Proof. apply runs_for_each; [exact _|]. auto with runs. Qed.
#[local] Hint Resolve keep_sent_properties : runs.

Lemma keep_send_connack c b ps : runs K c (send_connack pidb b ps).
Proof. unfold send_connack. keep. Qed.
#[local] Hint Resolve keep_send_connack : runs.

Lemma keep_start_or_accept c pv : runs K c (start_or_accept pidb pv).
Proof. unfold start_or_accept. keep. Qed.

Lemma keep_refuse_publish c pid : pid = 0 \/ id_ok pid -> runs K c (refuse_publish pidb pid).
Proof. intros Hp. unfold refuse_publish. keep. Qed.
#[local] Hint Resolve keep_start_or_accept keep_refuse_publish : runs.

Lemma keep_reject_offline_alias c pv : send_ok pv -> runs K c (reject_offline_alias pidb pv).
Proof.
  intros Hp. unfold reject_offline_alias.
  assert (match pv with v5_publish _ => packet_id pidb pv = 0 \/ id_ok (packet_id pidb pv) | _ => True end)
    by (destruct pv; simpl in *; tauto).
  keep.
Qed.

(** the identifier of a packet that was built *)
Lemma make_publish_id pid topic payloads opts ps sp :
  V5.make_publish pidb pid topic payloads opts ps = Ok sp -> is_qos12 (pub.get_qos opts) = true -> id_ok pid ->
  packet_id pidb (v5_publish (V5.set_dup true sp)) = pid.
Proof.
  unfold V5.make_publish. intros Hm Hq Hp. bind_inv. rewrite Hq in Hm. subst. simpl.
  apply store_load_packet_id. unfold id_ok in Hp. lia.
Qed.

Lemma keep_store_add c pv : id_ok (packet_id pidb pv) -> runs K c (store_add pidb pv).
Proof. intros Hp. unfold store_add. keep. Qed.
#[local] Hint Resolve keep_store_add keep_reject_offline_alias : runs.

Lemma keep_validate_size c n : runs K c (validate_maximum_packet_size pidb n).
Proof. unfold validate_maximum_packet_size. keep. Qed.
#[local] Hint Resolve keep_validate_size : runs.

Lemma keep_store_v5_publish c now pid p :
  id_ok pid -> is_qos12 (pub.get_qos (v5_publish.fixed_header_ p)) = true ->
  runs K c (store_v5_publish pidb now pid p).
Proof.
  intros Hp Hq. unfold store_v5_publish.
  assert (Hid : forall topic ps sp, V5.make_publish pidb pid topic (v5_publish.payloads_ p) (V5.opts p) ps = Ok sp ->
    id_ok (packet_id pidb (v5_publish (V5.set_dup true sp)))).
  { intros topic ps sp Hm. by rewrite (make_publish_id _ _ _ _ _ _ Hm). }
  keep.
Qed.
#[local] Hint Resolve keep_store_v5_publish : runs.

(** the QoS of a PUBLISH *)
Definition publish_qos (pv : packet_variant) : Z :=
  match pv with
  | v3_1_1_publish p => pub.get_qos (v3_publish.fixed_header_ p)
  | v5_publish p => pub.get_qos (v5_publish.fixed_header_ p)
  | _ => 0
  end.

Lemma keep_store_publish c now pv :
  send_ok pv -> is_publish pv = true -> runs K c (store_publish pidb now pv (publish_qos pv)).
Proof.
  intros Hs Hpub. unfold store_publish. destruct (is_qos12 (publish_qos pv)) eqn:Hq; simpl; [|keep].
  assert (Hid : id_ok (packet_id pidb pv)).
  { destruct pv; try done; cbn [send_ok publish_qos] in Hs, Hq; destruct Hs as [[_ Hf]|]; congruence. }
  destruct pv; try done; keep.
Qed.

#[local] Hint Resolve keep_store_publish : runs.

(** an alias in the range of the table *)
Definition alias_in_range c (ta : Z) : Prop :=
  match topic_alias_send_ c with Some t => 1 <= ta <= Send.max_ t | None => True end.

Lemma keep_map_alias c now ta topic : alias_in_range c ta -> runs K c (map_alias pidb now ta topic).
Proof.
  unfold alias_in_range. intros Hr. unfold map_alias. keep.
  match goal with H : topic_alias_send_ c = Some _, H' : alias_send_good _ |- _ => rewrite H in H'; by apply Send.insert_ok end.
Qed.

Lemma get_topic_alias_nonneg ps ta : get_topic_alias ps = Some ta -> 0 <= ta.
Proof. induction ps as [|[] ps IH]; simpl; try done. intros [= <-]. apply boost_endian_load_range. Qed.

Lemma lru_in_range c t a :
  connection_ok c -> topic_alias_send_ c = Some t -> Send.get_lru_alias t = Some a -> alias_in_range c a.
Proof.
  intros Hc Ht Ha. pose proof (ok_alias_send _ Hc) as Hs. unfold alias_in_range. rewrite Ht in *.
  destruct (Send.topic_alias_send_lru t Hs) as (a' & Ha' & Hr & _). congruence.
Qed.

(** what [validate_topic_alias_range] has found *)
Lemma validated_in_range c ps ta :
  get_topic_alias ps = Some ta ->
  negb match topic_alias_send_ c with Some t => negb ((ta =? 0) || (Send.max_ t <? ta)) | None => false end = false ->
  alias_in_range c ta.
Proof.
  intros Hta%get_topic_alias_nonneg. unfold alias_in_range. destruct (topic_alias_send_ c); simpl; [|done]. lia.
Qed.
#[local] Hint Resolve keep_map_alias lru_in_range validated_in_range : runs.

Lemma keep_auto_topic_alias c now p : runs K c (auto_topic_alias pidb now p).
Proof. unfold auto_topic_alias. keep. Qed.
#[local] Hint Resolve keep_auto_topic_alias : runs.

Lemma keep_apply_topic_alias c now b p :
  send_ok (v5_publish p) -> runs K c (apply_topic_alias pidb now b p).
Proof.
  intros Hs. unfold apply_topic_alias, validate_topic_alias_range.
  assert (V5.packet_id pidb p = 0 \/ id_ok (V5.packet_id pidb p)) by (simpl in Hs; tauto).
  keep.
Qed.

Lemma keep_count_publish c pid q : pid = 0 \/ id_ok pid -> runs K c (count_publish pidb pid q).
Proof. intros Hp. unfold count_publish. keep. Qed.

Lemma keep_update_packet_ids c pv : send_ok pv -> runs K c (update_packet_ids pidb pv).
Proof. intros Hs. unfold update_packet_ids. keep. Qed.

Lemma keep_send_packet c pv release : send_ok pv -> runs K c (send_packet pidb pv release).
Proof.
  intros Hs. unfold send_packet.
  assert (match pv with v3_1_1_publish _ | v5_publish _ => packet_id pidb pv = 0 \/ id_ok (packet_id pidb pv) | _ => True end)
    by (destruct pv; simpl in *; tauto).
  keep.
Qed.
#[local] Hint Resolve keep_apply_topic_alias keep_count_publish keep_update_packet_ids keep_send_packet : runs.

(** aliases leave the header and the identifier alone *)
Definition same_publish (p p' : v5_publish.publish_packet) : Prop :=
  v5_publish.fixed_header_ p' = v5_publish.fixed_header_ p /\ v5_publish.packet_id_ p' = v5_publish.packet_id_ p.

Lemma apply_topic_alias_same now b p :
  yields (fun r => match r with Some p' => same_publish p p' | None => True end)
    (apply_topic_alias (M := M) pidb now b p).
Proof.
  assert (Hauto : yields (same_publish p) (auto_topic_alias (M := M) pidb now p)).
  { unfold auto_topic_alias. apply yields_skip. intros c.
    repeat first [apply yields_ret; split; done | case_match | apply yields_skip; intros]. }
  unfold apply_topic_alias.
  repeat first [apply yields_ret; (done || split; done) | case_match
    | apply (yields_bind (same_publish p)); [exact Hauto | intros; by apply yields_ret] | apply yields_skip; intros].
Qed.

Lemma keep_send_publish_v5 c now p : send_ok (v5_publish p) -> runs K c (send_publish_v5 pidb now p).
Proof.
  intros Hs. unfold send_publish_v5. change (pub.get_qos (v5_publish.fixed_header_ p)) with (publish_qos (v5_publish p)).
  keep.
  match goal with H : apply_topic_alias _ _ _ _ _ = Return (Some ?q) _ _ |- _ => rename q into p';
    apply (yields_Return _ _ _ _ _ _ (apply_topic_alias_same _ _ _)) in H as [Hf Hi] end.
  assert (Hs' : send_ok (v5_publish p')) by (unfold send_ok; simpl packet_id in *; rewrite Hf, Hi; exact Hs).
  assert (V5.packet_id pidb p' = 0 \/ id_ok (V5.packet_id pidb p')) by (simpl in Hs'; tauto).
  keep.
Qed.

Lemma keep_send_publish_v3 c now p : send_ok (v3_1_1_publish p) -> runs K c (send_publish_v3 pidb now p).
Proof.
  intros Hs. unfold send_publish_v3.
  change (pub.get_qos (v3_publish.fixed_header_ p)) with (publish_qos (v3_1_1_publish p)). keep.
Qed.
#[local] Hint Resolve keep_send_publish_v5 keep_send_publish_v3 : runs.

Lemma keep_process_send_packet c now pv : send_ok pv -> runs K c (process_send_packet pidb Role now pv).
Proof.
  intros Hs. unfold process_send_packet.
  assert (own_packet_id pv = true -> packet_id pidb pv = 0 \/ id_ok (packet_id pidb pv))
    by (destruct pv; simpl in *; (done || tauto)).
  keep.
Qed.
#[local] Hint Resolve keep_process_send_packet : runs.

Lemma keep_send c now pv : send_ok pv -> runs K c (send pidb Role now pv).
Proof. intros Hs. unfold send. keep. Qed.
#[local] Hint Resolve keep_send : runs.

(** *** Receiving *)

Section receiving.
Variable now : Z.

Lemma send_ok_trivial pv : own_packet_id pv = false -> send_ok pv.
Proof. by destruct pv. Qed.
#[local] Hint Extern 1 (send_ok _) => (apply send_ok_trivial; reflexivity) : runs.

Lemma v3_pubrel_id pid : id_ok pid -> fixed_packet_id pidb (Fixed.make_v3_pubrel pidb pid) = pid.
Proof.
  intros Hp. unfold id_ok in Hp. apply (fixed_packet_roundtrip pidb Hpidb control_packet_type.pubrel 2 pid); [lia | done].
Qed.

Lemma send_ok_v3_pubrel pid : id_ok pid -> send_ok (v3_1_1_pubrel (Fixed.make_v3_pubrel pidb pid)).
Proof. intros Hp. cbn [send_ok packet_id]. by rewrite v3_pubrel_id. Qed.

Lemma send_ok_v5_pubrel pid : id_ok pid -> send_ok (v5_pubrel (Ack.make_ack_id pidb pubrel_class pid)).
Proof.
  intros Hp. cbn [send_ok packet_id Ack.make_ack_id v5_ack.packet_id_]. rewrite store_load_packet_id; [done|].
  unfold id_ok in Hp. lia.
Qed.
#[local] Hint Resolve send_ok_v3_pubrel send_ok_v5_pubrel : runs.

Lemma keep_disconnect_and_error c code : runs K c (disconnect_and_error pidb Role now code).
Proof. unfold disconnect_and_error. keep. Qed.
Lemma keep_close_and_error c code : runs K c (close_and_error pidb code).
Proof. unfold close_and_error. keep. Qed.
#[local] Hint Resolve keep_disconnect_and_error keep_close_and_error : runs.

Lemma keep_pingreq_recv_op c : runs K c (pingreq_recv_op pidb).
Proof. unfold pingreq_recv_op. keep. Qed.
#[local] Hint Resolve keep_pingreq_recv_op : runs.

Lemma keep_accept c pv : runs K c (accept pidb pv).
Proof. unfold accept. keep. Qed.
Lemma keep_set_recv_timeout c k : runs K c (set_recv_timeout pidb k).
Proof. unfold set_recv_timeout. keep. Qed.
Lemma keep_set_pingreq_send_interval c d : runs K c (set_pingreq_send_interval pidb d).
Proof. unfold set_pingreq_send_interval. keep. Qed.
#[local] Hint Resolve keep_accept keep_set_recv_timeout keep_set_pingreq_send_interval : runs.

Lemma keep_received_properties c b l :
  runs K c (for_each (received_property pidb Role b (set_pingreq_send_interval pidb)) l).
Proof.
  apply runs_for_each; [exact _|]. intros p c' _. unfold received_property. keep.
  match goal with H : (0 <? uint_val 2 ?v) = true |- _ => apply Z.ltb_lt in H; apply Send.make_table_ok;
    pose proof (boost_endian_load_range 2 (firstn 2 v)) end.
  change (2 ^ Send.topic_alias_bits) with (256 ^ Z.of_nat 2). unfold uint_val, endian_load in *. lia.
Qed.
#[local] Hint Resolve keep_received_properties : runs.

Lemma keep_resume_session c b : runs K c (resume_session pidb b).
Proof. unfold resume_session. keep. Qed.
#[local] Hint Resolve keep_resume_session : runs.

Lemma keep_recv_v3_connect c p : runs K c (recv_v3_connect pidb p).
Proof. unfold recv_v3_connect. keep. Qed.
Lemma keep_recv_v5_connect c p : runs K c (recv_v5_connect pidb Role p).
Proof. unfold recv_v5_connect. keep. Qed.
Lemma keep_recv_v3_connack c p : runs K c (recv_v3_connack pidb p).
Proof. unfold recv_v3_connack. keep. Qed.
Lemma keep_recv_v5_connack c p : runs K c (recv_v5_connack pidb Role p).
Proof. unfold recv_v5_connack. keep. Qed.

Lemma keep_recv_v3_publish c p : runs K c (recv_v3_publish pidb Role now p).
Proof. unfold recv_v3_publish, auto_response, is_connected, handle_qos2. keep. Qed.

Lemma keep_receive_quota c pid : runs K c (receive_quota pidb Role now pid).
Proof. unfold receive_quota. keep. Qed.
#[local] Hint Resolve keep_receive_quota : runs.

Lemma keep_recv_v5_qos c pid q : runs K c (recv_v5_qos pidb Role now pid q).
Proof. unfold recv_v5_qos, auto_response, is_connected, handle_qos2. keep. Qed.

Lemma recv_ok_insert topic ta t : Recv.recv_ok t -> Recv.recv_ok (Recv.insert_or_update topic ta t).
Proof. intros Ht. split; apply (Recv.insert_or_update_replaces t topic ta Ht). Qed.

Lemma keep_recv_v5_topic c p : runs K c (recv_v5_topic pidb Role now p).
Proof.
  unfold recv_v5_topic. keep. apply recv_ok_insert.
  match goal with H : topic_alias_recv_ c = Some _, H' : alias_recv_good _ |- _ => by rewrite H in H' end.
Qed.
#[local] Hint Resolve keep_recv_v5_qos keep_recv_v5_topic : runs.

Lemma keep_recv_v5_publish c p : runs K c (recv_v5_publish pidb Role now p).
Proof. unfold recv_v5_publish. keep. Qed.

Lemma keep_unknown_id c b : runs K c (unknown_id pidb Role now b).
Proof. unfold unknown_id. keep. Qed.
Lemma keep_store_erase c r pid : runs K c (store_erase pidb r pid).
Proof. unfold store_erase. keep. Qed.
Lemma keep_uncount c : runs K c (uncount pidb).
Proof. unfold uncount. keep. Qed.
Lemma keep_end_processing c pid : runs K c (end_processing pidb pid).
Proof. unfold end_processing. keep. Qed.
#[local] Hint Resolve keep_unknown_id keep_store_erase keep_uncount keep_end_processing : runs.

Lemma known_id pid s : negb (bool_decide (pid ∈ s)) = false -> ids_ok s -> id_ok pid.
Proof. intros Hn Hs. apply negb_false_iff, bool_decide_eq_true in Hn. by apply Hs. Qed.
#[local] Hint Resolve known_id ok_suback ok_unsuback ok_puback ok_pubrec ok_pubcomp : runs.

Lemma keep_recv_puback c b pv : runs K c (recv_puback pidb Role now b pv).
Proof. unfold recv_puback, erase_pid. keep. Qed.
Lemma keep_recv_v3_pubrec c p : runs K c (recv_v3_pubrec pidb Role now p).
Proof. unfold recv_v3_pubrec, erase_pid, auto_response, is_connected. keep. Qed.
Lemma keep_recv_v5_pubrec c p : runs K c (recv_v5_pubrec pidb Role now p).
Proof. unfold recv_v5_pubrec, erase_pid, auto_response, is_connected. keep. Qed.
Lemma keep_recv_pubcomp c b pv : runs K c (recv_pubcomp pidb Role now b pv).
Proof. unfold recv_pubcomp, erase_pid. keep. Qed.
Lemma keep_recv_suback c b pv : runs K c (recv_suback pidb Role now b pv).
Proof. unfold recv_suback, erase_pid. keep. Qed.
Lemma keep_recv_unsuback c b pv : runs K c (recv_unsuback pidb Role now b pv).
Proof. unfold recv_unsuback, erase_pid. keep. Qed.

Lemma keep_recv_pubrel c pv response : send_ok response -> runs K c (recv_pubrel pidb Role now pv response).
Proof. intros Hs. unfold recv_pubrel, auto_response, is_connected. keep. Qed.
Lemma keep_recv_pingreq c pv response : send_ok response -> runs K c (recv_pingreq pidb Role now pv response).
Proof. intros Hs. unfold recv_pingreq, is_connected. keep. Qed.
Lemma keep_recv_pingresp c pv : runs K c (recv_pingresp pidb pv).
Proof. unfold recv_pingresp. keep. Qed.
Lemma keep_recv_disconnect c pv : runs K c (recv_disconnect pidb pv).
Proof. unfold recv_disconnect. keep. Qed.

#[local] Hint Resolve keep_recv_v3_connect keep_recv_v5_connect keep_recv_v3_connack keep_recv_v5_connack
  keep_recv_v3_publish keep_recv_v5_publish keep_recv_puback keep_recv_v3_pubrec keep_recv_v5_pubrec
  keep_recv_pubcomp keep_recv_suback keep_recv_unsuback keep_recv_pubrel keep_recv_pingreq keep_recv_pingresp
  keep_recv_disconnect : runs.

Lemma keep_process_packet c pv : runs K c (process_packet pidb Role now pv).
Proof. unfold process_packet. keep. Qed.

Lemma keep_recv_parse_error c ec : runs K c (recv_parse_error pidb Role now ec).
Proof. unfold recv_parse_error. keep. Qed.
#[local] Hint Resolve keep_process_packet keep_recv_parse_error : runs.

(** *** The interface *)

Lemma keep_take_packet stream c :
  connection_ok c ->
  match PacketBuilder.read_packet_ (fst (PacketBuilder.recv stream (rpb_ c))) with
  | Some _ => exists pending, PacketBuilder.builder_at pending (PacketBuilder.clear (fst (PacketBuilder.recv stream (rpb_ c))))
  | None => exists pending, PacketBuilder.builder_at pending (fst (PacketBuilder.recv stream (rpb_ c)))
  end.
Proof.
  intros Hok. destruct (ok_rpb _ Hok) as [p Hp]. pose proof (PacketBuilder.recv_spec stream p _ Hp) as Hr.
  unfold PacketBuilder.recv_result in Hr. destruct (PacketBuilder.split_packet _) as [[ep rest]|].
  - rewrite Hr. exists []. constructor.
  - destruct Hr as [Hb _]. assert (Hn : PacketBuilder.read_packet_ (fst (PacketBuilder.recv stream (rpb_ c))) = None)
      by (by destruct Hb).
    rewrite Hn. eauto.
Qed.

Lemma keep_recv c stream : runs K c (recv pidb Role now stream).
Proof.
  apply runs_assume. intros Hok. pose proof (keep_take_packet stream c Hok) as Hrpb.
  unfold recv, process_recv_packet. do 5 seg_step. cbn [rpb_ set_rpb_] in *.
  destruct (PacketBuilder.read_packet_ _) as [ep|]; seg_go keep_leaf; try keep_leaf.
Qed.

Lemma keep_timeout_disconnect c : runs K c (timeout_disconnect pidb Role now).
Proof. unfold timeout_disconnect, is_connected. keep. Qed.
#[local] Hint Resolve keep_timeout_disconnect : runs.

Lemma keep_notify_timer_fired c kind : runs K c (notify_timer_fired pidb Role now kind).
Proof. unfold notify_timer_fired, is_connected. keep. Qed.
End receiving.

Lemma keep_release_packet_id c pid : id_ok pid -> runs K c (release_packet_id pidb pid).
Proof. intros Hp. unfold release_packet_id. keep. Qed.

Lemma keep_release_all c pids : ids_ok pids -> runs K c (release_all pidb pids).
Proof.
  intros Hp. apply runs_for_each; [exact _|]. intros pid c' Hin. apply keep_release_packet_id, Hp.
  rewrite (merge_sort_Permutation Z.le) in Hin. by apply elem_of_elements.
Qed.
#[local] Hint Resolve keep_release_all ok_suback ok_unsuback ok_puback ok_pubrec ok_pubcomp : runs.
#[local] Hint Extern 1 (ids_ok _) => (progress simpl; eauto) : runs.

Lemma keep_notify_closed c : runs K c (notify_closed pidb).
Proof. unfold notify_closed. keep. Qed.
#[local] Hint Resolve keep_notify_closed keep_notify_timer_fired keep_release_packet_id keep_recv
  keep_set_pingreq_send_interval : runs.

Lemma keep_acquire c : runs K c (acquire_unique_packet_id pidb).
Proof.
  unfold acquire_unique_packet_id. keep.
  match goal with |- pm_ok (snd (acquire_unique_id ?m)) => pose proof (acquire_unique_id_spec m) as Ha end.
  destruct (acquire_unique_id (pid_man_ c)) as [[v|] m]; simpl in *; [apply Ha; done|].
  destruct Ha as [-> _]; done.
Qed.

Lemma keep_register c pid : runs K c (register_packet_id pidb pid).
Proof. unfold register_packet_id. keep. by apply register_id_spec. Qed.
#[local] Hint Resolve keep_acquire keep_register : runs.

Lemma keep_restore_packet c e : id_ok (store_packet_id pidb e) -> runs K c (restore_packet pidb e).
Proof. intros He. unfold restore_packet, store_packet_id in *. keep. Qed.

Lemma keep_restore_packets c es :
  (forall e, e ∈ es -> id_ok (store_packet_id pidb e)) -> runs K c (restore_packets pidb es).
Proof. intros He. apply runs_for_each; [exact _|]. intros e c' Hin. by apply keep_restore_packet, He. Qed.
#[local] Hint Resolve keep_restore_packets : runs.

(** ** Interface calls *)

Inductive call :=
| call_send (now : Z) (pv : packet_variant)
| call_recv (now : Z) (stream : list byte)
| call_notify_timer_fired (now : Z) (kind : timer_kind.t)
| call_notify_closed
| call_set_pingreq_send_interval (ms : Z)
| call_set_pingresp_recv_timeout (ms : Z)
| call_set_offline_publish (val : bool)
| call_set_auto_pub_response (val : bool)
| call_set_auto_ping_response (val : bool)
| call_set_auto_map_topic_alias_send (val : bool)
| call_set_auto_replace_topic_alias_send (val : bool)
| call_acquire_unique_packet_id
| call_register_packet_id (pid : Z)
| call_release_packet_id (pid : Z)
| call_restore_qos2_publish_handled_pids (pids : gset Z)
| call_restore_packets (pvs : list store_packet_variant).

Definition run_call (k : call) : prog M pidb unit :=
  match k with
  | call_send now pv => send pidb Role now pv
  | call_recv now stream => recv pidb Role now stream;; mret tt
  | call_notify_timer_fired now kind => notify_timer_fired pidb Role now kind
  | call_notify_closed => notify_closed pidb
  | call_set_pingreq_send_interval ms => set_pingreq_send_interval pidb ms
  | call_set_pingresp_recv_timeout ms => set_pingresp_recv_timeout pidb ms
  | call_set_offline_publish val => set_offline_publish pidb val
  | call_set_auto_pub_response val => set_auto_pub_response pidb val
  | call_set_auto_ping_response val => set_auto_ping_response pidb val
  | call_set_auto_map_topic_alias_send val => set_auto_map_topic_alias_send pidb val
  | call_set_auto_replace_topic_alias_send val => set_auto_replace_topic_alias_send pidb val
  | call_acquire_unique_packet_id => acquire_unique_packet_id pidb;; mret tt
  | call_register_packet_id pid => register_packet_id pidb pid;; mret tt
  | call_release_packet_id pid => release_packet_id pidb pid
  | call_restore_qos2_publish_handled_pids pids => restore_qos2_publish_handled_pids pidb pids
  | call_restore_packets pvs => restore_packets pidb pvs
  end.

(** packet identifiers the user passes are in range *)
Definition call_ok (k : call) : Prop :=
  match k with
  | call_send _ pv => send_ok pv
  | call_release_packet_id pid => id_ok pid
  | call_restore_packets pvs => forall e, e ∈ pvs -> id_ok (store_packet_id pidb e)
  | _ => True
  end.

(** A call that returns or throws; what the user called before does not
    matter otherwise. *)
Inductive step : connection M pidb -> list event -> connection M pidb -> Prop :=
| step_return k c c' es : call_ok k -> run_call k c = Return tt c' es -> step c es c'
| step_throw k c c' es ec : call_ok k -> run_call k c = Throw ec c' es -> step c es c'.

(** the states after any calls, with all callbacks made *)
Inductive reachable (ver : protocol_version.t) : list event -> connection M pidb -> Prop :=
| reachable_new : reachable ver [] (make_connection ver)
| reachable_step es es' c c' : reachable ver es c -> step c es' c' -> reachable ver (es ++ es') c'.

(** a composing relation of all calls holds of all histories *)
Lemma reachable_runs (R : run_relation M pidb) `{!Composes R} ver es c :
  (forall k c, call_ok k -> runs R c (run_call k)) -> reachable ver es c -> R (make_connection ver) es c.
Proof.
  intros Hk. induction 1 as [|es es' c c' _ IH Hs]; [apply composes_refl|].
  apply composes_trans with c; [done|].
  destruct Hs as [k c c' es' Hok Hr|k c c' es' ec Hok Hr]; specialize (Hk k c Hok); unfold runs, seg in Hk;
    by rewrite Hr in Hk.
Qed.

Lemma keep_run_call k c : call_ok k -> runs K c (run_call k).
Proof.
  intros Hk. destruct k; simpl in *; try (auto with runs; fail);
    unfold set_pingresp_recv_timeout, set_offline_publish, set_auto_pub_response, set_auto_ping_response,
      set_auto_map_topic_alias_send, set_auto_replace_topic_alias_send, restore_qos2_publish_handled_pids; try (keep; fail).
Qed.

Lemma make_connection_ok ver : connection_ok (make_connection ver).
Proof.
  constructor; simpl; try apply ids_ok_empty; [apply pm_ok_new | apply store_good_empty | done | done | lia | exists []; constructor].
Qed.

Lemma reachable_ok ver es c : reachable ver es c -> connection_ok c.
Proof. intros Hr. apply (reachable_runs K _ _ _ keep_run_call Hr), make_connection_ok. Qed.

(** C1: in every state a connection reaches, whatever the bytes received and
    the calls with packet identifiers in range, the packet identifier
    manager, the store, the receiving topic alias table and the sending one
    (whatever topics were mapped: an alias has at most one topic and a topic
    at most one alias, and an alias to reuse exists) are well formed, every
    identifier waiting for a response or stored is a packet identifier, the
    publish counter has 16 bits and the packet builder is between two bytes
    of a packet; in particular no packet is left in the builder. *)
Theorem connection_invariant ver es c : reachable ver es c -> connection_ok c /\ PacketBuilder.read_packet_ (rpb_ c) = None.
Proof.
  intros Hok%reachable_ok. split; [done|]. destruct (ok_rpb _ Hok) as [p Hp]. by destruct Hp.
Qed.
End invariant.
