(* ===== verification/ConnectionTimers.v ===== *)
(** * The connection: timers

    The user runs the timers the connection asks for with [on_timer_op] and
    calls [notify_timer_fired].  The flags [pingreq_send_set_],
    [pingreq_recv_set_] and [pingresp_recv_set_] are what the connection knows
    of them: they follow exactly the requests made and the timers fired. *)
From stdpp Require Import sorting.
From S2P Require Import PacketBuilder.
From S2P Require Import Prelude Boost Wire Error Property Packet PublishPacket ControlPacket PacketIdManager.
From S2P Require Import TopicAlias Store ConnectionState BufferToPacket ConnectionSend ConnectionRecv ConnectionLogic.
From S2P Require Import ConnectionInvariant.

(** which timers run *)
Record timers := mk_timers { pingreq_send_running : bool; pingreq_recv_running : bool; pingresp_recv_running : bool }.

Definition set_timer (k : timer_kind.t) (b : bool) (t : timers) : timers :=
  match k with
  | timer_kind.pingreq_send => mk_timers b (pingreq_recv_running t) (pingresp_recv_running t)
  | timer_kind.pingreq_recv => mk_timers (pingreq_send_running t) b (pingresp_recv_running t)
  | timer_kind.pingresp_recv => mk_timers (pingreq_send_running t) (pingreq_recv_running t) b
  end.

(** what the user does to the timers on a callback *)
Definition play_timer (e : event) (t : timers) : timers :=
  match e with
  | on_timer_op timer_op.reset k _ => set_timer k true t
  | on_timer_op timer_op.cancel k _ => set_timer k false t
  | _ => t
  end.

Definition play_timers (es : list event) (t : timers) : timers := fold_left (fun t e => play_timer e t) es t.

Section timers.
Context {M : Type} {PM : PacketIdManager M} {BE : BoostEndian} {BMI : BoostMultiIndex}.
Context {pidb : nat}.
Variable Role : role.t.
Implicit Types c : connection M pidb.

Definition timer_flags c : timers := mk_timers (pingreq_send_set_ c) (pingreq_recv_set_ c) (pingresp_recv_set_ c).

Abbreviation T := (replays timer_flags play_timer).

Ltac timer_leaf := idtac; (reflexivity || (unfold replays, timer_flags; simpl in *; congruence)).
Ltac timer := seg_go timer_leaf; try timer_leaf.

Definition no_timer (e : event) : Prop := match e with on_timer_op _ _ _ => False | _ => True end.

Lemma play_no_timer es t : Forall no_timer es -> play_timers es t = t.
Proof. unfold play_timers. revert t. induction es as [|e es IH]; intros t H; inversion H; subst; simpl; [done|]. destruct e; try done; by apply IH. Qed.

Lemma timer_emits c es : Forall no_timer es -> runs T c (for_each emit es).
Proof.
  intros H. apply runs_for_each; [exact _|]. intros e c' He. apply seg_emit. unfold replays. simpl.
  rewrite Forall_forall in H. specialize (H e He). by destruct e.
Qed.

Lemma send_stored_no_timer n l t (s : M * list event) :
  Forall no_timer (snd s) ->
  Forall no_timer (snd (snd (for_each_loop pidb (fun e (s : M * list event) =>
    if n <? store_packet_size e
    then (false, (release_id (store_packet_id pidb e) (fst s), snd s ++ [on_packet_id_release (store_packet_id pidb e)]))
    else (true, (fst s, snd s ++ [on_send (store_packet e) None]))) l t s))).
Proof.
  revert t s. induction l as [|e l IH]; intros t s Hs; simpl; [done|].
  destruct (_ <? _); apply IH; apply Forall_app; (split; [done|by constructor]).
Qed.

Lemma timer_send_stored c : runs T c (send_stored pidb).
Proof.
  unfold send_stored. apply seg_gets_bind. cbv zeta beta delta [id]. do 2 seg_step.
  apply seg_call; [exact _ | done|]. apply timer_emits, send_stored_no_timer. constructor.
Qed.
#[local] Hint Resolve timer_send_stored : runs.

#[local] Hint Unfold release_id_and_notify release_if_nonzero initialize cancel_timers cancel_pingreq_send
  cancel_pingreq_recv cancel_pingresp_recv reset_pingreq_send reset_pingreq_recv reset_pingresp_recv
  validate_topic_alias_range validate_topic_alias validate_maximum_packet_size clear_session clear_pids sent_property
  set_keep_alive refuse_publish store_add map_alias auto_topic_alias : inline.

Lemma timer_cancel_timers c : runs T c (cancel_timers pidb).
Proof. autounfold with inline. timer. Qed.
Lemma timer_initialize c b : runs T c (initialize pidb b).
Proof. autounfold with inline. timer. Qed.
Lemma timer_refuse_publish c pid : runs T c (refuse_publish pidb pid).
Proof. autounfold with inline. timer. Qed.
Lemma timer_validate_alias c now ta_opt : runs T c (validate_topic_alias pidb now ta_opt).
Proof. autounfold with inline. timer. Qed.
Lemma timer_auto_topic_alias c now p : runs T c (auto_topic_alias pidb now p).
Proof. autounfold with inline. timer. Qed.
#[local] Hint Resolve timer_cancel_timers timer_initialize timer_refuse_publish timer_validate_alias
  timer_auto_topic_alias : runs.

Lemma timer_sent_properties c b l : runs T c (for_each (sent_property pidb b) l).
Proof. apply runs_for_each; [exact _|]. intros p c' _. autounfold with inline. timer. Qed.
#[local] Hint Resolve timer_sent_properties : runs.

Lemma timer_start_or_accept c pv : runs T c (start_or_accept pidb pv).
Proof. unfold start_or_accept, send_connack, set_keep_alive, clear_session, clear_pids. timer. Qed.

Lemma timer_store_v5_publish c now pid p : runs T c (store_v5_publish pidb now pid p).
Proof. unfold store_v5_publish, validate_maximum_packet_size, store_add. timer. Qed.
#[local] Hint Resolve timer_start_or_accept timer_store_v5_publish : runs.

Lemma timer_store_publish c now pv q : runs T c (store_publish pidb now pv q).
Proof. unfold store_publish, store_add. timer. Qed.
Lemma timer_apply_topic_alias c now b p : runs T c (apply_topic_alias pidb now b p).
Proof. unfold apply_topic_alias, validate_topic_alias_range, map_alias. timer. Qed.
Lemma timer_count_publish c pid q : runs T c (count_publish pidb pid q).
Proof. unfold count_publish, release_if_nonzero, release_id_and_notify. timer. Qed.
Lemma timer_update_packet_ids c pv : runs T c (update_packet_ids pidb pv).
Proof. unfold update_packet_ids, store_add. timer. Qed.
Lemma timer_send_packet c pv release : runs T c (send_packet pidb pv release).
Proof. unfold send_packet, reset_pingresp_recv. timer. Qed.
#[local] Hint Resolve timer_store_publish timer_apply_topic_alias timer_count_publish timer_update_packet_ids
  timer_send_packet : runs.

Lemma timer_process_send_packet c now pv : runs T c (process_send_packet pidb Role now pv).
Proof.
  unfold process_send_packet, validate_maximum_packet_size, release_if_nonzero, release_id_and_notify,
    reject_offline_alias, send_publish_v5, send_publish_v3. timer.
Qed.
#[local] Hint Resolve timer_process_send_packet : runs.

Lemma timer_send c now pv : runs T c (send pidb Role now pv).
Proof. unfold send, reset_pingreq_send. timer. Qed.
#[local] Hint Resolve timer_send : runs.

Lemma timer_disconnect_and_error c now code : runs T c (disconnect_and_error pidb Role now code).
Proof. unfold disconnect_and_error. timer. Qed.
Lemma timer_pingreq_recv_op c : runs T c (pingreq_recv_op pidb).
Proof. unfold pingreq_recv_op, reset_pingreq_recv, cancel_pingreq_recv. timer. Qed.
#[local] Hint Resolve timer_disconnect_and_error timer_pingreq_recv_op : runs.
Lemma timer_accept c pv : runs T c (accept pidb pv).
Proof. unfold accept. timer. Qed.
#[local] Hint Resolve timer_accept : runs.

Lemma timer_received_properties c b l :
  runs T c (for_each (received_property pidb Role b (set_pingreq_send_interval pidb)) l).
Proof.
  apply runs_for_each; [exact _|]. intros p c' _. unfold received_property, set_pingreq_send_interval. timer.
Qed.
#[local] Hint Resolve timer_received_properties : runs.

Lemma timer_resume_session c b : runs T c (resume_session pidb b).
Proof. unfold resume_session, clear_session, clear_pids. timer. Qed.
#[local] Hint Resolve timer_resume_session : runs.

Lemma timer_recv_v3_connect c p : runs T c (recv_v3_connect pidb p).
Proof. unfold recv_v3_connect, set_recv_timeout, clear_pids. timer. Qed.
Lemma timer_recv_v5_connect c p : runs T c (recv_v5_connect pidb Role p).
Proof. unfold recv_v5_connect, set_recv_timeout, clear_pids. timer. Qed.
Lemma timer_recv_v3_connack c p : runs T c (recv_v3_connack pidb p).
Proof. unfold recv_v3_connack. timer. Qed.
Lemma timer_recv_v5_connack c p : runs T c (recv_v5_connack pidb Role p).
Proof. unfold recv_v5_connack. timer. Qed.

#[local] Hint Unfold auto_response is_connected handle_qos2 erase_pid store_erase uncount end_processing unknown_id
  close_and_error receive_quota : inline.

Lemma timer_recv_v3_publish c now p : runs T c (recv_v3_publish pidb Role now p).
Proof. unfold recv_v3_publish. autounfold with inline. timer. Qed.
Lemma timer_recv_v5_qos c now pid q : runs T c (recv_v5_qos pidb Role now pid q).
Proof. unfold recv_v5_qos. autounfold with inline. timer. Qed.
Lemma timer_recv_v5_topic c now p : runs T c (recv_v5_topic pidb Role now p).
Proof. unfold recv_v5_topic. timer. Qed.
#[local] Hint Resolve timer_recv_v5_qos timer_recv_v5_topic : runs.
Lemma timer_recv_v5_publish c now p : runs T c (recv_v5_publish pidb Role now p).
Proof. unfold recv_v5_publish. timer. Qed.
Lemma timer_recv_puback c now b pv : runs T c (recv_puback pidb Role now b pv).
Proof. unfold recv_puback. autounfold with inline. timer. Qed.
Lemma timer_recv_v3_pubrec c now p : runs T c (recv_v3_pubrec pidb Role now p).
Proof. unfold recv_v3_pubrec. autounfold with inline. timer. Qed.
Lemma timer_recv_v5_pubrec c now p : runs T c (recv_v5_pubrec pidb Role now p).
Proof. unfold recv_v5_pubrec. autounfold with inline. timer. Qed.
Lemma timer_recv_pubrel c now pv r : runs T c (recv_pubrel pidb Role now pv r).
Proof. unfold recv_pubrel. autounfold with inline. timer. Qed.
Lemma timer_recv_pubcomp c now b pv : runs T c (recv_pubcomp pidb Role now b pv).
Proof. unfold recv_pubcomp. autounfold with inline. timer. Qed.
Lemma timer_recv_suback c now b pv : runs T c (recv_suback pidb Role now b pv).
Proof. unfold recv_suback. autounfold with inline. timer. Qed.
Lemma timer_recv_unsuback c now b pv : runs T c (recv_unsuback pidb Role now b pv).
Proof. unfold recv_unsuback. autounfold with inline. timer. Qed.
#[local] Hint Resolve timer_recv_v3_connect timer_recv_v5_connect timer_recv_v3_connack timer_recv_v5_connack
  timer_recv_v3_publish timer_recv_v5_publish timer_recv_puback timer_recv_v3_pubrec timer_recv_v5_pubrec
  timer_recv_pubrel timer_recv_pubcomp timer_recv_suback timer_recv_unsuback : runs.

Lemma timer_process_packet c now pv : runs T c (process_packet pidb Role now pv).
Proof.
  unfold process_packet, recv_pingreq, recv_pingresp, recv_disconnect, is_connected, cancel_pingresp_recv. timer.
Qed.
Lemma timer_recv_parse_error c now ec : runs T c (recv_parse_error pidb Role now ec).
Proof. unfold recv_parse_error. timer. Qed.
#[local] Hint Resolve timer_process_packet timer_recv_parse_error : runs.

Lemma timer_recv c now stream : runs T c (recv pidb Role now stream).
Proof. unfold recv, process_recv_packet. timer. Qed.

Lemma timer_release_all c pids : runs T c (release_all pidb pids).
Proof.
  apply runs_for_each; [exact _|]. intros pid c' _. unfold release_packet_id, release_id_and_notify. timer.
Qed.
#[local] Hint Resolve timer_release_all timer_recv : runs.

Lemma timer_notify_closed c : runs T c (notify_closed pidb).
Proof. unfold notify_closed. timer. Qed.

Lemma timer_restore_packets c es : runs T c (restore_packets pidb es).
Proof.
  apply runs_for_each; [exact _|]. intros e c' _. unfold restore_packet, register_packet_id, store_add. timer.
Qed.
#[local] Hint Resolve timer_notify_closed timer_restore_packets : runs.

(** the flag of the timer that fired *)
Definition fire (kind : timer_kind.t) c : connection M pidb :=
  match kind with
  | timer_kind.pingreq_send => set_pingreq_send_set_ false c
  | timer_kind.pingreq_recv => set_pingreq_recv_set_ false c
  | timer_kind.pingresp_recv => set_pingresp_recv_set_ false c
  end.

Lemma timer_notify_timer_fired c now kind :
  seg T (fire kind c) [] c (notify_timer_fired pidb Role now kind).
Proof.
  unfold notify_timer_fired, timeout_disconnect, is_connected. destruct kind; cbn [fire].
  all: timer.
Qed.

(** the timers before a call, a timer that has fired not running *)
Definition timers_before (k : call) (t : timers) : timers :=
  match k with
  | call_notify_timer_fired _ kind => set_timer kind false t
  | _ => t
  end.

(** C21: for every call, whether it returns or throws, the three flags are
    what is left of the flags before when the timer that fired is stopped
    and the timer operations the call asked for are carried out in
    order. *)
Theorem timers_mirror k c c' es :
  run_call Role k c = Return tt c' es \/
  (exists ec, run_call Role k c = Throw ec c' es) ->
  timer_flags c' = play_timers es (timers_before k (timer_flags c)).
Proof.
  assert (Hk : match k with
    | call_notify_timer_fired _ kind => seg T (fire kind c) [] c (run_call Role k)
    | _ => runs T c (run_call Role k)
    end).
  { destruct k; simpl; try apply timer_notify_timer_fired;
      unfold set_pingresp_recv_timeout, set_offline_publish, set_auto_pub_response, set_auto_ping_response,
        set_auto_map_topic_alias_send, set_auto_replace_topic_alias_send, restore_qos2_publish_handled_pids,
        set_pingreq_send_interval, acquire_unique_packet_id, register_packet_id, release_packet_id,
        release_id_and_notify; timer. }
  assert (Hf : forall kind, timer_flags (fire kind c) = set_timer kind false (timer_flags c)) by (by intros []).
  unfold runs, seg, ends in Hk.
  destruct k; simpl timers_before; intros [Hr|[ec Hr]]; rewrite Hr in Hk; unfold replays in Hk; rewrite <- ?Hf; exact Hk.
Qed.
End timers.
