(* ===== verification/ConnectionStatus.v ===== *)
(** * The connection: what [send] accepts and the connection status

    The status is disconnected, connecting or connected.  What may be sent
    and received depends on it, and CONNECT, CONNACK and DISCONNECT change
    it. *)
From stdpp Require Import sorting.
From S2P Require Import PacketBuilder.
From S2P Require Import Prelude Boost Wire Error Property Packet PublishPacket ControlPacket PacketIdManager.
From S2P Require Import TopicAlias Store ConnectionState BufferToPacket ConnectionSend ConnectionRecv ConnectionLogic.

Section status.
Context {M : Type} {PM : PacketIdManager M} {BE : BoostEndian} {BMI : BoostMultiIndex}.
Context {pidb : nat}.
Variable Role : role.t.
Implicit Types c : connection M pidb.

(** ** Refused packets *)

(** the role, the status and the protocol version allow the packet *)
Definition allowed c (pv : packet_variant) : bool :=
  role_check Role pv && status_check pidb c pv && version_check pidb c pv.

Lemma send_not_allowed_run c now pv :
  allowed c pv = false -> send pidb Role now pv c = Return tt c [on_error not_allowed_to_send].
Proof.
  unfold allowed. intros H. apply andb_false_iff in H as [[H|H]%andb_false_iff|H];
    unfold send, process_send_packet, mbind, prog_bind; simpl; rewrite H; simpl; by rewrite ?orb_true_r.
Qed.

(** A packet that the role, the status or the protocol version does not
    allow is refused with exactly one callback, the error, and no change of
    state.  A packet identifier it has stays in use, where connection.hpp
    says that it is released. *)
Theorem send_not_allowed c now pv :
  allowed c pv = false -> send pidb Role now pv c = Return tt c [on_error not_allowed_to_send].
Proof. apply send_not_allowed_run. Qed.

Lemma send_too_large_run c now pv :
  allowed c pv = true -> maximum_packet_size_send_ c < packet_size pv ->
  send pidb Role now pv c =
  let pid := packet_id pidb pv in
  if own_packet_id pv && negb (pid =? 0)
  then Return tt (set_pid_man_ (release_id pid (pid_man_ c)) c) [on_error not_allowed_to_send; on_packet_id_release pid]
  else Return tt c [on_error not_allowed_to_send].
Proof.
  unfold allowed. intros [[Hr Hs]%andb_true_iff Hv]%andb_true_iff Hsize. apply Z.leb_gt in Hsize.
  unfold send, process_send_packet, validate_maximum_packet_size, mbind, prog_bind. simpl.
  rewrite Hr, Hs, Hv. simpl. rewrite Hsize. simpl.
  destruct (own_packet_id pv); [|done]. unfold release_if_nonzero.
  by destruct (packet_id pidb pv =? 0).
Qed.

(** an allowed packet larger than the peer's maximum packet size is
    refused with the error; the identifier a PUBLISH, PUBREL, SUBSCRIBE or
    UNSUBSCRIBE has is released, with its callback, and nothing else
    changes. *)
Theorem send_too_large c now pv :
  allowed c pv = true -> maximum_packet_size_send_ c < packet_size pv ->
  send pidb Role now pv c =
  let pid := packet_id pidb pv in
  if own_packet_id pv && negb (pid =? 0)
  then Return tt (set_pid_man_ (release_id pid (pid_man_ c)) c) [on_error not_allowed_to_send; on_packet_id_release pid]
  else Return tt c [on_error not_allowed_to_send].
Proof. apply send_too_large_run. Qed.

(** ** The status after [send] *)

Abbreviation F := (fixes status_).
Ltac fix_leaf := idtac; (reflexivity || (unfold fixes; simpl in *; congruence)).
Ltac fix_status := seg_go fix_leaf; try fix_leaf.

#[local] Hint Unfold release_id_and_notify release_if_nonzero initialize cancel_timers cancel_pingreq_send
  cancel_pingreq_recv cancel_pingresp_recv reset_pingreq_send reset_pingreq_recv reset_pingresp_recv
  validate_topic_alias_range validate_topic_alias validate_maximum_packet_size clear_session clear_pids
  set_keep_alive refuse_publish store_add map_alias : inline.

Lemma fix_emits c es : runs F c (for_each emit es).
Proof. apply runs_for_each; [exact _|]. intros e c' _. fix_status. Qed.
#[local] Hint Resolve fix_emits : runs.

Lemma fix_send_stored c : runs F c (send_stored pidb).
Proof. unfold send_stored. fix_status. Qed.
Lemma fix_cancel_timers c : runs F c (cancel_timers pidb).
Proof. autounfold with inline. fix_status. Qed.
Lemma fix_initialize c b : runs F c (initialize pidb b).
Proof. autounfold with inline. fix_status. Qed.
Lemma fix_refuse_publish c pid : runs F c (refuse_publish pidb pid).
Proof. autounfold with inline. fix_status. Qed.
Lemma fix_validate_alias c now ta_opt : runs F c (validate_topic_alias pidb now ta_opt).
Proof. autounfold with inline. fix_status. Qed.
Lemma fix_set_keep_alive c k : runs F c (set_keep_alive pidb k).
Proof. autounfold with inline. fix_status. Qed.
Lemma fix_sent_properties c b l : runs F c (for_each (sent_property pidb b) l).
Proof. apply runs_for_each; [exact _|]. intros p c' _. unfold sent_property. fix_status. Qed.
#[local] Hint Resolve fix_send_stored fix_cancel_timers fix_initialize fix_refuse_publish fix_validate_alias
  fix_set_keep_alive fix_sent_properties : runs.

Lemma fix_auto_topic_alias c now p : runs F c (auto_topic_alias pidb now p).
Proof. unfold auto_topic_alias, map_alias. fix_status. Qed.
Lemma fix_store_v5_publish c now pid p : runs F c (store_v5_publish pidb now pid p).
Proof. unfold store_v5_publish, validate_maximum_packet_size, store_add. fix_status. Qed.
#[local] Hint Resolve fix_auto_topic_alias fix_store_v5_publish : runs.
Lemma fix_store_publish c now pv q : runs F c (store_publish pidb now pv q).
Proof. unfold store_publish, store_add. fix_status. Qed.
Lemma fix_apply_topic_alias c now b p : runs F c (apply_topic_alias pidb now b p).
Proof. unfold apply_topic_alias, validate_topic_alias_range, map_alias. fix_status. Qed.
Lemma fix_count_publish c pid q : runs F c (count_publish pidb pid q).
Proof. unfold count_publish, release_if_nonzero, release_id_and_notify. fix_status. Qed.
Lemma fix_update_packet_ids c pv : runs F c (update_packet_ids pidb pv).
Proof. unfold update_packet_ids, store_add. fix_status. Qed.
Lemma fix_reject_offline_alias c pv : runs F c (reject_offline_alias pidb pv).
Proof. unfold reject_offline_alias. fix_status. Qed.
#[local] Hint Resolve fix_store_publish fix_apply_topic_alias fix_count_publish fix_update_packet_ids
  fix_reject_offline_alias : runs.

Definition is_disconnect (pv : packet_variant) : bool :=
  match pv with v3_1_1_disconnect _ | v5_disconnect _ => true | _ => false end.

Lemma fix_send_packet c pv release : is_disconnect pv = false -> runs F c (send_packet pidb pv release).
Proof. intros Hd. destruct pv; try done; unfold send_packet, reset_pingresp_recv; fix_status. Qed.
#[local] Hint Resolve fix_send_packet : runs.

Lemma fix_send_publish_v5 c now p : runs F c (send_publish_v5 pidb now p).
Proof. unfold send_publish_v5. fix_status. Qed.
Lemma fix_send_publish_v3 c now p : runs F c (send_publish_v3 pidb now p).
Proof. unfold send_publish_v3. fix_status. Qed.
#[local] Hint Resolve fix_send_publish_v5 fix_send_publish_v3 : runs.

(** the CONNACK accepts the connection *)
Definition connack_accepts (pv : packet_variant) : bool :=
  match pv with
  | v3_1_1_connack p => v3_connack_code p =? connect_return_code.accepted
  | v5_connack p => v5_connack.reason_code_ p =? connect_reason_code.success
  | _ => false
  end.

(** the packet passes the checks that come first *)
Definition goes_out c (pv : packet_variant) : bool := allowed c pv && (packet_size pv <=? maximum_packet_size_send_ c).

Definition status_after_send c (pv : packet_variant) : connection_status.t :=
  if goes_out c pv then
    if is_connect pv then connection_status.connecting
    else if is_connack pv then
      if connack_accepts pv then connection_status.connected else connection_status.disconnected
    else if is_disconnect pv then connection_status.disconnected
    else status_ c
  else status_ c.

Definition settles (s : connection_status.t) : run_relation M pidb := fun _ _ c' => status_ c' = s.

(** once the status is right, the rest leaves it alone *)
Lemma seg_settled {A} s c es c' (m : prog M pidb A) : status_ c' = s -> runs F c' m -> seg (settles s) c es c' m.
Proof. unfold runs, seg, ends, fixes, settles. destruct (m c'); congruence. Qed.

Lemma send_goes_out c now pv :
  goes_out c pv = true ->
  runs (settles (status_after_send c pv)) c (send pidb Role now pv).
Proof.
  intros H. assert (Hs : status_after_send c pv = status_after_send c pv) by done.
  unfold status_after_send at 2 in Hs. rewrite H in Hs.
  unfold goes_out, allowed in H. apply andb_true_iff in H as [[[Hr Hst]%andb_true_iff Hv]%andb_true_iff Hsize].
  unfold send, process_send_packet, validate_maximum_packet_size. do 3 seg_step.
  rewrite Hr, Hst, Hv. cbn [negb orb]. do 4 seg_step. rewrite Hsize. cbn [negb].
  destruct pv; cbn [is_connect is_connack is_disconnect connack_accepts] in Hs.
  all: try (apply seg_settled; [done | unfold start_or_accept, reset_pingreq_send; fix_status]; fail).
  all: rewrite Hs; cbn [start_or_accept reject_offline_alias update_packet_ids send_packet own_packet_id is_connack];
    unfold initialize, send_connack; cbv zeta;
    repeat first [apply seg_settled; [first [reflexivity | congruence] | unfold reset_pingreq_send, clear_session, clear_pids; fix_status; fail] | seg_step];
    try discriminate.
Qed.

(** C34: the status after [send], whether it returns or throws: an allowed
    packet that is not too large makes it connecting when it is a CONNECT,
    connected or disconnected when it is a CONNACK that accepts or refuses,
    disconnected when it is a DISCONNECT; any other packet, and a packet
    that is refused, leaves it as it is. *)
Theorem send_status c now pv c' es :
  send pidb Role now pv c = Return tt c' es \/ (exists ec, send pidb Role now pv c = Throw ec c' es) ->
  status_ c' = status_after_send c pv.
Proof.
  intros Hr. destruct (goes_out c pv) eqn:Hg.
  - pose proof (send_goes_out c now pv Hg) as Hs. unfold runs, seg in Hs.
    destruct Hr as [Hr|[ec Hr]]; by rewrite Hr in Hs.
  - unfold status_after_send. rewrite Hg. unfold goes_out in Hg. destruct (allowed c pv) eqn:Ha.
    + simpl in Hg. apply Z.leb_gt in Hg. rewrite (send_too_large_run c now pv Ha Hg) in Hr. simpl in Hr.
      destruct (_ && _); destruct Hr as [[= <- <-]|[ec [=]]]; done.
    + rewrite (send_not_allowed_run c now pv Ha) in Hr. by destruct Hr as [[= <- <-]|[ec [=]]].
Qed.
End status.
