(* ===== verification/ConnectionProtocol.v ===== *)
(** * The connection: delivery and flow control on receipt

    A QoS 2 PUBLISH is delivered once until its PUBREL, and no more QoS 1 and
    2 PUBLISH packets are in progress than the receive maximum the connection
    announced. *)
From stdpp Require Import sorting.
From S2P Require Import PacketBuilder.
From S2P Require Import Prelude Boost Wire Error Property Packet PublishPacket ControlPacket PacketIdManager.
From S2P Require Import TopicAlias Store ConnectionState BufferToPacket ConnectionSend ConnectionRecv ConnectionLogic.

Section protocol.
Context {M : Type} {PM : PacketIdManager M} {BE : BoostEndian} {BMI : BoostMultiIndex}.
Context {pidb : nat}.
Variable Role : role.t.
Implicit Types c : connection M pidb.

Definition not_receive (e : event) : Prop := match e with on_receive _ => False | _ => True end.

(** ** What sending a response does not do

    It does not deliver, and it leaves the received identifiers alone or
    forgets some. *)
Definition sends c (es : list event) c' : Prop :=
  Forall not_receive es /\ qos2_publish_handled_ c' = qos2_publish_handled_ c /\
  publish_recv_ c' ⊆ publish_recv_ c /\ publish_recv_max_ c' = publish_recv_max_ c.

#[export] Instance sends_composes : Composes sends.
Proof.
  split; [by intros c; split_and!|].
  intros c1 es1 c2 es2 c3 (H1 & H2 & H3 & H4) (H5 & H6 & H7 & H8). split; [by apply Forall_app|].
  split; [congruence|]. split; [set_solver+H3 H7 | congruence].
Qed.

Ltac sends_leaf :=
  idtac; (split; [simpl; repeat constructor|]; split; [simpl; congruence|]; split; [simpl; set_solver+ | simpl; congruence]).
Ltac sending := seg_go sends_leaf; try sends_leaf.

#[local] Hint Unfold release_id_and_notify release_if_nonzero cancel_timers cancel_pingreq_send
  cancel_pingreq_recv cancel_pingresp_recv reset_pingreq_send reset_pingreq_recv reset_pingresp_recv
  validate_topic_alias_range validate_topic_alias validate_maximum_packet_size
  refuse_publish store_add map_alias : inline.

(** responses: not CONNECT, a CONNACK with properties, nor a v5 PUBREC that
    refuses *)
Definition response (pv : packet_variant) : bool :=
  match pv with
  | v3_1_1_connect _ | v5_connect _ => false
  | v5_connack p => match v5_connack.props_ p with [] => true | _ => false end
  | v5_pubrec p => negb (failed (make_error_code pubrec_reason_code_category (v5_ack_code p)))
  | _ => true
  end.

Lemma sends_emits c es : Forall not_receive es -> runs sends c (for_each emit es).
Proof.
  intros H. apply runs_for_each; [exact _|]. intros e c' He. apply seg_emit. rewrite Forall_forall in H.
  split_and!; [repeat constructor; by apply H | done..].
Qed.

Lemma send_stored_not_receive n l t (s : M * list event) :
  Forall not_receive (snd s) ->
  Forall not_receive (snd (snd (for_each_loop pidb (fun e (s : M * list event) =>
    if n <? store_packet_size e
    then (false, (release_id (store_packet_id pidb e) (fst s), snd s ++ [on_packet_id_release (store_packet_id pidb e)]))
    else (true, (fst s, snd s ++ [on_send (store_packet e) None]))) l t s))).
Proof.
  revert t s. induction l as [|e l IH]; intros t s Hs; simpl; [done|].
  destruct (_ <? _); apply IH; apply Forall_app; (split; [done|by constructor]).
Qed.

Lemma sends_send_stored c : runs sends c (send_stored pidb).
Proof.
  unfold send_stored. apply seg_gets_bind. cbv zeta beta delta [id]. do 2 seg_step.
  apply seg_call; [exact _ | split_and!; by simpl |]. apply sends_emits, send_stored_not_receive. constructor.
Qed.

Lemma sends_cancel_timers c : runs sends c (cancel_timers pidb).
Proof. autounfold with inline. sending. Qed.
Lemma sends_refuse_publish c pid : runs sends c (refuse_publish pidb pid).
Proof. autounfold with inline. sending. Qed.
Lemma sends_validate_alias c now ta_opt : runs sends c (validate_topic_alias pidb now ta_opt).
Proof. autounfold with inline. sending. Qed.
#[local] Hint Resolve sends_cancel_timers sends_refuse_publish sends_validate_alias sends_send_stored : runs.
Lemma sends_auto_topic_alias c now p : runs sends c (auto_topic_alias pidb now p).
Proof. unfold auto_topic_alias, map_alias. sending. Qed.
Lemma sends_store_v5_publish c now pid p : runs sends c (store_v5_publish pidb now pid p).
Proof. unfold store_v5_publish, validate_maximum_packet_size, store_add. sending. Qed.
#[local] Hint Resolve sends_auto_topic_alias sends_store_v5_publish : runs.
Lemma sends_store_publish c now pv q : runs sends c (store_publish pidb now pv q).
Proof. unfold store_publish, store_add. sending. Qed.
Lemma sends_apply_topic_alias c now b p : runs sends c (apply_topic_alias pidb now b p).
Proof. unfold apply_topic_alias, validate_topic_alias_range, map_alias. sending. Qed.
Lemma sends_count_publish c pid q : runs sends c (count_publish pidb pid q).
Proof. unfold count_publish, release_if_nonzero, release_id_and_notify. sending. Qed.
Lemma sends_update_packet_ids c pv : response pv = true -> runs sends c (update_packet_ids pidb pv).
Proof.
  intros Hp. unfold update_packet_ids, store_add. destruct pv; try (sending; fail).
  cbn [response] in Hp. apply negb_true_iff in Hp. rewrite Hp. sending.
Qed.
Lemma sends_reject_offline_alias c pv : runs sends c (reject_offline_alias pidb pv).
Proof. unfold reject_offline_alias. sending. Qed.
Lemma sends_send_packet c pv release : runs sends c (send_packet pidb pv release).
Proof. unfold send_packet, reset_pingresp_recv. sending. Qed.
Lemma sends_start_or_accept c pv : response pv = true -> runs sends c (start_or_accept pidb pv).
Proof.
  intros Hp. destruct pv; try done; cbn [start_or_accept]; unfold send_connack; try (sending; fail).
  cbn [response] in Hp. destruct (v5_connack.props_ p); [|done]. cbn [for_each]. sending.
Qed.
#[local] Hint Resolve sends_store_publish sends_apply_topic_alias sends_count_publish sends_update_packet_ids
  sends_reject_offline_alias sends_send_packet sends_start_or_accept : runs.

Lemma sends_send c now pv : response pv = true -> runs sends c (send pidb Role now pv).
Proof.
  intros Hp. unfold send, process_send_packet, validate_maximum_packet_size, release_if_nonzero,
    release_id_and_notify, send_publish_v5, send_publish_v3, reset_pingreq_send.
  sending.
Qed.

(** ** Received packets *)

(** at most as many packets as announced *)
Definition quota_ok c : Prop :=
  forall n, publish_recv_max_ c = Some n -> Z.of_nat (size (publish_recv_ c)) <= n.

(** a delivery of a QoS 2 PUBLISH with the identifier *)
Definition delivers (pid : Z) (e : event) : nat :=
  match e with
  | on_receive (v3_1_1_publish p) =>
    if (pub.get_qos (v3_publish.fixed_header_ p) =? qos.exactly_once) && (V3.packet_id pidb p =? pid) then 1 else 0
  | on_receive (v5_publish p) =>
    if (pub.get_qos (v5_publish.fixed_header_ p) =? qos.exactly_once) && (V5.packet_id pidb p =? pid) then 1 else 0
  | _ => 0
  end.

Definition deliveries (pid : Z) (es : list event) : nat := sum_list_with (delivers pid) es.

(** the identifier is known to be handled *)
Definition held (pid : Z) c : nat := if bool_decide (pid ∈ qos2_publish_handled_ c) then 1 else 0.

Definition receives (pid : Z) : run_relation M pidb :=
  fun c es c' => (quota_ok c -> quota_ok c') /\ (deliveries pid es + held pid c <= held pid c')%nat.

Lemma deliveries_app pid es1 es2 : deliveries pid (es1 ++ es2) = (deliveries pid es1 + deliveries pid es2)%nat.
Proof. apply sum_list_with_app. Qed.

#[export] Instance receives_composes pid : Composes (receives pid).
Proof.
  split; unfold receives; [intros c; split; [done | simpl; lia]|].
  intros c1 es1 c2 es2 c3 [H1 H2] [H3 H4]. split; [auto|]. rewrite deliveries_app. lia.
Qed.

Lemma not_receive_deliveries pid es : Forall not_receive es -> deliveries pid es = 0%nat.
Proof. induction 1 as [|e es He _ IH]; simpl; [done|]. rewrite IH. by destruct e. Qed.

Lemma sends_receives pid c es c' : sends c es c' -> receives pid c es c'.
Proof.
  intros (Hes & Hh & Hr & Hm). split.
  - intros Hq n Hn. rewrite Hm in Hn. specialize (Hq n Hn). apply subseteq_size in Hr. lia.
  - rewrite not_receive_deliveries by done. unfold held. by rewrite Hh.
Qed.

Section handlers.
Variable now : Z.
Variable pid : Z.

Ltac receives_leaf :=
  idtac; (split; [solve [exact (fun H => H) | (intros _ n Hn; simpl in Hn; discriminate)]
                 | simpl; unfold held; simpl; first [done | lia]]).
Ltac receiving := seg_go receives_leaf; try receives_leaf.

Lemma receives_send c pv : response pv = true -> runs (receives pid) c (send pidb Role now pv).
Proof. intros Hp. eapply runs_weaken; [apply sends_receives | by apply sends_send]. Qed.
#[local] Hint Extern 1 (response _ = true) => reflexivity : runs.
#[local] Hint Resolve receives_send sends_send : runs.

Lemma receives_disconnect c code : runs (receives pid) c (disconnect_and_error pidb Role now code).
Proof. unfold disconnect_and_error. receiving. Qed.
Lemma sends_disconnect c code : runs sends c (disconnect_and_error pidb Role now code).
Proof. unfold disconnect_and_error. sending. Qed.
Lemma sends_pingreq_recv_op c : runs sends c (pingreq_recv_op pidb).
Proof. unfold pingreq_recv_op, reset_pingreq_recv, cancel_pingreq_recv. sending. Qed.
Lemma receives_pingreq_recv_op c : runs (receives pid) c (pingreq_recv_op pidb).
Proof. eapply runs_weaken; [apply sends_receives | apply sends_pingreq_recv_op]. Qed.
#[local] Hint Resolve receives_disconnect sends_disconnect sends_pingreq_recv_op receives_pingreq_recv_op : runs.

Lemma receives_accept c pv : delivers pid (on_receive pv) = 0%nat -> runs (receives pid) c (accept pidb pv).
Proof.
  intros Hd. unfold accept. seg_go receives_leaf. split; [done|]. simpl. unfold delivers in Hd. rewrite Hd. lia.
Qed.
#[local] Hint Extern 1 (delivers _ _ = 0%nat) => reflexivity : runs.
#[local] Hint Resolve receives_accept : runs.

Lemma receives_cancel_timers c : runs (receives pid) c (cancel_timers pidb).
Proof. eapply runs_weaken; [apply sends_receives | apply sends_cancel_timers]. Qed.
Lemma receives_send_stored c : runs (receives pid) c (send_stored pidb).
Proof. eapply runs_weaken; [apply sends_receives | apply sends_send_stored]. Qed.
#[local] Hint Resolve receives_cancel_timers receives_send_stored : runs.

Lemma receives_properties c b l :
  runs (receives pid) c (for_each (received_property pidb Role b (set_pingreq_send_interval pidb)) l).
Proof.
  apply runs_for_each; [exact _|]. intros p c' _. unfold received_property, set_pingreq_send_interval. receiving.
Qed.
#[local] Hint Resolve receives_properties : runs.

#[local] Hint Unfold initialize set_recv_timeout clear_session clear_pids resume_session auto_response is_connected
  erase_pid store_erase uncount end_processing unknown_id close_and_error cancel_pingresp_recv : inline.

Lemma receives_v3_connect c p : runs (receives pid) c (recv_v3_connect pidb p).
Proof. unfold recv_v3_connect. autounfold with inline. receiving. Qed.
Lemma receives_v5_connect c p : runs (receives pid) c (recv_v5_connect pidb Role p).
Proof. unfold recv_v5_connect. autounfold with inline. receiving. Qed.
Lemma receives_v3_connack c p : runs (receives pid) c (recv_v3_connack pidb p).
Proof. unfold recv_v3_connack. autounfold with inline. receiving. Qed.
Lemma receives_v5_connack c p : runs (receives pid) c (recv_v5_connack pidb Role p).
Proof. unfold recv_v5_connack. autounfold with inline. receiving. Qed.

(** the responses, which never deliver a PUBLISH *)
Lemma receives_puback c b pv : is_publish pv = false -> runs (receives pid) c (recv_puback pidb Role now b pv).
Proof.
  intros Hp. assert (delivers pid (on_receive pv) = 0%nat) by by destruct pv.
  unfold recv_puback. autounfold with inline. receiving.
Qed.
Lemma receives_pubcomp c b pv : is_publish pv = false -> runs (receives pid) c (recv_pubcomp pidb Role now b pv).
Proof.
  intros Hp. assert (delivers pid (on_receive pv) = 0%nat) by by destruct pv.
  unfold recv_pubcomp. autounfold with inline. receiving.
Qed.
Lemma receives_suback c b pv : is_publish pv = false -> runs (receives pid) c (recv_suback pidb Role now b pv).
Proof.
  intros Hp. assert (delivers pid (on_receive pv) = 0%nat) by by destruct pv.
  unfold recv_suback. autounfold with inline. receiving.
Qed.
Lemma receives_unsuback c b pv : is_publish pv = false -> runs (receives pid) c (recv_unsuback pidb Role now b pv).
Proof.
  intros Hp. assert (delivers pid (on_receive pv) = 0%nat) by by destruct pv.
  unfold recv_unsuback. autounfold with inline. receiving.
Qed.
Lemma receives_v3_pubrec c p : runs (receives pid) c (recv_v3_pubrec pidb Role now p).
Proof. unfold recv_v3_pubrec. autounfold with inline. receiving. Qed.
Lemma receives_v5_pubrec c p : runs (receives pid) c (recv_v5_pubrec pidb Role now p).
Proof. unfold recv_v5_pubrec. autounfold with inline. receiving. Qed.
#[local] Hint Resolve receives_v3_connect receives_v5_connect receives_v3_connack receives_v5_connack receives_puback
  receives_pubcomp receives_suback receives_unsuback receives_v3_pubrec receives_v5_pubrec : runs.

(** a PUBREL with another identifier *)
Lemma receives_pubrel c pv r :
  packet_id pidb pv <> pid -> is_publish pv = false -> response r = true ->
  runs (receives pid) c (recv_pubrel pidb Role now pv r).
Proof.
  intros Hne Hp Hr. assert (delivers pid (on_receive pv) = 0%nat) by by destruct pv.
  unfold recv_pubrel. autounfold with inline. cbv zeta.
  eapply seg_call_bind; [exact _ | apply composes_refl | | intros; receiving].
  apply seg_modify. split; [exact (fun H => H) | simpl; unfold held; simpl].
  destruct (decide (pid ∈ qos2_publish_handled_ c)); [rewrite !bool_decide_eq_true_2 by set_solver; lia|].
  rewrite bool_decide_eq_false_2 by done. lia.
Qed.

(** *** PUBLISH *)

(** a QoS 2 PUBLISH with the identifier [q] in the state [c], which has
    been recorded by [c']: the response, and the delivery of a new one *)
Definition recorded (q : Z) (already_handled : bool) c c' : Prop :=
  already_handled = bool_decide (q ∈ qos2_publish_handled_ c) /\
  qos2_publish_handled_ c' = {[q]} ∪ qos2_publish_handled_ c /\ (quota_ok c -> quota_ok c').

Lemma held_recorded q already_handled c c' :
  recorded q already_handled c c' ->
  ((if negb already_handled && (q =? pid)%Z then 1 else 0) + held pid c <= held pid c')%nat.
Proof.
  intros (-> & Hh & _). unfold held. rewrite Hh. destruct (Z.eqb_spec q pid) as [->|Hne].
  - rewrite (bool_decide_eq_true_2 (pid ∈ {[pid]} ∪ _)) by set_solver.
    destruct (bool_decide _); simpl; lia.
  - rewrite andb_false_r. destruct (decide (pid ∈ qos2_publish_handled_ c));
      [rewrite !bool_decide_eq_true_2 by set_solver | rewrite bool_decide_eq_false_2 by done]; lia.
Qed.

Lemma recorded_sends q already_handled c es c' es2 c2 :
  recorded q already_handled c c' -> Forall not_receive es -> sends c' es2 c2 ->
  Forall not_receive (es ++ es2) /\ recorded q already_handled c c2 /\ receives pid c (es ++ es2) c2.
Proof.
  intros Hr Hes Hs. pose proof Hs as (Hes2 & Hh & _). split; [by apply Forall_app|].
  destruct (sends_receives pid _ _ _ Hs) as [Hq _].
  assert (Hr2 : recorded q already_handled c c2) by (destruct Hr as (? & ? & ?); split_and!; [done | congruence | auto]).
  split; [done|]. split; [apply Hr2|]. rewrite not_receive_deliveries by by apply Forall_app.
  pose proof (held_recorded _ _ _ _ Hr2). lia.
Qed.

Lemma receives_deliver q already_handled c es c' pv (m : prog M pidb unit) :
  recorded q already_handled c c' -> Forall not_receive es ->
  delivers pid (on_receive pv) = (if (q =? pid)%Z then 1 else 0)%nat -> (forall c, runs sends c m) ->
  seg (receives pid) c es c'
    (m;; pingreq_recv_op pidb;; when (negb already_handled) (emit (on_receive pv))).
Proof.
  intros Hr Hes Hd Hm. apply (seg_cut _ sends); [apply Hm | intros c2 es2 Hs; by apply (recorded_sends q already_handled _ _ c') |].
  intros _ c2 es2 _ Hs. destruct (recorded_sends _ _ _ _ _ _ _ Hr Hes Hs) as (Hes2 & Hr2 & _).
  apply (seg_cut _ sends); [apply sends_pingreq_recv_op | intros c3 es3 Hs'; by apply (recorded_sends q already_handled _ _ c2) |].
  intros _ c3 es3 _ Hs'. destruct (recorded_sends _ _ _ _ _ _ _ Hr2 Hes2 Hs') as (Hes3 & Hr3 & Hrec).
  unfold when. pose proof (held_recorded _ _ _ _ Hr3) as Hh. destruct already_handled; simpl in Hh; [by apply seg_ret|].
  apply seg_emit. split; [apply Hr3|]. rewrite deliveries_app, not_receive_deliveries by done.
  change (deliveries pid [on_receive pv]) with (delivers pid (on_receive pv) + 0)%nat. rewrite Hd. lia.
Qed.

(** up to the response *)
Ltac seg_to_when :=
  repeat lazymatch goal with
  | |- seg _ _ _ _ (when _ _ ≫= _) => fail
  | |- _ => seg_step
  end.

Lemma recorded_old q c : q ∈ qos2_publish_handled_ c -> recorded q true c c.
Proof. intros Hq. split; [by rewrite bool_decide_eq_true_2|]. split; [set_solver | done]. Qed.

Lemma recorded_new q c :
  q ∉ qos2_publish_handled_ c ->
  recorded q false c (set_qos2_publish_handled_ ({[q]} ∪ qos2_publish_handled_ c) c).
Proof. intros Hq. split; [by rewrite bool_decide_eq_false_2|]. by split. Qed.

Lemma receives_v3_publish c p : runs (receives pid) c (recv_v3_publish pidb Role now p).
Proof.
  unfold recv_v3_publish. autounfold with inline. unfold handle_qos2. cbv zeta.
  destruct (Z.eqb_spec (pub.get_qos (v3_publish.fixed_header_ p)) qos.at_most_once) as [H0|H0].
  { apply receives_accept. simpl. by rewrite H0. }
  destruct (Z.eqb_spec (pub.get_qos (v3_publish.fixed_header_ p)) qos.at_least_once) as [H1|H1].
  { assert (delivers pid (on_receive (v3_1_1_publish p)) = 0%nat) by (simpl; by rewrite H1). receiving. }
  destruct (Z.eqb_spec (pub.get_qos (v3_publish.fixed_header_ p)) qos.exactly_once) as [H2|H2]; [|receiving].
  do 3 seg_step. case_bool_decide as Hin; seg_to_when.
  all: apply (receives_deliver (V3.packet_id pidb p)); try (by apply recorded_old); try (by apply recorded_new); try done.
  all: try (simpl; by rewrite H2).
  all: intros c'; sending.
Qed.

Lemma quota_insert q c :
  match publish_recv_max_ c with Some n => Z.of_nat (size (publish_recv_ c)) =? n | None => false end = false ->
  quota_ok c -> quota_ok (set_publish_recv_ ({[q]} ∪ publish_recv_ c) c).
Proof.
  intros Hn Hq n Hm. simpl in *. specialize (Hq n Hm). rewrite Hm in Hn. apply Z.eqb_neq in Hn.
  assert (size ({[q]} ∪ publish_recv_ c) <= 1 + size (publish_recv_ c))%nat; [|lia].
  rewrite size_union_alt, size_singleton. assert (size (publish_recv_ c ∖ {[q]}) <= size (publish_recv_ c))%nat; [|lia].
  apply subseteq_size. set_solver.
Qed.

Lemma receives_quota c q : runs (receives pid) c (receive_quota pidb Role now q).
Proof.
  unfold receive_quota. do 2 seg_step. destruct (match publish_recv_max_ c with Some _ => _ | None => _ end) eqn:Hn.
  - receiving.
  - seg_go receives_leaf. split; [by apply quota_insert | done].
Qed.

Lemma sends_recv_v5_topic c p : runs sends c (recv_v5_topic pidb Role now p).
Proof. unfold recv_v5_topic. sending. Qed.
Lemma receives_recv_v5_topic c p : runs (receives pid) c (recv_v5_topic pidb Role now p).
Proof. eapply runs_weaken; [apply sends_receives | apply sends_recv_v5_topic]. Qed.
#[local] Hint Resolve receives_quota receives_recv_v5_topic : runs.

(** the packet delivered is the one received, but for its topic *)
Lemma recv_v5_topic_same p :
  yields (fun r => match r with
    | Some p' => v5_publish.fixed_header_ p' = v5_publish.fixed_header_ p /\ v5_publish.packet_id_ p' = v5_publish.packet_id_ p
    | None => True
    end) (recv_v5_topic (M := M) pidb Role now p).
Proof.
  unfold recv_v5_topic. cbv zeta. apply yields_skip. intros o.
  repeat first [apply yields_ret; done | case_match | apply yields_skip; intros].
Qed.

Lemma delivers_v5 p p' :
  v5_publish.fixed_header_ p' = v5_publish.fixed_header_ p /\ v5_publish.packet_id_ p' = v5_publish.packet_id_ p ->
  delivers pid (on_receive (v5_publish p')) = delivers pid (on_receive (v5_publish p)).
Proof. intros [Hf Hi]. simpl. unfold V5.packet_id. by rewrite Hf, Hi. Qed.

(** a PUBLISH that is not QoS 2: nothing to count *)
Lemma receives_on_v5_publish c c0 c1 es1 p p' :
  delivers pid (on_receive (v5_publish p)) = 0%nat ->
  recv_v5_topic pidb Role now p c0 = Return (Some p') c1 es1 ->
  receives pid c [on_receive (v5_publish p')] c.
Proof.
  intros Hd Hr. apply (yields_Return _ _ _ _ _ _ (recv_v5_topic_same p)), delivers_v5 in Hr.
  split; [done|]. change (deliveries pid [on_receive (v5_publish p')]) with (delivers pid (on_receive (v5_publish p')) + 0)%nat.
  rewrite Hr, Hd. lia.
Qed.

Lemma receives_v5_publish c p : runs (receives pid) c (recv_v5_publish pidb Role now p).
Proof.
  unfold recv_v5_publish, recv_v5_qos, auto_response, is_connected. cbv zeta.
  destruct (Z.eqb_spec (pub.get_qos (v5_publish.fixed_header_ p)) qos.at_least_once) as [H1|H1];
  [|destruct (Z.eqb_spec (pub.get_qos (v5_publish.fixed_header_ p)) qos.exactly_once) as [H2|H2]].
  1,3: assert (Hd : delivers pid (on_receive (v5_publish p)) = 0%nat)
         by (simpl; first [by rewrite H1 | by rewrite (proj2 (Z.eqb_neq _ _) H2)]);
       receiving; by eapply receives_on_v5_publish.
  apply seg_bind_bind. eapply seg_call_bind; [exact _ | apply composes_refl | apply receives_quota | ].
  intros [|] c1 es1 _ _; [|receiving]. cbn [negb]. unfold handle_qos2, runs.
  do 3 seg_step. case_bool_decide as Hin.
  all: repeat lazymatch goal with
       | |- seg _ _ _ _ (recv_v5_topic _ _ _ _ ≫= _) => fail
       | |- _ => seg_step
       end.
  1: pose proof (recorded_old _ _ Hin) as Hr. 2: pose proof (recorded_new _ _ Hin) as Hr.
  all: apply (seg_cut _ sends); [apply sends_recv_v5_topic
         | intros c2 es2 Hs; by eapply (recorded_sends _ _ _ [] _ _ _ Hr (Forall_nil_2 _)) |].
  all: intros r c2 es2 Heq Hs; destruct (recorded_sends _ _ _ [] _ _ _ Hr (Forall_nil_2 _) Hs) as (Hes & Hr2 & Hrec).
  all: destruct r as [p'|]; [|by apply seg_ret].
  all: apply (yields_Return _ _ _ _ _ _ (recv_v5_topic_same p)), delivers_v5 in Heq.
  all: cbn [when]; apply seg_ret_bind, (receives_deliver (V5.packet_id pidb p)); [exact Hr2 | exact Hes | | intros c'; sending].
  all: rewrite Heq; simpl; by rewrite H2.
Qed.
#[local] Hint Resolve receives_v3_publish receives_v5_publish : runs.

Lemma receives_process_packet c pv :
  (is_pubrel pv = true -> packet_id pidb pv <> pid) -> runs (receives pid) c (process_packet pidb Role now pv).
Proof.
  intros Hne. destruct pv; cbn [process_packet]; auto with runs.
  1,5: apply receives_pubrel; [by apply Hne | done | done].
  all: unfold recv_pingreq, recv_pingresp, recv_disconnect, is_connected, cancel_pingresp_recv; receiving.
Qed.
#[local] Hint Resolve receives_process_packet : runs.

Lemma receives_recv_parse_error c ec : runs (receives pid) c (recv_parse_error pidb Role now ec).
Proof. unfold recv_parse_error. receiving. Qed.
#[local] Hint Resolve receives_recv_parse_error : runs.

(** the packet the stream completes *)
Definition received stream c : option packet_variant :=
  match PacketBuilder.read_packet_ (fst (PacketBuilder.recv stream (rpb_ c))) with
  | Some (ep_packet buf) =>
    match buffer_to_packet_variant pidb buf (protocol_version_ c) with
    | Ok pv => Some pv
    | _ => None
    end
  | _ => None
  end.

Definition no_pubrel stream c : Prop :=
  forall pv, received stream c = Some pv -> is_pubrel pv = true -> packet_id pidb pv <> pid.

Lemma receives_recv c stream :
  no_pubrel stream c -> runs (receives pid) c (recv pidb Role now stream).
Proof.
  unfold no_pubrel, received. intros Hne. unfold recv, process_recv_packet. do 5 seg_step. cbn [rpb_ set_rpb_] in *.
  destruct (PacketBuilder.read_packet_ _) as [[ec|buf]|]; [receiving| |receiving].
  do 4 seg_step. cbn [protocol_version_ set_rpb_]. destruct (_ <? _); [receiving|].
  destruct (buffer_to_packet_variant pidb buf (protocol_version_ c)) as [pv|ec|]; [|receiving..].
  specialize (Hne pv eq_refl). receiving.
Qed.
End handlers.

(** the calls of [recv] that do not complete a PUBREL with the identifier *)
Inductive receiving_run (pid : Z) : connection M pidb -> list event -> connection M pidb -> Prop :=
| receiving_nil c : receiving_run pid c [] c
| receiving_cons c es c1 es1 c2 now stream rest :
    no_pubrel pid stream c -> recv pidb Role now stream c = Return rest c1 es ->
    receiving_run pid c1 es1 c2 -> receiving_run pid c (es ++ es1) c2.

Lemma receiving_run_receives pid c es c' : receiving_run pid c es c' -> receives pid c es c'.
Proof.
  induction 1 as [c|c es c1 es1 c2 now stream rest Hne Hr _ IH]; [apply composes_refl|].
  apply composes_trans with c1; [|done]. exact (runs_Return _ _ _ _ _ _ (receives_recv now pid c stream Hne) Hr).
Qed.

(** C2: however many QoS 2 PUBLISH packets with an identifier are received,
    v3.1.1 or v5, with the same payload or not, as long as no PUBREL with
    the identifier is received they are delivered at most once in all, and
    not at all when the identifier was already recorded. *)
Theorem qos2_delivered_once pid c es c' :
  receiving_run pid c es c' ->
  (deliveries pid es <= 1)%nat /\ (pid ∈ qos2_publish_handled_ c -> deliveries pid es = 0%nat).
Proof.
  intros Hr. apply receiving_run_receives in Hr as [_ Hd]. unfold held in Hd.
  split; [destruct (bool_decide (pid ∈ qos2_publish_handled_ c')); lia|]. intros Hin.
  rewrite (bool_decide_eq_true_2 (pid ∈ qos2_publish_handled_ c)) in Hd by done.
  destruct (bool_decide (pid ∈ qos2_publish_handled_ c')); lia.
Qed.

(** C22: receiving, whatever the bytes, never takes the number of QoS 1 and 2
    PUBLISH packets in progress over the receive maximum announced to the
    peer. *)
Theorem receive_quota_kept now stream c c' es rest :
  quota_ok c -> recv pidb Role now stream c = Return rest c' es -> quota_ok c'.
Proof.
  intros Hq Hr. set (pid := match received stream c with Some pv => packet_id pidb pv + 1 | None => 0 end).
  assert (Hne : no_pubrel pid stream c) by (intros pv Hpv _; unfold pid; rewrite Hpv; lia).
  by apply (runs_Return _ _ _ _ _ _ (receives_recv now pid c stream Hne) Hr).
Qed.
End protocol.
