(* ===== verification/ConnectionBehaviour.v ===== *)
(** * The connection: what single calls do

    Exact results, callbacks included, of the calls that matter most, and the
    cases where the code does something its documentation does not say. *)
From stdpp Require Import sorting.
From S2P Require Import PacketBuilder.
From S2P Require Import Prelude Boost Wire Error Property Packet PublishPacket ControlPacket PacketIdManager.
From S2P Require Import TopicAlias Store ConnectionState BufferToPacket ConnectionSend ConnectionRecv ConnectionLogic.
From S2P Require Import ConnectionStatus.

Section behaviour.
Context {M : Type} {PM : PacketIdManager M} {BE : BoostEndian} {BMI : BoostMultiIndex}.
Context {pidb : nat}.
Variable Role : role.t.
Implicit Types c : connection M pidb.

#[local] Arguments unknown_id : simpl never.

(** ** Acknowledgements *)

(** a v5 PUBREC with an error code, which ends the exchange *)
Definition rejects (p : v5_ack.ack_packet) : bool := failed (make_error_code pubrec_reason_code_category (v5_ack_code p)).

(** the identifiers the packets sent wait for, by the acknowledgement that
    ends the wait *)
Definition waiting c (pv : packet_variant) : option (gset Z) :=
  match pv with
  | v5_pubrec p => if rejects p then Some (pid_pubrec_ c) else None
  | v3_1_1_puback _ | v5_puback _ => Some (pid_puback_ c)
  | v3_1_1_pubcomp _ | v5_pubcomp _ => Some (pid_pubcomp_ c)
  | v3_1_1_suback _ | v5_suback _ => Some (pid_suback_ c)
  | v3_1_1_unsuback _ | v5_unsuback _ => Some (pid_unsuback_ c)
  | _ => None
  end.

(** the store after the acknowledgement *)
Definition store_after_ack c (pv : packet_variant) : store pidb :=
  let erased r := fst (erase pidb r (packet_id pidb pv) (store_ c)) in
  match pv with
  | v3_1_1_puback _ => erased res_v3_1_1_puback
  | v5_puback _ => erased res_v5_puback
  | v5_pubrec _ => erased res_v5_pubrec
  | v3_1_1_pubcomp _ => erased res_v3_1_1_pubcomp
  | v5_pubcomp _ => erased res_v5_pubcomp
  | _ => store_ c
  end.

(** the number of PUBLISH packets on the way, after the acknowledgement: one
    less when the last one of a v5 PUBLISH arrives and the peer has a
    receive maximum *)
Definition count_after_ack c (pv : packet_variant) : Z :=
  match pv with
  | v5_puback _ | v5_pubrec _ | v5_pubcomp _ =>
    if publish_send_max_ c then (publish_send_count_ c - 1) mod 2 ^ 16 else publish_send_count_ c
  | _ => publish_send_count_ c
  end.

(** the QoS 2 exchanges that go on after the acknowledgement *)
Definition processing_after_ack c (pv : packet_variant) : gset Z :=
  match pv with
  | v5_pubrec _ | v3_1_1_pubcomp _ | v5_pubcomp _ => qos2_publish_processing_ c ∖ {[packet_id pidb pv]}
  | _ => qos2_publish_processing_ c
  end.

(** the keep alive timer of a server, restarted by every packet *)
Definition keep_alive_events c : list event :=
  match pingreq_recv_timeout_ms_ c with
  | Some ms => [on_timer_op timer_op.reset timer_kind.pingreq_recv (Some ms)]
  | None => []
  end.

(** the timers that run, cancelled *)
Definition cancel_events c : list event :=
  (if pingreq_send_set_ c then [on_timer_op timer_op.cancel timer_kind.pingreq_send None] else []) ++
  (if pingreq_recv_set_ c then [on_timer_op timer_op.cancel timer_kind.pingreq_recv None] else []) ++
  (if pingresp_recv_set_ c then [on_timer_op timer_op.cancel timer_kind.pingresp_recv None] else []).

Lemma cancel_timers_run c :
  cancel_timers pidb c =
  Return tt (set_pingresp_recv_set_ false (set_pingreq_recv_set_ false (set_pingreq_send_set_ false c))) (cancel_events c).
Proof.
  destruct (pingreq_send_set_ c) eqn:H1, (pingreq_recv_set_ c) eqn:H2, (pingresp_recv_set_ c) eqn:H3;
    unfold cancel_timers, cancel_events, cancel_pingreq_send, cancel_pingreq_recv, cancel_pingresp_recv;
    rewrite H1, H2, H3; simpl; apply x_last; repeat x_step; destruct c; simpl in *; by subst.
Qed.

(** a DISCONNECT that the connection itself sends *)
Lemma disconnect_and_error_run now code c :
  status_ c = connection_status.connected -> protocol_version_ c = protocol_version.v5 ->
  packet_size (v5_disconnect (Reason.make_disconnect_code code)) <= maximum_packet_size_send_ c ->
  exists c', disconnect_and_error pidb Role now code c =
    Return tt c' (cancel_events c ++
      [on_send (v5_disconnect (Reason.make_disconnect_code code)) None; on_close; on_error (disconnect_ec code)]) /\
    c' = set_pingresp_recv_set_ false (set_pingreq_recv_set_ false (set_pingreq_send_set_ false
           (set_status_ connection_status.disconnected c))).
Proof.
  intros Hs Hv Hsize%Z.leb_le. set (pv := v5_disconnect (Reason.make_disconnect_code code)) in *.
  assert (Hr : role_check Role pv = true) by (by destruct Role).
  assert (Hst : status_check pidb c pv = true) by (unfold status_check; by rewrite Hs).
  assert (Hvc : version_check pidb c pv = true) by (unfold version_check; by rewrite Hv).
  eexists. split; [|reflexivity].
  assert (Hp : process_send_packet pidb Role now pv c = Return true
    (set_pingresp_recv_set_ false (set_pingreq_recv_set_ false (set_pingreq_send_set_ false (set_status_ connection_status.disconnected c))))
    (cancel_events c ++ [on_send pv None; on_close])).
  { unfold process_send_packet, validate_maximum_packet_size. repeat x_step. cbn [pv start_or_accept]. repeat x_step.
    cbn [pv reject_offline_alias]. repeat x_step. cbn [pv update_packet_ids send_packet].
    change (cancel_events c) with (cancel_events (set_status_ connection_status.disconnected c)).
    do 2 x_step. eapply x_call_bind; [apply cancel_timers_run|]. repeat x_step. }
  change [on_send pv None; on_close; on_error (disconnect_ec code)] with ([on_send pv None; on_close] ++ [on_error (disconnect_ec code)]).
  rewrite app_assoc. unfold disconnect_and_error. fold pv. unfold ConnectionSend.send. x_step.
  eapply x_call_bind; [exact Hp|]. cbn [when pv is_connack]. repeat x_step.
  destruct (can_send_as_client Role); cbn [when]; repeat x_step.
  destruct (is_client_ c) eqn:Hc; repeat x_step. destruct (pingreq_send_interval_ms_ c) eqn:Hi; repeat x_step.
Qed.


(** ** Sending a PUBLISH *)

(** the keep alive timer of a client, restarted by every packet sent *)
Definition pingreq_send_events c : list event :=
  if can_send_as_client Role && is_client_ c then
    match pingreq_send_interval_ms_ c with
    | Some ms => [on_timer_op timer_op.reset timer_kind.pingreq_send (Some ms)]
    | None => []
    end
  else [].

(** a PUBLISH that passes the checks *)
Lemma send_v3_publish_run now c p :
  status_ c = connection_status.connected -> protocol_version_ c = protocol_version.v3_1_1 ->
  packet_size (v3_1_1_publish p) <= maximum_packet_size_send_ c ->
  process_send_packet pidb Role now (v3_1_1_publish p) c = send_publish_v3 pidb now p c.
Proof.
  intros Hs Hv Hsize%Z.leb_le.
  assert (Hr : role_check Role (v3_1_1_publish p) = true) by (by destruct Role).
  assert (Hst : status_check pidb c (v3_1_1_publish p) = true) by (unfold status_check; by rewrite Hs).
  assert (Hvc : version_check pidb c (v3_1_1_publish p) = true) by (unfold version_check; by rewrite Hv).
  unfold process_send_packet, validate_maximum_packet_size, mbind, prog_bind. simpl.
  rewrite Hr, Hst, Hvc. simpl in *. rewrite Hsize. simpl. by destruct (send_publish_v3 pidb now p c).
Qed.

Lemma send_v5_publish_run now c p :
  status_ c = connection_status.connected -> protocol_version_ c = protocol_version.v5 ->
  packet_size (v5_publish p) <= maximum_packet_size_send_ c ->
  process_send_packet pidb Role now (v5_publish p) c = send_publish_v5 pidb now p c.
Proof.
  intros Hs Hv Hsize%Z.leb_le.
  assert (Hr : role_check Role (v5_publish p) = true) by (by destruct Role).
  assert (Hst : status_check pidb c (v5_publish p) = true) by (unfold status_check; by rewrite Hs).
  assert (Hvc : version_check pidb c (v5_publish p) = true) by (unfold version_check; by rewrite Hv).
  unfold process_send_packet, validate_maximum_packet_size, reject_offline_alias, mbind, prog_bind. simpl.
  rewrite Hr, Hst, Hvc. simpl in *. rewrite Hsize. simpl. rewrite Hs. simpl. by destruct (send_publish_v5 pidb now p c).
Qed.

(** every stored packet is within the peer's maximum *)
Definition stored_fit c : Prop := forall e, e ∈ get_stored_packets pidb c -> store_packet_size e <= maximum_packet_size_send_ c.

Lemma for_each_keeps {S} (func : store_packet_variant -> S -> bool * S) (step : store_packet_variant -> S -> S) l t s :
  (forall e s, e ∈ l -> func e s = (true, step e s)) ->
  for_each_loop pidb func l t s = (t, fold_left (fun s e => step e s) l s).
Proof.
  revert s. induction l as [|e l IH]; intros s H; simpl; [done|]. rewrite H by by left.
  apply IH. intros x s' Hx. apply H. by right.
Qed.

Lemma emits_run (es : list event) c : for_each emit es c = Return tt c es.
Proof.
  induction es as [|e es IH]; [done|]. simpl. unfold mbind, prog_bind. simpl. by rewrite IH.
Qed.

Definition resend (e : store_packet_variant) : event := on_send (store_packet e) None.

Lemma send_stored_run c : stored_fit c -> send_stored pidb c = Return tt c (map resend (get_stored_packets pidb c)).
Proof.
  intros Hf. unfold send_stored, Store.for_each, mbind, prog_bind. cbv beta iota zeta delta [gets id].
  rewrite (for_each_keeps _ (fun e s => (fst s, snd s ++ [resend e]))).
  2: { intros e s He. rewrite (proj2 (Z.ltb_ge _ _)) by by apply Hf. done. }
  fold (get_stored pidb (store_ c)). fold (get_stored_packets pidb c). generalize (get_stored_packets pidb c) as l.
  assert (Hfold : forall l (m : M) es, fold_left (fun (s : M * list event) e => (fst s, snd s ++ [resend e])) l (m, es) = (m, es ++ map resend l)).
  { induction l as [|e l IH]; intros m es; simpl; [by rewrite app_nil_r|]. by rewrite IH, <- app_assoc. }
  intros l. rewrite Hfold. simpl. rewrite emits_run. by destruct c.
Qed.

(** what [send] adds to [process_send_packet] *)
Lemma send_run now pv c c' es :
  process_send_packet pidb Role now pv c = Return true c' es -> (is_connack pv = true -> stored_fit c') ->
  exists c'', send pidb Role now pv c =
      Return tt c'' (es ++ (if is_connack pv then map resend (get_stored_packets pidb c') else []) ++
                     (if bool_decide (status_ c' = connection_status.disconnected) then [] else pingreq_send_events c')) /\
    (c'' = c' \/ c'' = set_pingreq_send_set_ true c').
Proof.
  intros Hp Hf.
  assert (Ht : exists c'', (when (can_send_as_client Role)
      (c ← gets id;
       match is_client_ c, pingreq_send_interval_ms_ c with
       | true, Some ms =>
         if bool_decide (status_ c = connection_status.disconnected) then mret tt else reset_pingreq_send pidb ms
       | _, _ => mret tt
       end)) c' = Return tt c'' (if bool_decide (status_ c' = connection_status.disconnected) then [] else pingreq_send_events c') /\
    (c'' = c' \/ c'' = set_pingreq_send_set_ true c')).
  { unfold pingreq_send_events, when, mbind, prog_bind. destruct (can_send_as_client Role); simpl; [|case_bool_decide; eauto].
    destruct (is_client_ c'), (pingreq_send_interval_ms_ c'); case_bool_decide; simpl; eauto. }
  destruct Ht as (c'' & Ht & Hc). exists c''. split; [|exact Hc]. unfold ConnectionSend.send.
  eapply x_call_bind; [exact Hp|]. cbn [when]. destruct (is_connack pv); cbn [when].
  - eapply x_call_bind; [by apply send_stored_run, Hf | exact Ht].
  - by apply x_ret_bind.
Qed.

Lemma send_sent now pv c c' es :
  is_connack pv = false -> status_ c' = connection_status.connected ->
  process_send_packet pidb Role now pv c = Return true c' es ->
  exists c'', send pidb Role now pv c = Return tt c'' (es ++ pingreq_send_events c') /\
    (c'' = c' \/ c'' = set_pingreq_send_set_ true c').
Proof. intros Hk Hs Hp. apply send_run in Hp; [|congruence]. by rewrite Hk, Hs in Hp. Qed.

Lemma send_refused now pv c c' es :
  process_send_packet pidb Role now pv c = Return false c' es -> send pidb Role now pv c = Return tt c' es.
Proof. intros Hp. unfold send, mbind, prog_bind. rewrite Hp. simpl. by rewrite app_nil_r. Qed.

(** a v3.1.1 PUBLISH with QoS 1 or 2 on a connection: with an
    identifier that is not in use it is refused and nothing changes;
    otherwise it is sent, a copy with the DUP flag is stored when the
    session is kept (and else the identifier is to be released if the
    transmission fails), the identifier waits for PUBACK or PUBREC, and
    nothing else changes but the keep alive timer. *)
Theorem send_v3_publish_qos12 now c p :
  let pv := v3_1_1_publish p in
  let pid := packet_id pidb pv in
  let q := pub.get_qos (v3_publish.fixed_header_ p) in
  status_ c = connection_status.connected -> protocol_version_ c = protocol_version.v3_1_1 ->
  packet_size pv <= maximum_packet_size_send_ c -> is_qos12 q = true ->
  if is_used_id pid (pid_man_ c) then
    exists c',
      send pidb Role now pv c =
        Return tt c' (on_send pv (if need_store_ c then None else Some pid) :: pingreq_send_events c) /\
      store_ c' = (if need_store_ c then fst (add pidb (v3_1_1_publish (V3.set_dup true p)) (store_ c)) else store_ c) /\
      pid_puback_ c' = (if q =? qos.exactly_once then pid_puback_ c else {[pid]} ∪ pid_puback_ c) /\
      pid_pubrec_ c' = (if q =? qos.exactly_once then {[pid]} ∪ pid_pubrec_ c else pid_pubrec_ c) /\
      pid_man_ c' = pid_man_ c /\ status_ c' = connection_status.connected
  else send pidb Role now pv c = Return tt c [on_error (mqtt_ec mqtt_error.packet_identifier_invalid)].
Proof.
  cbv zeta. intros Hs Hv Hsize Hq. pose proof (send_v3_publish_run now c p Hs Hv Hsize) as Hrun.
  destruct (is_used_id (packet_id pidb (v3_1_1_publish p)) (pid_man_ c)) eqn:Hu.
  - destruct (need_store_ c) eqn:Hn, (pub.get_qos (v3_publish.fixed_header_ p) =? qos.exactly_once) eqn:He.
    all: edestruct (send_sent now (v3_1_1_publish p) c) as (c' & Heq & Hc);
      [done | | rewrite Hrun; unfold send_publish_v3, store_publish, store_add, send_packet; cbv zeta; repeat x_step|].
    all: try exact Hs.
    all: exists c'; split; [exact Heq|]; destruct Hc as [->| ->]; split_and!; done.
  - apply send_refused. rewrite Hrun. unfold send_publish_v3, store_publish. repeat x_step.
Qed.

(** C32: a v5 PUBLISH of QoS 1 or 2 under these conditions: the connection is
    connected with v5 and keeps a session; the packet has a topic, no topic
    alias, the permitted size and an identifier other than 0 that is in use;
    and the automatic mapping and replacing of topic aliases is off.  A copy
    with the DUP flag is stored and the identifier waits for the response.
    Then, as long as the peer's receive maximum is not reached, it is counted
    and sent; when it is reached the user gets the error and the release of
    the identifier, but the stored copy and the waiting identifier remain:
    the packet that was refused is sent when the session is resumed, under
    an identifier that is free. *)
Theorem send_v5_publish_qos12 now c p sp :
  let pv := v5_publish p in
  let pid := packet_id pidb pv in
  let q := pub.get_qos (v5_publish.fixed_header_ p) in
  status_ c = connection_status.connected -> protocol_version_ c = protocol_version.v5 ->
  packet_size pv <= maximum_packet_size_send_ c -> is_qos12 q = true -> is_used_id pid (pid_man_ c) = true ->
  need_store_ c = true -> v5_publish.topic_name_ p <> [] -> get_topic_alias (v5_publish.props_ p) = None ->
  auto_map_topic_alias_send_ c = false -> auto_replace_topic_alias_send_ c = false -> (pid =? 0) = false ->
  V5.make_publish pidb pid (v5_publish.topic_name_ p) (v5_publish.payloads_ p) (V5.opts p) (erase_topic_alias (v5_publish.props_ p)) = Ok sp ->
  let full := match publish_send_max_ c with Some n => publish_send_count_ c =? n | None => false end in
  exists c',
    send pidb Role now pv c =
      Return tt c' (if full then [on_error (disconnect_ec disconnect_reason_code.receive_maximum_exceeded); on_packet_id_release pid]
                    else on_send pv None :: pingreq_send_events c) /\
    store_ c' = fst (add pidb (v5_publish (V5.set_dup true sp)) (store_ c)) /\
    pid_puback_ c' = (if q =? qos.exactly_once then pid_puback_ c else {[pid]} ∪ pid_puback_ c) /\
    pid_pubrec_ c' = (if q =? qos.exactly_once then {[pid]} ∪ pid_pubrec_ c else pid_pubrec_ c) /\
    pid_man_ c' = (if full then release_id pid (pid_man_ c) else pid_man_ c) /\
    publish_send_count_ c' = (if full || bool_decide (publish_send_max_ c = None) then publish_send_count_ c
                              else (publish_send_count_ c + 1) mod 2 ^ 16).
Proof.
  cbv zeta. intros Hs Hv Hsize Hq Hu Hn Ht Ha Hm Hr Hz Hsp. pose proof (send_v5_publish_run now c p Hs Hv Hsize) as Hrun.
  destruct (v5_publish.topic_name_ p) as [|b topic] eqn:Htopic; [done|].
  destruct (publish_send_max_ c) as [n|] eqn:Hmax; [destruct (publish_send_count_ c =? n) eqn:Hfull|];
    destruct (pub.get_qos (v5_publish.fixed_header_ p) =? qos.exactly_once) eqn:He.
  all: unfold send_publish_v5, store_publish, store_v5_publish, store_add, apply_topic_alias, auto_topic_alias, count_publish,
    release_if_nonzero, release_id_and_notify, send_packet in Hrun; cbv zeta in Hrun.
  all: assert (Hz' : (V5.packet_id pidb p =? 0) = false) by exact Hz.
  1,2: eexists; split; [apply send_refused; rewrite Hrun; repeat x_step | by split_and!].
  all: edestruct (send_sent now (v5_publish p) c) as (c' & Heq & Hc); [done | | rewrite Hrun; repeat x_step |]; [exact Hs |].
  all: exists c'; split; [exact Heq|]; destruct Hc as [->| ->]; split_and!; done.
Qed.

(** ** The send quota *)

Ltac count_leaf := idtac; (reflexivity || (unfold fixes; simpl in *; congruence)).
Ltac counting := seg_go count_leaf; try count_leaf.

Lemma count_emits c es : runs (fixes publish_send_count_) c (for_each emit es).
Proof. apply runs_for_each; [exact _|]. intros e c' _. counting. Qed.
#[local] Hint Resolve count_emits : runs.

Lemma count_send_stored c : runs (fixes publish_send_count_) c (send_stored pidb).
Proof. unfold send_stored. counting. Qed.

Lemma count_received_properties c b l :
  runs (fixes publish_send_count_) c (for_each (received_property pidb Role b (set_pingreq_send_interval pidb)) l).
Proof.
  apply runs_for_each; [exact _|]. intros p c' _. unfold received_property, set_pingreq_send_interval. counting.
Qed.
#[local] Hint Resolve count_send_stored count_received_properties : runs.

Lemma count_recv_v5_connack c p : runs (fixes publish_send_count_) c (recv_v5_connack pidb Role p).
Proof. unfold recv_v5_connack, resume_session, clear_session, clear_pids. counting. Qed.

Lemma vacancy_wraps n : 0 <= n < 65535 -> size_t (n - (0 - 1) mod 2 ^ 16) = 2 ^ 64 - 65535 + n.
Proof.
  intros Hn. change ((0 - 1) mod 2 ^ 16) with 65535. unfold size_t.
  rewrite <- (Z.mod_add _ 1) by lia. rewrite Z.mod_small; lia.
Qed.

(** the packets sent when a CONNACK resumes the session are not
    counted, but their acknowledgements are: a client that had counted none
    and gets the PUBACK of one of them has counted 65535, and reports a
    vacancy beyond any receive maximum (but for the maximum 65535, for
    which it reports none). *)
Theorem resumed_publish_not_counted now c connack c1 es1 puback n :
  publish_send_count_ c = 0 -> recv_v5_connack pidb Role connack c = Return tt c1 es1 ->
  packet_id pidb (v5_puback puback) ∈ pid_puback_ c1 -> status_ c1 = connection_status.connected ->
  publish_send_max_ c1 = Some n -> 0 <= n <= 65535 ->
  exists c2 es2, process_packet pidb Role now (v5_puback puback) c1 = Return tt c2 es2 /\
    publish_send_count_ c2 = 65535 /\
    get_receive_maximum_vacancy_for_send pidb c2 = Some (if n =? 65535 then 0 else 2 ^ 64 - 65535 + n).
Proof.
  intros Hz Hr Hin Hs Hn Hrange. apply (runs_Return _ _ _ _ _ _ (count_recv_v5_connack c connack)) in Hr.
  unfold fixes in Hr. rewrite Hz in Hr. pose proof (bool_decide_eq_true_2 _ Hin) as Hb.
  destruct (pingreq_recv_timeout_ms_ c1) as [ms|] eqn:Hms; eexists _, _; split.
  1,3: unfold process_packet, recv_puback, erase_pid, store_erase, uncount, release_id_and_notify, accept, pingreq_recv_op,
    reset_pingreq_recv; cbv zeta; repeat x_step.
  all: unfold get_receive_maximum_vacancy_for_send; simpl; rewrite Hr, Hn; split; [done|].
  all: f_equal; destruct (Z.eqb_spec n 65535) as [->|]; [done|].
  all: apply vacancy_wraps; lia.
Qed.

(** ** CONNACK *)

(** A v3.1.1 CONNACK while connecting, all stored packets within the
    peer's maximum: it is sent, it makes the connection connected or
    disconnected, and then all the stored packets are sent in the order
    they were stored, also after a CONNACK that refuses the connection. *)
Theorem send_v3_connack now c p :
  let pv := v3_1_1_connack p in
  let accepted := v3_connack_code p =? connect_return_code.accepted in
  status_ c = connection_status.connecting -> protocol_version_ c = protocol_version.v3_1_1 ->
  can_send_as_server Role = true -> packet_size pv <= maximum_packet_size_send_ c -> stored_fit c ->
  exists c',
    send pidb Role now pv c =
      Return tt c' ((if accepted then [] else cancel_events c) ++ [on_send pv None] ++
        map resend (get_stored_packets pidb c) ++ (if accepted then pingreq_send_events c else [])) /\
    status_ c' = (if accepted then connection_status.connected else connection_status.disconnected) /\
    store_ c' = store_ c /\ pid_man_ c' = pid_man_ c.
Proof.
  intros pv accepted Hs Hv Hrole Hsize%Z.leb_le Hf.
  assert (Hr : role_check Role pv = true) by (unfold role_check; rewrite Hrole; apply orb_true_r).
  assert (Hst : status_check pidb c pv = true) by (unfold status_check; simpl; by rewrite Hs).
  assert (Hvc : version_check pidb c pv = true) by (unfold version_check; by rewrite Hv).
  assert (Hp : exists c', process_send_packet pidb Role now pv c =
      Return true c' ((if accepted then [] else cancel_events c) ++ [on_send pv None]) /\
    status_ c' = (if accepted then connection_status.connected else connection_status.disconnected) /\
    store_ c' = store_ c /\ pid_man_ c' = pid_man_ c /\ stored_fit c' /\ pingreq_send_events c' = pingreq_send_events c).
  { destruct accepted eqn:Ha; eexists; split.
    1,3: unfold process_send_packet, validate_maximum_packet_size; repeat x_step; cbn [pv start_or_accept]; fold accepted; rewrite Ha;
      unfold send_connack; repeat x_step.
    - cbn [for_each pv reject_offline_alias update_packet_ids send_packet]. repeat x_step.
    - change (cancel_events c) with (cancel_events (set_status_ connection_status.disconnected c)).
      eapply x_call_bind; [apply cancel_timers_run|].
      cbn [pv reject_offline_alias update_packet_ids send_packet]. repeat x_step.
    - by split_and!.
    - by split_and!. }
  destruct Hp as (c' & Hp & Hs' & Hst' & Hm' & Hf' & He').
  apply send_run in Hp as (c'' & Heq & Hc); [|done]. exists c''.
  assert (Hstored : get_stored_packets pidb c' = get_stored_packets pidb c) by (unfold get_stored_packets; by rewrite Hst').
  split; [|destruct Hc as [->| ->]; by split_and!]. rewrite Heq. cbn [pv is_connack]. rewrite Hstored, He', Hs', <- app_assoc.
  by destruct accepted.
Qed.

(** a CONNACK that refuses the connection *)
Definition refuses (pv : packet_variant) : bool :=
  match pv with
  | v3_1_1_connack p => negb (v3_connack_code p =? connect_return_code.accepted)
  | v5_connack p => negb (v5_connack.reason_code_ p =? connect_reason_code.success)
  | _ => false
  end.

Lemma send_refusal now c pv :
  refuses pv = true -> status_ c = connection_status.connecting -> version_check pidb c pv = true ->
  can_send_as_server Role = true -> packet_size pv <= maximum_packet_size_send_ c -> stored_fit c ->
  exists c',
    send pidb Role now pv c = Return tt c' (cancel_events c ++ [on_send pv None] ++ map resend (get_stored_packets pidb c)) /\
    status_ c' = connection_status.disconnected /\ store_ c' = store_ c /\ pid_man_ c' = pid_man_ c.
Proof.
  intros Href Hs Hvc Hrole Hsize%Z.leb_le Hf.
  assert (Hr : role_check Role pv = true) by (unfold role_check; rewrite Hrole; destruct pv; try done; apply orb_true_r).
  assert (Hst : status_check pidb c pv = true) by (unfold status_check; destruct pv; try done; simpl; by rewrite Hs).
  assert (Hk : is_connack pv = true) by (by destruct pv).
  assert (Hp : exists c', process_send_packet pidb Role now pv c = Return true c' (cancel_events c ++ [on_send pv None]) /\
    status_ c' = connection_status.disconnected /\ store_ c' = store_ c /\ pid_man_ c' = pid_man_ c /\ stored_fit c').
  { eexists. split.
    - unfold process_send_packet, validate_maximum_packet_size. repeat x_step.
      assert (Hstart : start_or_accept pidb pv = send_connack pidb false
        match pv with v5_connack p => v5_connack.props_ p | _ => [] end).
      { destruct pv; try done; simpl in *; apply negb_true_iff in Href; by rewrite Href. }
      rewrite Hstart. unfold send_connack. repeat x_step.
      change (cancel_events c) with (cancel_events (set_status_ connection_status.disconnected c)).
      eapply x_call_bind; [apply cancel_timers_run|].
      destruct pv; try done; cbn [reject_offline_alias update_packet_ids send_packet]; repeat x_step.
    - by split_and!. }
  destruct Hp as (c' & Hp & Hs' & Hst' & Hm' & Hf').
  apply send_run in Hp as (c'' & Heq & Hc); [|done]. exists c''.
  assert (Hstored : get_stored_packets pidb c' = get_stored_packets pidb c) by (unfold get_stored_packets; by rewrite Hst').
  split; [|destruct Hc as [->| ->]; by split_and!]. rewrite Heq, Hk, Hstored, Hs', <- app_assoc. simpl. by rewrite app_nil_r.
Qed.

(** ** Packets that do not parse *)
Section malformed.

(** the packet [stream] completes is [buf], small enough, and the parser
    refuses it *)
Definition completes_malformed c (stream buf : list byte) (ec : error_code) : Prop :=
  PacketBuilder.read_packet_ (fst (PacketBuilder.recv stream (rpb_ c))) = Some (ep_packet buf) /\
  Z.of_nat (length buf) <= maximum_packet_size_recv_ c /\
  buffer_to_packet_variant pidb buf (protocol_version_ c) = Err ec.

(** the state when the parser is called *)
Definition taken c (stream : list byte) : connection M pidb :=
  set_rpb_ (PacketBuilder.clear (fst (PacketBuilder.recv stream (rpb_ c)))) c.

Lemma recv_malformed_run now c stream buf ec :
  completes_malformed c stream buf ec ->
  forall c' es, recv_parse_error pidb Role now ec (taken c stream) = Return tt c' es ->
  recv pidb Role now stream c = Return (snd (PacketBuilder.recv stream (rpb_ c))) c' es.
Proof.
  intros (Hread & Hlen%Z.ltb_ge & Hparse) c' es Hr. unfold recv. x_step. cbv zeta. x_step.
  rewrite <- (app_nil_r es). eapply x_call_bind; [|reflexivity].
  unfold process_recv_packet. x_step. cbn [rpb_ set_rpb_]. rewrite Hread. do 2 x_step.
  cbn [maximum_packet_size_recv_ protocol_version_ set_rpb_]. rewrite Hlen, Hparse. exact Hr.
Qed.

(** the error of a CONNECT, before a connection is made *)
Definition malformed_connect c (ec : error_code) : bool :=
  bool_decide (status_ c = connection_status.disconnected) && bool_decide (category ec = connect_reason_code_category).

(** the CONNACK that answers a malformed CONNECT *)
Definition connack_for c (ec : error_code) : packet_variant :=
  if bool_decide (protocol_version_ c = protocol_version.v5)
  then v5_connack (Connack.make_v5_connack_code false (value ec))
  else v3_1_1_connack (Fixed.make_v3_connack false (value ec)).

Lemma connack_for_refuses c ec : 0 < value ec < 256 -> refuses (connack_for c ec) = true.
Proof.
  intros Hv. unfold connack_for. case_bool_decide; simpl; apply negb_true_iff, Z.eqb_neq.
  - unfold connect_reason_code.success. lia.
  - unfold v3_connack_code, Fixed.make_v3_connack, connect_return_code.accepted. simpl. rewrite u8_to_byte_small; lia.
Qed.

Lemma answer_connect now c ec c' es :
  malformed_connect c ec = true -> send pidb Role now (connack_for c ec) (set_status_ connection_status.connecting c) = Return tt c' es ->
  recv_parse_error pidb Role now ec c = Return tt c' (es ++ [on_error (make_error_code connect_reason_code_category (value ec))]).
Proof.
  intros Hm Hs. unfold recv_parse_error. x_step. unfold malformed_connect in Hm. rewrite Hm. x_step.
  eapply x_call_bind; [|reflexivity]. 
  rewrite <- Hs. clear Hm. unfold connack_for. by case_bool_decide.
Qed.

End malformed.
End behaviour.
