(* ===== verification/ConnectionSession.v ===== *)
(** * The connection: the end of a connection and the stored session

    [notify_closed] ends a connection; what it keeps is the session.
    [get_stored_packets] and [restore_packets] carry a session over to another
    connection. *)
From stdpp Require Import sorting.
From S2P Require Import PacketBuilder.
From S2P Require Import Prelude Boost Wire Error Property Packet PublishPacket ControlPacket PacketIdManager.
From S2P Require Import TopicAlias Store ConnectionState ConnectionSend ConnectionRecv ConnectionLogic.
From S2P Require Import ConnectionInvariant ConnectionStatus ConnectionBehaviour.

Section session.
Context {M : Type} {PM : PacketIdManager M} {BE : BoostEndian} {BEO : BoostEndianOk}
        {BMI : BoostMultiIndex} {BMO : BoostMultiIndexOk}.
Context {pidb : nat} {max : Z} {PMO : PacketIdManagerOk M max}.
Implicit Types (c : connection M pidb) (m : M).

(** ** Releasing a set of packet identifiers *)

(** one identifier, as [release_packet_id] does *)
Definition release_used (pid : Z) m : M * list event :=
  if is_used_id pid m then (release_id pid m, [on_packet_id_release pid]) else (m, []).

Fixpoint release_used_all (l : list Z) m : M * list event :=
  match l with
  | [] => (m, [])
  | pid :: l =>
    let (m1, es1) := release_used pid m in
    let (m2, es2) := release_used_all l m1 in
    (m2, es1 ++ es2)
  end.

Definition sorted_ids (s : gset Z) : list Z := merge_sort Z.le (elements s).

Lemma sorted_ids_spec s : NoDup (sorted_ids s) /\ forall pid, pid ∈ sorted_ids s <-> pid ∈ s.
Proof.
  unfold sorted_ids. pose proof (merge_sort_Permutation Z.le (elements s)) as Hp. split.
  - rewrite Hp. apply NoDup_elements.
  - intros pid. rewrite Hp. apply elem_of_elements.
Qed.

Lemma release_list_run l c :
  for_each (release_packet_id pidb) l c =
  Return tt (set_pid_man_ (fst (release_used_all l (pid_man_ c))) c) (snd (release_used_all l (pid_man_ c))).
Proof.
  revert c. induction l as [|pid l IH]; intros c; simpl; [by destruct c|].
  unfold mbind, prog_bind. unfold release_packet_id, release_used, mbind, prog_bind. simpl.
  destruct (is_used_id pid (pid_man_ c)); simpl; rewrite IH; simpl; by destruct (release_used_all l _).
Qed.

Lemma release_all_run s c :
  release_all pidb s c =
  Return tt (set_pid_man_ (fst (release_used_all (sorted_ids s) (pid_man_ c))) c)
         (snd (release_used_all (sorted_ids s) (pid_man_ c))).
Proof. apply release_list_run. Qed.

(** how often the release of an identifier is reported *)
Definition releases (pid : Z) (e : event) : nat :=
  match e with on_packet_id_release q => if q =? pid then 1 else 0 | _ => 0 end.
Definition release_count (pid : Z) (es : list event) : nat := sum_list_with (releases pid) es.

Lemma release_count_app pid es1 es2 : release_count pid (es1 ++ es2) = (release_count pid es1 + release_count pid es2)%nat.
Proof. apply sum_list_with_app. Qed.

(** [m'] and [es] are what releasing the identifiers [P] of [m] that are in
    use leaves *)
Definition released (P : Z -> bool) m m' (es : list event) : Prop :=
  pm_ok m' /\ forall pid, is_used_id pid m' = is_used_id pid m && negb (P pid) /\
                  release_count pid es = if is_used_id pid m && P pid then 1%nat else 0%nat.

Lemma released_trans P Q m1 m2 m3 es1 es2 :
  released P m1 m2 es1 -> released Q m2 m3 es2 -> released (fun pid => P pid || Q pid) m1 m3 (es1 ++ es2).
Proof.
  intros [_ H1] [Hok H2]. split; [done|]. intros pid. destruct (H1 pid) as [Hu1 Hc1], (H2 pid) as [Hu2 Hc2].
  rewrite release_count_app, Hc1, Hc2, Hu2, Hu1. by destruct (is_used_id pid m1), (P pid), (Q pid).
Qed.

Lemma released_none m : pm_ok m -> released (fun _ => false) m m [].
Proof. intros Hm. split; [done|]. intros pid. by rewrite andb_true_r, andb_false_r. Qed.

Lemma released_one pid m :
  id_ok (max := max) pid -> pm_ok m -> released (Z.eqb pid) m (fst (release_used pid m)) (snd (release_used pid m)).
Proof.
  intros Hp Hm. unfold release_used. destruct (is_used_id pid m) eqn:Hu; simpl.
  - destruct (release_id_spec m pid Hm Hp) as [Hok Hr]. split; [done|]. intros q. rewrite Hr, (Z.eqb_sym q).
    unfold release_count. simpl. destruct (Z.eqb_spec pid q) as [->|]; simpl; [by rewrite Hu|].
    by rewrite andb_false_r, andb_true_r.
  - split; [done|]. intros q. destruct (Z.eqb_spec pid q) as [->|]; simpl; [by rewrite Hu|].
    by rewrite andb_false_r, andb_true_r.
Qed.

Lemma released_ext P Q m m' es : (forall pid, P pid = Q pid) -> released P m m' es -> released Q m m' es.
Proof. intros H [Hok Hr]. split; [done|]. intros pid. rewrite <- H. apply Hr. Qed.

Lemma released_list l m :
  (forall pid, pid ∈ l -> id_ok (max := max) pid) -> pm_ok m ->
  released (fun pid => bool_decide (pid ∈ l)) m (fst (release_used_all l m)) (snd (release_used_all l m)).
Proof.
  revert m. induction l as [|p l IH]; intros m Hl Hm; simpl.
  - by apply (released_ext (fun _ => false)), released_none.
  - assert (H1 := released_one p m (Hl p ltac:(by left)) Hm).
    destruct (release_used p m) as [m1 es1]. simpl in H1.
    assert (H2 := IH m1 (fun q Hq => Hl q (list_elem_of_further _ _ _ Hq)) (proj1 H1)).
    destruct (release_used_all l m1) as [m2 es2]. simpl in *.
    eapply released_ext; [|exact (released_trans _ _ _ _ _ _ _ H1 H2)]. intros q. simpl.
    destruct (Z.eqb_spec p q) as [->|Hne]; simpl; [by rewrite bool_decide_eq_true_2 by (by left)|].
    apply bool_decide_ext. rewrite elem_of_cons. split; [by right | intros [->|]; done].
Qed.

Lemma released_set s m :
  ids_ok (max := max) s -> pm_ok m ->
  released (fun pid => bool_decide (pid ∈ s)) m (fst (release_used_all (sorted_ids s) m)) (snd (release_used_all (sorted_ids s) m)).
Proof.
  intros Hs Hm. destruct (sorted_ids_spec s) as [_ He].
  eapply released_ext; [|apply released_list; [|done]].
  - intros pid. apply bool_decide_ext, He.
  - intros pid Hpid. by apply Hs, He.
Qed.

(** ** [notify_closed] *)

Lemma release_count_timers pid c : release_count pid (cancel_events c) = 0%nat.
Proof. unfold cancel_events. by destruct (pingreq_send_set_ c), (pingreq_recv_set_ c), (pingresp_recv_set_ c). Qed.

Lemma released_timers P m m' es c : released P m m' es -> released P m m' (es ++ cancel_events c).
Proof.
  intros [Hok Hr]. split; [done|]. intros pid. rewrite release_count_app, release_count_timers, Nat.add_0_r. apply Hr.
Qed.

(** the identifiers of a set, then the rest *)
Lemma released_set_then s Q m m3 es :
  ids_ok (max := max) s -> pm_ok m ->
  (pm_ok (fst (release_used_all (sorted_ids s) m)) -> released Q (fst (release_used_all (sorted_ids s) m)) m3 es) ->
  released (fun pid => bool_decide (pid ∈ s) || Q pid) m m3 (snd (release_used_all (sorted_ids s) m) ++ es).
Proof. intros Hs Hm Hq. assert (Hr := released_set s m Hs Hm). eapply released_trans; [exact Hr | apply Hq, Hr]. Qed.

Ltac closed_run :=
  unfold notify_closed; repeat first [x_step | eapply x_call_bind; [apply release_all_run|]]; apply cancel_timers_run.

(** the requests that end with the connection, and without a session to keep
    also the exchanges of PUBLISH packets *)
Definition abandoned c (pid : Z) : bool :=
  bool_decide (pid ∈ pid_suback_ c) || (bool_decide (pid ∈ pid_unsuback_ c) ||
  (if need_store_ c then false
   else bool_decide (pid ∈ pid_puback_ c) || (bool_decide (pid ∈ pid_pubrec_ c) || bool_decide (pid ∈ pid_pubcomp_ c)))).

(** C35: the end of the connection, from a state the connection reaches:
    each packet identifier in use that waits for a response which cannot
    come any more is released, and reported, exactly once, and no other
    identifier is; nothing waits for SUBACK and UNSUBACK any more, and for
    the responses to PUBLISH and PUBREL only when there is a session to
    keep; the stored packets stay, the topic aliases, the maximum packet
    sizes and the timers of the connection are gone. *)
Theorem notify_closed_releases c :
  connection_ok (max := max) c ->
  exists c' es, notify_closed pidb c = Return tt c' es /\
    released (abandoned c) (pid_man_ c) (pid_man_ c') es /\
    status_ c' = connection_status.disconnected /\ store_ c' = store_ c /\ need_store_ c' = need_store_ c /\
    pid_suback_ c' = ∅ /\ pid_unsuback_ c' = ∅ /\
    (pid_puback_ c', pid_pubrec_ c', pid_pubcomp_ c', qos2_publish_handled_ c', qos2_publish_processing_ c') =
      (if need_store_ c then (pid_puback_ c, pid_pubrec_ c, pid_pubcomp_ c, qos2_publish_handled_ c, qos2_publish_processing_ c)
       else (∅, ∅, ∅, ∅, ∅)) /\
    topic_alias_send_ c' = None /\ topic_alias_recv_ c' = None /\
    maximum_packet_size_send_ c' = packet_size_no_limit /\ maximum_packet_size_recv_ c' = packet_size_no_limit /\
    (pingreq_send_set_ c', pingreq_recv_set_ c', pingresp_recv_set_ c') = (false, false, false).
Proof.
  intros Hok. destruct (need_store_ c) eqn:Hn; eexists _, _; split.
  1,3: closed_run.
  all: pose proof (ok_pid_man _ Hok); simpl; split_and!; try done.
  all: eapply released_ext; [|repeat (apply released_set_then; [apply Hok | done | intros]); by apply (released_timers _ _ _ []), released_none].
  all: intros pid; unfold abandoned; by rewrite Hn, ?orb_false_r.
Qed.

(** ** Carrying a session over *)

(** the kind of response a stored packet waits for *)
Inductive awaited := await_puback | await_pubrec | await_pubcomp.

Definition awaits (e : store_packet_variant) : awaited :=
  match res_ e with
  | res_v3_1_1_puback | res_v5_puback => await_puback
  | res_v3_1_1_pubrec | res_v5_pubrec => await_pubrec
  | res_v3_1_1_pubcomp | res_v5_pubcomp => await_pubcomp
  end.

Definition awaiting (k : awaited) c : gset Z :=
  match k with await_puback => pid_puback_ c | await_pubrec => pid_pubrec_ c | await_pubcomp => pid_pubcomp_ c end.

(** a stored packet as the constructors make it *)
Definition well_stored (e : store_packet_variant) : Prop := make_store_packet (store_packet e) = Some e.

#[local] Instance awaited_eq_dec : EqDecision awaited.
Proof. solve_decision. Defined.

(** the stored packets have their identifiers *)
Definition stored_used c : Prop :=
  store_ok pidb (store_ c) /\ forall e, e ∈ get_stored_packets pidb c -> is_used_id (store_packet_id pidb e) (pid_man_ c) = true.

Lemma add_stored e (t : store pidb) :
  well_stored e -> store_ok pidb t -> (forall x, x ∈ elems pidb t -> store_packet_id pidb x <> store_packet_id pidb e) ->
  store_ok pidb (fst (add pidb (store_packet e) t)) /\ elems pidb (fst (add pidb (store_packet e) t)) = elems pidb t ++ [e].
Proof.
  intros He Ht Hn. destruct (add_refines pidb (store_packet e) t Ht) as [Hok Ha]. split; [done|].
  unfold spec_add in Ha. rewrite He in Ha. replace (key_free _ _ _ _) with true in Ha; [by injection Ha|].
  symmetry. apply key_free_iff. intros (x & Hx & Hin)%list_elem_of_fmap. apply (Hn x Hin). unfold store_key in Hx. congruence.
Qed.

(** a packet with a free identifier *)
Lemma restore_packet_run e c :
  well_stored e -> pm_ok (pid_man_ c) -> stored_used c -> is_used_id (store_packet_id pidb e) (pid_man_ c) = false ->
  exists c', restore_packet pidb e c = Return tt c' [] /\
    get_stored_packets pidb c' = get_stored_packets pidb c ++ [e] /\ pm_ok (pid_man_ c') /\ stored_used c' /\
    (forall pid, is_used_id pid (pid_man_ c') = (pid =? store_packet_id pidb e) || is_used_id pid (pid_man_ c)) /\
    (forall k, awaiting k c' = if decide (awaits e = k) then {[store_packet_id pidb e]} ∪ awaiting k c else awaiting k c).
Proof.
  intros He Hm [Hst Hus] Hfree. destruct (register_id_spec (pid_man_ c) (store_packet_id pidb e) Hm) as (Hb & Hok & Hr).
  rewrite Hfree in Hb. simpl in Hb.
  destruct (add_stored e (store_ c) He Hst) as [Hst' Hel].
  { intros x Hx Heq. rewrite <- Heq, (Hus x Hx) in Hfree. done. }
  assert (Hrun : exists c1, restore_packet pidb e c = Return tt c1 [] /\
    store_ c1 = fst (add pidb (store_packet e) (store_ c)) /\ pid_man_ c1 = snd (register_id (store_packet_id pidb e) (pid_man_ c)) /\
    (forall k, awaiting k c1 = if decide (awaits e = k) then {[store_packet_id pidb e]} ∪ awaiting k c else awaiting k c)).
  { unfold restore_packet, register_packet_id, store_add. cbv zeta. unfold well_stored in He.
    generalize dependent (store_packet_id pidb e). intros pid Hfree Hb Hok Hr.
    destruct e as [r v]. destruct v as [p|p|p|p]; cbn [store_packet var_ stored_packet make_store_packet] in He |- *.
    1: destruct (pub.get_qos (v3_publish.fixed_header_ p) =? qos.at_least_once) eqn:H1;
       [|destruct (pub.get_qos (v3_publish.fixed_header_ p) =? qos.exactly_once) eqn:H2; [|done]].
    4: destruct (pub.get_qos (v5_publish.fixed_header_ p) =? qos.at_least_once) eqn:H1;
       [|destruct (pub.get_qos (v5_publish.fixed_header_ p) =? qos.exactly_once) eqn:H2; [|done]].
    all: injection He as <-; eexists; split; [repeat x_step|].
    all: split_and!; [done | done | by intros []]. }
  destruct Hrun as (c1 & Heq & Hs1 & Hm1 & Hk1). exists c1. unfold stored_used, get_stored_packets, get_stored in *.
  rewrite Hs1, Hm1. split_and!; try done. intros x Hx. rewrite Hel in Hx. rewrite Hr.
  apply elem_of_app in Hx as [Hx| ->%list_elem_of_singleton]; [by rewrite (Hus x Hx), orb_true_r | by rewrite Z.eqb_refl].
Qed.

End session.
