(* ===== verification/ConnectionLimit.v ===== *)
(** * The connection: the size limit and the protocol version

    A limit on the size of received packets comes from a property of a v5
    CONNECT or CONNACK the connection sent, so a connection with a limit is a
    v5 connection: what [process_recv_packet] asserts. *)
From stdpp Require Import sorting.
From S2P Require Import PacketBuilder.
From S2P Require Import Prelude Boost Error Property Packet PublishPacket PacketIdManager TopicAlias Store ConnectionState.
From S2P Require Import BufferToPacket ReadBounds ConnectionSend ConnectionRecv ConnectionLogic ConnectionInvariant.

Section limit.
Context {M : Type} {PM : PacketIdManager M} {BE : BoostEndian} {BEO : BoostEndianOk} {BMI : BoostMultiIndex}.
Context {pidb : nat}.
Variable Role : role.t.
Implicit Types c : connection M pidb.

Definition limit_v5 c : Prop :=
  maximum_packet_size_recv_ c = packet_size_no_limit \/ protocol_version_ c = protocol_version.v5.

Abbreviation L := (keeps limit_v5).
Ltac limit_leaf := idtac; (reflexivity || (unfold keeps, limit_v5 in *; simpl in *; tauto)).
Ltac limiting := seg_go limit_leaf; try limit_leaf.

#[local] Hint Unfold release_id_and_notify release_if_nonzero initialize cancel_timers cancel_pingreq_send
  cancel_pingreq_recv cancel_pingresp_recv reset_pingreq_send reset_pingreq_recv reset_pingresp_recv
  validate_topic_alias_range validate_topic_alias validate_maximum_packet_size clear_session clear_pids
  set_keep_alive refuse_publish store_add map_alias is_connected auto_response erase_pid store_erase uncount
  end_processing handle_qos2 pingreq_recv_op accept set_recv_timeout : inline.

Lemma limit_emits c es : runs L c (for_each emit es).
Proof. apply runs_for_each; [exact _|]. intros e c' _. limiting. Qed.
#[local] Hint Resolve limit_emits : runs.
Lemma limit_send_stored c : runs L c (send_stored pidb).
Proof. unfold send_stored. limiting. Qed.
Lemma limit_cancel_timers c : runs L c (cancel_timers pidb).
Proof. autounfold with inline. limiting. Qed.
Lemma limit_initialize c b : runs L c (initialize pidb b).
Proof. autounfold with inline. limiting. Qed.
Lemma limit_refuse_publish c pid : runs L c (refuse_publish pidb pid).
Proof. autounfold with inline. limiting. Qed.
Lemma limit_validate_alias c now ta_opt : runs L c (validate_topic_alias pidb now ta_opt).
Proof. autounfold with inline. limiting. Qed.
Lemma limit_set_keep_alive c k : runs L c (set_keep_alive pidb k).
Proof. autounfold with inline. limiting. Qed.
Lemma limit_clear_session c : runs L c (clear_session pidb).
Proof. autounfold with inline. limiting. Qed.
Lemma limit_clear_pids c : runs L c (clear_pids pidb).
Proof. autounfold with inline. limiting. Qed.
#[local] Hint Resolve limit_send_stored limit_cancel_timers limit_initialize limit_refuse_publish limit_validate_alias
  limit_set_keep_alive limit_clear_session limit_clear_pids : runs.

(** ** [send] *)

(** a run that leaves the version of a v5 connection alone *)
Lemma limit_of_version {A} c (m : prog M pidb A) :
  protocol_version_ c = protocol_version.v5 -> runs (fixes protocol_version_) c m -> runs L c m.
Proof. intros Hv. unfold runs, seg, ends, fixes, keeps, limit_v5. destruct (m c); intros; auto; right; congruence. Qed.

Ltac version_leaf := idtac; (reflexivity || (unfold fixes in *; simpl in *; congruence)).

Lemma version_start_or_accept c pv : runs (fixes protocol_version_) c (start_or_accept pidb pv).
Proof.
  assert (Hs : forall c b l, runs (fixes protocol_version_) c (for_each (sent_property pidb b) l)).
  { intros. apply runs_for_each; [exact _|]. intros p c' _. unfold sent_property. seg_go version_leaf; version_leaf. }
  unfold start_or_accept, send_connack. autounfold with inline. seg_go version_leaf; version_leaf.
Qed.

Lemma limit_start_or_accept c pv :
  version_check pidb c pv = true -> runs L c (start_or_accept pidb pv).
Proof.
  intros Hv. destruct (is_v5 pv) eqn:H5.
  - apply limit_of_version; [|apply version_start_or_accept]. unfold version_check in Hv.
    destruct (protocol_version_ c); [done| |done]. by destruct pv.
  - destruct pv; try done; unfold start_or_accept, send_connack; cbn [for_each]; limiting.
Qed.
#[local] Hint Resolve limit_start_or_accept : runs.

Lemma limit_auto_topic_alias c now p : runs L c (auto_topic_alias pidb now p).
Proof. unfold auto_topic_alias, map_alias. limiting. Qed.
Lemma limit_store_v5_publish c now pid p : runs L c (store_v5_publish pidb now pid p).
Proof. unfold store_v5_publish, validate_maximum_packet_size, store_add. limiting. Qed.
#[local] Hint Resolve limit_auto_topic_alias limit_store_v5_publish : runs.
Lemma limit_store_publish c now pv q : runs L c (store_publish pidb now pv q).
Proof. unfold store_publish, store_add. limiting. Qed.
Lemma limit_apply_topic_alias c now b p : runs L c (apply_topic_alias pidb now b p).
Proof. unfold apply_topic_alias, validate_topic_alias_range, map_alias. limiting. Qed.
Lemma limit_count_publish c pid q : runs L c (count_publish pidb pid q).
Proof. unfold count_publish, release_if_nonzero, release_id_and_notify. limiting. Qed.
Lemma limit_update_packet_ids c pv : runs L c (update_packet_ids pidb pv).
Proof. unfold update_packet_ids, store_add. limiting. Qed.
Lemma limit_reject_offline_alias c pv : runs L c (reject_offline_alias pidb pv).
Proof. unfold reject_offline_alias. limiting. Qed.
Lemma limit_send_packet c pv release : runs L c (send_packet pidb pv release).
Proof. unfold send_packet, reset_pingresp_recv. limiting. Qed.
#[local] Hint Resolve limit_store_publish limit_apply_topic_alias limit_count_publish limit_update_packet_ids
  limit_reject_offline_alias limit_send_packet : runs.
Lemma limit_send_publish_v5 c now p : runs L c (send_publish_v5 pidb now p).
Proof. unfold send_publish_v5. limiting. Qed.
Lemma limit_send_publish_v3 c now p : runs L c (send_publish_v3 pidb now p).
Proof. unfold send_publish_v3. limiting. Qed.
#[local] Hint Resolve limit_send_publish_v5 limit_send_publish_v3 : runs.

Lemma limit_process_send_packet c now pv : runs L c (process_send_packet pidb Role now pv).
Proof.
  unfold process_send_packet, validate_maximum_packet_size, release_if_nonzero, release_id_and_notify. do 3 seg_step.
  - limiting.
  - match goal with H : _ || _ || _ = false |- _ => apply orb_false_iff in H as [_ Hv%negb_false_iff] end.
    limiting.
Qed.
#[local] Hint Resolve limit_process_send_packet : runs.

Lemma limit_send c now pv : runs L c (send pidb Role now pv).
Proof. unfold send, reset_pingreq_send. limiting. Qed.
#[local] Hint Resolve limit_send : runs.

(** ** [recv] *)
Section receiving.
Variable now : Z.

Lemma limit_disconnect_and_error c code : runs L c (disconnect_and_error pidb Role now code).
Proof. unfold disconnect_and_error. limiting. Qed.
Lemma limit_close_and_error c code : runs L c (close_and_error pidb code).
Proof. unfold close_and_error. limiting. Qed.
Lemma limit_pingreq_recv_op c : runs L c (pingreq_recv_op pidb).
Proof. autounfold with inline. limiting. Qed.
#[local] Hint Resolve limit_disconnect_and_error limit_close_and_error limit_pingreq_recv_op : runs.
Lemma limit_accept c pv : runs L c (accept pidb pv).
Proof. unfold accept. limiting. Qed.
Lemma limit_unknown_id c v5 : runs L c (unknown_id pidb Role now v5).
Proof. unfold unknown_id. limiting. Qed.
Lemma limit_receive_quota c pid : runs L c (receive_quota pidb Role now pid).
Proof. unfold receive_quota. limiting. Qed.
#[local] Hint Resolve limit_accept limit_unknown_id limit_receive_quota : runs.
Lemma limit_recv_v5_qos c pid q : runs L c (recv_v5_qos pidb Role now pid q).
Proof. unfold recv_v5_qos. autounfold with inline. limiting. Qed.
Lemma limit_recv_v5_topic c p : runs L c (recv_v5_topic pidb Role now p).
Proof. unfold recv_v5_topic. limiting. Qed.
Lemma limit_received_properties c b l :
  runs L c (for_each (received_property pidb Role b (set_pingreq_send_interval pidb)) l).
Proof.
  apply runs_for_each; [exact _|]. intros p c' _. unfold received_property, set_pingreq_send_interval. limiting.
Qed.
Lemma limit_resume_session c sp : runs L c (resume_session pidb sp).
Proof. unfold resume_session. limiting. Qed.
#[local] Hint Resolve limit_recv_v5_qos limit_recv_v5_topic limit_received_properties limit_resume_session : runs.

Lemma limit_recv_v3_connect c p :
  protocol_version_ c <> protocol_version.v5 -> runs L c (recv_v3_connect pidb p).
Proof. intros Hv. unfold recv_v3_connect. autounfold with inline. limiting. Qed.

Lemma limit_recv_v5_connect c p : runs L c (recv_v5_connect pidb Role p).
Proof. unfold recv_v5_connect. autounfold with inline. limiting. Qed.
#[local] Hint Resolve limit_recv_v3_connect limit_recv_v5_connect : runs.

Lemma limit_process_packet c pv : parsed_for (protocol_version_ c) pv -> runs L c (process_packet pidb Role now pv).
Proof.
  intros Hp. destruct pv; cbn [process_packet];
    unfold recv_v3_connack, recv_v5_connack, recv_v3_publish, recv_v5_publish, recv_puback, recv_v3_pubrec, recv_v5_pubrec,
      recv_pubrel, recv_pubcomp, recv_suback, recv_unsuback, recv_pingreq, recv_pingresp, recv_disconnect.
  1: { apply limit_recv_v3_connect. destruct Hp as [<-|[-> _]]; done. }
  all: autounfold with inline; limiting.
Qed.
#[local] Hint Resolve limit_process_packet : runs.

Lemma limit_recv_parse_error c ec : runs L c (recv_parse_error pidb Role now ec).
Proof. unfold recv_parse_error. limiting. Qed.
#[local] Hint Resolve limit_recv_parse_error : runs.
#[local] Hint Extern 1 (parsed_for _ _) =>
  match goal with H : buffer_to_packet_variant _ _ _ = Ok _ |- _ => apply (parse_arrives _ _ _ _ H) end : runs.

Lemma limit_recv c stream : runs L c (recv pidb Role now stream).
Proof. unfold recv, process_recv_packet. limiting. Qed.

Lemma limit_notify_timer_fired c kind : runs L c (notify_timer_fired pidb Role now kind).
Proof. unfold notify_timer_fired, timeout_disconnect. autounfold with inline. limiting. Qed.
End receiving.

(** ** The rest of the interface *)

Lemma limit_release_all c pids : runs L c (release_all pidb pids).
Proof. apply runs_for_each; [exact _|]. intros pid c' _. unfold release_packet_id. autounfold with inline. limiting. Qed.
Lemma limit_restore_packets c es : runs L c (restore_packets pidb es).
Proof. apply runs_for_each; [exact _|]. intros e c' _. unfold restore_packet, register_packet_id. autounfold with inline. limiting. Qed.
#[local] Hint Resolve limit_recv limit_notify_timer_fired limit_release_all limit_restore_packets : runs.

Lemma limit_run_call k c : runs L c (run_call Role k).
Proof.
  destruct k; cbn [run_call]; unfold notify_closed, set_pingresp_recv_timeout, set_offline_publish, set_auto_pub_response,
    set_auto_ping_response, set_auto_map_topic_alias_send, set_auto_replace_topic_alias_send,
    restore_qos2_publish_handled_pids, set_pingreq_send_interval, acquire_unique_packet_id, register_packet_id,
    release_packet_id; autounfold with inline; limiting.
Qed.

(** a connection with a limit is a v5 connection *)
Lemma reachable_limit_v5 {max} ver es c : reachable (max := max) Role ver es c -> limit_v5 c.
Proof.
  intros Hr. apply (reachable_runs Role L _ _ _ (fun k c _ => limit_run_call k c) Hr). by left.
Qed.
End limit.
