(* ===== verification/ConnectionTotal.v ===== *)
(** * The connection: [recv] returns

    No packet a peer sends makes [recv] throw, fail an assertion or read
    outside of the packet, but for the two packets of ReadBounds.v. *)
From stdpp Require Import sorting.
From S2P Require Import PacketBuilder.
From S2P Require Import Prelude Boost Wire Error Property Field Packet PublishPacket ControlPacket EntryPacket ConnectPacket.
From S2P Require Import PacketIdManager TopicAlias Store ConnectionState BufferToPacket ReadBounds ConnectionSend.
From S2P Require Import ConnectionRecv ConnectionLogic ConnectionInvariant ConnectionLimit.

(** ** Packets of the builder *)

Lemma split_length_val n : forall s l rest val mul,
  split_length n s = Some (Some l, rest) -> mul * 128 ^ Z.of_nat n = 128 ^ 4 ->
  variable_bytes_to_val_loop val mul s = (Some ((val + mul * length_val l) mod 2 ^ 32), rest).
Proof.
  induction n as [|n IH]; intros s l rest val mul; cbn [split_length]; [done|]. destruct s as [|c s]; [done|].
  rewrite Nat2Z.inj_succ, Z.pow_succ_r by lia. intros H Hm. cbn [variable_bytes_to_val_loop].
  assert (Hp : 0 < 128 ^ Z.of_nat n) by (apply Z.pow_pos_nonneg; lia).
  rewrite (proj2 (Z.eqb_neq mul _)) by (intros ->; change (128 ^ 4) with (128 * 128 * 128 * 128) in Hm; nia).
  rewrite continuation_bit, land_7f. destruct (u8 c <? 128) eqn:Hc.
  - injection H as <- <-. cbn [length_val]. f_equal. f_equal. f_equal. lia.
  - destruct (split_length n s) as [[[l'|] r]|] eqn:Hs; [|done..]. injection H as <- <-.
    rewrite (IH _ _ _ _ _ Hs) by lia. cbn [length_val]. f_equal. f_equal. f_equal. lia.
Qed.

Lemma split_length_length n : forall s l rest,
  split_length n s = Some (Some l, rest) -> (0 < length l <= n)%nat /\ length_val l < 128 ^ Z.of_nat (length l).
Proof.
  induction n as [|n IH]; intros s l rest; cbn [split_length]; [done|]. destruct s as [|c s]; [done|].
  pose proof (Z.mod_pos_bound (u8 c) 128 eq_refl). destruct (u8 c <? 128).
  - intros [= <- <-]. cbn [length length_val]. lia.
  - destruct (split_length n s) as [[[l'|] r]|] eqn:Hs; [|done..]. intros [= <- <-].
    destruct (IH _ _ _ Hs) as [? ?]. cbn [length length_val]. rewrite Nat2Z.inj_succ, Z.pow_succ_r by lia. lia.
Qed.

(** a packet the builder completes is as long as its remaining length says *)
Lemma split_packet_whole s buf rest :
  split_packet s = Some (ep_packet buf, rest) ->
  exists h l body, whole buf h l body /\ Z.of_nat (length buf) <= packet_size_no_limit.
Proof.
  unfold split_packet. destruct s as [|h s]; [done|]. destruct (split_length 4 s) as [[[l|] x]|] eqn:Hs; [|done..].
  destruct (Z.leb_spec (length_val l) (Z.of_nat (length x))) as [Hx|]; [|done]. intros [= <- <-].
  set (body := firstn (Z.to_nat (length_val l)) x). pose proof (length_val_nonneg l) as H0.
  assert (Hb : Z.of_nat (length body) = length_val l) by (unfold body; rewrite length_firstn; lia).
  destruct (split_length_length _ _ _ _ Hs) as [Hn Hv]. destruct (split_length_app _ _ _ _ body Hs) as [_ Happ].
  assert (H4 : length_val l < 128 ^ 4) by (eapply Z.lt_le_trans; [exact Hv|]; apply Z.pow_le_mono_r; lia).
  change (128 ^ 4) with 268435456 in H4. exists h, l, body. split; [split; [done|]|].
  - unfold insert_advance_variable_length. destruct l as [|c l]; [simpl in Hn; lia|]. cbn [app].
    change (c :: l ++ body) with ((c :: l) ++ body). unfold variable_bytes_to_val.
    rewrite (split_length_val _ _ _ _ 0 1 Happ) by done. rewrite Z.add_0_l, Z.mul_1_l, Z.mod_small by lia.
    rewrite length_app, Nat.add_sub, take_app_length. by rewrite Hb.
  - cbn [length]. rewrite length_app. unfold packet_size_no_limit. lia.
Qed.

(** ** Programs that return *)
Section total.
Context {M : Type} {PM : PacketIdManager M} {BE : BoostEndian} {BMI : BoostMultiIndex}.
Context {pidb : nat}.
Implicit Types c : connection M pidb.

Definition total {A} c (m : prog M pidb A) : Prop := exists a c' es, m c = Return a c' es.

Lemma total_ret {A} c (a : A) : total c (mret a).
Proof. by repeat eexists. Qed.
Lemma total_gets {A} c (g : connection M pidb -> A) : total c (gets g).
Proof. by repeat eexists. Qed.
Lemma total_modify c g : total c (modify g : prog M pidb unit).
Proof. by repeat eexists. Qed.
Lemma total_emit c e : total c (emit e : prog M pidb unit).
Proof. by repeat eexists. Qed.

Lemma total_bind {A B} c (m : prog M pidb A) (f : A -> prog M pidb B) :
  total c m -> (forall a c' es, m c = Return a c' es -> total c' (f a)) -> total c (m ≫= f).
Proof.
  intros (a & c' & es & Hm) Hf. destruct (Hf a c' es Hm) as (b & c2 & es2 & Hr). exists b, c2, (es ++ es2).
  unfold mbind, prog_bind. by rewrite Hm, Hr.
Qed.

Lemma total_ret_bind {A B} c (a : A) (f : A -> prog M pidb B) : total c (f a) -> total c (mret a ≫= f).
Proof. intros H. apply total_bind; [apply total_ret | by intros ? ? ? [= <- <- _]]. Qed.
Lemma total_gets_bind {A B} c (g : connection M pidb -> A) (f : A -> prog M pidb B) :
  total c (f (g c)) -> total c (gets g ≫= f).
Proof. intros H. apply total_bind; [apply total_gets | by intros ? ? ? [= <- <- _]]. Qed.
Lemma total_modify_bind {B} c g (f : unit -> prog M pidb B) : total (g c) (f tt) -> total c (modify g ≫= f).
Proof. intros H. apply total_bind; [apply total_modify | by intros ? ? ? [= <- <- _]]. Qed.
Lemma total_emit_bind {B} c e (f : unit -> prog M pidb B) : total c (f tt) -> total c (emit e ≫= f).
Proof. intros H. apply total_bind; [apply total_emit | by intros ? ? ? [= <- <- _]]. Qed.
Lemma total_assoc {A B C} c (m : prog M pidb A) (f : A -> prog M pidb B) (g : B -> prog M pidb C) :
  total c (m ≫= fun a => f a ≫= g) -> total c ((m ≫= f) ≫= g).
Proof. intros (b & c' & es & H). exists b, c', es. by apply x_assoc. Qed.

Lemma total_for_each {A} (f : A -> prog M pidb unit) (l : list A) :
  (forall x c, x ∈ l -> total c (f x)) -> forall c, total c (for_each f l).
Proof.
  induction l as [|x l IH]; intros Hf c; simpl; [apply total_ret|]. apply total_bind; [apply Hf; by left|].
  intros _ c' es _. apply IH. intros y c2 Hy. apply Hf. by right.
Qed.
End total.

Create HintDb total.
#[export] Hint Resolve total_ret total_gets total_modify total_emit : total.

(** Follows a program up to the calls. *)
Ltac total_step :=
  lazymatch goal with
  | |- total _ ((_ ≫= _) ≫= _) => apply total_assoc
  | |- total _ (mret _ ≫= _) => apply total_ret_bind
  | |- total _ (gets _ ≫= _) => apply total_gets_bind; cbv beta delta [id]
  | |- total _ (modify _ ≫= _) => apply total_modify_bind; cbv beta
  | |- total _ (emit _ ≫= _) => apply total_emit_bind
  | |- total _ (when ?b _) => unfold when at 1; destruct b eqn:?
  | |- total _ (when ?b _ ≫= _) => unfold when at 1; destruct b eqn:?
  | |- total _ (if ?b then _ else _) => destruct b eqn:?
  | |- total _ ((if ?b then _ else _) ≫= _) => destruct b eqn:?
  | |- total _ (match ?x with _ => _ end) => destruct x eqn:?
  | |- total _ (match ?x with _ => _ end ≫= _) => destruct x eqn:?
  | |- total _ (_ ≫= _) => apply total_bind; [solve [auto with total] | intros ? ? ? _]
  | |- total _ _ => solve [auto with total]
  end.
Ltac totally := repeat total_step.

Section sends.
Context {M : Type} {PM : PacketIdManager M} {BE : BoostEndian} {BMI : BoostMultiIndex}.
Context {pidb : nat}.
Variable Role : role.t.
Variable now : Z.
Implicit Types c : connection M pidb.

Abbreviation send := (send pidb Role now).

Lemma total_release_id_and_notify c pid : total c (release_id_and_notify pidb pid).
Proof. unfold release_id_and_notify. totally. Qed.
#[local] Hint Resolve total_release_id_and_notify : total.

Lemma total_refuse_publish c pid : total c (refuse_publish pidb pid).
Proof. unfold refuse_publish, release_if_nonzero. totally. Qed.
Lemma total_cancel_timers c : total c (cancel_timers pidb).
Proof. unfold cancel_timers, cancel_pingreq_send, cancel_pingreq_recv, cancel_pingresp_recv. totally. Qed.
Lemma total_initialize c b : total c (initialize pidb b).
Proof. unfold initialize. totally. Qed.
Lemma total_clear_session c : total c (clear_session pidb).
Proof. unfold clear_session. totally. Qed.
Lemma total_clear_pids c : total c (clear_pids pidb).
Proof. unfold clear_pids. totally. Qed.
Lemma total_send_stored c : total c (send_stored pidb).
Proof. unfold send_stored. totally. apply total_for_each. intros e c' _. totally. Qed.
#[local] Hint Resolve total_refuse_publish total_cancel_timers total_initialize total_clear_session total_clear_pids
  total_send_stored : total.

Lemma total_send_packet c pv release : total c (send_packet pidb pv release).
Proof. unfold send_packet, reset_pingresp_recv. totally. Qed.
#[local] Hint Resolve total_send_packet : total.

(** what [recv] sends: no CONNECT, PUBLISH or CONNACK with properties, and
    packet identifiers that are in use *)
Definition answers c (pv : packet_variant) : Prop :=
  match pv with
  | v3_1_1_connect _ | v5_connect _ | v3_1_1_publish _ | v5_publish _
  | v3_1_1_subscribe _ | v5_subscribe _ | v3_1_1_unsubscribe _ | v5_unsubscribe _ => False
  | v3_1_1_pubrel _ | v5_pubrel _ => is_used_id (packet_id pidb pv) (pid_man_ c) = true
  | v5_connack p => v5_connack.props_ p = []
  | _ => True
  end.

Lemma total_start_or_accept c pv : answers c pv -> total c (start_or_accept pidb pv).
Proof.
  destruct pv; cbn [answers start_or_accept]; try done; intros H; unfold send_connack; try rewrite H; cbn [for_each]; totally.
Qed.

Lemma start_or_accept_pid_man c pv a c' es :
  answers c pv -> start_or_accept pidb pv c = Return a c' es -> pid_man_ c' = pid_man_ c.
Proof.
  intros H Hr. assert (runs (fixes pid_man_) c (start_or_accept pidb pv)) as Hf.
  { destruct pv; cbn [answers start_or_accept] in *; try done; unfold send_connack, cancel_timers, cancel_pingreq_send,
      cancel_pingreq_recv, cancel_pingresp_recv; try rewrite H; cbn [for_each]; seg_go (idtac; reflexivity); reflexivity. }
  exact (runs_Return _ _ _ _ _ _ Hf Hr).
Qed.

Lemma total_update_packet_ids c pv : answers c pv -> total c (update_packet_ids pidb pv).
Proof.
  destruct pv; cbn [answers update_packet_ids]; try done; intros H; totally.
  all: rewrite H; unfold assert, store_add; totally.
Qed.

Lemma total_process_send_packet c pv : answers c pv -> total c (process_send_packet pidb Role now pv).
Proof.
  intros H. unfold process_send_packet, validate_maximum_packet_size, release_if_nonzero. do 6 total_step; [totally|].
  apply total_bind; [by apply total_start_or_accept | intros [] c' es Hr].
  pose proof (start_or_accept_pid_man _ _ _ _ _ H Hr) as Hpid.
  assert (H' : answers c' pv) by (destruct pv; cbn [answers] in *; by rewrite ?Hpid).
  pose proof (total_update_packet_ids c' pv H'). unfold reject_offline_alias. destruct pv; try done; totally.
Qed.

Lemma total_send c pv : answers c pv -> total c (send pv).
Proof.
  intros H. unfold ConnectionSend.send, reset_pingreq_send. apply total_bind; [by apply total_process_send_packet|].
  intros sent c' es _. totally.
Qed.
End sends.

Section receives.
Context {M : Type} {PM : PacketIdManager M} {BE : BoostEndian} {BEO : BoostEndianOk} {BMI : BoostMultiIndex}.
Context {pidb : nat} {max : Z}.
Variable Role : role.t.
Hypothesis Hpidb : (0 < pidb <= 4)%nat.
Hypothesis Hmax : max < 256 ^ Z.of_nat pidb.
Variable now : Z.
Implicit Types c : connection M pidb.

Abbreviation send := (send pidb Role now).

#[local] Hint Resolve total_release_id_and_notify total_cancel_timers total_initialize total_clear_session total_clear_pids
  total_send_stored : total.
#[local] Hint Extern 1 (total _ (ConnectionSend.send _ _ _ _)) => apply total_send; cbn [answers]; done : total.

Lemma total_disconnect_and_error c code : total c (disconnect_and_error pidb Role now code).
Proof. unfold disconnect_and_error. totally. Qed.
Lemma total_close_and_error c code : total c (close_and_error pidb code).
Proof. unfold close_and_error. totally. Qed.
Lemma total_pingreq_recv_op c : total c (pingreq_recv_op pidb).
Proof. unfold pingreq_recv_op, reset_pingreq_recv, cancel_pingreq_recv. totally. Qed.
#[local] Hint Resolve total_disconnect_and_error total_close_and_error total_pingreq_recv_op : total.

Lemma total_accept c pv : total c (accept pidb pv).
Proof. unfold accept. totally. Qed.
Lemma total_is_connected c : total c (is_connected pidb).
Proof. unfold is_connected. totally. Qed.
#[local] Hint Resolve total_accept total_is_connected : total.
Lemma total_auto_response c : total c (auto_response pidb).
Proof. unfold auto_response. totally. Qed.
Lemma total_unknown_id c v5 : total c (unknown_id pidb Role now v5).
Proof. unfold unknown_id. totally. Qed.
Lemma total_erase_pid c get set pid : total c (erase_pid pidb get set pid).
Proof. unfold erase_pid. totally. Qed.
Lemma total_store_erase c r pid : total c (store_erase pidb r pid).
Proof. unfold store_erase. totally. Qed.
Lemma total_uncount c : total c (uncount pidb).
Proof. unfold uncount. totally. Qed.
Lemma total_end_processing c pid : total c (end_processing pidb pid).
Proof. unfold end_processing. totally. Qed.
#[local] Hint Resolve total_auto_response total_unknown_id total_erase_pid total_store_erase total_uncount
  total_end_processing : total.

Lemma total_recv_response c v5 pv :
  total c (recv_puback pidb Role now v5 pv) /\ total c (recv_pubcomp pidb Role now v5 pv) /\
  total c (recv_suback pidb Role now v5 pv) /\ total c (recv_unsuback pidb Role now v5 pv).
Proof. unfold recv_puback, recv_pubcomp, recv_suback, recv_unsuback. split_and!; totally. Qed.

(** *** PUBLISH *)

Lemma total_handle_qos2 c pid : total c (handle_qos2 pidb pid).
Proof. unfold handle_qos2. totally. Qed.
Lemma total_receive_quota c pid : total c (receive_quota pidb Role now pid).
Proof. unfold receive_quota. totally. Qed.
#[local] Hint Resolve total_handle_qos2 total_receive_quota : total.

Lemma total_recv_v3_publish c p : total c (recv_v3_publish pidb Role now p).
Proof. unfold recv_v3_publish. totally. Qed.

Lemma total_recv_v5_qos c pid q : total c (recv_v5_qos pidb Role now pid q).
Proof. unfold recv_v5_qos. totally. Qed.

Lemma total_recv_v5_topic c p : total c (recv_v5_topic pidb Role now p).
Proof.
  unfold recv_v5_topic. total_step. unfold alias_out_of_range.
  destruct (topic_alias_recv_ c) as [t|]; cbn [or_undefined]; [totally|].
  destruct (v5_publish.topic_name_ p), (get_topic_alias _); rewrite ?orb_true_r; totally.
Qed.
#[local] Hint Resolve total_recv_v5_qos total_recv_v5_topic : total.

Lemma total_recv_v5_publish c p : total c (recv_v5_publish pidb Role now p).
Proof. unfold recv_v5_publish. totally. Qed.

(** *** PUBREC, PUBREL *)

(** identifiers that wait for PUBREC are packet identifiers in use *)
Definition pubrec_used c : Prop :=
  forall pid, pid ∈ pid_pubrec_ c -> id_ok (max := max) pid /\ is_used_id pid (pid_man_ c) = true.

Lemma total_recv_v3_pubrec c p : pubrec_used c -> total c (recv_v3_pubrec pidb Role now p).
Proof.
  intros Hu. unfold recv_v3_pubrec, erase_pid, store_erase, auto_response, is_connected. totally.
  match goal with H : negb (bool_decide _) = false |- _ => apply negb_false_iff, bool_decide_eq_true in H; apply Hu in H as [Hid Hu'] end.
  apply total_bind; [apply total_send | intros ? ? ? _; totally].
  unfold answers. cbn [packet_id]. by rewrite (v3_pubrel_id Hpidb Hmax _ Hid).
Qed.

Lemma total_recv_v5_pubrec c p : pubrec_used c -> total c (recv_v5_pubrec pidb Role now p).
Proof.
  intros Hu. unfold recv_v5_pubrec, erase_pid, store_erase, auto_response, is_connected. totally.
  match goal with H : negb (bool_decide _) = false |- _ => apply negb_false_iff, bool_decide_eq_true in H; apply Hu in H as [Hid Hu'] end.
  apply total_bind; [apply total_send | intros ? ? ? _; totally].
  unfold answers. cbn [packet_id Ack.make_ack_id v5_ack.packet_id_]. rewrite store_load_packet_id; [done|].
  unfold id_ok in Hid. cbn [packet_id] in Hid. lia.
Qed.

Lemma total_recv_pubrel c pv response : (forall c', answers c' response) -> total c (recv_pubrel pidb Role now pv response).
Proof. intros Hr. unfold recv_pubrel, auto_response, is_connected. totally. Qed.

(** *** CONNECT and CONNACK *)

Lemma total_received_property c is_connect interval prop :
  property_ok prop -> (forall c ms, total c (interval ms)) -> total c (received_property pidb Role is_connect interval prop).
Proof.
  intros Hp Hi. assert (Hne : forall n v, length v = n -> be_val v <> 0 -> (uint_val n v =? 0) = false).
  { intros n v Hl Hv. rewrite uint_val_be by done. by apply Z.eqb_neq. }
  destruct prop; cbn [received_property property_ok] in *; try (totally; fail).
  all: try (destruct Hp as [Hl Hv]; rewrite Hne by done); cbn [assert negb]; totally.
Qed.

Lemma total_set_pingreq_send_interval c ms : total c (set_pingreq_send_interval pidb ms).
Proof. unfold set_pingreq_send_interval. totally. Qed.

Lemma total_received_properties c is_connect ps :
  Forall property_ok ps -> total c (for_each (received_property pidb Role is_connect (set_pingreq_send_interval pidb)) ps).
Proof.
  intros Hps. apply total_for_each. intros prop c' Hin. apply total_received_property.
  - by eapply Forall_forall.
  - apply total_set_pingreq_send_interval.
Qed.
#[local] Hint Resolve total_received_properties : total.

Lemma total_recv_v3_connect c p : total c (recv_v3_connect pidb p).
Proof. unfold recv_v3_connect, set_recv_timeout. totally. Qed.
Lemma total_recv_v5_connect c p : Forall property_ok (v5.props_ p) -> total c (recv_v5_connect pidb Role p).
Proof. intros Hp. unfold recv_v5_connect, set_recv_timeout. totally. Qed.

Lemma total_resume_session c sp : total c (resume_session pidb sp).
Proof. unfold resume_session. totally. Qed.
#[local] Hint Resolve total_resume_session : total.

Lemma total_recv_v3_connack c p : total c (recv_v3_connack pidb p).
Proof. unfold recv_v3_connack. totally. Qed.
Lemma total_recv_v5_connack c p : Forall property_ok (v5_connack.props_ p) -> total c (recv_v5_connack pidb Role p).
Proof. intros Hp. unfold recv_v5_connack. totally. Qed.

(** *** The visitor *)

Lemma total_process_packet c pv : pubrec_used c -> arrives_ok pv -> total c (process_packet pidb Role now pv).
Proof.
  intros Hu Ha. destruct pv; cbn [process_packet arrives_ok] in *;
    first [ totally; fail | by apply total_recv_response | by apply total_recv_v3_pubrec | by apply total_recv_v5_pubrec
          | by apply total_recv_v3_publish | by apply total_recv_v5_publish | by apply total_recv_pubrel
          | by apply total_recv_v3_connect | by apply total_recv_v5_connect | by apply total_recv_v3_connack
          | by apply total_recv_v5_connack
          | unfold recv_pingreq, recv_pingresp, recv_disconnect, cancel_pingresp_recv; totally; fail ].
Qed.

Lemma total_recv_parse_error c ec : total c (recv_parse_error pidb Role now ec).
Proof. unfold recv_parse_error. totally. Qed.


(** ** [recv] *)

Context {BMO : BoostMultiIndexOk} {PMO : PacketIdManagerOk M max}.

(** the packet that the stream completes, if it is within the limit *)
Definition completes c (stream buf : list byte) : Prop :=
  PacketBuilder.read_packet_ (fst (PacketBuilder.recv stream (rpb_ c))) = Some (ep_packet buf) /\
  Z.of_nat (length buf) <= maximum_packet_size_recv_ c.

Lemma completes_whole c stream buf :
  connection_ok (max := max) c ->
  PacketBuilder.read_packet_ (fst (PacketBuilder.recv stream (rpb_ c))) = Some (ep_packet buf) ->
  exists h l body, whole buf h l body /\ Z.of_nat (length buf) <= packet_size_no_limit.
Proof.
  intros Hok Hr. destruct (ok_rpb _ Hok) as [pending Hp]. pose proof (recv_spec stream pending _ Hp) as Hs.
  unfold recv_result in Hs. destruct (split_packet (pending ++ stream)) as [[ep rest]|] eqn:Hsp.
  - rewrite Hs in Hr. injection Hr as ->. by eapply split_packet_whole.
  - destruct Hs as [Hb _]. by destruct Hb.
Qed.

Lemma recv_total c stream :
  connection_ok (max := max) c -> limit_v5 c -> pubrec_used c ->
  (forall buf, completes c stream buf -> buffer_to_packet_variant pidb buf (protocol_version_ c) <> Undef) ->
  total c (recv pidb Role now stream).
Proof.
  intros Hok Hlim Hu Hparse. unfold recv, process_recv_packet. do 4 total_step. cbn [rpb_ set_rpb_].
  destruct (PacketBuilder.read_packet_ _) as [[ec|buf]|] eqn:Hr; [totally| |totally].
  pose proof (completes_whole _ _ _ Hok Hr) as (h & l & body & _ & Hlen). do 5 total_step.
  - assert (protocol_version_ c = protocol_version.v5) as Hv.
    { destruct Hlim as [Hm|Hv]; [|done]. match goal with H : (_ <? _) = true |- _ => apply Z.ltb_lt in H; simpl in H end. lia. }
    cbn [protocol_version_ set_rpb_]. rewrite Hv. rewrite bool_decide_true by done. cbn [assert]. totally.
  - match goal with H : (_ <? _) = false |- _ => apply Z.ltb_ge in H; rename H into Hle end.
    specialize (Hparse buf (conj Hr Hle)). cbn [protocol_version_ set_rpb_].
    destruct (buffer_to_packet_variant _ _ _) as [pv|ec|] eqn:Hpv; [| |done].
    + apply parse_arrives in Hpv as [_ Ha]. total_step; [|totally]. apply total_bind; [by apply total_process_packet | intros; totally].
    + apply total_bind; [apply total_recv_parse_error | intros; totally].
Qed.

Lemma recv_undefined c stream buf :
  completes c stream buf -> buffer_to_packet_variant pidb buf (protocol_version_ c) = Undef ->
  recv pidb Role now stream c = Undefined.
Proof.
  intros [Hr Hle%Z.ltb_ge] Hp. unfold recv. x_step. cbv zeta. x_step. unfold process_recv_packet. do 2 x_step.
  cbn [rpb_ set_rpb_]. rewrite Hr. do 4 x_step. cbn [maximum_packet_size_recv_ protocol_version_ set_rpb_]. by rewrite Hle, Hp.
Qed.

End receives.
