(* ===== verification/ConnectionExchange.v ===== *)
(** * Two connections

    What one connection sends the other receives: the handshakes of QoS 1 and
    QoS 2 between a sender and a receiver, from [send] to the release of the
    packet identifier, over the bytes of the packets. *)
From stdpp Require Import sorting.
From S2P Require Import PacketBuilder.
From S2P Require Import Prelude Boost Wire Error Property Packet PublishPacket ControlPacket PacketIdManager.
From S2P Require Import TopicAlias Store ConnectionState BufferToPacket ConnectionSend ConnectionRecv ConnectionLogic.
From S2P Require Import ConnectionStatus ConnectionBehaviour.

Section exchange.
Context {M : Type} {PM : PacketIdManager M} {BE : BoostEndian} {BEO : BoostEndianOk} {BMI : BoostMultiIndex}
        {BMO : BoostMultiIndexOk}.
Context {pidb : nat}.
Hypothesis Hpidb : (0 < pidb <= 4)%nat.
Implicit Types a b c : connection M pidb.

(** ** One packet *)

(** Bytes of a packet the constructors build, on a connection that is
    between two packets, are received as that packet, whatever follows. *)
Lemma recv_packet Role now c pv rest c' es :
  rpb_ c = make_builder -> built pidb pv -> packet_version pv = protocol_version_ c ->
  packet_size pv <= maximum_packet_size_recv_ c -> protocol_satisfied pidb c (as_received pv) = true ->
  process_packet pidb Role now (as_received pv) c = Return tt c' es ->
  recv pidb Role now (packet_bytes pidb pv ++ rest) c = Return rest c' es.
Proof.
  intros Hb Hpv Hver Hsize Hok Hrun. destruct (built_read_back pidb Hpidb pv Hpv) as (Hf & _ & Hs).
  pose proof (recv_spec (packet_bytes pidb pv ++ rest) [] make_builder at_fixed_header) as Hr.
  unfold recv_result in Hr. cbn [app] in Hr. rewrite (split_packet_framed _ _ (frame_framed _ _ Hf)) in Hr.
  unfold recv. rewrite <- (app_nil_r es). x_step. cbv zeta. rewrite Hb, Hr. x_step.
  assert (Hc : set_rpb_ (PacketBuilder.clear (PacketBuilder.emplace (ep_packet (packet_bytes pidb pv)) make_builder))
    (set_rpb_ (PacketBuilder.emplace (ep_packet (packet_bytes pidb pv)) make_builder) c) = c) by (destruct c; simpl in *; by subst).
  eapply x_call_bind; [|reflexivity]. unfold process_recv_packet. x_step. cbn [rpb_ set_rpb_ PacketBuilder.read_packet_ PacketBuilder.emplace].
  x_step. cbn [fst]. x_step. rewrite Hc. x_step. rewrite Hs in Hsize. rewrite (proj2 (Z.ltb_ge _ _) Hsize).
  rewrite (built_parse pidb Hpidb pv (protocol_version_ c) Hpv) by by left. by rewrite Hok.
Qed.

(** the state but for the flags of the timers *)
Definition core c : connection M pidb := set_pingreq_send_set_ false (set_pingreq_recv_set_ false (set_pingresp_recv_set_ false c)).

(** connected with v3.1.1, between two packets, responding to PUBLISH packets *)
Record ready c : Prop := mk_ready {
  ready_status : status_ c = connection_status.connected;
  ready_version : protocol_version_ c = protocol_version.v3_1_1;
  ready_builder : rpb_ c = make_builder;
  ready_send : 2 + Z.of_nat pidb <= maximum_packet_size_send_ c;
  ready_recv : 2 + Z.of_nat pidb <= maximum_packet_size_recv_ c;
  ready_auto : auto_pub_response_ c = true;
}.

Lemma core_field {T} (f : connection M pidb -> T) c c' :
  core c' = core c -> (forall x, f (core x) = f x) -> f c' = f c.
Proof. intros Hc Hf. by rewrite <- (Hf c), <- (Hf c'), Hc. Qed.

Lemma core_map (F : connection M pidb -> connection M pidb) c c' :
  core c' = core c -> (forall x, core (F x) = core (F (core x))) -> core (F c') = core (F c).
Proof. intros Hc HF. by rewrite (HF c'), (HF c), Hc. Qed.

Lemma ready_core c c' : core c' = core c -> ready c -> ready c'.
Proof.
  intros Hc [H1 H2 H3 H4 H5 H6]. constructor.
  - by rewrite (core_field status_ _ _ Hc).
  - by rewrite (core_field protocol_version_ _ _ Hc).
  - by rewrite (core_field rpb_ _ _ Hc).
  - by rewrite (core_field maximum_packet_size_send_ _ _ Hc).
  - by rewrite (core_field maximum_packet_size_recv_ _ _ Hc).
  - by rewrite (core_field auto_pub_response_ _ _ Hc).
Qed.

(** ** Responses *)

Definition is_v3_answer (pv : packet_variant) : bool :=
  match pv with v3_1_1_puback _ | v3_1_1_pubrec _ | v3_1_1_pubcomp _ => true | _ => false end.

Lemma size_with_packet_id cpt flags pid :
  0 <= pid < 256 ^ Z.of_nat pidb -> fixed_size (Fixed.make_with_packet_id pidb cpt flags pid) = 2 + Z.of_nat pidb.
Proof. intros Hp. unfold fixed_size, Fixed.make_with_packet_id. cbn [all_ length]. rewrite length_endian_store by done. lia. Qed.

Lemma answer_run Role now c pv :
  ready c -> is_v3_answer pv = true -> packet_size pv = 2 + Z.of_nat pidb ->
  exists c', send pidb Role now pv c = Return tt c' (on_send pv None :: pingreq_send_events Role c) /\ core c' = core c.
Proof.
  intros Hr Ha Hsize. pose proof (ready_status _ Hr) as Hs. pose proof (ready_version _ Hr) as Hv.
  pose proof (ready_send _ Hr) as Hle. rewrite <- Hsize in Hle. apply Z.leb_le in Hle.
  assert (Hrole : role_check Role pv = true) by (destruct Role, pv; done).
  assert (Hst : status_check pidb c pv = true) by (unfold status_check; destruct pv; try done; simpl; by rewrite Hs).
  assert (Hvc : version_check pidb c pv = true) by (unfold version_check; rewrite Hv; by destruct pv).
  destruct (send_sent Role now pv c c [on_send pv None]) as (c' & Heq & Hc); [by destruct pv | done | |].
  - unfold process_send_packet, validate_maximum_packet_size.
    destruct pv; try done; repeat x_step; cbn [start_or_accept reject_offline_alias update_packet_ids send_packet]; repeat x_step.
  - exists c'. split; [exact Heq|]. by destruct Hc as [->| ->].
Qed.

Lemma pingreq_recv_op_run c :
  ready c -> exists c', pingreq_recv_op pidb c = Return tt c' (keep_alive_events c) /\ core c' = core c.
Proof.
  intros Hr. pose proof (ready_status _ Hr) as Hs. unfold keep_alive_events, pingreq_recv_op, reset_pingreq_recv.
  destruct (pingreq_recv_timeout_ms_ c) eqn:Ht; eexists; (split; [repeat x_step | done]).
Qed.

Lemma accept_run c pv :
  ready c -> exists c', accept pidb pv c = Return tt c' (keep_alive_events c ++ [on_receive pv]) /\ core c' = core c.
Proof.
  intros Hr. destruct (pingreq_recv_op_run c Hr) as (c' & Hp & Hc). exists c'. split; [|done].
  unfold accept. eapply x_call_bind; [exact Hp | reflexivity].
Qed.

(** the state after a PUBREL was sent *)
Definition after_pubrel c (pv : packet_variant) : connection M pidb :=
  set_pid_pubcomp_ ({[packet_id pidb pv]} ∪ pid_pubcomp_ c)
    (set_store_ (if need_store_ c then fst (add pidb pv (store_ c)) else store_ c) c).

Lemma pubrel_run Role now c p :
  let pv := v3_1_1_pubrel p in
  ready c -> packet_size pv = 2 + Z.of_nat pidb -> is_used_id (packet_id pidb pv) (pid_man_ c) = true ->
  exists c', send pidb Role now pv c = Return tt c' (on_send pv None :: pingreq_send_events Role c) /\
    core c' = core (after_pubrel c pv).
Proof.
  cbv zeta. set (pv := v3_1_1_pubrel p). intros Hr Hsize Hu. pose proof (ready_status _ Hr) as Hs.
  pose proof (ready_version _ Hr) as Hv. pose proof (ready_send _ Hr) as Hle. rewrite <- Hsize in Hle. apply Z.leb_le in Hle.
  assert (Hrole : role_check Role pv = true) by (by destruct Role).
  assert (Hst : status_check pidb c pv = true) by (unfold status_check; simpl; by rewrite Hs).
  assert (Hvc : version_check pidb c pv = true) by (unfold version_check; by rewrite Hv).
  destruct (send_sent Role now pv c (after_pubrel c pv) [on_send pv None]) as (c' & Heq & Hc); [done | done | |].
  - unfold process_send_packet, validate_maximum_packet_size, after_pubrel.
    repeat x_step. cbn [pv start_or_accept reject_offline_alias]. repeat x_step. fold pv.
    cbn [pv update_packet_ids send_packet]. fold pv. unfold store_add. destruct (need_store_ c) eqn:Hn; repeat x_step.
  - exists c'. split; [exact Heq|]. by destruct Hc as [->| ->].
Qed.

(** ** The receiver *)

Lemma recv_publish_qos1 Role now c p :
  ready c -> pub.get_qos (v3_publish.fixed_header_ p) = qos.at_least_once -> 0 <= V3.packet_id pidb p < 256 ^ Z.of_nat pidb ->
  let puback := v3_1_1_puback (Fixed.make_v3_puback pidb (V3.packet_id pidb p)) in
  exists c', process_packet pidb Role now (v3_1_1_publish p) c =
      Return tt c' (on_send puback None :: pingreq_send_events Role c ++ keep_alive_events c ++ [on_receive (v3_1_1_publish p)]) /\
    core c' = core c.
Proof.
  intros Hr Hq Hp puback. destruct (answer_run Role now c puback Hr eq_refl (size_with_packet_id _ _ _ Hp)) as (c1 & Hsend & Hc1).
  destruct (accept_run c1 (v3_1_1_publish p) (ready_core _ _ Hc1 Hr)) as (c2 & Ha & Hc2). exists c2. split; [|congruence].
  cbn [process_packet]. unfold recv_v3_publish, auto_response, is_connected. pose proof (ready_status _ Hr) as Hs.
  pose proof (ready_auto _ Hr) as Hau. cbv zeta. rewrite Hq. repeat x_step. fold puback.
  rewrite (core_field keep_alive_events _ _ Hc1) in Ha by done.
  exact (x_call_bind _ _ _ _ _ _ _ _ _ Hsend Ha).
Qed.

Lemma recv_publish_qos2 Role now c p :
  let pid := V3.packet_id pidb p in
  ready c -> pub.get_qos (v3_publish.fixed_header_ p) = qos.exactly_once -> 0 <= pid < 256 ^ Z.of_nat pidb ->
  pid ∉ qos2_publish_handled_ c ->
  let pubrec := v3_1_1_pubrec (Fixed.make_v3_pubrec pidb pid) in
  exists c', process_packet pidb Role now (v3_1_1_publish p) c =
      Return tt c' (on_send pubrec None :: pingreq_send_events Role c ++ keep_alive_events c ++ [on_receive (v3_1_1_publish p)]) /\
    core c' = core (set_qos2_publish_handled_ ({[pid]} ∪ qos2_publish_handled_ c) c).
Proof.
  intros pid Hr Hq Hp Hn pubrec. pose proof (bool_decide_eq_false_2 _ Hn) as Hb. set (c0 := set_qos2_publish_handled_ _ c).
  assert (Hr0 : ready c0) by (destruct Hr; by constructor).
  destruct (answer_run Role now c0 pubrec Hr0 eq_refl (size_with_packet_id _ _ _ Hp)) as (c1 & Hsend & Hc1).
  destruct (pingreq_recv_op_run c1 (ready_core _ _ Hc1 Hr0)) as (c2 & Ha & Hc2). exists c2. split; [|congruence].
  cbn [process_packet]. unfold recv_v3_publish, handle_qos2, is_connected. pose proof (ready_status _ Hr) as Hs.
  pose proof (ready_auto _ Hr) as Hau. cbv zeta. rewrite Hq. fold pid. fold pubrec. repeat x_step. fold c0.
  rewrite (core_field keep_alive_events _ _ Hc1) in Ha by done.
  change (pingreq_send_events Role c0) with (pingreq_send_events Role c) in Hsend.
  rewrite app_comm_cons. eapply x_call_bind; [exact Hsend|]. eapply x_call_bind; [exact Ha | reflexivity].
Qed.

Lemma recv_pubrel_run Role now c pid :
  ready c -> 0 <= pid < 256 ^ Z.of_nat pidb ->
  let pubrel := v3_1_1_pubrel (Fixed.make_v3_pubrel pidb pid) in
  let pubcomp := v3_1_1_pubcomp (Fixed.make_v3_pubcomp pidb pid) in
  exists c', process_packet pidb Role now pubrel c =
      Return tt c' (on_send pubcomp None :: pingreq_send_events Role c ++ keep_alive_events c ++ [on_receive pubrel]) /\
    core c' = core (set_qos2_publish_handled_ (qos2_publish_handled_ c ∖ {[pid]}) c).
Proof.
  intros Hr Hp pubrel pubcomp. set (c0 := set_qos2_publish_handled_ _ c).
  assert (Hr0 : ready c0) by (destruct Hr; by constructor).
  assert (Hid : packet_id pidb pubrel = pid) by by apply (fixed_packet_roundtrip pidb Hpidb control_packet_type.pubrel 2 pid).
  destruct (answer_run Role now c0 pubcomp Hr0 eq_refl (size_with_packet_id _ _ _ Hp)) as (c1 & Hsend & Hc1).
  destruct (accept_run c1 pubrel (ready_core _ _ Hc1 Hr0)) as (c2 & Ha & Hc2). exists c2. split; [|congruence].
  unfold process_packet. fold pubrel. cbn [pubrel]. fold pubrel. rewrite Hid. fold pubcomp.
  unfold recv_pubrel, auto_response, is_connected. pose proof (ready_status _ Hr) as Hs.
  pose proof (ready_auto _ Hr) as Hau. cbv zeta. rewrite Hid. repeat x_step. fold c0.
  rewrite (core_field keep_alive_events _ _ Hc1) in Ha by done.
  exact (x_call_bind _ _ _ _ _ _ _ _ _ Hsend Ha).
Qed.

(** ** The sender *)

(** the state after a PUBLISH was sent *)
Definition after_publish c (p : v3_publish.publish_packet) : connection M pidb :=
  let pid := V3.packet_id pidb p in
  let c := set_store_ (if need_store_ c then fst (add pidb (v3_1_1_publish (V3.set_dup true p)) (store_ c)) else store_ c) c in
  if pub.get_qos (v3_publish.fixed_header_ p) =? qos.exactly_once then
    set_pid_pubrec_ ({[pid]} ∪ pid_pubrec_ c) (set_qos2_publish_processing_ ({[pid]} ∪ qos2_publish_processing_ c) c)
  else set_pid_puback_ ({[pid]} ∪ pid_puback_ c) c.

Lemma publish_run Role now c p :
  let pv := v3_1_1_publish p in
  ready c -> packet_size pv <= maximum_packet_size_send_ c -> is_qos12 (pub.get_qos (v3_publish.fixed_header_ p)) = true ->
  is_used_id (packet_id pidb pv) (pid_man_ c) = true ->
  exists c', send pidb Role now pv c =
      Return tt c' (on_send pv (if need_store_ c then None else Some (packet_id pidb pv)) :: pingreq_send_events Role c) /\
    core c' = core (after_publish c p).
Proof.
  cbv zeta. intros Hr Hsize Hq Hu. pose proof (ready_status _ Hr) as Hs.
  pose proof (send_v3_publish_run Role now c p Hs (ready_version _ Hr) Hsize) as Hrun. unfold after_publish.
  destruct (need_store_ c) eqn:Hn, (pub.get_qos (v3_publish.fixed_header_ p) =? qos.exactly_once) eqn:He.
  all: edestruct (send_sent Role now (v3_1_1_publish p) c) as (c' & Heq & Hc);
    [done | | rewrite Hrun; unfold send_publish_v3, store_publish, store_add, send_packet; cbv zeta; repeat x_step|].
  all: try exact Hs.
  all: exists c'; split; [exact Heq|]; by destruct Hc as [->| ->].
Qed.

(** the state after an identifier was acknowledged *)
Definition after_release c (r : response_packet) (pid : Z) : connection M pidb :=
  set_pid_man_ (release_id pid (pid_man_ c)) (set_store_ (fst (erase pidb r pid (store_ c))) c).

Lemma recv_puback_run Role now c pid :
  ready c -> 0 <= pid < 256 ^ Z.of_nat pidb -> pid ∈ pid_puback_ c ->
  let puback := v3_1_1_puback (Fixed.make_v3_puback pidb pid) in
  exists c', process_packet pidb Role now puback c =
      Return tt c' (on_packet_id_release pid :: keep_alive_events c ++ [on_receive puback]) /\
    core c' = core (after_release (set_pid_puback_ (pid_puback_ c ∖ {[pid]}) c) res_v3_1_1_puback pid).
Proof.
  intros Hr Hp Hin puback. pose proof (bool_decide_eq_true_2 _ Hin) as Hb. set (c0 := after_release _ _ _).
  assert (Hr0 : ready c0) by (destruct Hr; by constructor).
  assert (Hid : packet_id pidb puback = pid) by by apply (fixed_packet_roundtrip pidb Hpidb control_packet_type.puback 0 pid).
  destruct (accept_run c0 puback Hr0) as (c2 & Ha & Hc2). exists c2. split; [|done].
  change (keep_alive_events c0) with (keep_alive_events c) in Ha. unfold process_packet. fold puback. cbn [puback]. fold puback.
  unfold recv_puback, erase_pid, store_erase, release_id_and_notify. cbv zeta. rewrite Hid. repeat x_step. exact Ha.
Qed.

(** the state after a PUBCOMP was received *)
Definition after_pubcomp c (pid : Z) : connection M pidb :=
  set_qos2_publish_processing_ (qos2_publish_processing_ c ∖ {[pid]})
    (after_release (set_pid_pubcomp_ (pid_pubcomp_ c ∖ {[pid]}) c) res_v3_1_1_pubcomp pid).

(** the state after a PUBREC was received and answered *)
Definition after_pubrec c (pid : Z) : connection M pidb :=
  after_pubrel (set_store_ (fst (erase pidb res_v3_1_1_pubrec pid (store_ c))) (set_pid_pubrec_ (pid_pubrec_ c ∖ {[pid]}) c))
    (v3_1_1_pubrel (Fixed.make_v3_pubrel pidb pid)).

Lemma recv_pubcomp_run Role now c pid :
  ready c -> 0 <= pid < 256 ^ Z.of_nat pidb -> pid ∈ pid_pubcomp_ c ->
  let pubcomp := v3_1_1_pubcomp (Fixed.make_v3_pubcomp pidb pid) in
  exists c', process_packet pidb Role now pubcomp c =
      Return tt c' (on_packet_id_release pid :: keep_alive_events c ++ [on_receive pubcomp]) /\
    core c' = core (after_pubcomp c pid).
Proof.
  intros Hr Hp Hin pubcomp. pose proof (bool_decide_eq_true_2 _ Hin) as Hb. set (c0 := after_pubcomp c pid).
  assert (Hr0 : ready c0) by (destruct Hr; by constructor).
  assert (Hid : packet_id pidb pubcomp = pid) by by apply (fixed_packet_roundtrip pidb Hpidb control_packet_type.pubcomp 0 pid).
  destruct (accept_run c0 pubcomp Hr0) as (c2 & Ha & Hc2). exists c2. split; [|done].
  change (keep_alive_events c0) with (keep_alive_events c) in Ha. unfold process_packet. fold pubcomp. cbn [pubcomp]. fold pubcomp.
  unfold recv_pubcomp, erase_pid, store_erase, release_id_and_notify, end_processing. cbv zeta. rewrite Hid. repeat x_step. exact Ha.
Qed.

Lemma recv_pubrec_run Role now c pid :
  ready c -> 0 <= pid < 256 ^ Z.of_nat pidb -> pid ∈ pid_pubrec_ c -> is_used_id pid (pid_man_ c) = true ->
  let pubrec := v3_1_1_pubrec (Fixed.make_v3_pubrec pidb pid) in
  let pubrel := v3_1_1_pubrel (Fixed.make_v3_pubrel pidb pid) in
  exists c', process_packet pidb Role now pubrec c =
      Return tt c' (on_send pubrel None :: pingreq_send_events Role c ++ keep_alive_events c ++ [on_receive pubrec]) /\
    core c' = core (after_pubrec c pid).
Proof.
  intros Hr Hp Hin Hu pubrec pubrel. pose proof (bool_decide_eq_true_2 _ Hin) as Hb. unfold after_pubrec. set (c0 := set_store_ _ _).
  assert (Hr0 : ready c0) by (destruct Hr; by constructor).
  assert (Hid : fixed_packet_id pidb (Fixed.make_v3_pubrec pidb pid) = pid)
    by by apply (fixed_packet_roundtrip pidb Hpidb control_packet_type.pubrec 0 pid).
  assert (Hid2 : packet_id pidb pubrel = pid) by by apply (fixed_packet_roundtrip pidb Hpidb control_packet_type.pubrel 2 pid).
  destruct (pubrel_run Role now c0 (Fixed.make_v3_pubrel pidb pid) Hr0 (size_with_packet_id _ _ _ Hp)) as (c1 & Hsend & Hc1);
    [fold pubrel; by rewrite Hid2|]. fold pubrel in Hsend, Hc1.
  assert (Hr1 : ready (after_pubrel c0 pubrel)) by (destruct Hr0; by constructor).
  destruct (accept_run c1 pubrec (ready_core _ _ Hc1 Hr1)) as (c2 & Ha & Hc2). exists c2. split; [|by rewrite Hc2].
  rewrite (core_field keep_alive_events _ _ Hc1) in Ha by done.
  pose proof (ready_status _ Hr) as Hs. pose proof (ready_auto _ Hr) as Hau.
  cbn [process_packet pubrec]. unfold recv_v3_pubrec, erase_pid, store_erase, auto_response, is_connected. cbv zeta. rewrite Hid.
  repeat x_step. fold c0. fold pubrel. exact (x_call_bind _ _ _ _ _ _ _ _ _ Hsend Ha).
Qed.

(** ** The handshakes *)

(** a packet that was stored and acknowledged leaves the store as it was *)
Lemma add_erase pv e (t : store pidb) :
  make_store_packet pv = Some e -> store_ok pidb t -> key_free pidb (res_ e) (store_packet_id pidb e) (elems pidb t) = true ->
  let t' := fst (erase pidb (res_ e) (store_packet_id pidb e) (fst (add pidb pv t))) in
  store_ok pidb t' /\ elems pidb t' = elems pidb t.
Proof.
  intros He Ht Hk. cbv zeta. destruct (add_refines pidb pv t Ht) as [Hok1 Hadd].
  destruct (erase_refines pidb (res_ e) (store_packet_id pidb e) _ Hok1) as [Hok2 Herase]. split; [done|].
  unfold spec_add in Hadd. rewrite He, Hk in Hadd. injection Hadd as Hel _. unfold spec_erase in Herase.
  injection Herase as -> _. rewrite Hel, List.filter_app. cbn [List.filter].
  rewrite (proj2 (has_key_iff pidb _ _ e)) by done. cbn [negb]. rewrite app_nil_r. apply filter_all.
  intros x Hx. apply negb_true_iff, not_true_iff_false. intros Hkey. unfold key_free in Hk.
  apply negb_true_iff, not_true_iff_false in Hk. apply Hk, existsb_exists. exists x. by rewrite <- list_elem_of_In.
Qed.

Lemma add_free pv e (t : store pidb) :
  make_store_packet pv = Some e -> store_ok pidb t -> key_free pidb (res_ e) (store_packet_id pidb e) (elems pidb t) = true ->
  elems pidb (fst (add pidb pv t)) = elems pidb t ++ [e].
Proof.
  intros He Ht Hk. destruct (add_refines pidb pv t Ht) as [_ Hadd]. unfold spec_add in Hadd. rewrite He, Hk in Hadd.
  by injection Hadd.
Qed.

Lemma erase_free r pid (t : store pidb) :
  store_ok pidb t -> key_free pidb r pid (elems pidb t) = true ->
  let t' := fst (erase pidb r pid t) in store_ok pidb t' /\ elems pidb t' = elems pidb t.
Proof.
  intros Ht Hk. cbv zeta. destruct (erase_refines pidb r pid t Ht) as [Hok Herase]. split; [done|].
  unfold spec_erase in Herase. injection Herase as -> _. apply filter_all. intros x Hx. apply negb_true_iff, not_true_iff_false.
  intros Hkey. unfold key_free in Hk. apply negb_true_iff, not_true_iff_false in Hk. apply Hk, existsb_exists.
  exists x. by rewrite <- list_elem_of_In.
Qed.

(** no packet with the identifier is on its way *)
Record idle c (pid : Z) : Prop := mk_idle {
  idle_puback : pid ∉ pid_puback_ c;
  idle_pubrec : pid ∉ pid_pubrec_ c;
  idle_pubcomp : pid ∉ pid_pubcomp_ c;
  idle_processing : pid ∉ qos2_publish_processing_ c;
  idle_store : store_ok pidb (store_ c);
  idle_key r : key_free pidb r pid (elems pidb (store_ c)) = true;
}.

Lemma answer_built pid :
  0 <= pid < 256 ^ Z.of_nat pidb ->
  built pidb (v3_1_1_puback (Fixed.make_v3_puback pidb pid)) /\ built pidb (v3_1_1_pubrec (Fixed.make_v3_pubrec pidb pid)) /\
  built pidb (v3_1_1_pubrel (Fixed.make_v3_pubrel pidb pid)) /\ built pidb (v3_1_1_pubcomp (Fixed.make_v3_pubcomp pidb pid)).
Proof. intros Hp. split_and!; by exists pid. Qed.

Lemma ready_fits c pv : ready c -> packet_size pv = 2 + Z.of_nat pidb -> packet_size pv <= maximum_packet_size_recv_ c.
Proof. intros Hr ->. apply Hr. Qed.

(** a packet of the handshake, from the other connection *)
Lemma recv_ready Role now c pv c' es :
  ready c -> built pidb pv -> is_v3_1_1 pv = true -> is_connect pv || is_connack pv || is_auth pv = false ->
  packet_size pv <= maximum_packet_size_recv_ c ->
  process_packet pidb Role now (as_received pv) c = Return tt c' es ->
  recv pidb Role now (packet_bytes pidb pv) c = Return [] c' es.
Proof.
  intros Hr Hb Hv Hk Hsize Hrun. rewrite <- (app_nil_r (packet_bytes pidb pv)). apply recv_packet; try done.
  - apply Hr.
  - rewrite (ready_version _ Hr). unfold packet_version. by destruct pv.
  - apply orb_false_iff in Hk as [[Hk1 Hk2]%orb_false_iff Hk3]. unfold protocol_satisfied.
    rewrite (ready_status _ Hr). by destruct pv.
Qed.

Lemma get_qos_set_dup fh : pub.get_qos (pub.set_dup fh true) = pub.get_qos fh.
Proof.
  unfold pub.get_qos, pub.set_dup. rewrite Z.land_lor_distr_l. change (Z.land 8 6) with 0. by rewrite Z.lor_0_r.
Qed.

(** the PUBLISH is stored and acknowledged *)
Lemma publish_stored c p r pid :
  pid = V3.packet_id pidb p -> idle c pid ->
  (if pub.get_qos (v3_publish.fixed_header_ p) =? qos.at_least_once then res_v3_1_1_puback else res_v3_1_1_pubrec) = r ->
  is_qos12 (pub.get_qos (v3_publish.fixed_header_ p)) = true ->
  let t' := fst (erase pidb r pid
    (if need_store_ c then fst (add pidb (v3_1_1_publish (V3.set_dup true p)) (store_ c)) else store_ c)) in
  store_ok pidb t' /\ elems pidb t' = elems pidb (store_ c).
Proof.
  intros -> Hi <- Hq. cbv zeta. pose proof (idle_store _ _ Hi) as Ht. pose proof (idle_key _ _ Hi) as Hk.
  destruct (need_store_ c); [|by apply erase_free]. match goal with |- context[erase pidb ?x] => set (r := x) end.
  apply (add_erase (v3_1_1_publish (V3.set_dup true p)) (mk_store_packet r (stored_v3_publish (V3.set_dup true p)))); [|done..].
  unfold make_store_packet. cbn [V3.set_dup v3_publish.fixed_header_]. rewrite get_qos_set_dup. unfold is_qos12 in Hq. subst r.
  destruct (_ =? qos.at_least_once); [done|]. simpl in Hq. by rewrite Hq.
Qed.

Lemma as_received_publish p :
  exists p', as_received (v3_1_1_publish p) = v3_1_1_publish p' /\ v3_publish.fixed_header_ p' = v3_publish.fixed_header_ p /\
    v3_publish.packet_id_ p' = v3_publish.packet_id_ p.
Proof. by eexists. Qed.

Lemma publish_id_bound p : built pidb (v3_1_1_publish p) -> 0 <= V3.packet_id pidb p < 256 ^ Z.of_nat pidb.
Proof. intros (_ & _ & (Hl & _) & _). unfold V3.packet_id, load_packet_id. apply endian_load_bound. lia. Qed.

(** C20: the QoS 1 handshake, between two v3.1.1 connections that are
    connected and respond automatically.  A PUBLISH of QoS 1 and of the
    permitted size is sent with an identifier that is in use and on no other
    packet; the bytes of what one connection sends are received by the
    other.  Then the receiver delivers
    the packet and sends PUBACK, and nothing else of its state changes; the
    sender releases the identifier, and otherwise is in the state it was in
    before, but for the timers. *)
Theorem qos1_exchange RA RB now a b p :
  let pid := V3.packet_id pidb p in
  let publish := v3_1_1_publish p in
  let puback := v3_1_1_puback (Fixed.make_v3_puback pidb pid) in
  ready a -> ready b -> built pidb publish -> pub.get_qos (v3_publish.fixed_header_ p) = qos.at_least_once ->
  packet_size publish <= maximum_packet_size_send_ a -> packet_size publish <= maximum_packet_size_recv_ b ->
  is_used_id pid (pid_man_ a) = true -> idle a pid ->
  exists a1 b1 a2,
    send pidb RA now publish a =
      Return tt a1 (on_send publish (if need_store_ a then None else Some pid) :: pingreq_send_events RA a) /\
    recv pidb RB now (packet_bytes pidb publish) b =
      Return [] b1 (on_send puback None :: pingreq_send_events RB b ++ keep_alive_events b ++ [on_receive (as_received publish)]) /\
    recv pidb RA now (packet_bytes pidb puback) a1 =
      Return [] a2 (on_packet_id_release pid :: keep_alive_events a ++ [on_receive puback]) /\
    core b1 = core b /\
    core a2 = core (set_pid_man_ (release_id pid (pid_man_ a)) (set_store_ (store_ a2) a)) /\
    elems pidb (store_ a2) = elems pidb (store_ a).
Proof.
  intros pid publish puback Hra Hrb Hb Hq Hsa Hsb Hu Hi.
  pose proof (publish_id_bound p Hb) as Hp. fold pid in Hp.
  destruct (as_received_publish p) as (p' & Hp' & Hfh & Hid).
  destruct (publish_run RA now a p Hra Hsa ltac:(by rewrite Hq) Hu) as (a1 & Hsend & Hc1).
  unfold after_publish in Hc1. rewrite Hq in Hc1. change (qos.at_least_once =? qos.exactly_once) with false in Hc1.
  cbv iota zeta in Hc1. assert (Hr1 : ready a1) by (apply (ready_core _ _ Hc1); destruct Hra; by constructor).
  assert (Hpid' : V3.packet_id pidb p' = pid) by (unfold V3.packet_id; by rewrite Hid).
  destruct (recv_publish_qos1 RB now b p' Hrb) as (b1 & Hrecv & Hcb); [by rewrite Hfh | by rewrite Hpid'|].
  rewrite Hpid' in Hrecv. destruct (answer_built pid Hp) as (Hbuilt & _).
  destruct (recv_puback_run RA now a1 pid Hr1 Hp) as (a2 & Hack & Hc2).
  { rewrite (core_field pid_puback_ _ _ Hc1) by done. simpl. set_solver. }
  exists a1, b1, a2. split; [exact Hsend|]. split.
  { fold publish in Hp'. rewrite Hp' in *. apply recv_ready; try done. by rewrite Hp'. }
  split.
  { rewrite (core_field keep_alive_events _ _ Hc1) in Hack by done. apply recv_ready; try done.
    exact (ready_fits _ puback Hr1 (size_with_packet_id _ _ _ Hp)). }
  split; [done|]. set (t2 := fst (erase pidb res_v3_1_1_puback pid
    (if need_store_ a then fst (add pidb (v3_1_1_publish (V3.set_dup true p)) (store_ a)) else store_ a))).
  assert (Hset : ({[pid]} ∪ pid_puback_ a) ∖ {[pid]} = pid_puback_ a) by (pose proof (idle_puback _ _ Hi); set_solver).
  assert (Hc : core a2 = core (set_pid_man_ (release_id pid (pid_man_ a)) (set_store_ t2 a))).
  { rewrite Hc2, (core_map (fun c => after_release (set_pid_puback_ (pid_puback_ c ∖ {[pid]}) c) res_v3_1_1_puback pid) _ _ Hc1) by done.
    transitivity (core (set_pid_puback_ (({[pid]} ∪ pid_puback_ a) ∖ {[pid]}) (set_pid_man_ (release_id pid (pid_man_ a)) (set_store_ t2 a))));
      [reflexivity | by rewrite Hset]. }
  assert (store_ a2 = t2) as -> by by rewrite (core_field store_ _ _ Hc). split; [exact Hc|].
  apply publish_stored; [done | done | by rewrite Hq | by rewrite Hq].
Qed.

(** the store after the PUBREL, which takes the place of the PUBLISH, was
    acknowledged too *)
Lemma pubrel_stored c p pid :
  pid = V3.packet_id pidb p -> 0 <= pid < 256 ^ Z.of_nat pidb -> idle c pid ->
  pub.get_qos (v3_publish.fixed_header_ p) = qos.exactly_once ->
  let pubrel := v3_1_1_pubrel (Fixed.make_v3_pubrel pidb pid) in
  let keep pv t := if need_store_ c then fst (add pidb pv t) else t in
  let t2 := fst (erase pidb res_v3_1_1_pubrec pid (keep (v3_1_1_publish (V3.set_dup true p)) (store_ c))) in
  elems pidb (fst (erase pidb res_v3_1_1_pubcomp pid (keep pubrel t2))) = elems pidb (store_ c).
Proof.
  intros Hid Hp Hi Hq pubrel keep t2.
  destruct (publish_stored c p res_v3_1_1_pubrec pid Hid Hi ltac:(by rewrite Hq) ltac:(by rewrite Hq)) as [Hok Hel].
  fold (keep (v3_1_1_publish (V3.set_dup true p)) (store_ c)) in Hok, Hel. fold t2 in Hok, Hel. rewrite <- Hel.
  assert (Hk : key_free pidb res_v3_1_1_pubcomp pid (elems pidb t2) = true) by (rewrite Hel; apply Hi).
  unfold keep. destruct (need_store_ c); [|by apply erase_free].
  pose (e := mk_store_packet res_v3_1_1_pubcomp (stored_v3_pubrel (Fixed.make_v3_pubrel pidb pid))).
  assert (Hkey : store_packet_id pidb e = pid) by by apply (fixed_packet_roundtrip pidb Hpidb control_packet_type.pubrel 2 pid).
  pose proof (add_erase pubrel e t2 eq_refl Hok) as H. rewrite Hkey in H. by apply H.
Qed.

(** the sender, after the three packets it sent and received *)
Lemma sender_restored a p pid a1 a2 a3 :
  pid = V3.packet_id pidb p -> 0 <= pid < 256 ^ Z.of_nat pidb -> idle a pid ->
  pub.get_qos (v3_publish.fixed_header_ p) = qos.exactly_once ->
  core a1 = core (after_publish a p) -> core a2 = core (after_pubrec a1 pid) -> core a3 = core (after_pubcomp a2 pid) ->
  core a3 = core (set_pid_man_ (release_id pid (pid_man_ a)) (set_store_ (store_ a3) a)) /\
  elems pidb (store_ a3) = elems pidb (store_ a).
Proof.
  intros Hid Hp Hi Hq Hc1 Hc2 Hc3. pose proof (pubrel_stored a p pid Hid Hp Hi Hq) as Hel. cbv zeta in Hel.
  match type of Hel with elems _ ?t = _ => set (t3 := t) in Hel end.
  assert (Hpid : packet_id pidb (v3_1_1_pubrel (Fixed.make_v3_pubrel pidb pid)) = pid)
    by by apply (fixed_packet_roundtrip pidb Hpidb control_packet_type.pubrel 2 pid).
  assert (Hset : forall X : gset Z, pid ∉ X -> ({[pid]} ∪ X) ∖ {[pid]} = X) by set_solver.
  assert (Hc : core a3 = core (set_pid_man_ (release_id pid (pid_man_ a)) (set_store_ t3 a))).
  { rewrite Hc3, (core_map (fun c => after_pubcomp c pid) _ _ Hc2) by done. cbv beta.
    rewrite (core_map (fun c => after_pubcomp (after_pubrec c pid) pid) _ _ Hc1) by done. cbv beta.
    unfold after_publish. rewrite Hq. change (qos.exactly_once =? qos.exactly_once) with true. cbv iota zeta. rewrite <- Hid.
    transitivity (core (set_qos2_publish_processing_ (({[pid]} ∪ qos2_publish_processing_ a) ∖ {[pid]})
      (set_pid_pubcomp_ (({[packet_id pidb (v3_1_1_pubrel (Fixed.make_v3_pubrel pidb pid))]} ∪ pid_pubcomp_ a) ∖ {[pid]})
      (set_pid_pubrec_ (({[pid]} ∪ pid_pubrec_ a) ∖ {[pid]}) (set_pid_man_ (release_id pid (pid_man_ a)) (set_store_ t3 a))))));
      [reflexivity|]. by rewrite Hpid, !Hset by apply Hi. }
  assert (store_ a3 = t3) as -> by by rewrite (core_field store_ _ _ Hc). by split.
Qed.

(** what the sender keeps: first the PUBLISH with the DUP flag, and from the
    PUBREC on the PUBREL in its place *)
Definition kept c (e : store_packet_variant) : list store_packet_variant :=
  elems pidb (store_ c) ++ (if need_store_ c then [e] else []).

Lemma publish_kept a p pid a1 :
  pid = V3.packet_id pidb p -> idle a pid -> pub.get_qos (v3_publish.fixed_header_ p) = qos.exactly_once ->
  core a1 = core (after_publish a p) ->
  elems pidb (store_ a1) = kept a (mk_store_packet res_v3_1_1_pubrec (stored_v3_publish (V3.set_dup true p))) /\
  pid_pubrec_ a1 = {[pid]} ∪ pid_pubrec_ a.
Proof.
  intros -> Hi Hq Hc. rewrite (core_field store_ _ _ Hc), (core_field pid_pubrec_ _ _ Hc) by done.
  unfold after_publish, kept. rewrite Hq. cbv zeta. split; [|done].
  change (qos.exactly_once =? qos.exactly_once) with true. cbn [store_ set_qos2_publish_processing_ set_pid_pubrec_ set_store_ need_store_].
  destruct (need_store_ a); [|by rewrite app_nil_r]. apply (add_free _ (mk_store_packet res_v3_1_1_pubrec _)); [|apply Hi | apply Hi].
  unfold make_store_packet. cbn [V3.set_dup v3_publish.fixed_header_]. by rewrite get_qos_set_dup, Hq.
Qed.

Lemma pubrel_kept a p pid a1 a2 :
  pid = V3.packet_id pidb p -> 0 <= pid < 256 ^ Z.of_nat pidb -> idle a pid ->
  pub.get_qos (v3_publish.fixed_header_ p) = qos.exactly_once ->
  core a1 = core (after_publish a p) -> core a2 = core (after_pubrec a1 pid) ->
  elems pidb (store_ a2) = kept a (mk_store_packet res_v3_1_1_pubcomp (stored_v3_pubrel (Fixed.make_v3_pubrel pidb pid))) /\
  pid_pubrec_ a2 = pid_pubrec_ a /\ pid_pubcomp_ a2 = {[pid]} ∪ pid_pubcomp_ a.
Proof.
  intros Hid Hp Hi Hq Hc1 Hc2.
  assert (Hpid : packet_id pidb (v3_1_1_pubrel (Fixed.make_v3_pubrel pidb pid)) = pid)
    by by apply (fixed_packet_roundtrip pidb Hpidb control_packet_type.pubrel 2 pid).
  assert (Hset : ({[pid]} ∪ pid_pubrec_ a) ∖ {[pid]} = pid_pubrec_ a) by (pose proof (idle_pubrec _ _ Hi); set_solver).
  assert (Hc : core a2 = core (after_pubrec (after_publish a p) pid))
    by by rewrite Hc2, (core_map (fun c => after_pubrec c pid) _ _ Hc1).
  rewrite (core_field store_ _ _ Hc), (core_field pid_pubrec_ _ _ Hc), (core_field pid_pubcomp_ _ _ Hc) by done.
  destruct (publish_stored a p res_v3_1_1_pubrec pid Hid Hi ltac:(by rewrite Hq) ltac:(by rewrite Hq)) as [Hok Hel].
  unfold after_publish, kept. rewrite Hq, <- Hid. change (qos.exactly_once =? qos.exactly_once) with true. cbv iota zeta.
  split; [|split; [exact Hset|];
    transitivity ({[packet_id pidb (v3_1_1_pubrel (Fixed.make_v3_pubrel pidb pid))]} ∪ pid_pubcomp_ a); [done | by rewrite Hpid]].
  cbn [after_pubrec after_pubrel store_ set_pid_pubcomp_ set_store_ set_qos2_publish_processing_ set_pid_pubrec_ need_store_].
  pose (e := mk_store_packet res_v3_1_1_pubcomp (stored_v3_pubrel (Fixed.make_v3_pubrel pidb pid))).
  assert (Hkey : store_packet_id pidb e = pid) by exact Hpid.
  rewrite <- Hel at 1. destruct (need_store_ a) eqn:Hn; [|by rewrite app_nil_r].
  apply (add_free _ e); [done | done|]. rewrite Hel, Hkey. apply Hi.
Qed.

(** C19: the QoS 2 handshake, between two v3.1.1 connections that are
    connected and respond automatically.  A PUBLISH of QoS 2 and of the
    permitted size is sent with an identifier that is in use and on no other
    packet, and that the receiver is not handling; the bytes of what one
    connection sends are received by the other.  Then the packet is stored
    with the DUP flag when the session is kept, and waits for PUBREC; it is
    delivered once, with the PUBREC that answers it, and the receiver
    remembers its identifier; the PUBREL the sender answers with takes the
    place of the PUBLISH in its store and waits for PUBCOMP; and when the
    PUBCOMP arrives the identifier is released once.  In the end the
    receiver and the sender are in the states they were in before, but for
    the identifier released and the timers. *)
Theorem qos2_exchange RA RB now a b p :
  let pid := V3.packet_id pidb p in
  let publish := v3_1_1_publish p in
  let pubrec := v3_1_1_pubrec (Fixed.make_v3_pubrec pidb pid) in
  let pubrel := v3_1_1_pubrel (Fixed.make_v3_pubrel pidb pid) in
  let pubcomp := v3_1_1_pubcomp (Fixed.make_v3_pubcomp pidb pid) in
  ready a -> ready b -> built pidb publish -> pub.get_qos (v3_publish.fixed_header_ p) = qos.exactly_once ->
  packet_size publish <= maximum_packet_size_send_ a -> packet_size publish <= maximum_packet_size_recv_ b ->
  is_used_id pid (pid_man_ a) = true -> idle a pid -> pid ∉ qos2_publish_handled_ b ->
  exists a1 b1 a2 b2 a3,
    send pidb RA now publish a =
      Return tt a1 (on_send publish (if need_store_ a then None else Some pid) :: pingreq_send_events RA a) /\
    recv pidb RB now (packet_bytes pidb publish) b =
      Return [] b1 (on_send pubrec None :: pingreq_send_events RB b ++ keep_alive_events b ++ [on_receive (as_received publish)]) /\
    recv pidb RA now (packet_bytes pidb pubrec) a1 =
      Return [] a2 (on_send pubrel None :: pingreq_send_events RA a ++ keep_alive_events a ++ [on_receive pubrec]) /\
    recv pidb RB now (packet_bytes pidb pubrel) b1 =
      Return [] b2 (on_send pubcomp None :: pingreq_send_events RB b ++ keep_alive_events b ++ [on_receive pubrel]) /\
    recv pidb RA now (packet_bytes pidb pubcomp) a2 =
      Return [] a3 (on_packet_id_release pid :: keep_alive_events a ++ [on_receive pubcomp]) /\
    elems pidb (store_ a1) = kept a (mk_store_packet res_v3_1_1_pubrec (stored_v3_publish (V3.set_dup true p))) /\
    pid_pubrec_ a1 = {[pid]} ∪ pid_pubrec_ a /\ qos2_publish_handled_ b1 = {[pid]} ∪ qos2_publish_handled_ b /\
    elems pidb (store_ a2) = kept a (mk_store_packet res_v3_1_1_pubcomp (stored_v3_pubrel (Fixed.make_v3_pubrel pidb pid))) /\
    pid_pubrec_ a2 = pid_pubrec_ a /\ pid_pubcomp_ a2 = {[pid]} ∪ pid_pubcomp_ a /\
    core b2 = core b /\
    core a3 = core (set_pid_man_ (release_id pid (pid_man_ a)) (set_store_ (store_ a3) a)) /\
    elems pidb (store_ a3) = elems pidb (store_ a).
Proof.
  intros pid publish pubrec pubrel pubcomp Hra Hrb Hb Hq Hsa Hsb Hu Hi Hn.
  pose proof (publish_id_bound p Hb) as Hp. fold pid in Hp. destruct (as_received_publish p) as (p' & Hp' & Hfh & Hid).
  destruct (publish_run RA now a p Hra Hsa ltac:(by rewrite Hq) Hu) as (a1 & Hsend & Hc1).
  assert (Hr1 : ready a1).
  { apply (ready_core _ _ Hc1). unfold after_publish. rewrite Hq. destruct Hra; by constructor. }
  assert (Hk1 : pid_pubrec_ a1 = {[pid]} ∪ pid_pubrec_ a /\ pid_man_ a1 = pid_man_ a /\
    pingreq_send_events RA a1 = pingreq_send_events RA a /\ keep_alive_events a1 = keep_alive_events a).
  { rewrite (core_field pid_pubrec_ _ _ Hc1), (core_field pid_man_ _ _ Hc1), (core_field (pingreq_send_events RA) _ _ Hc1),
      (core_field keep_alive_events _ _ Hc1) by done. unfold after_publish. by rewrite Hq. }
  destruct Hk1 as (Hw1 & Hm1 & He1 & Hka1).
  assert (Hpid' : V3.packet_id pidb p' = pid) by (unfold V3.packet_id; by rewrite Hid).
  destruct (recv_publish_qos2 RB now b p' Hrb) as (b1 & Hrecv & Hcb1); [by rewrite Hfh | by rewrite Hpid' | by rewrite Hpid'|].
  rewrite Hpid' in Hrecv, Hcb1. assert (Hrb1 : ready b1) by (apply (ready_core _ _ Hcb1); destruct Hrb; by constructor).
  destruct (recv_pubrec_run RA now a1 pid Hr1 Hp) as (a2 & Hrec & Hc2); [rewrite Hw1; set_solver | by rewrite Hm1|].
  rewrite He1, Hka1 in Hrec. fold pubrec pubrel in Hrec.
  assert (Hr2 : ready a2) by (apply (ready_core _ _ Hc2); destruct Hr1; by constructor).
  destruct (recv_pubrel_run RB now b1 pid Hrb1 Hp) as (b2 & Hrel & Hcb2). fold pubrel pubcomp in Hrel.
  rewrite (core_field keep_alive_events _ _ Hcb1), (core_field (pingreq_send_events RB) _ _ Hcb1) in Hrel by done.
  assert (Hid2 : packet_id pidb pubrel = pid) by by apply (fixed_packet_roundtrip pidb Hpidb control_packet_type.pubrel 2 pid).
  destruct (recv_pubcomp_run RA now a2 pid Hr2 Hp) as (a3 & Hcomp & Hc3).
  { rewrite (core_field pid_pubcomp_ _ _ Hc2) by done. unfold after_pubrec, after_pubrel. fold pubrel. rewrite Hid2. simpl. set_solver. }
  assert (Hka2 : keep_alive_events a2 = keep_alive_events a) by by rewrite (core_field keep_alive_events _ _ Hc2).
  rewrite Hka2 in Hcomp. destruct (answer_built pid Hp) as (_ & Hb1 & Hb2 & Hb3).
  exists a1, b1, a2, b2, a3. split_and!.
  - exact Hsend.
  - fold publish in Hp'. rewrite Hp' in *. apply recv_ready; try done. by rewrite Hp'.
  - apply recv_ready; try done. exact (ready_fits _ pubrec Hr1 (size_with_packet_id _ _ _ Hp)).
  - apply recv_ready; try done. exact (ready_fits _ pubrel Hrb1 (size_with_packet_id _ _ _ Hp)).
  - apply recv_ready; try done. exact (ready_fits _ pubcomp Hr2 (size_with_packet_id _ _ _ Hp)).
  - by apply (publish_kept a p pid a1).
  - exact Hw1.
  - by rewrite (core_field qos2_publish_handled_ _ _ Hcb1).
  - by apply (pubrel_kept a p pid a1 a2).
  - by apply (pubrel_kept a p pid a1 a2).
  - by apply (pubrel_kept a p pid a1 a2).
  - rewrite Hcb2, (core_map (fun c => set_qos2_publish_handled_ (qos2_publish_handled_ c ∖ {[pid]}) c) _ _ Hcb1) by done. cbv beta.
    transitivity (core (set_qos2_publish_handled_ (({[pid]} ∪ qos2_publish_handled_ b) ∖ {[pid]}) b)); [reflexivity|].
    assert (({[pid]} ∪ qos2_publish_handled_ b) ∖ {[pid]} = qos2_publish_handled_ b) as -> by set_solver. by destruct b.
  - by apply (sender_restored a p pid a1 a2 a3).
  - by apply (sender_restored a p pid a1 a2 a3).
Qed.
End exchange.
