(* ===== verification/ConnectionExamples.v ===== *)
(** * The connection: the theorems at concrete connections

    Packet identifiers of two bytes, the list model of the multi index
    containers and the value allocator. *)
From stdpp Require Import sorting.
From S2P Require Import PacketBuilder.
From S2P Require Import Prelude Boost Wire Error Property Packet PublishPacket ControlPacket ValueAllocator.
From S2P Require Import PacketIdManager TopicAlias Store ConnectionState BufferToPacket ConnectionSend ConnectionRecv.
From S2P Require Import ConnectionLogic ConnectionInvariant ConnectionTimers ConnectionStatus ConnectionProtocol.
From S2P Require Import ConnectionBehaviour ConnectionSession ReadBounds ConnectionTotal ConnectionExchange.

#[local] Existing Instances BigEndian.big_endian BigEndian.big_endian_ok ListMultiIndex.list_multi_index
  ListMultiIndex.list_multi_index_ok.
#[local] Instance manager16 : PacketIdManager packet_id_manager := allocator_manager 16.
#[local] Instance manager16_ok : PacketIdManagerOk packet_id_manager (max_packet_id 16) := allocator_manager_ok 16 ltac:(lia).

Abbreviation conn := (connection packet_id_manager 2).

(** connections in the state that is needed *)
Definition connected_with (ver : protocol_version.t) : conn :=
  set_status_ connection_status.connected (make_connection ver).

Definition pid7 : list byte := [x00; x07].

(** 7 is registered *)
Definition registered : conn := set_pid_man_ (snd (register_id 7 pm_new)) (make_connection protocol_version.v5).

Lemma connection_invariant_witness :
  is_used_id 7 (pid_man_ registered) = true /\ connection_ok (max := max_packet_id 16) registered.
Proof.
  split; [reflexivity|].
  apply (connection_invariant (pidb := 2) (max := max_packet_id 16) role.client ltac:(lia) ltac:(done) protocol_version.v5 [] registered).
  apply (reachable_step _ _ [] [] (make_connection protocol_version.v5)); [constructor|].
  by apply (step_return _ (call_register_packet_id 7)).
Defined.

(** a CONNECT that ends with the protocol name, on a new connection of a server *)
Definition short_connect : list byte := [x10; x06; x00; x04; x4d; x51; x54; x54].


Lemma timers_mirror_witness :
  timer_flags (set_pingreq_send_set_ true (set_pingreq_send_interval_ms_ (Some 5000) (make_connection protocol_version.v5 : conn))) =
  mk_timers true false false.
Proof.
  rewrite (timers_mirror role.client (call_set_pingreq_send_interval 5000) (make_connection protocol_version.v5) _
    [on_timer_op timer_op.reset timer_kind.pingreq_send (Some 5000)]); [reflexivity | left; reflexivity].
Defined.

Lemma send_not_allowed_witness :
  send 2 role.client 0 (v3_1_1_pingreq Fixed.make_v3_pingreq) (make_connection protocol_version.v3_1_1 : conn) =
  Return tt (make_connection protocol_version.v3_1_1) [on_error not_allowed_to_send].
Proof. apply send_not_allowed. reflexivity. Defined.

Definition pubrel7 : packet_variant := v3_1_1_pubrel (Fixed.make_v3_pubrel 2 7).

Lemma send_too_large_witness :
  let c : conn := set_maximum_packet_size_send_ 3 (connected_with protocol_version.v3_1_1) in
  send 2 role.client 0 pubrel7 c =
  Return tt (set_pid_man_ (release_id 7 (pid_man_ c)) c) [on_error not_allowed_to_send; on_packet_id_release 7].
Proof. cbv zeta. rewrite send_too_large; [reflexivity | reflexivity | by vm_compute]. Defined.

Lemma send_status_witness :
  let c : conn := connected_with protocol_version.v3_1_1 in
  exists c' es, send 2 role.client 0 (v3_1_1_disconnect Fixed.make_v3_disconnect) c = Return tt c' es /\
    status_ c' = connection_status.disconnected.
Proof.
  eexists _, _. split; [reflexivity|].
  rewrite (send_status role.client (connected_with protocol_version.v3_1_1 : conn) 0
    (v3_1_1_disconnect Fixed.make_v3_disconnect) _ _ (or_introl eq_refl)).
  reflexivity.
Defined.

(** a QoS 2 PUBLISH with the identifier 7, and the same again *)
Definition publish_bytes : list byte := [x34; x07; x00; x01; x61; x00; x07; x68; x69].

Definition run_recv (stream : list byte) (c : conn) : outcome packet_id_manager 2 (list byte) :=
  recv 2 role.client 0 stream c.

Definition state_of {A} (o : outcome packet_id_manager 2 A) (c : conn) : conn :=
  match o with Return _ c' _ | Throw _ c' _ => c' | Undefined => c end.
Definition events_of {A} (o : outcome packet_id_manager 2 A) : list event :=
  match o with Return _ _ es | Throw _ _ es => es | Undefined => [] end.

Definition first_publish : conn := connected_with protocol_version.v3_1_1.
Definition second_publish : conn := state_of (run_recv publish_bytes first_publish) first_publish.
Definition twice : list event :=
  events_of (run_recv publish_bytes first_publish) ++ events_of (run_recv publish_bytes second_publish) ++ [].

Lemma qos2_delivered_once_witness : deliveries (pidb := 2) 7 twice = 1%nat.
Proof.
  assert (H : (deliveries (pidb := 2) 7 twice <= 1)%nat).
  { eapply (qos2_delivered_once role.client 7 first_publish twice).
    eapply receiving_cons with (now := 0) (stream := publish_bytes) (c1 := second_publish) (rest := []).
    - intros pv Hpv. vm_compute in Hpv. by injection Hpv as <-.
    - vm_compute. reflexivity.
    - eapply receiving_cons with (now := 0) (stream := publish_bytes) (rest := []); [| vm_compute; reflexivity | constructor].
      intros pv Hpv. vm_compute in Hpv. by injection Hpv as <-. }
  assert (H1 : (1 <= deliveries (pidb := 2) 7 twice)%nat) by (apply Nat.leb_le; vm_compute; reflexivity).
  lia.
Defined.

Lemma receive_quota_kept_witness :
  quota_ok second_publish.
Proof.
  apply (receive_quota_kept role.client 0 publish_bytes first_publish second_publish
    (events_of (run_recv publish_bytes first_publish)) []); [by intros n Hn | vm_compute; reflexivity].
Defined.

(** 7 waits for PUBACK *)
Definition waiting7 : conn := set_pid_puback_ {[7]} (set_pid_man_ (pid_man_ registered) (connected_with protocol_version.v3_1_1)).
Definition puback7 : packet_variant := v3_1_1_puback (Fixed.make_v3_puback 2 7).


(** 7 is in use *)
Definition using7 (ver : protocol_version.t) : conn := set_pid_man_ (pid_man_ registered) (connected_with ver).

Lemma send_v3_publish_qos12_witness :
  exists c', send 2 role.client 0 (v3_1_1_publish example_v3) (using7 protocol_version.v3_1_1) =
      Return tt c' [on_send (v3_1_1_publish example_v3) (Some 7)] /\ pid_puback_ c' = {[7]}.
Proof.
  pose proof (send_v3_publish_qos12 role.client 0 (using7 protocol_version.v3_1_1) example_v3 eq_refl eq_refl
    ltac:(by vm_compute) eq_refl) as H.
  destruct H as (c' & Hr & _ & Hp & _). exists c'. split; [exact Hr|]. rewrite Hp. by vm_compute.
Defined.

(** the peer's receive maximum is reached *)
Definition quota_full : conn :=
  set_need_store_ true (set_publish_send_max_ (Some 1) (set_publish_send_count_ 1 (using7 protocol_version.v5))).

Lemma send_v5_publish_qos12_witness :
  exists c', send 2 role.client 0 (v5_publish example_v5) quota_full =
      Return tt c' [on_error (disconnect_ec disconnect_reason_code.receive_maximum_exceeded); on_packet_id_release 7] /\
    map (store_packet_id 2) (get_stored_packets 2 c') = [7] /\ is_used_id 7 (pid_man_ c') = false.
Proof.
  destruct (send_v5_publish_qos12 role.client 0 quota_full example_v5 example_v5 eq_refl eq_refl
    ltac:(by vm_compute) eq_refl eq_refl eq_refl ltac:(done) eq_refl eq_refl eq_refl eq_refl ltac:(vm_compute; reflexivity))
    as (c' & Hr & Hs & _ & _ & Hm & _).
  exists c'. split; [exact Hr|]. unfold get_stored_packets. rewrite Hs, Hm. split; vm_compute; reflexivity.
Defined.

(** 7 is in the session the CONNACK resumes *)
Definition resuming : conn :=
  set_status_ connection_status.connecting (set_pid_puback_ {[7]} (using7 protocol_version.v5)).
Definition connack_receive_maximum : v5_connack.connack_packet :=
  match Connack.make_v5_connack true 0 [receive_maximum [x00; x0a]] with
  | Ok p => p
  | _ => Connack.make_v5_connack_code false 0
  end.
Definition resumed : conn := state_of (recv_v5_connack 2 role.client connack_receive_maximum resuming) resuming.

Lemma resumed_publish_not_counted_witness :
  exists c2 es2, process_packet 2 role.client 0 (v5_puback (Ack.make_ack_id 2 puback_class 7)) resumed = Return tt c2 es2 /\
    publish_send_count_ c2 = 65535 /\ get_receive_maximum_vacancy_for_send 2 c2 = Some (2 ^ 64 - 65525).
Proof.
  destruct (resumed_publish_not_counted role.client 0 resuming connack_receive_maximum resumed
    (events_of (recv_v5_connack 2 role.client connack_receive_maximum resuming)) (Ack.make_ack_id 2 puback_class 7) 10)
    as (c2 & es2 & H).
  - reflexivity.
  - vm_compute. reflexivity.
  - vm_compute. reflexivity.
  - vm_compute. reflexivity.
  - vm_compute. reflexivity.
  - lia.
  - exists c2, es2. exact H.
Defined.

(** a server about to answer a CONNECT, with a PUBLISH of the session *)
Definition answering : conn :=
  set_status_ connection_status.connecting
    (set_store_ (fst (add 2 (v3_1_1_publish example_v3) (empty_store 2))) (make_connection protocol_version.v3_1_1)).

Lemma send_v3_connack_witness :
  let refuse := v3_1_1_connack (Fixed.make_v3_connack false 2) in
  exists c', send 2 role.server 0 refuse answering =
      Return tt c' [on_send refuse None; on_send (v3_1_1_publish example_v3) None] /\
    status_ c' = connection_status.disconnected.
Proof.
  cbv zeta.
  destruct (send_v3_connack role.server 0 answering (Fixed.make_v3_connack false 2)) as (c' & Hr & Hs & _).
  - reflexivity.
  - reflexivity.
  - reflexivity.
  - by vm_compute.
  - intros e He. change (get_stored_packets 2 answering) with [mk_store_packet res_v3_1_1_puback (stored_v3_publish example_v3)] in He.
    apply list_elem_of_singleton in He as ->. by vm_compute.
  - exists c'. split; [exact Hr | exact Hs].
Defined.


(** 7 waits for SUBACK *)
Definition subscribing : conn := set_pid_suback_ {[7]} registered.

Lemma subscribing_ok : connection_ok (max := max_packet_id 16) subscribing.
Proof.
  destruct (make_connection_ok (M := packet_id_manager) (pidb := 2) (max := max_packet_id 16) ltac:(lia) ltac:(done) protocol_version.v5) as [Hm Hs Hu Ha Hr Hc Ht Hal Has Hn Hb].
  constructor; try done.
  - by apply register_id_spec.
  - intros pid Hp. change (pid ∈ ({[7]} : gset Z)) in Hp. apply elem_of_singleton in Hp as ->. by vm_compute.
Qed.

Lemma notify_closed_releases_witness :
  exists c', notify_closed 2 subscribing = Return tt c' [on_packet_id_release 7] /\ is_used_id 7 (pid_man_ c') = false.
Proof.
  destruct (notify_closed_releases (max := max_packet_id 16) subscribing subscribing_ok) as (c' & es & Hr & [_ Hrel] & _).
  assert (Hes : es = [on_packet_id_release 7]) by (vm_compute in Hr; by injection Hr as <- <-).
  exists c'. rewrite Hr, Hes. split; [done|]. rewrite (proj1 (Hrel 7)). by vm_compute.
Defined.


(** ** Two connections *)

(** 7 is in use on the sender, which stores its packets *)
Definition sender : conn := set_need_store_ true (set_auto_pub_response_ true (using7 protocol_version.v3_1_1)).
Definition receiver : conn := set_auto_pub_response_ true (connected_with protocol_version.v3_1_1).

Lemma sender_ready : ready sender.
Proof. by constructor. Qed.

Lemma receiver_ready : ready receiver.
Proof. by constructor. Qed.

Lemma sender_idle : idle sender 7.
Proof. constructor; try done. apply empty_store_ok. Qed.

(** the PUBLISH of [example_v3] with QoS 2 *)
Definition example_qos2 : v3_publish.publish_packet :=
  v3_publish.mk_publish 0x34 [x61] [x00; x01] [x00; x07] [[x68]; [x69]] 7 [x07].

Lemma example_qos2_ok : v3_publish_ok 2 example_qos2.
Proof.
  split; [by vm_compute|]. split; [by vm_compute|]. split; [by vm_compute|]. split; [done|]. split; [by vm_compute|done].
Qed.

Lemma qos1_exchange_witness :
  exists a1 b1 a2 : conn, exists es,
    send 2 role.client 0 (v3_1_1_publish example_v3) sender = Return tt a1 [on_send (v3_1_1_publish example_v3) None] /\
    recv 2 role.server 0 (packet_bytes 2 (v3_1_1_publish example_v3)) receiver = Return [] b1 (on_send puback7 None :: es) /\
    recv 2 role.client 0 (packet_bytes 2 puback7) a1 = Return [] a2 [on_packet_id_release 7; on_receive puback7].
Proof.
  destruct (qos1_exchange (pidb := 2) ltac:(lia) role.client role.server 0 sender receiver example_v3)
    as (a1 & b1 & a2 & Hs & Hr & Ha & _).
  - apply sender_ready.
  - apply receiver_ready.
  - apply example_v3_ok.
  - reflexivity.
  - by vm_compute.
  - by vm_compute.
  - reflexivity.
  - apply sender_idle.
  - exists a1, b1, a2. eexists. split; [exact Hs|]. split; [exact Hr | exact Ha].
Defined.

Lemma qos2_exchange_witness :
  let pubcomp7 := v3_1_1_pubcomp (Fixed.make_v3_pubcomp 2 7) in
  exists a1 b1 a2 b2 a3 : conn, exists es,
    send 2 role.client 0 (v3_1_1_publish example_qos2) sender = Return tt a1 [on_send (v3_1_1_publish example_qos2) None] /\
    recv 2 role.server 0 (packet_bytes 2 (v3_1_1_publish example_qos2)) receiver = Return [] b1 es /\
    recv 2 role.server 0 (packet_bytes 2 pubrel7) b1 = Return [] b2 [on_send pubcomp7 None; on_receive pubrel7] /\
    recv 2 role.client 0 (packet_bytes 2 pubcomp7) a2 = Return [] a3 [on_packet_id_release 7; on_receive pubcomp7].
Proof.
  cbv zeta.
  destruct (qos2_exchange (pidb := 2) ltac:(lia) role.client role.server 0 sender receiver example_qos2)
    as (a1 & b1 & a2 & b2 & a3 & Hs & Hr & _ & Hl & Ha & _).
  - apply sender_ready.
  - apply receiver_ready.
  - apply example_qos2_ok.
  - reflexivity.
  - by vm_compute.
  - by vm_compute.
  - reflexivity.
  - apply sender_idle.
  - intros H. by apply elem_of_empty in H.
  - exists a1, b1, a2, b2, a3. eexists. split; [exact Hs|]. split; [exact Hr|]. split; [exact Hl | exact Ha].
Defined.
