(* ===== verification/RvConnection.v ===== *)
(** * Events as a returned list: protocol/rv_connection.hpp

    [basic_rv_connection] derives from the connection and overrides its
    callbacks: each one puts an event into a vector, and the calls that can
    make callbacks return the vector.  The event types are those of
    protocol/event/. *)
From S2P Require Import PacketBuilder.
From S2P Require Import Prelude Boost Error Packet PacketIdManager Store ConnectionState BufferToPacket ConnectionSend ConnectionRecv.
From S2P Require Import ConnectionLogic ConnectionInvariant.

(** ** Events *)

Record event_send := mk_event_send {
  packet_ : packet_variant;
  release_packet_id_if_send_error_ : option Z;
}.

Record event_timer := mk_event_timer {
  op_ : timer_op.t;
  kind_ : timer_kind.t;
  ms_ : option Z;
}.

(** [std::variant]: the alternatives in their order *)
Inductive event_variant :=
| ev_error_code (ec : error_code)
| ev_send (e : event_send)
| ev_packet_id_released (packet_id : Z)
| ev_packet_received (packet : packet_variant)
| ev_timer (e : event_timer)
| ev_close.

Definition is_error (ev : event_variant) : bool := match ev with ev_error_code _ => true | _ => false end.

(** the overridden callbacks, by what they put into [events_] *)
Definition emplaced (e : event) : event_variant :=
  match e with
  | on_error ec => ev_error_code ec
  | on_send packet release => ev_send (mk_event_send packet release)
  | on_packet_id_release packet_id => ev_packet_id_released packet_id
  | on_receive packet => ev_packet_received packet
  | on_timer_op op kind ms => ev_timer (mk_event_timer op kind ms)
  | on_close => ev_close
  end.

Section rv_connection.
Context {M : Type} {PM : PacketIdManager M} {BE : BoostEndian} {BMI : BoostMultiIndex}.
Variables (pidb : nat) (Role : role.t).

Record rv_connection := mk_rv_connection {
  base_type : connection M pidb;
  events_ : list event_variant;
}.

Definition make_rv_connection (ver : protocol_version.t) : rv_connection := mk_rv_connection (make_connection ver) [].

Inductive rv_outcome (A : Type) :=
| RvReturn (a : A) (r : rv_connection)
| RvThrow (ec : error_code) (r : rv_connection)
| RvUndefined.
Arguments RvReturn {A} a r.
Arguments RvThrow {A} ec r.
Arguments RvUndefined {A}.

Definition rv_program (A : Type) : Type := rv_connection -> rv_outcome A.

(** a member function of the base class: its callbacks fill the vector *)
Definition base {A} (p : prog M pidb A) : rv_program A := fun r =>
  match p (base_type r) with
  | Return a c es => RvReturn a (mk_rv_connection c (events_ r ++ map emplaced es))
  | Throw ec c es => RvThrow ec (mk_rv_connection c (events_ r ++ map emplaced es))
  | Undefined => RvUndefined
  end.

(** [return force_move(events_)]; the vector is empty afterwards *)
Definition returning_events {A} (p : rv_program A) : rv_program (A * list event_variant) := fun r =>
  match p r with
  | RvReturn a r => RvReturn (a, events_ r) (mk_rv_connection (base_type r) [])
  | RvThrow ec r => RvThrow ec r
  | RvUndefined => RvUndefined
  end.

Definition rv_send (now : Z) (packet : packet_variant) : rv_program (unit * list event_variant) :=
  returning_events (base (send pidb Role now packet)).
(** with what is left of the stream *)
Definition rv_recv (now : Z) (stream : list byte) : rv_program (list byte * list event_variant) :=
  returning_events (base (recv pidb Role now stream)).
Definition rv_notify_timer_fired (now : Z) (kind : timer_kind.t) : rv_program (unit * list event_variant) :=
  returning_events (base (notify_timer_fired pidb Role now kind)).
Definition rv_notify_closed : rv_program (unit * list event_variant) := returning_events (base (notify_closed pidb)).
Definition rv_set_pingreq_send_interval (duration : Z) : rv_program (unit * list event_variant) :=
  returning_events (base (set_pingreq_send_interval pidb duration)).
Definition rv_release_packet_id (packet_id : Z) : rv_program (unit * list event_variant) :=
  returning_events (base (release_packet_id pidb packet_id)).

(** ** Any calls *)

Definition events_of {A} (p : rv_program (A * list event_variant)) : rv_program (list event_variant) := fun r =>
  match p r with
  | RvReturn (_, es) r => RvReturn es r
  | RvThrow ec r => RvThrow ec r
  | RvUndefined => RvUndefined
  end.

Definition no_events {A} (p : rv_program A) : rv_program (list event_variant) := fun r =>
  match p r with
  | RvReturn _ r => RvReturn [] r
  | RvThrow ec r => RvThrow ec r
  | RvUndefined => RvUndefined
  end.

(** the calls that are not overridden return no events *)
Definition run_rv_call (k : call) : rv_program (list event_variant) :=
  match k with
  | call_send now pv => events_of (rv_send now pv)
  | call_recv now stream => events_of (rv_recv now stream)
  | call_notify_timer_fired now kind => events_of (rv_notify_timer_fired now kind)
  | call_notify_closed => events_of rv_notify_closed
  | call_set_pingreq_send_interval ms => events_of (rv_set_pingreq_send_interval ms)
  | call_release_packet_id pid => events_of (rv_release_packet_id pid)
  | k => no_events (base (run_call Role k))
  end.

Definition returns_events (k : call) : bool :=
  match k with
  | call_send _ _ | call_recv _ _ | call_notify_timer_fired _ _ | call_notify_closed | call_set_pingreq_send_interval _
  | call_release_packet_id _ => true
  | _ => false
  end.

Lemma run_rv_call_spec k r :
  match run_call Role k (base_type r) with
  | Return _ c es =>
    run_rv_call k r = if returns_events k then RvReturn (events_ r ++ map emplaced es) (mk_rv_connection c [])
                      else RvReturn [] (mk_rv_connection c (events_ r ++ map emplaced es))
  | Throw ec c es => run_rv_call k r = RvThrow ec (mk_rv_connection c (events_ r ++ map emplaced es))
  | Undefined => run_rv_call k r = RvUndefined
  end.
Proof.
  unfold run_rv_call, events_of, no_events, rv_send, rv_recv, rv_notify_timer_fired, rv_notify_closed, rv_set_pingreq_send_interval,
    rv_release_packet_id, returning_events, base.
  destruct k; cbn [run_call returns_events]; try (match goal with |- context [match ?p (base_type r) with _ => _ end] => by destruct (p (base_type r)) end).
  unfold mbind, prog_bind. destruct (recv pidb Role now stream (base_type r)); cbn; [by rewrite app_nil_r | done..].
Qed.

(** ** Nothing is lost *)

(** no callbacks *)
Definition silent {A} (p : prog M pidb A) : Prop :=
  forall c, match p c with Return _ _ es | Throw _ _ es => es = [] | Undefined => True end.

Lemma silent_bind {A B} (p : prog M pidb A) (f : A -> prog M pidb B) : silent p -> (forall a, silent (f a)) -> silent (p ≫= f).
Proof.
  intros Hp Hf c. unfold mbind, prog_bind. specialize (Hp c). destruct (p c) as [a c1 es1|ec c1 es1|]; [|done..].
  specialize (Hf a c1). subst es1. by destruct (f a c1).
Qed.

Lemma silent_for_each {A} (f : A -> prog M pidb unit) l : (forall a, silent (f a)) -> silent (for_each f l).
Proof. intros Hf. induction l as [|a l IH]; [done|]. by apply silent_bind. Qed.

Lemma silent_register pid : silent (register_packet_id pidb pid).
Proof. done. Qed.

Lemma silent_modify f : silent (modify f).
Proof. done. Qed.

Lemma silent_when b (p : prog M pidb unit) : silent p -> silent (when b p).
Proof. intros Hp. by destruct b. Qed.

Lemma silent_restore_packet e : silent (restore_packet pidb e).
Proof.
  unfold restore_packet. apply silent_bind.
  - destruct (var_ e); try apply silent_modify; (case_match; [apply silent_modify | apply silent_when, silent_modify]).
  - intros _. apply silent_bind; [apply silent_register | intros b; apply silent_when, silent_modify].
Qed.

Lemma silent_calls k : returns_events k = false -> silent (run_call Role k).
Proof. destruct k; try done; intros _. cbn [run_call]. apply silent_for_each, silent_restore_packet. Qed.

(** the vectors that calls return, until one throws *)
Fixpoint run_rv_calls (ks : list call) : rv_program (list event_variant) := fun r =>
  match ks with
  | [] => RvReturn [] r
  | k :: ks =>
    match run_rv_call k r with
    | RvReturn es r =>
      match run_rv_calls ks r with
      | RvReturn es' r => RvReturn (es ++ es') r
      | o => o
      end
    | o => o
    end
  end.

Fixpoint run_calls (ks : list call) : prog M pidb unit :=
  match ks with
  | [] => mret tt
  | k :: ks => run_call Role k;; run_calls ks
  end.

(** The vectors that a sequence of calls returns are, one after the other, the
    callbacks of the connection in their order, and none stays behind. *)
Theorem rv_connection_events ks c es c' :
  run_calls ks c = Return tt c' es -> run_rv_calls ks (mk_rv_connection c []) = RvReturn (map emplaced es) (mk_rv_connection c' []).
Proof.
  revert c es. induction ks as [|k ks IH]; intros c es; cbn [run_calls run_rv_calls]; [by intros [= <- <-]|].
  unfold mbind, prog_bind. pose proof (run_rv_call_spec k (mk_rv_connection c [])) as Hk. cbn [base_type events_] in Hk.
  pose proof (silent_calls k) as Hs. destruct (run_call Role k c) as [[] c1 es1|ec c1 es1|] eqn:Hrun; [|done..].
  assert (Hk' : run_rv_call k (mk_rv_connection c []) = RvReturn (map emplaced es1) (mk_rv_connection c1 [])).
  { destruct (returns_events k); [done|]. specialize (Hs eq_refl c). rewrite Hrun in Hs. by subst es1. }
  rewrite Hk'. destruct (run_calls ks c1) as [[] c2 es2|ec c2 es2|] eqn:Hrest; [|done..]. intros [= <- <-].
  by rewrite (IH c1 es2 Hrest), map_app.
Qed.

(** A call that throws leaves the events it made: the next call that returns
    events gives them first. *)
Theorem rv_connection_throw k ec c es c1 k' es' c2 :
  run_call Role k c = Throw ec c1 es -> run_call Role k' c1 = Return tt c2 es' -> returns_events k' = true ->
  exists r, run_rv_call k (mk_rv_connection c []) = RvThrow ec r /\ run_rv_call k' r = RvReturn (map emplaced (es ++ es')) (mk_rv_connection c2 []).
Proof.
  intros H1 H2 Hk'. pose proof (run_rv_call_spec k (mk_rv_connection c [])) as Hs. cbn [base_type events_] in Hs. rewrite H1 in Hs.
  eexists. split; [exact Hs|]. pose proof (run_rv_call_spec k' (mk_rv_connection c1 (map emplaced es))) as Hs'.
  cbn [base_type events_ app] in *. rewrite H2, Hk' in Hs'. by rewrite Hs', map_app.
Qed.
End rv_connection.
