(* ===== verification/Action.v ===== *)
(** * Member functions that throw

    The containers of the broker (tool/include/broker/) report errors by
    exceptions.  A member function is an [action]: it takes the object and
    returns with the object changed, throws with what it has changed so far, or
    does something C++ leaves undefined, such as the use of an iterator that
    points to no element.  The locals a loop changes are passed along. *)
From S2P Require Import Prelude.

(** the exceptions by the function that throws them *)
Inductive exception :=
| max_stored_topics
| no_wildcards_allowed
| invalid_topic_filter
| invalid_handle
| bad_optional_access
| json_parser_error
| bad_path
| invalid_authorization_type
| invalid_method
| second_anonymous
| second_unauthenticated
| invalid_user_name
| invalid_group_name
| invalid_name
| unknown_group
| unknown_user
| system_error.

(** [std::numeric_limits<std::size_t>::max()] *)
Definition size_max : Z := 0xffffffffffffffff.

Inductive outcome (S A : Type) :=
| Return (a : A) (s : S)
| Throw (e : exception) (s : S)
| Undefined.
Arguments Return {S A}.
Arguments Throw {S A}.
Arguments Undefined {S A}.

Definition action (S A : Type) : Type := S -> outcome S A.

#[export] Instance action_ret {S} : MRet (action S) := fun A a s => Return a s.
#[export] Instance action_bind {S} : MBind (action S) := fun A B f m s =>
  match m s with
  | Return a s => f a s
  | Throw e s => Throw e s
  | Undefined => Undefined
  end.

Section primitives.
Context {S : Type}.

Definition get : action S S := fun s => Return s s.
Definition modify (f : S -> S) : action S unit := fun s => Return tt (f s).
Definition throw {A} (e : exception) : action S A := fun s => Throw e s.
Definition undefined {A} : action S A := fun _ => Undefined.
(** [BOOST_ASSERT] *)
Definition assert (b : bool) : action S unit := fun s => if b then Return tt s else Undefined.
(** an iterator or optional that is dereferenced *)
Definition deref {A} (x : option A) : action S A := fun s => match x with Some a => Return a s | None => Undefined end.

(** a loop over a list, with its locals *)
Fixpoint for_each {A L} (f : A -> L -> action S L) (l : list A) (x : L) : action S L :=
  match l with
  | [] => mret x
  | a :: l => x ← f a x; for_each f l x
  end.

Lemma bind_return {A B} (m : action S A) (f : A -> action S B) s a s' :
  m s = Return a s' -> (m ≫= f) s = f a s'.
Proof. unfold mbind, action_bind. by intros ->. Qed.

Lemma bind_returns {A B} (m : action S A) (f : A -> action S B) s b s'' :
  (m ≫= f) s = Return b s'' -> exists a s', m s = Return a s' /\ f a s' = Return b s''.
Proof. unfold mbind, action_bind. destruct (m s) as [a s'| |]; [by eauto | done..]. Qed.

Lemma for_each_cons {A L} (f : A -> L -> action S L) a l x s x' s' :
  f a x s = Return x' s' -> for_each f (a :: l) x s = for_each f l x' s'.
Proof. intros H. simpl. by apply bind_return. Qed.

Lemma for_each_app {A L} (f : A -> L -> action S L) l1 l2 x s x' s' :
  for_each f l1 x s = Return x' s' -> for_each f (l1 ++ l2) x s = for_each f l2 x' s'.
Proof.
  revert x s. induction l1 as [|a l1 IH]; simpl; intros x s H; [by injection H as -> ->|].
  unfold mbind, action_bind in *. destruct (f a x s) as [y t| |]; [by apply IH | done..].
Qed.

(** the actions that keep a property of the object when they return *)
Definition preserves {A} (P : S -> Prop) (p : action S A) : Prop := forall s a s', P s -> p s = Return a s' -> P s'.

Lemma preserves_ret {A} P (a : A) : preserves P (mret a).
Proof. by intros s b s' HP [= _ <-]. Qed.
Lemma preserves_get P : preserves P get.
Proof. by intros s b s' HP [= _ <-]. Qed.
Lemma preserves_throw {A} P e : preserves P (throw (A := A) e).
Proof. done. Qed.
Lemma preserves_undefined {A} P : preserves P (undefined (A := A)).
Proof. done. Qed.
Lemma preserves_assert P b : preserves P (assert b).
Proof. intros s a s' HP. unfold assert. destruct b; [by intros [= _ <-] | done]. Qed.
Lemma preserves_deref {A} P (x : option A) : preserves P (deref x).
Proof. intros s a s' HP. unfold deref. destruct x; [by intros [= _ <-] | done]. Qed.
Lemma preserves_modify P f : (forall s, P s -> P (f s)) -> preserves P (modify f).
Proof. intros Hf s a s' HP [= _ <-]. by apply Hf. Qed.
Lemma preserves_bind {A B} P (m : action S A) (f : A -> action S B) :
  preserves P m -> (forall a, preserves P (f a)) -> preserves P (m ≫= f).
Proof. intros Hm Hf s b s'' HP (a & s' & Ha & Hb)%bind_returns. eapply Hf; [|exact Hb]. by eapply Hm. Qed.
Lemma preserves_for_each {A L} P (f : A -> L -> action S L) l x : (forall a x, preserves P (f a x)) -> preserves P (for_each f l x).
Proof.
  intros Hf. revert x. induction l as [|a l IH]; intros x; [apply preserves_ret|]. cbn [for_each]. by apply preserves_bind.
Qed.
End primitives.

Create HintDb preserves.
#[export] Hint Resolve preserves_ret preserves_get preserves_throw preserves_undefined preserves_assert preserves_deref preserves_modify
  preserves_for_each : preserves.
#[export] Hint Extern 1 (preserves _ (_ ≫= _)) => apply preserves_bind; [|intros] : preserves.
