(* ===== verification/TopicFilter.v ===== *)
(** * Topic names and topic filters: tool/include/broker/topic_filter.hpp

    Topics are byte strings; the levels of a topic are the tokens between the
    separators.  What the functions compute by positions in the string is
    compared with what MQTT says of levels. *)
From S2P Require Import Prelude Action.

Definition topic_filter_separator : byte := x2f.

(** ** The tokenizer *)

(** [std::find]: the bytes before and from the first separator on *)
Fixpoint topic_filter_tokenizer_next (str : list byte) : list byte * list byte :=
  match str with
  | [] => ([], [])
  | c :: str' =>
    if decide (c = topic_filter_separator) then ([], str)
    else let (token, rest) := topic_filter_tokenizer_next str' in (c :: token, rest)
  end.

(** the callback [write] says whether to go on; [l] has the variables it
    captures *)
Fixpoint topic_filter_tokenizer_loop {S L} (fuel : nat) (write : list byte -> L -> action S (L * bool))
    (str : list byte) (count : Z) (l : L) : action S (L * Z) :=
  let '(token, rest) := topic_filter_tokenizer_next str in
  '(l, more) ← write token l;
  match rest, fuel with
  | _ :: str, Datatypes.S fuel => if more : bool then topic_filter_tokenizer_loop fuel write str (count + 1) l else mret (l, count)
  | _, _ => mret (l, count)
  end.

(** each turn but the last consumes a separator *)
Definition topic_filter_tokenizer {S L} (str : list byte) (write : list byte -> L -> action S (L * bool)) (l : L) :
    action S (L * Z) :=
  topic_filter_tokenizer_loop (length str) write str 1 l.

(** ** Validation *)

(** [std::string_view::find_first_of(chars, pos)]; [None] is [npos] *)
Definition find_first_of (chars : list byte) (str : list byte) (pos : nat) : option nat :=
  match list_find (fun c => c ∈ chars) (drop pos str) with
  | Some (i, _) => Some (pos + i)%nat
  | None => None
  end.

Definition plus : byte := x2b.
Definition hash : byte := x23.

(** the loop of [validate_topic_filter], [idx] the position it is at *)
Fixpoint validate_topic_filter_loop (fuel : nat) (topic_filter : list byte) (idx : option nat) : bool :=
  match idx, fuel with
  | None, _ => true
  | Some _, O => false
  | Some idx, S fuel =>
    let next := find_first_of [x00; plus; hash] topic_filter (idx + 1) in
    let at_start := (idx =? 0)%nat || bool_decide (topic_filter !! (idx - 1)%nat = Some topic_filter_separator) in
    let at_end := (length topic_filter - 1 =? idx)%nat ||
      bool_decide (topic_filter !! (idx + 1)%nat = Some topic_filter_separator) in
    match topic_filter !! idx with
    | Some x00 => false
    | Some x2b => if negb at_start then false else if negb at_end then false
                  else validate_topic_filter_loop fuel topic_filter next
    | Some x23 => if negb (idx =? length topic_filter - 1)%nat then false else if negb at_start then false
                  else validate_topic_filter_loop fuel topic_filter next
    | _ => false
    end
  end.

(** the position grows at each turn *)
Definition validate_topic_filter (topic_filter : list byte) : bool :=
  if bool_decide (topic_filter = []) || (0xffff <? Z.of_nat (length topic_filter)) then false
  else validate_topic_filter_loop (length topic_filter) topic_filter (find_first_of [x00; plus; hash] topic_filter 0).

Definition validate_topic_name (topic_name : list byte) : bool :=
  negb (bool_decide (topic_name = [])) && (Z.of_nat (length topic_name) <=? 0xffff) &&
  bool_decide (find_first_of [x00; plus; hash] topic_name 0 = None).

(** a level that wildcards at the root do not match *)
Definition is_dollar (t : list byte) : bool := bool_decide (head t = Some x24).

(** ** Comparison *)

(** the loop of [compare_topic_filter]; [None] is [remove_prefix] beyond the
    end of the topic, which is undefined *)
Fixpoint compare_topic_filter_loop (fuel : nat) (topic_filter topic_name : list byte) : option bool :=
  match find_first_of [plus; hash] topic_filter 0, fuel with
  | None, _ => Some (bool_decide (topic_filter = topic_name))
  | Some _, O => None
  | Some idx, S fuel =>
    if bool_decide (topic_filter !! idx = Some plus) then
      if bool_decide (take idx topic_filter = take idx topic_name) then
        match find_first_of [topic_filter_separator] topic_name idx with
        | Some pos => compare_topic_filter_loop fuel (drop (idx + 1) topic_filter) (drop pos topic_name)
        | None => None
        end
      else Some false
    else Some (bool_decide (take idx topic_filter = take idx topic_name))
  end.

(** an assertion that fails is undefined; each turn shortens the filter *)
Definition compare_topic_filter (topic_filter topic_name : list byte) : option bool :=
  if negb (validate_topic_filter topic_filter) then None
  else if negb (validate_topic_name topic_name) then None
  else compare_topic_filter_loop (length topic_filter) topic_filter topic_name.

(** ** Levels *)

(** the levels of a topic *)
Fixpoint levels (str : list byte) : list (list byte) :=
  match str with
  | [] => [[]]
  | c :: str =>
    if decide (c = topic_filter_separator) then [] :: levels str
    else match levels str with l :: ls => (c :: l) :: ls | [] => [] end
  end.

(** a level that is no wildcard *)
Definition literal (l : list byte) : Prop := forall c, c ∈ l -> c ∉ [x00; plus; hash].

#[export] Instance literal_dec l : Decision (literal l).
Proof. refine (cast_if (decide (Forall (fun c => c ∉ [x00; plus; hash]) l))); unfold literal; by rewrite <- Forall_forall. Defined.

(** wildcards are whole levels, and the multi-level one is the last *)
Fixpoint valid_levels (ls : list (list byte)) : Prop :=
  match ls with
  | [] => True
  | l :: ls => (l = [plus] \/ (l = [hash] /\ ls = []) \/ literal l) /\ valid_levels ls
  end.

(** the comparison, level by level *)
Fixpoint compare_levels (fs ts : list (list byte)) : option bool :=
  match fs, ts with
  | [], [] => Some true
  | f :: fs, t :: ts =>
    if decide (f = [hash]) then Some true
    else if decide (f = [plus]) then match ts with [] => None | _ => compare_levels fs ts end
    else if decide (f = t) then compare_levels fs ts else Some false
  | _, _ => Some false
  end.

(** a topic matches a filter: the single-level wildcard stands for a level,
    the multi-level wildcard for one level or more *)
Fixpoint levels_match (fs ts : list (list byte)) : bool :=
  match fs, ts with
  | [], [] => true
  | f :: fs, t :: ts =>
    bool_decide (f = [hash] /\ fs = []) || (bool_decide (f = t \/ f = [plus]) && levels_match fs ts)
  | _, _ => false
  end.

(** ** Tokens are levels *)

Section tokens.
Abbreviation sep := topic_filter_separator.

Lemma levels_one l : sep ∉ l -> levels l = [l].
Proof.
  induction l as [|c l IH]; intros Hl; [done|]. apply not_elem_of_cons in Hl as [Hc Hl]. simpl.
  rewrite decide_False by congruence. by rewrite IH.
Qed.

Lemma levels_app l s : sep ∉ l -> levels (l ++ sep :: s) = l :: levels s.
Proof.
  induction l as [|c l IH]; intros Hl; [done|]. apply not_elem_of_cons in Hl as [Hc Hl]. simpl.
  rewrite decide_False by congruence. by rewrite IH.
Qed.

Lemma next_spec str : let '(token, rest) := topic_filter_tokenizer_next str in
  str = token ++ rest /\ sep ∉ token /\ (rest = [] \/ exists s, rest = sep :: s).
Proof.
  induction str as [|c str IH]; simpl; [set_solver|]. destruct (decide (c = sep)) as [->|Hc].
  - split; [done|]. split; [apply not_elem_of_nil | eauto].
  - destruct (topic_filter_tokenizer_next str) as [token rest]. destruct IH as (-> & Ht & Hr).
    split; [done|]. split; [|done]. apply not_elem_of_cons. by split; [congruence|].
Qed.

(** the first level and the others *)
Lemma levels_cases str :
  (sep ∉ str /\ levels str = [str]) \/
  exists l s, str = l ++ sep :: s /\ sep ∉ l /\ levels str = l :: levels s.
Proof.
  pose proof (next_spec str) as H. destruct (topic_filter_tokenizer_next str) as [token rest].
  destruct H as (-> & Ht & [->|[s ->]]).
  - left. rewrite app_nil_r. split; [done | by apply levels_one].
  - right. exists token, s. split; [done|]. split; [done | by apply levels_app].
Qed.


Lemma next_app l s : sep ∉ l -> topic_filter_tokenizer_next (l ++ sep :: s) = (l, sep :: s).
Proof.
  induction l as [|c l IH]; intros Hl; [done|]. apply not_elem_of_cons in Hl as [Hc Hl]. simpl.
  rewrite decide_False by congruence. by rewrite IH.
Qed.

Lemma next_one l : sep ∉ l -> topic_filter_tokenizer_next l = (l, []).
Proof.
  induction l as [|c l IH]; intros Hl; [done|]. apply not_elem_of_cons in Hl as [Hc Hl]. simpl.
  rewrite decide_False by congruence. by rewrite IH.
Qed.

(** the string with these levels *)
Fixpoint join (ls : list (list byte)) : list byte :=
  match ls with
  | [] => []
  | [l] => l
  | l :: ls => l ++ sep :: join ls
  end.

Lemma levels_nonempty str : levels str <> [].
Proof. by destruct (levels_cases str) as [[_ ->]|(l & s & _ & _ & ->)]. Qed.

(** induction on the levels of a string *)
Lemma string_ind (P : list byte -> Prop) :
  (forall l, sep ∉ l -> P l) -> (forall l s, sep ∉ l -> P s -> P (l ++ sep :: s)) -> forall str, P str.
Proof.
  intros H1 H2 str. remember (levels str) as ls eqn:Hls. revert str Hls. induction ls as [|l' ls IH]; intros str Hls.
  - by destruct (levels_nonempty str).
  - destruct (levels_cases str) as [[Hs Hl]|(l & s & -> & Hs & Hl)]; [by apply H1|].
    apply H2; [done|]. apply IH. congruence.
Qed.

Lemma join_levels str : join (levels str) = str.
Proof.
  induction str as [l Hl | l s Hl IH] using string_ind; [by rewrite levels_one|].
  rewrite levels_app by done. simpl. destruct (levels s) eqn:Hs; [by destruct (levels_nonempty s) | by rewrite <- IH].
Qed.

(** the tokenizer calls [write] with the levels until it says no *)
Fixpoint each_level {S L} (write : list byte -> L -> action S (L * bool)) (ls : list (list byte)) (count : Z) (l : L) :
    action S (L * Z) :=
  match ls with
  | [] => mret (l, count)
  | t :: ls =>
    '(l, more) ← write t l;
    match ls with
    | [] => mret (l, count)
    | _ => if more : bool then each_level write ls (count + 1) l else mret (l, count)
    end
  end.

Lemma topic_filter_tokenizer_levels {S L} str (write : list byte -> L -> action S (L * bool)) l s :
  topic_filter_tokenizer str write l s = each_level write (levels str) 1 l s.
Proof.
  unfold topic_filter_tokenizer.
  enough (forall fuel count l s, (length str <= fuel)%nat ->
    topic_filter_tokenizer_loop fuel write str count l s = each_level write (levels str) count l s) by auto.
  clear l s. induction str as [t Ht | t str Ht IH] using string_ind; intros fuel count l s Hf.
  - rewrite levels_one by done. destruct fuel; simpl; by rewrite next_one.
  - rewrite levels_app by done. rewrite length_app in Hf. simpl in Hf. destruct fuel as [|fuel]; [lia|]. simpl.
    rewrite next_app by done. unfold mbind, action_bind. destruct (write t l s) as [[l' more] s'| |]; [|done..].
    destruct more; [rewrite IH by lia|]; destruct (levels str) eqn:Hl; done || by destruct (levels_nonempty str).
Qed.

(** ** Searching *)

Lemma find_first_of_Some chars str pos i :
  find_first_of chars str pos = Some i <->
  (pos <= i)%nat /\ (exists c, str !! i = Some c /\ c ∈ chars) /\
  forall j c, (pos <= j < i)%nat -> str !! j = Some c -> c ∉ chars.
Proof.
  unfold find_first_of. destruct (list_find _ _) as [[k c]|] eqn:Hf.
  - apply list_find_Some in Hf as (Hk & Hc & Hn). rewrite lookup_drop in Hk. split.
    + intros [= <-]. split; [lia|]. split; [by exists c|]. intros j d Hj Hd. apply (Hn (j - pos)%nat); [|lia].
      rewrite lookup_drop. by replace (pos + (j - pos))%nat with j by lia.
    + intros (Hle & (d & Hd & Hdc) & Hno). f_equal. destruct (Nat.lt_total (pos + k) i) as [Hlt|[->|Hgt]]; [|done|].
      * exfalso. apply (Hno (pos + k)%nat c); [lia | done | done].
      * exfalso. apply (Hn (i - pos)%nat d); [|lia | done]. rewrite lookup_drop.
        by replace (pos + (i - pos))%nat with i by lia.
  - split; [done|]. intros (Hle & (d & Hd & Hdc) & _). apply list_find_None in Hf. rewrite Forall_forall in Hf.
    destruct (Hf d); [|done]. apply list_elem_of_lookup. exists (i - pos)%nat. rewrite lookup_drop.
    by replace (pos + (i - pos))%nat with i by lia.
Qed.

Lemma find_first_of_None chars str pos :
  find_first_of chars str pos = None <-> forall j c, (pos <= j)%nat -> str !! j = Some c -> c ∉ chars.
Proof.
  split.
  - intros H j c Hj Hc Hin. unfold find_first_of in H. destruct (list_find _ _) as [[? ?]|] eqn:Hf; [done|].
    apply list_find_None in Hf. rewrite Forall_forall in Hf. apply (Hf c); [|done]. apply list_elem_of_lookup.
    exists (j - pos)%nat. rewrite lookup_drop. by replace (pos + (j - pos))%nat with j by lia.
  - intros H. destruct (find_first_of chars str pos) as [i|] eqn:Hf; [|done].
    apply find_first_of_Some in Hf as (Hi & (c & Hc & Hin) & _). by destruct (H i c Hi Hc).
Qed.

Lemma find_first_of_app chars l s pos :
  find_first_of chars (l ++ s) (length l + pos) = Nat.add (length l) <$> find_first_of chars s pos.
Proof.
  unfold find_first_of. rewrite drop_app_add. destruct (list_find _ _) as [[i c]|]; simpl; [|done].
  f_equal. lia.
Qed.

(** a prefix without the characters *)
Lemma find_first_of_skip chars l s :
  (forall c, c ∈ l -> c ∉ chars) -> find_first_of chars (l ++ s) 0 = Nat.add (length l) <$> find_first_of chars s 0.
Proof.
  intros Hl. destruct (find_first_of chars s 0) as [i|] eqn:Hf; simpl.
  - apply find_first_of_Some in Hf as (_ & (c & Hc & Hin) & Hn). apply find_first_of_Some. split; [lia|]. split.
    + exists c. split; [|done]. rewrite lookup_app_r by lia. by replace (length l + i - length l)%nat with i by lia.
    + intros j d Hj Hd. apply lookup_app_Some in Hd as [Hd|[Hge Hd]].
      * apply Hl. by eapply list_elem_of_lookup_2.
      * apply (Hn (j - length l)%nat); [lia | done].
  - rewrite find_first_of_None in Hf |- *. intros j d _ Hd. apply lookup_app_Some in Hd as [Hd|[Hge Hd]].
    + apply Hl. by eapply list_elem_of_lookup_2.
    + apply (Hf (j - length l)%nat); [lia | done].
Qed.

(** ** Validation *)

Definition special : list byte := [x00; plus; hash].

(** what the loop asks of the position [i] *)
Definition at_level_start (f : list byte) (i : nat) : bool :=
  (i =? 0)%nat || bool_decide (f !! (i - 1)%nat = Some sep).
Definition at_level_end (f : list byte) (i : nat) : bool :=
  (length f - 1 =? i)%nat || bool_decide (f !! (i + 1)%nat = Some sep).
Definition position_ok (f : list byte) (i : nat) (c : byte) : Prop :=
  (c = plus /\ at_level_start f i = true /\ at_level_end f i = true) \/
  (c = hash /\ i = (length f - 1)%nat /\ at_level_start f i = true).

Lemma validate_topic_filter_loop_spec f : forall fuel p,
  (length f <= p + fuel)%nat ->
  validate_topic_filter_loop fuel f (find_first_of special f p) = true <->
  forall i c, (p <= i)%nat -> f !! i = Some c -> c ∈ special -> position_ok f i c.
Proof.
  induction fuel as [|fuel IH]; intros p Hf; destruct (find_first_of special f p) as [i|] eqn:Hi.
  - apply find_first_of_Some in Hi as (Hi & (c & Hc & _) & _). apply lookup_lt_Some in Hc. lia.
  - rewrite find_first_of_None in Hi. split; [|done]. intros _ j c Hj Hc Hin. by destruct (Hi j c Hj Hc).
  - apply find_first_of_Some in Hi as (Hi & (c & Hc & Hin) & Hn).
    assert (Hsplit : (forall j d, (p <= j)%nat -> f !! j = Some d -> d ∈ special -> position_ok f j d) <->
      position_ok f i c /\ forall j d, (i + 1 <= j)%nat -> f !! j = Some d -> d ∈ special -> position_ok f j d).
    { split; [intros H; split; [by apply H | intros j d Hj; apply H; lia]|]. intros [H1 H2] j d Hj Hd Hs.
      destruct (Nat.lt_total j i) as [Hlt|[->|Hgt]]; [by destruct (Hn j d (conj Hj Hlt) Hd) | by simplify_eq | apply H2; [lia | done..]]. }
    rewrite Hsplit, <- (IH (i + 1)%nat) by lia. simpl. rewrite Hc. fold special (at_level_start f i) (at_level_end f i).
    unfold special in Hin. rewrite !elem_of_cons, elem_of_nil in Hin. unfold position_ok.
    destruct Hin as [-> | [-> | [-> | []]]]; simpl.
    + split; [done|]. intros [[[H _]|[H _]] _]; done.
    + destruct (at_level_start f i), (at_level_end f i); simpl; naive_solver.
    + destruct (Nat.eqb_spec i (length f - 1)), (at_level_start f i); simpl; naive_solver.
  - rewrite find_first_of_None in Hi. simpl. split; [|done]. intros _ j c Hj Hc Hin. by destruct (Hi j c Hj Hc).
Qed.

Lemma sep_not_special : sep ∉ special.
Proof. rewrite <- (bool_decide_spec (sep ∈ special)). by vm_compute. Qed.

(** in the first level, only a whole level starts and ends *)
Lemma first_level_start l r i c : sep ∉ l -> l !! i = Some c -> at_level_start (l ++ r) i = true <-> i = 0%nat.
Proof.
  intros Hl Hi. unfold at_level_start. rewrite orb_true_iff, Nat.eqb_eq, bool_decide_eq_true. split; [|by left].
  intros [->|H]; [done|]. apply lookup_lt_Some in Hi as Hlt. rewrite lookup_app_l in H by lia.
  by apply list_elem_of_lookup_2 in H.
Qed.

Lemma first_level_end l r i c :
  sep ∉ l -> (r = [] \/ exists s, r = sep :: s) -> l !! i = Some c ->
  at_level_end (l ++ r) i = true <-> (i + 1 = length l)%nat.
Proof.
  intros Hl Hr Hi. apply lookup_lt_Some in Hi as Hlt. unfold at_level_end.
  rewrite orb_true_iff, Nat.eqb_eq, bool_decide_eq_true, length_app. split.
  - intros [H|H]; [lia|]. destruct (decide (i + 1 < length l)%nat); [|lia]. rewrite lookup_app_l in H by done.
    by apply list_elem_of_lookup_2 in H.
  - intros H. destruct Hr as [->|[s ->]]; [left; simpl; lia | right].
    by rewrite lookup_app_r, H, Nat.sub_diag by lia.
Qed.

Lemma first_level_positions l r :
  sep ∉ l -> (r = [] \/ exists s, r = sep :: s) ->
  (forall i c, l !! i = Some c -> c ∈ special -> position_ok (l ++ r) i c) <->
  l = [plus] \/ (l = [hash] /\ r = []) \/ literal l.
Proof.
  intros Hl Hr. split.
  - intros H. destruct (decide (literal l)) as [Hlit|Hlit]; [by do 2 right|].
    assert (exists i c, l !! i = Some c /\ c ∈ special) as (i & c & Hi & Hc).
    { unfold literal in Hlit. rewrite <- Forall_forall in Hlit. apply not_Forall_Exists in Hlit; [|apply _].
      apply Exists_exists in Hlit as (c & [i Hi]%list_elem_of_lookup & Hc). exists i, c. by apply dec_stable in Hc. }
    destruct (H i c Hi Hc) as [(-> & Hs & He)|(-> & He & Hs)]; apply (first_level_start _ _ _ _ Hl Hi) in Hs; rewrite Hs in *.
    + left. apply (first_level_end _ _ _ _ Hl Hr Hi) in He. destruct l as [|x [|]]; simpl in *; [done | congruence | lia].
    + right. left. apply lookup_lt_Some in Hi as Hlt. rewrite length_app in He.
      destruct l as [|x [|]], r; simpl in *; try lia. split; [congruence | done].
  - intros Hcases i c Hi Hc. unfold position_ok.
    rewrite (first_level_start _ _ _ _ Hl Hi), (first_level_end _ _ _ _ Hl Hr Hi).
    destruct Hcases as [->|[[-> ->]|Hlit]]; [left | right |].
    + destruct i; simplify_eq/=. done.
    + destruct i; simplify_eq/=. done.
    + apply list_elem_of_lookup_2 in Hi. by destruct (Hlit c Hi).
Qed.

(** the levels after a separator are positions of their own *)
Lemma next_level_position l s j c :
  s !! j = Some c -> position_ok (l ++ sep :: s) (length l + S j) c <-> position_ok s j c.
Proof.
  intros Hj. apply lookup_lt_Some in Hj as Hlt. unfold position_ok, at_level_start, at_level_end.
  rewrite !orb_true_iff, !Nat.eqb_eq, !bool_decide_eq_true, length_app. simpl.
  replace (length l + S j - 1)%nat with (length l + j)%nat by lia.
  replace (length l + S j + 1)%nat with (length l + S (j + 1))%nat by lia. rewrite !lookup_app_r by lia.
  replace (length l + j - length l)%nat with j by lia.
  replace (length l + S (j + 1) - length l)%nat with (S (j + 1)) by lia. simpl.
  assert (Hs : (length l + S j = 0)%nat \/ (sep :: s) !! j = Some sep <-> j = 0%nat \/ s !! (j - 1)%nat = Some sep).
  { destruct j as [|j]; simpl; [by split; [left | right]|]. rewrite Nat.sub_0_r. split; intros [?|?]; (lia || by right). }
  rewrite Hs. assert (He : (length l + S (length s) - 1 = length l + S j <-> length s - 1 = j)%nat) by lia.
  assert (Hh : (length l + S j = length l + S (length s) - 1 <-> j = length s - 1)%nat) by lia. by rewrite He, Hh.
Qed.

Lemma positions_valid f :
  (forall i c, f !! i = Some c -> c ∈ special -> position_ok f i c) <-> valid_levels (levels f).
Proof.
  induction f as [l Hl | l s Hl IH] using string_ind.
  - rewrite levels_one by done. simpl. pose proof (first_level_positions l [] Hl (or_introl eq_refl)) as H.
    rewrite app_nil_r in H. rewrite H. tauto.
  - rewrite levels_app by done. cbn [valid_levels].
    pose proof (first_level_positions l (sep :: s) Hl (or_intror (ex_intro _ s eq_refl))) as H1.
    assert (Hno : l = [hash] /\ levels s = [] <-> l = [hash] /\ sep :: s = []).
    { split; intros [_ H]; [by destruct (levels_nonempty s) | done]. }
    rewrite Hno, <- IH, <- H1. split.
    + intros H. split.
      * intros i c Hi. apply H. apply lookup_lt_Some in Hi as Hlt. by rewrite lookup_app_l.
      * intros j c Hj Hc. apply (next_level_position l); [done|]. apply H; [|done].
        rewrite lookup_app_r by lia. by replace (length l + S j - length l)%nat with (S j) by lia.
    + intros [Ha Hb] i c Hi Hc. apply lookup_app_Some in Hi as [Hi|[Hge Hi]]; [by apply Ha|].
      destruct (i - length l)%nat as [|j] eqn:Hj; simpl in Hi.
      * injection Hi as <-. by destruct sep_not_special.
      * replace i with (length l + S j)%nat by lia. apply next_level_position; [done | by apply Hb].
Qed.

Lemma validate_topic_filter_levels f :
  validate_topic_filter f = true <->
  f <> [] /\ Z.of_nat (length f) <= 65535 /\ valid_levels (levels f).
Proof.
  unfold validate_topic_filter. fold special. rewrite <- positions_valid.
  pose proof (validate_topic_filter_loop_spec f (length f) 0 ltac:(lia)) as Hl.
  case_bool_decide as Hf; simpl; [naive_solver|]. destruct (Z.ltb_spec 0xffff (Z.of_nat (length f))); [naive_solver lia|].
  rewrite Hl. split; [intros Hi; split; [done|]; split; [done|]; intros; apply Hi; auto with lia | naive_solver].
Qed.

Lemma validate_topic_name_levels n :
  validate_topic_name n = true <-> n <> [] /\ Z.of_nat (length n) <= 65535 /\ literal n.
Proof.
  unfold validate_topic_name. fold special. rewrite !andb_true_iff, negb_true_iff, bool_decide_eq_false, bool_decide_eq_true,
    Z.leb_le, find_first_of_None. unfold literal. fold special. split.
  - intros [[H1 H2] H3]. split; [done|]. split; [done|]. intros c [j Hj]%list_elem_of_lookup. by apply (H3 j); [lia|].
  - intros (H1 & H2 & H3). split; [done|]. intros j c _ Hj. apply H3. by eapply list_elem_of_lookup_2.
Qed.

Lemma literal_levels n : literal n -> literal (concat (levels n)).
Proof.
  induction n as [l Hl | l s Hl IH] using string_ind; intros Hlit.
  - rewrite levels_one by done. simpl. by rewrite app_nil_r.
  - rewrite levels_app by done. intros c [Hc|Hc]%elem_of_app.
    + apply Hlit. set_solver.
    + apply IH; [|done]. intros d Hd. apply Hlit. set_solver.
Qed.

Lemma literal_valid_levels ls : literal (concat ls) -> valid_levels ls.
Proof.
  induction ls as [|l ls IH]; simpl; intros Hl; [done|].
  split; [do 2 right; intros c Hc | apply IH; intros c Hc]; apply Hl; set_solver.
Qed.

Lemma valid_levels_null f : valid_levels (levels f) -> x00 ∉ f.
Proof.
  assert (Hlevel : forall l (r : list (list byte)), (l = [plus] \/ (l = [hash] /\ r = []) \/ literal l) -> x00 ∉ l).
  { intros l r [->|[[-> _]|Hl]] Hc; [set_solver.. | apply (Hl _ Hc); set_solver]. }
  induction f as [l Hl | l s Hl IH] using string_ind.
  - rewrite levels_one by done. intros [Hv _]. by eapply Hlevel.
  - rewrite levels_app by done. intros [Hv Hs] [Hc|[Hc|Hc]%elem_of_cons]%elem_of_app; [by eapply Hlevel|done|by apply IH].
Qed.

(** C28: [validate_topic_filter] accepts exactly the filters of MQTT: not
    empty, 65535 bytes at most, no null character, a wildcard is a whole
    level and the multi-level wildcard the last one; and
    [validate_topic_name] those of them without a wildcard. *)
Theorem validate_topic_filter_correct f :
  (validate_topic_filter f = true <-> f <> [] /\ Z.of_nat (length f) <= 65535 /\ valid_levels (levels f)) /\
  (validate_topic_name f = true <-> validate_topic_filter f = true /\ plus ∉ f /\ hash ∉ f).
Proof.
  split; [apply validate_topic_filter_levels|]. rewrite validate_topic_name_levels, validate_topic_filter_levels. split.
  - intros (Hne & Hlen & Hl). split; [split; [done|]; split; [done|]; by apply literal_valid_levels, literal_levels|].
    split; intros Hin; apply (Hl _ Hin); set_solver.
  - intros [(Hne & Hlen & Hv) [Hp Hh]]. split; [done|]. split; [done|]. intros c Hc.
    assert (c <> x00) by (intros ->; exact (valid_levels_null f Hv Hc)). set_solver.
Qed.

(** ** Comparison *)

Lemma literal_wild l : literal l -> forall c, c ∈ l -> c ∉ [plus; hash].
Proof. intros Hl c Hc Hin. apply (Hl c Hc). set_solver. Qed.

(** a literal level of the filter is compared with the first of the topic *)
Lemma compare_skip fuel p f n :
  (forall c, c ∈ p -> c ∉ [plus; hash]) ->
  (forall n', n = p ++ n' -> compare_topic_filter_loop (S fuel) (p ++ f) n = compare_topic_filter_loop (S fuel) f n') /\
  ((forall n', n <> p ++ n') -> compare_topic_filter_loop (S fuel) (p ++ f) n = Some false).
Proof.
  intros Hp. simpl. rewrite find_first_of_skip by done. split.
  - intros n' ->. destruct (find_first_of [plus; hash] f 0) as [i|]; simpl.
    2: f_equal; apply bool_decide_ext; split; [apply app_inv_head | congruence].
    rewrite lookup_app_r by lia. replace (length p + i - length p)%nat with i by lia. rewrite !take_app_add, find_first_of_app.
    rewrite (bool_decide_ext (p ++ take i f = p ++ take i n') (take i f = take i n'))
      by (split; [apply app_inv_head | congruence]).
    destruct (find_first_of _ n' i) as [pos|]; simpl; [|done].
    by rewrite !drop_app_add, <- Nat.add_assoc, drop_app_add.
  - intros Hn. destruct (find_first_of [plus; hash] f 0) as [i|]; simpl.
    + assert (Ht : take (length p + i) (p ++ f) <> take (length p + i) n).
      { rewrite take_app_add. intros H. apply (Hn (drop (length p) n)). apply (f_equal (take (length p))) in H.
        rewrite take_app_length, take_take, Nat.min_l in H by lia. rewrite <- (take_drop (length p) n) at 1.
        by rewrite <- H. }
      rewrite (bool_decide_eq_false_2 _ Ht). by case_bool_decide.
    + f_equal. apply bool_decide_eq_false. intros H. by apply (Hn f).
Qed.

Lemma compare_level fuel l f n :
  literal l -> sep ∉ l ->
  compare_topic_filter_loop (S fuel) (l ++ sep :: f) n =
  match topic_filter_tokenizer_next n with
  | (t, _ :: n') => if decide (l = t) then compare_topic_filter_loop (S fuel) f n' else Some false
  | _ => Some false
  end.
Proof.
  intros Hlit Hl. change (l ++ sep :: f) with (l ++ [sep] ++ f). rewrite app_assoc.
  assert (Hp : forall c, c ∈ l ++ [sep] -> c ∉ [plus; hash]).
  { intros c [Hc| ->%list_elem_of_singleton]%elem_of_app; [by apply (literal_wild l)|].
    intros Hin. apply sep_not_special. unfold special. set_solver. }
  destruct (compare_skip fuel (l ++ [sep]) f n Hp) as [H1 H2].
  destruct (levels_cases n) as [[Hn _]|(t & s & -> & Ht & _)].
  - rewrite next_one by done. apply H2. intros n' ->. apply Hn. set_solver.
  - rewrite next_app by done. destruct (decide (l = t)) as [->|Hne].
    + apply H1. by rewrite <- app_assoc.
    + apply H2. intros n'. rewrite <- app_assoc. simpl. intros Heq. apply Hne.
      apply (f_equal topic_filter_tokenizer_next) in Heq. rewrite !next_app in Heq by done. congruence.
Qed.

Lemma compare_levels_last ts : compare_levels [] ts = Some (bool_decide (ts = [])).
Proof. by destruct ts. Qed.

(** a turn at a single level wildcard *)
Lemma compare_plus fuel f n :
  compare_topic_filter_loop (S fuel) (plus :: f) n =
  match topic_filter_tokenizer_next n with
  | (t, c :: n') => compare_topic_filter_loop fuel f (c :: n')
  | _ => None
  end.
Proof.
  cbn [compare_topic_filter_loop]. change (find_first_of [plus; hash] (plus :: f) 0) with (Some 0%nat). cbv iota.
  rewrite !bool_decide_eq_true_2 by done. destruct (levels_cases n) as [[Hn _]|(t & s & -> & Ht & _)].
  - rewrite next_one by done. assert (find_first_of [sep] n 0 = None) as ->; [|done].
    apply find_first_of_None. intros j c _ Hj ->%list_elem_of_singleton. by apply list_elem_of_lookup_2 in Hj.
  - rewrite next_app by done. rewrite find_first_of_skip.
    2: intros c Hc ->%list_elem_of_singleton; done.
    change (find_first_of [sep] (sep :: s) 0) with (Some 0%nat). simpl. by rewrite Nat.add_0_r, drop_app_length.
Qed.

Lemma compare_literal_last fuel l n :
  literal l -> sep ∉ l -> compare_topic_filter_loop fuel l n = compare_levels [l] (levels n).
Proof.
  intros Hlit Hl. assert (find_first_of [plus; hash] l 0 = None) as Hf.
  { apply find_first_of_None. intros j c _ Hj. apply (literal_wild l Hlit). by eapply list_elem_of_lookup_2. }
  assert (Hne : l <> [hash] /\ l <> [plus]) by (split; intros ->; by apply (Hlit _ (list_elem_of_here _ _)); set_solver).
  destruct fuel; cbn [compare_topic_filter_loop]; rewrite Hf.
  all: destruct (levels_cases n) as [[Hn ->]|(t & s & -> & Ht & ->)]; cbn [compare_levels].
  all: rewrite (decide_False (P := l = [hash])), (decide_False (P := l = [plus])) by tauto.
  1,3: by destruct (decide (l = n)) as [->|Hd]; [rewrite bool_decide_eq_true_2 | rewrite bool_decide_eq_false_2].
  all: rewrite bool_decide_eq_false_2 by (intros ->; set_solver); destruct (decide (l = t)); [|done].
  all: by destruct (levels s) eqn:Hs; [destruct (levels_nonempty s)|].
Qed.

Lemma compare_topic_filter_loop_levels f : forall fuel n,
  valid_levels (levels f) -> (length f <= fuel)%nat ->
  compare_topic_filter_loop fuel f n = compare_levels (levels f) (levels n).
Proof.
  induction f as [l Hl | l f Hl IH] using string_ind; intros fuel n Hv Hfuel.
  - rewrite levels_one in Hv |- * by done. destruct Hv as [[->|[[-> _]|Hlit]] _]; [| |by apply compare_literal_last].
    + destruct fuel as [|fuel]; [simpl in Hfuel; lia|]. rewrite compare_plus.
      destruct (levels_cases n) as [[Hn ->]|(t & s & -> & Ht & ->)]; [by rewrite next_one|].
      rewrite next_app by done. cbn [compare_levels]. rewrite decide_False by done. rewrite decide_True by done.
      destruct (levels s) eqn:Hs; [by destruct (levels_nonempty s)|]. by destruct fuel.
    + destruct fuel as [|fuel]; [simpl in Hfuel; lia|]. cbn [levels compare_levels].
      destruct (levels n) eqn:Hs; [by destruct (levels_nonempty n) | done].
  - rewrite levels_app in Hv |- * by done. rewrite length_app in Hfuel. simpl in Hfuel.
    destruct fuel as [|fuel]; [lia|]. destruct Hv as [[->|[[_ Hno]|Hlit]] Hv]; [| by destruct (levels_nonempty f) |].
    + change ([plus] ++ sep :: f) with (plus :: sep :: f). rewrite compare_plus.
      destruct (levels_cases n) as [[Hn ->]|(t & s & -> & Ht & ->)]; [by rewrite next_one|].
      rewrite next_app by done. destruct fuel as [|fuel]; [simpl in Hfuel; lia|].
      change (sep :: f) with ([] ++ sep :: f). rewrite compare_level; [|intros c Hc; by apply elem_of_nil in Hc | apply not_elem_of_nil].
      change (topic_filter_tokenizer_next (sep :: s)) with (@nil byte, sep :: s).
      cbn [compare_levels]. rewrite (decide_False (P := [plus] = [hash])), !decide_True by done.
      rewrite IH by (done || simpl in Hfuel; lia). destruct (levels s) eqn:Hs; [by destruct (levels_nonempty s) | done].
    + assert (Hne : l <> [hash] /\ l <> [plus]) by (split; intros ->; by apply (Hlit _ (list_elem_of_here _ _)); set_solver).
      rewrite compare_level by done. cbn [compare_levels].
      destruct (levels_cases n) as [[Hn ->]|(t & s & -> & Ht & ->)]; [rewrite next_one by done | rewrite next_app by done].
      all: rewrite (decide_False (P := l = [hash])), (decide_False (P := l = [plus])) by tauto.
      * destruct (decide (l = n)); [|done]. by destruct (levels f) eqn:Hs; [destruct (levels_nonempty f)|].
      * destruct (decide (l = t)); [|done]. apply IH; [done | lia].
Qed.

Lemma compare_levels_match fs : forall ts b,
  valid_levels fs -> literal (concat ts) -> compare_levels fs ts = Some b -> b = levels_match fs ts.
Proof.
  induction fs as [|f fs IH]; intros [|t ts] b Hv Hlit; cbn [compare_levels levels_match]; try congruence.
  assert (Hts : literal (concat ts)) by (intros c Hc; apply Hlit; simpl; set_solver). destruct Hv as [Hf Hv].
  destruct (decide (f = [hash])) as [->|Hh].
  - rewrite bool_decide_eq_true_2; [by intros [= <-]|]. split; [done|]. destruct Hf as [[=]|[[_ ?]|Hf]]; [done|].
    by destruct (Hf hash); set_solver.
  - rewrite (bool_decide_eq_false_2 (f = [hash] /\ _)) by tauto. simpl. destruct (decide (f = [plus])) as [Hp|Hp].
    + rewrite bool_decide_eq_true_2 by tauto. destruct ts; [done|]. by apply IH.
    + destruct (decide (f = t)) as [He|He]; [rewrite bool_decide_eq_true_2 by tauto; by apply IH|].
      rewrite bool_decide_eq_false_2 by tauto. by intros [= <-].
Qed.

(** the filter is equal to the topic up to a single level wildcard that
    stands for the last level of the topic *)
Fixpoint plus_at_last_level (fs ts : list (list byte)) : Prop :=
  match fs, ts with
  | f :: fs, t :: ts =>
    f <> [hash] /\ ((f = [plus] /\ ts = []) \/ ((f = [plus] \/ f = t) /\ plus_at_last_level fs ts))
  | _, _ => False
  end.

Lemma compare_levels_undefined fs : forall ts, literal (concat ts) -> compare_levels fs ts = None <-> plus_at_last_level fs ts.
Proof.
  induction fs as [|f fs IH]; intros [|t ts] Hlit; cbn [compare_levels plus_at_last_level]; try done.
  assert (literal (concat ts)) as Hts by (intros c Hc; apply Hlit; simpl; set_solver).
  assert (t <> [plus]) by (intros ->; apply (Hlit plus); simpl; set_solver).
  destruct (decide (f = [hash])); [by split; [|intros [? _]]|]. destruct (decide (f = [plus])) as [->|Hp].
  - destruct ts as [|t' ts]; [by split; [intros _; split; [done | by left]|]|]. rewrite IH by done. split; [tauto|]. by intros [_ [[_ ?]|[_ ?]]].
  - destruct (decide (f = t)) as [->|He]; [rewrite IH by done; tauto|]. split; [done|]. tauto.
Qed.

(** C29: [compare_topic_filter] on a valid filter and a valid topic says
    whether the filter matches the topic level by level; but when a single
    level wildcard is reached that stands for the last level of the topic,
    it removes a prefix up to a separator that is not there, and its
    behaviour is undefined. *)
Theorem compare_topic_filter_correct f n :
  validate_topic_filter f = true -> validate_topic_name n = true ->
  (forall b, compare_topic_filter f n = Some b -> b = levels_match (levels f) (levels n)) /\
  (compare_topic_filter f n = None <-> plus_at_last_level (levels f) (levels n)).
Proof.
  intros Hf Hn. unfold compare_topic_filter. rewrite Hf, Hn. simpl.
  apply validate_topic_filter_levels in Hf as (_ & _ & Hf). apply validate_topic_name_levels in Hn as (_ & _ & Hn).
  rewrite compare_topic_filter_loop_levels by done. apply literal_levels in Hn.
  split; [by intros b; apply compare_levels_match | by apply compare_levels_undefined].
Qed.
End tokens.

(** "a/+" and "a/b" *)
Lemma compare_topic_filter_correct_witness : compare_topic_filter [x61; x2f; x2b] [x61; x2f; x62] = None.
Proof.
  apply (compare_topic_filter_correct [x61; x2f; x2b] [x61; x2f; x62]); [by vm_compute | by vm_compute |].
  split; [done|]. right. split; [by right|]. split; [done|]. by left.
Defined.
