(* ===== verification/SubscriptionMap.v ===== *)
(** * Subscriptions by topic filter: tool/include/broker/subscription_map.hpp

    The broker finds the subscriptions that match a topic in a tree whose
    nodes are the levels of the topic filters.  All nodes are in one hash map,
    under the identifier of the parent and the level; a node counts the
    subscriptions at and below it and knows whether it has wildcard children.

    An iterator is the key it points to: nodes other than the one erased
    stay where they are.  In one place this is more than the container
    promises: create_topic_filter keeps its iterators across [emplace], after
    which a rehash has invalidated them (the nodes they point to are still
    there).  [count_storage] is the one of 64-bit hosts.  The
    order in which a [std::unordered_map] is traversed is not specified; here
    it is that of the finite map. *)
From S2P Require Import Prelude Action TopicFilter.

(** ** Counters *)

(** 62 bits and two flags *)
Record count_storage := mk_count_storage {
  value_ : Z;
  has_hash_child_ : bool;
  has_plus_child_ : bool;
}.

Definition make_count_storage (v : Z) : count_storage := mk_count_storage (Z.land v 0x3fffffffffffffff) false false.
Definition max_count : Z := Z.shiftr 0xffffffffffffffff 2.
Definition increment_value (c : count_storage) : count_storage :=
  mk_count_storage (Z.land (value_ c + 1) 0x3fffffffffffffff) (has_hash_child_ c) (has_plus_child_ c).
Definition decrement_value (c : count_storage) : count_storage :=
  mk_count_storage (Z.land (value_ c - 1) 0x3fffffffffffffff) (has_hash_child_ c) (has_plus_child_ c).
Definition set_hash_child (v : bool) (c : count_storage) : count_storage :=
  mk_count_storage (value_ c) v (has_plus_child_ c).
Definition set_plus_child (v : bool) (c : count_storage) : count_storage :=
  mk_count_storage (value_ c) (has_hash_child_ c) v.

(** ** The tree *)

Abbreviation path_entry_key := (Z * list byte)%type.
Abbreviation handle := path_entry_key.

Section base.
Context {Value : Type} {value_init : Inhabited Value}.

Record path_entry := mk_path_entry {
  id : Z;
  parent : path_entry_key;
  count : count_storage;
  value : Value;
}.

(** [value] is default constructed *)
Definition make_path_entry (id : Z) (parent : path_entry_key) : path_entry :=
  mk_path_entry id parent (make_count_storage 1) inhabitant.

Definition set_count (f : count_storage -> count_storage) (e : path_entry) : path_entry :=
  mk_path_entry (id e) (parent e) (f (count e)) (value e).
Definition set_value (f : Value -> Value) (e : path_entry) : path_entry :=
  mk_path_entry (id e) (parent e) (count e) (f (value e)).

Record subscription_map := mk_subscription_map {
  map_ : gmap path_entry_key path_entry;
  next_node_id : Z;
  root_key : path_entry_key;
  root_node_id : Z;
  map_size : Z;
}.

Definition set_map (f : gmap path_entry_key path_entry -> gmap path_entry_key path_entry) (m : subscription_map) :
    subscription_map :=
  mk_subscription_map (f (map_ m)) (next_node_id m) (root_key m) (root_node_id m) (map_size m).
Definition set_next_node_id (x : Z) (m : subscription_map) : subscription_map :=
  mk_subscription_map (map_ m) x (root_key m) (root_node_id m) (map_size m).
Definition set_map_size (x : Z) (m : subscription_map) : subscription_map :=
  mk_subscription_map (map_ m) (next_node_id m) (root_key m) (root_node_id m) x.

Abbreviation program := (action subscription_map).

(** [*it], of an iterator of [map] *)
Definition at_iterator (it : path_entry_key) : program path_entry := m ← get; deref (map_ m !! it).
(** a change of [it->second] *)
Definition modify_entry (f : path_entry -> path_entry) (it : path_entry_key) : program unit :=
  e ← at_iterator it; modify (set_map <[it := f e]>).

Definition generate_node_id : program Z :=
  m ← get;
  if next_node_id m =? size_max then throw max_stored_topics
  else modify (set_next_node_id (next_node_id m + 1));; mret (next_node_id m + 1).

Definition increase_count_storage (it : path_entry_key) : program unit :=
  e ← at_iterator it;
  if value_ (count e) =? max_count then throw max_stored_topics
  else modify_entry (set_count increment_value) it.

Definition decrease_count_storage (it : path_entry_key) : program unit :=
  e ← at_iterator it;
  assert (0 <? value_ (count e));;
  modify_entry (set_count decrement_value) it.

(** [get_root()->second] *)
Definition get_root : program path_entry := m ← get; at_iterator (root_key m).

Definition find_topic_filter (topic_filter : list byte) : program (list path_entry_key) :=
  root ← get_root;
  r ← topic_filter_tokenizer topic_filter
    (fun t '(parent_id, path) =>
      m ← get;
      match map_ m !! (parent_id, t) with
      | None => mret ((parent_id, []), false)
      | Some entry => mret ((id entry, path ++ [(parent_id, t)]), true)
      end)
    (id root, []);
  mret (snd (fst r)).

(** the node of the level [t] below [parent], created or counted *)
Definition create_level (t : list byte) (parent : path_entry_key) : program path_entry_key :=
  p ← at_iterator parent;
  m ← get;
  let entry := (id p, t) in
  match map_ m !! entry with
  | None =>
    n ← generate_node_id;
    modify (set_map <[entry := make_path_entry n parent]>);;
    modify_entry (set_count (fun c => set_plus_child (has_plus_child_ c || bool_decide (t = [plus])) c)) parent;;
    modify_entry (set_count (fun c => set_hash_child (has_hash_child_ c || bool_decide (t = [hash])) c)) parent;;
    mret entry
  | Some _ => increase_count_storage entry;; mret entry
  end.

(** [parent] and [result] are iterators that are used after [emplace]; a rehash
    invalidates them, their keys stay valid *)
Definition create_topic_filter (topic_filter : list byte) : program (list path_entry_key) :=
  m ← get;
  r ← topic_filter_tokenizer topic_filter
    (fun t '(parent, result) => entry ← create_level t parent; mret ((entry, result ++ [entry]), true))
    (root_key m, []);
  mret (snd (fst r)).

(** the flags that an erased child leaves for its parent *)
Definition clear_flags (it : path_entry_key) (remove_plus_child_flag remove_hash_child_flag : bool) : program unit :=
  (if remove_plus_child_flag then modify_entry (set_count (set_plus_child false)) it else mret tt);;
  (if remove_hash_child_flag then modify_entry (set_count (set_hash_child false)) it else mret tt).

Definition remove_entry (entry : path_entry_key) (flags : bool * bool) : program (bool * bool) :=
  clear_flags entry (fst flags) (snd flags);;
  decrease_count_storage entry;;
  e ← at_iterator entry;
  if value_ (count e) =? 0 then
    modify (set_map (delete entry));;
    mret (bool_decide (snd entry = [plus]), bool_decide (snd entry = [hash]))
  else mret (false, false).

Definition remove_topic_filter (path : list path_entry_key) : program unit :=
  flags ← for_each remove_entry (rev path) (false, false);
  m ← get;
  get_root;;
  clear_flags (root_key m) (fst flags) (snd flags).

(** the callback is called with the node that matches; [l] has what it
    captures *)
Definition match_level {L} (callback : path_entry_key -> L -> program L) (t : list byte) (entry : path_entry_key)
    (r : list path_entry_key * L) : program (list path_entry_key * L) :=
  let '(new_entries, l) := r in
  m ← get;
  e ← at_iterator entry;
  let child (t : list byte) := match map_ m !! (id e, t) with Some _ => true | None => false end in
  let not_system := negb (id e =? root_node_id m) || bool_decide (t = []) || negb (is_dollar t) in
  let new_entries := new_entries ++ (if child t then [(id e, t)] else []) in
  let new_entries := new_entries ++ (if has_plus_child_ (count e) && child [plus] && not_system then [(id e, [plus])] else []) in
  if has_hash_child_ (count e) && child [hash] && not_system then
    l ← callback (id e, [hash]) l;
    mret (new_entries, l)
  else mret (new_entries, l).

Definition find_match_impl {L} (topic : list byte) (callback : path_entry_key -> L -> program L) (l : L) : program L :=
  m ← get;
  get_root;;
  r ← topic_filter_tokenizer topic
    (fun t '(entries, l) =>
      '(new_entries, l) ← for_each (match_level callback t) entries ([], l);
      mret ((new_entries, l), negb (bool_decide (new_entries = []))))
    ([root_key m], l);
  let '(entries, l) := fst r in
  for_each callback entries l.

(** up the tree; a node more than there are is never reached *)
Fixpoint handle_to_iterators_loop {L} (fuel : nat) (output : path_entry_key -> L -> program L) (i : handle) (l : L) :
    program L :=
  m ← get;
  if decide (i = root_key m) then mret l
  else
    match map_ m !! i, fuel with
    | None, _ => throw invalid_handle
    | Some e, S fuel => l ← output i l; handle_to_iterators_loop fuel output (parent e) l
    | Some _, O => undefined
    end.

Definition handle_to_iterators {L} (h : handle) (output : path_entry_key -> L -> program L) (l : L) : program L :=
  m ← get; handle_to_iterators_loop (size (map_ m)) output h l.

Definition handle_to_path (h : handle) : program (list path_entry_key) :=
  result ← handle_to_iterators h (fun i result => mret (result ++ [i])) [];
  mret (rev result).

Definition increase_subscriptions_handle (h : handle) : program unit :=
  handle_to_iterators h (fun i _ => increase_count_storage i) tt.

Definition increase_subscriptions (path : list path_entry_key) : program unit :=
  for_each (fun i _ => increase_count_storage i) path tt.

Definition increase_map_size : program unit :=
  m ← get;
  if map_size m =? size_max then throw max_stored_topics else modify (set_map_size (map_size m + 1)).

Definition decrease_map_size : program unit :=
  m ← get; assert (0 <? map_size m);; modify (set_map_size (map_size m - 1)).

(** the constructor *)
Definition make_subscription_map : subscription_map :=
  let root_key := (2, []) in
  mk_subscription_map {[root_key := make_path_entry 1 (0, [])]} 2 root_key 1 0.

Definition internal_size (m : subscription_map) : Z := Z.of_nat (size (map_ m)).

(** [path_to_handle]: the last iterator *)
Definition path_to_handle (path : list path_entry_key) : program handle := deref (last path).

Definition lookup_filter (topic_filter : list byte) : program (option handle) :=
  path ← find_topic_filter topic_filter;
  if decide (path = []) then mret None else h ← path_to_handle path; mret (Some h).

Definition handle_to_topic_filter (h : handle) : program (list byte) :=
  handle_to_iterators h
    (fun i result => mret (if decide (result = []) then snd i else snd i ++ topic_filter_separator :: result)) [].
End base.
Arguments path_entry : clear implicits.
Arguments subscription_map : clear implicits.

(** ** One value for each filter *)
Module single_subscription_map.
Section single.
Context {Value : Type}.
Abbreviation program := (action (subscription_map (option Value))).
Implicit Types v : Value.

Definition insert (topic_filter : list byte) v : program (handle * bool) :=
  existing_subscription ← find_topic_filter topic_filter;
  match last existing_subscription with
  | Some back =>
    e ← at_iterator back;
    match value e with
    | Some _ => mret (back, false)
    | None => modify_entry (set_value (fun _ => Some v)) back;; mret (back, true)
    end
  | None =>
    new_topic_filter ← create_topic_filter topic_filter;
    back ← path_to_handle new_topic_filter;
    modify_entry (set_value (fun _ => Some v)) back;;
    increase_map_size;;
    mret (back, true)
  end.

Definition update (topic_filter : list byte) v : program unit :=
  path ← find_topic_filter topic_filter;
  match last path with
  | Some back => modify_entry (set_value (fun _ => Some v)) back
  | None => throw invalid_topic_filter
  end.

Definition update_handle (h : handle) v : program unit :=
  m ← get;
  match map_ m !! h with
  | Some _ => modify_entry (set_value (fun _ => Some v)) h
  | None => throw invalid_topic_filter
  end.

Definition erase_path (path : list path_entry_key) : program Z :=
  match last path with
  | None => mret 0
  | Some back =>
    e ← at_iterator back;
    match value e with
    | None => mret 0
    | Some _ => remove_topic_filter path;; decrease_map_size;; mret 1
    end
  end.

Definition erase (topic_filter : list byte) : program Z := path ← find_topic_filter topic_filter; erase_path path.
Definition erase_handle (h : handle) : program Z := path ← handle_to_path h; erase_path path.

(** the values the callback is called with *)
Definition find (topic : list byte) : program (list Value) :=
  find_match_impl topic (fun i l => e ← at_iterator i; mret (l ++ match value e with Some v => [v] | None => [] end)) [].
End single.
End single_subscription_map.

(** ** Values by key for each filter *)
Module multiple_subscription_map.
Section multiple.
Context {Key : Type} `{Countable Key} {Value : Type}.
(** [std::unordered_map<Key, Value>] *)
Abbreviation Cont := (gmap Key Value).
Abbreviation program := (action (subscription_map Cont)).
Implicit Types (key : Key) (v : Value).

(** [insert_or_assign] on the container of a node: was the key new? *)
Definition assign (it : path_entry_key) key v : program bool :=
  e ← at_iterator it;
  modify_entry (set_value <[key := v]>) it;;
  mret (bool_decide (value e !! key = None)).

Definition insert_or_assign (topic_filter : list byte) key v : program (handle * bool) :=
  path ← find_topic_filter topic_filter;
  match last path with
  | None =>
    new_topic_filter ← create_topic_filter topic_filter;
    back ← path_to_handle new_topic_filter;
    modify_entry (set_value <[key := v]>) back;;
    increase_map_size;;
    mret (back, true)
  | Some back =>
    inserted ← assign back key v;
    (if inserted : bool then increase_subscriptions path;; increase_map_size else mret tt);;
    mret (back, inserted)
  end.

Definition insert_or_assign_handle (h : handle) key v : program (handle * bool) :=
  m ← get;
  match map_ m !! h with
  | None => throw invalid_handle
  | Some _ =>
    inserted ← assign h key v;
    (if inserted : bool then increase_subscriptions_handle h;; increase_map_size else mret tt);;
    mret (h, inserted)
  end.

(** [erase] on the container of a node: the number of elements removed *)
Definition erase_key (it : path_entry_key) key : program Z :=
  e ← at_iterator it;
  modify_entry (set_value (delete key)) it;;
  mret (match value e !! key with Some _ => 1 | None => 0 end).

Definition erase_handle (h : handle) key : program Z :=
  m ← get;
  match map_ m !! h with
  | None => throw invalid_handle
  | Some _ =>
    result ← erase_key h key;
    (if result =? 0 then mret tt
     else path ← handle_to_path h; remove_topic_filter path;; decrease_map_size);;
    mret result
  end.

Definition erase (topic_filter : list byte) key : program Z :=
  path ← find_topic_filter topic_filter;
  match last path with
  | None => mret 0
  | Some back =>
    result ← erase_key back key;
    (if result =? 0 then mret tt else decrease_map_size;; remove_topic_filter path);;
    mret result
  end.

(** the keys and values the callback is called with *)
Definition find (topic : list byte) : program (list (Key * Value)) :=
  find_match_impl topic (fun i l => e ← at_iterator i; mret (l ++ map_to_list (value e))) [].

(** the callback gives each value it is called with a new value *)
Definition modify (topic : list byte) (callback : Key -> Value -> Value) : program unit :=
  find_match_impl topic (fun i _ => modify_entry (set_value (map_imap (fun k x => Some (callback k x)))) i) tt.
End multiple.
End multiple_subscription_map.
