(* ===== verification/SubscriptionTree.v ===== *)
(** * The nodes of the subscription map as a tree

    A node is known by the levels from it up to the root, instead of the
    identifier of its parent.  [shape] relates the hash map of
    SubscriptionMap.v to the tree; the operations on single nodes are
    operations on the tree. *)
From S2P Require Import Prelude Action TopicFilter SubscriptionMap.

(** the levels of a node, the last one first *)
Abbreviation path := (list (list byte)).

(** the node of a topic filter *)
Definition path_of (topic_filter : list byte) : path := rev (levels topic_filter).

Section tree.
Context {Value : Type} {value_init : Inhabited Value}.
Abbreviation smap := (subscription_map Value).

Record node := mk_node { nid : Z; ncount : Z; nvalue : Value }.
Abbreviation tree := (gmap path node).
Implicit Types (T : tree) (p q : path) (n : node) (m : smap).

Definition key_of T p : path_entry_key :=
  match p with [] => (2, []) | t :: q => (match T !! q with Some n => nid n | None => 0 end, t) end.

Definition parent_of T p : path_entry_key := match p with [] => (0, []) | _ :: q => key_of T q end.

(** the entry of a node with the flags for the children "+" and "#" *)
Definition stored (fl : bool * bool) n (parent : path_entry_key) : path_entry Value :=
  mk_path_entry (nid n) parent (mk_count_storage (ncount n) (snd fl) (fst fl)) (nvalue n).

Definition flags T p : bool * bool :=
  (bool_decide (is_Some (T !! ([plus] :: p))), bool_decide (is_Some (T !! ([hash] :: p)))).

Record shape_with (fl : path -> bool * bool) m T : Prop := {
  sh_root : exists n, T !! [] = Some n /\ nid n = 1;
  sh_root_id : root_node_id m = 1;
  sh_root_key : root_key m = (2, []);
  sh_next : 2 <= next_node_id m;
  sh_range p n : T !! p = Some n -> 1 <= nid n <= next_node_id m /\ nid n <> 2;
  sh_inj p q n n' : T !! p = Some n -> T !! q = Some n' -> nid n = nid n' -> p = q;
  sh_closed t q : is_Some (T !! (t :: q)) -> is_Some (T !! q);
  sh_count p n : T !! p = Some n -> 0 <= ncount n <= max_count;
  sh_map k e : map_ m !! k = Some e <-> exists p n, T !! p = Some n /\ k = key_of T p /\ e = stored (fl p) n (parent_of T p);
}.

Definition shape m T : Prop := shape_with (flags T) m T.

(** ** Lookups *)

Section lookup.
Context {fl : path -> bool * bool} {m : smap} {T : tree} (Hs : shape_with fl m T).

Lemma key_of_child t q n : T !! q = Some n -> key_of T (t :: q) = (nid n, t).
Proof. simpl. by intros ->. Qed.

Lemma key_of_inj p q : is_Some (T !! p) -> is_Some (T !! q) -> key_of T p = key_of T q -> p = q.
Proof.
  intros Hp Hq. destruct p as [|t p], q as [|u q]; simpl; [done|..].
  - apply (sh_closed _ _ _ Hs) in Hq as [n Hn]. rewrite Hn. pose proof (sh_range _ _ _ Hs _ _ Hn). intros [= ? _]. lia.
  - apply (sh_closed _ _ _ Hs) in Hp as [n Hn]. rewrite Hn. pose proof (sh_range _ _ _ Hs _ _ Hn). intros [= ? _]. lia.
  - apply (sh_closed _ _ _ Hs) in Hp as [n Hn]. apply (sh_closed _ _ _ Hs) in Hq as [n' Hn']. rewrite Hn, Hn'.
    intros [= Hi ->]. f_equal. by apply (sh_inj _ _ _ Hs _ _ n n').
Qed.

Lemma map_node p n : T !! p = Some n -> map_ m !! key_of T p = Some (stored (fl p) n (parent_of T p)).
Proof. intros Hp. apply (sh_map _ _ _ Hs). eauto. Qed.

Lemma map_child q n t :
  T !! q = Some n -> map_ m !! (nid n, t) = (fun n' => stored (fl (t :: q)) n' (key_of T q)) <$> T !! (t :: q).
Proof.
  intros Hq. destruct (T !! (t :: q)) as [n'|] eqn:Ht; simpl.
  - rewrite <- (key_of_child t q n Hq). by apply map_node.
  - destruct (map_ m !! (nid n, t)) as [e|] eqn:He; [|done].
    apply (sh_map _ _ _ Hs) in He as (p & n' & Hp & Hk & _).
    rewrite <- (key_of_child t q n Hq) in Hk. destruct p as [|u p]; simpl in Hk.
    + rewrite Hq in Hk. pose proof (sh_range _ _ _ Hs _ _ Hq). injection Hk as ? _. lia.
    + destruct (sh_closed _ _ _ Hs u p) as [np Hnp]; [by eexists|]. rewrite Hq, Hnp in Hk. injection Hk as Hid ->.
      rewrite (sh_inj _ _ _ Hs _ _ _ _ Hq Hnp Hid) in Ht. congruence.
Qed.

Lemma at_node p n : T !! p = Some n -> at_iterator (key_of T p) m = Return (stored (fl p) n (parent_of T p)) m.
Proof. intros Hp. unfold at_iterator, get, mbind, action_bind. by rewrite (map_node _ _ Hp). Qed.

Lemma map_root : exists n, T !! [] = Some n /\ nid n = 1 /\ get_root m = Return (stored (fl []) n (0, [])) m.
Proof.
  destruct (sh_root _ _ _ Hs) as (n & Hn & Hid). exists n. split; [done|]. split; [done|].
  unfold get_root, get, mbind, action_bind. rewrite (sh_root_key _ _ _ Hs). exact (at_node [] n Hn).
Qed.

(** a node above a node *)
Lemma sh_above r q : is_Some (T !! (r ++ q)) -> is_Some (T !! q).
Proof. induction r as [|t r IH]; simpl; [done|]. intros Ht. apply IH. by apply (sh_closed _ _ _ Hs) in Ht. Qed.
End lookup.

Lemma shape_with_ext fl fl' m T :
  shape_with fl m T -> (forall p, is_Some (T !! p) -> fl' p = fl p) -> shape_with fl' m T.
Proof.
  intros [] Hfl. split; try done. intros k e. rewrite sh_map0.
  split; intros (p & n & Hp & -> & ->); exists p, n; by rewrite Hfl by (by eexists).
Qed.

Lemma key_of_ext T T' p :
  (forall q, q = tail p -> nid <$> T' !! q = nid <$> T !! q) -> key_of T' p = key_of T p.
Proof.
  intros Hq. destruct p as [|t q]; [done|]. simpl. specialize (Hq q eq_refl). destruct (T !! q), (T' !! q); simplify_eq/=; congruence.
Qed.

(** ** Changes of one node *)

Lemma shape_modify fl fl' m T p n n' f :
  shape_with fl m T -> T !! p = Some n -> nid n' = nid n -> 0 <= ncount n' <= max_count ->
  (forall q, q <> p -> fl' q = fl q) -> (forall par, f (stored (fl p) n par) = stored (fl' p) n' par) ->
  exists m', modify_entry f (key_of T p) m = Return tt m' /\ shape_with fl' m' (<[p := n']> T) /\
    map_size m' = map_size m /\ next_node_id m' = next_node_id m.
Proof.
  intros Hs Hp Hid Hc Hfl Hf. exists (set_map <[key_of T p := f (stored (fl p) n (parent_of T p))]> m). split; [|split; [|done]].
  { unfold modify_entry. etransitivity; [exact (bind_return _ _ _ _ _ (at_node Hs _ _ Hp)) | reflexivity]. }
  set (T' := <[p := n']> T). assert (Hext : forall q, nid <$> T' !! q = nid <$> T !! q).
  { intros q. unfold T'. destruct (decide (q = p)) as [->|Hq]; [by rewrite lookup_insert_eq, Hp; simpl; rewrite Hid|].
    by rewrite lookup_insert_ne. }
  assert (Hkey : forall q, key_of T' q = key_of T q) by (intros; by apply key_of_ext).
  assert (Hpar : forall q, parent_of T' q = parent_of T q) by (intros [|? ?]; [done | apply Hkey]).
  assert (Hold : forall q n1, T' !! q = Some n1 -> exists n0, T !! q = Some n0 /\ nid n1 = nid n0).
  { intros q n1 Hq. specialize (Hext q). rewrite Hq in Hext. destruct (T !! q); simplify_eq/=. eauto. }
  split; try apply Hs.
  - destruct (sh_root _ _ _ Hs) as (nr & Hr & Hr1). specialize (Hext []). rewrite Hr in Hext.
    destruct (T' !! []) as [nr'|]; simplify_eq/=. exists nr'. split; [done | congruence].
  - intros q n1 Hq. destruct (Hold _ _ Hq) as (n0 & Hq0 & ->). by apply (sh_range _ _ _ Hs q).
  - intros q r n1 n2 Hq Hr He. destruct (Hold _ _ Hq) as (n3 & Hq0 & H1), (Hold _ _ Hr) as (n4 & Hr0 & H2).
    apply (sh_inj _ _ _ Hs _ _ n3 n4); congruence.
  - intros t q [n1 Ht]. destruct (Hold _ _ Ht) as (n0 & Ht0 & _). destruct (sh_closed _ _ _ Hs t q) as [n2 Hn2]; [by eexists|].
    specialize (Hext q). rewrite Hn2 in Hext. destruct (T' !! q); [by eexists | done].
  - intros q n1 Hq. unfold T' in Hq. destruct (decide (q = p)) as [->|Hne].
    + rewrite lookup_insert_eq in Hq. by simplify_eq.
    + rewrite lookup_insert_ne in Hq by done. by apply (sh_count _ _ _ Hs q).
  - intros k e. unfold set_map. cbn [map_]. destruct (decide (k = key_of T p)) as [->|Hk].
    + rewrite lookup_insert_eq. split.
      * intros [= <-]. exists p, n'. unfold T' at 1. rewrite lookup_insert_eq, Hkey, Hpar, Hf. done.
      * intros (q & n1 & Hq & Heq & ->). rewrite Hkey in Heq. destruct (Hold _ _ Hq) as (n0 & Hq0 & _).
        assert (q = p) as -> by (symmetry; apply (key_of_inj Hs); [by eexists.. | done]).
        unfold T' in Hq. rewrite lookup_insert_eq in Hq. simplify_eq. by rewrite Hf, Hpar.
    + rewrite lookup_insert_ne by done. rewrite (sh_map _ _ _ Hs).
      split; intros (q & n1 & Hq & -> & ->); exists q, n1; rewrite Hkey, Hpar.
      * assert (q <> p) by (intros ->; done). unfold T'. by rewrite lookup_insert_ne, Hfl.
      * assert (Hne : q <> p) by (intros ->; rewrite Hkey in Hk; done). unfold T' in Hq.
        rewrite lookup_insert_ne in Hq by done. by rewrite Hfl.
Qed.

(** ** Nodes that come and go *)

Lemma tail_not_self (t : list byte) q : q <> t :: q.
Proof. intros H. apply (f_equal length) in H. simpl in H. lia. Qed.

Lemma shape_insert fl m T t q n :
  shape_with fl m T -> is_Some (T !! q) -> T !! (t :: q) = None -> nid n = next_node_id m + 1 -> 0 <= ncount n <= max_count ->
  shape_with fl (set_map <[key_of T (t :: q) := stored (fl (t :: q)) n (key_of T q)]> (set_next_node_id (next_node_id m + 1) m))
    (<[t :: q := n]> T).
Proof.
  intros Hs Hq Ht Hid Hc. set (T' := <[t :: q := n]> T). pose proof (sh_next _ _ _ Hs) as Hnext.
  assert (Hne : forall p, p <> t :: q -> T' !! p = T !! p) by (intros; by apply lookup_insert_ne).
  assert (Hlive : forall p, is_Some (T !! p) -> p <> t :: q) by (intros p [? Hp] ->; congruence).
  assert (Hkey : forall p, tail p <> t :: q -> key_of T' p = key_of T p).
  { intros p Hp. apply key_of_ext. intros r ->. by rewrite Hne. }
  assert (Htail : forall p, is_Some (T !! p) -> tail p <> t :: q).
  { intros [|u p] Hp; [done|]. apply Hlive. by apply (sh_closed _ _ _ Hs u). }
  assert (Hself : key_of T' (t :: q) = key_of T (t :: q)) by (apply Hkey, tail_not_self).
  assert (Hpar : forall p, is_Some (T !! p) -> parent_of T' p = parent_of T p).
  { intros [|u p] Hp; [done|]. apply Hkey, Htail. by apply (sh_closed _ _ _ Hs u). }
  assert (Hnew : key_of T' q = key_of T q) by by apply Hkey, Htail.
  assert (Hcases : forall p x, T' !! p = Some x -> (p = t :: q /\ x = n) \/ (p <> t :: q /\ T !! p = Some x)).
  { intros p x Hp. destruct (decide (p = t :: q)) as [->|Hp']; [|right; by rewrite Hne in Hp].
    left. unfold T' in Hp. rewrite lookup_insert_eq in Hp. by simplify_eq. }
  split; cbn [root_node_id root_key next_node_id map_ set_map set_next_node_id]; try apply Hs.
  - destruct (sh_root _ _ _ Hs) as (nr & Hr & Hr1). exists nr. by rewrite Hne.
  - lia.
  - intros p x [[-> ->]|[_ Hp]]%Hcases; [lia|]. pose proof (sh_range _ _ _ Hs _ _ Hp). lia.
  - intros p r x y [[-> ->]|[_ Hp]]%Hcases [[-> ->]|[_ Hr]]%Hcases He; [done|..].
    + pose proof (sh_range _ _ _ Hs _ _ Hr). lia.
    + pose proof (sh_range _ _ _ Hs _ _ Hp). lia.
    + by apply (sh_inj _ _ _ Hs _ _ x y).
  - intros u p [x [[[= -> ->] _]|[_ Hu]]%Hcases]; [rewrite Hne by by apply Hlive | rewrite Hne]; [done| |].
    + apply (sh_closed _ _ _ Hs u). by eexists.
    + apply Hlive. apply (sh_closed _ _ _ Hs u). by eexists.
  - intros p x [[-> ->]|[_ Hp]]%Hcases; [done | by apply (sh_count _ _ _ Hs p)].
  - intros k e. destruct (decide (k = key_of T (t :: q))) as [->|Hk].
    + rewrite lookup_insert_eq. split.
      * intros [= <-]. exists (t :: q), n. unfold T' at 1. rewrite lookup_insert_eq. split; [done|]. split; [done|].
        unfold parent_of. by rewrite Hnew.
      * intros (p & x & [[-> ->]|[Hpne Hp]]%Hcases & Heq & ->).
        -- unfold parent_of. by rewrite Hnew.
        -- exfalso. rewrite Hkey in Heq by (apply Htail; by eexists). destruct Hq as [nq Hq].
           pose proof (map_node Hs _ _ Hp) as Hm. rewrite <- Heq, (key_of_child t q nq Hq), (map_child Hs _ _ _ Hq), Ht in Hm. done.
    + rewrite lookup_insert_ne by done. rewrite (sh_map _ _ _ Hs).
      split; intros (p & x & Hp & -> & ->); exists p, x.
      * assert (is_Some (T !! p)) by by eexists. rewrite Hne, Hkey, Hpar by auto. done.
      * apply Hcases in Hp as [[-> ->]|[Hpne Hp]]; [by rewrite Hself in Hk|].
        assert (is_Some (T !! p)) by by eexists. rewrite Hkey, Hpar by auto. done.
Qed.

Lemma shape_delete fl m T t q :
  shape_with fl m T -> is_Some (T !! (t :: q)) -> (forall u, T !! (u :: t :: q) = None) ->
  shape_with fl (set_map (delete (key_of T (t :: q))) m) (delete (t :: q) T).
Proof.
  intros Hs Ht Hno. set (T' := delete (t :: q) T).
  assert (Hne : forall p, p <> t :: q -> T' !! p = T !! p) by (intros; by apply lookup_delete_ne).
  assert (Htail : forall p, is_Some (T !! p) -> tail p <> t :: q).
  { intros [|u p] [x Hp]; [done|]. simpl. intros ->. by rewrite Hno in Hp. }
  assert (Hkey : forall p, tail p <> t :: q -> key_of T' p = key_of T p).
  { intros p Hp. apply key_of_ext. intros r ->. by rewrite Hne. }
  assert (Hpar : forall p, is_Some (T !! p) -> parent_of T' p = parent_of T p).
  { intros [|u p] Hp; [done|]. apply Hkey, Htail. by apply (sh_closed _ _ _ Hs u). }
  assert (Hcases : forall p x, T' !! p = Some x <-> p <> t :: q /\ T !! p = Some x) by (intros; unfold T'; rewrite lookup_delete_Some; naive_solver).
  split; cbn [root_node_id root_key next_node_id map_ set_map]; try apply Hs.
  - destruct (sh_root _ _ _ Hs) as (nr & Hr & Hr1). exists nr. by rewrite Hne.
  - intros p x [_ Hp]%Hcases. by apply (sh_range _ _ _ Hs p).
  - intros p r x y [_ Hp]%Hcases [_ Hr]%Hcases. by apply (sh_inj _ _ _ Hs).
  - intros u p [x [_ Hu]%Hcases]. assert (is_Some (T !! (u :: p))) as Hi by by eexists.
    rewrite Hne by by apply (Htail (u :: p)). by apply (sh_closed _ _ _ Hs u).
  - intros p x [_ Hp]%Hcases. by apply (sh_count _ _ _ Hs p).
  - intros k e. rewrite lookup_delete_Some, (sh_map _ _ _ Hs). split.
    + intros [Hk (p & x & Hp & -> & ->)]. assert (is_Some (T !! p)) by by eexists. exists p, x.
      rewrite Hkey, Hpar by auto. split; [|done]. apply Hcases. split; [by intros -> | done].
    + intros (p & x & [Hpne Hp]%Hcases & -> & ->). assert (is_Some (T !! p)) by by eexists. rewrite Hkey, Hpar by auto.
      split; [|by exists p, x]. intros Heq. apply Hpne. symmetry. by apply (key_of_inj Hs).
Qed.

(** ** The nodes of a path *)

(** the nodes below [q] along the levels *)
Fixpoint paths q (ts : list (list byte)) : list path :=
  match ts with [] => [] | t :: ts => (t :: q) :: paths (t :: q) ts end.

(** a node and those above it, without the root *)
Fixpoint suffixes p : list path := match p with [] => [] | _ :: q => p :: suffixes q end.

Lemma paths_app q ts1 ts2 : paths q (ts1 ++ ts2) = paths q ts1 ++ paths (rev ts1 ++ q) ts2.
Proof. revert q. induction ts1 as [|t ts IH]; intros q; simpl; [done|]. by rewrite IH, <- app_assoc. Qed.

Lemma rev_paths ts : rev (paths [] ts) = suffixes (rev ts).
Proof.
  induction ts as [|t ts IH] using rev_ind; [done|]. rewrite paths_app, !rev_app_distr, app_nil_r. simpl. by rewrite IH.
Qed.

Lemma elem_of_suffixes p q : q ∈ suffixes p <-> q <> [] /\ exists r, p = r ++ q.
Proof.
  induction p as [|t p IH]; simpl.
  - rewrite elem_of_nil. split; [done|]. intros [Hq [r Hr]]. destruct r, q; done.
  - rewrite elem_of_cons, IH. split.
    + intros [->|[Hq [r ->]]]; [split; [done | by exists []] | split; [done | by exists (t :: r)]].
    + intros [Hq [[|u r] Hr]]; [by left | right]. injection Hr as -> ->. split; [done | by exists r].
Qed.

Lemma elem_of_paths ts q : q ∈ paths [] ts <-> q ∈ suffixes (rev ts).
Proof. by rewrite <- rev_paths, !list_elem_of_In, <- in_rev. Qed.

Lemma suffixes_length p q : q ∈ suffixes p -> (length q <= length p)%nat.
Proof. intros [_ [r ->]]%elem_of_suffixes. rewrite length_app. lia. Qed.

Lemma NoDup_suffixes p : NoDup (suffixes p).
Proof.
  induction p as [|t p IH]; simpl; constructor; [|done]. intros H%suffixes_length. simpl in H. lia.
Qed.

Lemma NoDup_paths ts : NoDup (paths [] ts).
Proof. rewrite (Permutation_rev (paths [] ts)), rev_paths. apply NoDup_suffixes. Qed.

Lemma last_paths q ts : ts <> [] -> last (paths q ts) = Some (rev ts ++ q).
Proof.
  induction ts as [|t ts _] using rev_ind; [done|]. intros _. rewrite paths_app, rev_app_distr. simpl. apply last_snoc.
Qed.

(** ** The search for a filter *)

Lemma each_level_app_rev (ts : list (list byte)) (t : list byte) q : rev ts ++ t :: q = rev (t :: ts) ++ q.
Proof. simpl. by rewrite <- app_assoc. Qed.

Lemma find_levels m T :
  shape m T -> forall ts q n acc c, T !! q = Some n -> ts <> [] ->
  exists x c', each_level (fun t '(parent_id, path) =>
      m ← get;
      match map_ m !! (parent_id, t) with
      | None => mret ((parent_id, []), false)
      | Some entry => mret ((id entry, path ++ [(parent_id, t)]), true)
      end) ts c (nid n, acc) m =
    Return ((x, if decide (is_Some (T !! (rev ts ++ q))) then acc ++ map (key_of T) (paths q ts) else []), c') m.
Proof.
  intros Hs. induction ts as [|t ts IH]; intros q n acc c Hq Hts; [done|]. cbn [each_level].
  unfold mbind at 1, action_bind at 1, mbind at 1, action_bind at 1, get at 1. rewrite (map_child Hs _ _ _ Hq).
  rewrite <- each_level_app_rev. destruct (T !! (t :: q)) as [nt|] eqn:Ht; simpl.
  - destruct ts as [|t' ts].
    + exists (nid nt), c. rewrite decide_True by (simpl; rewrite Ht; by eexists). simpl. by rewrite Hq.
    + destruct (IH (t :: q) nt (acc ++ [(nid n, t)]) (c + 1) Ht ltac:(done)) as (x & c' & Hrun). exists x, c'.
      simpl in Hrun |- *. rewrite Hrun. do 3 f_equal. destruct (decide _); [|done]. rewrite <- app_assoc. simpl. by rewrite Hq.
  - assert (~ is_Some (T !! (rev ts ++ t :: q))) as Hno.
    { intros H. apply (sh_above Hs) in H. rewrite Ht in H. by destruct H. }
    rewrite decide_False by done. exists (nid n), c. by destruct ts.
Qed.

Lemma find_topic_filter_run m T f :
  shape m T ->
  find_topic_filter f m =
  Return (if decide (is_Some (T !! path_of f)) then map (key_of T) (paths [] (levels f)) else []) m.
Proof.
  intros Hs. destruct (map_root Hs) as (n & Hn & _ & Hroot). unfold find_topic_filter.
  etransitivity; [exact (bind_return _ _ _ _ _ Hroot)|].
  destruct (find_levels m T Hs (levels f) [] n [] 1 Hn (levels_nonempty f)) as (x & c & Hrun).
  etransitivity; [apply bind_return; rewrite topic_filter_tokenizer_levels; exact Hrun|].
  unfold path_of. by rewrite app_nil_r.
Qed.

(** ** Counting *)

Definition set_ncount (f : Z -> Z) n : node := mk_node (nid n) (f (ncount n)) (nvalue n).
Definition set_nvalue (f : Value -> Value) n : node := mk_node (nid n) (ncount n) (f (nvalue n)).

Lemma land_count v : 0 <= v <= max_count -> Z.land v 0x3fffffffffffffff = v.
Proof.
  intros Hv. change 0x3fffffffffffffff with (Z.ones 62). rewrite Z.land_ones by lia. apply Z.mod_small.
  change max_count with (2 ^ 62 - 1) in Hv. lia.
Qed.

(** the nodes are the same, with the same children, but for counters and values *)
Lemma flags_ext T T' p : (forall q, is_Some (T' !! q) <-> is_Some (T !! q)) -> flags T' p = flags T p.
Proof. intros H. unfold flags. by rewrite !(bool_decide_ext _ _ (H _)). Qed.

Lemma shape_modify_node m T p n n' f :
  shape m T -> T !! p = Some n -> nid n' = nid n -> 0 <= ncount n' <= max_count ->
  (forall fl par, f (stored fl n par) = stored fl n' par) ->
  exists m', modify_entry f (key_of T p) m = Return tt m' /\ shape m' (<[p := n']> T) /\
    map_size m' = map_size m /\ next_node_id m' = next_node_id m.
Proof.
  intros Hs Hp Hid Hc Hf. destruct (shape_modify (flags T) (flags T) m T p n n' f) as (m' & Hrun & Hs' & Hm); try done.
  exists m'. split; [done|]. split; [|done]. apply (shape_with_ext _ _ _ _ Hs'). intros q _. apply flags_ext.
  intros r. rewrite lookup_insert_is_Some. split; [intros [<-|[_ H]]; [by eexists | done] | ].
  intros H. destruct (decide (p = r)); [by left | by right].
Qed.

Lemma increase_run m T p n :
  shape m T -> T !! p = Some n -> ncount n < max_count ->
  exists m', increase_count_storage (key_of T p) m = Return tt m' /\ shape m' (<[p := set_ncount Z.succ n]> T) /\
    map_size m' = map_size m /\ next_node_id m' = next_node_id m.
Proof.
  intros Hs Hp Hlt. pose proof (sh_count _ _ _ Hs _ _ Hp) as Hc.
  destruct (shape_modify_node m T p n (set_ncount Z.succ n) (set_count increment_value) Hs Hp eq_refl) as (m' & Hrun & Hrest).
  - simpl. lia.
  - intros fl par. unfold stored, set_count, increment_value. simpl. by rewrite land_count by lia.
  - exists m'. split; [|done]. unfold increase_count_storage.
    etransitivity; [exact (bind_return _ _ _ _ _ (at_node Hs _ _ Hp))|]. cbn [count value_ stored].
    by rewrite (proj2 (Z.eqb_neq _ _)) by lia.
Qed.

Lemma decrease_run m T p n :
  shape m T -> T !! p = Some n -> 0 < ncount n ->
  exists m', decrease_count_storage (key_of T p) m = Return tt m' /\ shape m' (<[p := set_ncount Z.pred n]> T) /\
    map_size m' = map_size m /\ next_node_id m' = next_node_id m.
Proof.
  intros Hs Hp Hlt. pose proof (sh_count _ _ _ Hs _ _ Hp) as Hc.
  destruct (shape_modify_node m T p n (set_ncount Z.pred n) (set_count decrement_value) Hs Hp eq_refl) as (m' & Hrun & Hrest).
  - simpl. lia.
  - intros fl par. unfold stored, set_count, decrement_value. simpl. by rewrite land_count by lia.
  - exists m'. split; [|done]. unfold decrease_count_storage.
    etransitivity; [exact (bind_return _ _ _ _ _ (at_node Hs _ _ Hp))|]. cbn [count value_ stored].
    by rewrite (proj2 (Z.ltb_lt _ _) Hlt).
Qed.

(** the nodes [ps] are counted once more, or are new *)
Definition counted T T' (ps : list path) : Prop :=
  (forall p, p ∉ ps -> T' !! p = T !! p) /\
  (forall p, p ∈ ps -> exists n', T' !! p = Some n' /\
     match T !! p with
     | Some n => n' = set_ncount Z.succ n
     | None => ncount n' = 1 /\ nvalue n' = inhabitant
     end).

Lemma counted_nil T : counted T T [].
Proof. split; [done|]. intros p Hp. by apply elem_of_nil in Hp. Qed.

Lemma counted_insert T p n : T !! p = Some n -> counted T (<[p := set_ncount Z.succ n]> T) [p].
Proof.
  intros Hp. split.
  - intros q Hq. rewrite lookup_insert_ne; [done|]. set_solver.
  - intros q ->%list_elem_of_singleton. rewrite lookup_insert_eq, Hp. eauto.
Qed.

Lemma counted_cons T T1 T2 p ps : counted T T1 [p] -> counted T1 T2 ps -> p ∉ ps -> counted T T2 (p :: ps).
Proof.
  intros [H1 H1'] [H2 H2'] Hp. split.
  - intros q [Hq Hps]%not_elem_of_cons. rewrite H2, H1; [done | set_solver | done].
  - intros q [->|Hq]%elem_of_cons.
    + rewrite H2 by done. apply H1'. set_solver.
    + assert (q ∉ [p]) by set_solver. rewrite <- H1 by done. by apply H2'.
Qed.

Lemma counted_nid T T' ps p : counted T T' ps -> is_Some (T !! p) -> nid <$> T' !! p = nid <$> T !! p.
Proof.
  intros [H1 H2] [n Hn]. destruct (decide (p ∈ ps)) as [Hp|Hp]; [|by rewrite H1].
  destruct (H2 p Hp) as (n' & -> & H). by rewrite Hn in *; subst.
Qed.

Lemma counted_key T T' ps p : counted T T' ps -> is_Some (T !! tail p) -> key_of T' p = key_of T p.
Proof. intros Hc Hp. apply key_of_ext. intros q ->. by eapply counted_nid. Qed.

Lemma not_in_paths_self t q ts : t :: q ∉ paths (t :: q) ts.
Proof.
  enough (forall q ts p, p ∈ paths q ts -> (length q < length p)%nat) as H by (intros Hin%H; lia).
  clear. intros q ts. revert q. induction ts as [|t ts IH]; intros q p; simpl; [by rewrite elem_of_nil|].
  intros [->|Hp%IH]%elem_of_cons; simpl in *; lia.
Qed.

Lemma increase_all m T : forall ps,
  shape m T -> NoDup ps -> (forall p, p ∈ ps -> exists n, T !! p = Some n /\ ncount n < max_count) ->
  exists m' T', for_each (fun i _ => increase_count_storage i) (map (key_of T) ps) tt m = Return tt m' /\
    shape m' T' /\ counted T T' ps /\ map_size m' = map_size m /\ next_node_id m' = next_node_id m.
Proof.
  intros ps. revert m T. induction ps as [|p ps IH]; intros m T Hs Hnd Hps; simpl.
  - exists m, T. split; [done|]. split; [done|]. split; [apply counted_nil | done].
  - apply NoDup_cons in Hnd as [Hp Hnd]. destruct (Hps p) as (n & Hn & Hlt); [by left|].
    destruct (increase_run m T p n Hs Hn Hlt) as (m1 & Hrun & Hs1 & Hm1 & Hx1). pose proof (counted_insert T p n Hn) as Hc1.
    destruct (IH m1 _ Hs1 Hnd) as (m2 & T2 & Hrun2 & Hs2 & Hc2 & Hm2 & Hx2).
    { intros q Hq. destruct (Hps q) as (nq & Hnq & Hltq); [by right|]. exists nq. split; [|done].
      rewrite lookup_insert_ne; [done|]. by intros ->. }
    exists m2, T2. split; [|split; [done|]; split; [by eapply counted_cons | split; congruence]].
    etransitivity; [exact (bind_return _ _ _ _ _ Hrun)|]. rewrite <- Hrun2. f_equal. apply map_ext_in.
    intros q Hq. apply list_elem_of_In in Hq. symmetry. apply (counted_key _ _ _ _ Hc1).
    destruct (Hps q) as (nq & Hnq & _); [by right|]. destruct q as [|u q]; [by eexists|]. simpl.
    apply (sh_closed _ _ _ Hs u). by eexists.
Qed.

Lemma increase_subscriptions_run m T ps :
  shape m T -> NoDup ps -> (forall p, p ∈ ps -> exists n, T !! p = Some n /\ ncount n < max_count) ->
  exists m' T', increase_subscriptions (map (key_of T) ps) m = Return tt m' /\
    shape m' T' /\ counted T T' ps /\ map_size m' = map_size m /\ next_node_id m' = next_node_id m.
Proof. apply increase_all. Qed.

(** ** New nodes *)

Lemma shape_set_flag m T fl q n (b : bool) (x : list byte) :
  shape_with fl m T -> T !! q = Some n -> x = [plus] \/ x = [hash] ->
  let f c := if decide (x = [plus]) then set_plus_child (has_plus_child_ c || b) c else set_hash_child (has_hash_child_ c || b) c in
  let fl' p := if decide (p = q) then
    (if decide (x = [plus]) then (fst (fl p) || b, snd (fl p)) else (fst (fl p), snd (fl p) || b)) else fl p in
  exists m', modify_entry (set_count f) (key_of T q) m = Return tt m' /\ shape_with fl' m' T /\
    map_size m' = map_size m /\ next_node_id m' = next_node_id m.
Proof.
  intros Hs Hq Hx f fl'. destruct (shape_modify fl fl' m T q n n (set_count f) Hs Hq eq_refl) as (m' & Hrun & Hs' & Hm).
  - by apply (sh_count _ _ _ Hs q).
  - intros p Hp. unfold fl'. by rewrite decide_False.
  - intros par. unfold fl'. rewrite decide_True by done. unfold f, stored, set_count. by case_decide.
  - exists m'. split; [done|]. by rewrite insert_id in Hs'.
Qed.

Lemma flag_insert T t q n x p :
  bool_decide (is_Some (<[t :: q := n]> T !! (x :: p))) =
  bool_decide (is_Some (T !! (x :: p))) || (bool_decide (p = q) && bool_decide (t = x)).
Proof.
  destruct (decide (x :: p = t :: q)) as [[= -> ->]|Hne].
  - rewrite lookup_insert_eq, (bool_decide_eq_true_2 (q = q)), (bool_decide_eq_true_2 (t = t)) by done.
    simpl. by rewrite orb_true_r.
  - rewrite lookup_insert_ne by congruence. destruct (decide (p = q)) as [->|Hp].
    + rewrite (bool_decide_eq_false_2 (t = x)) by congruence. by rewrite andb_false_r, orb_false_r.
    + rewrite (bool_decide_eq_false_2 (p = q)) by done. by rewrite orb_false_r.
Qed.

Lemma create_new m T t q nq :
  shape m T -> T !! q = Some nq -> T !! (t :: q) = None -> next_node_id m < size_max ->
  exists m' n', create_level t (key_of T q) m = Return (key_of T (t :: q)) m' /\ shape m' (<[t :: q := n']> T) /\
    ncount n' = 1 /\ nvalue n' = inhabitant /\ map_size m' = map_size m /\ next_node_id m' = next_node_id m + 1.
Proof.
  intros Hs Hq Ht Hlt. set (n' := mk_node (next_node_id m + 1) 1 inhabitant). set (T' := <[t :: q := n']> T).
  assert (Hleaf : flags T (t :: q) = (false, false)).
  { unfold flags. rewrite !bool_decide_eq_false_2; [done|..]; intros H%(sh_closed _ _ _ Hs); rewrite Ht in H; by destruct H. }
  pose proof (shape_insert (flags T) m T t q n' Hs ltac:(by eexists) Ht eq_refl ltac:(by vm_compute)) as Hs1.
  fold T' in Hs1. rewrite Hleaf in Hs1. match type of Hs1 with shape_with _ ?x _ => set (m1 := x) in Hs1 end.
  assert (Hq1 : T' !! q = Some nq) by (unfold T'; rewrite lookup_insert_ne; [done | intros H; by apply (tail_not_self t q)]).
  assert (Hkey : key_of T' q = key_of T q).
  { apply key_of_ext. intros r ->. unfold T'. rewrite lookup_insert_ne; [done|]. intros H.
    destruct q as [|u q]; [done|]. apply (f_equal length) in H. simpl in H. lia. }
  destruct (shape_set_flag m1 T' (flags T) q nq (bool_decide (t = [plus])) [plus] Hs1 Hq1) as (m2 & Hrun2 & Hs2 & Hm2 & Hx2); [by left|].
  destruct (shape_set_flag m2 T' _ q nq (bool_decide (t = [hash])) [hash] Hs2 Hq1) as (m3 & Hrun3 & Hs3 & Hm3 & Hx3); [by right|].
  exists m3, n'. rewrite Hkey in Hrun2, Hrun3. split; [|split].
  - unfold create_level. etransitivity; [exact (bind_return _ _ _ _ _ (at_node Hs _ _ Hq))|]. cbn [id stored].
    etransitivity; [exact (bind_return _ _ _ _ m eq_refl)|]. cbv zeta. rewrite (map_child Hs _ _ _ Hq), Ht. simpl.
    etransitivity; [eapply bind_return; unfold generate_node_id; etransitivity; [exact (bind_return _ _ _ _ m eq_refl)|];
      rewrite (proj2 (Z.eqb_neq _ _)) by lia; reflexivity|].
    etransitivity; [apply (bind_return _ _ _ tt m1); unfold m1; rewrite (key_of_child _ _ _ Hq); reflexivity|].
    etransitivity; [exact (bind_return _ _ _ _ _ Hrun2)|].
    etransitivity; [exact (bind_return _ _ _ _ _ Hrun3)|]. by rewrite Hq.
  - apply (shape_with_ext _ _ _ _ Hs3). intros p _. unfold flags. unfold T'. rewrite !flag_insert.
    rewrite (decide_False (P := [hash] = [plus])), (decide_True (P := [plus] = [plus])) by done. destruct (decide (p = q)) as [->|Hp].
    + by rewrite (bool_decide_eq_true_2 (q = q)) by done.
    + rewrite (bool_decide_eq_false_2 (p = q)) by done. by rewrite !orb_false_r.
  - split; [done|]. split; [done|]. rewrite Hm3, Hm2, Hx3, Hx2. done.
Qed.

Lemma create_level_run m T t q nq :
  shape m T -> T !! q = Some nq -> next_node_id m < size_max -> (forall n, T !! (t :: q) = Some n -> ncount n < max_count) ->
  exists m' T', create_level t (key_of T q) m = Return (key_of T (t :: q)) m' /\ shape m' T' /\ counted T T' [t :: q] /\
    map_size m' = map_size m /\ next_node_id m' <= next_node_id m + 1.
Proof.
  intros Hs Hq Hlt Hc. destruct (T !! (t :: q)) as [n|] eqn:Ht.
  - destruct (increase_run m T (t :: q) n Hs Ht (Hc n eq_refl)) as (m' & Hrun & Hs' & Hm & Hx).
    exists m', (<[t :: q := set_ncount Z.succ n]> T). split; [|split; [done|]; split; [by apply counted_insert | split; [done | lia]]].
    unfold create_level. etransitivity; [exact (bind_return _ _ _ _ _ (at_node Hs _ _ Hq))|]. cbn [id stored].
    etransitivity; [exact (bind_return _ _ _ _ m eq_refl)|]. cbv zeta. rewrite (map_child Hs _ _ _ Hq), Ht. simpl.
    rewrite <- (key_of_child t q nq Hq). etransitivity; [exact (bind_return _ _ _ _ _ Hrun) | done].
  - destruct (create_new m T t q nq Hs Hq Ht Hlt) as (m' & n' & Hrun & Hs' & Hn1 & Hn2 & Hm & Hx).
    exists m', (<[t :: q := n']> T). split; [done|]. split; [done|]. split; [|split; [done | lia]]. split.
    + intros p Hp. rewrite lookup_insert_ne; [done|]. set_solver.
    + intros p ->%list_elem_of_singleton. rewrite lookup_insert_eq, Ht. eauto.
Qed.

Lemma create_levels : forall ts m T q nq acc c,
  shape m T -> T !! q = Some nq -> ts <> [] -> next_node_id m + Z.of_nat (length ts) <= size_max ->
  (forall p n, p ∈ paths q ts -> T !! p = Some n -> ncount n < max_count) ->
  exists m' T' x c', each_level (fun t '(parent, result) =>
      entry ← create_level t parent; mret ((entry, result ++ [entry]), true)) ts c (key_of T q, acc) m =
    Return ((x, acc ++ map (key_of T') (paths q ts)), c') m' /\
    shape m' T' /\ counted T T' (paths q ts) /\ map_size m' = map_size m /\
    next_node_id m' <= next_node_id m + Z.of_nat (length ts).
Proof.
  induction ts as [|t ts IH]; intros m T q nq acc c Hs Hq Hts Hroom Hc; [done|].
  cbn [length paths] in *. destruct (create_level_run m T t q nq Hs Hq) as (m1 & T1 & Hrun & Hs1 & Hc1 & Hm1 & Hx1).
  { lia. }
  { intros n. apply Hc. by left. }
  destruct (proj2 Hc1 (t :: q)) as (n1 & Hn1 & _); [by left|].
  assert (Hkey : key_of T1 (t :: q) = key_of T (t :: q)) by (eapply counted_key; [done | by eexists]).
  assert (Hstep : forall k, each_level (fun t '(parent, result) =>
      entry ← create_level t parent; mret ((entry, result ++ [entry]), true)) (t :: ts) c (key_of T q, acc) m = k <->
    (match ts with [] => mret ((key_of T (t :: q), acc ++ [key_of T (t :: q)]), c)
     | _ => each_level (fun t '(parent, result) =>
       entry ← create_level t parent; mret ((entry, result ++ [entry]), true)) ts (c + 1)
         (key_of T (t :: q), acc ++ [key_of T (t :: q)]) end) m1 = k).
  { intros k. cbn [each_level]. unfold mbind at 1, action_bind at 1, mbind at 1, action_bind at 1. rewrite Hrun. by destruct ts. }
  destruct ts as [|t' ts].
  - exists m1, T1, (key_of T (t :: q)), c. split; [|split; [done|]; split; [done|]; split; [done | simpl; lia]].
    apply Hstep. cbn [map paths]. by rewrite Hkey.
  - destruct (IH m1 T1 (t :: q) n1 (acc ++ [key_of T1 (t :: q)]) (c + 1) Hs1 Hn1) as (m2 & T2 & x & c' & Hrun2 & Hs2 & Hc2 & Hm2 & Hx2);
      [done | lia | |].
    { intros p n Hp Hn. apply (Hc p n); [by right|]. rewrite <- (proj1 Hc1); [done|].
      intros ->%list_elem_of_singleton. by apply not_in_paths_self in Hp. }
    exists m2, T2, x, c'. split; [|split; [done|]; split; [|split; [congruence | lia]]].
    + assert (Hk2 : key_of T2 (t :: q) = key_of T1 (t :: q)).
      { apply (counted_key _ _ _ _ Hc2), (sh_closed _ _ _ Hs1 t). by eexists. }
      apply Hstep. by rewrite <- Hkey, Hrun2, <- app_assoc, map_cons, Hk2.
    + eapply counted_cons; [done | done | apply not_in_paths_self].
Qed.

Lemma create_topic_filter_run m T f :
  shape m T -> next_node_id m + Z.of_nat (length (levels f)) <= size_max ->
  (forall p n, p ∈ suffixes (path_of f) -> T !! p = Some n -> ncount n < max_count) ->
  exists m' T', create_topic_filter f m = Return (map (key_of T') (paths [] (levels f))) m' /\
    shape m' T' /\ counted T T' (suffixes (path_of f)) /\ map_size m' = map_size m /\
    next_node_id m' <= next_node_id m + Z.of_nat (length (levels f)).
Proof.
  intros Hs Hroom Hc. destruct (sh_root _ _ _ Hs) as (n & Hn & _).
  destruct (create_levels (levels f) m T [] n [] 1 Hs Hn (levels_nonempty f) Hroom) as (m' & T' & x & c & Hrun & Hs' & Hc' & Hm).
  { intros p np Hp. apply Hc. by apply elem_of_paths. }
  exists m', T'. split; [|split; [done|]; split; [|done]].
  - unfold create_topic_filter. etransitivity; [exact (bind_return _ _ _ _ m eq_refl)|]. rewrite (sh_root_key _ _ _ Hs).
    etransitivity; [apply bind_return; rewrite topic_filter_tokenizer_levels; exact Hrun|]. done.
  - destruct Hc' as [H1 H2]. split; intros p Hp; [apply H1 | apply H2]; by rewrite elem_of_paths.
Qed.

(** ** Removal *)

(** a node is counted once less, and goes with its last subscription *)
Definition dropped T p : tree :=
  match T !! p with
  | Some n => if ncount n =? 1 then delete p T else <[p := set_ncount Z.pred n]> T
  | None => T
  end.

Fixpoint drop_all T p : tree := match p with [] => T | _ :: q => drop_all (dropped T p) q end.

Fixpoint removable T p : Prop :=
  match p with
  | [] => True
  | _ :: q =>
    (exists n, T !! p = Some n /\ 0 < ncount n /\ (ncount n = 1 -> forall u, T !! (u :: p) = None)) /\
    removable (dropped T p) q
  end.

(** the flags of [p] are still those it had with the child that was erased *)
Definition pending T p (r : bool * bool) (p' : path) : bool * bool :=
  if decide (p' = p) then (fst (flags T p) || fst r, snd (flags T p) || snd r) else flags T p'.

Definition erased_child T p (r : bool * bool) : Prop :=
  (fst r = true -> T !! ([plus] :: p) = None) /\ (snd r = true -> T !! ([hash] :: p) = None).

Lemma no_child_flag T p x : T !! (x :: p) = None -> bool_decide (is_Some (T !! (x :: p))) = false.
Proof. intros ->. by rewrite bool_decide_eq_false_2. Qed.

Lemma clear_flags_run m T p r :
  shape_with (pending T p r) m T -> is_Some (T !! p) -> erased_child T p r ->
  exists m', clear_flags (key_of T p) (fst r) (snd r) m = Return tt m' /\ shape m' T /\
    map_size m' = map_size m /\ next_node_id m' = next_node_id m.
Proof.
  intros Hs [n Hp] [Hplus Hhash]. destruct r as [rp rh]. cbn [fst snd] in *.
  assert (exists m1, (if rp then modify_entry (set_count (set_plus_child false)) (key_of T p) else mret tt) m = Return tt m1 /\
    shape_with (pending T p (false, rh)) m1 T /\ map_size m1 = map_size m /\ next_node_id m1 = next_node_id m) as (m1 & Hrun1 & Hs1 & Hm1 & Hx1).
  { destruct rp; [|by exists m]. destruct (shape_modify (pending T p (true, rh)) (pending T p (false, rh)) m T p n n
      (set_count (set_plus_child false)) Hs Hp eq_refl) as (m1 & Hrun & Hs1 & Hm1).
    - by apply (sh_count _ _ _ Hs p).
    - intros q Hq. unfold pending. by rewrite !decide_False.
    - intros par. unfold pending, stored, set_count. rewrite !decide_True by done. simpl.
      unfold flags. simpl. by rewrite (no_child_flag _ _ _ (Hplus eq_refl)).
    - exists m1. rewrite insert_id in Hs1 by done. done. }
  assert (exists m2, (if rh then modify_entry (set_count (set_hash_child false)) (key_of T p) else mret tt) m1 = Return tt m2 /\
    shape_with (pending T p (false, false)) m2 T /\ map_size m2 = map_size m1 /\ next_node_id m2 = next_node_id m1) as (m2 & Hrun2 & Hs2 & Hm2 & Hx2).
  { destruct rh; [|by exists m1]. destruct (shape_modify (pending T p (false, true)) (pending T p (false, false)) m1 T p n n
      (set_count (set_hash_child false)) Hs1 Hp eq_refl) as (m2 & Hrun & Hs2 & Hm2).
    - by apply (sh_count _ _ _ Hs p).
    - intros q Hq. unfold pending. by rewrite !decide_False.
    - intros par. unfold pending, stored, set_count. rewrite !decide_True by done. simpl.
      unfold flags. simpl. by rewrite (no_child_flag _ _ _ (Hhash eq_refl)).
    - exists m2. rewrite insert_id in Hs2 by done. done. }
  exists m2. split; [|split; [|split; congruence]].
  - unfold clear_flags. etransitivity; [exact (bind_return _ _ _ _ _ Hrun1)|]. exact Hrun2.
  - apply (shape_with_ext _ _ _ _ Hs2). intros q _. unfold pending. case_decide as Hq; [|done]. subst q.
    cbn [fst snd]. rewrite !orb_false_r. by destruct (flags T p).
Qed.

Lemma dropped_nid T p q : q <> p -> dropped T p !! q = T !! q.
Proof.
  intros Hq. unfold dropped. destruct (T !! p) as [n|]; [|done].
  destruct (ncount n =? 1); [by rewrite lookup_delete_ne | by rewrite lookup_insert_ne].
Qed.

Lemma dropped_key T p q : q ∈ suffixes (tail p) -> key_of (dropped T p) q = key_of T q.
Proof.
  intros Hq. destruct p as [|t p]; [by apply elem_of_nil in Hq|]. apply key_of_ext. intros r ->.
  rewrite dropped_nid; [done|]. intros Heq. apply suffixes_length in Hq. apply (f_equal length) in Heq.
  destruct q; simpl in *; lia.
Qed.

(** one turn of the loop *)
Lemma remove_entry_run m T t q r :
  let p := t :: q in
  shape_with (pending T p r) m T -> erased_child T p r ->
  (exists n, T !! p = Some n /\ 0 < ncount n /\ (ncount n = 1 -> forall u, T !! (u :: p) = None)) ->
  exists m' r', remove_entry (key_of T p) r m = Return r' m' /\ shape_with (pending (dropped T p) q r') m' (dropped T p) /\
    erased_child (dropped T p) q r' /\ map_size m' = map_size m /\ next_node_id m' = next_node_id m.
Proof.
  intros p Hs He (n & Hn & Hpos & Hno). destruct (clear_flags_run m T p r Hs ltac:(by eexists) He) as (m1 & Hrun1 & Hs1 & Hm1 & Hx1).
  destruct (decrease_run m1 T p n Hs1 Hn Hpos) as (m2 & Hrun2 & Hs2 & Hm2 & Hx2). set (T2 := <[p := set_ncount Z.pred n]> T) in *.
  assert (Hn2 : T2 !! p = Some (set_ncount Z.pred n)) by apply lookup_insert_eq.
  assert (Hkey : key_of T2 p = key_of T p).
  { apply key_of_ext. intros x ->. unfold T2. rewrite lookup_insert_ne; [done|]. intros H. by apply (tail_not_self t q). }
  unfold remove_entry, dropped. rewrite Hn. pose proof (at_node Hs2 _ _ Hn2) as Hat. rewrite Hkey in Hat.
  destruct (Z.eqb_spec (ncount n) 1) as [Hone|Hone].
  - assert (Hdel : delete p T = delete p T2) by (unfold T2; by rewrite delete_insert_eq).
    assert (Hno2 : forall u, T2 !! (u :: p) = None).
    { intros u. unfold T2. rewrite lookup_insert_ne by apply tail_not_self. by apply Hno. }
    pose proof (shape_delete _ _ _ t q Hs2 ltac:(by eexists) Hno2) as Hs3. fold p in Hs3. rewrite Hkey in Hs3.
    exists (set_map (delete (key_of T p)) m2), (bool_decide (t = [plus]), bool_decide (t = [hash])).
    split; [|split; [|split; [|split; simpl; congruence]]].
    + etransitivity; [exact (bind_return _ _ _ _ _ Hrun1)|]. etransitivity; [exact (bind_return _ _ _ _ _ Hrun2)|].
      etransitivity; [exact (bind_return _ _ _ _ _ Hat)|]. simpl. by rewrite Hone.
    + rewrite Hdel. apply (shape_with_ext _ _ _ _ Hs3). intros x _. unfold pending, flags. cbn [fst snd].
      assert (Hx : forall y, bool_decide (is_Some (T2 !! (y :: x))) =
        bool_decide (is_Some (delete p T2 !! (y :: x))) || (bool_decide (x = q) && bool_decide (t = y))).
      { intros y. destruct (decide (y :: x = p)) as [[= -> ->]|Hne].
        - fold p. rewrite Hn2, (bool_decide_eq_true_2 (q = q)), (bool_decide_eq_true_2 (t = t)) by done.
          simpl. by rewrite orb_true_r.
        - rewrite lookup_delete_ne by congruence. destruct (decide (x = q)) as [->|Hp].
          + rewrite (bool_decide_eq_false_2 (t = y)) by (unfold p in Hne; congruence). by rewrite andb_false_r, orb_false_r.
          + rewrite (bool_decide_eq_false_2 (x = q)) by done. by rewrite orb_false_r. }
      rewrite !Hx. case_decide as Hd; [subst x; rewrite (bool_decide_eq_true_2 (q = q)) by done; done|].
      rewrite (bool_decide_eq_false_2 (x = q)) by done. simpl. by rewrite !orb_false_r.
    + split; cbn [fst snd]; intros ->%bool_decide_eq_true; apply lookup_delete_eq.
  - exists m2, (false, false). split; [|split; [|split; [done | split; congruence]]].
    + etransitivity; [exact (bind_return _ _ _ _ _ Hrun1)|]. etransitivity; [exact (bind_return _ _ _ _ _ Hrun2)|].
      etransitivity; [exact (bind_return _ _ _ _ _ Hat)|]. cbn [count stored value_ set_ncount ncount].
      by rewrite (proj2 (Z.eqb_neq _ _)) by lia.
    + apply (shape_with_ext _ _ _ _ Hs2). intros x _. unfold pending. case_decide as Hd; [|done]. subst x. simpl.
      by rewrite !orb_false_r.
Qed.

Lemma remove_loop : forall p m T r,
  shape_with (pending T p r) m T -> erased_child T p r -> removable T p -> is_Some (T !! []) ->
  exists m', (flags ← for_each remove_entry (map (key_of T) (suffixes p)) r;
    m ← get; get_root;; clear_flags (root_key m) (fst flags) (snd flags)) m = Return tt m' /\
    shape m' (drop_all T p) /\ map_size m' = map_size m /\ next_node_id m' = next_node_id m.
Proof.
  induction p as [|t q IH]; intros m T r Hs He Hr Hroot.
  - destruct (clear_flags_run m T [] r Hs Hroot He) as (m' & Hrun & Hs' & Hm). exists m'. split; [|done].
    cbn [suffixes map for_each]. etransitivity; [exact (bind_return _ _ _ r m eq_refl)|].
    etransitivity; [exact (bind_return _ _ _ m m eq_refl)|]. rewrite (sh_root_key _ _ _ Hs).
    destruct (map_root Hs) as (n & _ & _ & Hget). etransitivity; [exact (bind_return _ _ _ _ _ Hget)|]. exact Hrun.
  - destruct Hr as [Hn Hr]. destruct (remove_entry_run m T t q r Hs He Hn) as (m1 & r1 & Hrun1 & Hs1 & He1 & Hm1 & Hx1).
    destruct (IH m1 (dropped T (t :: q)) r1 Hs1 He1 Hr) as (m2 & Hrun2 & Hs2 & Hm2 & Hx2).
    { rewrite dropped_nid; [done | done]. }
    exists m2. split; [|split; [done | split; congruence]]. rewrite <- Hrun2. cbn [suffixes map].
    assert (map (key_of (dropped T (t :: q))) (suffixes q) = map (key_of T) (suffixes q)) as ->.
    { apply map_ext_in. intros x Hx. apply list_elem_of_In in Hx. by apply (dropped_key T (t :: q)). }
    unfold mbind at 1, action_bind at 1. rewrite (for_each_cons _ _ _ _ _ _ _ Hrun1). reflexivity.
Qed.

Lemma remove_topic_filter_run m T f :
  shape m T -> removable T (path_of f) ->
  exists m', remove_topic_filter (map (key_of T) (paths [] (levels f))) m = Return tt m' /\
    shape m' (drop_all T (path_of f)) /\ map_size m' = map_size m /\ next_node_id m' = next_node_id m.
Proof.
  intros Hs Hr. destruct (remove_loop (path_of f) m T (false, false)) as (m' & Hrun & Hs' & Hm); try done.
  - apply (shape_with_ext _ _ _ _ Hs). intros p _. unfold pending. case_decide; [|done]. subst p. simpl. by rewrite !orb_false_r.
  - destruct (sh_root _ _ _ Hs) as (n & Hn & _). by eexists.
  - exists m'. split; [|done]. unfold remove_topic_filter. rewrite <- map_rev, rev_paths. exact Hrun.
Qed.

(** ** Up from a node *)

Lemma suffixes_live fl m T p q : shape_with fl m T -> is_Some (T !! p) -> q ∈ suffixes p -> is_Some (T !! q).
Proof. intros Hs Hp [_ [r ->]]%elem_of_suffixes. by apply (sh_above Hs) in Hp. Qed.

Lemma depth_bound fl m T p : shape_with fl m T -> is_Some (T !! p) -> (length p <= size (map_ m))%nat.
Proof.
  intros Hs Hp. assert (Hlen : length p = length (suffixes p)) by (clear; induction p; simpl; congruence).
  assert (Hnd : NoDup (map (key_of T) (suffixes p))).
  { apply NoDup_fmap_2_strong; [|apply NoDup_suffixes]. intros x y Hx Hy.
    apply (key_of_inj Hs); by eapply suffixes_live. }
  rewrite Hlen, <- (length_map (key_of T)), <- (size_list_to_set (C := gset path_entry_key)) by done.
  rewrite <- (size_dom (D := gset path_entry_key)). apply subseteq_size. intros k Hk.
  apply elem_of_list_to_set, list_elem_of_fmap in Hk as (q & -> & Hq).
  destruct (suffixes_live _ _ _ _ _ Hs Hp Hq) as [n Hn]. apply elem_of_dom. rewrite (map_node Hs _ _ Hn). by eexists.
Qed.

(** the entries from a node up to the root *)
Lemma handle_loop {L} m T (output : path_entry_key -> L -> action smap L) : forall p fuel l l',
  shape m T -> is_Some (T !! p) -> (length p <= fuel)%nat ->
  for_each output (map (key_of T) (suffixes p)) l m = Return l' m ->
  (forall k x s x' s', output k x s = Return x' s' -> s' = s) ->
  handle_to_iterators_loop fuel output (key_of T p) l m = Return l' m.
Proof.
  induction p as [|t q IH]; intros fuel l l' Hs Hp Hf Hrun Hpure.
  - destruct fuel; simpl; unfold mbind, action_bind, get; rewrite (sh_root_key _ _ _ Hs); simpl; exact Hrun.
  - destruct fuel as [|fuel]; [simpl in Hf; lia|]. cbn [suffixes map] in Hrun. destruct Hp as [n Hn].
    assert (Hq : is_Some (T !! q)) by (apply (sh_closed _ _ _ Hs t); by eexists).
    cbn [for_each] in Hrun. unfold mbind, action_bind in Hrun.
    destruct (output (key_of T (t :: q)) l m) as [l1 m1| |] eqn:Hout; [|done..].
    pose proof (Hpure _ _ _ _ _ Hout) as ->. cbn [handle_to_iterators_loop]. unfold mbind at 1, action_bind at 1, get at 1.
    rewrite decide_False.
    + rewrite (map_node Hs _ _ Hn). etransitivity; [exact (bind_return _ _ _ _ _ Hout)|]. cbn [parent stored parent_of].
      apply IH; try done. simpl in Hf. lia.
    + rewrite (sh_root_key _ _ _ Hs). change (2, []) with (key_of T []). intros Heq.
      apply (key_of_inj Hs) in Heq; [done | by eexists|]. destruct (sh_root _ _ _ Hs) as (n0 & Hn0 & _). by eexists.
Qed.

Lemma handle_to_path_run m T f :
  shape m T -> is_Some (T !! path_of f) ->
  handle_to_path (key_of T (path_of f)) m = Return (map (key_of T) (paths [] (levels f))) m.
Proof.
  intros Hs Hp. unfold handle_to_path, handle_to_iterators.
  assert (Hfold : forall ks acc s, for_each (fun i result => mret (result ++ [i])) ks acc s =
    Return (acc ++ ks) s :> outcome smap (list path_entry_key)).
  { induction ks as [|k ks IH]; intros acc s; simpl; [by rewrite app_nil_r|].
    etransitivity; [exact (bind_return _ _ _ _ s eq_refl)|]. by rewrite IH, <- app_assoc. }
  etransitivity; [eapply bind_return; etransitivity; [exact (bind_return _ _ _ m m eq_refl)|];
    apply (handle_loop m T _ (path_of f)); [done | done | by apply (depth_bound _ _ _ _ Hs) | apply Hfold |]|].
  - by intros k x s x' s' [= _ ->].
  - unfold path_of. simpl. by rewrite <- rev_paths, map_rev, rev_involutive.
Qed.

Lemma increase_handle_loop : forall p fuel m T,
  shape m T -> is_Some (T !! p) -> (length p <= fuel)%nat -> (forall q n, q ∈ suffixes p -> T !! q = Some n -> ncount n < max_count) ->
  exists m' T', handle_to_iterators_loop fuel (fun i _ => increase_count_storage i) (key_of T p) tt m = Return tt m' /\
    shape m' T' /\ counted T T' (suffixes p) /\ map_size m' = map_size m /\ next_node_id m' = next_node_id m.
Proof.
  induction p as [|t q IH]; intros fuel m T Hs Hp Hf Hc.
  - exists m, T. split; [|split; [done|]; split; [apply counted_nil | done]].
    destruct fuel; simpl; unfold mbind, action_bind, get; by rewrite (sh_root_key _ _ _ Hs).
  - destruct fuel as [|fuel]; [simpl in Hf; lia|]. destruct Hp as [n Hn].
    assert (Hq : is_Some (T !! q)) by (apply (sh_closed _ _ _ Hs t); by eexists).
    destruct (increase_run m T (t :: q) n Hs Hn) as (m1 & Hrun1 & Hs1 & Hm1 & Hx1); [apply (Hc (t :: q)); [by left | done]|].
    pose proof (counted_insert T (t :: q) n Hn) as Hc1. set (T1 := <[t :: q := set_ncount Z.succ n]> T) in *.
    assert (Hne : forall x, x <> t :: q -> T1 !! x = T !! x) by (intros; by apply lookup_insert_ne).
    assert (Hkey : key_of T1 q = key_of T q).
    { apply (counted_key _ _ _ _ Hc1). destruct q as [|u q]; [done|]. by apply (sh_closed _ _ _ Hs u). }
    destruct (IH fuel m1 T1 Hs1) as (m2 & T2 & Hrun2 & Hs2 & Hc2 & Hm2 & Hx2).
    { rewrite Hne; [done | apply tail_not_self]. }
    { simpl in Hf. lia. }
    { intros x nx Hx Hnx. apply (Hc x nx); [by right|]. rewrite <- Hne; [done|]. intros ->.
      apply suffixes_length in Hx. simpl in Hx. lia. }
    exists m2, T2. split; [|split; [done|]; split; [|split; congruence]].
    + cbn [handle_to_iterators_loop]. unfold mbind at 1, action_bind at 1, get at 1. rewrite decide_False.
      * rewrite (map_node Hs _ _ Hn). etransitivity; [exact (bind_return _ _ _ _ _ Hrun1)|]. cbn [parent stored parent_of].
        by rewrite <- Hkey.
      * rewrite (sh_root_key _ _ _ Hs). change (2, []) with (key_of T []). intros Heq.
        apply (key_of_inj Hs) in Heq; [done | by eexists|]. destruct (sh_root _ _ _ Hs) as (n0 & Hn0 & _). by eexists.
    + cbn [suffixes]. eapply counted_cons; [done | done|]. intros H%suffixes_length. simpl in H. lia.
Qed.

Lemma increase_subscriptions_handle_run m T p :
  shape m T -> is_Some (T !! p) -> (forall q n, q ∈ suffixes p -> T !! q = Some n -> ncount n < max_count) ->
  exists m' T', increase_subscriptions_handle (key_of T p) m = Return tt m' /\
    shape m' T' /\ counted T T' (suffixes p) /\ map_size m' = map_size m /\ next_node_id m' = next_node_id m.
Proof.
  intros Hs Hp Hc. destruct (increase_handle_loop p (size (map_ m)) m T Hs Hp) as (m' & T' & Hrun & Hrest); [|done|].
  - by apply (depth_bound _ _ _ _ Hs).
  - exists m', T'. split; [|done]. unfold increase_subscriptions_handle, handle_to_iterators.
    etransitivity; [exact (bind_return _ _ _ m m eq_refl)|]. exact Hrun.
Qed.

(** ** The nodes that match a topic *)

(** wildcards below the root do not match a level that starts with "$" *)
Definition not_system p (t : list byte) : bool := negb (bool_decide (p = [])) || negb (is_dollar t).

Definition live T p : list path := if decide (is_Some (T !! p)) then [p] else [].

(** the nodes the next level is looked for in, and those that match all
    levels that are left *)
Definition next_nodes T (t : list byte) p : list path :=
  live T (t :: p) ++ (if not_system p t then live T ([plus] :: p) else []).
Definition hash_nodes T (t : list byte) p : list path := if not_system p t then live T ([hash] :: p) else [].

(** the nodes in the order of the callback *)
Fixpoint search T (ps : list path) (ts : list (list byte)) : list path :=
  match ts with
  | [] => ps
  | t :: ts => (ps ≫= hash_nodes T t) ++ search T (ps ≫= next_nodes T t) ts
  end.

Lemma search_nil T ts : search T [] ts = [].
Proof. induction ts; simpl; auto. Qed.

Section search.
Context {L : Type} (callback : path_entry_key -> L -> action smap L) (g : path -> L -> L).
Context (m : smap) (T : tree) (Hs : shape m T).
Hypothesis Hcallback : forall p l, is_Some (T !! p) -> callback (key_of T p) l m = Return (g p l) m.

Definition call (ps : list path) (l : L) : L := foldl (fun l p => g p l) l ps.

Lemma live_iff p q : q ∈ live T p <-> q = p /\ is_Some (T !! p).
Proof. unfold live. case_decide; [rewrite list_elem_of_singleton; tauto | rewrite elem_of_nil; tauto]. Qed.

Lemma next_live t p q : q ∈ next_nodes T t p -> is_Some (T !! q).
Proof.
  unfold next_nodes. rewrite elem_of_app. intros [[-> ?]%live_iff|H]; [done|]. destruct (not_system p t).
  - by apply live_iff in H as [-> ?].
  - by apply elem_of_nil in H.
Qed.

Lemma hash_live t p q : q ∈ hash_nodes T t p -> is_Some (T !! q).
Proof.
  unfold hash_nodes. destruct (not_system p t); [by intros [-> ?]%live_iff | intros H; by apply elem_of_nil in H].
Qed.

Lemma not_system_code t p n :
  T !! p = Some n -> negb (nid n =? root_node_id m) || bool_decide (t = []) || negb (is_dollar t) = not_system p t.
Proof.
  intros Hp. unfold not_system. rewrite (sh_root_id _ _ _ Hs). destruct (sh_root _ _ _ Hs) as (n0 & Hn0 & Hid0).
  assert (Hd : (nid n =? 1) = bool_decide (p = [])).
  { destruct (Z.eqb_spec (nid n) 1) as [He|He]; symmetry.
    - apply bool_decide_eq_true. apply (sh_inj _ _ _ Hs _ _ n n0); congruence.
    - apply bool_decide_eq_false. intros ->. congruence. }
  rewrite Hd, <- orb_assoc. f_equal. by destruct t.
Qed.

Lemma match_level_run t p acc l :
  is_Some (T !! p) ->
  match_level callback t (key_of T p) (acc, l) m =
  Return (acc ++ map (key_of T) (next_nodes T t p), call (hash_nodes T t p) l) m.
Proof.
  intros [n Hp]. unfold match_level. etransitivity; [exact (bind_return _ _ _ m m eq_refl)|].
  etransitivity; [exact (bind_return _ _ _ _ _ (at_node Hs _ _ Hp))|]. cbv zeta.
  cbn [id stored count has_plus_child_ has_hash_child_]. rewrite (not_system_code t p n Hp).
  assert (Hchild : forall x, (match map_ m !! (nid n, x) with Some _ => true | None => false end) = bool_decide (is_Some (T !! (x :: p)))).
  { intros x. rewrite (map_child Hs _ _ _ Hp). by destruct (T !! (x :: p)). }
  rewrite !Hchild. unfold flags. cbn [fst snd]. rewrite !andb_diag. unfold next_nodes, hash_nodes, live.
  assert (Hk : forall x, key_of T (x :: p) = (nid n, x)) by (intros; by apply key_of_child).
  rewrite <- app_assoc. assert (Hnew : (if bool_decide (is_Some (T !! (t :: p))) then [(nid n, t)] else []) ++
      (if bool_decide (is_Some (T !! ([plus] :: p))) && not_system p t then [(nid n, [plus])] else []) =
    map (key_of T) ((if decide (is_Some (T !! (t :: p))) then [t :: p] else []) ++
      (if not_system p t then if decide (is_Some (T !! ([plus] :: p))) then [[plus] :: p] else [] else []))).
  { rewrite map_app. f_equal; [|destruct (not_system p t); rewrite ?andb_true_r, ?andb_false_r; [|done]];
      case_bool_decide; case_decide; try done; cbn [map]; by rewrite Hk. }
  rewrite Hnew. destruct (not_system p t); [rewrite andb_true_r | rewrite andb_false_r; done].
  destruct (decide (is_Some (T !! ([hash] :: p)))) as [Hh|Hh]; [rewrite bool_decide_eq_true_2 by done | by rewrite bool_decide_eq_false_2].
  etransitivity; [apply bind_return; rewrite <- Hk; by apply Hcallback | done].
Qed.

Lemma match_entries t : forall ps acc l,
  Forall (fun p => is_Some (T !! p)) ps ->
  for_each (match_level callback t) (map (key_of T) ps) (acc, l) m =
  Return (acc ++ map (key_of T) (ps ≫= next_nodes T t), call (ps ≫= hash_nodes T t) l) m.
Proof.
  induction ps as [|p ps IH]; intros acc l Hps; cbn [map for_each].
  - by rewrite app_nil_r.
  - apply Forall_cons in Hps as [Hp Hps]. etransitivity; [exact (bind_return _ _ _ _ _ (match_level_run t p acc l Hp))|].
    rewrite IH by done. cbn. unfold call. by rewrite map_app, foldl_app, <- app_assoc.
Qed.

Lemma call_entries : forall ps l,
  Forall (fun p => is_Some (T !! p)) ps -> for_each callback (map (key_of T) ps) l m = Return (call ps l) m.
Proof.
  induction ps as [|p ps IH]; intros l Hps; [done|]. apply Forall_cons in Hps as [Hp Hps]. cbn [map for_each].
  etransitivity; [exact (bind_return _ _ _ _ _ (Hcallback p l Hp))|]. by apply IH.
Qed.

Lemma match_levels : forall ts ps l c,
  Forall (fun p => is_Some (T !! p)) ps -> ts <> [] ->
  exists ps' l' c', each_level (fun t '(entries, l) =>
      '(new_entries, l) ← for_each (match_level callback t) entries ([], l);
      mret ((new_entries, l), negb (bool_decide (new_entries = [])))) ts c (map (key_of T) ps, l) m =
    Return ((map (key_of T) ps', l'), c') m /\
    Forall (fun p => is_Some (T !! p)) ps' /\ call ps' l' = call (search T ps ts) l.
Proof.
  induction ts as [|t ts IH]; intros ps l c Hps Hts; [done|].
  set (ps1 := ps ≫= next_nodes T t). set (l1 := call (ps ≫= hash_nodes T t) l).
  assert (Hps1 : Forall (fun p => is_Some (T !! p)) ps1).
  { apply Forall_forall. intros q Hq. apply list_elem_of_bind in Hq as (p & Hq & _). by eapply next_live. }
  assert (Hcall : call (search T ps (t :: ts)) l = call (search T ps1 ts) l1) by (simpl; unfold call; by rewrite foldl_app).
  cbn [each_level]. unfold mbind at 1, action_bind at 1, mbind at 1, action_bind at 1. rewrite match_entries by done. fold ps1 l1.
  assert (Hnil : forall A (x : A) y, (if negb (bool_decide (map (key_of T) ps1 = [])) then x else y) =
    match ps1 with [] => y | _ => x end) by (intros; by destruct ps1).
  destruct ts as [|t' ts].
  - exists ps1, l1, c. split; [done|]. split; [done|]. by rewrite Hcall.
  - destruct (IH ps1 l1 (c + 1) Hps1 ltac:(done)) as (ps2 & l2 & c2 & Hrun & Hlive & Heq).
    destruct ps1 as [|p1 ps1'] eqn:Hp1.
    + exists [], l1, c. split; [done|]. split; [done|]. rewrite Hcall, search_nil. done.
    + exists ps2, l2, c2. split; [exact Hrun|]. split; [done|]. by rewrite Hcall.
Qed.

Lemma find_match_run topic l :
  find_match_impl topic callback l m = Return (call (search T [[]] (levels topic)) l) m.
Proof.
  destruct (map_root Hs) as (n & Hn & _ & Hroot).
  assert (Hps : Forall (fun p => is_Some (T !! p)) [[]]) by (repeat constructor; by eexists).
  destruct (match_levels (levels topic) [[]] l 1 Hps (levels_nonempty topic)) as (ps & l' & c & Hrun & Hlive & Hcall).
  unfold find_match_impl. etransitivity; [exact (bind_return _ _ _ m m eq_refl)|].
  etransitivity; [exact (bind_return _ _ _ _ _ Hroot)|]. rewrite (sh_root_key _ _ _ Hs).
  etransitivity; [apply bind_return; rewrite topic_filter_tokenizer_levels; exact Hrun|]. cbn [fst].
  rewrite call_entries by done. by rewrite Hcall.
Qed.
End search.

(** ** What the search finds *)

(** the levels [fs] of a node below [q] match the levels [ts] *)
Fixpoint match_below q (fs ts : list (list byte)) : bool :=
  match fs, ts with
  | [], [] => true
  | f :: fs, t :: ts =>
    (bool_decide (f = [hash] /\ fs = []) && not_system q t) ||
    (bool_decide (f = t) || bool_decide (f = [plus]) && not_system q t) && match_below (f :: q) fs ts
  | _, _ => false
  end.

Lemma elem_of_search fl m T : shape_with fl m T -> forall ts ps p,
  p ∈ search T ps ts <->
  (ts = [] /\ p ∈ ps) \/ (ts <> [] /\ is_Some (T !! p) /\ exists q fs, q ∈ ps /\ p = rev fs ++ q /\ match_below q fs ts = true).
Proof.
  intros Hs. induction ts as [|t ts IH]; intros ps p; [simpl; tauto|]. cbn [search]. rewrite elem_of_app, IH.
  transitivity (is_Some (T !! p) /\ exists q fs, q ∈ ps /\ p = rev fs ++ q /\ match_below q fs (t :: ts) = true); [|naive_solver].
  setoid_rewrite list_elem_of_bind. split.
  - intros H.
    assert (Hnext : forall q' fs, q' ∈ ps ≫= next_nodes T t -> is_Some (T !! p) -> p = rev fs ++ q' -> match_below q' fs ts = true ->
      exists q fs, q ∈ ps /\ p = rev fs ++ q /\ match_below q fs (t :: ts) = true).
    { intros q' fs (q & Hq' & Hq)%list_elem_of_bind Hlive -> Hm. unfold next_nodes in Hq'. apply elem_of_app in Hq' as [[-> _]%live_iff|Hq'].
      - exists q, (t :: fs). simpl. rewrite <- app_assoc. split; [done|]. split; [done|].
        rewrite (bool_decide_eq_true_2 (t = t)) by done. simpl. by rewrite Hm, orb_true_r.
      - destruct (not_system q t) eqn:Hsys; [|by apply elem_of_nil in Hq']. apply live_iff in Hq' as [-> _].
        exists q, ([plus] :: fs). simpl. rewrite <- app_assoc. split; [done|]. split; [done|].
        rewrite Hsys, Hm. by rewrite !orb_true_r. }
    destruct H as [(q & Hp & Hq) | [[-> (q & Hp & Hq)]|(Hts & Hlive & q & fs & Hq & -> & Hm)]].
    + unfold hash_nodes in Hp. destruct (not_system q t) eqn:Hsys; [|by apply elem_of_nil in Hp].
      apply live_iff in Hp as [-> Hlive]. split; [done|]. exists q, [[hash]]. split; [done|]. split; [done|]. simpl. by rewrite Hsys.
    + assert (Hlive : is_Some (T !! p)) by by eapply next_live. split; [done|]. apply (Hnext p []); [|done..].
      apply list_elem_of_bind. eauto.
    + split; [done|]. apply (Hnext q fs); [|done..]. by apply list_elem_of_bind.
  - intros (Hlive & q & fs & Hq & -> & Hm). destruct fs as [|f fs]; [done|]. cbn [match_below] in Hm.
    apply orb_true_iff in Hm as [[[-> ->]%bool_decide_eq_true Hsys]%andb_true_iff|[Hf Hm]%andb_true_iff].
    + left. exists q. split; [|done]. unfold hash_nodes. rewrite Hsys. by apply live_iff.
    + right. assert (Hnext : f :: q ∈ next_nodes T t q).
      { simpl in Hlive. rewrite <- app_assoc in Hlive. apply (sh_above Hs) in Hlive. simpl in Hlive. unfold next_nodes. apply elem_of_app.
        apply orb_true_iff in Hf as [->%bool_decide_eq_true|[->%bool_decide_eq_true Hsys]%andb_true_iff].
        - left. by apply live_iff.
        - right. rewrite Hsys. by apply live_iff. }
      destruct (decide (ts = [])) as [->|Hts].
      * left. split; [done|]. destruct fs; [|done]. exists q. done.
      * right. split; [done|]. split; [done|]. exists (f :: q), fs. split; [eauto|]. split; [|done].
        simpl. by rewrite <- app_assoc.
Qed.

Lemma NoDup_search fl m T : shape_with fl m T -> forall ts (ps : list path) (k : nat),
  Forall (fun t => t <> [plus] /\ t <> [hash]) ts -> NoDup ps -> (forall p, p ∈ ps -> length p = k) -> NoDup (search T ps ts).
Proof.
  intros Hs. induction ts as [|t ts IH]; intros ps k Hts Hnd Hlen; [done|]. apply Forall_cons in Hts as [[Hplus Hhash] Hts].
  assert (Hh : forall p q, q ∈ hash_nodes T t p -> q = [hash] :: p).
  { intros p q. unfold hash_nodes. destruct (not_system p t); [by intros [-> _]%live_iff | by rewrite elem_of_nil]. }
  assert (Hn : forall p q, q ∈ next_nodes T t p -> q = t :: p \/ q = [plus] :: p).
  { intros p q. unfold next_nodes. rewrite elem_of_app. intros [[-> _]%live_iff|H]; [by left|].
    destruct (not_system p t); [apply live_iff in H as [-> _]; by right | by apply elem_of_nil in H]. }
  assert (Hsingle : forall p, NoDup (live T p)) by (intros p; unfold live; case_decide; [apply NoDup_singleton | constructor]).
  cbn [search]. apply NoDup_app. split_and!.
  - apply NoDup_bind; [|intros p _; unfold hash_nodes; destruct (not_system p t); [done | constructor] | done].
    intros p1 p2 q _ _ Hq1%Hh Hq2%Hh. congruence.
  - intros p (q & Hp & Hq)%list_elem_of_bind Hin. apply Hh in Hp as ->.
    assert (Hcase : exists q', q' ∈ ps ≫= next_nodes T t /\ exists fs, [hash] :: q = rev fs ++ q').
    { apply (elem_of_search _ _ _ Hs) in Hin as [[_ Hin]|(_ & _ & q' & fs & Hq' & Heq & _)]; [|eauto]. exists ([hash] :: q). split; [done|]. by exists []. }
    destruct Hcase as (q' & (p' & Hq' & Hp')%list_elem_of_bind & fs & Heq). apply Hn in Hq'.
    assert (Hl : (length (rev fs) = 0)%nat).
    { apply (f_equal length) in Heq. rewrite length_app in Heq. simpl in Heq. rewrite (Hlen q Hq) in Heq.
      destruct Hq' as [->| ->]; simpl in Heq; rewrite (Hlen p' Hp') in Heq; lia. }
    apply nil_length_inv in Hl. rewrite Hl in Heq. simpl in Heq.
    assert ([hash] <> [plus]) by done. destruct Hq' as [->| ->]; congruence.
  - apply (IH _ (S k)); [done| |].
    + apply NoDup_bind; [| |done].
      * intros p1 p2 q _ _ [->| ->]%Hn [H|H]%Hn; congruence.
      * intros p _. unfold next_nodes. destruct (not_system p t); [|by rewrite app_nil_r]. apply NoDup_app.
        split; [done|]. split; [|done]. intros q [-> _]%live_iff [Heq _]%live_iff. congruence.
    + intros q (p & Hq & Hp)%list_elem_of_bind. rewrite <- (Hlen p Hp). by apply Hn in Hq as [->| ->].
Qed.
End tree.
Arguments node : clear implicits.
