(* ===== verification/SubscriptionHandles.v ===== *)
(** * Handles of the subscription map stay valid

    A handle is the key of a node.  What a handle of a filter is only depends
    on the identifiers of the nodes; insertion keeps those that are there and
    erasure adds none, so the handle of a filter is the same as long as the
    filter has nodes. *)
From S2P Require Import Prelude Action TopicFilter SubscriptionMap SubscriptionTree.

Section handles.
Context {Value : Type} `{Inhabited Value}.
Abbreviation program := (action (subscription_map Value)).
Implicit Types (m : subscription_map Value) (ids : gmap path_entry_key Z).

Definition node_ids m : gmap path_entry_key Z := id <$> map_ m.

(** the keys on the way down *)
Fixpoint walk ids (parent : Z) (ts : list (list byte)) : option (list path_entry_key) :=
  match ts with
  | [] => Some []
  | t :: ts => match ids !! (parent, t) with Some i => cons (parent, t) <$> walk ids i ts | None => None end
  end.

Lemma walk_mono ids ids' ts : ids ⊆ ids' -> forall parent l, walk ids parent ts = Some l -> walk ids' parent ts = Some l.
Proof.
  intros Hsub. induction ts as [|t ts IH]; intros parent l; [done|]. cbn [walk]. destruct (ids !! (parent, t)) as [i|] eqn:Hi; [|done].
  rewrite (lookup_weaken _ _ _ _ Hi Hsub). intros (l' & Hl & ->)%fmap_Some. by rewrite (IH _ _ Hl).
Qed.

(** the loop of [find_topic_filter] *)
Definition find_level (t : list byte) (r : Z * list path_entry_key) : program ((Z * list path_entry_key) * bool) :=
  let '(parent_id, path) := r in
  m ← get;
  match map_ m !! (parent_id, t) with
  | None => mret ((parent_id, []), false)
  | Some entry => mret ((id entry, path ++ [(parent_id, t)]), true)
  end.

Lemma find_level_walk m ts : forall parent path c, ts <> [] ->
  exists x c', each_level find_level ts c (parent, path) m = Return ((x, match walk (node_ids m) parent ts with Some l => path ++ l | None => [] end), c') m.
Proof.
  induction ts as [|t ts IH]; intros parent path c Hts; [done|]. cbn [each_level walk find_level]. unfold node_ids at 1. rewrite lookup_fmap.
  unfold mbind at 1, action_bind at 1, mbind at 1, action_bind at 1, get at 1.
  destruct (map_ m !! (parent, t)) as [e|]; cbn [fmap option_fmap option_map]; [|by destruct ts; eauto].
  destruct ts as [|t' ts]; [by eexists _, _|]. destruct (IH (id e) (path ++ [(parent, t)]) (c + 1) ltac:(done)) as (x & c' & Hrun).
  exists x, c'. cbn [mret action_ret]. rewrite Hrun. destruct (walk _ _ _); [|done]. cbn. by rewrite <- app_assoc.
Qed.

Lemma find_walk m T f : shape m T -> find_topic_filter f m = Return (default [] (walk (node_ids m) 1 (levels f))) m.
Proof.
  intros Hs. destruct (map_root Hs) as (n & Hn & Hid & Hroot). unfold find_topic_filter.
  etransitivity; [exact (bind_return _ _ _ _ _ Hroot)|]. cbn [id stored].
  destruct (find_level_walk m (levels f) (nid n) [] 1 (levels_nonempty f)) as (x & c & Hrun).
  etransitivity; [apply bind_return; rewrite topic_filter_tokenizer_levels; exact Hrun|]. rewrite Hid. by destruct (walk _ _ _).
Qed.

(** a handle that is found stays *)
Lemma lookup_ids m T m' T' f h :
  shape m T -> shape m' T' -> node_ids m ⊆ node_ids m' ->
  lookup_filter f m = Return (Some h) m -> lookup_filter f m' = Return (Some h) m'.
Proof.
  intros Hs Hs' Hsub. unfold lookup_filter. setoid_rewrite (bind_return _ _ _ _ _ (find_walk m T f Hs)).
  setoid_rewrite (bind_return _ _ _ _ _ (find_walk m' T' f Hs')). destruct (walk (node_ids m) 1 (levels f)) as [l|] eqn:Hl; [|done].
  rewrite (walk_mono _ _ _ Hsub _ _ Hl). destruct (decide _); [by intros [=]|].
  unfold mbind, action_bind, path_to_handle, deref. destruct (last _); [by intros [= ->] | done].
Qed.

(** ** What the operations do to the nodes *)
Section grows.
Context (ids0 : gmap path_entry_key Z).
Definition grown m : Prop := ids0 ⊆ node_ids m.
Definition shrunk m : Prop := node_ids m ⊆ ids0.

Lemma node_ids_set k e e' m : map_ m !! k = Some e -> id e' = id e -> node_ids (set_map <[k := e']> m) = node_ids m.
Proof. intros He Hid. unfold node_ids. cbn [map_ set_map]. rewrite fmap_insert, insert_id; [done|]. by rewrite lookup_fmap, He, Hid. Qed.

Lemma preserves_modify_entry (P : subscription_map Value -> Prop) f it :
  (forall m e, P m -> map_ m !! it = Some e -> P (set_map <[it := f e]> m)) -> preserves P (modify_entry f it).
Proof.
  intros HP m a m' Hm. unfold modify_entry, at_iterator. unfold mbind, action_bind, get, deref, modify.
  destruct (map_ m !! it) as [e|] eqn:He; [|done]. intros [= _ <-]. by apply HP.
Qed.

Lemma grown_modify_entry f it : (forall e, id (f e) = id e) -> preserves grown (modify_entry f it).
Proof. intros Hf. apply preserves_modify_entry. intros m e Hm He. unfold grown. by rewrite (node_ids_set it e _ m He). Qed.

Lemma shrunk_modify_entry f it : (forall e, id (f e) = id e) -> preserves shrunk (modify_entry f it).
Proof. intros Hf. apply preserves_modify_entry. intros m e Hm He. unfold shrunk. by rewrite (node_ids_set it e _ m He). Qed.

Lemma preserves_at_iterator (P : subscription_map Value -> Prop) it : preserves P (at_iterator it).
Proof. apply preserves_bind; [apply preserves_get | intros; apply preserves_deref]. Qed.
End grows.

#[local] Hint Resolve preserves_at_iterator grown_modify_entry shrunk_modify_entry : preserves.
#[local] Hint Extern 1 (preserves _ (match ?x with _ => _ end)) => destruct x : preserves.

Section tokenizer.
Context (P : subscription_map Value -> Prop).

Lemma preserves_each_level {L} (write : list byte -> L -> program (L * bool)) ts : forall c l,
  (forall t l, preserves P (write t l)) -> preserves P (each_level write ts c l).
Proof.
  induction ts as [|t ts IH]; intros c l Hw; cbn [each_level]; [apply preserves_ret|].
  apply preserves_bind; [apply Hw|]. intros [l' more]. destruct ts; [apply preserves_ret|]. destruct more; [by apply IH | apply preserves_ret].
Qed.

Lemma preserves_tokenizer {L} (write : list byte -> L -> program (L * bool)) str l :
  (forall t l, preserves P (write t l)) -> preserves P (topic_filter_tokenizer str write l).
Proof. intros Hw m a m' Hm. rewrite topic_filter_tokenizer_levels. revert m a m' Hm. by apply preserves_each_level. Qed.

Lemma preserves_find_topic_filter f : preserves P (find_topic_filter f).
Proof.
  unfold find_topic_filter, get_root. apply preserves_bind; [auto with preserves|]. intros root.
  apply preserves_bind; [|auto with preserves]. apply preserves_tokenizer. intros t [p path]. auto 6 with preserves.
Qed.

Lemma preserves_handle_to_iterators {L} h (output : path_entry_key -> L -> program L) l :
  (forall i l, preserves P (output i l)) -> preserves P (handle_to_iterators h output l).
Proof.
  intros Ho. unfold handle_to_iterators. apply preserves_bind; [apply preserves_get|]. intros m.
  generalize (size (map_ m)). intros fuel. revert h l. induction fuel as [|fuel IH]; intros h l; cbn [handle_to_iterators_loop];
    auto 8 with preserves.
Qed.
End tokenizer.
#[local] Hint Resolve preserves_find_topic_filter preserves_handle_to_iterators preserves_tokenizer : preserves.
#[local] Hint Extern 1 (preserves _ (let '(_, _) := ?x in _)) => destruct x : preserves.

Lemma generate_node_id_map m n m' : generate_node_id m = Return n m' -> map_ m' = map_ m.
Proof. unfold generate_node_id, mbind, action_bind, get, modify, throw. destruct (_ =? _); [done|]. by intros [= _ <-]. Qed.

Lemma grown_create_level ids t parent : preserves (grown ids) (create_level t parent).
Proof.
  unfold create_level. apply preserves_bind; [auto with preserves|]. intros p m a m' Hm.
  unfold mbind at 1, action_bind at 1, get at 1. cbv zeta. destruct (map_ m !! (id p, t)) as [e|] eqn:He.
  - apply (preserves_bind (grown ids) (increase_count_storage _)); [unfold increase_count_storage; auto 8 with preserves | auto with preserves | done].
  - intros (n & m1 & Hn%generate_node_id_map & Hrun)%bind_returns. apply bind_returns in Hrun as ([] & m2 & [= <-] & Hrun).
    revert Hrun. set (rest := _ ≫= _). assert (Hrest : preserves (grown ids) rest).
    { subst rest. apply preserves_bind; [auto with preserves|]. intros _. apply preserves_bind; auto with preserves. }
    apply Hrest. unfold grown, node_ids. cbn [map_ set_map]. rewrite fmap_insert, Hn. etransitivity; [exact Hm|].
    apply insert_subseteq. by rewrite lookup_fmap, He.
Qed.

Lemma grown_create ids f : preserves (grown ids) (create_topic_filter f).
Proof.
  unfold create_topic_filter. apply preserves_bind; [auto with preserves|]. intros m.
  apply preserves_bind; [|auto with preserves]. apply preserves_tokenizer. intros t [q result].
  apply preserves_bind; [apply grown_create_level | auto with preserves].
Qed.

Lemma preserves_set_map_size_grown ids x : preserves (grown ids) (modify (set_map_size x)).
Proof. by apply preserves_modify. Qed.
Lemma preserves_set_map_size_shrunk ids x : preserves (shrunk ids) (modify (set_map_size x)).
Proof. by apply preserves_modify. Qed.
#[local] Hint Resolve grown_create preserves_set_map_size_grown preserves_set_map_size_shrunk : preserves.

Lemma grown_increase ids it : preserves (grown ids) (increase_count_storage it).
Proof. unfold increase_count_storage. auto 8 with preserves. Qed.
Lemma shrunk_decrease ids it : preserves (shrunk ids) (decrease_count_storage it).
Proof. unfold decrease_count_storage. auto 8 with preserves. Qed.
#[local] Hint Resolve grown_increase shrunk_decrease : preserves.

Lemma shrunk_remove ids path : preserves (shrunk ids) (remove_topic_filter path).
Proof.
  assert (Hflags : forall it p h, preserves (shrunk ids) (clear_flags it p h)) by (intros; unfold clear_flags; auto 8 with preserves).
  unfold remove_topic_filter, get_root. apply preserves_bind; [|auto 8 with preserves]. apply preserves_for_each. intros entry fl.
  unfold remove_entry. apply preserves_bind; [apply Hflags|]. intros _. apply preserves_bind; [auto with preserves|]. intros _.
  apply preserves_bind; [auto with preserves|]. intros e. destruct (_ =? _); [|auto with preserves].
  apply preserves_bind; [|auto with preserves]. apply preserves_modify. intros m Hm. unfold shrunk, node_ids. cbn [map_ set_map].
  rewrite fmap_delete. etransitivity; [apply delete_subseteq | exact Hm].
Qed.
#[local] Hint Resolve shrunk_remove : preserves.
End handles.

(** ** The operations by filter and by handle *)
Section operations.
Context {K : Type} `{Countable K} {V : Type}.
Import multiple_subscription_map.
Implicit Types (m : subscription_map (gmap K V)).

#[local] Hint Resolve preserves_at_iterator grown_modify_entry shrunk_modify_entry
  preserves_find_topic_filter grown_create preserves_set_map_size_grown preserves_set_map_size_shrunk grown_increase shrunk_decrease shrunk_remove : preserves.
#[local] Hint Extern 1 (preserves _ (match ?x with _ => _ end)) => destruct x : preserves.

Lemma preserves_increase_map_size (P : subscription_map (gmap K V) -> Prop) :
  (forall m x, P m -> P (set_map_size x m)) -> preserves P increase_map_size.
Proof. intros HP. unfold increase_map_size. apply preserves_bind; [auto with preserves|]. intros m. destruct (_ =? _); auto using preserves_modify with preserves. Qed.
Lemma preserves_decrease_map_size (P : subscription_map (gmap K V) -> Prop) :
  (forall m x, P m -> P (set_map_size x m)) -> preserves P decrease_map_size.
Proof. intros HP. unfold decrease_map_size. auto using preserves_modify with preserves. Qed.

Lemma grown_assign ids it (k : K) (v : V) : preserves (grown ids) (assign it k v).
Proof. unfold assign. auto 8 with preserves. Qed.
Lemma shrunk_erase_key ids it (k : K) : preserves (shrunk ids) (erase_key it k : action (subscription_map (gmap K V)) Z).
Proof. unfold erase_key. auto 8 with preserves. Qed.
#[local] Hint Resolve grown_assign shrunk_erase_key : preserves.

Lemma grown_counted ids (increase : action (subscription_map (gmap K V)) unit) :
  preserves (grown ids) increase -> preserves (grown ids) (increase;; increase_map_size).
Proof. intros Hi. apply preserves_bind; [exact Hi|]. intros _. by apply preserves_increase_map_size. Qed.

Lemma grown_insert ids f (k : K) (v : V) : preserves (grown ids) (insert_or_assign f k v).
Proof.
  unfold insert_or_assign. apply preserves_bind; [auto with preserves|]. intros path. destruct (last path) as [back|].
  - apply preserves_bind; [auto with preserves|]. intros inserted. apply preserves_bind; [|auto with preserves].
    destruct inserted; [|auto with preserves]. apply grown_counted. unfold increase_subscriptions. auto with preserves.
  - apply preserves_bind; [auto with preserves|]. intros new. apply preserves_bind; [unfold path_to_handle; auto with preserves|]. intros back.
    apply preserves_bind; [auto with preserves|]. intros _. apply preserves_bind; [|auto with preserves]. by apply preserves_increase_map_size.
Qed.

Lemma shrunk_erase_handle ids h (k : K) : preserves (shrunk ids) (erase_handle h k : action (subscription_map (gmap K V)) Z).
Proof.
  unfold erase_handle. apply preserves_bind; [auto with preserves|]. intros m. destruct (map_ m !! h); [|auto with preserves].
  apply preserves_bind; [auto with preserves|]. intros result. apply preserves_bind; [|auto with preserves]. destruct (_ =? _); [auto with preserves|].
  apply preserves_bind; [apply preserves_bind; [apply preserves_handle_to_iterators; auto with preserves | auto with preserves]|]. intros path.
  apply preserves_bind; [auto with preserves|]. intros _. by apply preserves_decrease_map_size.
Qed.
End operations.
