(* ===== verification/SubscriptionSpec.v ===== *)
(** * The subscription map is a map

    [multiple_subscription_map] against what it is for: a finite map from
    topic filters and keys to values, in which a topic finds the entries whose
    filter matches it. *)
From S2P Require Import Prelude Action TopicFilter SubscriptionMap SubscriptionTree SubscriptionHandles.

(** ** Matching *)

Definition is_wildcard (f : list byte) : bool := bool_decide (f = [plus]) || bool_decide (f = [hash]).

(** a topic that starts with "$" does not match a filter that starts with a
    wildcard *)
Definition filter_matches (topic_filter topic : list byte) : bool :=
  levels_match (levels topic_filter) (levels topic) &&
  negb (default false (is_wildcard <$> head (levels topic_filter)) && default false (is_dollar <$> head (levels topic))).

Lemma match_below_levels x q fs : forall ts, match_below (x :: q) fs ts = levels_match fs ts.
Proof.
  revert x q. induction fs as [|f fs IH]; intros x q [|t ts]; try done. cbn [match_below levels_match].
  change (not_system (x :: q) t) with true. rewrite !andb_true_r, IH. f_equal. f_equal. by rewrite bool_decide_or.
Qed.

Lemma match_below_root fs t ts :
  t <> [plus] -> t <> [hash] ->
  match_below [] fs (t :: ts) =
  levels_match fs (t :: ts) && negb (default false (is_wildcard <$> head fs) && is_dollar t).
Proof.
  intros Hplus Hhash. destruct fs as [|f fs]; [done|]. cbn [match_below levels_match head fmap option_fmap option_map default from_option].
  change (not_system [] t) with (negb (is_dollar t)). change (Datatypes.id ?x) with x.
  rewrite match_below_levels, bool_decide_or. unfold is_wildcard.
  destruct (is_dollar t); cbn [negb]; [|by rewrite !andb_false_r, !andb_true_r]. rewrite !andb_true_r, !andb_false_r, orb_false_r. cbn [orb].
  destruct (decide (f = [plus])) as [->|Hp].
  - by rewrite (bool_decide_eq_false_2 ([plus] = t)), andb_false_r by congruence.
  - rewrite (bool_decide_eq_false_2 (f = [plus])) by done. cbn [orb]. destruct (decide (f = [hash])) as [->|Hh].
    + by rewrite (bool_decide_eq_false_2 ([hash] = t)), andb_false_r by congruence.
    + rewrite (bool_decide_eq_false_2 (f = [hash] /\ _)), (bool_decide_eq_false_2 (f = [hash])) by tauto.
      cbn [orb negb]. by rewrite orb_false_r, andb_true_r.
Qed.

(** ** Paths and filters *)

Lemma path_of_inj f g : path_of f = path_of g -> f = g.
Proof. intros H. apply (f_equal (@rev _)) in H. unfold path_of in H. rewrite !rev_involutive in H. by rewrite <- (join_levels f), <- (join_levels g), H. Qed.

Lemma path_of_nonempty f : path_of f <> [].
Proof. unfold path_of. intros H. apply (f_equal (@rev _)) in H. rewrite rev_involutive in H. by apply (levels_nonempty f). Qed.

Lemma levels_prefix f : forall ts1 ts2, levels f = ts1 ++ ts2 -> ts1 <> [] -> exists g, levels g = ts1.
Proof.
  induction f as [l Hl | l s Hl IH] using string_ind; intros ts1 ts2 Heq Hts.
  - rewrite levels_one in Heq by done. destruct ts1 as [|t [|? ?]]; [done | | done]. injection Heq as -> _.
    exists t. by apply levels_one.
  - rewrite levels_app in Heq by done. destruct ts1 as [|t ts1]; [done|]. injection Heq as -> Heq.
    destruct ts1 as [|t1 ts1]; [exists t; by apply levels_one|].
    destruct (IH (t1 :: ts1) ts2 Heq ltac:(done)) as [g Hg]. exists (t ++ topic_filter_separator :: g).
    by rewrite levels_app, Hg.
Qed.

(** the nodes of a filter are nodes of filters *)
Lemma suffix_path f p : p ∈ suffixes (path_of f) -> exists g, path_of g = p.
Proof.
  intros [Hp [r Hr]]%elem_of_suffixes. unfold path_of in *. apply (f_equal (@rev _)) in Hr.
  rewrite rev_involutive, rev_app_distr in Hr. destruct (levels_prefix f _ _ Hr) as [g Hg].
  - intros H. apply (f_equal (@rev _)) in H. by rewrite rev_involutive in H.
  - exists g. by rewrite Hg, rev_involutive.
Qed.

Lemma self_suffix f : path_of f ∈ suffixes (path_of f).
Proof. pose proof (path_of_nonempty f). destruct (path_of f); [done | by left]. Qed.

(** ** The tree of a map *)
Section spec.
Context {K : Type} `{Countable K} {V : Type}.
Abbreviation Cont := (gmap K V).
(** topic filters and keys to values *)
Abbreviation subscriptions := (gmap (list byte * K) V).
Abbreviation tree := (gmap path (node Cont)).
Implicit Types (A : subscriptions) (T : tree) (m : subscription_map Cont).

(** the number of subscriptions at and below a node *)
Definition at_or_below (p : path) (e : list byte * K * V) : Prop := p ∈ suffixes (path_of (fst (fst e))).
#[local] Instance at_or_below_dec p e : Decision (at_or_below p e).
Proof. unfold at_or_below. apply _. Defined.
Definition under A (p : path) : Z := Z.of_nat (size (filter (at_or_below p) A)).

Definition node_ok A (p : path) (o : option (node Cont)) : Prop :=
  match o with
  | Some n => ncount n = under A p /\ 0 < under A p /\ forall f k, path_of f = p -> nvalue n !! k = A !! (f, k)
  | None => under A p = 0
  end.

Definition represents T A : Prop := forall p, p <> [] -> node_ok A p (T !! p).

Definition holds m A : Prop := exists T, shape m T /\ represents T A /\ map_size m = Z.of_nat (size A).

Lemma under_insert_new A f k v p :
  A !! (f, k) = None -> under (<[(f, k) := v]> A) p = under A p + (if decide (p ∈ suffixes (path_of f)) then 1 else 0).
Proof.
  intros Hn. unfold under. rewrite map_filter_insert. case_decide as Hp; unfold at_or_below in Hp; simpl in Hp.
  - rewrite decide_True by done. rewrite map_size_insert_None; [lia|]. apply map_lookup_filter_None. by left.
  - rewrite decide_False by done. rewrite delete_id by done. lia.
Qed.

Lemma under_delete A f k v p :
  A !! (f, k) = Some v -> under A p = under (delete (f, k) A) p + (if decide (p ∈ suffixes (path_of f)) then 1 else 0).
Proof. intros Hv. rewrite <- (under_insert_new _ f k v) by apply lookup_delete_eq. by rewrite insert_delete_id. Qed.

Lemma under_insert_old A f k v v0 p : A !! (f, k) = Some v0 -> under (<[(f, k) := v]> A) p = under A p.
Proof.
  intros Hv. rewrite (under_delete A f k v0 p Hv), <- (under_insert_new (delete (f, k) A) f k v p) by apply lookup_delete_eq.
  by rewrite insert_delete_eq.
Qed.

Lemma under_nonneg A p : 0 <= under A p.
Proof. unfold under. lia. Qed.

Lemma under_pos A f k v p : A !! (f, k) = Some v -> p ∈ suffixes (path_of f) -> 0 < under A p.
Proof. intros Hv Hp. rewrite (under_delete A f k v p Hv), decide_True by done. pose proof (under_nonneg (delete (f, k) A) p). lia. Qed.

Lemma under_entry A p : 0 < under A p -> exists f k v, A !! (f, k) = Some v /\ p ∈ suffixes (path_of f).
Proof.
  intros Hp. unfold under in Hp. destruct (map_choose (filter (at_or_below p) A)) as ([f k] & v & Hv).
  - intros He. rewrite He in Hp. rewrite map_size_empty in Hp. lia.
  - apply map_lookup_filter_Some in Hv as [Hv Hin]. eauto.
Qed.

Lemma under_child A u p : p <> [] -> under A (u :: p) <= under A p.
Proof.
  intros Hp. induction A as [|[f k] v A Hn IH] using map_ind; [unfold under; rewrite !map_filter_empty, map_size_empty; lia|].
  rewrite !under_insert_new by done. destruct (decide (u :: p ∈ _)) as [Hu|Hu]; [|case_decide; lia].
  rewrite decide_True; [lia|]. apply elem_of_suffixes in Hu as [_ [r ->]]. apply elem_of_suffixes. split; [done|].
  exists (r ++ [u]). by rewrite <- app_assoc.
Qed.

Lemma under_size A p : under A p <= Z.of_nat (size A).
Proof.
  induction A as [|[f k] v A Hn IH] using map_ind; [unfold under; rewrite map_filter_empty, map_size_empty; lia|].
  rewrite under_insert_new, map_size_insert_None by done. case_decide; lia.
Qed.

(** ** Changes of the map and of the tree *)

(** [T'] is [T] with one subscription more *)
Definition subscribed T T' (f : list byte) (k : K) (v : V) : Prop :=
  (forall p, p ∉ suffixes (path_of f) -> T' !! p = T !! p) /\
  (forall p, p ∈ suffixes (path_of f) -> exists n', T' !! p = Some n' /\
    ncount n' = default 0 (ncount <$> T !! p) + 1 /\
    nvalue n' = (if decide (p = path_of f) then <[k := v]> (default ∅ (nvalue <$> T !! p)) else default ∅ (nvalue <$> T !! p))).

Lemma represents_subscribed T T' A f k v :
  subscribed T T' f k v -> represents T A -> A !! (f, k) = None -> represents T' (<[(f, k) := v]> A).
Proof.
  intros [Hout Hin] Hr Hn p Hp. specialize (Hr p Hp). unfold node_ok in *. rewrite !under_insert_new by done.
  destruct (decide (p ∈ suffixes (path_of f))) as [Hsuf|Hsuf].
  - destruct (Hin p Hsuf) as (n' & -> & -> & Hv). pose proof (under_nonneg A p). split; [destruct (T !! p); simpl; lia|]. split; [lia|].
    intros f' k' Hf'. assert (Hold : default ∅ (nvalue <$> T !! p) !! k' = A !! (f', k')).
    { destruct (T !! p) as [n|]; simpl; [by apply Hr|]. rewrite lookup_empty. destruct (A !! (f', k')) as [v'|] eqn:Hv'; [|done].
      pose proof (under_pos A f' k' v' p Hv') as Hpos. rewrite <- Hf' in *. specialize (Hpos (self_suffix f')). lia. }
    rewrite Hv. destruct (decide (p = path_of f)) as [Heq|Hne].
    + assert (f' = f) as -> by (apply path_of_inj; congruence). destruct (decide (k' = k)) as [->|Hk].
      * by rewrite !lookup_insert_eq.
      * rewrite !lookup_insert_ne by congruence. done.
    + rewrite lookup_insert_ne; [done|]. intros [= -> ->]. congruence.
  - rewrite Hout by done. rewrite Z.add_0_r. destruct (T !! p) as [n|]; [|done]. destruct Hr as (Hc & Hpos & Hv).
    split; [done|]. split; [done|]. intros f' k' Hf'. rewrite lookup_insert_ne; [by apply Hv|]. intros [= -> ->].
    apply Hsuf. rewrite <- Hf'. apply self_suffix.
Qed.

Lemma represents_updated T A f k v v0 n :
  represents T A -> A !! (f, k) = Some v0 -> T !! path_of f = Some n ->
  represents (<[path_of f := set_nvalue <[k := v]> n]> T) (<[(f, k) := v]> A).
Proof.
  intros Hr Hv0 Hn p Hp. pose proof (Hr p Hp) as Hrp. unfold node_ok in *. rewrite !(under_insert_old A f k v v0) by done.
  destruct (decide (p = path_of f)) as [->|Hne].
  - rewrite lookup_insert_eq. rewrite Hn in Hrp. destruct Hrp as (Hc & Hpos & Hv). split; [done|]. split; [done|].
    intros f' k' Hf'. apply path_of_inj in Hf' as ->. simpl. destruct (decide (k' = k)) as [->|Hk].
    + by rewrite !lookup_insert_eq.
    + rewrite !lookup_insert_ne by congruence. by apply Hv.
  - rewrite lookup_insert_ne by done. destruct (T !! p) as [n'|]; [|done]. destruct Hrp as (Hc & Hpos & Hv).
    split; [done|]. split; [done|]. intros f' k' Hf'. rewrite lookup_insert_ne; [by apply Hv | congruence].
Qed.

(** in the middle of a removal: the nodes of [p] still count it *)
Definition removing A T (p : path) : Prop :=
  (forall q, q <> [] -> q ∉ suffixes p -> node_ok A q (T !! q)) /\
  (forall q, q ∈ suffixes p -> exists n, T !! q = Some n /\ ncount n = under A q + 1 /\
    forall f k, path_of f = q -> nvalue n !! k = A !! (f, k)).

Lemma removing_dropped A : forall p T, removing A T p -> removable T p /\ represents (drop_all T p) A.
Proof.
  induction p as [|t q IH]; intros T [Hout Hin].
  - split; [done|]. intros p Hp. apply Hout; [done|]. by apply not_elem_of_nil.
  - destruct (Hin (t :: q)) as (n & Hn & Hc & Hv); [by left|]. pose proof (under_nonneg A (t :: q)) as Hnn.
    assert (Hnot : t :: q ∉ suffixes q) by (intros Hl%suffixes_length; simpl in Hl; lia).
    assert (Hm : removing A (dropped T (t :: q)) q).
    { split.
      - intros r Hr Hrq. destruct (decide (r = t :: q)) as [->|Hne].
        + unfold dropped. rewrite Hn. unfold node_ok. destruct (Z.eqb_spec (ncount n) 1) as [Hone|Hone].
          * rewrite lookup_delete_eq. lia.
          * rewrite lookup_insert_eq. simpl. split; [lia|]. split; [lia | done].
        + rewrite dropped_nid by done. apply Hout; [done|]. cbn [suffixes]. by rewrite not_elem_of_cons.
      - intros r Hr. rewrite dropped_nid by by intros ->. apply Hin. by right. }
    destruct (IH _ Hm) as [Hrem Hrep]. split; [|done]. cbn [removable]. split; [|done]. exists n. split; [done|]. split; [lia|].
    intros Hone u. assert (Hu : u :: t :: q ∉ suffixes (t :: q)) by (intros Hl%suffixes_length; simpl in Hl; lia).
    specialize (Hout (u :: t :: q) ltac:(done) Hu). destruct (T !! (u :: t :: q)) as [n'|]; [|done].
    destruct Hout as (_ & Hpos & _). pose proof (under_child A u (t :: q) ltac:(done)). lia.
Qed.

Lemma represents_removing T A f k v n :
  represents T A -> A !! (f, k) = Some v -> T !! path_of f = Some n ->
  removing (delete (f, k) A) (<[path_of f := set_nvalue (delete k) n]> T) (path_of f).
Proof.
  intros Hr Hv Hn. split.
  - intros q Hq Hsuf. assert (Hne : q <> path_of f) by (intros ->; apply Hsuf, self_suffix). rewrite lookup_insert_ne by done.
    specialize (Hr q Hq). unfold node_ok in *. rewrite (under_delete A f k v q Hv), decide_False, Z.add_0_r in Hr by done.
    destruct (T !! q) as [n'|]; [|done]. destruct Hr as (Hc & Hpos & Hvq). split; [done|]. split; [done|].
    intros f' k' Hf'. rewrite lookup_delete_ne; [by apply Hvq | congruence].
  - intros q Hq. assert (Hne : q <> []) by (by apply elem_of_suffixes in Hq as [? _]). specialize (Hr q Hne). unfold node_ok in Hr.
    rewrite (under_delete A f k v q Hv), decide_True in Hr by done. pose proof (under_nonneg (delete (f, k) A) q).
    destruct (decide (q = path_of f)) as [->|Hqf].
    + rewrite Hn in Hr. rewrite lookup_insert_eq. eexists. split; [done|]. simpl. split; [lia|]. intros f' k' Hf'.
      apply path_of_inj in Hf' as ->. destruct (decide (k' = k)) as [->|Hk]; [by rewrite !lookup_delete_eq|].
      rewrite !lookup_delete_ne by congruence. by apply Hr.
    + rewrite lookup_insert_ne by done. destruct (T !! q) as [n'|]; [|lia]. exists n'. split; [done|]. destruct Hr as (Hc & _ & Hvq).
      split; [lia|]. intros f' k' Hf'. rewrite lookup_delete_ne; [by apply Hvq | congruence].
Qed.

Lemma represents_live T A f : represents T A -> is_Some (T !! path_of f) <-> 0 < under A (path_of f).
Proof.
  intros Hr. specialize (Hr _ (path_of_nonempty f)). unfold node_ok in Hr. destruct (T !! path_of f) as [n|].
  - split; [tauto | by eexists].
  - split; [by intros [] | lia].
Qed.

Lemma represents_value T A f k n : represents T A -> T !! path_of f = Some n -> nvalue n !! k = A !! (f, k).
Proof. intros Hr Hn. specialize (Hr _ (path_of_nonempty f)). rewrite Hn in Hr. by apply Hr. Qed.

Lemma represents_absent T A f k : represents T A -> T !! path_of f = None -> A !! (f, k) = None.
Proof.
  intros Hr Hn. specialize (Hr _ (path_of_nonempty f)). rewrite Hn in Hr. destruct (A !! (f, k)) as [v|] eqn:Hv; [|done].
  pose proof (under_pos A f k v _ Hv (self_suffix f)). simpl in Hr. lia.
Qed.

Lemma represents_count T A f p n :
  represents T A -> p ∈ suffixes (path_of f) -> T !! p = Some n -> ncount n <= Z.of_nat (size A).
Proof.
  intros Hr [Hp _]%elem_of_suffixes Hn. specialize (Hr p Hp). rewrite Hn in Hr. destruct Hr as [-> _]. apply under_size.
Qed.

(** ** The operations *)
Import multiple_subscription_map.

Lemma last_key T (f : list byte) : last (map (key_of T) (paths [] (levels f))) = Some (key_of T (path_of f)).
Proof. etransitivity; [apply fmap_last|]. rewrite last_paths by apply levels_nonempty. unfold path_of. by rewrite app_nil_r. Qed.

Lemma find_path_run m T A f :
  shape m T -> represents T A ->
  exists path, find_topic_filter f m = Return path m /\
    ((T !! path_of f = None /\ path = []) \/
     (exists n, T !! path_of f = Some n /\ path = map (key_of T) (paths [] (levels f)) /\ last path = Some (key_of T (path_of f)))).
Proof.
  intros Hs Hr. eexists. split; [by apply find_topic_filter_run|]. destruct (T !! path_of f) as [n|] eqn:Hn.
  - right. exists n. split; [done|]. rewrite decide_True by by eexists. split; [done | apply last_key].
  - left. split; [done|]. by rewrite decide_False by by intros [].
Qed.

Lemma value_run m T f n (g : Cont -> Cont) :
  shape m T -> T !! path_of f = Some n ->
  exists m', modify_entry (set_value g) (key_of T (path_of f)) m = Return tt m' /\
    shape m' (<[path_of f := set_nvalue g n]> T) /\ map_size m' = map_size m /\ next_node_id m' = next_node_id m.
Proof.
  intros Hs Hn. apply (shape_modify_node m T (path_of f) n); try done. exact (sh_count _ _ _ Hs _ _ Hn).
Qed.

Lemma key_of_insert T f n n' p : T !! path_of f = Some n -> nid n' = nid n -> key_of (<[path_of f := n']> T) p = key_of T p.
Proof.
  intros Hn Hid. apply key_of_ext. intros q _. destruct (decide (q = path_of f)) as [->|Hq].
  - rewrite lookup_insert_eq, Hn. simpl. by rewrite Hid.
  - by rewrite lookup_insert_ne.
Qed.

Lemma assign_run m T A f k v n :
  shape m T -> represents T A -> T !! path_of f = Some n ->
  exists m', assign (key_of T (path_of f)) k v m = Return (bool_decide (A !! (f, k) = None)) m' /\
    shape m' (<[path_of f := set_nvalue <[k := v]> n]> T) /\ map_size m' = map_size m /\ next_node_id m' = next_node_id m.
Proof.
  intros Hs Hr Hn. destruct (value_run m T f n <[k := v]> Hs Hn) as (m' & Hrun & Hrest). exists m'. split; [|done].
  unfold assign. etransitivity; [exact (bind_return _ _ _ _ _ (at_node Hs _ _ Hn))|].
  etransitivity; [exact (bind_return _ _ _ _ _ Hrun)|]. cbn [value stored]. by rewrite (represents_value T A f k n Hr Hn).
Qed.

(** the nodes of a filter are counted after its value was added *)
Lemma counted_subscribed T T' f k v n :
  T !! path_of f = Some n -> counted (<[path_of f := set_nvalue <[k := v]> n]> T) T' (suffixes (path_of f)) ->
  (forall p, p ∈ suffixes (path_of f) -> is_Some (T !! p)) -> subscribed T T' f k v.
Proof.
  intros Hn [Hout Hin] Hlive. split.
  - intros p Hp. rewrite Hout by done. rewrite lookup_insert_ne; [done|]. intros <-. apply Hp, self_suffix.
  - intros p Hp. destruct (Hin p Hp) as (n' & Hn' & Hcase). exists n'. split; [done|]. destruct (decide (p = path_of f)) as [->|Hne].
    + rewrite lookup_insert_eq in Hcase. subst n'. rewrite Hn. done.
    + rewrite lookup_insert_ne in Hcase by done. destruct (Hlive p Hp) as [np Hnp]. rewrite Hnp in Hcase |- *. subst n'. done.
Qed.

(** or before *)
Lemma created_subscribed T T' f k v n' :
  counted T T' (suffixes (path_of f)) -> T' !! path_of f = Some n' ->
  subscribed T (<[path_of f := set_nvalue <[k := v]> n']> T') f k v.
Proof.
  intros [Hout Hin] Hn'. split.
  - intros p Hp. rewrite lookup_insert_ne; [by apply Hout|]. intros <-. apply Hp, self_suffix.
  - intros p Hp. destruct (Hin p Hp) as (np & Hnp & Hcase).
    assert (Hold : ncount np = default 0 (ncount <$> T !! p) + 1 /\ nvalue np = default ∅ (nvalue <$> T !! p)).
    { destruct (T !! p) as [n0|]; [by subst np|]. destruct Hcase as [Hc Hv]. simpl. by rewrite Hc, Hv. }
    destruct (decide (p = path_of f)) as [->|Hne].
    + rewrite lookup_insert_eq. eexists. split; [done|]. rewrite Hn' in Hnp. injection Hnp as ->. simpl.
      destruct Hold as [-> ->]. done.
    + rewrite lookup_insert_ne by done. by exists np.
Qed.

Lemma increase_map_size_run m :
  map_size m < size_max -> increase_map_size m = Return tt (set_map_size (map_size m + 1) m).
Proof.
  intros Hlt. unfold increase_map_size. etransitivity; [exact (bind_return _ _ _ m m eq_refl)|].
  by rewrite (proj2 (Z.eqb_neq _ _)) by lia.
Qed.

Lemma decrease_map_size_run m :
  0 < map_size m -> decrease_map_size m = Return tt (set_map_size (map_size m - 1) m).
Proof.
  intros Hlt. unfold decrease_map_size. etransitivity; [exact (bind_return _ _ _ m m eq_refl)|].
  by rewrite (proj2 (Z.ltb_lt _ _) Hlt).
Qed.

Lemma shape_set_map_size m T x : shape m T -> shape (set_map_size x m) T.
Proof. by intros []. Qed.

(** room for the counters and for the levels of a filter *)
Definition room m A (f : list byte) : Prop :=
  next_node_id m + Z.of_nat (length (levels f)) <= size_max /\ Z.of_nat (size A) < max_count.

Lemma room_size A : Z.of_nat (size A) < max_count -> Z.of_nat (size A) < size_max.
Proof. change max_count with (2 ^ 62 - 1). change size_max with (2 ^ 64 - 1). lia. Qed.

Lemma map_size_new A f k v : A !! (f, k) = None -> Z.of_nat (size (<[(f, k) := v]> A)) = Z.of_nat (size A) + 1.
Proof. intros Hn. rewrite map_size_insert_None by done. lia. Qed.

(** a key that is new on a filter with nodes *)
Lemma holds_subscribed m T T' A f k v :
  shape m T' -> subscribed T T' f k v -> represents T A -> A !! (f, k) = None -> map_size m = Z.of_nat (size A) ->
  holds (set_map_size (map_size m + 1) m) (<[(f, k) := v]> A).
Proof.
  intros Hs Hsub Hr Hn Hm. exists T'. split; [by apply shape_set_map_size|].
  split; [by eapply represents_subscribed|]. rewrite map_size_new by done. simpl. lia.
Qed.

Lemma holds_updated m T A f k v n :
  shape m (<[path_of f := set_nvalue <[k := v]> n]> T) -> represents T A -> T !! path_of f = Some n ->
  A !! (f, k) <> None -> map_size m = Z.of_nat (size A) -> holds m (<[(f, k) := v]> A).
Proof.
  intros Hs Hr Hn Hold Hm. destruct (A !! (f, k)) as [v0|] eqn:Hv; [|done]. eexists. split; [exact Hs|].
  split; [by eapply represents_updated|]. by rewrite map_size_insert_Some by by eexists.
Qed.

(** the handle of a filter *)
Lemma lookup_run m T A f :
  shape m T -> represents T A ->
  lookup_filter f m = Return (match T !! path_of f with Some _ => Some (key_of T (path_of f)) | None => None end) m.
Proof.
  intros Hs Hr. destruct (find_path_run m T A f Hs Hr) as (path & Hfind & Hpath). unfold lookup_filter.
  etransitivity; [exact (bind_return _ _ _ _ _ Hfind)|]. destruct Hpath as [[-> ->]|(n & -> & -> & Hlast)]; [done|].
  rewrite decide_False by (intros Hnil; by rewrite Hnil in Hlast).
  etransitivity; [eapply bind_return; unfold path_to_handle, deref; rewrite Hlast; reflexivity | done].
Qed.

(** it stays the same as long as there is one *)
Lemma lookup_grown m m' A A' f h :
  holds m A -> holds m' A' -> grown (node_ids m) m' -> lookup_filter f m = Return (Some h) m -> lookup_filter f m' = Return (Some h) m'.
Proof. intros (T & Hs & _) (T' & Hs' & _). by apply (lookup_ids m T m' T'). Qed.

(** a filter without nodes *)
Lemma insert_absent m T A f k v :
  shape m T -> represents T A -> map_size m = Z.of_nat (size A) -> room m A f -> T !! path_of f = None ->
  exists m' h, insert_or_assign f k v m = Return (h, true) m' /\ holds m' (<[(f, k) := v]> A) /\
    next_node_id m' <= next_node_id m + Z.of_nat (length (levels f)) /\ lookup_filter f m' = Return (Some h) m'.
Proof.
  intros Hs Hr Hm [Hroom Hsize] Hn. pose proof (represents_absent T A f k Hr Hn) as Hnew.
  destruct (find_path_run m T A f Hs Hr) as (path & Hfind & [[_ ->]|(n & Hn' & _)]); [|congruence].
  destruct (create_topic_filter_run m T f Hs Hroom) as (m1 & T1 & Hrun1 & Hs1 & Hc1 & Hm1 & Hx1).
  { intros p np Hp Hnp. pose proof (represents_count T A f p np Hr Hp Hnp). lia. }
  destruct (proj2 Hc1 _ (self_suffix f)) as (n1 & Hn1 & _).
  destruct (value_run m1 T1 f n1 <[k := v]> Hs1 Hn1) as (m2 & Hrun2 & Hs2 & Hm2 & Hx2).
  assert (Hsub : subscribed T (<[path_of f := set_nvalue <[k := v]> n1]> T1) f k v) by by eapply created_subscribed.
  pose proof (represents_subscribed _ _ A f k v Hsub Hr Hnew) as Hr2.
  eexists _, _. split; [|split; [|split]].
  - etransitivity; [exact (bind_return _ _ _ _ _ Hfind)|]. cbn [last]. etransitivity; [exact (bind_return _ _ _ _ _ Hrun1)|].
    etransitivity; [eapply bind_return; unfold path_to_handle, deref; rewrite last_key; reflexivity|].
    etransitivity; [exact (bind_return _ _ _ _ _ Hrun2)|].
    etransitivity; [apply bind_return, increase_map_size_run; pose proof (room_size A Hsize); lia | reflexivity].
  - apply (holds_subscribed m2 T _ A f k v Hs2); [done | done | done | congruence].
  - simpl. lia.
  - rewrite (lookup_run _ _ _ f (shape_set_map_size _ _ _ Hs2) Hr2), lookup_insert_eq. by rewrite (key_of_insert T1 f n1).
Qed.

(** a filter with nodes: [increase] counts them *)
Definition assign_and (increase : action (subscription_map Cont) unit) (back : path_entry_key) (k : K) (v : V) :
    action (subscription_map Cont) (path_entry_key * bool) :=
  inserted ← assign back k v; (if inserted : bool then increase;; increase_map_size else mret tt);; mret (back, inserted).

Lemma insert_present increase m T A f k v n :
  shape m T -> represents T A -> map_size m = Z.of_nat (size A) -> Z.of_nat (size A) < max_count -> T !! path_of f = Some n ->
  (forall m1 n1, let T1 := <[path_of f := n1]> T in
    shape m1 T1 -> nid n1 = nid n -> (forall p np, p ∈ suffixes (path_of f) -> T1 !! p = Some np -> ncount np < max_count) ->
    exists m2 T2, increase m1 = Return tt m2 /\ shape m2 T2 /\ counted T1 T2 (suffixes (path_of f)) /\
      map_size m2 = map_size m1 /\ next_node_id m2 = next_node_id m1) ->
  exists m', assign_and increase (key_of T (path_of f)) k v m = Return (key_of T (path_of f), bool_decide (A !! (f, k) = None)) m' /\
    holds m' (<[(f, k) := v]> A) /\ next_node_id m' = next_node_id m.
Proof.
  intros Hs Hr Hm Hsize Hn Hinc. destruct (assign_run m T A f k v n Hs Hr Hn) as (m1 & Hrun1 & Hs1 & Hm1 & Hx1).
  unfold assign_and. setoid_rewrite (bind_return _ _ _ _ _ Hrun1). case_bool_decide as Hnew.
  - destruct (Hinc m1 _ Hs1 eq_refl) as (m2 & T2 & Hrun2 & Hs2 & Hc2 & Hm2 & Hx2).
    { intros p np Hp. destruct (decide (p = path_of f)) as [->|Hne].
      - rewrite lookup_insert_eq. intros [= <-]. pose proof (represents_count T A f _ n Hr Hp Hn). simpl. lia.
      - rewrite lookup_insert_ne by done. intros Hnp. pose proof (represents_count T A f p np Hr Hp Hnp). lia. }
    eexists. split; [|split].
    + etransitivity; [eapply bind_return; etransitivity; [exact (bind_return _ _ _ _ _ Hrun2)|];
        apply increase_map_size_run; pose proof (room_size A Hsize); lia|]. reflexivity.
    + apply (holds_subscribed m2 T T2 A f k v Hs2); [|done | done | congruence]. eapply counted_subscribed; [done | done|].
      intros p. apply (suffixes_live _ _ _ _ _ Hs). by eexists.
    + simpl. lia.
  - eexists. split; [reflexivity|]. split; [|done]. eapply holds_updated; [done.. | congruence].
Qed.

Lemma insert_run m A f k v :
  holds m A -> room m A f ->
  exists h m', insert_or_assign f k v m = Return (h, bool_decide (A !! (f, k) = None)) m' /\
    holds m' (<[(f, k) := v]> A) /\ next_node_id m' <= next_node_id m + Z.of_nat (length (levels f)) /\
    lookup_filter f m' = Return (Some h) m'.
Proof.
  intros (T & Hs & Hr & Hm) Hroom. destruct (T !! path_of f) as [n|] eqn:Hn.
  - destruct (find_path_run m T A f Hs Hr) as (path & Hfind & [[Hno _]|(n' & _ & -> & Hlast)]); [congruence|].
    destruct (insert_present (increase_subscriptions (map (key_of T) (paths [] (levels f)))) m T A f k v n Hs Hr Hm (proj2 Hroom) Hn)
      as (m' & Hrun & Hh & Hx).
    { intros m1 n1 T1 Hs1 Hid Hlt. rewrite (map_ext _ _ (fun p => eq_sym (key_of_insert T f n n1 p Hn Hid))).
      destruct (increase_subscriptions_run m1 T1 (paths [] (levels f)) Hs1 (NoDup_paths _)) as (m2 & T2 & Hrun2 & Hs2 & Hc2 & Hrest).
      - intros p Hp%elem_of_paths. destruct (suffixes_live _ _ _ (path_of f) p Hs1) as [np Hnp]; [|done|].
        + unfold T1. rewrite lookup_insert_eq. by eexists.
        + exists np. split; [done | by apply (Hlt p)].
      - exists m2, T2. split; [done|]. split; [done|]. split; [|done].
        destruct Hc2 as [H1 H2]. split; intros p Hp; [apply H1 | apply H2]; by rewrite elem_of_paths. }
    assert (Hins : insert_or_assign f k v m = Return (key_of T (path_of f), bool_decide (A !! (f, k) = None)) m').
    { rewrite <- Hrun. unfold insert_or_assign. etransitivity; [exact (bind_return _ _ _ _ _ Hfind)|]. rewrite Hlast. reflexivity. }
    exists (key_of T (path_of f)), m'. split; [done|]. split; [done|]. split; [lia|]. apply (lookup_grown m m' A (<[(f, k) := v]> A) f); [by exists T | done | |].
    + refine (grown_insert _ f k v m _ m' _ Hins). by unfold grown.
    + by rewrite (lookup_run m T A f Hs Hr), Hn.
  - destruct (insert_absent m T A f k v Hs Hr Hm Hroom Hn) as (m' & h & Hrun & Hh & Hx). exists h, m'.
    by rewrite bool_decide_eq_true_2 by by apply (represents_absent T).
Qed.

(** ** By handle *)

Lemma insert_handle_run m A f h k v :
  holds m A -> Z.of_nat (size A) < max_count -> lookup_filter f m = Return (Some h) m ->
  exists m', insert_or_assign_handle h k v m = Return (h, bool_decide (A !! (f, k) = None)) m' /\
    holds m' (<[(f, k) := v]> A) /\ next_node_id m' = next_node_id m.
Proof.
  intros (T & Hs & Hr & Hm) Hsize Hlook. rewrite (lookup_run m T A f Hs Hr) in Hlook.
  destruct (T !! path_of f) as [n|] eqn:Hn; [|done]. injection Hlook as <-.
  destruct (insert_present (increase_subscriptions_handle (key_of T (path_of f))) m T A f k v n Hs Hr Hm Hsize Hn) as (m' & Hrun & Hh & Hx).
  { intros m1 n1 T1 Hs1 Hid Hlt. rewrite <- (key_of_insert T f n n1 (path_of f) Hn Hid). apply increase_subscriptions_handle_run; [done | | done].
    unfold T1. rewrite lookup_insert_eq. by eexists. }
  exists m'. split; [|done]. rewrite <- Hrun. unfold insert_or_assign_handle. etransitivity; [exact (bind_return _ _ _ m m eq_refl)|].
  by rewrite (map_node Hs _ _ Hn).
Qed.

(** ** Erasure *)

(** the number of elements erased *)
Definition removed A f k : Z := match A !! (f, k) with Some _ => 1 | None => 0 end.

Lemma erase_key_run m T A f k n :
  shape m T -> represents T A -> T !! path_of f = Some n ->
  exists m', erase_key (key_of T (path_of f)) k m = Return (removed A f k) m' /\
    shape m' (<[path_of f := set_nvalue (delete k) n]> T) /\ map_size m' = map_size m /\ next_node_id m' = next_node_id m.
Proof.
  intros Hs Hr Hn. destruct (value_run m T f n (delete k) Hs Hn) as (m' & Hrun & Hrest). exists m'. split; [|done].
  unfold erase_key. etransitivity; [exact (bind_return _ _ _ _ _ (at_node Hs _ _ Hn))|].
  etransitivity; [exact (bind_return _ _ _ _ _ Hrun)|]. cbn [value stored]. by rewrite (represents_value T A f k n Hr Hn).
Qed.

(** nothing to erase in the node *)
Lemma holds_not_erased m T A f k n :
  shape m (<[path_of f := set_nvalue (delete k) n]> T) -> represents T A -> T !! path_of f = Some n ->
  A !! (f, k) = None -> map_size m = Z.of_nat (size A) -> holds m (delete (f, k) A).
Proof.
  intros Hs Hr Hn Hno Hm. exists T. rewrite delete_id by done. split; [|done].
  assert (set_nvalue (delete k) n = n) as Heq.
  { unfold set_nvalue. rewrite delete_id by by rewrite (represents_value T A f k n Hr Hn). by destruct n. }
  by rewrite Heq, insert_id in Hs.
Qed.

Lemma map_size_erased A f k v : A !! (f, k) = Some v -> Z.of_nat (size A) = Z.of_nat (size (delete (f, k) A)) + 1.
Proof. intros Hv. rewrite <- (insert_delete_id A (f, k) v Hv) at 1. rewrite map_size_insert_None by apply lookup_delete_eq. lia. Qed.

Lemma removal_run m1 T A f k v n :
  shape m1 (<[path_of f := set_nvalue (delete k) n]> T) -> represents T A -> T !! path_of f = Some n ->
  A !! (f, k) = Some v -> map_size m1 = Z.of_nat (size A) ->
  0 < map_size m1 /\
  forall x, exists m2, remove_topic_filter (map (key_of T) (paths [] (levels f))) (set_map_size x m1) = Return tt m2 /\
    map_size m2 = x /\ next_node_id m2 = next_node_id m1 /\ holds (set_map_size (map_size m1 - 1) m2) (delete (f, k) A).
Proof.
  intros Hs1 Hr Hn Hv Hm. pose proof (map_size_erased A f k v Hv) as Hsz. split; [lia|]. intros x.
  pose proof (removing_dropped _ _ _ (represents_removing T A f k v n Hr Hv Hn)) as [Hrem Hrep].
  destruct (remove_topic_filter_run (set_map_size x m1) _ f (shape_set_map_size _ _ x Hs1) Hrem) as (m2 & Hrun & Hs2 & Hm2 & Hx2).
  rewrite (map_ext _ _ (fun p => key_of_insert T f n (set_nvalue (delete k) n) p Hn eq_refl)) in Hrun.
  exists m2. split; [done|]. split; [by rewrite Hm2|]. split; [by rewrite Hx2|]. eexists.
  split; [by apply shape_set_map_size|]. split; [done|]. simpl. lia.
Qed.

Lemma set_map_size_id m : set_map_size (map_size m) m = m.
Proof. by destruct m. Qed.

Lemma erase_run m A f k :
  holds m A ->
  exists m', erase f k m = Return (removed A f k) m' /\ holds m' (delete (f, k) A) /\ next_node_id m' = next_node_id m.
Proof.
  intros (T & Hs & Hr & Hm). destruct (find_path_run m T A f Hs Hr) as (path & Hfind & Hpath). unfold erase.
  setoid_rewrite (bind_return _ _ _ _ _ Hfind). destruct Hpath as [[Hn ->]|(n & Hn & -> & Hlast)].
  - pose proof (represents_absent T A f k Hr Hn) as Hno. exists m. unfold removed. rewrite Hno. split; [done|]. split; [|done].
    rewrite delete_id by done. by exists T.
  - rewrite Hlast. destruct (erase_key_run m T A f k n Hs Hr Hn) as (m1 & Hrun1 & Hs1 & Hm1 & Hx1).
    setoid_rewrite (bind_return _ _ _ _ _ Hrun1). unfold removed. destruct (A !! (f, k)) as [v|] eqn:Hv.
    + destruct (removal_run m1 T A f k v n Hs1 Hr Hn Hv ltac:(congruence)) as [Hpos Hrem].
      destruct (Hrem (map_size m1 - 1)) as (m2 & Hrun2 & Hm2 & Hx2 & Hh). exists m2. split; [|split; [|congruence]].
      * etransitivity; [eapply bind_return; etransitivity; [exact (bind_return _ _ _ _ _ (decrease_map_size_run m1 Hpos)) | exact Hrun2]|]. done.
      * rewrite <- Hm2, set_map_size_id in Hh. done.
    + exists m1. split; [done|]. split; [|done]. apply (holds_not_erased m1 T A f k n); [exact Hs1 | done | done | done | congruence].
Qed.

Lemma erase_handle_run m A f h k :
  holds m A -> lookup_filter f m = Return (Some h) m ->
  exists m', erase_handle h k m = Return (removed A f k) m' /\ holds m' (delete (f, k) A) /\ next_node_id m' = next_node_id m.
Proof.
  intros (T & Hs & Hr & Hm) Hlook. rewrite (lookup_run m T A f Hs Hr) in Hlook.
  destruct (T !! path_of f) as [n|] eqn:Hn; [|done]. injection Hlook as <-.
  destruct (erase_key_run m T A f k n Hs Hr Hn) as (m1 & Hrun1 & Hs1 & Hm1 & Hx1).
  assert (Hstart : erase_handle (key_of T (path_of f)) k m = ((if removed A f k =? 0 then mret tt
    else path ← handle_to_path (key_of T (path_of f)); remove_topic_filter path;; decrease_map_size);;
    mret (removed A f k)) m1).
  { unfold erase_handle. etransitivity; [exact (bind_return _ _ _ m m eq_refl)|]. rewrite (map_node Hs _ _ Hn).
    exact (bind_return _ _ _ _ _ Hrun1). }
  setoid_rewrite Hstart. unfold removed. destruct (A !! (f, k)) as [v|] eqn:Hv.
  - destruct (removal_run m1 T A f k v n Hs1 Hr Hn Hv ltac:(congruence)) as [Hpos Hrem].
    destruct (Hrem (map_size m1)) as (m2 & Hrun2 & Hm2 & Hx2 & Hh). rewrite set_map_size_id in Hrun2.
    pose proof (handle_to_path_run m1 _ f Hs1) as Hpath. rewrite lookup_insert_eq, (key_of_insert T f n (set_nvalue (delete k) n) _ Hn eq_refl) in Hpath.
    specialize (Hpath ltac:(by eexists)). rewrite (map_ext _ _ (fun p => key_of_insert T f n (set_nvalue (delete k) n) p Hn eq_refl)) in Hpath.
    exists (set_map_size (map_size m1 - 1) m2). split; [|split; [done | simpl; congruence]].
    etransitivity; [eapply bind_return; etransitivity; [exact (bind_return _ _ _ _ _ Hpath)|];
      etransitivity; [exact (bind_return _ _ _ _ _ Hrun2)|]; apply decrease_map_size_run; lia|]. by rewrite Hm2.
  - exists m1. split; [done|]. split; [|done]. apply (holds_not_erased m1 T A f k n); [exact Hs1 | done | done | done | congruence].
Qed.

(** ** The search *)

(** the levels of a topic name are no wildcards *)
Definition plain_topic (topic : list byte) : Prop := Forall (fun t => t <> [plus] /\ t <> [hash]) (levels topic).

(** what a topic finds in the map *)
Definition spec_find A (topic : list byte) : list (K * V) :=
  (fun e => (snd (fst e), snd e)) <$> filter (fun e => filter_matches (fst (fst e)) topic = true) (map_to_list A).

Lemma node_path m T A p : shape m T -> represents T A -> p <> [] -> is_Some (T !! p) -> exists f, path_of f = p.
Proof.
  intros Hs Hr Hp [n Hn]. specialize (Hr p Hp). rewrite Hn in Hr. destruct Hr as (_ & Hpos & _).
  destruct (under_entry A p Hpos) as (f & k & v & _ & Hsuf). by eapply suffix_path.
Qed.

Lemma elem_of_found m T A topic p :
  shape m T -> represents T A -> plain_topic topic ->
  p ∈ search T [[]] (levels topic) <-> is_Some (T !! p) /\ exists f, p = path_of f /\ filter_matches f topic = true.
Proof.
  intros Hs Hr Ht. rewrite (elem_of_search _ _ _ Hs). unfold plain_topic, filter_matches in *.
  destruct (levels topic) as [|t ts] eqn:Hlev; [by destruct (levels_nonempty topic)|]. apply Forall_cons in Ht as [[Hplus Hhash] _].
  split.
  - intros [[? _]|(_ & Hlive & q & fs & Hq & -> & Hm)]; [done|]. apply list_elem_of_singleton in Hq as ->. split; [done|].
    rewrite app_nil_r in *. destruct (node_path m T A (rev fs) Hs Hr) as [f Hf]; [|done|].
    + intros Hnil. apply (f_equal (@rev _)) in Hnil. rewrite rev_involutive in Hnil. by rewrite Hnil in Hm.
    + assert (levels f = fs) as <- by (apply (f_equal (@rev _)) in Hf; unfold path_of in Hf; by rewrite !rev_involutive in Hf).
      exists f. split; [done|]. by rewrite match_below_root in Hm.
  - intros (Hlive & f & -> & Hm). right. split; [done|]. split; [done|]. exists [], (levels f). split; [by left|].
    split; [by rewrite app_nil_r|]. by rewrite match_below_root.
Qed.

Definition values T (p : path) : list (K * V) := match T !! p with Some n => map_to_list (nvalue n) | None => [] end.

(** the entries of the map at the nodes that are found *)
Definition found T (topic : list byte) : list (list byte * K * V) :=
  search T [[]] (levels topic) ≫= fun p => (fun '(k, v) => (join (rev p), k, v)) <$> values T p.

Lemma join_path f : join (rev (path_of f)) = f.
Proof. unfold path_of. by rewrite rev_involutive, join_levels. Qed.

Lemma elem_of_entries m T A topic f k v :
  shape m T -> represents T A -> plain_topic topic ->
  (f, k, v) ∈ found T topic <-> A !! (f, k) = Some v /\ filter_matches f topic = true.
Proof.
  intros Hs Hr Ht. unfold found. rewrite list_elem_of_bind. split.
  - intros (p & He & Hp). apply (elem_of_found m T A topic p Hs Hr Ht) in Hp as ([n Hn] & g & -> & Hm).
    apply list_elem_of_fmap in He as ([k' v'] & [= -> -> ->] & Hv). rewrite join_path. split; [|done].
    unfold values in Hv. rewrite Hn in Hv. apply elem_of_map_to_list in Hv. by rewrite <- (represents_value T A g k' n Hr Hn).
  - intros [Hv Hm]. assert (Hlive : is_Some (T !! path_of f)).
    { apply (represents_live T A f Hr). apply (under_pos A f k v _ Hv), self_suffix. }
    exists (path_of f). split; [|apply (elem_of_found m T A topic _ Hs Hr Ht); eauto]. apply list_elem_of_fmap. exists (k, v).
    rewrite join_path. split; [done|]. destruct Hlive as [n Hn]. unfold values. rewrite Hn. apply elem_of_map_to_list.
    by rewrite (represents_value T A f k n Hr Hn).
Qed.

Lemma NoDup_found m T A topic : shape m T -> represents T A -> plain_topic topic -> NoDup (found T topic).
Proof.
  intros Hs Hr Ht. apply NoDup_bind.
  - intros p q [[f k] v] Hp Hq (e & He & _)%list_elem_of_fmap (e' & He' & _)%list_elem_of_fmap.
    apply (elem_of_found m T A topic _ Hs Hr Ht) in Hp as (_ & g & -> & _), Hq as (_ & g' & -> & _).
    rewrite join_path in He, He'. destruct e, e'. congruence.
  - intros p _. apply NoDup_fmap_2; [by intros [] [] [= -> ->]|]. unfold values. destruct (T !! p); [apply NoDup_map_to_list | constructor].
  - apply (NoDup_search _ _ _ Hs _ _ 0%nat); [done | apply NoDup_singleton | by intros p ->%list_elem_of_singleton].
Qed.

Lemma found_spec m T A topic :
  shape m T -> represents T A -> plain_topic topic ->
  (search T [[]] (levels topic) ≫= values T) ≡ₚ spec_find A topic.
Proof.
  intros Hs Hr Ht. assert (Hproj : (search T [[]] (levels topic) ≫= values T) = (fun e => (snd (fst e), snd e)) <$> found T topic).
  { unfold found. induction (search T [[]] (levels topic)) as [|p ps IH]; [done|]. cbn. rewrite fmap_app. f_equal; [|done].
    rewrite <- list_fmap_compose. symmetry. etransitivity; [|apply list_fmap_id]. apply list_fmap_ext. by intros ? [] ?. }
  rewrite Hproj. unfold spec_find. apply fmap_Permutation, NoDup_Permutation.
  - by apply (NoDup_found m T A).
  - apply NoDup_filter, NoDup_map_to_list.
  - intros [[f k] v]. rewrite (elem_of_entries m T A topic f k v Hs Hr Ht), list_elem_of_filter, elem_of_map_to_list. tauto.
Qed.

Lemma find_run m A topic :
  holds m A -> plain_topic topic -> exists l, find topic m = Return l m /\ l ≡ₚ spec_find A topic.
Proof.
  intros (T & Hs & Hr & _) Ht. eexists. split.
  - unfold find. apply (find_match_run _ (fun p l => l ++ values T p) m T Hs).
    intros p l [n Hn]. etransitivity; [exact (bind_return _ _ _ _ _ (at_node Hs _ _ Hn))|]. unfold values. by rewrite Hn.
  - rewrite <- (found_spec m T A topic Hs Hr Ht). unfold call.
    enough (forall ps l, foldl (fun l p => l ++ values T p) l ps = l ++ (ps ≫= values T)) as -> by done.
    induction ps as [|p ps IH]; intros l; cbn; [by rewrite app_nil_r|]. by rewrite IH, <- app_assoc.
Qed.

(** ** The empty map *)

Lemma shape_new : shape make_subscription_map ({[[] := mk_node 1 1 ∅]} : tree).
Proof.
  assert (Hl : forall p n, ({[[] := mk_node 1 1 ∅]} : tree) !! p = Some n <-> p = [] /\ n = mk_node 1 1 ∅).
  { intros p n. rewrite lookup_singleton_Some. split; intros [-> ->]; done. }
  assert (Hf : flags ({[[] := mk_node 1 1 ∅]} : tree) [] = (false, false)) by by vm_compute.
  split; try done.
  - exists (mk_node 1 1 ∅). split; [by apply Hl | done].
  - intros p n [-> ->]%Hl. simpl. lia.
  - by intros p q n n' [-> ->]%Hl [-> ->]%Hl.
  - intros t q [n [[=] _]%Hl].
  - intros p n [-> ->]%Hl. by vm_compute.
  - intros k e. cbn [map_ make_subscription_map]. rewrite lookup_singleton_Some. split.
    + intros [<- <-]. exists [], (mk_node 1 1 ∅). split; [by apply Hl|]. by rewrite Hf.
    + intros (p & n & [-> ->]%Hl & -> & ->). by rewrite Hf.
Qed.

Lemma holds_new : holds make_subscription_map (∅ : subscriptions).
Proof.
  eexists. split; [apply shape_new|]. split; [|by rewrite map_size_empty]. intros p Hp.
  rewrite lookup_singleton_ne by done. unfold node_ok, under. by rewrite map_filter_empty, map_size_empty.
Qed.

(** no node is left of an empty map *)
Lemma holds_empty m : holds m (∅ : subscriptions) -> internal_size m = 1 /\ map_size m = 0.
Proof.
  intros (T & Hs & Hr & Hm). rewrite map_size_empty in Hm. split; [|done].
  assert (Honly : forall p n, T !! p = Some n -> p = []).
  { intros p n Hn. destruct (decide (p = [])) as [|Hp]; [done|]. specialize (Hr p Hp). rewrite Hn in Hr.
    destruct Hr as (_ & Hpos & _). unfold under in Hpos. rewrite map_filter_empty, map_size_empty in Hpos. lia. }
  destruct (sh_root _ _ _ Hs) as (n & Hn & _). unfold internal_size.
  assert (map_ m = {[ key_of T [] := stored (flags T []) n (parent_of T []) ]}) as ->; [|by rewrite map_size_singleton].
  apply map_eq. intros k. apply option_eq. intros e. rewrite (sh_map _ _ _ Hs), lookup_singleton_Some. split.
  - intros (p & np & Hnp & -> & ->). pose proof (Honly p np Hnp) as ->. by simplify_eq.
  - intros [<- <-]. eauto.
Qed.

(** ** Any sequence of calls *)

Inductive call :=
| call_insert (f : list byte) (k : K) (v : V)
| call_insert_handle (f : list byte) (k : K) (v : V)
| call_erase (f : list byte) (k : K)
| call_erase_handle (f : list byte) (k : K).

Abbreviation program := (action (subscription_map Cont)).

(** a call by handle takes the handle [lookup] gives for the filter; the
    result says whether the key is new, or how many values were erased *)
Definition with_handle (f : list byte) (g : handle -> program Z) : program (option Z) :=
  h ← lookup_filter f; match h with Some h => r ← g h; mret (Some r) | None => mret None end.

Definition run_call (c : call) : program (option Z) :=
  match c with
  | call_insert f k v => r ← insert_or_assign f k v; mret (Some (Z.b2z (snd r)))
  | call_insert_handle f k v => with_handle f (fun h => r ← insert_or_assign_handle h k v; mret (Z.b2z (snd r)))
  | call_erase f k => r ← erase f k; mret (Some r)
  | call_erase_handle f k => with_handle f (fun h => erase_handle h k)
  end.

(** there is a subscription whose filter starts with the levels of [f] *)
Definition has_node A f : bool := 0 <? under A (path_of f).

Definition spec_call (c : call) A : subscriptions * option Z :=
  match c with
  | call_insert f k v => (<[(f, k) := v]> A, Some (1 - removed A f k))
  | call_insert_handle f k v => if has_node A f then (<[(f, k) := v]> A, Some (1 - removed A f k)) else (A, None)
  | call_erase f k => (delete (f, k) A, Some (removed A f k))
  | call_erase_handle f k => if has_node A f then (delete (f, k) A, Some (removed A f k)) else (A, None)
  end.

Fixpoint run_calls (cs : list call) : program (list (option Z)) :=
  match cs with
  | [] => mret []
  | c :: cs => r ← run_call c; rs ← run_calls cs; mret (r :: rs)
  end.

Fixpoint spec_calls (cs : list call) A : subscriptions * list (option Z) :=
  match cs with
  | [] => (A, [])
  | c :: cs => let (A, r) := spec_call c A in let (A, rs) := spec_calls cs A in (A, r :: rs)
  end.

(** the nodes a call may create *)
Definition weight (c : call) : Z :=
  match c with call_insert f _ _ | call_insert_handle f _ _ => Z.of_nat (length (levels f)) | _ => 0 end.
Definition weights (cs : list call) : Z := foldr (fun c w => weight c + w) 0 cs.

Definition within m A (w : Z) : Prop := holds m A /\ next_node_id m <= 2 + w /\ Z.of_nat (size A) <= w.

Lemma levels_length f : (0 < length (levels f))%nat.
Proof. pose proof (levels_nonempty f). destruct (levels f); [done | simpl; lia]. Qed.

Lemma new_flag A f k : Z.b2z (bool_decide (A !! (f, k) = None)) = 1 - removed A f k.
Proof. unfold removed. by destruct (A !! (f, k)). Qed.

Lemma size_insert_le A f k v : Z.of_nat (size (<[(f, k) := v]> A)) <= Z.of_nat (size A) + 1.
Proof.
  destruct (A !! (f, k)) as [v0|] eqn:Hv; [rewrite map_size_insert_Some by (by eexists); lia | rewrite (map_size_new _ _ _ _ Hv); lia].
Qed.

Lemma size_delete_le A f k : Z.of_nat (size (delete (f, k) A)) <= Z.of_nat (size A).
Proof.
  destruct (A !! (f, k)) as [v|] eqn:Hv; [pose proof (map_size_erased A f k v Hv); lia | by rewrite delete_id].
Qed.

Lemma lookup_holds m A f :
  holds m A -> exists o, lookup_filter f m = Return o m /\ (is_Some o <-> has_node A f = true).
Proof.
  intros (T & Hs & Hr & _). eexists. split; [by apply (lookup_run m T A)|]. unfold has_node. rewrite Z.ltb_lt, <- (represents_live T A f Hr).
  destruct (T !! path_of f) as [n|]; split; intros [x Hx]; done.
Qed.

Lemma insert_within m A w f k v :
  within m A w -> 0 <= w -> w + Z.of_nat (length (levels f)) < max_count ->
  exists h m', insert_or_assign f k v m = Return (h, bool_decide (A !! (f, k) = None)) m' /\
    within m' (<[(f, k) := v]> A) (w + Z.of_nat (length (levels f))) /\ lookup_filter f m' = Return (Some h) m'.
Proof.
  intros (Hh & Hx & Hsz) Hw Hlt. pose proof (levels_length f). pose proof (size_insert_le A f k v).
  destruct (insert_run m A f k v Hh) as (h & m' & Hrun & Hh' & Hx' & Hlook).
  - split; [change size_max with (2 ^ 64 - 1); change max_count with (2 ^ 62 - 1) in Hlt|]; lia.
  - exists h, m'. split; [done|]. split; [|done]. split; [done | lia].
Qed.

Lemma erase_within m A w f k :
  within m A w -> exists m', erase f k m = Return (removed A f k) m' /\ within m' (delete (f, k) A) w.
Proof.
  intros (Hh & Hx & Hsz). pose proof (size_delete_le A f k). destruct (erase_run m A f k Hh) as (m' & Hrun & Hh' & Hx').
  exists m'. split; [done|]. split; [done | lia].
Qed.

(** ** Handles and entries *)

(** a filter of which there is an entry has a handle *)
Lemma lookup_entry m A f k v : holds m A -> A !! (f, k) = Some v -> exists h, lookup_filter f m = Return (Some h) m.
Proof.
  intros Hh Hv. destruct (lookup_holds m A f Hh) as ([h|] & Hlook & Ho); [by exists h|]. exfalso.
  assert (has_node A f = true) as Hn; [|by apply Ho in Hn as []]. unfold has_node. apply Z.ltb_lt. exact (under_pos A f k v _ Hv (self_suffix f)).
Qed.

Lemma lookup_inj m A f g h : holds m A -> lookup_filter f m = Return (Some h) m -> lookup_filter g m = Return (Some h) m -> f = g.
Proof.
  intros (T & Hs & Hr & _). rewrite !(lookup_run m T A _ Hs Hr). destruct (T !! path_of f) as [n|] eqn:Hf; [|done].
  destruct (T !! path_of g) as [n'|] eqn:Hg; [|done]. intros [= <-] [= Hk]. apply path_of_inj, (key_of_inj Hs); [by eexists..|]. exact (eq_sym Hk).
Qed.

(** an entry is in the container of a node *)
Lemma holds_value m A f k v : holds m A -> A !! (f, k) = Some v -> exists it e, map_ m !! it = Some e /\ value e !! k = Some v.
Proof.
  intros (T & Hs & Hr & _) Hv. destruct (proj2 (represents_live T A f Hr) (under_pos A f k v _ Hv (self_suffix f))) as [n Hn].
  exists (key_of T (path_of f)). eexists. split; [exact (map_node Hs _ _ Hn)|]. cbn [value stored]. by rewrite (represents_value T A f k n Hr Hn).
Qed.

(** the handles of [m] are those of [m'], where it has them *)
Definition handles_kept m m' : Prop := forall f h, lookup_filter f m = Return (Some h) m -> lookup_filter f m' = Return (Some h) m'.

Lemma insert_handles m A w f k v r m' :
  within m A w -> 0 <= w -> w + Z.of_nat (length (levels f)) < max_count -> insert_or_assign f k v m = Return r m' ->
  snd r = bool_decide (A !! (f, k) = None) /\ within m' (<[(f, k) := v]> A) (w + Z.of_nat (length (levels f))) /\
  lookup_filter f m' = Return (Some (fst r)) m' /\ handles_kept m m'.
Proof.
  intros Hin Hw Hlt Hr. destruct (insert_within m A w f k v Hin Hw Hlt) as (h & m1 & Hrun & Hin' & Hlook).
  rewrite Hrun in Hr. injection Hr as <- <-. split; [done|]. split; [done|]. split; [done|]. intros g h'.
  apply (lookup_grown m m1 A (<[(f, k) := v]> A)); [apply Hin | apply Hin' |]. refine (grown_insert _ f k v m _ m1 _ Hrun). by unfold grown.
Qed.

Lemma erase_handles m A w f h k :
  within m A w -> lookup_filter f m = Return (Some h) m ->
  exists m', erase_handle h k m = Return (removed A f k) m' /\ within m' (delete (f, k) A) w /\ handles_kept m' m.
Proof.
  intros (Hh & Hx & Hsz) Hlook. pose proof (size_delete_le A f k). destruct (erase_handle_run m A f h k Hh Hlook) as (m' & Hrun & Hh' & Hx').
  exists m'. split; [done|]. split; [split; [done | lia]|]. intros g h'. apply (lookup_grown m' m (delete (f, k) A) A); [done..|].
  refine (shrunk_erase_handle (node_ids m) h k m _ m' _ Hrun). by unfold shrunk.
Qed.

Lemma within_weaken m A w w' : within m A w -> w <= w' -> within m A w'.
Proof. intros (? & ? & ?) Hw. split; [done | lia]. Qed.

Lemma call_within m A w c :
  within m A w -> 0 <= w -> w + weight c < max_count ->
  exists m', run_call c m = Return (snd (spec_call c A)) m' /\ within m' (fst (spec_call c A)) (w + weight c).
Proof.
  intros Hin Hw Hlt. pose proof Hin as (Hh & Hx & Hsz).
  destruct c as [f k v|f k v|f k|f k]; cbn [run_call spec_call weight] in *; unfold with_handle.
  2: pose proof (levels_length f); pose proof (size_insert_le A f k v).
  3, 4: pose proof (size_delete_le A f k).
  - destruct (insert_within m A w f k v Hin Hw Hlt) as (h & m' & Hrun & Hin' & _). exists m'. split; [|done].
    etransitivity; [exact (bind_return _ _ _ _ _ Hrun)|]. cbn [snd]. by rewrite new_flag.
  - destruct (lookup_holds m A f Hh) as (o & Hlook & Ho). setoid_rewrite (bind_return _ _ _ _ _ Hlook).
    destruct o as [h|], (has_node A f); try (exfalso; naive_solver).
    + destruct (insert_handle_run m A f h k v Hh ltac:(change max_count with (2 ^ 62 - 1) in *; lia) Hlook) as (m' & Hrun & Hh' & Hx').
      exists m'. split; [|split; [done | simpl; lia]].
      etransitivity; [eapply bind_return; etransitivity; [exact (bind_return _ _ _ _ _ Hrun) | reflexivity]|]. cbn [snd]. by rewrite new_flag.
    + exists m. split; [done|]. split; [done | simpl; lia].
  - destruct (erase_within m A w f k Hin) as (m' & Hrun & Hin'). exists m'. split; [|by rewrite Z.add_0_r].
    etransitivity; [exact (bind_return _ _ _ _ _ Hrun) | done].
  - destruct (lookup_holds m A f Hh) as (o & Hlook & Ho). setoid_rewrite (bind_return _ _ _ _ _ Hlook).
    destruct o as [h|], (has_node A f); try (exfalso; naive_solver).
    + destruct (erase_handle_run m A f h k Hh Hlook) as (m' & Hrun & Hh' & Hx'). exists m'. split; [|split; [done | simpl; lia]].
      etransitivity; [exact (bind_return _ _ _ _ _ Hrun) | done].
    + exists m. split; [done|]. split; [done | simpl; lia].
Qed.

Lemma weight_nonneg c : 0 <= weight c.
Proof. destruct c; simpl; lia. Qed.

Lemma calls_within : forall cs m A w,
  within m A w -> 0 <= w -> w + weights cs < max_count ->
  exists m', run_calls cs m = Return (snd (spec_calls cs A)) m' /\ holds m' (fst (spec_calls cs A)).
Proof.
  assert (Hws : forall cs, 0 <= weights cs) by (induction cs as [|c cs IH]; simpl; [lia | pose proof (weight_nonneg c); lia]).
  induction cs as [|c cs IH]; intros m A w Hin Hw Hlt; simpl in *; [exists m; split; [done | apply Hin]|].
  pose proof (Hws cs). pose proof (weight_nonneg c). destruct (call_within m A w c Hin Hw) as (m1 & Hrun1 & Hin1); [lia|].
  destruct (spec_call c A) as [A1 r]. cbn [fst snd] in *. destruct (IH m1 A1 (w + weight c) Hin1) as (m2 & Hrun2 & Hh2); [lia..|].
  destruct (spec_calls cs A1) as [A2 rs]. cbn [fst snd] in *. exists m2. split; [|done].
  etransitivity; [exact (bind_return _ _ _ _ _ Hrun1)|]. etransitivity; [exact (bind_return _ _ _ _ _ Hrun2) | done].
Qed.

Lemma valid_topic_plain topic : validate_topic_name topic = true -> plain_topic topic.
Proof.
  intros (_ & _ & Hlit%literal_levels)%validate_topic_name_levels. apply Forall_forall. intros t Ht.
  assert (Hin : forall c, c ∈ t -> c ∉ [x00; plus; hash]).
  { intros c Hc. apply Hlit. rewrite list_elem_of_In, in_concat. exists t. by rewrite <- !list_elem_of_In. }
  split; intros ->; apply (Hin _ (list_elem_of_here _ _)); set_solver.
Qed.

(** C5: after any sequence of insertions and erasures, by topic filter and
    by handle, with room for the nodes, the subscription map holds what a
    finite map from filters and keys to values holds: the calls return what
    they do on the map, [size] is its size, no node is left when it is empty,
    and a topic finds exactly the values of the filters that match it, each
    once. *)
Theorem subscription_map_refines (cs : list call) :
  weights cs < max_count ->
  exists m, let A := fst (spec_calls cs ∅) in
    run_calls cs make_subscription_map = Return (snd (spec_calls cs ∅)) m /\
    map_size m = Z.of_nat (size A) /\
    (A = ∅ -> internal_size m = 1) /\
    forall topic, validate_topic_name topic = true ->
      exists l, find topic m = Return l m /\ l ≡ₚ spec_find A topic.
Proof.
  intros Hw. destruct (calls_within cs make_subscription_map ∅ 0) as (m & Hrun & Hh); [|lia..|].
  - split; [apply holds_new|]. rewrite map_size_empty. simpl. lia.
  - exists m. split; [done|]. split; [by destruct Hh as (T & _ & _ & Hm)|]. split.
    + intros He. rewrite He in Hh. by apply holds_empty.
    + intros topic Ht. by apply find_run, valid_topic_plain.
Qed.
End spec.

(** a filter with a wildcard, a call by handle, an erasure and a key that is
    on no filter *)
Lemma subscription_map_refines_witness :
  let cs := [call_insert [x61; x2f; x2b] 1 10; call_insert [x61] 2 20; call_insert_handle [x61; x2f; x2b] 3 30;
             call_insert_handle [x62] 4 40; call_erase [x61] 2; call_erase_handle [x61] 5] in
  weights cs < max_count /\
  exists m, let A := fst (spec_calls cs (∅ : gmap (list byte * Z) Z)) in
    run_calls cs make_subscription_map = Return [Some 1; Some 1; Some 1; None; Some 1; Some 0] m /\
    map_size m = 2 /\
    exists l, multiple_subscription_map.find [x61; x2f; x62] m = Return l m /\ length l = 2%nat.
Proof.
  intros cs. assert (Hw : weights cs < max_count) by (vm_compute; reflexivity). split; [exact Hw|].
  destruct (subscription_map_refines cs Hw) as (m & Hrun & Hsize & _ & Hfind). exists m.
  split; [rewrite Hrun; vm_compute; reflexivity|]. split; [rewrite Hsize; vm_compute; reflexivity|].
  destruct (Hfind [x61; x2f; x62]) as (l & Hl & Hperm); [vm_compute; reflexivity|].
  exists l. split; [exact Hl|]. rewrite Hperm. vm_compute. reflexivity.
Defined.

(** ** What the other operations do not keep *)

(** a program on a new map with one value for each filter, and the size *)
Definition on_new {A} (p : action (subscription_map (option Z)) A) : option (A * Z) :=
  match p make_subscription_map with Return a m => Some (a, map_size m) | _ => None end.

(** [single_subscription_map::insert] at a filter that has only longer ones
    below it does not count the value: the size is that of one value, and
    erasing the longer filter takes both *)
Lemma single_insert_not_counted :
  let a := [x61] in let ab := [x61; x2f; x62] in
  let inserted := (single_subscription_map.insert ab 1;; single_subscription_map.insert a 2) in
  on_new (inserted;; l1 ← single_subscription_map.find a; l2 ← single_subscription_map.find ab; mret (l1, l2)) = Some ([2], [1], 1) /\
  on_new (inserted;; single_subscription_map.erase ab;; single_subscription_map.find a) = Some ([], 0).
Proof. by vm_compute. Qed.

(** [handle_to_topic_filter] of the handle of "a/" is "a" *)
Lemma handle_to_topic_filter_drops_level :
  on_new (r ← single_subscription_map.insert [x61; x2f] 1; handle_to_topic_filter (fst r)) = Some ([x61], 1).
Proof. by vm_compute. Qed.
