(* ===== verification/RetainedTopicMap.v ===== *)
(** * Retained values by topic: tool/include/broker/retained_topic_map.hpp

    The broker finds the retained messages that match a topic filter in a tree
    whose nodes are the levels of the topics.  The nodes are in one
    Boost.MultiIndex container with two indices: a unique hashed index on the
    identifier of the parent and the level, and an ordered one on the
    identifier of the parent.  A node counts the values at and below it.

    An iterator is the key of the element it points to: the key of an element
    never changes and no two elements have the same.  [std::size_t] has 64
    bits. *)
From S2P Require Import Prelude Boost Action TopicFilter.

(** the indices of the container, and its keys *)
Abbreviation direct_index := 0%nat.
Abbreviation wildcard_index := 1%nat.
Abbreviation entry_key := (Z * list byte)%type.

Section map.
Context {BMI : BoostMultiIndex} {Value : Type} {Heq : EqDecision Value}.

Record path_entry := mk_path_entry {
  value : option Value;
  parent_id : Z;
  name : list byte;
  id : Z;
  count : Z;
}.

#[export] Instance path_entry_eq_dec : EqDecision path_entry.
Proof. solve_decision. Defined.

Definition make_path_entry (parent_id : Z) (name : list byte) (id : Z) : path_entry := mk_path_entry None parent_id name id 1.

Definition key_of_entry (e : path_entry) : entry_key := (parent_id e, name e).

Definition path_entry_set : list (index path_entry) :=
  [hashed_unique (fun a b => bool_decide (key_of_entry a = key_of_entry b));
   ordered_non_unique (fun a b => parent_id a <? parent_id b)].

Record retained_topic_map := mk_retained_topic_map {
  map_ : mi path_entry_set;
  map_size : Z;
  next_node_id : Z;
  root : entry_key;
}.

Definition root_parent_id : Z := 0.
Definition root_node_id : Z := 1.
Definition max_node_id : Z := size_max.

Definition set_map (c : mi path_entry_set) (m : retained_topic_map) : retained_topic_map :=
  mk_retained_topic_map c (map_size m) (next_node_id m) (root m).
Definition set_map_size (x : Z) (m : retained_topic_map) : retained_topic_map :=
  mk_retained_topic_map (map_ m) x (next_node_id m) (root m).
Definition set_next_node_id (x : Z) (m : retained_topic_map) : retained_topic_map :=
  mk_retained_topic_map (map_ m) (map_size m) x (root m).

Abbreviation program := (action retained_topic_map).

(** [direct_index.find] *)
Definition direct_find (k : entry_key) (c : mi path_entry_set) : option path_entry :=
  snd <$> list_find (fun e => key_of_entry e = k) (mi_range direct_index c).

(** [*it] *)
Definition at_iterator (it : entry_key) : program path_entry := m ← get; deref (direct_find it (map_ m)).
(** [direct_index.modify(it, f)]; an exception of [f] leaves the element *)
Definition modify_entry (f : path_entry -> path_entry) (it : entry_key) : program unit :=
  e ← at_iterator it; m ← get; modify (fun m => set_map (mi_modify e (f e) (map_ m)) m).

Definition increase_count (it : entry_key) : program unit :=
  e ← at_iterator it;
  if count e =? size_max then throw max_stored_topics
  else modify_entry (fun e => mk_path_entry (value e) (parent_id e) (name e) (id e) (count e + 1)) it.
(** the assertion compares the counter with itself *)
Definition decrease_count (it : entry_key) : program unit :=
  e ← at_iterator it;
  assert (count e <=? count e);;
  modify_entry (fun e => mk_path_entry (value e) (parent_id e) (name e) (id e) ((count e - 1) mod 2 ^ 64)) it.
Definition set_value (v : option Value) : entry_key -> program unit :=
  modify_entry (fun e => mk_path_entry v (parent_id e) (name e) (id e) (count e)).

(** [map.insert(e).first]: the element that is there with the key of [e] *)
Definition insert_entry (e : path_entry) : program entry_key :=
  modify (fun m => set_map (fst (mi_emplace e (map_ m))) m);; mret (key_of_entry e).

(** [map.erase(it)] *)
Definition erase_entry (it : entry_key) : program unit :=
  e ← at_iterator it; modify (fun m => set_map (mi_erase e (map_ m)) m).

(** the node of the level [t] below [parent], created or counted *)
Definition create_level (t : list byte) (parent : entry_key) : program entry_key :=
  if bool_decide (t = [plus]) || bool_decide (t = [hash]) then throw no_wildcards_allowed
  else
    p ← at_iterator parent;
    m ← get;
    match direct_find (id p, t) (map_ m) with
    | None =>
      modify (set_next_node_id ((next_node_id m + 1) mod 2 ^ 64));;
      entry ← insert_entry (make_path_entry (id p) t (next_node_id m));
      m ← get;
      if next_node_id m =? max_node_id then throw max_stored_topics else mret entry
    | Some e => increase_count (key_of_entry e);; mret (key_of_entry e)
    end.

Definition create_topic (topic : list byte) : program entry_key :=
  m ← get;
  r ← topic_filter_tokenizer topic (fun t parent => entry ← create_level t parent; mret (entry, true)) (root m);
  mret (fst r).

Definition find_topic (topic : list byte) : program (list entry_key) :=
  m ← get;
  r ← topic_filter_tokenizer topic
    (fun t '(parent, path) =>
      p ← at_iterator parent;
      m ← get;
      match direct_find (id p, t) (map_ m) with
      | None => mret ((parent, []), false)
      | Some e => mret ((key_of_entry e, path ++ [key_of_entry e]), true)
      end)
    (root m, []);
  mret (snd (fst r)).

(** ** Finding *)

(** [wildcard_index.lower_bound(parent)], and from there while the parent is
    the same *)
Fixpoint lower_bound (parent : Z) (l : list path_entry) : list path_entry :=
  match l with
  | [] => []
  | e :: l' => if parent_id e <? parent then lower_bound parent l' else l
  end.
Fixpoint while (f : path_entry -> bool) (l : list path_entry) : list path_entry :=
  match l with
  | [] => []
  | e :: l => if f e then e :: while f l else []
  end.
Definition children (parent : Z) (c : mi path_entry_set) : list path_entry :=
  while (fun e => parent_id e =? parent) (lower_bound parent (mi_range wildcard_index c)).

(** a name that wildcards at the root match *)
Definition no_system (e : path_entry) : bool := bool_decide (name e = []) || negb (is_dollar (name e)).

(** one round: the values of the children, and the next nodes *)
Definition hash_round (ignore_system : bool) (c : mi path_entry_set) (entries : list Z) : list path_entry :=
  entries ≫= (fun root => List.filter (fun e => negb ignore_system || no_system e) (children root c)).

(** rounds until there are no more entries; each round is one level deeper *)
Fixpoint match_hash_loop (fuel : nat) (entries : list Z) (ignore_system : bool) (l : list Value) : program (list Value) :=
  match entries, fuel with
  | [], _ => mret l
  | _, O => undefined
  | _, S fuel =>
    m ← get;
    let found := hash_round ignore_system (map_ m) entries in
    match_hash_loop fuel (map id found) false (l ++ omap value found)
  end.

Definition match_hash_entries (parent : Z) (ignore_system : bool) (l : list Value) : program (list Value) :=
  m ← get;
  match_hash_loop (S (length (mi_range direct_index (map_ m)))) [parent] ignore_system l.

(** the loop over the entries, left by [return false] ([None]) at "#" *)
Fixpoint match_entries (t : list byte) (entries new_entries : list entry_key) (l : list Value) :
    program (option (list entry_key) * list Value) :=
  match entries with
  | [] => mret (Some new_entries, l)
  | entry :: entries =>
    e ← at_iterator entry;
    m ← get;
    let parent := id e in
    if bool_decide (t = [plus]) then
      let found := while (fun i => negb (parent =? root_node_id) || no_system i) (children parent (map_ m)) in
      match_entries t entries (new_entries ++ map key_of_entry found) l
    else if bool_decide (t = [hash]) then
      l ← match_hash_entries parent (parent =? root_node_id) l;
      mret (None, l)
    else
      match_entries t entries
        (new_entries ++ match direct_find (parent, t) (map_ m) with Some i => [key_of_entry i] | None => [] end) l
  end.

(** the callback with the value of an entry, if it has one *)
Definition call_value (entry : entry_key) (l : list Value) : program (list Value) :=
  e ← at_iterator entry;
  mret (l ++ match value e with Some v => [v] | None => [] end).

(** the values the callback is called with *)
Definition find_match (topic_filter : list byte) : program (list Value) :=
  m ← get;
  r ← topic_filter_tokenizer topic_filter
    (fun t '(entries, l) =>
      '(new_entries, l) ← match_entries t entries [] l;
      match new_entries with
      | None => mret ((entries, l), false)
      | Some entries => mret ((entries, l), negb (bool_decide (entries = [])))
      end)
    ([root m], []);
  let '(entries, l) := fst r in
  for_each call_value entries l.

(** ** Changing *)

Definition erase_level (entry : entry_key) (_ : unit) : program unit :=
  decrease_count entry;;
  e ← at_iterator entry;
  if count e =? 0 then erase_entry entry else mret tt.

Definition erase_topic (topic : list byte) : program Z :=
  path ← find_topic topic;
  match last path with
  | None => mret 0
  | Some back =>
    e ← at_iterator back;
    match value e with
    | None => mret 0
    | Some _ => set_value None back;; for_each erase_level path tt;; mret 1
    end
  end.

Definition increase_topics (path : list entry_key) : program unit :=
  for_each (fun i _ => increase_count i) path tt.

Definition increase_map_size : program unit :=
  m ← get;
  if map_size m =? size_max then throw max_stored_topics else modify (set_map_size (map_size m + 1)).

Definition decrease_map_size (count : Z) : program unit :=
  m ← get; assert (count <=? map_size m);; modify (set_map_size (map_size m - count)).

Definition init_map : program unit :=
  modify (set_map_size 0);;
  root ← insert_entry (make_path_entry root_parent_id [] root_node_id);
  modify (fun m => mk_retained_topic_map (map_ m) (map_size m) (root_node_id + 1) root).

(** the members before the constructor's body have no values yet *)
Definition make_retained_topic_map : outcome retained_topic_map unit :=
  init_map (mk_retained_topic_map mi_empty 0 0 (0, [])).

Definition insert_or_assign (topic : list byte) (v : Value) : program Z :=
  path ← find_topic topic;
  match last path with
  | None =>
    new_topic ← create_topic topic;
    set_value (Some v) new_topic;;
    increase_map_size;;
    mret 1
  | Some back =>
    e ← at_iterator back;
    match value e with
    | None => increase_topics path;; set_value (Some v) back;; increase_map_size;; mret 1
    | Some _ => set_value (Some v) back;; mret 0
    end
  end.

Definition find (topic_filter : list byte) : program (list Value) := find_match topic_filter.

Definition erase (topic : list byte) : program Z :=
  result ← erase_topic topic; decrease_map_size result;; mret result.

Definition internal_size (m : retained_topic_map) : Z := Z.of_nat (length (mi_range direct_index (map_ m))).

Definition clear : program unit := modify (set_map mi_empty);; init_map.
End map.
Arguments path_entry : clear implicits.
Arguments retained_topic_map {BMI} Value.
