(* ===== verification/RetainedTree.v ===== *)
(** * The nodes of the retained topic map as a tree

    The multi index container is a finite map from keys to entries, and the
    entries are the nodes of a tree; the operations of RetainedTopicMap.v on
    single nodes are operations on the tree. *)
From S2P Require Import Prelude Boost Action TopicFilter SubscriptionTree RetainedTopicMap.

Section tree.
Context {BMI : BoostMultiIndex} {BMIok : BoostMultiIndexOk} {Value : Type} {Heq : EqDecision Value}.
Abbreviation key := (Z * list byte)%type.
Abbreviation entries := (gmap key (path_entry Value)).
Abbreviation node := (SubscriptionTree.node (gmap unit Value)).
Abbreviation tree := (gmap path node).
Implicit Types (c : mi (path_entry_set (Value := Value))) (E : entries) (m : retained_topic_map Value) (T : tree) (p q : path)
  (k : key) (e : path_entry Value) (n : node).

(** ** The elements of one parent *)

Lemma while_sublist f (l : list (path_entry Value)) : while f l `sublist_of` l.
Proof. induction l as [|e l IH]; simpl; [constructor|]. destruct (f e); [by constructor | apply sublist_nil_l]. Qed.

Lemma lower_bound_sublist parent (l : list (path_entry Value)) : lower_bound parent l `sublist_of` l.
Proof. induction l as [|e l IH]; simpl; [done|]. destruct (parent_id e <? parent); [by apply sublist_cons | done]. Qed.

Lemma elem_of_sorted_range parent e (l : list (path_entry Value)) :
  StronglySorted (fun a b => parent_id a <= parent_id b) l ->
  e ∈ while (fun e => parent_id e =? parent) (lower_bound parent l) <-> e ∈ l /\ parent_id e = parent.
Proof.
  intros Hs. induction Hs as [|x l Hs IH Hx]; [simpl; rewrite elem_of_nil; tauto|]. rewrite Forall_forall in Hx. simpl.
  destruct (Z.ltb_spec (parent_id x) parent) as [Hlt|Hge].
  { rewrite IH, elem_of_cons. split; [intuition|]. intros [[->|?] ?]; [lia | done]. }
  assert (Hsame : lower_bound parent l = l).
  { destruct l as [|y l]; [done|]. simpl. specialize (Hx y ltac:(by left)). by rewrite (proj2 (Z.ltb_ge _ _)) by lia. }
  rewrite Hsame in IH. simpl. destruct (Z.eqb_spec (parent_id x) parent) as [Hxp|Hxp].
  - rewrite !elem_of_cons, IH. split; [intros [->|[? ?]]; auto | intros [[->|?] ?]; auto].
  - rewrite elem_of_nil, elem_of_cons. split; [done|]. intros [[->|Hin] He]; [done|]. specialize (Hx e Hin). lia.
Qed.

(** ** The container *)

Record contains c E : Prop := {
  co_ok : mi_ok c;
  co_range : mi_range direct_index c ≡ₚ (map_to_list E).*2;
  co_key k e : E !! k = Some e -> key_of_entry e = k;
}.

Section container.
Context {c : mi (path_entry_set (Value := Value))} {E : entries} (Hc : contains c E).

Lemma range_iff e : e ∈ mi_range direct_index c <-> E !! key_of_entry e = Some e.
Proof.
  rewrite (co_range _ _ Hc), list_elem_of_fmap. split.
  - intros ([k e'] & -> & He%elem_of_map_to_list). simpl. by rewrite (co_key _ _ Hc _ _ He).
  - intros He. exists (key_of_entry e, e). split; [done|]. by apply elem_of_map_to_list.
Qed.

Lemma NoDup_range : NoDup (mi_range direct_index c).
Proof.
  apply (NoDup_map_NoDup key_of_entry). rewrite (co_range _ _ Hc). rewrite map_map.
  rewrite (map_ext_in _ fst); [apply NoDup_fst_map_to_list|]. intros [k e] Hin%list_elem_of_In%elem_of_map_to_list.
  by apply (co_key _ _ Hc).
Qed.

Lemma direct_find_entry k : direct_find k c = E !! k.
Proof.
  unfold direct_find. destruct (list_find _ _) as [[i e]|] eqn:Hf; simpl.
  - apply list_find_Some in Hf as (Hi & <- & _). symmetry. apply range_iff. by eapply list_elem_of_lookup_2.
  - apply list_find_None in Hf. destruct (E !! k) as [e|] eqn:He; [|done].
    rewrite Forall_forall in Hf. pose proof (co_key _ _ Hc _ _ He) as Hk. exfalso. apply (Hf e); [|done].
    apply range_iff. by rewrite Hk.
Qed.

Lemma conflicts_entry (x y : path_entry Value) : conflicts path_entry_set x y = bool_decide (key_of_entry x = key_of_entry y).
Proof. unfold conflicts, path_entry_set. simpl. by rewrite orb_false_r. Qed.

Lemma range_no_conflict e y : E !! key_of_entry e = None -> y ∈ mi_range direct_index c -> conflicts path_entry_set e y = false.
Proof. intros Hn Hy%range_iff. rewrite conflicts_entry. apply bool_decide_eq_false. congruence. Qed.

Lemma contains_insert e : E !! key_of_entry e = None -> contains (fst (mi_emplace e c)) (<[key_of_entry e := e]> E).
Proof.
  intros Hn. destruct (mi_emplace_done c e (co_ok _ _ Hc)) as (_ & Hok & _ & _ & Hp).
  { intros y. by apply range_no_conflict. }
  split; [done|..].
  - rewrite Hp by done. rewrite (co_range _ _ Hc). by rewrite map_to_list_insert.
  - intros k e'. rewrite lookup_insert_Some. intros [[<- <-]|[_ He]]; [done | by apply (co_key _ _ Hc)].
Qed.

Lemma range_split k e :
  E !! k = Some e -> exists l1 l2, mi_range direct_index c = l1 ++ e :: l2 /\ l1 ++ l2 ≡ₚ (map_to_list (delete k E)).*2.
Proof.
  intros He. assert (Hin : e ∈ mi_range direct_index c) by (apply range_iff; by rewrite (co_key _ _ Hc _ _ He)).
  apply list_elem_of_split in Hin as (l1 & l2 & Hl). exists l1, l2. split; [done|].
  apply (Permutation_cons_inv (a := e)). rewrite Permutation_middle, <- Hl, (co_range _ _ Hc).
  rewrite <- (insert_delete_id E k e He) at 1. by rewrite map_to_list_insert by apply lookup_delete_eq.
Qed.

Lemma contains_delete k e : E !! k = Some e -> contains (mi_erase e c) (delete k E).
Proof.
  intros He. destruct (range_split k e He) as (l1 & l2 & Hl & Hp).
  destruct (mi_erase_spec c e (co_ok _ _ Hc)) as (Hok & _ & Hr); [rewrite Hl; set_solver | apply NoDup_range | done|].
  split; [done|..].
  - by rewrite (Hr l1 l2 Hl).
  - intros k' e'. rewrite lookup_delete_Some. intros [_ He']. by apply (co_key _ _ Hc).
Qed.

Lemma contains_modify k e e' : E !! k = Some e -> key_of_entry e' = k -> contains (mi_modify e e' c) (<[k := e']> E).
Proof.
  intros He Hk. destruct (range_split k e He) as (l1 & l2 & Hl & Hp).
  destruct (mi_modify_done c e e' l1 l2 (co_ok _ _ Hc) NoDup_range Hl) as (Hok & _ & _ & Hr).
  { intros z Hz. rewrite Hp in Hz. apply list_elem_of_fmap in Hz as ([k' e''] & -> & Hz%elem_of_map_to_list). cbn [snd].
    rewrite conflicts_entry. apply bool_decide_eq_false. apply lookup_delete_Some in Hz as [Hne Hz].
    rewrite Hk, (co_key _ _ Hc _ _ Hz). done. }
  split; [done|..].
  - rewrite Hr by done. rewrite Hp, <- (insert_delete_eq E k e'). by rewrite map_to_list_insert by apply lookup_delete_eq.
  - intros k' e''. rewrite lookup_insert_Some. intros [[<- <-]|[_ He']]; [done | by apply (co_key _ _ Hc)].
Qed.

(** the children of a node are next to each other in the ordered index *)
Lemma wildcard_sorted : StronglySorted (fun a b => parent_id a <= parent_id b) (mi_range wildcard_index c).
Proof.
  assert (Hs : StronglySorted (fun a b => (parent_id b <? parent_id a) = false) (mi_range wildcard_index c)).
  { apply (mi_range_sorted c wildcard_index (ordered_non_unique (fun a b => parent_id a <? parent_id b)) (fun a b => parent_id a <? parent_id b));
      [apply (co_ok _ _ Hc) | done | done | |].
    - intros a b d. rewrite !Z.ltb_ge. lia.
    - intros a b. rewrite Z.ltb_lt, Z.ltb_ge. lia. }
  induction Hs as [|x l Hs IH Hx]; constructor; [done|]. eapply Forall_impl; [exact Hx|]. intros y. by rewrite Z.ltb_ge.
Qed.

Lemma wildcard_perm : mi_range wildcard_index c ≡ₚ mi_range direct_index c.
Proof. apply mi_range_perm; [apply (co_ok _ _ Hc) | simpl; lia..]. Qed.

Lemma elem_of_children parent e : e ∈ children parent c <-> E !! key_of_entry e = Some e /\ parent_id e = parent.
Proof. rewrite <- range_iff, <- wildcard_perm. apply elem_of_sorted_range, wildcard_sorted. Qed.

Lemma NoDup_children parent : NoDup (children parent c).
Proof.
  apply (sublist_NoDup _ (mi_range wildcard_index c)).
  - rewrite wildcard_perm. apply NoDup_range.
  - etransitivity; [apply while_sublist | apply lower_bound_sublist].
Qed.
End container.

(** ** The tree *)

Definition key_at T p : key :=
  match p with [] => (0, []) | t :: q => (match T !! q with Some n => nid n | None => 0 end, t) end.

Definition entry_at T p n : path_entry Value :=
  mk_path_entry (nvalue n !! tt) (fst (key_at T p)) (snd (key_at T p)) (nid n) (ncount n).

Record linked (next : Z) T : Prop := {
  li_root : exists n, T !! [] = Some n /\ nid n = 1;
  li_range p n : T !! p = Some n -> 1 <= nid n < next;
  li_inj p q n n' : T !! p = Some n -> T !! q = Some n' -> nid n = nid n' -> p = q;
  li_closed t q : is_Some (T !! (t :: q)) -> is_Some (T !! q);
  li_count p n : T !! p = Some n -> 0 <= ncount n <= size_max;
}.

Record keyed E T : Prop := {
  ke_node p n : T !! p = Some n -> E !! key_at T p = Some (entry_at T p n);
  ke_entry k e : E !! k = Some e -> exists p, is_Some (T !! p) /\ k = key_at T p;
}.

Record shape_with E m T : Prop := {
  sh_contains : contains (map_ m) E;
  sh_keyed : keyed E T;
  sh_linked : linked (next_node_id m) T;
  sh_root : root m = (0, []);
}.

Definition shape m T : Prop := exists E, shape_with E m T.

Lemma key_at_child T t q n : T !! q = Some n -> key_at T (t :: q) = (nid n, t).
Proof. simpl. by intros ->. Qed.

Lemma key_at_inj next T p q : linked next T -> is_Some (T !! p) -> is_Some (T !! q) -> key_at T p = key_at T q -> p = q.
Proof.
  intros Hl Hp Hq. destruct p as [|t p], q as [|u q]; simpl; [done|..].
  - apply (li_closed _ _ Hl) in Hq as [n Hn]. rewrite Hn. pose proof (li_range _ _ Hl _ _ Hn). intros [= ? _]. lia.
  - apply (li_closed _ _ Hl) in Hp as [n Hn]. rewrite Hn. pose proof (li_range _ _ Hl _ _ Hn). intros [= ? _]. lia.
  - apply (li_closed _ _ Hl) in Hp as [n Hn]. apply (li_closed _ _ Hl) in Hq as [n' Hn']. rewrite Hn, Hn'.
    intros [= Hi ->]. f_equal. by apply (li_inj _ _ Hl _ _ n n').
Qed.

Lemma key_at_ext T T' p : nid <$> T' !! tail p = nid <$> T !! tail p -> key_at T' p = key_at T p.
Proof. destruct p as [|t q]; simpl; [done|]. destruct (T !! q), (T' !! q); intros; simplify_eq/=; congruence. Qed.

Lemma entry_at_ext T T' p n : nid <$> T' !! tail p = nid <$> T !! tail p -> entry_at T' p n = entry_at T p n.
Proof. intros H. unfold entry_at. by rewrite (key_at_ext T T' p H). Qed.

Lemma entry_at_key T p n : key_of_entry (entry_at T p n) = key_at T p.
Proof. unfold key_of_entry. simpl. by destruct (key_at T p). Qed.

Section lookup.
Context {E : entries} {m : retained_topic_map Value} {T : tree} (Hs : shape_with E m T).

Lemma find_node p n : T !! p = Some n -> direct_find (key_at T p) (map_ m) = Some (entry_at T p n).
Proof. intros Hp. rewrite (direct_find_entry (sh_contains _ _ _ Hs)). by apply (ke_node _ _ (sh_keyed _ _ _ Hs)). Qed.

Lemma find_child t q n : T !! q = Some n -> direct_find (nid n, t) (map_ m) = entry_at T (t :: q) <$> T !! (t :: q).
Proof.
  intros Hq. rewrite <- (key_at_child T t q n Hq). destruct (T !! (t :: q)) as [n'|] eqn:Ht; [by apply find_node|].
  rewrite (direct_find_entry (sh_contains _ _ _ Hs)). destruct (E !! key_at T (t :: q)) as [e|] eqn:He; [|done].
  apply (ke_entry _ _ (sh_keyed _ _ _ Hs)) in He as (p & Hp & Hk). pose proof (sh_linked _ _ _ Hs) as Hl.
  rewrite (key_at_child T t q n Hq) in Hk. destruct p as [|u p]; simpl in Hk.
  - pose proof (li_range _ _ Hl _ _ Hq). injection Hk as Hk _. lia.
  - destruct (li_closed _ _ Hl u p Hp) as [np Hnp]. rewrite Hnp in Hk. injection Hk as Hid ->.
    rewrite (li_inj _ _ Hl _ _ _ _ Hq Hnp Hid) in Ht. rewrite Ht in Hp. by destruct Hp.
Qed.

Lemma retained_at_node p n : T !! p = Some n -> at_iterator (key_at T p) m = Return (entry_at T p n) m.
Proof. intros Hp. unfold at_iterator, get, mbind, action_bind. by rewrite (find_node _ _ Hp). Qed.

Lemma child_entries p n e :
  T !! p = Some n ->
  e ∈ children (nid n) (map_ m) <-> exists t n', T !! (t :: p) = Some n' /\ e = entry_at T (t :: p) n'.
Proof.
  intros Hp. pose proof (sh_contains _ _ _ Hs) as Hc. pose proof (sh_linked _ _ _ Hs) as Hl. rewrite (elem_of_children Hc). split.
  - intros [He Hpar]. destruct (ke_entry _ _ (sh_keyed _ _ _ Hs) _ _ He) as ([|t q] & [n' Hq] & Hk).
    + pose proof (li_range _ _ Hl _ _ Hp). injection Hk as ? _. lia.
    + destruct (li_closed _ _ Hl t q) as [nq Hnq]; [by eexists|]. rewrite (key_at_child T t q nq Hnq) in Hk.
      assert (q = p) as -> by (apply (li_inj _ _ Hl _ _ nq n Hnq Hp); injection Hk; congruence).
      exists t, n'. split; [done|]. rewrite Hk, <- (key_at_child T t p nq Hnq), (ke_node _ _ (sh_keyed _ _ _ Hs) _ _ Hq) in He. by simplify_eq.
  - intros (t & n' & Ht & ->). rewrite entry_at_key. split; [by apply (ke_node _ _ (sh_keyed _ _ _ Hs))|].
    unfold entry_at. by rewrite (key_at_child T t p n Hp).
Qed.
End lookup.

(** ** Changes of one node *)

Lemma same_ids T p n n' q : T !! p = Some n -> nid n' = nid n -> nid <$> <[p := n']> T !! q = nid <$> T !! q.
Proof.
  intros Hp Hid. destruct (decide (q = p)) as [->|Hq]; [by rewrite lookup_insert_eq, Hp; simpl; rewrite Hid | by rewrite lookup_insert_ne].
Qed.

Lemma linked_modify next T p n n' :
  linked next T -> T !! p = Some n -> nid n' = nid n -> 0 <= ncount n' <= size_max -> linked next (<[p := n']> T).
Proof.
  intros Hl Hp Hid Hc. assert (Hold : forall q n1, <[p := n']> T !! q = Some n1 -> exists n0, T !! q = Some n0 /\ nid n1 = nid n0).
  { intros q n1 Hq. pose proof (same_ids T p n n' q Hp Hid) as Hext. rewrite Hq in Hext. destruct (T !! q); simplify_eq/=. eauto. }
  assert (Hlive : forall q, is_Some (T !! q) -> is_Some (<[p := n']> T !! q)).
  { intros q Hq. rewrite lookup_insert_is_Some. destruct (decide (p = q)); auto. }
  split.
  - destruct (li_root _ _ Hl) as (nr & Hr & Hr1). destruct (Hlive [] ltac:(by eexists)) as [nr' Hr']. exists nr'. split; [done|].
    destruct (Hold _ _ Hr') as (n0 & Hn0 & ->). congruence.
  - intros q n1 Hq. destruct (Hold _ _ Hq) as (n0 & Hq0 & ->). by apply (li_range _ _ Hl q).
  - intros q r n1 n2 Hq Hr He. destruct (Hold _ _ Hq) as (n3 & Hq0 & H1), (Hold _ _ Hr) as (n4 & Hr0 & H2).
    apply (li_inj _ _ Hl _ _ n3 n4); congruence.
  - intros t q [n1 Ht]. destruct (Hold _ _ Ht) as (n0 & Ht0 & _). apply Hlive, (li_closed _ _ Hl t). by eexists.
  - intros q n1. rewrite lookup_insert_Some. intros [[<- <-]|[_ Hq]]; [done | by apply (li_count _ _ Hl q)].
Qed.

Lemma linked_insert next T t q n :
  linked next T -> is_Some (T !! q) -> T !! (t :: q) = None -> nid n = next -> 1 <= next -> 0 <= ncount n <= size_max ->
  linked (next + 1) (<[t :: q := n]> T).
Proof.
  intros Hl Hq Ht Hid Hnext Hc. split.
  - destruct (li_root _ _ Hl) as (nr & Hr & Hr1). exists nr. by rewrite lookup_insert_ne.
  - intros p x. rewrite lookup_insert_Some. intros [[<- <-]|[_ Hp]]; [lia|]. pose proof (li_range _ _ Hl _ _ Hp). lia.
  - intros p r x y. rewrite !lookup_insert_Some. intros [[<- <-]|[Hpne Hp]] [[<- <-]|[Hrne Hr]] He; [done|..].
    + pose proof (li_range _ _ Hl _ _ Hr). lia.
    + pose proof (li_range _ _ Hl _ _ Hp). lia.
    + by apply (li_inj _ _ Hl _ _ x y).
  - intros u p. rewrite !lookup_insert_is_Some. intros [[= <- <-]|[_ Hu]].
    + right. split; [intros H; by apply (tail_not_self t q)|done].
    + apply (li_closed _ _ Hl) in Hu. destruct (decide (t :: q = p)); auto.
  - intros p x. rewrite lookup_insert_Some. intros [[<- <-]|[_ Hp]]; [done | by apply (li_count _ _ Hl p)].
Qed.

Lemma linked_delete next T t q :
  linked next T -> (forall u, T !! (u :: t :: q) = None) -> linked next (delete (t :: q) T).
Proof.
  intros Hl Hno. split.
  - destruct (li_root _ _ Hl) as (nr & Hr & Hr1). exists nr. by rewrite lookup_delete_ne.
  - intros p x [_ Hp]%lookup_delete_Some. by apply (li_range _ _ Hl p).
  - intros p r x y [_ Hp]%lookup_delete_Some [_ Hr]%lookup_delete_Some. by apply (li_inj _ _ Hl).
  - intros u p. rewrite !lookup_delete_is_Some. intros [_ Hu]. split; [|by apply (li_closed _ _ Hl u)].
    intros <-. rewrite Hno in Hu. by destruct Hu.
  - intros p x [_ Hp]%lookup_delete_Some. by apply (li_count _ _ Hl p).
Qed.

Lemma keyed_modify next E T p n n' :
  linked next T -> keyed E T -> T !! p = Some n -> nid n' = nid n ->
  keyed (<[key_at T p := entry_at T p n']> E) (<[p := n']> T).
Proof.
  intros Hl [Hn He] Hp Hid.
  assert (Hkey : forall q, key_at (<[p := n']> T) q = key_at T q) by (intros q; by apply key_at_ext, same_ids with n).
  assert (Hentry : forall q x, entry_at (<[p := n']> T) q x = entry_at T q x) by (intros q x; by apply entry_at_ext, same_ids with n).
  split.
  - intros q x Hq. rewrite Hkey, Hentry. apply lookup_insert_Some in Hq as [[<- <-]|[Hne Hq]].
    + by rewrite lookup_insert_eq.
    + rewrite lookup_insert_ne; [by apply Hn|]. intros Hk. apply Hne. by eapply (key_at_inj _ _ _ _ Hl); [eexists..|].
  - intros k e. rewrite lookup_insert_Some. intros [[<- _]|[_ Hk]].
    + exists p. rewrite lookup_insert_eq, Hkey. by split; [eexists|].
    + destruct (He k e Hk) as (q & Hq & ->). exists q. rewrite Hkey. split; [|done].
      rewrite lookup_insert_is_Some. destruct (decide (p = q)); auto.
Qed.

Lemma keyed_insert next E T t q n :
  linked next T -> keyed E T -> is_Some (T !! q) -> T !! (t :: q) = None ->
  keyed (<[key_at T (t :: q) := entry_at T (t :: q) n]> E) (<[t :: q := n]> T).
Proof.
  intros Hl [Hn He] [nq Hq] Ht. set (T' := <[t :: q := n]> T). assert (Htail : forall p, is_Some (T !! p) -> tail p <> t :: q).
  { intros [|u p] Hp; [done|]. simpl. intros ->. apply (li_closed _ _ Hl) in Hp as [? ?]. congruence. }
  assert (Hid : forall p, tail p <> t :: q -> nid <$> T' !! tail p = nid <$> T !! tail p) by (intros; unfold T'; by rewrite lookup_insert_ne).
  assert (Hself : tail (t :: q) <> t :: q) by (simpl; intros H; by apply (tail_not_self t q)).
  assert (Hkey : forall p, tail p <> t :: q -> key_at T' p = key_at T p) by (intros; by apply key_at_ext, Hid).
  assert (Hentry : forall p x, tail p <> t :: q -> entry_at T' p x = entry_at T p x) by (intros; by apply entry_at_ext, Hid).
  split.
  - intros p x Hp. apply lookup_insert_Some in Hp as [[<- <-]|[Hne Hp]].
    + by rewrite Hkey, Hentry, lookup_insert_eq.
    + assert (Hlive : is_Some (T !! p)) by by eexists. rewrite Hkey, Hentry by by apply Htail.
      rewrite lookup_insert_ne; [by apply Hn|]. intros Hk. rewrite (key_at_child T t q nq Hq) in Hk. destruct p as [|u p]; simpl in Hk.
      * pose proof (li_range _ _ Hl _ _ Hq). injection Hk as Hk _. lia.
      * destruct (li_closed _ _ Hl u p Hlive) as [np Hnp]. rewrite Hnp in Hk. injection Hk as Hi ->.
        by rewrite (li_inj _ _ Hl _ _ _ _ Hq Hnp Hi) in Hne.
  - intros k e. rewrite lookup_insert_Some. intros [[<- _]|[_ Hk]].
    + exists (t :: q). unfold T' at 1. rewrite lookup_insert_eq, Hkey by done. by split; [eexists|].
    + destruct (He k e Hk) as (p & Hp & ->). exists p. rewrite Hkey by by apply Htail. split; [|done].
      unfold T'. rewrite lookup_insert_is_Some. destruct (decide (t :: q = p)); auto.
Qed.

(** ** Programs on nodes *)

Lemma modify_entry_run E m k e f :
  contains (map_ m) E -> E !! k = Some e -> key_of_entry (f e) = k ->
  exists c, modify_entry f k m = Return tt (set_map c m) /\ contains c (<[k := f e]> E).
Proof.
  intros Hc He Hk. eexists. split.
  - unfold modify_entry, at_iterator, get, mbind, action_bind. rewrite (direct_find_entry Hc), He. reflexivity.
  - by apply contains_modify.
Qed.

Lemma modify_node m T p n n' f :
  shape m T -> T !! p = Some n -> nid n' = nid n -> 0 <= ncount n' <= size_max ->
  f (entry_at T p n) = entry_at T p n' ->
  exists m', modify_entry f (key_at T p) m = Return tt m' /\ shape m' (<[p := n']> T) /\
    map_size m' = map_size m /\ next_node_id m' = next_node_id m.
Proof.
  intros [E [Hc Hk Hl Hr]] Hp Hid Hcount Hf.
  destruct (modify_entry_run E m (key_at T p) (entry_at T p n) f Hc) as (c & Hrun & Hc').
  { by apply (ke_node _ _ Hk). }
  { rewrite Hf. apply entry_at_key. }
  rewrite Hf in Hc'. exists (set_map c m). split; [done|]. split; [|done]. eexists. split; [done| | |done].
  - by eapply keyed_modify.
  - by eapply linked_modify.
Qed.

Lemma retained_increase_run m T p n :
  shape m T -> T !! p = Some n -> ncount n < size_max ->
  exists m', increase_count (key_at T p) m = Return tt m' /\ shape m' (<[p := set_ncount Z.succ n]> T) /\
    map_size m' = map_size m /\ next_node_id m' = next_node_id m.
Proof.
  intros Hs Hp Hlt. pose proof Hs as [E HE]. pose proof (li_count _ _ (sh_linked _ _ _ HE) _ _ Hp) as Hcount.
  destruct (modify_node m T p n (set_ncount Z.succ n) (fun e => mk_path_entry (value e) (parent_id e) (name e) (id e) (count e + 1)) Hs Hp)
    as (m' & Hrun & Hrest); [done | simpl; lia | done|].
  exists m'. split; [|done]. unfold increase_count. etransitivity; [exact (bind_return _ _ _ _ _ (retained_at_node HE _ _ Hp))|].
  cbn [count entry_at]. by rewrite (proj2 (Z.eqb_neq _ _)) by lia.
Qed.

Lemma set_value_run m T p n (v : option Value) g :
  shape m T -> T !! p = Some n -> g (nvalue n) !! tt = v ->
  exists m', set_value v (key_at T p) m = Return tt m' /\ shape m' (<[p := set_nvalue g n]> T) /\
    map_size m' = map_size m /\ next_node_id m' = next_node_id m.
Proof.
  intros Hs Hp Hv. pose proof Hs as [E HE]. apply (modify_node m T p n); [done | done | done | exact (li_count _ _ (sh_linked _ _ _ HE) _ _ Hp) |].
  unfold entry_at. simpl. by rewrite Hv.
Qed.

Lemma retained_find_levels m T :
  shape m T -> forall ts q acc (cnt : Z), is_Some (T !! q) -> ts <> [] ->
  exists x cnt', each_level (fun t '(parent, path) =>
      p ← at_iterator parent;
      m ← get;
      match direct_find (id p, t) (map_ m) with
      | None => mret ((parent, []), false)
      | Some e => mret ((key_of_entry e, path ++ [key_of_entry e]), true)
      end) ts cnt (key_at T q, acc) m =
    Return ((x, if decide (is_Some (T !! (rev ts ++ q))) then acc ++ map (key_at T) (paths q ts) else []), cnt') m.
Proof.
  intros [E HE]. induction ts as [|t ts IH]; intros q acc cnt [n Hq] Hts; [done|]. cbn [each_level].
  unfold mbind at 1, action_bind at 1, mbind at 1, action_bind at 1. rewrite (retained_at_node HE _ _ Hq).
  unfold mbind at 1, action_bind at 1, get at 1. cbn [id entry_at]. rewrite (find_child HE _ _ _ Hq), <- each_level_app_rev.
  destruct (T !! (t :: q)) as [nt|] eqn:Ht; cbn [fmap option_fmap option_map].
  - rewrite entry_at_key. destruct ts as [|t' ts].
    + exists (key_at T (t :: q)), cnt. by rewrite decide_True by (simpl; rewrite Ht; by eexists).
    + destruct (IH (t :: q) (acc ++ [key_at T (t :: q)]) (cnt + 1)) as (x & cnt' & Hrun); [by rewrite Ht | done|]. exists x, cnt'.
      etransitivity; [exact Hrun|]. do 3 f_equal. destruct (decide _); [|done]. rewrite <- app_assoc. done.
  - assert (~ is_Some (T !! (rev ts ++ t :: q))) as Hno.
    { enough (forall r, is_Some (T !! (r ++ t :: q)) -> is_Some (T !! (t :: q))) as Ha by (intros H%Ha; rewrite Ht in H; by destruct H).
      induction r as [|u r IHr]; simpl; [done|]. intros H%(li_closed _ _ (sh_linked _ _ _ HE)). auto. }
    rewrite decide_False by done. exists (key_at T q), cnt. by destruct ts.
Qed.

Lemma find_topic_run m T f :
  shape m T ->
  find_topic f m = Return (if decide (is_Some (T !! path_of f)) then map (key_at T) (paths [] (levels f)) else []) m.
Proof.
  intros Hs. pose proof Hs as [E HE]. destruct (li_root _ _ (sh_linked _ _ _ HE)) as (n & Hn & _).
  destruct (retained_find_levels m T Hs (levels f) [] [] 1 ltac:(by eexists) (levels_nonempty f)) as (x & c & Hrun).
  unfold find_topic. etransitivity; [exact (bind_return _ _ _ m m eq_refl)|]. rewrite (sh_root _ _ _ HE).
  etransitivity; [apply bind_return; rewrite topic_filter_tokenizer_levels; exact Hrun|]. unfold path_of. by rewrite app_nil_r.
Qed.

(** ** Counting and creating the nodes of a topic *)

Lemma counted_key_at T T' ps p : counted T T' ps -> is_Some (T !! tail p) -> key_at T' p = key_at T p.
Proof. intros Hc Hp. apply key_at_ext. by eapply counted_nid. Qed.

Lemma live_tail m T p : shape m T -> is_Some (T !! p) -> is_Some (T !! tail p).
Proof. intros [E HE] Hp. destruct p as [|t q]; [done|]. by apply (li_closed _ _ (sh_linked _ _ _ HE) t). Qed.

Lemma increase_topics_run : forall ps m T,
  shape m T -> NoDup ps -> (forall p, p ∈ ps -> exists n, T !! p = Some n /\ ncount n < size_max) ->
  exists m' T', increase_topics (map (key_at T) ps) m = Return tt m' /\
    shape m' T' /\ counted T T' ps /\ map_size m' = map_size m /\ next_node_id m' = next_node_id m.
Proof.
  unfold increase_topics. induction ps as [|p ps IH]; intros m T Hs Hnd Hps; simpl.
  - exists m, T. split; [done|]. split; [done|]. split; [apply counted_nil | done].
  - apply NoDup_cons in Hnd as [Hp Hnd]. destruct (Hps p) as (n & Hn & Hlt); [by left|].
    destruct (retained_increase_run m T p n Hs Hn Hlt) as (m1 & Hrun & Hs1 & Hm1 & Hx1). pose proof (counted_insert T p n Hn) as Hc1.
    destruct (IH m1 _ Hs1 Hnd) as (m2 & T2 & Hrun2 & Hs2 & Hc2 & Hm2 & Hx2).
    { intros q Hq. destruct (Hps q) as (nq & Hnq & Hltq); [by right|]. exists nq. split; [|done].
      rewrite lookup_insert_ne; [done|]. by intros ->. }
    exists m2, T2. split; [|split; [done|]; split; [by eapply counted_cons | split; congruence]].
    etransitivity; [exact (bind_return _ _ _ _ _ Hrun)|]. rewrite <- Hrun2. f_equal. apply map_ext_in.
    intros q Hq%list_elem_of_In. symmetry. apply (counted_key_at _ _ _ _ Hc1), (live_tail m); [done|].
    destruct (Hps q) as (nq & Hnq & _); [by right | by eexists].
Qed.

(** a level that is no wildcard *)
Definition plain_level (t : list byte) : Prop := t <> [plus] /\ t <> [hash].

Lemma retained_create_new m T t q :
  shape m T -> plain_level t -> is_Some (T !! q) -> T !! (t :: q) = None -> 1 <= next_node_id m -> next_node_id m + 1 < size_max ->
  exists m', create_level t (key_at T q) m = Return (key_at T (t :: q)) m' /\
    shape m' (<[t :: q := mk_node (next_node_id m) 1 ∅]> T) /\ map_size m' = map_size m /\ next_node_id m' = next_node_id m + 1.
Proof.
  intros [E HE] [Hplus Hhash] [nq Hq] Ht Hge Hlt. pose proof HE as [Hc Hk Hl Hr]. set (n' := mk_node (next_node_id m) 1 ∅).
  set (e := entry_at T (t :: q) n'). change size_max with (2 ^ 64 - 1) in Hlt.
  assert (Hmod : (next_node_id m + 1) mod 2 ^ 64 = next_node_id m + 1) by (apply Z.mod_small; lia).
  assert (He : e = make_path_entry (nid nq) t (next_node_id m)) by (unfold e, entry_at; by rewrite (key_at_child T t q nq Hq)).
  assert (Hnone : E !! key_of_entry e = None).
  { unfold e. rewrite entry_at_key. pose proof (find_child HE t q nq Hq) as Hf.
    by rewrite Ht, <- (key_at_child T t q nq Hq), (direct_find_entry Hc) in Hf. }
  exists (set_map (fst (mi_emplace e (map_ m))) (set_next_node_id (next_node_id m + 1) m)). split; [|split; [|done]].
  - unfold create_level. rewrite !bool_decide_eq_false_2 by done. cbn [orb].
    etransitivity; [exact (bind_return _ _ _ _ _ (retained_at_node HE _ _ Hq))|]. cbn [id entry_at].
    etransitivity; [exact (bind_return _ _ _ m m eq_refl)|]. rewrite (find_child HE _ _ _ Hq), Ht. cbn [fmap option_fmap option_map].
    rewrite Hmod, <- He. etransitivity; [exact (bind_return _ _ _ tt _ eq_refl)|].
    etransitivity; [eapply bind_return; reflexivity|]. etransitivity; [exact (bind_return _ _ _ _ _ eq_refl)|].
    cbn [next_node_id set_map set_next_node_id]. rewrite (proj2 (Z.eqb_neq _ _)) by (change max_node_id with (2 ^ 64 - 1); lia).
    unfold e. by rewrite entry_at_key.
  - exists (<[key_of_entry e := e]> E). pose proof (contains_insert Hc e Hnone) as Hc'. split; [done| | |done].
    + unfold e at 1. rewrite entry_at_key. eapply keyed_insert; [done..| by eexists | done].
    + eapply linked_insert; [done | by eexists | done | done | done | simpl; change size_max with (2 ^ 64 - 1); lia].
Qed.

Lemma retained_create_level_run m T t q :
  shape m T -> plain_level t -> is_Some (T !! q) -> 1 <= next_node_id m -> next_node_id m + 1 < size_max ->
  (forall n, T !! (t :: q) = Some n -> ncount n < size_max) ->
  exists m' T', create_level t (key_at T q) m = Return (key_at T (t :: q)) m' /\ shape m' T' /\ counted T T' [t :: q] /\
    map_size m' = map_size m /\ next_node_id m <= next_node_id m' <= next_node_id m + 1.
Proof.
  intros Hs Hp Hq Hge Hlt Hc. destruct (T !! (t :: q)) as [n|] eqn:Ht.
  - destruct (retained_increase_run m T (t :: q) n Hs Ht (Hc n eq_refl)) as (m' & Hrun & Hs' & Hm & Hx).
    exists m', (<[t :: q := set_ncount Z.succ n]> T). split; [|split; [done|]; split; [by apply counted_insert | split; [done | lia]]].
    destruct Hs as [E HE], Hq as [nq Hq], Hp as [Hplus Hhash]. unfold create_level. rewrite !bool_decide_eq_false_2 by done. cbn [orb].
    etransitivity; [exact (bind_return _ _ _ _ _ (retained_at_node HE _ _ Hq))|]. cbn [id entry_at].
    etransitivity; [exact (bind_return _ _ _ m m eq_refl)|]. rewrite (find_child HE _ _ _ Hq), Ht. cbn [fmap option_fmap option_map].
    rewrite entry_at_key. etransitivity; [exact (bind_return _ _ _ _ _ Hrun) | done].
  - destruct (retained_create_new m T t q Hs Hp Hq Ht Hge Hlt) as (m' & Hrun & Hs' & Hm & Hx).
    eexists m', _. split; [done|]. split; [done|]. split; [|split; [done | lia]]. split.
    + intros p Hne. rewrite lookup_insert_ne; [done|]. set_solver.
    + intros p ->%list_elem_of_singleton. rewrite lookup_insert_eq, Ht. eauto.
Qed.

Lemma retained_create_levels : forall ts m T q (cnt : Z),
  shape m T -> Forall plain_level ts -> is_Some (T !! q) -> ts <> [] -> 1 <= next_node_id m ->
  next_node_id m + Z.of_nat (length ts) < size_max ->
  (forall p n, p ∈ paths q ts -> T !! p = Some n -> ncount n < size_max) ->
  exists m' T' cnt', each_level (fun t parent => entry ← create_level t parent; mret (entry, true)) ts cnt (key_at T q) m =
    Return (key_at T' (rev ts ++ q), cnt') m' /\
    shape m' T' /\ counted T T' (paths q ts) /\ map_size m' = map_size m /\
    next_node_id m <= next_node_id m' <= next_node_id m + Z.of_nat (length ts).
Proof.
  induction ts as [|t ts IH]; intros m T q cnt Hs Hplain Hq Hts Hge Hroom Hc; [done|].
  apply Forall_cons in Hplain as [Hp Hplain]. cbn [length paths] in *.
  destruct (retained_create_level_run m T t q Hs Hp Hq Hge) as (m1 & T1 & Hrun & Hs1 & Hc1 & Hm1 & Hx1); [lia | intros n; apply Hc; by left |].
  destruct (proj2 Hc1 (t :: q)) as (n1 & Hn1 & _); [by left|].
  assert (Hkey : key_at T1 (t :: q) = key_at T (t :: q)) by by eapply counted_key_at.
  cbn [each_level]. unfold mbind at 1, action_bind at 1, mbind at 1, action_bind at 1. rewrite Hrun. cbn [mret action_ret].
  unfold mret, action_ret. rewrite <- each_level_app_rev. destruct ts as [|t' ts].
  - exists m1, T1, cnt. split; [cbn [rev app]; by rewrite Hkey|]. split; [done|]. split; [done|]. split; [done | simpl; lia].
  - destruct (IH m1 T1 (t :: q) (cnt + 1) Hs1 Hplain) as (m2 & T2 & cnt' & Hrun2 & Hs2 & Hc2 & Hm2 & Hx2); [by eexists | done | lia | lia | |].
    { intros p n Hin Hn. apply (Hc p n); [by right|]. rewrite <- (proj1 Hc1); [done|].
      intros ->%list_elem_of_singleton. by apply not_in_paths_self in Hin. }
    exists m2, T2, cnt'. rewrite <- Hkey. split; [exact Hrun2|]. split; [done|]. split; [|split; [congruence | lia]].
    eapply counted_cons; [done | done | apply not_in_paths_self].
Qed.

Lemma create_topic_run m T f :
  shape m T -> Forall plain_level (levels f) -> 1 <= next_node_id m -> next_node_id m + Z.of_nat (length (levels f)) < size_max ->
  (forall p n, p ∈ suffixes (path_of f) -> T !! p = Some n -> ncount n < size_max) ->
  exists m' T', create_topic f m = Return (key_at T' (path_of f)) m' /\
    shape m' T' /\ counted T T' (suffixes (path_of f)) /\ map_size m' = map_size m /\
    next_node_id m <= next_node_id m' <= next_node_id m + Z.of_nat (length (levels f)).
Proof.
  intros Hs Hplain Hge Hroom Hc. pose proof Hs as [E HE]. destruct (li_root _ _ (sh_linked _ _ _ HE)) as (n & Hn & _).
  destruct (retained_create_levels (levels f) m T [] 1 Hs Hplain ltac:(by eexists) (levels_nonempty f) Hge Hroom)
    as (m' & T' & cnt & Hrun & Hs' & Hc' & Hm & Hx).
  { intros p np Hp. apply Hc. by apply elem_of_paths. }
  exists m', T'. split; [|split; [done|]; split; [|done]].
  - unfold create_topic. etransitivity; [exact (bind_return _ _ _ _ m eq_refl)|]. rewrite (sh_root _ _ _ HE).
    etransitivity; [apply bind_return; rewrite topic_filter_tokenizer_levels; exact Hrun|]. unfold path_of. by rewrite app_nil_r.
  - destruct Hc' as [H1 H2]. split; intros p Hp; [apply H1 | apply H2]; by rewrite elem_of_paths.
Qed.

(** ** Erasing the nodes of a topic, from the first level on *)

Definition drop_entry E k : entries :=
  match E !! k with
  | Some e => if count e =? 1 then delete k E else <[k := mk_path_entry (value e) (parent_id e) (name e) (id e) (count e - 1)]> E
  | None => E
  end.

Lemma drop_entry_ne E k k' : k' <> k -> drop_entry E k !! k' = E !! k'.
Proof.
  intros Hk. unfold drop_entry. destruct (E !! k) as [e|]; [|done].
  destruct (count e =? 1); [by rewrite lookup_delete_ne | by rewrite lookup_insert_ne].
Qed.

Lemma drop_entry_eq E E' k : E' !! k = E !! k -> drop_entry E' k !! k = drop_entry E k !! k.
Proof.
  intros Hk. unfold drop_entry. rewrite Hk. destruct (E !! k) as [e|] eqn:He; [|congruence].
  destruct (count e =? 1); [by rewrite !lookup_delete_eq | by rewrite !lookup_insert_eq].
Qed.

Lemma drop_entries_lookup : forall ks E k,
  NoDup ks -> foldl drop_entry E ks !! k = if decide (k ∈ ks) then drop_entry E k !! k else E !! k.
Proof.
  induction ks as [|k0 ks IH]; intros E k Hnd; [done|]. apply NoDup_cons in Hnd as [Hk0 Hnd]. cbn [foldl]. rewrite IH by done.
  destruct (decide (k = k0)) as [->|Hne].
  - rewrite decide_False, decide_True by (done || by left). done.
  - destruct (decide (k ∈ ks)) as [Hin|Hin].
    + rewrite decide_True by by right. by apply drop_entry_eq, drop_entry_ne.
    + rewrite decide_False by (rewrite elem_of_cons; tauto). by apply drop_entry_ne.
Qed.

Lemma erase_level_run m E k e :
  contains (map_ m) E -> E !! k = Some e -> 0 < count e <= size_max ->
  exists c, erase_level k tt m = Return tt (set_map c m) /\ contains c (drop_entry E k).
Proof.
  intros Hc He Hcount. change size_max with (2 ^ 64 - 1) in Hcount.
  set (e' := mk_path_entry (value e) (parent_id e) (name e) (id e) (count e - 1)).
  assert (Hmod : (count e - 1) mod 2 ^ 64 = count e - 1) by (apply Z.mod_small; lia). pose proof (co_key _ _ Hc _ _ He) as Hk.
  destruct (modify_entry_run E m k e (fun e => mk_path_entry (value e) (parent_id e) (name e) (id e) ((count e - 1) mod 2 ^ 64)) Hc He)
    as (c1 & Hrun1 & Hc1); [done|]. rewrite Hmod in Hc1. fold e' in Hc1.
  assert (Hat : forall m0 E0 e0, contains (map_ m0) E0 -> E0 !! k = Some e0 -> at_iterator k m0 = Return e0 m0).
  { intros m0 E0 e0 Hc0 He0. unfold at_iterator, get, mbind, action_bind. by rewrite (direct_find_entry Hc0), He0. }
  assert (Hdec : decrease_count k m = Return tt (set_map c1 m)).
  { unfold decrease_count. etransitivity; [exact (bind_return _ _ _ _ _ (Hat _ _ _ Hc He))|].
    etransitivity; [eapply bind_return; unfold assert; by rewrite Z.leb_refl|]. exact Hrun1. }
  assert (He' : <[k := e']> E !! k = Some e') by apply lookup_insert_eq.
  unfold erase_level, drop_entry. rewrite He. destruct (Z.eqb_spec (count e) 1) as [Hone|Hone].
  - exists (mi_erase e' c1). split.
    + etransitivity; [exact (bind_return _ _ _ _ _ Hdec)|].
      etransitivity; [exact (bind_return _ _ _ _ _ (Hat (set_map c1 m) _ _ Hc1 He'))|]. cbn [count e']. rewrite Hone. change (1 - 1 =? 0) with true. cbv iota.
      unfold erase_entry. etransitivity; [exact (bind_return _ _ _ _ _ (Hat (set_map c1 m) _ _ Hc1 He'))|]. done.
    + pose proof (contains_delete Hc1 k e' He') as Hd. by rewrite delete_insert_eq in Hd.
  - exists c1. split; [|done]. etransitivity; [exact (bind_return _ _ _ _ _ Hdec)|].
    etransitivity; [exact (bind_return _ _ _ _ _ (Hat (set_map c1 m) _ _ Hc1 He'))|]. cbn [count e']. by rewrite (proj2 (Z.eqb_neq _ _)) by lia.
Qed.

Lemma erase_levels_run : forall ks m E,
  contains (map_ m) E -> NoDup ks -> (forall k, k ∈ ks -> exists e, E !! k = Some e /\ 0 < count e <= size_max) ->
  exists c, for_each erase_level ks tt m = Return tt (set_map c m) /\ contains c (foldl drop_entry E ks).
Proof.
  induction ks as [|k ks IH]; intros m E Hc Hnd Hks; [by exists (map_ m); destruct m|].
  apply NoDup_cons in Hnd as [Hk Hnd]. destruct (Hks k) as (e & He & Hcount); [by left|].
  destruct (erase_level_run m E k e Hc He Hcount) as (c1 & Hrun1 & Hc1).
  destruct (IH (set_map c1 m) _ Hc1 Hnd) as (c2 & Hrun2 & Hc2).
  { intros k' Hk'. destruct (Hks k') as (e' & He' & Hcount'); [by right|]. exists e'. rewrite drop_entry_ne; [done|]. by intros ->. }
  exists c2. split; [|done]. etransitivity; [exact (bind_return _ _ _ _ _ Hrun1)|]. exact Hrun2.
Qed.

Lemma dropped_eq T q :
  dropped T q !! q = match T !! q with Some n => if ncount n =? 1 then None else Some (set_ncount Z.pred n) | None => None end.
Proof.
  unfold dropped. destruct (T !! q) as [n|] eqn:Hn; [|done]. destruct (ncount n =? 1); [apply lookup_delete_eq | apply lookup_insert_eq].
Qed.

Lemma drop_all_lookup : forall p T q,
  drop_all T p !! q = if decide (q ∈ suffixes p) then dropped T q !! q else T !! q.
Proof.
  induction p as [|t r IH]; intros T q; [done|]. cbn [drop_all suffixes]. rewrite IH.
  destruct (decide (q = t :: r)) as [->|Hne].
  - rewrite decide_False by (intros H%suffixes_length; simpl in H; lia). by rewrite decide_True by by left.
  - assert (Hq : dropped T (t :: r) !! q = T !! q) by by apply dropped_nid. destruct (decide (q ∈ suffixes r)) as [Hin|Hin].
    + rewrite decide_True by by right. by rewrite !dropped_eq, Hq.
    + rewrite decide_False by (rewrite elem_of_cons; tauto). done.
Qed.

Lemma removable_live : forall p T q, removable T p -> q ∈ suffixes p -> exists n, T !! q = Some n /\ 0 < ncount n.
Proof.
  induction p as [|t r IH]; intros T q; cbn [removable suffixes]; [by intros _ ?%elem_of_nil|].
  intros [(n & Hn & Hpos & _) Hrem] [->|Hin]%elem_of_cons; [eauto|]. destruct (IH _ q Hrem Hin) as (n' & Hn' & Hpos').
  exists n'. split; [|done]. rewrite dropped_nid in Hn'; [done|]. intros ->. apply suffixes_length in Hin. simpl in Hin. lia.
Qed.

Lemma linked_drop_all next : forall p T, linked next T -> removable T p -> linked next (drop_all T p).
Proof.
  induction p as [|t r IH]; intros T Hl; [done|]. cbn [removable drop_all]. intros [(n & Hn & Hpos & Hno) Hrem]. apply IH; [|done].
  unfold dropped. rewrite Hn. destruct (Z.eqb_spec (ncount n) 1) as [Hone|_]; [by apply linked_delete; [|apply Hno]|].
  pose proof (li_count _ _ Hl _ _ Hn). eapply linked_modify; [done | done | done | simpl; lia].
Qed.

Lemma keyed_drop_all next E T p ps :
  linked next T -> removable T p -> keyed E T -> NoDup ps -> (forall q, q ∈ ps <-> q ∈ suffixes p) ->
  keyed (foldl drop_entry E (map (key_at T) ps)) (drop_all T p).
Proof.
  intros Hl Hrem [Hn He] Hnd Hps. pose proof (linked_drop_all next p T Hl Hrem) as Hl'.
  assert (Hlive : forall q, q ∈ ps -> is_Some (T !! q)).
  { intros q Hq%Hps. destruct (removable_live p T q Hrem Hq) as (n & Hq' & _). by eexists. }
  assert (Hkeys : NoDup (map (key_at T) ps)).
  { apply NoDup_fmap_2_strong; [|done]. intros q r Hq Hr. by apply (key_at_inj next); auto. }
  assert (Hin : forall q, is_Some (T !! q) -> key_at T q ∈ map (key_at T) ps <-> q ∈ suffixes p).
  { intros q Hq. rewrite <- Hps, list_elem_of_fmap. split; [|by exists q]. intros (r & Hqr & Hr).
    by rewrite (key_at_inj next T q r Hl Hq (Hlive r Hr) Hqr). }
  assert (Hold : forall q n, drop_all T p !! q = Some n -> exists n0, T !! q = Some n0 /\ nid n = nid n0).
  { intros q n. rewrite drop_all_lookup. case_decide; [|eauto]. rewrite dropped_eq. destruct (T !! q) as [n0|]; [|done].
    destruct (ncount n0 =? 1); [done|]. intros [= <-]. eauto. }
  assert (Hkey : forall q, is_Some (drop_all T p !! q) -> nid <$> drop_all T p !! tail q = nid <$> T !! tail q).
  { intros [|t q] Hq; simpl.
    - destruct Hq as [n Hq]. destruct (Hold _ _ Hq) as (n0 & -> & Hid). rewrite Hq. simpl. by rewrite Hid.
    - destruct (li_closed _ _ Hl' t q Hq) as [n Hq']. destruct (Hold _ _ Hq') as (n0 & -> & Hid). rewrite Hq'. simpl. by rewrite Hid. }
  split.
  - intros q n Hq. pose proof (ex_intro _ n Hq : is_Some _) as Hsome. rewrite (key_at_ext T), (entry_at_ext T) by by apply Hkey.
    destruct (Hold _ _ Hq) as (n0 & Hn0 & _). rewrite drop_entries_lookup by done. rewrite drop_all_lookup in Hq.
    assert (Hiff := Hin q ltac:(by eexists)). destruct (decide (q ∈ suffixes p)) as [Hsuf|Hsuf].
    + rewrite decide_True by by apply Hiff. rewrite dropped_eq, Hn0 in Hq. unfold drop_entry. rewrite (Hn _ _ Hn0). cbn [count entry_at].
      destruct (ncount n0 =? 1); [done|]. injection Hq as <-. by rewrite lookup_insert_eq.
    + rewrite decide_False by by rewrite Hiff. by apply Hn.
  - intros k e Hk. rewrite drop_entries_lookup in Hk by done.
    assert (is_Some (E !! k)) as [e0 He0].
    { case_decide; [|by eexists]. unfold drop_entry in Hk. destruct (E !! k) eqn:He0; [by eexists | congruence]. }
    destruct (He k e0 He0) as (q & [n0 Hn0] & ->). assert (Hiff := Hin q ltac:(by eexists)).
    assert (Hsome : is_Some (drop_all T p !! q)).
    { rewrite drop_all_lookup. destruct (decide (q ∈ suffixes p)) as [Hsuf|Hsuf]; [|by eexists].
      rewrite decide_True in Hk by by apply Hiff. unfold drop_entry in Hk. rewrite (Hn _ _ Hn0) in Hk. cbn [count entry_at] in Hk.
      rewrite dropped_eq, Hn0. destruct (ncount n0 =? 1); [by rewrite lookup_delete_eq in Hk | by eexists]. }
    exists q. split; [done|]. symmetry. by apply key_at_ext, Hkey.
Qed.

Lemma erase_nodes_run m T f :
  shape m T -> removable T (path_of f) ->
  exists m', for_each erase_level (map (key_at T) (paths [] (levels f))) tt m = Return tt m' /\
    shape m' (drop_all T (path_of f)) /\ map_size m' = map_size m /\ next_node_id m' = next_node_id m.
Proof.
  intros [E [Hc Hk Hl Hr]] Hrem.
  assert (Hin : forall q, q ∈ paths [] (levels f) <-> q ∈ suffixes (path_of f)) by (intros; apply elem_of_paths).
  assert (Hlive : forall q, q ∈ paths [] (levels f) -> exists n, T !! q = Some n /\ 0 < ncount n).
  { intros q Hq%Hin. by apply (removable_live (path_of f)). }
  destruct (erase_levels_run (map (key_at T) (paths [] (levels f))) m E Hc) as (c & Hrun & Hc').
  - apply NoDup_fmap_2_strong; [|apply NoDup_paths]. intros p q Hp Hq. destruct (Hlive p Hp) as (? & ? & _), (Hlive q Hq) as (? & ? & _).
    apply (key_at_inj _ _ _ _ Hl); by eexists.
  - intros k (q & -> & Hq)%list_elem_of_fmap. destruct (Hlive q Hq) as (n & Hn & Hpos). exists (entry_at T q n).
    split; [by apply (ke_node _ _ Hk)|]. pose proof (li_count _ _ Hl _ _ Hn). simpl. lia.
  - exists (set_map c m). split; [done|]. split; [|done]. eexists. split; [done| | |done].
    + eapply keyed_drop_all; [done | done | done | apply NoDup_paths | done].
    + by apply linked_drop_all.
Qed.
End tree.
