(* ===== verification/RetainedFind.v ===== *)
(** * What a topic filter finds among the retained topics

    The search of RetainedTopicMap.v over the tree of RetainedTree.v.  The
    order of the children of a node is not specified, so the nodes a search
    visits are known up to a permutation. *)
From S2P Require Import Prelude Boost Action TopicFilter SubscriptionTree RetainedTopicMap RetainedTree.

Section find.
Context {BMI : BoostMultiIndex} {BMIok : BoostMultiIndexOk} {Value : Type} {Heq : EqDecision Value}.
Abbreviation tree := (gmap path (SubscriptionTree.node (gmap unit Value))).
Implicit Types (m : retained_topic_map Value) (T : tree) (p q r : path) (t : list byte) (ts : list (list byte)) (e : path_entry Value).

Definition live_at T p : Prop := is_Some (T !! p).
Definition value_at T p : option Value := n ← T !! p; nvalue n !! tt.
Definition id_at T p : Z := default 0 (nid <$> T !! p).
Definition entry_of T p : path_entry Value :=
  match T !! p with Some n => entry_at T p n | None => make_path_entry 0 [] 0 end.

(** ** Children *)
Section nodes.
Context {E : gmap entry_key (path_entry Value)} {m : retained_topic_map Value} {T : tree} (Hs : shape_with E m T).

Lemma at_live p : live_at T p -> at_iterator (key_at T p) m = Return (entry_of T p) m.
Proof. intros [n Hn]. unfold entry_of. rewrite Hn. by apply (retained_at_node Hs). Qed.

Lemma children_paths p : live_at T p -> exists cs, children (id_at T p) (map_ m) = map (entry_of T) cs /\ NoDup cs /\
  forall q, q ∈ cs <-> exists t, q = t :: p /\ live_at T q.
Proof.
  intros [n Hp]. unfold id_at. rewrite Hp. cbn [fmap option_fmap option_map default from_option]. change (Datatypes.id ?x) with x.
  pose proof (child_entries Hs p n) as Hiff. pose proof (NoDup_children (sh_contains _ _ _ Hs) (nid n)) as Hnd.
  exists (map (fun e => name e :: p) (children (nid n) (map_ m))).
  assert (Hself : forall e, e ∈ children (nid n) (map_ m) -> entry_of T (name e :: p) = e).
  { intros e (t & n' & Ht & ->)%(Hiff _ Hp). unfold entry_of. cbn [name entry_at]. rewrite (key_at_child T t p n Hp). cbn [snd]. by rewrite Ht. }
  split; [|split].
  - rewrite map_map. rewrite <- map_id at 1. apply map_ext_in. intros e He%list_elem_of_In. by rewrite Hself.
  - apply NoDup_fmap_2_strong; [|done]. intros e e' He He' Hn. rewrite <- (Hself e He), <- (Hself e' He'). by rewrite Hn.
  - intros q. rewrite list_elem_of_fmap. split.
    + intros (e & -> & He). exists (name e). split; [done|]. apply (Hiff _ Hp) in He as (t & n' & Ht & ->).
      cbn [name entry_at]. rewrite (key_at_child T t p n Hp). by eexists.
    + intros (t & -> & [n' Ht]). exists (entry_at T (t :: p) n'). split; [|by apply (Hiff _ Hp); eauto].
      cbn [name entry_at]. by rewrite (key_at_child T t p n Hp).
Qed.

Lemma key_of_entry_of q : live_at T q -> key_of_entry (entry_of T q) = key_at T q.
Proof. intros [n Hn]. unfold entry_of. rewrite Hn. apply entry_at_key. Qed.

Lemma no_system_entry t p : live_at T (t :: p) -> no_system (entry_of T (t :: p)) = negb (is_dollar t).
Proof.
  intros [n' Ht]. destruct (li_closed _ _ (sh_linked _ _ _ Hs) t p) as [n Hp]; [by eexists|].
  unfold no_system, entry_of. rewrite Ht. cbn [name entry_at]. rewrite (key_at_child T t p n Hp). cbn [snd]. by destruct t.
Qed.

Lemma root_id p : live_at T p -> (id_at T p =? root_node_id) = bool_decide (p = []).
Proof.
  intros [n Hp]. unfold id_at. rewrite Hp. cbn [fmap option_fmap option_map default from_option]. change (Datatypes.id ?x) with x.
  destruct (li_root _ _ (sh_linked _ _ _ Hs)) as (n0 & Hn0 & Hid0). destruct (Z.eqb_spec (nid n) root_node_id) as [He|He]; symmetry.
  - apply bool_decide_eq_true. apply (li_inj _ _ (sh_linked _ _ _ Hs) _ _ n n0 Hp Hn0). by rewrite He, Hid0.
  - apply bool_decide_eq_false. intros ->. apply He. assert (n = n0) as -> by congruence. done.
Qed.

Lemma id_entry p : live_at T p -> id (entry_of T p) = id_at T p.
Proof. intros [n Hp]. unfold entry_of, id_at. by rewrite Hp. Qed.

Lemma value_entry p : live_at T p -> value (entry_of T p) = value_at T p.
Proof. intros [n Hp]. unfold entry_of, value_at. by rewrite Hp. Qed.

Lemma values_entries ps : Forall (live_at T) ps -> omap value (map (entry_of T) ps) = omap (value_at T) ps.
Proof. induction 1 as [|p ps Hp _ IH]; [done|]. cbn. by rewrite (value_entry p Hp), IH. Qed.

Lemma ids_entries ps : Forall (live_at T) ps -> map id (map (entry_of T) ps) = map (id_at T) ps.
Proof. induction 1 as [|p ps Hp _ IH]; [done|]. cbn. by rewrite (id_entry p Hp), IH. Qed.

Lemma keys_entries ps : Forall (live_at T) ps -> map key_of_entry (map (entry_of T) ps) = map (key_at T) ps.
Proof. induction 1 as [|p ps Hp _ IH]; [done|]. cbn. by rewrite (key_of_entry_of p Hp), IH. Qed.

(** the depth of a node is less than the number of entries *)
Lemma retained_depth_bound q : live_at T q -> (length q <= length (mi_range direct_index (map_ m)))%nat.
Proof.
  intros Hq. assert (Hlive : forall r, r ∈ suffixes q -> live_at T r).
  { intros r (_ & x & ->)%elem_of_suffixes. clear -Hs Hq. induction x as [|u x IH]; [done|]. apply IH, (li_closed _ _ (sh_linked _ _ _ Hs) u), Hq. }
  assert (Hlen : length (suffixes q) = length q) by (clear; induction q; simpl; auto).
  rewrite <- Hlen, <- (length_map (entry_of T)). apply submseteq_length, NoDup_submseteq.
  - apply NoDup_fmap_2_strong; [|apply NoDup_suffixes]. intros x y Hx%Hlive Hy%Hlive Hxy.
    apply (key_at_inj _ _ _ _ (sh_linked _ _ _ Hs) Hx Hy). by rewrite <- !key_of_entry_of, Hxy.
  - intros e (r & -> & Hr%Hlive)%list_elem_of_fmap. apply (range_iff (sh_contains _ _ _ Hs)). rewrite key_of_entry_of by done.
    destruct Hr as [n Hn]. unfold entry_of. rewrite Hn. by apply (ke_node _ _ (sh_keyed _ _ _ Hs)).
Qed.

(** ** One level of the filter *)

Lemma while_prefix (f : path_entry Value -> bool) (cs : list path) : exists k,
  while f (map (entry_of T) cs) = map (entry_of T) (take k cs) /\
  (forall q, q ∈ take k cs -> f (entry_of T q) = true) /\
  ((forall q, q ∈ cs -> f (entry_of T q) = true) -> take k cs = cs).
Proof.
  induction cs as [|q cs (k & IH & Hk & Hall)]; [by exists 0%nat; split; [|split; [intros q ?%elem_of_nil|]]|]. cbn [map while].
  destruct (f (entry_of T q)) eqn:Hf.
  - exists (S k). cbn [take map]. rewrite IH. split; [done|]. split.
    + intros r [->|Hr]%elem_of_cons; [done | by apply Hk].
    + intros H. rewrite Hall; [done|]. intros r Hr. apply H. by right.
  - exists 0%nat. split; [done|]. split; [by intros r ?%elem_of_nil|]. intros H. by rewrite (H q ltac:(by left)) in Hf.
Qed.

(** the children of [p] that "+" takes on *)
Lemma plus_paths p : live_at T p -> exists cs,
  while (fun i => negb (id_at T p =? root_node_id) || no_system i) (children (id_at T p) (map_ m)) = map (entry_of T) cs /\
  NoDup cs /\ (forall q, q ∈ cs -> exists t, q = t :: p /\ live_at T q /\ not_system p t = true) /\
  ((forall t, live_at T (t :: p) -> not_system p t = true) -> forall t, live_at T (t :: p) -> t :: p ∈ cs).
Proof.
  intros Hp. destruct (children_paths p Hp) as (cs & -> & Hnd & Hcs).
  destruct (while_prefix (fun i => negb (id_at T p =? root_node_id) || no_system i) cs) as (k & -> & Hk & Hall).
  assert (Htest : forall t, live_at T (t :: p) -> negb (id_at T p =? root_node_id) || no_system (entry_of T (t :: p)) = not_system p t).
  { intros t Ht. by rewrite (root_id p Hp), (no_system_entry t p Ht). }
  exists (take k cs). split; [done|]. split; [eapply sublist_NoDup; [done | apply sublist_take]|]. split.
  - intros q Hq. pose proof (Hk q Hq) as Htrue. assert (Hin : q ∈ cs) by (rewrite <- (take_drop k cs); set_solver). apply Hcs in Hin.
    destruct Hin as (t & -> & Ht). exists t. split; [done|]. split; [done|]. by rewrite <- (Htest t Ht).
  - intros Hsys t Ht. rewrite Hall; [apply Hcs; eauto|]. intros q (u & -> & Hu)%Hcs. rewrite (Htest u Hu). by apply Hsys.
Qed.

Lemma plus_level l : forall ps acc, Forall (live_at T) ps -> exists ps',
  match_entries [plus] (map (key_at T) ps) acc l m = Return (Some (acc ++ map (key_at T) ps'), l) m /\
  (NoDup ps -> NoDup ps') /\
  (forall q, q ∈ ps' -> exists p t, p ∈ ps /\ q = t :: p /\ live_at T q /\ not_system p t = true) /\
  ((forall p t, p ∈ ps -> live_at T (t :: p) -> not_system p t = true) -> forall p t, p ∈ ps -> live_at T (t :: p) -> t :: p ∈ ps').
Proof.
  induction ps as [|p ps IH]; intros acc Hps.
  - exists []. split; [simpl; by rewrite app_nil_r|]. split; [intros; constructor|]. split; [by intros q ?%elem_of_nil | by intros _ p t ?%elem_of_nil].
  - apply Forall_cons in Hps as [Hp Hps]. destruct (plus_paths p Hp) as (cs & Hcs & Hnd & Hsound & Hcomplete).
    destruct (IH (acc ++ map (key_at T) cs) Hps) as (ps' & Hrun & Hnd' & Hsound' & Hcomplete'). exists (cs ++ ps'). split; [|split; [|split]].
    + cbn [match_entries map]. etransitivity; [exact (bind_return _ _ _ _ _ (at_live p Hp))|].
      etransitivity; [exact (bind_return _ _ _ m m eq_refl)|]. rewrite bool_decide_eq_true_2 by done. cbv zeta.
      rewrite (id_entry p Hp), Hcs, keys_entries by (apply Forall_forall; intros q (t & _ & Hq & _)%Hsound; done).
      by rewrite Hrun, map_app, app_assoc.
    + intros [Hin Hnp]%NoDup_cons. apply NoDup_app. split; [done|]. split; [|by apply Hnd'].
      intros q (t & -> & _)%Hsound (p' & t' & Hp' & [= -> ->] & _)%Hsound'. done.
    + intros q [(t & Hq)%Hsound|(p' & t & Hp' & Hq)%Hsound']%elem_of_app; [exists p, t | exists p', t]; set_solver.
    + intros Hsys p' t [->|Hp']%elem_of_cons Ht; apply elem_of_app; [left | right].
      * apply Hcomplete; [|done]. intros u. apply Hsys. by left.
      * apply Hcomplete'; [|done..]. intros p'' u Hp''. apply Hsys. by right.
Qed.

Lemma plain_level_run t l : plain_level t -> forall ps acc, Forall (live_at T) ps ->
  match_entries t (map (key_at T) ps) acc l m = Return (Some (acc ++ map (key_at T) (ps ≫= (fun p => live T (t :: p)))), l) m.
Proof.
  intros [Hplus Hhash]. induction ps as [|p ps IH]; intros acc Hps; [simpl; by rewrite app_nil_r|].
  apply Forall_cons in Hps as [Hp Hps]. cbn [match_entries map].
  etransitivity; [exact (bind_return _ _ _ _ _ (at_live p Hp))|]. etransitivity; [exact (bind_return _ _ _ m m eq_refl)|].
  rewrite !bool_decide_eq_false_2 by done. cbv zeta. rewrite (id_entry p Hp), IH by done. do 3 f_equal. rewrite <- app_assoc.
  f_equal. destruct Hp as [n Hp]. unfold id_at. rewrite Hp. cbn. rewrite (find_child Hs t p n Hp). unfold live.
  destruct (T !! (t :: p)) as [n'|] eqn:Ht; cbn.
  - rewrite decide_True by by eexists. cbn. by rewrite entry_at_key.
  - by rewrite decide_False by by intros [].
Qed.

(** ** All levels below *)

Lemma hash_round_paths ign ps : Forall (live_at T) ps -> exists ps',
  hash_round ign (map_ m) (map (id_at T) ps) = map (entry_of T) ps' /\ (NoDup ps -> NoDup ps') /\
  forall q, q ∈ ps' <-> exists p t, p ∈ ps /\ q = t :: p /\ live_at T q /\ (ign = true -> is_dollar t = false).
Proof.
  induction 1 as [|p ps Hp Hps (ps' & IH & Hnd & Hiff)].
  - exists []. split; [done|]. split; [intros; constructor|]. intros q. rewrite elem_of_nil. split; [done|]. by intros (p & t & ?%elem_of_nil & _).
  - destruct (children_paths p Hp) as (cs & Hcs & Hcnd & Hciff).
    set (f := fun e => negb ign || no_system e). set (ds := List.filter (fun q => f (entry_of T q)) cs).
    assert (Hds : forall q, q ∈ ds <-> exists t, q = t :: p /\ live_at T q /\ (ign = true -> is_dollar t = false)).
    { intros q. unfold ds. rewrite list_elem_of_In, filter_In, <- list_elem_of_In, Hciff. split.
      - intros [(t & -> & Ht) Hf]. exists t. split; [done|]. split; [done|]. intros ->. unfold f in Hf. rewrite (no_system_entry t p Ht) in Hf.
        by destruct (is_dollar t).
      - intros (t & -> & Ht & Hd). split; [eauto|]. unfold f. rewrite (no_system_entry t p Ht). destruct ign; [by rewrite Hd | done]. }
    exists (ds ++ ps'). split; [|split].
    + unfold hash_round in *. cbn. rewrite Hcs. fold f. rewrite map_app. f_equal; [|exact IH]. unfold ds. clear.
      induction cs as [|q cs IH]; [done|]. cbn. rewrite IH. by destruct (f (entry_of T q)).
    + intros [Hin Hnp]%NoDup_cons. apply NoDup_app. split; [unfold ds; by apply NoDup_ListNoDup, List.NoDup_filter, NoDup_ListNoDup|]. split; [|by apply Hnd].
      intros q (t & -> & _)%Hds (p' & t' & Hp' & [= -> ->] & _)%Hiff. done.
    + intros q. rewrite elem_of_app, Hds, Hiff. split.
      * intros [(t & Hq)|(p' & t & Hp' & Hq)]; [exists p, t | exists p', t]; set_solver.
      * intros (p' & t & [->|Hp']%elem_of_cons & Hq); [left; by exists t | right; by exists p', t].
Qed.

(** the nodes below [ps], without those below a child of the root that
    starts with "$" when [ign] says so *)
Definition below (ign : bool) (ps : list path) q : Prop :=
  live_at T q /\ exists p t r, p ∈ ps /\ q = r ++ t :: p /\ (ign = true -> is_dollar t = false).

Lemma live_above r q : live_at T (r ++ q) -> live_at T q.
Proof. induction r as [|u r IH]; [done|]. intros Hl. apply IH. exact (li_closed _ _ (sh_linked _ _ _ Hs) u _ Hl). Qed.

Lemma below_round ign ps ps' q :
  (forall q, q ∈ ps' <-> exists p t, p ∈ ps /\ q = t :: p /\ live_at T q /\ (ign = true -> is_dollar t = false)) ->
  below ign ps q <-> q ∈ ps' \/ below false ps' q.
Proof.
  intros Hiff. unfold below. split.
  - intros (Hq & p & t & r & Hp & -> & Hd). pose proof (live_above _ _ Hq) as Htp.
    assert (Hin : t :: p ∈ ps') by (apply Hiff; by exists p, t). destruct r as [|u r _] using rev_ind; [by left | right].
    split; [done|]. exists (t :: p), u, r. rewrite <- app_assoc. done.
  - intros [(p & t & Hp & -> & Hq & Hd)%Hiff|(Hq & x & u & r & (p & t & Hp & -> & _ & Hd)%Hiff & -> & _)].
    + split; [done|]. by exists p, t, [].
    + split; [done|]. exists p, t, (r ++ [u]). rewrite <- app_assoc. done.
Qed.

Lemma match_hash_loop_run : forall fuel ps ign l (d : nat),
  Forall (live_at T) ps -> NoDup ps -> (forall p, p ∈ ps -> length p = d) -> (forall q, live_at T q -> (length q < d + fuel)%nat) ->
  exists ds, match_hash_loop fuel (map (id_at T) ps) ign l m = Return (l ++ omap (value_at T) ds) m /\ NoDup ds /\
    forall q, q ∈ ds <-> below ign ps q.
Proof.
  induction fuel as [|fuel IH]; intros ps ign l d Hps Hnd Hlen Hfuel.
  - destruct ps as [|p ps].
    + exists []. split; [simpl; by rewrite app_nil_r|]. split; [constructor|]. intros q. rewrite elem_of_nil. split; [done|].
      by intros (_ & p & t & r & ?%elem_of_nil & _).
    + apply Forall_cons in Hps as [Hp _]. pose proof (Hfuel p Hp). rewrite (Hlen p ltac:(by left)) in *. lia.
  - destruct (hash_round_paths ign ps Hps) as (ps' & Hround & Hnd' & Hiff).
    assert (Hps' : Forall (live_at T) ps') by (apply Forall_forall; intros q (p & t & _ & _ & Hq & _)%Hiff; done).
    assert (Hlen' : forall p, p ∈ ps' -> length p = S d) by (intros q (p & t & Hp & -> & _)%Hiff; simpl; by rewrite (Hlen p Hp)).
    destruct (IH ps' false (l ++ omap (value_at T) ps') (S d) Hps' (Hnd' Hnd) Hlen') as (ds & Hrun & Hdnd & Hds).
    { intros q Hq. specialize (Hfuel q Hq). lia. }
    exists (ps' ++ ds). split; [|split].
    + destruct ps as [|p ps].
      * assert (ps' = []) as -> by (destruct ps' as [|q ps']; [done|]; destruct (proj1 (Hiff q) ltac:(by left)) as (p & t & ?%elem_of_nil & _); done).
        assert (ds = []) as ->; [|simpl; by rewrite app_nil_r].
        destruct ds as [|q ds]; [done|]. destruct (proj1 (Hds q) ltac:(by left)) as (_ & p & t & r & ?%elem_of_nil & _). done.
      * cbn [match_hash_loop map]. etransitivity; [exact (bind_return _ _ _ m m eq_refl)|].
        change (id_at T p :: map (id_at T) ps) with (map (id_at T) (p :: ps)). cbv zeta.
        rewrite Hround, ids_entries, values_entries by done. rewrite Hrun, omap_app, app_assoc. done.
    + apply NoDup_app. split; [by apply Hnd'|]. split; [|done]. intros q Hq (_ & p & t & r & Hp & -> & _)%Hds.
      apply Hlen' in Hq. rewrite length_app in Hq. simpl in Hq. rewrite (Hlen' p Hp) in Hq. lia.
    + intros q. rewrite elem_of_app, Hds. symmetry. by apply below_round.
Qed.

Lemma match_hash_entries_run p ign l : live_at T p ->
  exists ds, match_hash_entries (id_at T p) ign l m = Return (l ++ omap (value_at T) ds) m /\ NoDup ds /\
    forall q, q ∈ ds <-> below ign [p] q.
Proof.
  intros Hp. destruct (match_hash_loop_run (S (length (mi_range direct_index (map_ m)))) [p] ign l (length p)) as (ds & Hrun & Hrest).
  - by repeat constructor.
  - apply NoDup_singleton.
  - by intros q ->%list_elem_of_singleton.
  - intros q Hq%retained_depth_bound. lia.
  - exists ds. split; [|done]. unfold match_hash_entries. etransitivity; [exact (bind_return _ _ _ m m eq_refl)|]. exact Hrun.
Qed.

(** ** The whole filter *)

(** the levels [ls] of a topic below the node [p] match the levels [ts] *)
Fixpoint match_below p ts (ls : list (list byte)) : bool :=
  match ts, ls with
  | [], [] => true
  | [], _ => false
  | t :: ts, ls =>
    if decide (t = [hash]) then match ls with l :: _ => not_system p l | [] => true end
    else match ls with
      | l :: ls => (bool_decide (t = l) || bool_decide (t = [plus]) && not_system p l) && match_below (l :: p) ts ls
      | [] => false
      end
  end.

(** what makes a search find all there is: "+" is not stopped by a topic that
    starts with "$", and "#" comes with one node *)
Definition whole (ps : list path) ts : Prop :=
  (head ts = Some [plus] -> forall p l, p ∈ ps -> live_at T (l :: p) -> not_system p l = true) /\
  ([hash] ∈ ts -> [plus] ∉ ts /\ (length ps <= 1)%nat).

Definition finds (ps : list path) ts (out : list path) : Prop :=
  NoDup out /\
  (forall q, q ∈ out -> live_at T q /\ exists p ls, p ∈ ps /\ q = rev ls ++ p /\ match_below p ts ls = true) /\
  (whole ps ts -> forall p ls, p ∈ ps -> live_at T (rev ls ++ p) -> match_below p ts ls = true -> rev ls ++ p ∈ out).

(** what is found below the children of [ps] *)
Lemma finds_step ps ps' t ts out :
  t <> [hash] ->
  (forall q, q ∈ ps' -> exists p l, p ∈ ps /\ q = l :: p /\ (bool_decide (t = l) || bool_decide (t = [plus]) && not_system p l) = true) ->
  (whole ps (t :: ts) -> forall p l, p ∈ ps -> live_at T (l :: p) ->
     (bool_decide (t = l) || bool_decide (t = [plus]) && not_system p l) = true -> l :: p ∈ ps') ->
  (whole ps (t :: ts) -> whole ps' ts) ->
  finds ps' ts out -> finds ps (t :: ts) out.
Proof.
  intros Ht Hsound Hcomplete Hwhole (Hnd & Hs1 & Hc1). split; [done|]. split.
  - intros q Hq. destruct (Hs1 q Hq) as (Hlive & p' & ls & Hp' & -> & Hm). split; [done|].
    destruct (Hsound p' Hp') as (p & l & Hp & -> & Hl). exists p, (l :: ls). split; [done|]. split; [apply each_level_app_rev|].
    cbn [match_below]. by rewrite decide_False, Hl, Hm by done.
  - intros Hw p ls Hp Hlive Hm. cbn [match_below] in Hm. rewrite decide_False in Hm by done. destruct ls as [|l ls]; [done|].
    apply andb_true_iff in Hm as [Hl Hm]. rewrite <- each_level_app_rev in Hlive |- *. apply (Hc1 (Hwhole Hw)); [|done..].
    apply (Hcomplete Hw); [done | | done]. by eapply live_above.
Qed.

Lemma finds_nil ps : NoDup ps -> Forall (live_at T) ps -> finds ps [] ps.
Proof.
  intros Hnd Hps. rewrite Forall_forall in Hps. split; [done|]. split.
  - intros q Hq. split; [by apply Hps|]. by exists q, [].
  - intros _ p [|l ls] Hp _ Hm; [done | done].
Qed.

Lemma finds_empty ts : finds [] ts [].
Proof. split; [constructor|]. split; [by intros q ?%elem_of_nil | by intros _ p ls ?%elem_of_nil]. Qed.

Lemma finds_plain ps t ts out :
  plain_level t -> finds (ps ≫= (fun p => live T (t :: p))) ts out -> finds ps (t :: ts) out.
Proof.
  intros [Hplus Hhash]. assert (Hin : forall q, q ∈ ps ≫= (fun p => live T (t :: p)) <-> exists p, p ∈ ps /\ q = t :: p /\ live_at T q).
  { intros q. rewrite list_elem_of_bind. split; [intros (p & [-> Hq]%live_iff & Hp) | intros (p & Hp & -> & Hq)]; exists p; [done|].
    split; [by apply live_iff | done]. }
  apply finds_step; [done|..].
  - intros q (p & Hp & -> & _)%Hin. exists p, t. by rewrite bool_decide_eq_true_2 by done.
  - intros _ p l Hp Hlive Hl. rewrite (bool_decide_eq_false_2 (t = [plus])), orb_false_r in Hl by done.
    apply bool_decide_eq_true in Hl as <-. apply Hin. eauto.
  - intros [_ Hw]. split.
    + intros _ q l (p & Hp & -> & _)%Hin _. done.
    + intros Hh. destruct Hw as [Hno Hone]; [by right|]. split; [intros H; apply Hno; by right|].
      destruct ps as [|p [|? ?]]; simpl in *; [lia | | lia]. rewrite app_nil_r. unfold live. case_decide; simpl; lia.
Qed.

Lemma find_hash l ps ts p : Forall (live_at T) (p :: ps) -> NoDup (p :: ps) -> (forall q, q ∈ p :: ps -> length q = length p) ->
  exists out l', match_entries [hash] (map (key_at T) (p :: ps)) [] l m = Return (None, l') m /\
    l' ++ omap (value_at T) (p :: ps) = l ++ omap (value_at T) out /\ finds (p :: ps) ([hash] :: ts) out.
Proof.
  intros Hps Hnd Hlen. pose proof Hps as [Hp _]%Forall_cons. rewrite Forall_forall in Hps.
  destruct (match_hash_entries_run p (bool_decide (p = [])) l Hp) as (ds & Hrun & Hdnd & Hds).
  exists (ds ++ p :: ps), (l ++ omap (value_at T) ds). split; [|split; [by rewrite omap_app, app_assoc|]; split; [|split]].
  - cbn [match_entries map]. etransitivity; [exact (bind_return _ _ _ _ _ (at_live p Hp))|].
    etransitivity; [exact (bind_return _ _ _ m m eq_refl)|]. cbv zeta. rewrite (id_entry p Hp), (root_id p Hp).
    rewrite bool_decide_eq_false_2, bool_decide_eq_true_2 by done. etransitivity; [exact (bind_return _ _ _ _ _ Hrun)|]. done.
  - apply NoDup_app. split; [done|]. split; [|done]. intros q (_ & p' & t & r & ->%list_elem_of_singleton & -> & _)%Hds Hq.
    apply Hlen in Hq. rewrite length_app in Hq. simpl in Hq. lia.
  - intros q [(Hq & p' & t & r & ->%list_elem_of_singleton & -> & Hd)%Hds|Hq]%elem_of_app.
    + split; [done|]. exists p, (t :: rev r). split; [by left|]. split; [by rewrite <- each_level_app_rev, rev_involutive|].
      cbn [match_below]. rewrite decide_True by done. unfold not_system. destruct (decide (p = [])) as [->|Hne].
      * by rewrite Hd by by apply bool_decide_eq_true.
      * by rewrite bool_decide_eq_false_2.
    + split; [by apply Hps|]. exists q, []. split; [done|]. split; [done|]. cbn [match_below]. by rewrite decide_True.
  - intros [_ Hw] p' ls Hp' Hlive Hm. destruct Hw as [_ Hone]; [by left|]. destruct ps; [|simpl in Hone; lia].
    apply list_elem_of_singleton in Hp' as ->. cbn [match_below] in Hm. rewrite decide_True in Hm by done.
    apply elem_of_app. destruct ls as [|t ls]; [right; by left | left]. rewrite <- each_level_app_rev in Hlive |- *. apply Hds.
    split; [done|]. exists p, t, (rev ls). split; [by left|]. split; [done|]. intros ->%bool_decide_eq_true.
    unfold not_system in Hm. simpl in Hm. by destruct (is_dollar t).
Qed.

Lemma finds_plus ps ps' ts out :
  (forall q, q ∈ ps' -> exists p t, p ∈ ps /\ q = t :: p /\ live_at T q /\ not_system p t = true) ->
  ((forall p t, p ∈ ps -> live_at T (t :: p) -> not_system p t = true) -> forall p t, p ∈ ps -> live_at T (t :: p) -> t :: p ∈ ps') ->
  finds ps' ts out -> finds ps ([plus] :: ts) out.
Proof.
  intros Hsound Hcomplete. apply finds_step; [done|..].
  - intros q (p & t & Hp & -> & _ & Hsys)%Hsound. exists p, t. rewrite Hsys. by rewrite (bool_decide_eq_true_2 ([plus] = [plus])), orb_true_r.
  - intros [Hw _] p l Hp Hlive _. apply Hcomplete; [|done..]. intros p' t Hp' Ht. by apply Hw.
  - intros [_ Hw]. split.
    + intros _ q l (p & t & Hp & -> & _)%Hsound _. done.
    + intros Hh. destruct Hw as [Hno _]; [by right|]. destruct Hno. by left.
Qed.

Lemma keys_nil ps : bool_decide (map (key_at T) ps = []) = bool_decide (ps = []).
Proof. by destruct ps. Qed.

(** one level that is no "#" *)
Lemma level_run t ps l (d : nat) :
  t <> [hash] -> Forall (live_at T) ps -> NoDup ps -> (forall p, p ∈ ps -> length p = d) ->
  exists ps', match_entries t (map (key_at T) ps) [] l m = Return (Some (map (key_at T) ps'), l) m /\
    Forall (live_at T) ps' /\ NoDup ps' /\ (forall p, p ∈ ps' -> length p = S d) /\
    forall ts out, finds ps' ts out -> finds ps (t :: ts) out.
Proof.
  intros Hhash Hps Hnd Hlen. destruct (decide (t = [plus])) as [->|Hplus].
  - destruct (plus_level l ps [] Hps) as (ps' & Hrun & Hnd' & Hsound & Hcomplete). exists ps'. split; [done|]. split.
    { apply Forall_forall. by intros q (p & t & _ & _ & Hq & _)%Hsound. }
    split; [by apply Hnd'|]. split; [intros q (p & t & Hp & -> & _)%Hsound; simpl; by rewrite (Hlen p Hp)|].
    intros ts out. by apply finds_plus.
  - assert (Hplain : plain_level t) by done. exists (ps ≫= (fun p => live T (t :: p))). split; [by rewrite (plain_level_run t l Hplain ps [] Hps)|].
    assert (Hin : forall q, q ∈ ps ≫= (fun p => live T (t :: p)) -> exists p, p ∈ ps /\ q = t :: p /\ live_at T q).
    { intros q (p & [-> Hq]%live_iff & Hp)%list_elem_of_bind. by exists p. }
    split; [apply Forall_forall; by intros q (p & _ & _ & Hq)%Hin|]. split.
    { apply NoDup_bind; [|intros p _; unfold live; case_decide; [apply NoDup_singleton | constructor] | done].
      intros p1 p2 q _ _ [-> _]%live_iff [[= ->] _]%live_iff. done. }
    split; [intros q (p & Hp & -> & _)%Hin; simpl; by rewrite (Hlen p Hp)|].
    intros ts out. by apply finds_plain.
Qed.

Lemma find_levels_run : forall ts ps l (cnt : Z) (d : nat),
  ts <> [] -> Forall (live_at T) ps -> NoDup ps -> (forall p, p ∈ ps -> length p = d) ->
  exists ps' l' cnt' out, each_level (fun t '(entries, l) =>
      '(new_entries, l) ← match_entries t entries [] l;
      match new_entries with
      | None => mret ((entries, l), false)
      | Some entries => mret ((entries, l), negb (bool_decide (entries = [])))
      end) ts cnt (map (key_at T) ps, l) m = Return ((map (key_at T) ps', l'), cnt') m /\
    Forall (live_at T) ps' /\ l' ++ omap (value_at T) ps' = l ++ omap (value_at T) out /\ finds ps ts out.
Proof.
  induction ts as [|t ts IH]; intros ps l cnt d Hts Hps Hnd Hlen; [done|]. cbn [each_level].
  unfold mbind at 1, action_bind at 1, mbind at 1, action_bind at 1. destruct (decide (t = [hash])) as [->|Hhash].
  - destruct ps as [|p ps].
    + exists [], l, cnt, []. split; [by destruct ts|]. split; [done|]. split; [done | apply finds_empty].
    + destruct (find_hash l ps ts p Hps Hnd) as (out & l' & Hrun & Hl & Hfinds).
      { intros q Hq. rewrite (Hlen q Hq). symmetry. apply Hlen. by left. }
      exists (p :: ps), l', cnt, out. split; [|done]. rewrite Hrun. by destruct ts.
  - destruct (level_run t ps l d Hhash Hps Hnd Hlen) as (ps' & Hrun & Hps' & Hnd' & Hlen' & Hfinds). rewrite Hrun.
    unfold mret, action_ret. rewrite keys_nil. destruct ts as [|t' ts].
    + exists ps', l, cnt, ps'. split; [done|]. split; [done|]. split; [done|]. by apply Hfinds, finds_nil.
    + destruct ps' as [|p' ps'].
      * exists [], l, cnt, []. split; [done|]. split; [done|]. split; [done|]. apply Hfinds, finds_empty.
      * destruct (IH (p' :: ps') l (cnt + 1) (S d)) as (ps2 & l2 & cnt2 & out & Hrun2 & Hps2 & Hl2 & Hf2); [done..|].
        exists ps2, l2, cnt2, out. split; [exact Hrun2|]. split; [done|]. split; [done|]. by apply Hfinds.
Qed.

Lemma call_values : forall ps l, Forall (live_at T) ps ->
  for_each call_value (map (key_at T) ps) l m = Return (l ++ omap (value_at T) ps) m.
Proof.
  induction ps as [|p ps IH]; intros l Hps; [simpl; by rewrite app_nil_r|]. apply Forall_cons in Hps as [Hp Hps]. cbn [map for_each].
  etransitivity; [eapply bind_return; unfold call_value; etransitivity; [exact (bind_return _ _ _ _ _ (at_live p Hp)) | reflexivity]|].
  rewrite (value_entry p Hp), IH by done. cbn [omap list_omap]. rewrite <- app_assoc. by destruct (value_at T p).
Qed.

Lemma retained_find_run topic_filter :
  exists out, find topic_filter m = Return (omap (value_at T) out) m /\ finds [[]] (levels topic_filter) out.
Proof.
  destruct (li_root _ _ (sh_linked _ _ _ Hs)) as (n & Hn & _). pose proof (levels_nonempty topic_filter).
  destruct (find_levels_run (levels topic_filter) [[]] [] 1 0%nat) as (ps & l & cnt & out & Hrun & Hps & Hl & Hfinds);
    [done | repeat constructor; by eexists | apply NoDup_singleton | by intros p ->%list_elem_of_singleton |].
  exists out. split; [|done]. unfold find, find_match. etransitivity; [exact (bind_return _ _ _ m m eq_refl)|]. rewrite (sh_root _ _ _ Hs).
  etransitivity; [apply bind_return; rewrite topic_filter_tokenizer_levels; exact Hrun|]. cbn [fst]. by rewrite call_values, Hl.
Qed.
End nodes.
End find.
