(* ===== verification/RetainedSpec.v ===== *)
(** * The retained topic map is a map

    [retained_topic_map] against what it is for: a finite map from topics to
    values, in which a topic filter finds the values of the topics it
    matches. *)
From S2P Require Import Prelude Boost Action TopicFilter SubscriptionTree SubscriptionSpec RetainedTopicMap RetainedTree RetainedFind.

(** ** Matching *)

(** the levels of a filter match those of a topic; the multi-level wildcard
    also stands for no level *)
Fixpoint retained_levels_match (fs ts : list (list byte)) : bool :=
  match fs with
  | [] => bool_decide (ts = [])
  | f :: fs =>
    if decide (f = [hash]) then true
    else match ts with t :: ts => bool_decide (f = t \/ f = [plus]) && retained_levels_match fs ts | [] => false end
  end.

Definition starts_with_dollar (topic : list byte) : bool := default false (is_dollar <$> head (levels topic)).

(** a topic that starts with "$" does not match a filter that starts with a
    wildcard *)
Definition retained_matches (topic_filter topic : list byte) : bool :=
  retained_levels_match (levels topic_filter) (levels topic) &&
  negb (default false (is_wildcard <$> head (levels topic_filter)) && starts_with_dollar topic).

Lemma match_below_node x p fs : forall ts, match_below (x :: p) fs ts = retained_levels_match fs ts.
Proof.
  revert x p. induction fs as [|f fs IH]; intros x p ts; [by destruct ts|]. cbn [match_below retained_levels_match].
  case_decide; [by destruct ts|]. destruct ts as [|t ts]; [done|]. rewrite IH, bool_decide_or.
  change (not_system (x :: p) t) with true. by rewrite andb_true_r.
Qed.

Lemma retained_match_below_root f g : match_below [] (levels f) (levels g) = retained_matches f g.
Proof.
  unfold retained_matches, starts_with_dollar. pose proof (levels_nonempty f). pose proof (levels_nonempty g).
  destruct (levels f) as [|x fs]; [done|]. destruct (levels g) as [|t ts]; [done|].
  cbn [match_below retained_levels_match head fmap option_fmap option_map default from_option]. change (Datatypes.id ?x) with x.
  change (not_system [] t) with (negb (is_dollar t)). unfold is_wildcard. destruct (decide (x = [hash])) as [->|Hh]; [by destruct (is_dollar t)|].
  rewrite (bool_decide_eq_false_2 (x = [hash])), orb_false_r, match_below_node, bool_decide_or by done.
  destruct (decide (x = [plus])) as [->|Hp].
  - rewrite (bool_decide_eq_true_2 ([plus] = [plus])) by done. destruct (decide ([plus] = t)) as [<-|Ht].
    + rewrite bool_decide_eq_true_2 by done. change (is_dollar [plus]) with false. cbn. by rewrite andb_true_r.
    + rewrite bool_decide_eq_false_2 by done. destruct (is_dollar t); cbn; [by rewrite andb_false_r | by rewrite andb_true_r].
  - rewrite (bool_decide_eq_false_2 (x = [plus])) by done. cbn. by rewrite andb_true_r.
Qed.

(** ** The map *)
Section spec.
Context {BMI : BoostMultiIndex} {BMIok : BoostMultiIndexOk} {Value : Type} {Heq : EqDecision Value}.
(** topics to values *)
Abbreviation retained := (gmap (list byte) Value).
Abbreviation tree := (gmap path (SubscriptionTree.node (gmap unit Value))).
Implicit Types (A : retained) (T : tree) (m : retained_topic_map Value) (f : list byte) (v : Value).

(** the topics as subscriptions with the only key there is *)
Definition with_unit A : gmap (list byte * unit) Value := kmap (fun f => (f, tt)) A.

#[local] Instance with_unit_inj : Inj (=) (=) (fun f : list byte => (f, tt)).
Proof. by intros f g [=]. Qed.

Lemma with_unit_insert A f v : with_unit (<[f := v]> A) = <[(f, tt) := v]> (with_unit A).
Proof. exact (kmap_insert (fun g : list byte => (g, tt)) A f v). Qed.
Lemma with_unit_delete A f : with_unit (delete f A) = delete (f, tt) (with_unit A).
Proof. exact (kmap_delete (fun g : list byte => (g, tt)) A f). Qed.
Lemma with_unit_lookup A f : with_unit A !! (f, tt) = A !! f.
Proof. exact (lookup_kmap (fun g : list byte => (g, tt)) A f). Qed.
Lemma with_unit_size A : size (with_unit A) = size A.
Proof.
  induction A as [|f v A Hn IH] using map_ind; [done|]. rewrite with_unit_insert.
  rewrite !map_size_insert_None by (rewrite ?with_unit_lookup; done). by rewrite IH.
Qed.

Record holds_tree m A T : Prop := {
  ht_shape : shape m T;
  ht_represents : represents T (with_unit A);
  ht_root : T !! [] = Some (mk_node 1 1 ∅);
  ht_size : map_size m = Z.of_nat (size A);
}.
Definition holds m A : Prop := exists T, holds_tree m A T.

Definition plain_topic f : Prop := Forall plain_level (levels f).

(** ** Finding *)

Definition topic_of (p : path) : list byte := join (rev p).

Lemma topic_of_path f : topic_of (path_of f) = f.
Proof. unfold topic_of, path_of. rewrite rev_involutive. apply join_levels. Qed.

Lemma value_topic m A T p v : holds_tree m A T -> value_at T p = Some v -> path_of (topic_of p) = p /\ A !! topic_of p = Some v.
Proof.
  intros [Hs Hr Hroot _] Hv. unfold value_at in Hv. destruct (T !! p) as [n|] eqn:Hn; [|done].
  change (nvalue n !! tt = Some v) in Hv. assert (Hp : p <> []) by (intros ->; by simplify_eq/=).
  pose proof (Hr p Hp) as Hok. rewrite Hn in Hok. destruct Hok as (_ & Hpos & Hval). apply under_entry in Hpos as (f & k & w & _ & Hsuf).
  apply suffix_path in Hsuf as [g <-]. rewrite topic_of_path. split; [done|]. by rewrite <- with_unit_lookup, <- (Hval g tt eq_refl).
Qed.

Lemma topic_value m A T f v : holds_tree m A T -> A !! f = Some v -> value_at T (path_of f) = Some v.
Proof.
  intros [Hs Hr Hroot _] Hv. rewrite <- with_unit_lookup in Hv.
  assert (Hlive : is_Some (T !! path_of f)) by (apply (represents_live T _ f Hr), (under_pos _ f tt v); [done | apply self_suffix]).
  destruct Hlive as [n Hn]. unfold value_at. rewrite Hn. change (nvalue n !! tt = Some v). by rewrite (represents_value T _ f tt n Hr Hn).
Qed.

(** the values of the topics a filter matches *)
Definition spec_find A (topic_filter : list byte) : list Value :=
  snd <$> filter (fun e => retained_matches topic_filter (fst e) = true) (map_to_list A).

(** what the search of the code needs to find all of them: "#" without "+",
    and no topic that starts with "$" when the filter starts with "+" *)
Definition searchable A (topic_filter : list byte) : Prop :=
  (head (levels topic_filter) = Some [plus] -> forall f v, A !! f = Some v -> starts_with_dollar f = false) /\
  ([hash] ∈ levels topic_filter -> [plus] ∉ levels topic_filter).

Lemma searchable_whole m A T topic_filter : holds_tree m A T -> searchable A topic_filter -> whole (T := T) [[]] (levels topic_filter).
Proof.
  intros [Hs Hr _ _] [Hplus Hhash]. split; [|intros Hin; split; [by apply Hhash | simpl; lia]].
  intros Hhead p l ->%list_elem_of_singleton [n Hn]. unfold not_system. simpl.
  pose proof (Hr [l] ltac:(done)) as Hok. rewrite Hn in Hok. destruct Hok as (_ & Hpos & _).
  apply under_entry in Hpos as (f & [] & v & Hv & (_ & r & Hr')%elem_of_suffixes). rewrite with_unit_lookup in Hv.
  specialize (Hplus Hhead f v Hv). unfold starts_with_dollar in Hplus. unfold path_of in Hr'.
  apply (f_equal (@rev _)) in Hr'. rewrite rev_involutive, rev_app_distr in Hr'. rewrite Hr' in Hplus. simpl in Hplus. by rewrite Hplus.
Qed.

(** the topics of the nodes that have a value *)
Definition topic_values T (ps : list path) : list (list byte * Value) :=
  omap (fun p => pair (topic_of p) <$> value_at T p) ps.

Lemma topic_values_snd T ps : (topic_values T ps).*2 = omap (value_at T) ps.
Proof. induction ps as [|p ps IH]; [done|]. cbn. rewrite <- IH. by destruct (value_at T p). Qed.

Lemma elem_of_topic_values m A T ps f v :
  holds_tree m A T -> (f, v) ∈ topic_values T ps <-> A !! f = Some v /\ path_of f ∈ ps.
Proof.
  intros Hh. unfold topic_values. rewrite list_elem_of_omap. split.
  - intros (p & Hp & Hv). destruct (value_at T p) as [w|] eqn:Hw; [|done]. injection Hv as <- ->.
    destruct (value_topic m A T p v Hh Hw) as [Heqp Hv]. by rewrite Heqp.
  - intros [Hv Hp]. exists (path_of f). split; [done|]. by rewrite (topic_value m A T f v Hh Hv), topic_of_path.
Qed.

Lemma NoDup_topic_values m A T ps : holds_tree m A T -> NoDup ps -> NoDup (topic_values T ps).
Proof.
  intros Hh. induction ps as [|p ps IH]; intros Hnd; [constructor|]. apply NoDup_cons in Hnd as [Hp Hnd].
  unfold topic_values. cbn. destruct (value_at T p) as [v|] eqn:Hv; cbn; [|by apply IH]. constructor; [|by apply IH].
  intros Hin. apply (elem_of_topic_values m A T ps) in Hin as [_ Hin]; [|done].
  destruct (value_topic m A T p v Hh Hv) as [Heqp _]. by rewrite Heqp in Hin.
Qed.

Lemma find_holds m A topic_filter : holds m A ->
  exists l, find topic_filter m = Return l m /\ l ⊆+ spec_find A topic_filter /\
    (searchable A topic_filter -> l ≡ₚ spec_find A topic_filter).
Proof.
  intros [T Hh]. pose proof (ht_shape _ _ _ Hh) as [E HE]. destruct (retained_find_run HE topic_filter) as (out & Hrun & Hnd & Hsound & Hcomplete).
  pose proof (NoDup_topic_values m A T out Hh Hnd) as Hnd'.
  set (spec := filter (fun e : list byte * Value => retained_matches topic_filter (fst e) = true) (map_to_list A)).
  assert (Hspec : forall f v, (f, v) ∈ spec <-> retained_matches topic_filter f = true /\ A !! f = Some v).
  { intros f v. unfold spec. by rewrite list_elem_of_filter, elem_of_map_to_list. }
  assert (Hnds : NoDup spec) by apply NoDup_filter, NoDup_map_to_list.
  assert (Hin : forall f v, (f, v) ∈ topic_values T out -> (f, v) ∈ spec).
  { intros f v [Hv Hp]%(elem_of_topic_values m A T out f v Hh). apply Hspec. split; [|done].
    destruct (Hsound _ Hp) as (_ & p & ls & ->%list_elem_of_singleton & Hls & Hm). rewrite app_nil_r in Hls.
    apply (f_equal (@rev _)) in Hls. unfold path_of in Hls. rewrite !rev_involutive in Hls. subst ls. by rewrite retained_match_below_root in Hm. }
  exists (omap (value_at T) out). split; [done|]. rewrite <- topic_values_snd. unfold spec_find. fold spec. split.
  - apply fmap_submseteq, NoDup_submseteq; [done|]. intros [f v]. apply Hin.
  - intros Hsearch. apply fmap_Permutation, NoDup_Permutation; [done..|]. intros [f v]. split; [apply Hin|].
    intros [Hm Hv]%Hspec. apply (elem_of_topic_values m A T out f v Hh). split; [done|].
    assert (Hpath : path_of f = rev (levels f) ++ []) by (unfold path_of; by rewrite app_nil_r). rewrite Hpath.
    apply (Hcomplete (searchable_whole m A T topic_filter Hh Hsearch)); [by left | | by rewrite retained_match_below_root].
    rewrite <- Hpath. pose proof (topic_value m A T f v Hh Hv) as Hval. unfold value_at in Hval. unfold live_at.
    destruct (T !! path_of f); [by eexists | done].
Qed.

(** ** Inserting and erasing *)

Lemma retained_last_key T f : last (map (key_at T) (paths [] (levels f))) = Some (key_at T (path_of f)).
Proof. etransitivity; [apply fmap_last|]. rewrite last_paths by apply levels_nonempty. unfold path_of. by rewrite app_nil_r. Qed.

Lemma retained_find_path_run m A T f : holds_tree m A T ->
  exists ps, find_topic f m = Return ps m /\
    ((T !! path_of f = None /\ ps = []) \/
     (exists n, T !! path_of f = Some n /\ ps = map (key_at T) (paths [] (levels f)) /\ last ps = Some (key_at T (path_of f)))).
Proof.
  intros Hh. eexists. split; [apply find_topic_run, (ht_shape _ _ _ Hh)|]. destruct (T !! path_of f) as [n|] eqn:Hn.
  - right. exists n. split; [done|]. rewrite decide_True by by eexists. split; [done | apply retained_last_key].
  - left. split; [done|]. by rewrite decide_False by by intros [].
Qed.

Lemma value_lookup m A T f n : holds_tree m A T -> T !! path_of f = Some n -> nvalue n !! tt = A !! f.
Proof. intros Hh Hn. rewrite <- with_unit_lookup. apply (represents_value T _ f tt n (ht_represents _ _ _ Hh) Hn). Qed.

Lemma count_below m A T f p n : holds_tree m A T -> p ∈ suffixes (path_of f) -> T !! p = Some n -> ncount n <= Z.of_nat (size A).
Proof. intros Hh Hp Hn. rewrite <- with_unit_size. by apply (represents_count T (with_unit A) f p n (ht_represents _ _ _ Hh)). Qed.

Lemma root_kept T T' f : counted T T' (suffixes (path_of f)) -> T' !! [] = T !! [].
Proof. intros [Hout _]. apply Hout. by intros [? _]%elem_of_suffixes. Qed.

Lemma retained_shape_set_map_size m T x : shape m T -> shape (set_map_size x m) T.
Proof. intros [E []]. by exists E. Qed.

Lemma retained_increase_map_size_run m :
  map_size m < size_max -> increase_map_size m = Return tt (set_map_size (map_size m + 1) m).
Proof.
  intros Hlt. unfold increase_map_size. etransitivity; [exact (bind_return _ _ _ m m eq_refl)|].
  by rewrite (proj2 (Z.eqb_neq _ _)) by lia.
Qed.

Lemma retained_decrease_map_size_run m c :
  c <= map_size m -> decrease_map_size c m = Return tt (set_map_size (map_size m - c) m).
Proof.
  intros Hlt. unfold decrease_map_size. etransitivity; [exact (bind_return _ _ _ m m eq_refl)|].
  by rewrite (proj2 (Z.leb_le _ _) Hlt).
Qed.

Definition room m A f : Prop :=
  next_node_id m + Z.of_nat (length (levels f)) < size_max /\ Z.of_nat (size A) < size_max.

Lemma next_pos m T : shape m T -> 1 <= next_node_id m.
Proof.
  intros [E HE]. destruct (li_root _ _ (sh_linked _ _ _ HE)) as (n & Hn & Hid).
  pose proof (li_range _ _ (sh_linked _ _ _ HE) _ _ Hn). lia.
Qed.

(** the value is set after the nodes were counted *)
Lemma set_counted m0 m1 A T T1 f v :
  holds_tree m0 A T -> A !! f = None -> shape m1 T1 -> counted T T1 (suffixes (path_of f)) -> map_size m1 = map_size m0 ->
  exists m2, set_value (Some v) (key_at T1 (path_of f)) m1 = Return tt m2 /\ map_size m2 = map_size m0 /\ next_node_id m2 = next_node_id m1 /\
    forall x, x = map_size m0 + 1 -> holds (set_map_size x m2) (<[f := v]> A).
Proof.
  intros Hh Hnew Hs1 Hc Hm1. destruct (proj2 Hc _ (self_suffix f)) as (n1 & Hn1 & _).
  destruct (set_value_run m1 T1 (path_of f) n1 (Some v) <[tt := v]> Hs1 Hn1) as (m2 & Hrun & Hs2 & Hm2 & Hx2); [apply lookup_insert_eq|].
  exists m2. split; [done|]. split; [congruence|]. split; [done|]. intros x ->. eexists. split.
  - by apply retained_shape_set_map_size.
  - rewrite with_unit_insert. eapply represents_subscribed; [by apply created_subscribed | apply (ht_represents _ _ _ Hh) | by rewrite with_unit_lookup].
  - rewrite lookup_insert_ne by apply path_of_nonempty. rewrite (root_kept _ _ _ Hc). apply (ht_root _ _ _ Hh).
  - simpl. rewrite (ht_size _ _ _ Hh), map_size_insert_None by done. lia.
Qed.

Lemma retained_insert_run m A f v :
  holds m A -> plain_topic f -> room m A f ->
  exists m', insert_or_assign f v m = Return (match A !! f with Some _ => 0 | None => 1 end) m' /\ holds m' (<[f := v]> A) /\
    next_node_id m' <= next_node_id m + Z.of_nat (length (levels f)).
Proof.
  intros [T Hh] Hplain [Hroom Hsize]. pose proof (ht_shape _ _ _ Hh) as Hs. pose proof Hs as [E HE]. unfold insert_or_assign.
  destruct (retained_find_path_run m A T f Hh) as (ps & Hfind & [[Hn ->]|(n & Hn & -> & Hlast)]); setoid_rewrite (bind_return _ _ _ _ _ Hfind).
  - assert (Hnew : A !! f = None).
    { rewrite <- with_unit_lookup. by apply (represents_absent T _ f tt (ht_represents _ _ _ Hh)). }
    destruct (create_topic_run m T f Hs Hplain (next_pos m T Hs) Hroom) as (m1 & T1 & Hrun1 & Hs1 & Hc1 & Hm1 & Hx1).
    { intros p np Hp Hnp. pose proof (count_below m A T f p np Hh Hp Hnp). lia. }
    destruct (set_counted m m1 A T T1 f v Hh Hnew Hs1 Hc1 Hm1) as (m2 & Hrun2 & Hm2 & Hx2 & Hh2). rewrite Hnew.
    eexists. split; [|split; [by apply Hh2 | simpl; lia]]. cbn [last]. etransitivity; [exact (bind_return _ _ _ _ _ Hrun1)|].
    etransitivity; [exact (bind_return _ _ _ _ _ Hrun2)|]. etransitivity; [apply bind_return, retained_increase_map_size_run|].
    + rewrite Hm2, (ht_size _ _ _ Hh). lia.
    + by rewrite Hm2.
  - rewrite Hlast. setoid_rewrite (bind_return _ _ _ _ _ (retained_at_node HE _ _ Hn)). cbn [value entry_at].
    rewrite (value_lookup m A T f n Hh Hn). destruct (A !! f) as [v0|] eqn:Hv0.
    + destruct (set_value_run m T (path_of f) n (Some v) <[tt := v]> Hs Hn) as (m1 & Hrun1 & Hs1 & Hm1 & Hx1); [apply lookup_insert_eq|].
      exists m1. split; [|split; [|lia]]. { etransitivity; [exact (bind_return _ _ _ _ _ Hrun1)|]. done. }
      eexists. split; [done| | |].
      * rewrite with_unit_insert. eapply represents_updated; [apply (ht_represents _ _ _ Hh) | by rewrite with_unit_lookup | done].
      * rewrite lookup_insert_ne by apply path_of_nonempty. apply (ht_root _ _ _ Hh).
      * rewrite Hm1, (ht_size _ _ _ Hh). rewrite map_size_insert_Some; [done | by eexists].
    + destruct (increase_topics_run (paths [] (levels f)) m T Hs (NoDup_paths _)) as (m1 & T1 & Hrun1 & Hs1 & Hc1 & Hm1 & Hx1).
      { intros p Hp%elem_of_paths. assert (Hlive : is_Some (T !! p)).
        { apply elem_of_suffixes in Hp as [_ [r Hr]]. apply (live_above HE r). rewrite <- Hr. by eexists. }
        destruct Hlive as [np Hnp]. exists np. split; [done|]. pose proof (count_below m A T f p np Hh Hp Hnp). lia. }
      assert (Hc1' : counted T T1 (suffixes (path_of f))) by (destruct Hc1 as [H1 H2]; split; intros p Hp; [apply H1 | apply H2]; by rewrite elem_of_paths).
      destruct (set_counted m m1 A T T1 f v Hh Hv0 Hs1 Hc1' Hm1) as (m2 & Hrun2 & Hm2 & Hx2 & Hh2).
      rewrite (counted_key_at T T1 _ (path_of f) Hc1') in Hrun2 by (apply (live_tail m); [done | by eexists]).
      eexists. split; [|split; [by apply Hh2 | simpl; lia]]. etransitivity; [exact (bind_return _ _ _ _ _ Hrun1)|].
      etransitivity; [exact (bind_return _ _ _ _ _ Hrun2)|]. etransitivity; [apply bind_return, retained_increase_map_size_run|].
      * rewrite Hm2, (ht_size _ _ _ Hh). lia.
      * by rewrite Hm2.
Qed.

Lemma retained_erase_run m A f :
  holds m A ->
  exists m', erase f m = Return (match A !! f with Some _ => 1 | None => 0 end) m' /\ holds m' (delete f A) /\
    next_node_id m' = next_node_id m.
Proof.
  intros [T Hh]. pose proof (ht_shape _ _ _ Hh) as Hs. pose proof Hs as [E HE]. pose proof (ht_size _ _ _ Hh) as Hsize. unfold erase.
  assert (Hnothing : A !! f = None -> erase_topic f m = Return 0 m -> exists m', (result ← erase_topic f; decrease_map_size result;; mret result) m =
    Return 0 m' /\ holds m' (delete f A) /\ next_node_id m' = next_node_id m).
  { intros Hnone Hrun. setoid_rewrite (bind_return _ _ _ _ _ Hrun). exists (set_map_size (map_size m - 0) m). split; [|split; [|done]].
    - etransitivity; [apply bind_return, retained_decrease_map_size_run; lia | done].
    - rewrite delete_id, Z.sub_0_r by done. exists T. split; [by apply retained_shape_set_map_size | apply (ht_represents _ _ _ Hh)| apply (ht_root _ _ _ Hh) | done]. }
  destruct (retained_find_path_run m A T f Hh) as (ps & Hfind & [[Hn ->]|(n & Hn & -> & Hlast)]).
  - assert (Hnone : A !! f = None) by (rewrite <- with_unit_lookup; by apply (represents_absent T _ f tt (ht_represents _ _ _ Hh))).
    rewrite Hnone. apply Hnothing; [done|]. unfold erase_topic. etransitivity; [exact (bind_return _ _ _ _ _ Hfind) | done].
  - pose proof (value_lookup m A T f n Hh Hn) as Hval. destruct (A !! f) as [v|] eqn:Hv.
    + destruct (set_value_run m T (path_of f) n None (delete tt) Hs Hn) as (m1 & Hrun1 & Hs1 & Hm1 & Hx1); [apply lookup_delete_eq|].
      pose proof (represents_removing T (with_unit A) f tt v n (ht_represents _ _ _ Hh)) as Hrem. rewrite with_unit_lookup in Hrem.
      apply removing_dropped in Hrem as [Hrem Hrep]; [|done..]. destruct (erase_nodes_run m1 _ f Hs1 Hrem) as (m2 & Hrun2 & Hs2 & Hm2 & Hx2).
      assert (Hkeys : map (key_at (<[path_of f := set_nvalue (delete tt) n]> T)) (paths [] (levels f)) = map (key_at T) (paths [] (levels f))).
      { apply map_ext. intros p. by apply key_at_ext, same_ids with n. }
      rewrite Hkeys in Hrun2. assert (Hpos : Z.of_nat (size A) = Z.of_nat (size (delete f A)) + 1).
      { rewrite <- (insert_delete_id A f v Hv) at 1. rewrite map_size_insert_None by apply lookup_delete_eq. lia. }
      exists (set_map_size (map_size m2 - 1) m2). split; [|split; [|simpl; congruence]].
      * assert (Hrun : erase_topic f m = Return 1 m2).
        { unfold erase_topic. etransitivity; [exact (bind_return _ _ _ _ _ Hfind)|]. rewrite Hlast.
          etransitivity; [exact (bind_return _ _ _ _ _ (retained_at_node HE _ _ Hn))|]. cbn [value entry_at]. rewrite Hval.
          etransitivity; [exact (bind_return _ _ _ _ _ Hrun1)|]. etransitivity; [exact (bind_return _ _ _ _ _ Hrun2) | done]. }
        etransitivity; [exact (bind_return _ _ _ _ _ Hrun)|]. etransitivity; [apply bind_return, retained_decrease_map_size_run; lia | done].
      * eexists. split; [by apply retained_shape_set_map_size | by rewrite with_unit_delete | | simpl; lia].
        rewrite drop_all_lookup, decide_False by by intros [? _]%elem_of_suffixes.
        rewrite lookup_insert_ne by apply path_of_nonempty. apply (ht_root _ _ _ Hh).
    + apply Hnothing; [done|]. unfold erase_topic. etransitivity; [exact (bind_return _ _ _ _ _ Hfind)|]. rewrite Hlast.
      etransitivity; [exact (bind_return _ _ _ _ _ (retained_at_node HE _ _ Hn))|]. cbn [value entry_at]. by rewrite Hval.
Qed.

Lemma init_run m : map_ m = mi_empty ->
  exists m', init_map m = Return tt m' /\ holds m' ∅ /\ next_node_id m' = 2.
Proof.
  intros He. set (T := {[ [] := mk_node 1 1 ∅ ]} : tree). set (e := make_path_entry root_parent_id [] root_node_id : path_entry Value).
  assert (Hl : forall p n, T !! p = Some n <-> p = [] /\ n = mk_node 1 1 ∅).
  { intros p n. unfold T. rewrite lookup_singleton_Some. split; intros [-> ->]; done. }
  assert (Hempty : contains mi_empty (∅ : gmap entry_key (path_entry Value))).
  { split; [apply mi_ok_empty | by rewrite mi_range_empty, map_to_list_empty | done]. }
  pose proof (contains_insert Hempty e (lookup_empty _)) as Hc. eexists. split; [|split].
  - unfold init_map, insert_entry, modify, mbind, action_bind. cbn. rewrite He. reflexivity.
  - exists T. split.
    + exists (<[key_of_entry e := e]> ∅). split; [exact Hc | | | done].
      * split; [by intros p n [-> ->]%Hl|]. intros k x. rewrite lookup_insert_Some, lookup_empty. intros [[<- _]|[_ [=]]].
        exists []. split; [|done]. eexists. by apply Hl.
      * split.
        -- exists (mk_node 1 1 ∅). split; [by apply Hl | done].
        -- intros p n [-> ->]%Hl. simpl. unfold root_node_id. lia.
        -- by intros p q n n' [-> ->]%Hl [-> ->]%Hl.
        -- intros t q [n [[=] _]%Hl].
        -- intros p n [-> ->]%Hl. by vm_compute.
    + intros p Hp. unfold T. rewrite lookup_singleton_ne by done. unfold node_ok, under, with_unit.
      by rewrite kmap_empty, map_filter_empty, map_size_empty.
    + apply Hl. done.
    + by rewrite map_size_empty.
  - done.
Qed.

(** no node is left of an empty map *)
Lemma retained_holds_empty m : holds m ∅ -> internal_size m = 1.
Proof.
  intros [T [[E HE] Hr Hroot _]]. unfold internal_size. pose proof (sh_contains _ _ _ HE) as Hc.
  assert (Honly : forall p n, T !! p = Some n -> p = []).
  { intros p n Hn. destruct (decide (p = [])) as [|Hp]; [done|]. specialize (Hr p Hp). rewrite Hn in Hr.
    destruct Hr as (_ & Hpos & _). unfold under, with_unit in Hpos. rewrite kmap_empty, map_filter_empty, map_size_empty in Hpos. lia. }
  assert (E = {[ key_at T [] := entry_at T [] (mk_node 1 1 ∅) ]}) as HEq.
  { apply map_eq. intros k. apply option_eq. intros e. rewrite lookup_singleton_Some. split.
    - intros He. destruct (ke_entry _ _ (sh_keyed _ _ _ HE) _ _ He) as (p & [n Hn] & ->). pose proof (Honly p n Hn) as ->.
      split; [done|]. rewrite (ke_node _ _ (sh_keyed _ _ _ HE) _ _ Hroot) in He. by simplify_eq.
    - intros [<- <-]. by apply (ke_node _ _ (sh_keyed _ _ _ HE)). }
  rewrite (co_range _ _ Hc), HEq, map_to_list_singleton. done.
Qed.

(** ** Any sequence of calls *)

Inductive call :=
| call_insert (f : list byte) (v : Value)
| call_erase (f : list byte)
| call_clear.

Abbreviation program := (action (retained_topic_map Value)).

(** the result says whether a topic is new, or how many were erased *)
Definition run_call (c : call) : program Z :=
  match c with
  | call_insert f v => insert_or_assign f v
  | call_erase f => erase f
  | call_clear => clear;; mret 0
  end.

Definition spec_call (c : call) A : retained * Z :=
  match c with
  | call_insert f v => (<[f := v]> A, match A !! f with Some _ => 0 | None => 1 end)
  | call_erase f => (delete f A, match A !! f with Some _ => 1 | None => 0 end)
  | call_clear => (∅, 0)
  end.

Fixpoint run_calls (cs : list call) : program (list Z) :=
  match cs with
  | [] => mret []
  | c :: cs => r ← run_call c; rs ← run_calls cs; mret (r :: rs)
  end.

Fixpoint spec_calls (cs : list call) A : retained * list Z :=
  match cs with
  | [] => (A, [])
  | c :: cs => let (A, r) := spec_call c A in let (A, rs) := spec_calls cs A in (A, r :: rs)
  end.

(** the nodes a call may create *)
Definition weight (c : call) : Z := match c with call_insert f _ => Z.of_nat (length (levels f)) | _ => 0 end.
Definition weights (cs : list call) : Z := foldr (fun c w => weight c + w) 0 cs.

(** topics, not topic filters *)
Definition call_plain (c : call) : Prop := match c with call_insert f _ => plain_topic f | _ => True end.

Definition within m A (w : Z) : Prop := holds m A /\ next_node_id m <= 2 + w /\ Z.of_nat (size A) <= w.

Lemma retained_call_within m A w c :
  within m A w -> 0 <= w -> w + weight c < size_max - 2 -> call_plain c ->
  exists m', run_call c m = Return (snd (spec_call c A)) m' /\ within m' (fst (spec_call c A)) (w + weight c).
Proof.
  intros (Hh & Hx & Hsz) Hw Hlt Hplain. destruct c as [f v|f|]; cbn [run_call spec_call weight call_plain fst snd] in *.
  - pose proof (levels_length f). destruct (retained_insert_run m A f v Hh Hplain) as (m' & Hrun & Hh' & Hx'); [split; lia|].
    exists m'. split; [done|]. split; [done|]. split; [lia|]. destruct (A !! f) as [v0|] eqn:Hv.
    + rewrite map_size_insert_Some by by eexists. lia.
    + rewrite map_size_insert_None by done. lia.
  - destruct (retained_erase_run m A f Hh) as (m' & Hrun & Hh' & Hx'). exists m'. split; [done|]. split; [done|]. split; [lia|].
    rewrite map_size_delete. destruct (A !! f); unfold Datatypes.id; lia.
  - destruct (init_run (set_map mi_empty m) eq_refl) as (m' & Hrun & Hh' & Hx'). exists m'. split.
    + etransitivity; [eapply bind_return; etransitivity; [exact (bind_return _ _ m tt _ eq_refl) | exact Hrun] | done].
    + split; [done|]. rewrite map_size_empty. lia.
Qed.

Lemma retained_weight_nonneg c : 0 <= weight c.
Proof. destruct c; simpl; lia. Qed.

Lemma retained_calls_within : forall cs m A w,
  within m A w -> 0 <= w -> w + weights cs < size_max - 2 -> Forall call_plain cs ->
  exists m', run_calls cs m = Return (snd (spec_calls cs A)) m' /\ holds m' (fst (spec_calls cs A)).
Proof.
  assert (Hws : forall cs, 0 <= weights cs) by (induction cs as [|c cs IH]; simpl; [lia | pose proof (retained_weight_nonneg c); lia]).
  induction cs as [|c cs IH]; intros m A w Hin Hw Hlt Hplain; cbn [weights foldr] in *; [exists m; split; [done | apply Hin]|].
  fold (weights cs) in Hlt. apply Forall_cons in Hplain as [Hp Hplain].
  pose proof (Hws cs). pose proof (retained_weight_nonneg c). destruct (retained_call_within m A w c Hin Hw) as (m1 & Hrun1 & Hin1); [lia | done|].
  cbn [run_calls spec_calls]. destruct (spec_call c A) as [A1 r]. cbn [fst snd] in *.
  destruct (IH m1 A1 (w + weight c) Hin1) as (m2 & Hrun2 & Hh2); [lia | lia | done|].
  destruct (spec_calls cs A1) as [A2 rs]. cbn [fst snd] in *. exists m2. split; [|done].
  etransitivity; [exact (bind_return _ _ _ _ _ Hrun1)|]. etransitivity; [exact (bind_return _ _ _ _ _ Hrun2) | done].
Qed.

(** C14: after the constructor and any sequence of insertions, erasures and
    clearings of topics, with room for the nodes, the retained topic map
    holds what a finite map from topics to values holds: the calls return
    what they do on the map, [size] is its size and no node is left when it
    is empty.  A topic filter finds only values of topics it matches, each
    once; it finds all of them unless it has both wildcards, or starts with
    "+" while a topic starts with "$". *)
Theorem retained_topic_map_refines (cs : list call) :
  weights cs < size_max - 2 -> Forall call_plain cs ->
  exists m0 m, let A := fst (spec_calls cs ∅) in
    make_retained_topic_map = Return tt m0 /\
    run_calls cs m0 = Return (snd (spec_calls cs ∅)) m /\
    map_size m = Z.of_nat (size A) /\
    (A = ∅ -> internal_size m = 1) /\
    forall topic_filter, exists l, find topic_filter m = Return l m /\ l ⊆+ spec_find A topic_filter /\
      (searchable A topic_filter -> l ≡ₚ spec_find A topic_filter).
Proof.
  intros Hw Hplain. destruct (init_run (mk_retained_topic_map mi_empty 0 0 (0, [])) eq_refl) as (m0 & Hrun0 & Hh0 & Hx0).
  destruct (retained_calls_within cs m0 ∅ 0) as (m & Hrun & Hh); [|lia | lia | done |].
  - split; [done|]. rewrite map_size_empty. lia.
  - exists m0, m. split; [exact Hrun0|]. split; [done|]. split; [by destruct Hh as [T [_ _ _ Hm]]|]. split.
    + intros He. rewrite He in Hh. by apply retained_holds_empty.
    + intros topic_filter. by apply find_holds.
Qed.
End spec.

(** ** Examples, with lists as container *)
Section examples.
#[local] Existing Instance ListMultiIndex.list_multi_index.
#[local] Existing Instance ListMultiIndex.list_multi_index_ok.

(** topics with common levels, one that is erased and one of the system *)
Lemma retained_topic_map_refines_witness :
  let cs := [call_insert [x61; x2f; x62] 1; call_insert [x61; x2f; x63] 2; call_insert [x24; x73] 3; call_insert [x61; x2f; x62] 4;
             call_erase [x61; x2f; x63]; call_erase [x61]] in
  (weights cs < size_max - 2 /\ Forall call_plain cs) /\
  exists m0 m : retained_topic_map Z, make_retained_topic_map = Return tt m0 /\
    run_calls cs m0 = Return [1; 1; 1; 0; 1; 0] m /\ map_size m = 2 /\ find [x23] m = Return [4] m.
Proof.
  intros cs. assert (Hw : weights cs < size_max - 2) by (vm_compute; reflexivity).
  assert (Hp : Forall call_plain cs) by (unfold cs; repeat constructor; simpl; done). split; [split; [exact Hw | exact Hp]|].
  destruct (retained_topic_map_refines cs Hw Hp) as (m0 & m & Hinit & Hrun & Hsize & _ & Hfind). exists m0, m.
  split; [exact Hinit|]. split; [rewrite Hrun; vm_compute; reflexivity|]. split; [rewrite Hsize; vm_compute; reflexivity|].
  destruct (Hfind [x23]) as (l & Hl & _ & Hall). rewrite Hl. f_equal. apply Permutation_singleton_r. rewrite Hall.
  - vm_compute. reflexivity.
  - split; [intros [=]|]. intros _. vm_compute levels. by intros ?%list_elem_of_singleton.
Defined.

(** a program on a new map *)
Definition on_new {A} (p : action (retained_topic_map Z) A) : option A :=
  match make_retained_topic_map with
  | Return _ m => match p m with Return a _ => Some a | _ => None end
  | _ => None
  end.

(** "+/#" finds what is below one of the nodes "+" stands for: [return false]
    leaves the loop over them *)
Lemma hash_after_plus_incomplete :
  on_new (insert_or_assign [x61; x2f; x62] 1;; insert_or_assign [x63; x2f; x62] 2;; find [x2b; x2f; x23]) = Some [1] \/
  on_new (insert_or_assign [x61; x2f; x62] 1;; insert_or_assign [x63; x2f; x62] 2;; find [x2b; x2f; x23]) = Some [2].
Proof. vm_compute. auto. Qed.

(** "+" finds no topic that comes after one that starts with "$" in the
    index *)
Lemma plus_stops_at_dollar :
  on_new (insert_or_assign [x24] 1;; insert_or_assign [x61] 2;; find [x2b]) = Some [].
Proof. by vm_compute. Qed.

(** a topic with a wildcard is refused after the levels before the wildcard
    were created *)
Lemma refused_topic_leaves_nodes :
  match make_retained_topic_map with
  | Return _ m =>
    match insert_or_assign [x61; x2f; x2b] 1 m with
    | Throw no_wildcards_allowed m => map_size m = 0 /\ internal_size m = 2
    | _ => False
    end
  | _ => False
  end.
Proof. by vm_compute. Qed.
End examples.
