(* ===== verification/Security.v ===== *)
(** * Who may publish and subscribe: tool/include/broker/security.hpp

    Users with the way they log in, groups of users, and a list of rules that
    allow or deny topic filters to users and groups.  The rules are also kept
    by topic filter in two subscription maps, one for publishing and one for
    subscribing.

    A [std::map] is a list of its entries in the order of the keys, a
    [std::set] the list of its elements in order.  The hash function is that
    of the bundled picosha2, and the comparison without case is that of
    Boost.Algorithm: both are parameters.  Log output is left out. *)
From Stdlib Require Import Strings.String.
From S2P Require Import Prelude Boost Action TopicFilter SubscriptionMap.

(** ** [json_remove_comments] *)

Record comment_state := mk_comment_state {
  inside_comment : bool;
  inside_single_quote : bool;
  inside_double_quote : bool;
  inside_block_comment : bool;
}.

Definition no_comment : comment_state := mk_comment_state false false false false.

(** the end of the loop body, with [inside_block_comment] not set *)
Definition comment_output (c : byte) (s : comment_state) (result : list byte) : comment_state * list byte :=
  let s := mk_comment_state (inside_comment s && negb (bool_decide (c = x0a))) (inside_single_quote s) (inside_double_quote s) false in
  if negb (inside_comment s) then
    let single := if negb (inside_double_quote s) && negb (inside_single_quote s) && bool_decide (c = x27)
                  then negb (inside_single_quote s) else inside_single_quote s in
    let double := if negb (inside_comment s) && negb single && bool_decide (c = x22)
                  then negb (inside_double_quote s) else inside_double_quote s in
    (mk_comment_state (inside_comment s) single double false, result ++ [c])
  else (s, result).

Fixpoint json_remove_comments_loop (input : list byte) (s : comment_state) (result : list byte) : list byte :=
  match input with
  | [] => result
  | c :: input =>
    if negb (inside_comment s) && negb (inside_block_comment s) && negb (inside_double_quote s) && negb (inside_single_quote s) &&
       bool_decide (c = x2f) then
      match input with
      | [] => result ++ [c]
      | next :: input =>
        if bool_decide (next = x2f) then json_remove_comments_loop input (mk_comment_state true false false false) result
        else if bool_decide (next = x2a) then json_remove_comments_loop input (mk_comment_state false false false true) result
        else json_remove_comments_loop input s (result ++ [c; next])
      end
    else if inside_block_comment s then
      match input with
      | x2f :: input' =>
        if bool_decide (c = x2a)
        then json_remove_comments_loop input' (mk_comment_state (inside_comment s) (inside_single_quote s) (inside_double_quote s) false) result
        else json_remove_comments_loop input s result
      | _ => json_remove_comments_loop input s result
      end
    else
      let '(s, result) := comment_output c s result in json_remove_comments_loop input s result
  end.

Definition json_remove_comments (input : list byte) : list byte := json_remove_comments_loop input no_comment [].

(** ** Ordered maps with string keys *)

Abbreviation string_map V := (list (list byte * V)).

Definition map_find {V} (k : list byte) (m : string_map V) : option V :=
  snd <$> List.find (fun e => bool_decide (fst e = k)) m.

(** [std::map::insert] does nothing when the key is there *)
Fixpoint map_insert {V} (k : list byte) (v : V) (m : string_map V) : string_map V :=
  match m with
  | [] => [(k, v)]
  | (k', v') :: m' =>
    if bytes_lt k k' then (k, v) :: m else if bool_decide (k = k') then m else (k', v') :: map_insert k v m'
  end.

Fixpoint set_insert (k : list byte) (s : list (list byte)) : list (list byte) :=
  match s with
  | [] => [k]
  | k' :: s' => if bytes_lt k k' then k :: s else if bool_decide (k = k') then s else k' :: set_insert k s'
  end.

(** ** Data *)

Definition str (s : String.string) : list byte := String.list_byte_of_string s.

Definition any_group_name : list byte := str "@any".

Inductive method := method_sha256 | method_plain_password | method_client_cert | method_anonymous | method_unauthenticated.

#[export] Instance method_eq_dec : EqDecision method.
Proof. solve_decision. Defined.

(** [groups], which nothing uses, is left out *)
Record authentication := mk_authentication {
  auth_method : method;
  digest : option (list byte);
  salt : list byte;
}.

Inductive auth_type := deny | allow | none.

#[export] Instance auth_type_eq_dec : EqDecision auth_type.
Proof. solve_decision. Defined.

Record authorization := mk_authorization {
  topic_tokens : list (list byte);
  topic : list byte;
  rule_nr : Z;
  sub_type : auth_type;
  sub : list (list byte);
  pub_type : auth_type;
  pub : list (list byte);
}.

(** the name of a group is its key *)
Record group := mk_group { members : list (list byte) }.

Abbreviation auth_map := (subscription_map (gmap (list byte) (auth_type * Z))).

Record security := mk_security {
  authentication_ : string_map authentication;
  groups_ : string_map group;
  authorization_ : list authorization;
  anonymous : option (list byte);
  unauthenticated : option (list byte);
  auth_pub_map : auth_map;
  auth_sub_map : auth_map;
}.

Definition make_security : security := mk_security [] [] [] None None make_subscription_map make_subscription_map.

Definition set_authentication_ (x : string_map authentication) (s : security) : security :=
  mk_security x (groups_ s) (authorization_ s) (anonymous s) (unauthenticated s) (auth_pub_map s) (auth_sub_map s).
Definition set_groups_ (x : string_map group) (s : security) : security :=
  mk_security (authentication_ s) x (authorization_ s) (anonymous s) (unauthenticated s) (auth_pub_map s) (auth_sub_map s).
Definition set_authorization_ (x : list authorization) (s : security) : security :=
  mk_security (authentication_ s) (groups_ s) x (anonymous s) (unauthenticated s) (auth_pub_map s) (auth_sub_map s).
Definition set_anonymous (x : option (list byte)) (s : security) : security :=
  mk_security (authentication_ s) (groups_ s) (authorization_ s) x (unauthenticated s) (auth_pub_map s) (auth_sub_map s).
Definition set_unauthenticated (x : option (list byte)) (s : security) : security :=
  mk_security (authentication_ s) (groups_ s) (authorization_ s) (anonymous s) x (auth_pub_map s) (auth_sub_map s).
Definition set_auth_pub_map (x : auth_map) (s : security) : security :=
  mk_security (authentication_ s) (groups_ s) (authorization_ s) (anonymous s) (unauthenticated s) x (auth_sub_map s).
Definition set_auth_sub_map (x : auth_map) (s : security) : security :=
  mk_security (authentication_ s) (groups_ s) (authorization_ s) (anonymous s) (unauthenticated s) (auth_pub_map s) x.

Abbreviation program := (action security).

(** a member function of a part of the object *)
Definition on_part {S P A} (part : S -> P) (set_part : P -> S -> S) (p : action P A) : action S A := fun s =>
  match p (part s) with
  | Return a x => Return a (set_part x s)
  | Throw e x => Throw e (set_part x s)
  | Undefined => Undefined
  end.
Definition on_pub_map {A} : action auth_map A -> program A := on_part auth_pub_map set_auth_pub_map.
Definition on_sub_map {A} : action auth_map A -> program A := on_part auth_sub_map set_auth_sub_map.

(** ** Logging in *)

Definition login_anonymous (s : security) : option (list byte) := anonymous s.
Definition login_unauthenticated (s : security) : option (list byte) := unauthenticated s.

Section login.
Variable sha256hash : list byte -> list byte.
Variable iequals : list byte -> list byte -> bool.

Definition login_cert (username : list byte) (s : security) : bool :=
  match map_find username (authentication_ s) with
  | Some i => bool_decide (auth_method i = method_client_cert)
  | None => false
  end.

Definition login (username password : list byte) : program (option (list byte)) :=
  s ← get;
  match map_find username (authentication_ s) with
  | Some i =>
    match auth_method i with
    | method_sha256 =>
      match digest i with
      | Some d => mret (if iequals d (sha256hash (salt i ++ password)) then Some username else None)
      | None => throw bad_optional_access
      end
    | method_plain_password =>
      match digest i with
      | Some d => mret (if bool_decide (d = password) then Some username else None)
      | None => throw bad_optional_access
      end
    | _ => mret None
    end
  | None => mret None
  end.
End login.

(** ** Names and rules *)

Definition get_auth_type {S} (type : list byte) : action S auth_type :=
  if bool_decide (type = str "allow") then mret allow
  else if bool_decide (type = str "deny") then mret deny
  else throw invalid_authorization_type.

Definition is_valid_group_name (name : list byte) : bool := bool_decide (head name = Some x40).
Definition is_valid_user_name (name : list byte) : bool := negb (bool_decide (name = [])) && negb (bool_decide (head name = Some x40)).

(** in [std::size_t] *)
Definition get_next_rule_nr (s : security) : Z :=
  (foldl (fun nr i => Z.max nr (rule_nr i)) 0 (authorization_ s) + 1) mod 2 ^ 64.

(** the levels of the filter *)
Definition get_topic_filter_tokens (topic_filter : list byte) : list (list byte) :=
  match topic_filter_tokenizer topic_filter (fun str result => mret (result ++ [str], true)) [] tt with
  | Return (result, _) _ => result
  | _ => []
  end.

Definition absent {V} (k : list byte) (m : string_map V) : bool := match map_find k m with Some _ => false | None => true end.

(** a name a rule gives must be that of a group or of a user *)
Definition validate_entry (name : list byte) : program unit :=
  s ← get;
  if is_valid_group_name name && absent name (groups_ s) then throw unknown_group
  else if is_valid_user_name name && absent name (authentication_ s) then throw unknown_user
  else mret tt.

Definition insert_sub (filter name : list byte) (e : auth_type * Z) : program unit :=
  on_sub_map (multiple_subscription_map.insert_or_assign filter name e);; mret tt.
Definition insert_pub (filter name : list byte) (e : auth_type * Z) : program unit :=
  on_pub_map (multiple_subscription_map.insert_or_assign filter name e);; mret tt.

(** the loops of [validate] over the names of a rule *)
Definition validate_rule (i : authorization) : program unit :=
  for_each (fun j _ =>
    validate_entry j;;
    if is_valid_user_name j || is_valid_group_name j then insert_sub (topic i) j (sub_type i, rule_nr i) else mret tt) (sub i) tt;;
  for_each (fun j _ =>
    validate_entry j;;
    if is_valid_user_name j || is_valid_group_name j then insert_pub (topic i) j (pub_type i, rule_nr i) else mret tt) (pub i) tt.

Definition validate : program unit :=
  s ← get;
  for_each (fun i _ => for_each (fun j _ =>
    if is_valid_user_name j && absent j (authentication_ s) then throw unknown_user else mret tt) (members (snd i)) tt) (groups_ s) tt;;
  for_each (fun i _ => validate_rule i) (authorization_ s) tt.

Definition push_authorization (auth : authorization) : program unit := modify (fun s => set_authorization_ (authorization_ s ++ [auth]) s).
Definition insert_authentication (name : list byte) (a : authentication) : program unit :=
  modify (fun s => set_authentication_ (map_insert name a (authentication_ s)) s).
Definition insert_group (name : list byte) (g : group) : program unit := modify (fun s => set_groups_ (map_insert name g (groups_ s)) s).

Definition default_config : program unit :=
  let username := str "anonymous" in
  insert_authentication username (mk_authentication method_anonymous None []);;
  modify (set_anonymous (Some username));;
  s ← get;
  let topic := str "#" in
  push_authorization (mk_authorization (get_topic_filter_tokens topic) topic (get_next_rule_nr s)
    allow (set_insert username []) allow (set_insert username []));;
  insert_group any_group_name (mk_group []);;
  validate.

Definition check_name (j : list byte) (_ : unit) : program unit :=
  (if negb (is_valid_user_name j) && negb (is_valid_group_name j) then throw invalid_name else mret tt);;
  validate_entry j.

Definition add_auth (topic_filter : list byte) (pub : list (list byte)) (auth_pub_type : auth_type) (sub : list (list byte))
    (auth_sub_type : auth_type) : program Z :=
  for_each check_name pub tt;;
  for_each check_name sub tt;;
  s ← get;
  let rule_nr := get_next_rule_nr s in
  for_each (fun j _ => insert_sub topic_filter j (auth_sub_type, rule_nr)) sub tt;;
  for_each (fun j _ => insert_pub topic_filter j (auth_pub_type, rule_nr)) pub tt;;
  push_authorization (mk_authorization (get_topic_filter_tokens topic_filter) topic_filter rule_nr auth_sub_type sub auth_pub_type pub);;
  mret rule_nr.

(** the rules without the first with the number, and that rule *)
Fixpoint take_rule (nr : Z) (rules : list authorization) : option (authorization * list authorization) :=
  match rules with
  | [] => None
  | i :: rules =>
    if rule_nr i =? nr then Some (i, rules)
    else match take_rule nr rules with Some (j, rules) => Some (j, i :: rules) | None => None end
  end.

Definition remove_auth (rule_nr : Z) : program unit :=
  s ← get;
  match take_rule rule_nr (authorization_ s) with
  | None => mret tt
  | Some (i, rules) =>
    for_each (fun j _ => on_sub_map (multiple_subscription_map.erase (topic i) j);; mret tt) (sub i) tt;;
    for_each (fun j _ => on_pub_map (multiple_subscription_map.erase (topic i) j);; mret tt) (pub i) tt;;
    modify (set_authorization_ rules)
  end.

(** ** [load_json]

    The configuration is a Boost property tree.  [get_child] and [get] with a
    key that is missing throw. *)
Section load_json.
Context `{PT : BoostPropertyTree}.

Definition get_child (key : list byte) (t : ptree) : program ptree :=
  match get_child_optional key t with Some c => mret c | None => throw bad_path end.
Definition get_string (key : list byte) (t : ptree) : program (list byte) := c ← get_child key t; mret (get_value c).

Definition load_authentication (i : ptree) : program unit :=
  name ← get_string (str "name") i;
  (if negb (is_valid_user_name name) then throw invalid_user_name else mret tt);;
  method ← get_string (str "method") i;
  if bool_decide (method = str "sha256") then
    digest ← get_string (str "digest") i;
    let salt := match get_child_optional (str "salt") i with Some c => get_value c | None => [] end in
    insert_authentication name (mk_authentication method_sha256 (Some digest) salt)
  else if bool_decide (method = str "plain_password") then
    digest ← get_string (str "password") i;
    insert_authentication name (mk_authentication method_plain_password (Some digest) [])
  else if bool_decide (method = str "client_cert") then
    insert_authentication name (mk_authentication method_client_cert None [])
  else if bool_decide (method = str "anonymous") then
    s ← get;
    match anonymous s with
    | Some _ => throw second_anonymous
    | None => modify (set_anonymous (Some name));; insert_authentication name (mk_authentication method_anonymous None [])
    end
  else if bool_decide (method = str "unauthenticated") then
    s ← get;
    match unauthenticated s with
    | Some _ => throw second_unauthenticated
    | None => modify (set_unauthenticated (Some name));; insert_authentication name (mk_authentication method_unauthenticated None [])
    end
  else throw invalid_method.

Definition load_member (j : ptree) (members : list (list byte)) : program (list (list byte)) :=
  let username := get_value j in
  (if negb (is_valid_user_name username) then throw invalid_user_name else mret tt);;
  mret (members ++ [username]).

Definition load_group (i : ptree) : program unit :=
  name ← get_string (str "name") i;
  (if negb (is_valid_group_name name) then throw invalid_group_name else mret tt);;
  members ← match get_child_optional (str "members") i with
            | Some m => for_each load_member (children m) []
            | None => mret []
            end;
  insert_group name (mk_group members).

(** the names of a list are added to a set *)
Definition insert_names (t : ptree) (names : list (list byte)) : list (list byte) :=
  foldl (fun names j => set_insert (get_value j) names) names (children t).

(** the branch of a rule under [allow] or [deny] *)
Definition load_type (key : list byte) (type : auth_type) (i : ptree) (auth : authorization) : authorization :=
  match get_child_optional key i with
  | None => auth
  | Some branch =>
    let auth :=
      match get_child_optional (str "sub") branch with
      | Some names => mk_authorization (topic_tokens auth) (topic auth) (rule_nr auth) type (insert_names names (sub auth)) (pub_type auth) (pub auth)
      | None => auth
      end in
    match get_child_optional (str "pub") branch with
    | Some names => mk_authorization (topic_tokens auth) (topic auth) (rule_nr auth) (sub_type auth) (sub auth) type (insert_names names (pub auth))
    | None => auth
    end
  end.

Definition load_authorization (i : ptree) : program unit :=
  name ← get_string (str "topic") i;
  (if negb (validate_topic_filter name) then throw invalid_topic_filter else mret tt);;
  s ← get;
  let auth := mk_authorization (get_topic_filter_tokens name) name (get_next_rule_nr s) none [] none [] in
  push_authorization (load_type (str "deny") deny i (load_type (str "allow") allow i auth)).

Definition load_json (input : list byte) : program unit :=
  root ← match read_json (json_remove_comments input) with Some root => mret root | None => throw json_parser_error end;
  insert_group any_group_name (mk_group []);;
  authentications ← get_child (str "authentication") root;
  for_each (fun i _ => load_authentication i) (children authentications) tt;;
  match get_child_optional (str "group") root with
  | Some groups => for_each (fun i _ => load_group i) (children groups) tt
  | None => mret tt
  end;;
  authorizations ← get_child (str "authorization") root;
  for_each (fun i _ => load_authorization i) (children authorizations) tt;;
  validate.
End load_json.

(** ** Decisions *)

Definition in_group (username : list byte) (i : list byte * group) : bool :=
  bool_decide (fst i = any_group_name) || bool_decide (username ∈ members (snd i)).

Definition username_and_groups (username : list byte) (s : security) : list (list byte) :=
  foldl (fun names i => if in_group username i then set_insert (fst i) names else names) (set_insert username []) (groups_ s).

(** the rules the callback is called with: [std::set_intersection] of the
    names is not empty *)
Definition get_auth_sub_by_user (username : list byte) (s : security) : list authorization :=
  List.filter (fun i => negb (bool_decide (sub_type i = none)) &&
    existsb (fun name => bool_decide (name ∈ username_and_groups username s)) (sub i)) (authorization_ s).

Definition auth_pub (topic username : list byte) : program auth_type :=
  s ← get;
  found ← on_pub_map (multiple_subscription_map.find topic);
  mret (fst (foldl (fun '(result_type, priority) '(allowed_username, entry) =>
    if bool_decide (allowed_username ∈ username_and_groups username s) && (priority <=? snd entry) then entry
    else (result_type, priority)) (deny, 0) found)).

(** the two maps the callback of [auth_sub] fills *)
Definition auth_sub_entry (maps : gmap (list byte) auth_type * gmap (list byte) Z) (found : list byte * (auth_type * Z)) :
    option (gmap (list byte) auth_type * gmap (list byte) Z) :=
  let '(result, priorities) := maps in
  let '(allowed_username, entry) := found in
  match result !! allowed_username with
  | None => Some (<[allowed_username := fst entry]> result, <[allowed_username := snd entry]> priorities)
  | Some _ =>
    match priorities !! allowed_username with
    | None => None
    | Some p =>
      if p <=? snd entry then Some (<[allowed_username := fst entry]> result, <[allowed_username := snd entry]> priorities)
      else Some maps
    end
  end.

Definition auth_sub (topic : list byte) : program (gmap (list byte) auth_type) :=
  found ← on_sub_map (multiple_subscription_map.find topic);
  maps ← for_each (fun x maps => deref (auth_sub_entry maps x)) found (∅, ∅);
  mret (fst maps).

Fixpoint first_group (username : list byte) (result : gmap (list byte) auth_type) (groups : string_map group) : auth_type :=
  match groups with
  | [] => deny
  | i :: groups =>
    match (if in_group username i then result !! fst i else None) with
    | Some j => j
    | None => first_group username result groups
    end
  end.

Definition auth_sub_user (result : gmap (list byte) auth_type) (username : list byte) (s : security) : auth_type :=
  match result !! username with Some i => i | None => first_group username result (groups_ s) end.

(** *** Topic filters that are allowed *)

Definition is_hash (level : list byte) : bool := bool_decide (level = str "#").
Definition is_plus (level : list byte) : bool := bool_decide (level = str "+").

Definition append_result (result : option (list byte)) (token : list byte) : option (list byte) :=
  match result with Some r => Some (r ++ topic_filter_separator :: token) | None => Some token end.

Fixpoint is_subscribe_allowed_loop (authorized_filter : list (list byte)) (subscription : list byte) (result : option (list byte)) :
    option (list byte) :=
  match authorized_filter with
  | [] => None
  | auth :: filter =>
    if is_hash auth then append_result result subscription
    else
      let '(sub, next) := topic_filter_tokenizer_next subscription in
      if is_hash sub then foldl append_result (append_result result auth) filter
      else if negb (is_plus auth) && negb (is_plus sub) && negb (bool_decide (auth = sub)) then None
      else
        let result := append_result result (if is_plus auth then sub else auth) in
        match next with
        | [] => if bool_decide (filter = []) then result else None
        | _ :: subscription => is_subscribe_allowed_loop filter subscription result
        end
  end.

Definition is_subscribe_allowed (authorized_filter : list (list byte)) (subscription_filter : list byte) : option (list byte) :=
  is_subscribe_allowed_loop authorized_filter subscription_filter None.

Definition is_subscribe_denied (deny_filter : list (list byte)) (subscription_filter : list byte) : bool :=
  match topic_filter_tokenizer subscription_filter (fun sub '(filter, result) =>
    match filter with
    | [] => mret (([], false), false)
    | denied :: filter =>
      mret (if bool_decide (denied = sub) then ((filter, result), true)
            else if is_hash denied then ((filter, true), false)
            else if is_hash sub then ((filter, false), false)
            else if is_plus denied then ((filter, true), true)
            else ((filter, false), false))
    end) (deny_filter, true) tt with
  | Return ((_, result), tokens_count) _ => result && (tokens_count =? Z.of_nat (length deny_filter))
  | _ => false
  end.

(** a rule that denies erases all entries or none *)
Definition get_auth_sub_topics (username topic_filter : list byte) (s : security) : list (list byte) :=
  foldl (fun auth_topics i =>
    if bool_decide (sub_type i = allow) then
      match is_subscribe_allowed (topic_tokens i) topic_filter with Some entry => auth_topics ++ [entry] | None => auth_topics end
    else List.filter (fun _ => negb (is_subscribe_denied (topic_tokens i) topic_filter)) auth_topics)
  [] (get_auth_sub_by_user username s).

Definition is_subscribe_authorized (username topic_filter : list byte) (s : security) : bool :=
  negb (bool_decide (get_auth_sub_topics username topic_filter s = [])).
