(* ===== verification/SecurityFilters.v ===== *)
(** * Which filters the rules let a user subscribe to

    [is_subscribe_allowed] computes the filter of what both an allowed and a
    requested filter match, [is_subscribe_denied] whether a denied filter
    matches all that a requested one does, and [get_auth_sub_topics] combines
    them; then, the comments of the configuration file. *)
From Stdlib Require Import Strings.String.
From S2P Require Import Prelude Action TopicFilter SubscriptionMap SubscriptionTree SubscriptionSpec Security.

(** ** The intersection of two filters *)
Section allowed.
Abbreviation sep := topic_filter_separator.
Abbreviation levels_list := (list (list byte)).

(** the levels of the filter of what both match; none match the empty filter *)
Fixpoint meet (auth sub : levels_list) : option levels_list :=
  match auth, sub with
  | a :: auth, s :: sub =>
    if decide (a = [hash]) then Some (s :: sub)
    else if decide (s = [hash]) then Some (a :: auth)
    else if decide (a = [plus] \/ s = [plus] \/ a = s) then
      let r := if decide (a = [plus]) then s else a in
      match sub with
      | [] => if decide (auth = []) then Some [r] else None
      | _ => cons r <$> meet auth sub
      end
    else None
  | _, _ => None
  end.

Definition append_levels (result : option (list byte)) (ls : levels_list) : option (list byte) := foldl append_result result ls.

Lemma append_join r : forall ls, ls <> [] -> append_levels (Some r) ls = Some (r ++ sep :: join ls).
Proof.
  intros ls. revert r. induction ls as [|l ls IH]; intros r Hls; [done|]. cbn [append_levels foldl append_result] in *.
  destruct ls as [|l' ls]; [done|]. unfold append_levels in IH. rewrite IH by done. by rewrite <- app_assoc.
Qed.

Lemma append_none ls : ls <> [] -> append_levels None ls = Some (join ls).
Proof.
  destruct ls as [|l ls]; intros Hls; [done|]. cbn [append_levels foldl append_result]. destruct ls as [|l' ls]; [done|].
  by apply (append_join l).
Qed.

Lemma append_string result str : append_result result str = append_levels result (levels str).
Proof.
  pose proof (levels_nonempty str). destruct result as [r|]; cbn [append_result].
  - by rewrite append_join, join_levels.
  - by rewrite append_none, join_levels.
Qed.

Lemma is_hash_eq l : is_hash l = bool_decide (l = [hash]).
Proof. done. Qed.
Lemma is_plus_eq l : is_plus l = bool_decide (l = [plus]).
Proof. done. Qed.

Lemma allowed_loop_meet : forall auth str result,
  is_subscribe_allowed_loop auth str result =
  match meet auth (levels str) with Some ls => append_levels result ls | None => None end.
Proof.
  induction auth as [|a auth IH]; intros str result; [done|]. cbn [is_subscribe_allowed_loop]. rewrite is_hash_eq.
  pose proof (levels_nonempty str) as Hne. destruct (decide (a = [hash])) as [->|Ha].
  { rewrite bool_decide_eq_true_2 by done. rewrite append_string. destruct (levels str) as [|s sub]; [done|].
    cbn [meet]. by rewrite decide_True. }
  rewrite bool_decide_eq_false_2 by done. clear Hne. destruct (levels_cases str) as [[Hs Hl]|(s & rest & -> & Hs & Hl)]; rewrite Hl.
  - rewrite next_one by done. rewrite is_hash_eq, !is_plus_eq. cbn [meet]. rewrite decide_False by done.
    destruct (decide (str = [hash])) as [->|Hh]; [by rewrite bool_decide_eq_true_2|]. rewrite bool_decide_eq_false_2 by done.
    destruct (decide (a = [plus])) as [->|Hp].
    + rewrite bool_decide_eq_true_2, decide_True by auto. by destruct auth.
    + rewrite (bool_decide_eq_false_2 (a = [plus])) by done. destruct (decide (str = [plus])) as [->|Hq].
      * rewrite decide_True by auto. by destruct auth.
      * rewrite (bool_decide_eq_false_2 (str = [plus])) by done. destruct (decide (a = str)) as [->|Hne].
        -- rewrite decide_True by auto. rewrite (bool_decide_eq_true_2 (str = str)) by done. by destruct auth.
        -- rewrite decide_False by tauto. by rewrite bool_decide_eq_false_2.
  - rewrite next_app by done. rewrite is_hash_eq, !is_plus_eq. cbn [meet]. rewrite decide_False by done.
    destruct (decide (s = [hash])) as [->|Hh]; [by rewrite bool_decide_eq_true_2|]. rewrite bool_decide_eq_false_2 by done.
    pose proof (levels_nonempty rest) as Hrest.
    assert (Hstep : forall r, is_subscribe_allowed_loop auth rest (append_result result r) =
      match (match levels rest with [] => if decide (auth = []) then Some [r] else None | _ => cons r <$> meet auth (levels rest) end) with
      | Some ls => append_levels result ls | None => None end).
    { intros r. rewrite IH. destruct (levels rest); [done|]. by destruct (meet auth _). }
    destruct (decide (a = [plus])) as [->|Hp].
    + rewrite bool_decide_eq_true_2, decide_True by auto. cbn [negb andb]. apply Hstep.
    + rewrite (bool_decide_eq_false_2 (a = [plus])) by done. destruct (decide (s = [plus])) as [->|Hq].
      * rewrite decide_True by auto. cbn [negb andb]. apply Hstep.
      * rewrite (bool_decide_eq_false_2 (s = [plus])) by done. destruct (decide (a = s)) as [->|Hne].
        -- rewrite decide_True by auto. rewrite (bool_decide_eq_true_2 (s = s)) by done. cbn [negb andb]. apply Hstep.
        -- rewrite decide_False by tauto. by rewrite bool_decide_eq_false_2.
Qed.

Lemma tokens_levels f : get_topic_filter_tokens f = levels f.
Proof.
  unfold get_topic_filter_tokens. rewrite topic_filter_tokenizer_levels.
  enough (forall ls acc (c : Z), ls <> [] -> exists c', each_level (fun str result => mret (result ++ [str], true)) ls c acc tt = Return (acc ++ ls, c') tt) as H.
  { destruct (H (levels f) [] 1 (levels_nonempty f)) as [c' ->]. done. }
  induction ls as [|l ls IH]; intros acc c Hls; [done|]. cbn [each_level]. unfold mbind, action_bind, mret at 1, action_ret at 1.
  destruct ls as [|l' ls]; [by exists c|]. destruct (IH (acc ++ [l]) (c + 1) ltac:(done)) as [c' Hc]. exists c'. by rewrite Hc, <- app_assoc.
Qed.

Lemma meet_nonempty : forall auth sub ls, meet auth sub = Some ls -> ls <> [].
Proof.
  intros [|a auth] [|s sub] ls; cbn [meet]; try done. destruct (decide (a = [hash])); [by intros [= <-]|].
  destruct (decide (s = [hash])); [by intros [= <-]|]. destruct (decide _); [|done].
  destruct sub; [destruct (decide (auth = [])); [by intros [= <-] | done]|]. destruct (meet auth _); [by intros [= <-] | done].
Qed.

Lemma allowed_meet auth f : is_subscribe_allowed auth f = join <$> meet auth (levels f).
Proof.
  unfold is_subscribe_allowed. rewrite allowed_loop_meet. destruct (meet auth (levels f)) as [ls|] eqn:Hm; [|done].
  apply append_none. by eapply meet_nonempty.
Qed.

Lemma levels_match_cons f fs t ts :
  (f = [hash] -> fs = []) ->
  levels_match (f :: fs) (t :: ts) = bool_decide (f = [hash]) || (bool_decide (f = t \/ f = [plus]) && levels_match fs ts).
Proof.
  intros Hf. cbn [levels_match]. destruct (decide (f = [hash])) as [->|Hne].
  - rewrite (bool_decide_eq_true_2 ([hash] = [hash] /\ fs = [])), (bool_decide_eq_true_2 ([hash] = [hash])) by auto. done.
  - rewrite (bool_decide_eq_false_2 (f = [hash] /\ fs = [])), (bool_decide_eq_false_2 (f = [hash])) by tauto. done.
Qed.

Lemma valid_hash_last f fs : valid_levels (f :: fs) -> f = [hash] -> fs = [].
Proof. intros [[->|[[_ ?]|Hl]] _] Hf; [done | done|]. subst f. exfalso. apply (Hl hash); set_solver. Qed.

(** what both filters match is what their meet matches *)
Lemma meet_match : forall auth sub ts, valid_levels auth -> valid_levels sub -> auth <> [] -> sub <> [] ->
  levels_match auth ts && levels_match sub ts = match meet auth sub with Some ls => levels_match ls ts | None => false end.
Proof.
  induction auth as [|a auth IH]; intros [|s sub] [|t ts] Ha Hs Hna Hns; try done.
  { destruct (meet (a :: auth) (s :: sub)) as [ls|] eqn:Hm; [|done]. apply meet_nonempty in Hm. by destruct ls. }
  pose proof (valid_hash_last _ _ Ha) as Hha. pose proof (valid_hash_last _ _ Hs) as Hhs. destruct Ha as [Ha Hva], Hs as [Hs Hvs].
  cbn [meet]. rewrite !levels_match_cons by done. destruct (decide (a = [hash])) as [->|Hah].
  { rewrite bool_decide_eq_true_2 by done. cbn [orb andb]. by rewrite levels_match_cons. }
  rewrite (bool_decide_eq_false_2 (a = [hash])) by done. cbn [orb]. destruct (decide (s = [hash])) as [->|Hsh].
  { rewrite (bool_decide_eq_true_2 ([hash] = [hash])) by done. cbn [orb]. rewrite andb_true_r, levels_match_cons by done.
    by rewrite (bool_decide_eq_false_2 (a = [hash])). }
  rewrite (bool_decide_eq_false_2 (s = [hash])) by done. cbn [orb].
  assert (Hhead : bool_decide (a = t \/ a = [plus]) && bool_decide (s = t \/ s = [plus]) =
    bool_decide (a = [plus] \/ s = [plus] \/ a = s) && bool_decide ((if decide (a = [plus]) then s else a) = t \/ (if decide (a = [plus]) then s else a) = [plus])).
  { apply eq_true_iff_eq. rewrite !andb_true_iff, !bool_decide_eq_true. destruct (decide (a = [plus])) as [->|Hp]; [tauto|].
    split; [intros [[->|?] [->|?]]; tauto | intros [[?|[->| ->]] [->|?]]; tauto]. }
  assert (Hswap : forall b1 b2 b3 b4 : bool, b1 && b2 && (b3 && b4) = b1 && b3 && (b2 && b4)) by (intros [] [] [] []; done).
  rewrite Hswap, Hhead. destruct (decide (a = [plus] \/ s = [plus] \/ a = s)) as [Hany|Hany];
    [rewrite (bool_decide_eq_true_2 _ Hany) | by rewrite (bool_decide_eq_false_2 _ Hany)].
  cbn [andb]. set (r := if decide (a = [plus]) then s else a).
  assert (Hr : r <> [hash]) by (unfold r; by case_decide).
  destruct sub as [|s' sub].
  - assert (Hnil : levels_match auth ts && levels_match [] ts = bool_decide (auth = []) && bool_decide (ts = [])) by
      (destruct auth as [|a' auth], ts as [|t' ts]; cbn [levels_match andb]; rewrite ?andb_false_r; repeat case_bool_decide; done).
    rewrite Hnil. destruct (decide (auth = [])) as [->|Hauth]; [| by rewrite (bool_decide_eq_false_2 (auth = [])), andb_false_r by done].
    rewrite levels_match_cons by done. rewrite (bool_decide_eq_false_2 (r = [hash])) by done.
    rewrite (bool_decide_eq_true_2 ([] = [])) by done. by destruct ts.
  - destruct auth as [|a' auth].
    + replace (levels_match [] ts && levels_match (s' :: sub) ts) with false by (by destruct ts). by rewrite andb_false_r.
    + rewrite (IH (s' :: sub) ts) by done. destruct (meet (a' :: auth) (s' :: sub)) as [ls|] eqn:Hm; cbn [fmap option_fmap option_map].
      * rewrite levels_match_cons by done. by rewrite (bool_decide_eq_false_2 (r = [hash])).
      * by rewrite andb_false_r.
Qed.

Lemma meet_valid : forall auth sub ls, valid_levels auth -> valid_levels sub -> meet auth sub = Some ls -> valid_levels ls.
Proof.
  induction auth as [|a auth IH]; intros [|s sub] ls Ha Hs; cbn [meet]; try done.
  case_decide; [by intros [= <-]|]. case_decide; [by intros [= <-]|]. case_decide; [|done].
  destruct Ha as [Ha Hva], Hs as [Hs Hvs].
  assert (Hr : forall (r : list byte) (ls : levels_list), r = a \/ r = s -> valid_levels ls -> valid_levels (r :: ls)).
  { intros r l' Hr Hl. split; [|done]. destruct Hr as [->| ->]; [destruct Ha as [?|[[? _]|?]] | destruct Hs as [?|[[? _]|?]]]; auto; done. }
  destruct sub as [|s' sub].
  - case_decide; [intros [= <-]; apply Hr; [case_decide; auto | done] | done].
  - destruct (meet auth (s' :: sub)) as [ls'|] eqn:Hm; [intros [= <-] | done]. apply Hr; [case_decide; auto|]. by eapply IH.
Qed.

Lemma meet_separators : forall auth sub ls,
  (forall l, l ∈ auth -> sep ∉ l) -> (forall l, l ∈ sub -> sep ∉ l) -> meet auth sub = Some ls -> forall l, l ∈ ls -> sep ∉ l.
Proof.
  induction auth as [|a auth IH]; intros [|s sub] ls Ha Hs; cbn [meet]; try done.
  destruct (decide (a = [hash])); [intros [= <-]; exact Hs|]. destruct (decide (s = [hash])); [intros [= <-]; exact Ha|].
  destruct (decide (a = [plus] \/ s = [plus] \/ a = s)); [|done].
  assert (Hr : sep ∉ (if decide (a = [plus]) then s else a)) by (destruct (decide (a = [plus])); [apply Hs; by left | apply Ha; by left]).
  destruct sub as [|s' sub].
  - destruct (decide (auth = [])); [intros [= <-] l ->%list_elem_of_singleton; done | done].
  - destruct (meet auth (s' :: sub)) as [ls'|] eqn:Hm; [|done]. intros [= <-] l [->|Hl]%elem_of_cons; [done|].
    apply (IH (s' :: sub) ls'); [intros; apply Ha; by right | intros; apply Hs; by right | done | done].
Qed.

Lemma levels_separators f l : l ∈ levels f -> sep ∉ l.
Proof.
  revert l. induction f as [t Ht | t f Ht IH] using string_ind; intros l.
  - rewrite levels_one by done. by intros ->%list_elem_of_singleton.
  - rewrite levels_app by done. intros [->|Hl]%elem_of_cons; [done | by apply IH].
Qed.

Lemma levels_join ls : ls <> [] -> (forall l, l ∈ ls -> sep ∉ l) -> levels (join ls) = ls.
Proof.
  induction ls as [|l ls IH]; intros Hne Hs; [done|]. destruct ls as [|l' ls].
  - apply levels_one, Hs. by left.
  - change (join (l :: l' :: ls)) with (l ++ sep :: join (l' :: ls)). rewrite levels_app by (apply Hs; by left).
    rewrite IH; [done | done|]. intros x Hx. apply Hs. by right.
Qed.
End allowed.

(** ** Filters that are covered *)
Section denied.
Abbreviation sep := topic_filter_separator.
Abbreviation levels_list := (list (list byte)).

(** the filter [ds] matches all that [ss] does, level by level *)
Fixpoint covers (ds ss : levels_list) : bool :=
  match ds, ss with
  | d :: ds, s :: ss =>
    if decide (d = s) then match ss with [] => bool_decide (ds = []) | _ => covers ds ss end
    else if decide (d = [hash]) then bool_decide (ds = [])
    else if decide (s = [hash]) then false
    else if decide (d = [plus]) then match ss with [] => bool_decide (ds = []) | _ => covers ds ss end
    else false
  | _, _ => false
  end.

Abbreviation deny_step := (fun (sub : list byte) '(filter, result) =>
    match filter with
    | [] => mret (([], false), false)
    | denied :: filter =>
      mret (if bool_decide (denied = sub) then ((filter, result), true)
            else if is_hash denied then ((filter, true), false)
            else if is_hash sub then ((filter, false), false)
            else if is_plus denied then ((filter, true), true)
            else ((filter, false), false))
    end).

Lemma denied_levels n : forall ss ds cnt,
  ss <> [] -> n = cnt - 1 + Z.of_nat (length ds) ->
  exists filter result cnt', each_level (S := unit) deny_step ss cnt (ds, true) tt = Return ((filter, result), cnt') tt /\
    result && (cnt' =? n) = covers ds ss.
Proof.
  induction ss as [|s ss IH]; intros ds cnt Hss Hn; [done|]. cbn [each_level]. unfold mbind, action_bind. destruct ds as [|d ds].
  { exists [], false, cnt. split; [by destruct ss | done]. }
  cbn [covers]. rewrite !is_hash_eq, is_plus_eq. unfold mret at 1, action_ret at 1.
  assert (Hlast : (cnt =? n) = bool_decide (ds = [])).
  { apply eq_true_iff_eq. rewrite Z.eqb_eq, bool_decide_eq_true. simpl in Hn. destruct ds; simpl in *; split; (lia || done). }
  assert (Hmore : exists filter result cnt', (match ss with [] => mret ((ds, true), cnt) | _ => each_level (S := unit) deny_step ss (cnt + 1) (ds, true) end) tt =
    Return ((filter, result), cnt') tt /\ result && (cnt' =? n) = match ss with [] => bool_decide (ds = []) | _ => covers ds ss end).
  { destruct ss as [|s' ss]; [by exists ds, true, cnt|]. apply IH; [done | simpl in *; lia]. }
  destruct (decide (d = s)) as [->|Hds]; [by rewrite bool_decide_eq_true_2|]. rewrite (bool_decide_eq_false_2 (d = s)) by done.
  destruct (decide (d = [hash])) as [->|Hdh].
  { rewrite bool_decide_eq_true_2 by done. exists ds, true, cnt. split; [by destruct ss | done]. }
  rewrite (bool_decide_eq_false_2 (d = [hash])) by done. destruct (decide (s = [hash])) as [->|Hsh].
  { rewrite bool_decide_eq_true_2 by done. exists ds, false, cnt. split; [by destruct ss | done]. }
  rewrite (bool_decide_eq_false_2 (s = [hash])) by done. destruct (decide (d = [plus])) as [->|Hdp]; [by rewrite bool_decide_eq_true_2|].
  rewrite (bool_decide_eq_false_2 (d = [plus])) by done. exists ds, false, cnt. split; [by destruct ss | done].
Qed.

Lemma is_subscribe_denied_covers ds f : is_subscribe_denied ds f = covers ds (levels f).
Proof.
  unfold is_subscribe_denied. rewrite topic_filter_tokenizer_levels.
  destruct (denied_levels (Z.of_nat (length ds)) (levels f) ds 1 (levels_nonempty f) ltac:(lia)) as (filter & result & cnt & Hrun & Hr).
  by rewrite Hrun.
Qed.

Lemma covers_match : forall ds ss ts, valid_levels ds -> valid_levels ss -> covers ds ss = true ->
  levels_match ss ts = true -> levels_match ds ts = true.
Proof.
  induction ds as [|d ds IH]; intros [|s ss] [|t ts] Hd Hs Hc Hm; try done.
  pose proof (valid_hash_last _ _ Hd) as Hhd. pose proof (valid_hash_last _ _ Hs) as Hhs. destruct Hd as [_ Hvd], Hs as [_ Hvs].
  rewrite levels_match_cons in Hm |- * by done. cbn [covers] in Hc.
  assert (Hrest : match ss with [] => bool_decide (ds = []) | _ => covers ds ss end = true -> levels_match ss ts = true -> levels_match ds ts = true).
  { destruct ss as [|s' ss]; [|by apply IH]. intros ->%bool_decide_eq_true. by destruct ts. }
  destruct (decide (d = s)) as [->|Hds].
  { destruct (decide (s = [hash])) as [->|Hsh]; [by rewrite bool_decide_eq_true_2|]. rewrite (bool_decide_eq_false_2 (s = [hash])) in * by done.
    cbn [orb] in *. apply andb_true_iff in Hm as [Ht Hm]. rewrite Ht. by apply Hrest. }
  destruct (decide (d = [hash])) as [->|Hdh]; [by rewrite bool_decide_eq_true_2|].
  destruct (decide (s = [hash])) as [->|Hsh]; [done|]. destruct (decide (d = [plus])) as [->|Hdp]; [|done].
  rewrite (bool_decide_eq_false_2 (s = [hash])) in Hm by done. apply andb_true_iff in Hm as [_ Hm].
  rewrite (bool_decide_eq_true_2 (_ \/ [plus] = [plus])) by auto. rewrite Hrest by done. by rewrite orb_true_r.
Qed.

(** a topic that a filter matches, as long as the filter, which begins with
    "$" only if the filter does *)
Definition instance_of (ss ts : levels_list) : Prop :=
  levels_match ss ts = true /\ length (join ts) = length (join ss) /\ (ts = [] <-> ss = []) /\ Forall (fun t => literal t /\ sep ∉ t) ts /\
  (forall t, head ts = Some t -> is_dollar t = true -> head ss = Some t).

Lemma instance_nil : instance_of [] [].
Proof. repeat split; (done || constructor). Qed.

Lemma instance_cons s ss t ts : (s = [hash] -> ss = []) -> literal t -> sep ∉ t -> length t = length s -> s = t \/ s = [plus] \/ s = [hash] ->
  (is_dollar t = true -> s = t) -> instance_of ss ts -> instance_of (s :: ss) (t :: ts).
Proof.
  intros Hh Hlit Hsep Hlen Hst Hdollar (Hm & Hl & Hn & Hall & _).
  split; [|split; [|split; [done | split; [by constructor | intros t' [= <-] ?; cbn; f_equal; auto]]]].
  - rewrite levels_match_cons, Hm, andb_true_r by done. apply orb_true_iff. rewrite !bool_decide_eq_true. tauto.
  - destruct ss as [|s' ss], ts as [|t' ts]; cbn [join]; rewrite ?length_app; cbn [length] in *;
      [done | discriminate (proj2 Hn eq_refl) | discriminate (proj1 Hn eq_refl) |].
    change (length (join (t' :: ts)) = length (join (s' :: ss))) in Hl. cbn [join] in Hl. lia.
Qed.

Definition letter_a : list byte := [x61].
Lemma literal_a : literal letter_a.
Proof. intros c ->%list_elem_of_singleton. set_solver. Qed.
Lemma letter_a_sep : sep ∉ letter_a.
Proof. set_solver. Qed.

(** a level a level of a filter stands for, and another one than [d] when there is *)
Definition other (d s : list byte) : list byte :=
  if decide (s = [plus] \/ s = [hash]) then (if decide (d = letter_a) then [x62] else letter_a) else s.

Lemma other_spec d s : s = [plus] \/ s = [hash] \/ literal s -> sep ∉ s ->
  literal (other d s) /\ sep ∉ other d s /\ length (other d s) = length s /\ (s = other d s \/ s = [plus] \/ s = [hash]) /\
  (s <> d -> d <> other d s) /\ (is_dollar (other d s) = true -> s = other d s).
Proof.
  intros Hs Hsep. unfold other. destruct (decide (s = [plus] \/ s = [hash])) as [Hw|Hw].
  - assert (Hl : length s = 1%nat) by (by destruct Hw as [->| ->]). rewrite Hl. destruct (decide (d = letter_a)) as [->|Hd].
    + split; [intros c ->%list_elem_of_singleton; set_solver|]. split; [set_solver|]. split; [done|]. split; [tauto|]. by split.
    + split; [apply literal_a|]. split; [apply letter_a_sep|]. split; [done|]. split; [tauto|]. by split.
  - split; [tauto|]. split; [done|]. split; [done|]. split; [by left|]. split; [congruence | done].
Qed.

Lemma valid_level s ss : valid_levels (s :: ss) -> s = [plus] \/ s = [hash] \/ literal s.
Proof. intros [[?|[[? _]|?]] _]; auto. Qed.

Lemma has_instance ss : valid_levels ss -> Forall (fun s => sep ∉ s) ss -> exists ts, instance_of ss ts.
Proof.
  induction ss as [|s ss IH]; intros Hv Hsep; [exists []; apply instance_nil|]. inversion_clear Hsep as [|? ? Hs Hss].
  destruct (IH ltac:(apply Hv) Hss) as [ts Hts]. destruct (other_spec s s (valid_level _ _ Hv) Hs) as (? & ? & ? & ? & _ & ?).
  exists (other s s :: ts). apply instance_cons; try done. by apply valid_hash_last.
Qed.

(** what the first levels of two filters leave to decide *)
Definition covers_rest (ds ss : levels_list) : bool := match ss with [] => bool_decide (ds = []) | _ => covers ds ss end.

(** a topic that shows that a filter is not covered *)
Lemma not_covers : forall ds ss, valid_levels ds -> valid_levels ss -> Forall (fun s => sep ∉ s) ss -> ss <> [] -> covers ds ss = false ->
  exists ts, instance_of ss ts /\ levels_match ds ts = false.
Proof.
  induction ds as [|d ds IH]; intros [|s ss] Hd Hs Hseps Hne Hc; try done.
  { destruct (has_instance (s :: ss)) as [ts Hts]; [done..|]. exists ts. split; [done|].
    destruct Hts as (_ & _ & [Hts _] & _). destruct ts; [discriminate (Hts eq_refl) | done]. }
  pose proof (valid_hash_last _ _ Hd) as Hhd. pose proof (valid_hash_last _ _ Hs) as Hhs. inversion_clear Hseps as [|? ? Hsep Hsepss].
  destruct (other_spec d s (valid_level _ _ Hs) Hsep) as (Hlit & Hosep & Hlen & Hst & Hdo & Hdollar). set (t := other d s) in *. cbn [covers] in Hc.
  assert (Hcons : forall ts, instance_of ss ts -> instance_of (s :: ss) (t :: ts)) by (intros; by apply instance_cons).
  destruct (decide (d = [hash])) as [->|Hdh].
  { specialize (Hhd eq_refl) as ->. destruct (decide ([hash] = s)) as [<-|]; [by rewrite (Hhs eq_refl) in Hc | done]. }
  destruct (decide (s = [hash])) as [->|Hsh].
  { specialize (Hhs eq_refl) as ->. destruct (decide (d = [plus] /\ ds = [])) as [[-> ->]|Hdp].
    - exists [[]; []]. split; [|done]. split; [done|]. split; [done|]. split; [done|]. cbn beta.
      assert (He : literal [] /\ sep ∉ []) by (split; [by intros b Hb%elem_of_nil | apply not_elem_of_nil]).
      split; [by constructor; [|constructor; [|constructor]] | by intros t' [= <-]].
    - exists [t]. split; [apply Hcons, instance_nil|]. rewrite levels_match_cons, (bool_decide_eq_false_2 (d = [hash])) by done.
      destruct (decide (d = [plus])) as [->|Hp]; [destruct ds; [tauto | by rewrite andb_false_r]|].
      rewrite (bool_decide_eq_false_2 (d = t \/ d = [plus])); [done|]. intros [?|?]; [by apply Hdo; [congruence|] | done]. }
  destruct (decide (d = s \/ d = [plus])) as [Hds|Hds].
  - assert (Hrest : exists ts, instance_of ss ts /\ levels_match ds ts = false).
    { assert (Hcr : covers_rest ds ss = false) by (destruct (decide (d = s)); [done|]; destruct (decide (d = [plus])); [done | tauto]).
      destruct ss as [|s' ss]; [|by apply IH; [apply Hd | apply Hs | ..]]. apply bool_decide_eq_false in Hcr.
      exists []. split; [apply instance_nil | by destruct ds]. }
    destruct Hrest as (ts & Hts & Hn). exists (t :: ts). split; [by apply Hcons|].
    by rewrite levels_match_cons, Hn, (bool_decide_eq_false_2 (d = [hash])), andb_false_r by done.
  - destruct (has_instance ss) as [ts Hts]; [apply Hs | done|]. exists (t :: ts). split; [by apply Hcons|].
    rewrite levels_match_cons, (bool_decide_eq_false_2 (d = [hash])) by done.
    rewrite (bool_decide_eq_false_2 (d = t \/ d = [plus])); [done|]. intros [?|?]; [by apply Hdo; [naive_solver|] | tauto].
Qed.
End denied.

(** ** The decisions *)

(** the filter matches the topic, as a subscription map finds it: a filter
    that begins with a wildcard does not match a topic that begins with "$" *)
Definition matched (filter topic : list byte) : Prop := filter_matches filter topic = true.

#[export] Instance matched_dec f t : Decision (matched f t).
Proof. unfold matched. apply _. Defined.

(** every topic name that [filter] matches is matched by [rule] *)
Definition all_matched (rule filter : list byte) : Prop :=
  forall t, validate_topic_name t = true -> matched filter t -> matched rule t.

(** a filter or a topic that begins with "$" *)
Definition is_system (f : list byte) : bool := default false (is_dollar <$> head (levels f)).

(** The matching of the functions of security.hpp knows nothing of "$". *)
Definition level_matched (filter topic : list byte) : Prop := levels_match (levels filter) (levels topic) = true.

Lemma matched_levels f t : is_system t = false -> matched f t <-> level_matched f t.
Proof.
  unfold matched, filter_matches, level_matched, is_system. intros ->. by rewrite andb_false_r, andb_true_r.
Qed.

Lemma matched_level_matched f t : matched f t -> level_matched f t.
Proof. unfold matched, filter_matches, level_matched. by intros [H _]%andb_true_iff. Qed.

(** only a filter that begins with "$" matches a topic that does *)
Lemma matched_system f t : is_system f = false -> matched f t -> is_system t = false.
Proof.
  unfold matched, filter_matches, is_system. intros Hf [Hm Hw]%andb_true_iff. apply negb_true_iff in Hw.
  pose proof (levels_nonempty f) as Hnf. destruct (levels f) as [|f0 fs]; [done|]. destruct (levels t) as [|t0 ts]; [done|].
  cbn in *. unfold is_wildcard in Hw. destruct (is_dollar t0) eqn:Ht; [|done]. exfalso. rewrite andb_true_r in Hw.
  apply orb_false_iff in Hw as [Hp%bool_decide_eq_false Hh%bool_decide_eq_false].
  apply orb_true_iff in Hm as [[Hh' _]%bool_decide_eq_true|[[->|?]%bool_decide_eq_true _]%andb_true_iff]; congruence.
Qed.

Section decisions.

Lemma literal_join ts : Forall (fun t => literal t /\ topic_filter_separator ∉ t) ts -> literal (join ts).
Proof.
  induction 1 as [|t ts [Ht _] Hts IH]; [by intros c Hc%elem_of_nil|]. destruct ts as [|t' ts]; [done|].
  change (literal (t ++ topic_filter_separator :: join (t' :: ts))). intros c [Hc|[->|Hc]%elem_of_cons]%elem_of_app; [by apply Ht | set_solver | by apply IH].
Qed.

Lemma is_subscribe_allowed_levels a f t : validate_topic_filter a = true -> validate_topic_filter f = true ->
  level_matched a t /\ level_matched f t <-> exists r, is_subscribe_allowed (get_topic_filter_tokens a) f = Some r /\ level_matched r t.
Proof.
  intros (_ & _ & Ha)%validate_topic_filter_levels (_ & _ & Hf)%validate_topic_filter_levels.
  rewrite tokens_levels, allowed_meet. unfold level_matched.
  rewrite <- andb_true_iff, meet_match; [|done..|apply levels_nonempty|apply levels_nonempty].
  destruct (meet (levels a) (levels f)) as [ls|] eqn:Hm; [|by split; [|intros (r & [=] & _)]].
  assert (levels (join ls) = ls) as Hl.
  { apply levels_join; [by eapply meet_nonempty|]. eapply meet_separators; [| |done]; apply levels_separators. }
  split; [intros H; exists (join ls); by rewrite Hl | intros (r & [= <-] & H); by rewrite Hl in H].
Qed.

Lemma meet_head auth sub ls : meet auth sub = Some ls -> head ls = head auth \/ head ls = head sub.
Proof.
  destruct auth as [|a auth], sub as [|s sub]; cbn [meet]; try done.
  destruct (decide (a = [hash])); [intros [= <-]; by right|]. destruct (decide (s = [hash])); [intros [= <-]; by left|].
  destruct (decide (a = [plus] \/ s = [plus] \/ a = s)); [|done].
  assert (Hr : forall l, head ((if decide (a = [plus]) then s else a) :: l) = Some a \/ head ((if decide (a = [plus]) then s else a) :: l) = Some s)
    by (intros l; destruct (decide (a = [plus])); auto).
  destruct sub as [|s' sub].
  - destruct (decide (auth = [])); [intros [= <-]; apply Hr | done].
  - destruct (meet auth (s' :: sub)); [intros [= <-]; apply Hr | done].
Qed.

(** the filter begins as one of the two *)
Lemma allowed_system a f r : is_subscribe_allowed (get_topic_filter_tokens a) f = Some r ->
  is_system a = false -> is_system f = false -> is_system r = false.
Proof.
  rewrite tokens_levels, allowed_meet. destruct (meet (levels a) (levels f)) as [ls|] eqn:Hm; [|done]. intros [= <-].
  assert (Hl : levels (join ls) = ls).
  { apply levels_join; [by eapply meet_nonempty|]. eapply meet_separators; [| |done]; apply levels_separators. }
  unfold is_system. rewrite Hl. by destruct (meet_head _ _ _ Hm) as [-> | ->].
Qed.

Lemma is_subscribe_allowed_matched a f t : validate_topic_filter a = true -> validate_topic_filter f = true ->
  is_system t = false \/ (is_system a = false /\ is_system f = false) ->
  matched a t /\ matched f t <-> exists r, is_subscribe_allowed (get_topic_filter_tokens a) f = Some r /\ matched r t.
Proof.
  intros Ha Hf Hs. destruct (is_system t) eqn:Ht.
  - destruct Hs as [?|[Hsa Hsf]]; [done|]. split.
    + intros [Hat _]. apply matched_system in Hat; congruence.
    + intros (r & Hr & Hrt). apply matched_system in Hrt; [congruence | by eapply allowed_system].
  - rewrite !matched_levels by done. rewrite is_subscribe_allowed_levels by done. by setoid_rewrite matched_levels.
Qed.

Lemma is_subscribe_denied_all_matched d f : validate_topic_filter d = true -> validate_topic_filter f = true -> is_system f = false ->
  is_subscribe_denied (get_topic_filter_tokens d) f = true <-> all_matched d f.
Proof.
  intros (_ & _ & Hd)%validate_topic_filter_levels (Hne & Hlen & Hf)%validate_topic_filter_levels Hsys.
  rewrite tokens_levels, is_subscribe_denied_covers. split.
  { intros Hc t _ Ht. pose proof (matched_system _ _ Hsys Ht) as Hst. rewrite matched_levels in Ht |- * by done. by apply (covers_match _ (levels f)). }
  intros Hall. destruct (covers (levels d) (levels f)) eqn:Hc; [done|]. exfalso.
  destruct (not_covers (levels d) (levels f)) as (ts & (Hm & Hl & Hn & Hts & Hdollar) & Hnot); [done..| |apply levels_nonempty|done|].
  { apply Forall_forall. apply levels_separators. }
  assert (levels (join ts) = ts) as Hj.
  { apply levels_join; [by intros ?%Hn%levels_nonempty|]. rewrite Forall_forall in Hts. intros l Hin. by apply Hts. }
  assert (Hst : is_system (join ts) = false).
  { unfold is_system in *. rewrite Hj. destruct (head ts) as [t|]; [|done]. cbn. destruct (is_dollar t) eqn:Ht; [|done].
    specialize (Hdollar t eq_refl Ht). rewrite Hdollar in Hsys. cbn in Hsys. congruence. }
  rewrite join_levels in Hl. specialize (Hall (join ts)). rewrite !matched_levels in Hall by done. unfold level_matched in Hall.
  rewrite Hj, Hnot in Hall. apply diff_false_true, Hall; [|done].
  apply validate_topic_name_levels. split; [|split; [lia | by apply literal_join]]. intros He. rewrite He in Hl. by destruct f.
Qed.

Lemma set_insert_elem k x s : x ∈ set_insert k s <-> x = k \/ x ∈ s.
Proof.
  induction s as [|k' s IH]; cbn [set_insert]; [set_solver|]. destruct (bytes_lt k k'); [set_solver|].
  case_bool_decide as Hk; [subst; set_solver|]. rewrite !elem_of_cons, IH. tauto.
Qed.

Lemma username_and_groups_elem u s name :
  name ∈ username_and_groups u s <-> name = u \/ exists g, (name, g) ∈ groups_ s /\ in_group u (name, g) = true.
Proof.
  unfold username_and_groups. induction (groups_ s) as [|[k g] gs IH] using rev_ind.
  { cbn. split; [intros ->%list_elem_of_singleton; by left|]. intros [->|(g & Hg%elem_of_nil & _)]; [by left | done]. }
  rewrite foldl_app. cbn [foldl]. destruct (in_group u (k, g)) eqn:Hin; cbn [fst]; rewrite ?set_insert_elem, IH.
  - split.
    + intros [->|[->|(g' & Hg & Hi)]]; [right; exists g; set_solver | by left | right; exists g'; set_solver].
    + intros [->|(g' & [Hg|[= -> ->]%list_elem_of_singleton]%elem_of_app & Hi)]; [auto | right; right; by exists g' | by left].
  - split; [intros [->|(g' & Hg & Hi)]; [by left | right; exists g'; set_solver]|].
    intros [->|(g' & [Hg|[= -> ->]%list_elem_of_singleton]%elem_of_app & Hi)]; [by left | right; by exists g' | congruence].
Qed.

(** the rule is about subscribing and names the user, or a group of the user *)
Definition applies (u : list byte) (s : security) (i : authorization) : Prop :=
  sub_type i <> none /\ exists name, name ∈ sub i /\ (name = u \/ exists g, (name, g) ∈ groups_ s /\ in_group u (name, g) = true).

Definition user_rule (u : list byte) (s : security) (i : authorization) : bool :=
  negb (bool_decide (sub_type i = none)) && existsb (fun name => bool_decide (name ∈ username_and_groups u s)) (sub i).

Lemma user_rule_applies u s i : user_rule u s i = true <-> applies u s i.
Proof.
  unfold user_rule, applies. rewrite andb_true_iff, negb_true_iff, bool_decide_eq_false, existsb_exists.
  apply and_iff_compat_l. split; intros (name & Hin & Hn); exists name.
  - rewrite bool_decide_eq_true, username_and_groups_elem in Hn. by rewrite list_elem_of_In.
  - rewrite bool_decide_eq_true, username_and_groups_elem. by rewrite <- list_elem_of_In.
Qed.

(** a rule as [add_auth] and [load_json] make it, with a valid filter *)
Definition well_formed_rule (i : authorization) : Prop :=
  validate_topic_filter (topic i) = true /\ topic_tokens i = get_topic_filter_tokens (topic i).

Definition step_topics (f : list byte) (topics : list (list byte)) (i : authorization) : list (list byte) :=
  if bool_decide (sub_type i = allow) then
    match is_subscribe_allowed (topic_tokens i) f with Some entry => topics ++ [entry] | None => topics end
  else List.filter (fun _ => negb (is_subscribe_denied (topic_tokens i) f)) topics.

Lemma step_topics_elem f topics i r :
  r ∈ step_topics f topics i <->
  (sub_type i = allow /\ is_subscribe_allowed (topic_tokens i) f = Some r) \/
  ((sub_type i <> allow -> is_subscribe_denied (topic_tokens i) f = false) /\ r ∈ topics).
Proof.
  unfold step_topics. case_bool_decide as Ht.
  - destruct (is_subscribe_allowed _ f) as [e|]; [rewrite elem_of_app, list_elem_of_singleton | ]; naive_solver.
  - destruct (is_subscribe_denied _ f); cbn [negb].
    + replace (List.filter (fun _ => false) topics) with (@nil (list byte)) by (by induction topics). set_solver.
    + replace (List.filter (fun _ => true) topics) with topics by (induction topics; cbn; congruence). naive_solver.
Qed.

Lemma topics_elem f rules r :
  r ∈ foldl (step_topics f) [] rules <->
  exists l1 i l2, rules = l1 ++ i :: l2 /\ sub_type i = allow /\ is_subscribe_allowed (topic_tokens i) f = Some r /\
    forall j, j ∈ l2 -> sub_type j <> allow -> is_subscribe_denied (topic_tokens j) f = false.
Proof.
  induction rules as [|i rules IH] using rev_ind.
  { split; [by intros ?%elem_of_nil | by intros ([|] & ? & ? & [=] & _)]. }
  rewrite foldl_app. cbn [foldl]. rewrite step_topics_elem, IH. split.
  - intros [[Ht Hr]|[Hd (l1 & a & l2 & -> & Ha & Hr & Hl)]].
    + exists rules, i, []. split; [done|]. split; [done|]. split; [done | by intros j Hj%elem_of_nil].
    + exists l1, a, (l2 ++ [i]). rewrite <- app_assoc. split; [done|]. split; [done|]. split; [done|].
      intros j [Hj| ->%list_elem_of_singleton]%elem_of_app; [by apply Hl | done].
  - intros (l1 & a & l2 & He & Ha & Hr & Hl). induction l2 as [|j l2 _] using rev_ind.
    + apply app_inj_tail in He as [-> ->]. by left.
    + rewrite app_comm_cons, app_assoc in He. apply app_inj_tail in He as [-> ->]. right. split; [apply Hl; set_solver|].
      exists l1, a, l2. split; [done|]. split; [done|]. split; [done|]. intros k Hk. apply Hl. set_solver.
Qed.

(** what the filter of the rules leaves is in the order of the rules *)
Lemma filter_middle {A} (p : A -> bool) l l1 a l2 : List.filter p l = l1 ++ a :: l2 ->
  exists k1 k2, l = k1 ++ a :: k2 /\ p a = true /\ List.filter p k2 = l2.
Proof.
  revert l1. induction l as [|b l IH]; intros l1; cbn; [by destruct l1|]. destruct (p b) eqn:Hb.
  - destruct l1 as [|c l1]; intros [= -> Hl]; [by exists [], l|]. apply IH in Hl as (k1 & k2 & -> & Ha & Hk). by exists (c :: k1), k2.
  - intros Hl. apply IH in Hl as (k1 & k2 & -> & Ha & Hk). by exists (b :: k1), k2.
Qed.

Lemma allowed_has_topic a f r : validate_topic_filter a = true -> validate_topic_filter f = true -> is_system a = false -> is_system f = false ->
  is_subscribe_allowed (get_topic_filter_tokens a) f = Some r -> exists t, is_system t = false /\ matched r t.
Proof.
  intros Ha Hf Hsa Hsf Hr. pose proof (allowed_system a f r Hr Hsa Hsf) as Hsr.
  apply validate_topic_filter_levels in Ha as (_ & _ & Ha), Hf as (_ & _ & Hf). rewrite tokens_levels, allowed_meet in Hr.
  destruct (meet (levels a) (levels f)) as [ls|] eqn:Hm; [|done]. injection Hr as <-.
  pose proof (meet_separators _ _ _ (levels_separators a) (levels_separators f) Hm) as Hsep.
  pose proof (meet_nonempty _ _ _ Hm) as Hne. destruct (has_instance ls) as (ts & Ht & _ & Hn & Hts & Hdollar).
  { by apply (meet_valid (levels a) (levels f)). }
  { by apply Forall_forall. }
  assert (Hj : levels (join ts) = ts).
  { apply levels_join; [by intros ?%Hn|]. rewrite Forall_forall in Hts. intros l Hl. by apply Hts. }
  assert (Hst : is_system (join ts) = false).
  { unfold is_system in *. rewrite Hj. rewrite levels_join in Hsr by done. destruct (head ts) as [t|]; [|done]. cbn.
    destruct (is_dollar t) eqn:Hd; [|done]. specialize (Hdollar t eq_refl Hd). rewrite Hdollar in Hsr. cbn in Hsr. congruence. }
  exists (join ts). split; [done|]. rewrite matched_levels by done. unfold level_matched. by rewrite Hj, levels_join.
Qed.

(** the rule [i] allows the user something, and no later rule denies the user all of [f] *)
Definition allowed_rule (u f : list byte) (s : security) (i : authorization) : Prop :=
  exists l1 l2, authorization_ s = l1 ++ i :: l2 /\ applies u s i /\ sub_type i = allow /\
    forall j, j ∈ l2 -> applies u s j -> sub_type j = deny -> ~ all_matched (topic j) f.

Lemma get_auth_sub_topics_elem u f s r : validate_topic_filter f = true -> is_system f = false -> Forall well_formed_rule (authorization_ s) ->
  r ∈ get_auth_sub_topics u f s <-> exists i, allowed_rule u f s i /\ is_subscribe_allowed (get_topic_filter_tokens (topic i)) f = Some r.
Proof.
  intros Hf Hsf Hwf. rewrite Forall_forall in Hwf. unfold get_auth_sub_topics, get_auth_sub_by_user. fold (user_rule u s). fold (step_topics f).
  rewrite topics_elem. unfold allowed_rule. split.
  - intros (l1 & i & l2 & (k1 & k2 & Hk & Hi & Hl2)%filter_middle & Ha & Hr & Hl). exists i.
    rewrite user_rule_applies in Hi. assert (Hwi : well_formed_rule i) by (apply Hwf; rewrite Hk; set_solver). destruct Hwi as [_ Hti].
    split; [|by rewrite <- Hti]. exists k1, k2. split; [done|]. split; [done|]. split; [done|]. intros j Hj Happ Hdeny Hall.
    assert (Hwj : well_formed_rule j) by (apply Hwf; rewrite Hk; set_solver). destruct Hwj as [Hvj Htj].
    rewrite <- is_subscribe_denied_all_matched, <- Htj, Hl in Hall; [done| |by rewrite Hdeny|done..].
    rewrite <- Hl2, list_elem_of_In, List.filter_In, <- list_elem_of_In. split; [done | by apply user_rule_applies].
  - intros (i & (k1 & k2 & Hk & Hi & Ha & Hl) & Hr). exists (List.filter (user_rule u s) k1), i, (List.filter (user_rule u s) k2).
    assert (Hwi : well_formed_rule i) by (apply Hwf; rewrite Hk; set_solver). destruct Hwi as [_ Hti]. apply user_rule_applies in Hi.
    split; [rewrite Hk, List.filter_app; cbn; by rewrite Hi|]. split; [done|]. split; [by rewrite Hti|].
    intros j Hj Hna. rewrite list_elem_of_In, List.filter_In, <- list_elem_of_In in Hj. destruct Hj as [Hj Happ%user_rule_applies].
    assert (Hwj : well_formed_rule j) by (apply Hwf; rewrite Hk; set_solver). destruct Hwj as [Hvj Htj].
    apply not_true_is_false. rewrite Htj, is_subscribe_denied_all_matched by done. apply Hl; [done..|]. destruct Happ as [Hnone _].
    by destruct (sub_type j).
Qed.
End decisions.

(** C30: for valid filters [a] of a rule and [f] that is requested, and the
    matching of the subscription maps.  [is_subscribe_allowed] gives a filter
    that matches just the topics both match, and none when there is no such
    filter, in which case no topic is matched by both: of the topics that do
    not begin with "$", and when no filter begins with "$" of all topics.
    When [f] does not begin with "$", [is_subscribe_denied] holds just when
    every topic name that [f] matches is matched by the rule.  With "$" the
    functions differ from the maps ([dollar_rule_ignored]). *)
Theorem subscribe_filter_decisions a f : validate_topic_filter a = true -> validate_topic_filter f = true ->
  (forall t, is_system t = false \/ (is_system a = false /\ is_system f = false) ->
    (matched a t /\ matched f t <->
     exists r, is_subscribe_allowed (get_topic_filter_tokens a) f = Some r /\ matched r t)) /\
  (is_system f = false ->
    (is_subscribe_denied (get_topic_filter_tokens a) f = true <->
     forall t, validate_topic_name t = true -> matched f t -> matched a t)).
Proof.
  intros Ha Hf. split; [intros t; by apply is_subscribe_allowed_matched | by apply is_subscribe_denied_all_matched].
Qed.

(** The decisions leave out the rule for "$": what "#" allows includes
    "$SYS/x", and what it denies all of "$SYS/#", though "#" matches no such
    topic for a subscription map. *)
Lemma dollar_rule_ignored :
  is_subscribe_allowed (get_topic_filter_tokens (str "#")) (str "$SYS/x") = Some (str "$SYS/x") /\
  is_subscribe_denied (get_topic_filter_tokens (str "#")) (str "$SYS/#") = true /\
  matched (str "$SYS/#") (str "$SYS/x") /\ ~ matched (str "#") (str "$SYS/x").
Proof. split_and!; [reflexivity | reflexivity | reflexivity | by vm_compute]. Qed.

Lemma subscribe_filter_decisions_witness :
  is_subscribe_allowed (get_topic_filter_tokens (str "a/+/c")) (str "+/b/#") = Some (str "a/b/c") /\
  ~ (forall t, validate_topic_name t = true -> matched (str "+/b/#") t -> matched (str "a/+/c") t).
Proof.
  split; [reflexivity|].
  destruct (subscribe_filter_decisions (str "a/+/c") (str "+/b/#") eq_refl eq_refl) as [_ H].
  intros Hall. specialize (proj2 (H eq_refl) Hall). clear H. intros H. vm_compute in H. discriminate H.
Defined.

(** C16: the filters a user gets for a request [f] that does not begin with
    "$".  Of the topics that do not begin with "$", they match one just when
    [f] matches it and a rule that allows the user, or a group of the user, a
    filter that matches it is not followed by a rule that denies the user all
    of [f].  When no rule begins with "$" either, the user is authorized just
    when there is such a topic.  Matching is that of the subscription maps. *)
Theorem get_auth_sub_topics_correct u f s :
  validate_topic_filter f = true -> is_system f = false -> Forall well_formed_rule (authorization_ s) ->
  (forall t, is_system t = false ->
    ((exists r, r ∈ get_auth_sub_topics u f s /\ matched r t) <->
     matched f t /\ exists i, allowed_rule u f s i /\ matched (topic i) t)) /\
  (Forall (fun i => is_system (topic i) = false) (authorization_ s) ->
    (is_subscribe_authorized u f s = true <-> exists t i, matched f t /\ allowed_rule u f s i /\ matched (topic i) t)).
Proof.
  intros Hf Hsf Hwf. assert (Hin : forall i, allowed_rule u f s i -> i ∈ authorization_ s).
  { intros i (l1 & l2 & -> & _). set_solver. }
  rewrite Forall_forall in Hwf. assert (Hval : forall i, allowed_rule u f s i -> validate_topic_filter (topic i) = true).
  { intros i Hi. apply Hwf. by apply Hin. }
  rewrite <- Forall_forall in Hwf.
  assert (Hfirst : forall t, is_system t = false -> ((exists r, r ∈ get_auth_sub_topics u f s /\ matched r t) <->
    matched f t /\ exists i, allowed_rule u f s i /\ matched (topic i) t)).
  { intros t Hst. setoid_rewrite get_auth_sub_topics_elem; [|done..]. split.
    - intros (r & (i & Hi & Hr) & Ht). assert (matched (topic i) t /\ matched f t) as [??] by (apply is_subscribe_allowed_matched; eauto). eauto.
    - intros [Ht (i & Hi & Hit)]. assert (H : matched (topic i) t /\ matched f t) by done.
      apply is_subscribe_allowed_matched in H as (r & Hr & Hrt); eauto 6. }
  split; [done|]. intros Hplain. rewrite Forall_forall in Hplain. unfold is_subscribe_authorized. rewrite negb_true_iff, bool_decide_eq_false. split.
  - intros Hne. destruct (get_auth_sub_topics u f s) as [|r rs] eqn:Hg; [done|].
    assert (Hr : r ∈ get_auth_sub_topics u f s) by (rewrite Hg; by left).
    apply get_auth_sub_topics_elem in Hr as (i & Hi & Hr); [|done..].
    apply allowed_has_topic in Hr as (t & Hst & Ht); [|eauto..].
    destruct (proj1 (Hfirst t Hst)) as (? & i' & ? & ?); [exists r; split; [by left | done]|]. eauto 6.
  - intros (t & i & Ht & Hi & Hit) He. pose proof (matched_system _ _ Hsf Ht) as Hst.
    destruct (proj2 (Hfirst t Hst)) as (r & Hr & _); [eauto|]. by rewrite He in Hr; apply elem_of_nil in Hr.
Qed.

(** a user, a group of the user and three rules *)
Definition example_rules : program unit :=
  insert_authentication (str "u") (mk_authentication method_client_cert None []);;
  insert_group (str "@g") (mk_group [str "u"]);;
  add_auth (str "a/#") [] none [str "@g"] allow;;
  add_auth (str "a/b") [] none [str "u"] deny;;
  add_auth (str "c") [] none [str "u"] allow;;
  mret tt.

Definition example_security : security :=
  match example_rules make_security with Return _ s => s | _ => make_security end.

Lemma get_auth_sub_topics_correct_witness :
  (exists i, allowed_rule (str "u") (str "+/b") example_security i /\ matched (topic i) (str "a/b")) /\
  ~ (exists t i, matched (str "a/b") t /\ allowed_rule (str "u") (str "a/b") example_security i /\ matched (topic i) t).
Proof.
  assert (Hwf : Forall well_formed_rule (authorization_ example_security)) by (repeat constructor).
  split.
  - destruct (get_auth_sub_topics_correct (str "u") (str "+/b") example_security eq_refl eq_refl Hwf) as [H _].
    apply (H (str "a/b") eq_refl). exists (str "a/b"). split; [by left | reflexivity].
  - destruct (get_auth_sub_topics_correct (str "u") (str "a/b") example_security eq_refl eq_refl Hwf) as [_ H].
    intros Hex. apply H in Hex; [|by repeat constructor]. vm_compute in Hex. discriminate Hex.
Defined.
