(* ===== verification/SecurityRules.v ===== *)
(** * What the rules decide

    The two subscription maps of [security] hold, for a topic filter and a
    name, the type and the number of the last rule that gives both.  So the
    decisions the maps are used for are decisions of the list of rules. *)
From stdpp Require Import sorting.
From S2P Require Import Prelude Boost Action TopicFilter SubscriptionMap SubscriptionTree SubscriptionSpec Security SecurityFilters.

Abbreviation name := (list byte).
(** topic filters and names to the type and the number of a rule *)
Abbreviation entry_map := (gmap (list byte * list byte) (auth_type * Z)).

(** the name of a user or of a group *)
Definition valid_name (j : list byte) : bool := is_valid_user_name j || is_valid_group_name j.

Lemma valid_name_nonempty j : valid_name j = true <-> j <> [].
Proof.
  unfold valid_name, is_valid_user_name, is_valid_group_name. destruct j as [|c j]; [done|]. cbn [head].
  rewrite (bool_decide_eq_false_2 (c :: j = [])) by done. cbn [negb andb]. by destruct (bool_decide _).
Qed.

(** ** The entries of rules *)
Definition add_entries (f : list byte) (e : auth_type * Z) (js : list name) (A : entry_map) : entry_map :=
  foldl (fun A j => <[(f, j) := e]> A) A js.
Definition remove_entries (f : list byte) (js : list name) (A : entry_map) : entry_map :=
  foldl (fun A j => delete (f, j) A) A js.

Lemma lookup_add_entries f e js A g n :
  add_entries f e js A !! (g, n) = if decide (g = f /\ n ∈ js) then Some e else A !! (g, n).
Proof.
  unfold add_entries. revert A. induction js as [|j js IH]; intros A; cbn [foldl]; [by destruct (decide _) as [[_ ?%elem_of_nil]|]|].
  rewrite IH. destruct (decide (g = f /\ n ∈ js)) as [[-> Hn]|Hn]; [by rewrite decide_True by (split; [done | by right])|].
  destruct (decide ((f, j) = (g, n))) as [[= -> ->]|Hne].
  - rewrite lookup_insert_eq, decide_True by (split; [done | by left]). done.
  - rewrite lookup_insert_ne, decide_False; [done | | done]. intros [-> [->|?]%elem_of_cons]; [done | tauto].
Qed.

Lemma lookup_remove_entries f js A g n :
  remove_entries f js A !! (g, n) = if decide (g = f /\ n ∈ js) then None else A !! (g, n).
Proof.
  unfold remove_entries. revert A. induction js as [|j js IH]; intros A; cbn [foldl]; [by destruct (decide _) as [[_ ?%elem_of_nil]|]|].
  rewrite IH. destruct (decide (g = f /\ n ∈ js)) as [[-> Hn]|Hn]; [by rewrite decide_True by (split; [done | by right])|].
  destruct (decide ((f, j) = (g, n))) as [[= -> ->]|Hne].
  - rewrite lookup_delete_eq, decide_True by (split; [done | by left]). done.
  - rewrite lookup_delete_ne, decide_False; [done | | done]. intros [-> [->|?]%elem_of_cons]; [done | tauto].
Qed.

(** The part of a rule about publishing, or about subscribing. *)
Section part.
Variables (names : authorization -> list name) (type : authorization -> auth_type).

Definition valid_names (i : authorization) : list name := List.filter valid_name (names i).

Definition entries (rules : list authorization) : entry_map :=
  foldl (fun A i => add_entries (topic i) (type i, rule_nr i) (valid_names i) A) ∅ rules.

(** the rule gives the filter and the name *)
Definition gives (i : authorization) (f : list byte) (n : name) : Prop := topic i = f /\ n ∈ names i /\ n <> [].

#[export] Instance gives_dec i f n : Decision (gives i f n).
Proof. unfold gives. apply _. Defined.

Lemma gives_valid i f n : gives i f n <-> f = topic i /\ n ∈ valid_names i.
Proof.
  unfold gives, valid_names. rewrite (list_elem_of_In (List.filter _ _) n), List.filter_In, <- list_elem_of_In, valid_name_nonempty. naive_solver.
Qed.

Lemma entries_snoc rules i f n :
  entries (rules ++ [i]) !! (f, n) = if decide (gives i f n) then Some (type i, rule_nr i) else entries rules !! (f, n).
Proof.
  unfold entries at 1. rewrite foldl_app. cbn [foldl]. rewrite lookup_add_entries. fold (entries rules).
  destruct (decide (gives i f n)) as [Hg|Hg]; rewrite gives_valid in Hg; [by rewrite decide_True | by rewrite decide_False].
Qed.

(** the entry is that of the last rule that gives the filter and the name *)
Lemma entries_last rules f n e :
  entries rules !! (f, n) = Some e <->
  exists l1 i l2, rules = l1 ++ i :: l2 /\ gives i f n /\ e = (type i, rule_nr i) /\ forall j, j ∈ l2 -> ~ gives j f n.
Proof.
  induction rules as [|i rules IH] using rev_ind; [split; [done | by intros ([|] & ? & ? & [=] & _)]|].
  rewrite entries_snoc. destruct (decide (gives i f n)) as [Hg|Hg].
  - split.
    + intros [= <-]. exists rules, i, []. split; [done|]. split; [done|]. split; [done | by intros j ?%elem_of_nil].
    + intros (l1 & a & l2 & He & Ha & -> & Hl). induction l2 as [|j l2 _] using rev_ind.
      * by apply app_inj_tail in He as [_ ->].
      * rewrite app_comm_cons, app_assoc in He. apply app_inj_tail in He as [_ ->]. exfalso. apply (Hl j); [set_solver | done].
  - rewrite IH. split.
    + intros (l1 & a & l2 & -> & Ha & -> & Hl). exists l1, a, (l2 ++ [i]). rewrite <- app_assoc. split; [done|]. split; [done|]. split; [done|].
      intros j [Hj| ->%list_elem_of_singleton]%elem_of_app; [by apply Hl | done].
    + intros (l1 & a & l2 & He & Ha & -> & Hl). induction l2 as [|j l2 _] using rev_ind.
      * apply app_inj_tail in He as [_ ->]. done.
      * rewrite app_comm_cons, app_assoc in He. apply app_inj_tail in He as [-> ->]. exists l1, a, l2.
        split; [done|]. split; [done|]. split; [done|]. intros k Hk. apply Hl. set_solver.
Qed.

Lemma entries_None rules f n : entries rules !! (f, n) = None <-> forall i, i ∈ rules -> ~ gives i f n.
Proof.
  induction rules as [|i rules IH] using rev_ind; [split; [by intros _ i ?%elem_of_nil | done]|].
  rewrite entries_snoc. destruct (decide (gives i f n)) as [Hg|Hg].
  - split; [done|]. intros H. exfalso. apply (H i); [set_solver | done].
  - rewrite IH. split; [intros H j [Hj| ->%list_elem_of_singleton]%elem_of_app; [by apply H | done]|]. intros H j Hj. apply H. set_solver.
Qed.

(** taking a rule away takes its entries away when it shares none *)
Lemma entries_remove l1 i l2 :
  (forall f n, gives i f n -> forall j, j ∈ l1 ++ l2 -> ~ gives j f n) ->
  entries (l1 ++ l2) = remove_entries (topic i) (names i) (entries (l1 ++ i :: l2)).
Proof.
  intros Hno. apply map_eq. intros [f n]. rewrite lookup_remove_entries. destruct (decide (gives i f n)) as [Hg|Hg].
  - rewrite decide_True by (destruct Hg as (-> & ? & _); done). apply entries_None. by apply Hno.
  - assert (Hsame : entries (l1 ++ l2) !! (f, n) = entries (l1 ++ i :: l2) !! (f, n)).
    { clear Hno. induction l2 as [|j l2 IH] using rev_ind.
      - rewrite app_nil_r, (entries_snoc l1 i). by rewrite decide_False.
      - rewrite app_assoc, app_comm_cons, app_assoc, !entries_snoc. by rewrite IH. }
    rewrite Hsame. destruct (decide (f = topic i /\ n ∈ names i)) as [[-> Hn]|]; [|done].
    assert (n = []) as -> by (destruct (decide (n = [])); [done | exfalso; by apply Hg]).
    apply entries_None. by intros j _ (_ & _ & ?).
Qed.

(** numbers that grow along the list *)
Definition numbered (rules : list authorization) : Prop := StronglySorted (fun i j => rule_nr i < rule_nr j) rules.

Lemma numbered_app l1 l2 i j : numbered (l1 ++ l2) -> i ∈ l1 -> j ∈ l2 -> rule_nr i < rule_nr j.
Proof. unfold numbered. rewrite StronglySorted_app. naive_solver. Qed.

(** an entry is that of the rule with the highest number *)
Lemma entries_highest rules f n e : numbered rules ->
  entries rules !! (f, n) = Some e <->
  exists i, i ∈ rules /\ gives i f n /\ e = (type i, rule_nr i) /\ forall j, j ∈ rules -> gives j f n -> rule_nr j <= rule_nr i.
Proof.
  intros Hnum. split.
  - rewrite entries_last. intros (l1 & i & l2 & -> & Hg & -> & Hl). exists i. split; [set_solver|]. split; [done|]. split; [done|].
    intros j [Hj|[->|Hj]%elem_of_cons]%elem_of_app Hgj; [|lia|by destruct (Hl j)].
    assert (rule_nr j < rule_nr i); [|lia]. eapply numbered_app; [exact Hnum | done | by left].
  - intros (i & Hi & Hg & -> & Hmax). destruct (entries rules !! (f, n)) as [e|] eqn:He.
    + apply entries_last in He as (l1 & a & l2 & Hr & Ha & -> & Hl). rewrite Hr in Hi.
      apply elem_of_app in Hi as [Hi|[->|Hi]%elem_of_cons]; [|done|by destruct (Hl i)]. exfalso.
      assert (rule_nr a <= rule_nr i) by (apply Hmax; [rewrite Hr; set_solver | done]).
      assert (rule_nr i < rule_nr a); [|lia]. rewrite Hr in Hnum. eapply numbered_app; [exact Hnum | done | by left].
    + rewrite entries_None in He. by destruct (He i).
Qed.

(** ** Decisions by the rules *)

(** the rule is about the topic and gives a name of [Q] *)
Definition concerns (t : list byte) (Q : name -> Prop) (i : authorization) : Prop :=
  filter_matches (topic i) t = true /\ exists n, n ∈ names i /\ n <> [] /\ Q n.

(** the rule with the highest number among those that concern the topic *)
Definition decides (rules : list authorization) (t : list byte) (Q : name -> Prop) (ty : auth_type) : Prop :=
  exists i, i ∈ rules /\ concerns t Q i /\ type i = ty /\ forall j, j ∈ rules -> concerns t Q j -> rule_nr j <= rule_nr i.
Definition undecided (rules : list authorization) (t : list byte) (Q : name -> Prop) : Prop :=
  forall i, i ∈ rules -> ~ concerns t Q i.

Section found.
Context (rules : list authorization) (t : list byte) (l : list (name * (auth_type * Z))).
Hypothesis Hnum : numbered rules.
Hypothesis Hl : l ≡ₚ spec_find (entries rules) t.

Lemma elem_of_found_entry n e : (n, e) ∈ l <-> exists f, entries rules !! (f, n) = Some e /\ filter_matches f t = true.
Proof.
  rewrite Hl. unfold spec_find. rewrite list_elem_of_fmap. split.
  - intros ([[f k] v] & [= -> ->] & [Hm Hin%elem_of_map_to_list]%list_elem_of_filter). by exists f.
  - intros (f & He & Hm). exists ((f, n), e). split; [done|]. apply list_elem_of_filter. split; [done | by apply elem_of_map_to_list].
Qed.

Lemma found_rule n e : (n, e) ∈ l -> exists i, i ∈ rules /\ e = (type i, rule_nr i) /\ filter_matches (topic i) t = true /\ n ∈ names i /\ n <> [].
Proof.
  intros (f & (i & Hi & (<- & Hn & Hne) & -> & _)%entries_highest & Hm)%elem_of_found_entry; [|done]. by exists i.
Qed.

Lemma rule_found i n : i ∈ rules -> filter_matches (topic i) t = true -> n ∈ names i -> n <> [] ->
  exists e, (n, e) ∈ l /\ rule_nr i <= snd e.
Proof.
  intros Hi Hm Hn Hne. destruct (entries rules !! (topic i, n)) as [e|] eqn:He.
  - exists e. split; [apply elem_of_found_entry; eauto|]. apply entries_highest in He as (j & Hj & Hg & -> & Hmax); [|done]. by apply Hmax.
  - rewrite entries_None in He. by destruct (He i Hi).
Qed.

Lemma found_decides Q n e : (n, e) ∈ l -> Q n -> (forall n' e', (n', e') ∈ l -> Q n' -> snd e' <= snd e) -> decides rules t Q (fst e).
Proof.
  intros Hin HQ Hmax. destruct (found_rule n e Hin) as (i & Hi & -> & Hm & Hn & Hne). exists i. split; [done|]. split; [split; [done | by exists n]|].
  split; [done|]. intros j Hj (Hmj & n' & Hn' & Hne' & HQ'). destruct (rule_found j n' Hj Hmj Hn' Hne') as (e' & He' & Hle).
  specialize (Hmax n' e' He' HQ'). simpl in Hmax. lia.
Qed.

Lemma found_undecided Q : (forall n e, (n, e) ∈ l -> ~ Q n) -> undecided rules t Q.
Proof.
  intros Hno i Hi (Hm & n & Hn & Hne & HQ). destruct (rule_found i n Hi Hm Hn Hne) as (e & He & _). by apply (Hno n e).
Qed.
End found.
End part.

(** *** Publishing *)

Definition pub_step (us : list name) : auth_type * Z -> name * (auth_type * Z) -> auth_type * Z :=
  fun '(result_type, priority) '(allowed_username, entry) =>
  if bool_decide (allowed_username ∈ us) && (priority <=? snd entry) then entry else (result_type, priority).

(** the search for the highest number *)
Lemma pub_steps us l : Forall (fun x => 0 <= snd (snd x)) l ->
  let best := foldl (pub_step us) (deny, 0) l in
  (best = (deny, 0) /\ forall n e, (n, e) ∈ l -> n ∉ us) \/
  exists n, (n, best) ∈ l /\ n ∈ us /\ forall n' e', (n', e') ∈ l -> n' ∈ us -> snd e' <= snd best.
Proof.
  cbv zeta. induction l as [|[n e] l IH] using rev_ind; intros Hpos; [left; split; [done | by intros n e ?%elem_of_nil]|].
  rewrite foldl_app. cbn [foldl]. apply Forall_app in Hpos as [Hpos He%Forall_inv]. specialize (IH Hpos). simpl in He.
  destruct (foldl (pub_step us) (deny, 0) l) as [ty p]. cbn [pub_step]. destruct (decide (n ∈ us)) as [Hn|Hn].
  - rewrite bool_decide_eq_true_2 by done. cbn [andb]. destruct (Z.leb_spec p (snd e)) as [Hle|Hlt].
    + right. exists n. split; [set_solver|]. split; [done|]. intros n' e' [Hin|[= -> ->]%list_elem_of_singleton]%elem_of_app Hn'; [|lia].
      destruct IH as [[_ Hno]|(m & _ & _ & Hmax)]; [by destruct (Hno n' e')|]. specialize (Hmax n' e' Hin Hn'). simpl in Hmax. lia.
    + destruct IH as [[[= -> ->] _]|(m & Hin & Hm & Hmax)]; [lia|]. right. exists m. split; [set_solver|]. split; [done|].
      intros n' e' [Hin'|[= -> ->]%list_elem_of_singleton]%elem_of_app Hn'; [by apply (Hmax n') | simpl; lia].
  - rewrite bool_decide_eq_false_2 by done. cbn [andb]. destruct IH as [[-> Hno]|(m & Hin & Hm & Hmax)].
    + left. split; [done|]. intros n' e' [Hin|[= -> ->]%list_elem_of_singleton]%elem_of_app; [by apply (Hno n' e') | done].
    + right. exists m. split; [set_solver|]. split; [done|]. intros n' e' [Hin'|[= -> ->]%list_elem_of_singleton]%elem_of_app Hn'; [by apply (Hmax n') | done].
Qed.

(** *** Subscribing *)

Lemma sub_steps {S} (s : S) l :
  exists result priorities, for_each (fun x maps => deref (auth_sub_entry maps x)) l (∅, ∅) s = Return (result, priorities) s /\
    forall n, (result !! n = None /\ priorities !! n = None /\ forall e, (n, e) ∉ l) \/
      exists ty p, result !! n = Some ty /\ priorities !! n = Some p /\ (n, (ty, p)) ∈ l /\ forall e, (n, e) ∈ l -> snd e <= p.
Proof.
  induction l as [|[n e] l IH] using rev_ind.
  { exists ∅, ∅. split; [done|]. intros n. left. rewrite !lookup_empty. split; [done|]. split; [done | by intros e ?%elem_of_nil]. }
  destruct IH as (result & priorities & Hrun & Hinv). rewrite (for_each_app _ _ _ _ _ _ _ Hrun). cbn [for_each].
  assert (Hset : (forall e', (n, e') ∈ l -> snd e' <= snd e) ->
    forall m, (<[n := fst e]> result !! m = None /\ <[n := snd e]> priorities !! m = None /\ forall e', (m, e') ∉ l ++ [(n, e)]) \/
      exists ty p, <[n := fst e]> result !! m = Some ty /\ <[n := snd e]> priorities !! m = Some p /\ (m, (ty, p)) ∈ l ++ [(n, e)] /\
        forall e', (m, e') ∈ l ++ [(n, e)] -> snd e' <= p).
  { intros Hmax m. destruct (decide (n = m)) as [<-|Hne].
    - right. exists (fst e), (snd e). rewrite !lookup_insert_eq. split; [done|]. split; [done|]. split; [destruct e; set_solver|].
      intros e' [Hin|[= ->]%list_elem_of_singleton]%elem_of_app; [by apply Hmax | lia].
    - rewrite !lookup_insert_ne by done. setoid_rewrite elem_of_app. setoid_rewrite list_elem_of_singleton.
      destruct (Hinv m) as [(H1 & H2 & H3)|(ty & p & H1 & H2 & H3 & H4)].
      + left. split; [done|]. split; [done|]. intros e' [Hin|[= -> _]]; [by apply (H3 e') | done].
      + right. exists ty, p. split; [done|]. split; [done|]. split; [by left|]. intros e' [Hin|[= -> _]]; [by apply H4 | done]. }
  unfold auth_sub_entry at 1. destruct (Hinv n) as [(Hr & Hp & Hno)|(ty & p & Hr & Hp & Hin & Hmax)]; rewrite Hr.
  - eexists _, _. split; [reflexivity|]. apply Hset. intros e' He'. by destruct (Hno e').
  - rewrite Hp. destruct (Z.leb_spec p (snd e)) as [Hle|Hlt].
    + eexists _, _. split; [reflexivity|]. apply Hset. intros e' He'. specialize (Hmax e' He'). lia.
    + exists result, priorities. split; [done|]. intros m. destruct (Hinv m) as [(H1 & H2 & H3)|(ty' & p' & H1 & H2 & H3 & H4)].
      * left. split; [done|]. split; [done|]. intros e' [Hin'|[= -> ->]%list_elem_of_singleton]%elem_of_app; [by apply (H3 e') | congruence].
      * right. exists ty', p'. split; [done|]. split; [done|]. split; [set_solver|].
        intros e' [Hin'|[= -> ->]%list_elem_of_singleton]%elem_of_app; [by apply H4 | simplify_eq; lia].
Qed.

(** ** The two maps *)

Definition known (s : security) (j : name) : bool :=
  if is_valid_group_name j then negb (absent j (groups_ s)) else if is_valid_user_name j then negb (absent j (authentication_ s)) else true.

Lemma group_or_user j : is_valid_group_name j = true -> is_valid_user_name j = false.
Proof. unfold is_valid_group_name, is_valid_user_name. destruct j as [|c j]; [done|]. cbn [head]. intros ->. by rewrite andb_false_r. Qed.

Lemma validate_entry_run j s :
  validate_entry j s = if known s j then Return tt s else Throw (if is_valid_group_name j then unknown_group else unknown_user) s.
Proof.
  unfold validate_entry, known. unfold mbind, action_bind, get. destruct (is_valid_group_name j) eqn:Hg; cbn [andb].
  - rewrite group_or_user by done. by destruct (absent j (groups_ s)).
  - destruct (is_valid_user_name j); cbn [andb]; [by destruct (absent j (authentication_ s)) | done].
Qed.

Lemma validate_entry_returns j s s' : validate_entry j s = Return tt s' -> s' = s /\ known s j = true.
Proof. rewrite validate_entry_run. destruct (known s j); [by intros [= <-] | done]. Qed.

Section maps.
Variables (part : security -> auth_map) (set_part : auth_map -> security -> security).
Hypothesis part_set : forall m s, part (set_part m s) = m.
Hypothesis set_set : forall m m' s, set_part m (set_part m' s) = set_part m s.
Hypothesis set_same : forall s, set_part (part s) s = s.

Definition insert_part (f j : list byte) (e : auth_type * Z) : program unit :=
  on_part part set_part (multiple_subscription_map.insert_or_assign f j e);; mret tt.
Definition erase_part (f j : list byte) : program unit :=
  on_part part set_part (multiple_subscription_map.erase f j);; mret tt.

Definition rule_weight (f : list byte) (js : list name) : Z := Z.of_nat (length js) * Z.of_nat (length (levels f)).

Lemma insert_part_run f j e s A w :
  within (part s) A w -> 0 <= w -> w + Z.of_nat (length (levels f)) < max_count ->
  exists m, insert_part f j e s = Return tt (set_part m s) /\ within m (<[(f, j) := e]> A) (w + Z.of_nat (length (levels f))).
Proof.
  intros Hin Hw Hlt. destruct (insert_within _ _ _ f j e Hin Hw Hlt) as (h & m & Hrun & Hin' & _). exists m. split; [|done].
  unfold insert_part, on_part. unfold mbind, action_bind. unfold multiple_subscription_map.insert_or_assign in *. by rewrite Hrun.
Qed.

(** the loop of [validate] over the names of a rule, if it returns *)
Lemma validate_names_run f e : forall js s A w s',
  for_each (fun j _ => validate_entry j;; if valid_name j then insert_part f j e else mret tt) js tt s = Return tt s' ->
  within (part s) A w -> 0 <= w -> w + rule_weight f js < max_count ->
  exists m, s' = set_part m s /\ within m (add_entries f e (List.filter valid_name js) A) (w + rule_weight f js).
Proof.
  unfold rule_weight. induction js as [|j js IH]; intros s A w s' Hrun Hin Hw Hlt.
  { injection Hrun as <-. exists (part s). rewrite set_same. split; [done|]. by rewrite Z.add_0_r. }
  cbn [for_each] in Hrun. apply bind_returns in Hrun as ([] & s1 & Hrun1 & Hrun). apply bind_returns in Hrun1 as ([] & s2 & Hval & Hrun1).
  apply validate_entry_returns in Hval as [-> _].
  cbn [length List.filter] in *. destruct (valid_name j).
  - destruct (insert_part_run f j e s A w Hin Hw ltac:(lia)) as (m & Hrun' & Hin'). rewrite Hrun' in Hrun1. injection Hrun1 as <-.
    destruct (IH (set_part m s) (<[(f, j) := e]> A) (w + Z.of_nat (length (levels f))) s' Hrun) as (m' & -> & Hin''); [by rewrite part_set | lia..|].
    exists m'. split; [by rewrite set_set|]. eapply within_weaken; [exact Hin'' | lia].
  - injection Hrun1 as <-. destruct (IH s A w s' Hrun Hin Hw) as (m & -> & Hin'); [lia|]. exists m. split; [done|].
    eapply within_weaken; [exact Hin' | lia].
Qed.

(** the names of one rule, or of its part *)
Lemma insert_names_run f e : forall js s A w,
  within (part s) A w -> 0 <= w -> w + rule_weight f js < max_count ->
  exists m, for_each (fun j _ => insert_part f j e) js tt s = Return tt (set_part m s) /\ within m (add_entries f e js A) (w + rule_weight f js).
Proof.
  unfold rule_weight. induction js as [|j js IH]; intros s A w Hin Hw Hlt.
  { exists (part s). rewrite set_same. split; [done|]. by rewrite Z.add_0_r. }
  cbn [length] in *. destruct (insert_part_run f j e s A w Hin Hw ltac:(lia)) as (m & Hrun & Hin').
  destruct (IH (set_part m s) (<[(f, j) := e]> A) (w + Z.of_nat (length (levels f)))) as (m' & Hrun' & Hin''); [by rewrite part_set | lia..|].
  exists m'. split; [|eapply within_weaken; [exact Hin'' | lia]]. rewrite (for_each_cons _ _ _ _ _ _ _ Hrun), Hrun'. by rewrite set_set.
Qed.

Lemma erase_names_run f : forall js s A w,
  within (part s) A w ->
  exists m, for_each (fun j _ => erase_part f j) js tt s = Return tt (set_part m s) /\ within m (remove_entries f js A) w.
Proof.
  induction js as [|j js IH]; intros s A w Hin; [exists (part s); by rewrite set_same|].
  destruct (erase_within _ _ _ f j Hin) as (m & Hrun & Hin').
  destruct (IH (set_part m s) (delete (f, j) A) w) as (m' & Hrun' & Hin''); [by rewrite part_set|].
  exists m'. split; [|done]. erewrite for_each_cons, Hrun'; [by rewrite set_set|].
  unfold erase_part, on_part. unfold mbind, action_bind. unfold multiple_subscription_map.erase in *. by rewrite Hrun.
Qed.
End maps.

(** ** The state of the rules *)

(** the maps hold the entries of the rules, and at most [w] nodes were made *)
Record rules_hold (s : security) (w : Z) : Prop := mk_rules_hold {
  rh_sub : within (auth_sub_map s) (entries sub sub_type (authorization_ s)) w;
  rh_pub : within (auth_pub_map s) (entries pub pub_type (authorization_ s)) w;
  rh_numbered : numbered (authorization_ s);
  rh_numbers : Forall (fun i => 1 <= rule_nr i <= w) (authorization_ s);
}.

Definition next_nr (rules : list authorization) : Z := foldl (fun nr i => Z.max nr (rule_nr i)) 0 rules + 1.

Lemma next_nr_spec rules w : 0 <= w -> Forall (fun i => 1 <= rule_nr i <= w) rules ->
  1 <= next_nr rules <= w + 1 /\ Forall (fun i => rule_nr i < next_nr rules) rules.
Proof.
  intros Hw. unfold next_nr. induction rules as [|i rules IH] using rev_ind; [split; [cbn; lia | constructor]|].
  intros [Hr Hi%Forall_inv]%Forall_app. destruct (IH Hr) as [Hn Hall]. rewrite foldl_app. cbn [foldl].
  set (n := foldl _ 0 rules) in *. split; [lia|]. apply Forall_app. split; [|constructor; [lia | constructor]].
  eapply Forall_impl; [exact Hall|]. cbn beta. lia.
Qed.

Lemma numbered_snoc rules i : numbered rules -> Forall (fun j => rule_nr j < rule_nr i) rules -> numbered (rules ++ [i]).
Proof.
  unfold numbered. intros Hn Hi. rewrite StronglySorted_app. rewrite Forall_forall in Hi. split; [|split; [done | repeat constructor]].
  intros x y Hx ->%list_elem_of_singleton. by apply Hi.
Qed.

Lemma numbered_remove l1 i l2 : numbered (l1 ++ i :: l2) -> numbered (l1 ++ l2).
Proof. unfold numbered. rewrite !StronglySorted_app, StronglySorted_cons. set_solver. Qed.

Lemma rules_hold_nonneg s w : rules_hold s w -> 0 <= w.
Proof. intros [(_ & _ & H) _ _ _]. lia. Qed.

Lemma get_next_rule_nr_run s w : rules_hold s w -> w < max_count -> get_next_rule_nr s = next_nr (authorization_ s).
Proof.
  intros Hh Hw. pose proof (rules_hold_nonneg _ _ Hh). destruct (next_nr_spec (authorization_ s) w ltac:(done) (rh_numbers _ _ Hh)) as [Hn _].
  unfold get_next_rule_nr. fold (next_nr (authorization_ s)). apply Z.mod_small. change max_count with (2 ^ 62 - 1) in Hw. lia.
Qed.

(** *** Adding a rule *)

Definition named (s : security) (j : name) : bool := valid_name j && known s j.

Lemma check_names_run s : forall js,
  for_each check_name js tt s = Return tt s /\ forallb (named s) js = true \/
  exists e, for_each check_name js tt s = Throw e s /\ forallb (named s) js = false.
Proof.
  induction js as [|j js IH]; [by left|]. cbn [for_each forallb].
  assert (Hcheck : check_name j tt s = if named s j then Return tt s else
    Throw (if valid_name j then (if is_valid_group_name j then unknown_group else unknown_user) else invalid_name) s).
  { unfold check_name, named. unfold mbind, action_bind. rewrite <- negb_orb. fold (valid_name j).
    destruct (valid_name j); [|done]. cbn. rewrite validate_entry_run. by destruct (known s j). }
  unfold mbind, action_bind. rewrite Hcheck. destruct (named s j); [|right; by eexists].
  destruct IH as [[-> ->]|(e & -> & ->)]; [by left | right; by exists e].
Qed.

Lemma valid_names_all s js : forallb (named s) js = true -> List.filter valid_name js = js.
Proof.
  induction js as [|j js IH]; [done|]. cbn [forallb List.filter]. unfold named at 1. intros [[-> _]%andb_true_iff Hjs]%andb_true_iff.
  by rewrite IH.
Qed.

Definition new_rule (topic_filter : list byte) (pub : list name) (auth_pub_type : auth_type) (sub : list name) (auth_sub_type : auth_type)
    (nr : Z) : authorization :=
  mk_authorization (get_topic_filter_tokens topic_filter) topic_filter nr auth_sub_type sub auth_pub_type pub.

Definition auth_weight (f : list byte) (pub sub : list name) : Z := 1 + rule_weight f pub + rule_weight f sub.

Lemma rule_weight_nonneg f js : 0 <= rule_weight f js.
Proof. unfold rule_weight. lia. Qed.

Lemma entries_add names type rules i js :
  valid_names names i = js -> entries names type (rules ++ [i]) = add_entries (topic i) (type i, rule_nr i) js (entries names type rules).
Proof. intros <-. unfold entries. by rewrite foldl_app. Qed.

(** both maps take the entries of a rule *)
Lemma insert_rule_run f nr st ss pt ps s w : rules_hold s w -> w + auth_weight f ps ss < max_count ->
  exists s', for_each (fun j _ => insert_sub f j (st, nr)) ss tt s = Return tt (set_auth_sub_map (auth_sub_map s') s) /\
    for_each (fun j _ => insert_pub f j (pt, nr)) ps tt (set_auth_sub_map (auth_sub_map s') s) = Return tt s' /\
    groups_ s' = groups_ s /\ authentication_ s' = authentication_ s /\ authorization_ s' = authorization_ s /\
    within (auth_sub_map s') (add_entries f (st, nr) ss (entries sub sub_type (authorization_ s))) (w + auth_weight f ps ss) /\
    within (auth_pub_map s') (add_entries f (pt, nr) ps (entries pub pub_type (authorization_ s))) (w + auth_weight f ps ss).
Proof.
  intros Hh Hlt. pose proof (rules_hold_nonneg _ _ Hh) as Hw. pose proof (rule_weight_nonneg f ps). pose proof (rule_weight_nonneg f ss).
  unfold auth_weight in *.
  destruct (insert_names_run auth_sub_map set_auth_sub_map (fun _ _ => eq_refl) (fun _ _ _ => eq_refl) ltac:(by intros []) f (st, nr) ss s _ w
    (rh_sub _ _ Hh) Hw ltac:(lia)) as (m1 & Hrun1 & Hin1).
  destruct (insert_names_run auth_pub_map set_auth_pub_map (fun _ _ => eq_refl) (fun _ _ _ => eq_refl) ltac:(by intros []) f (pt, nr) ps
    (set_auth_sub_map m1 s) _ w (rh_pub _ _ Hh) Hw ltac:(lia)) as (m2 & Hrun2 & Hin2).
  exists (set_auth_pub_map m2 (set_auth_sub_map m1 s)). split; [exact Hrun1|]. split; [exact Hrun2|].
  split; [done|]. split; [done|]. split; [done|]. split; (eapply within_weaken; [done | lia]).
Qed.

Lemma add_auth_run s w f ps pt ss st : rules_hold s w -> w + auth_weight f ps ss < max_count ->
  (forallb (named s) (ps ++ ss) = true /\ exists s', add_auth f ps pt ss st s = Return (next_nr (authorization_ s)) s' /\
     rules_hold s' (w + auth_weight f ps ss) /\ groups_ s' = groups_ s /\ authentication_ s' = authentication_ s /\
     authorization_ s' = authorization_ s ++ [new_rule f ps pt ss st (next_nr (authorization_ s))]) \/
  (forallb (named s) (ps ++ ss) = false /\ exists e, add_auth f ps pt ss st s = Throw e s).
Proof.
  intros Hh Hlt. pose proof (rules_hold_nonneg _ _ Hh) as Hw. pose proof (rule_weight_nonneg f ps). pose proof (rule_weight_nonneg f ss).
  rewrite forallb_app. unfold add_auth. unfold mbind, action_bind.
  destruct (check_names_run s ps) as [[-> Hps]|(e & -> & ->)]; [|right; by eauto]. rewrite Hps. cbn [andb].
  destruct (check_names_run s ss) as [[-> Hss]|(e & -> & ->)]; [|right; by eauto]. left. split; [done|]. cbn [get].
  rewrite (get_next_rule_nr_run s w Hh) by (unfold auth_weight in *; lia). set (nr := next_nr _).
  destruct (insert_rule_run f nr st ss pt ps s w Hh Hlt) as (s' & -> & -> & Hg & Ha & Hz & Hins & Hinp).
  destruct (next_nr_spec (authorization_ s) w Hw (rh_numbers _ _ Hh)) as [Hnr Hlow]. fold nr in Hnr, Hlow.
  eexists. split; [reflexivity|]. cbn [authorization_ set_authorization_ groups_ authentication_]. rewrite Hz.
  split; [|done]. split; cbn [authorization_ set_authorization_ auth_pub_map auth_sub_map]; rewrite ?Hz.
  - rewrite (entries_add _ _ _ _ ss); [done | by apply (valid_names_all s)].
  - rewrite (entries_add _ _ _ _ ps); [done | by apply (valid_names_all s)].
  - by apply numbered_snoc; [apply Hh|].
  - apply Forall_app. split; [|constructor; [cbn; unfold auth_weight; lia | constructor]].
    eapply Forall_impl; [apply Hh|]. cbn beta. unfold auth_weight. lia.
Qed.

(** *** Removing a rule *)

Lemma take_rule_split nr rules i rest : take_rule nr rules = Some (i, rest) ->
  exists l1 l2, rules = l1 ++ i :: l2 /\ rest = l1 ++ l2 /\ rule_nr i = nr.
Proof.
  revert rest. induction rules as [|j rules IH]; intros rest; cbn [take_rule]; [done|]. destruct (Z.eqb_spec (rule_nr j) nr) as [Hj|Hj].
  { intros [= -> ->]. by exists [], rest. }
  destruct (take_rule nr rules) as [[k rest']|] eqn:Ht; [|done]. intros [= -> <-].
  destruct (IH rest' eq_refl) as (l1 & l2 & -> & -> & Hi). by exists (j :: l1), l2.
Qed.

(** no other rule gives a filter and a name that this one gives *)
Definition unshared (names : authorization -> list name) (i : authorization) (rest : list authorization) : Prop :=
  forall f n, gives names i f n -> forall j, j ∈ rest -> ~ gives names j f n.

Definition removable_rule (nr : Z) (rules : list authorization) : Prop :=
  match take_rule nr rules with Some (i, rest) => unshared sub i rest /\ unshared pub i rest | None => True end.

Lemma unshared_forall names i rest :
  Forall (fun j => topic j = topic i -> Forall (fun n => n ∈ names i -> n = []) (names j)) rest <-> unshared names i rest.
Proof.
  rewrite Forall_forall. unfold unshared, gives. split.
  - intros H f n (<- & Hn & Hne) j Hj (Ht & Hnj & _). specialize (H j Hj Ht). rewrite Forall_forall in H. auto.
  - intros H j Hj Ht. apply Forall_forall. intros n Hnj Hn. destruct n as [|c n]; [done|]. exfalso. by apply (H (topic i) (c :: n) ltac:(done) j Hj).
Qed.

#[export] Instance unshared_dec names i rest : Decision (unshared names i rest).
Proof.
  refine (cast_if (decide (Forall (fun j => topic j = topic i -> Forall (fun n => n ∈ names i -> n = []) (names j)) rest)));
    by rewrite <- unshared_forall.
Defined.

#[export] Instance removable_rule_dec nr rules : Decision (removable_rule nr rules).
Proof. unfold removable_rule. destruct (take_rule nr rules) as [[i rest]|]; apply _. Defined.

Definition without_rule (nr : Z) (rules : list authorization) : list authorization :=
  match take_rule nr rules with Some (_, rest) => rest | None => rules end.

Lemma remove_auth_run s w nr : rules_hold s w -> removable_rule nr (authorization_ s) ->
  exists s', remove_auth nr s = Return tt s' /\ rules_hold s' w /\ groups_ s' = groups_ s /\ authentication_ s' = authentication_ s /\
    authorization_ s' = without_rule nr (authorization_ s).
Proof.
  intros Hh Hrm. unfold removable_rule, without_rule, remove_auth, get in *. unfold mbind, action_bind.
  destruct (take_rule nr (authorization_ s)) as [[i rest]|] eqn:Ht; [|by exists s]. destruct Hrm as [Hus Hup].
  apply take_rule_split in Ht as (l1 & l2 & Hr & -> & _).
  destruct (erase_names_run auth_sub_map set_auth_sub_map (fun _ _ => eq_refl) (fun _ _ _ => eq_refl) ltac:(by intros []) (topic i) (sub i) s _ w
    (rh_sub _ _ Hh)) as (m1 & Hrun1 & Hin1).
  destruct (erase_names_run auth_pub_map set_auth_pub_map (fun _ _ => eq_refl) (fun _ _ _ => eq_refl) ltac:(by intros []) (topic i) (pub i)
    (set_auth_sub_map m1 s) _ w (rh_pub _ _ Hh)) as (m2 & Hrun2 & Hin2).
  exists (set_authorization_ (l1 ++ l2) (set_auth_pub_map m2 (set_auth_sub_map m1 s))). split.
  { change (for_each _ (sub i) tt s) with (for_each (fun j _ => erase_part auth_sub_map set_auth_sub_map (topic i) j) (sub i) tt s).
    rewrite Hrun1.
    change (for_each _ (pub i) tt _) with (for_each (fun j _ => erase_part auth_pub_map set_auth_pub_map (topic i) j) (pub i) tt (set_auth_sub_map m1 s)).
    by rewrite Hrun2. }
  split; [|done]. split; cbn [authorization_ set_authorization_ auth_pub_map auth_sub_map set_auth_pub_map set_auth_sub_map].
  - rewrite (entries_remove _ _ l1 i l2 Hus), <- Hr. done.
  - rewrite (entries_remove _ _ l1 i l2 Hup), <- Hr. done.
  - apply (numbered_remove l1 i l2). rewrite <- Hr. apply Hh.
  - pose proof (rh_numbers _ _ Hh) as Hn. rewrite Hr in Hn. rewrite Forall_app, Forall_cons in Hn. apply Forall_app. tauto.
Qed.

(** ** The configuration *)

(** before [validate]: the maps are empty and the rules numbered *)
Definition loading (s : security) : Prop :=
  auth_pub_map s = make_subscription_map /\ auth_sub_map s = make_subscription_map /\
  (Z.of_nat (length (authorization_ s)) < max_count ->
   numbered (authorization_ s) /\ Forall (fun i => 1 <= rule_nr i <= Z.of_nat (length (authorization_ s))) (authorization_ s)).

Lemma loading_push s i : loading s -> rule_nr i = get_next_rule_nr s -> loading (set_authorization_ (authorization_ s ++ [i]) s).
Proof.
  intros (Hp & Hs & Hn) Hi. split; [done|]. split; [done|]. cbn [authorization_ set_authorization_]. rewrite length_app. cbn [length]. intros Hlen.
  destruct Hn as [Hnum Hbound]; [lia|].
  destruct (next_nr_spec (authorization_ s) (Z.of_nat (length (authorization_ s))) ltac:(lia) Hbound) as [Hnr Hlow].
  assert (Hi' : rule_nr i = next_nr (authorization_ s)).
  { rewrite Hi. unfold get_next_rule_nr. fold (next_nr (authorization_ s)). apply Z.mod_small. change max_count with (2 ^ 62 - 1) in Hlen. lia. }
  split; [apply numbered_snoc; [done | by rewrite Hi']|]. apply Forall_app. split; [|constructor; [lia | constructor]].
  eapply Forall_impl; [exact Hbound|]. cbn beta. lia.
Qed.

Lemma loading_new : loading make_security.
Proof. split; [done|]. split; [done|]. intros _. split; constructor. Qed.

(** the nodes that the entries of the rules may need *)
Definition rules_weight (rules : list authorization) : Z :=
  foldr (fun i w => auth_weight (topic i) (pub i) (sub i) + w) 0 rules.

Lemma rules_weight_length rules : Z.of_nat (length rules) <= rules_weight rules.
Proof.
  induction rules as [|i rules IH]; cbn [length rules_weight foldr]; [lia|]. unfold auth_weight at 1. fold (rules_weight rules).
  pose proof (rule_weight_nonneg (topic i) (pub i)). pose proof (rule_weight_nonneg (topic i) (sub i)). lia.
Qed.

Lemma validate_rule_run s i w s' Es Ep :
  validate_rule i s = Return tt s' -> within (auth_sub_map s) Es w -> within (auth_pub_map s) Ep w -> 0 <= w ->
  w + auth_weight (topic i) (pub i) (sub i) < max_count ->
  exists m1 m2, s' = set_auth_pub_map m2 (set_auth_sub_map m1 s) /\
    within m1 (add_entries (topic i) (sub_type i, rule_nr i) (valid_names sub i) Es) (w + auth_weight (topic i) (pub i) (sub i)) /\
    within m2 (add_entries (topic i) (pub_type i, rule_nr i) (valid_names pub i) Ep) (w + auth_weight (topic i) (pub i) (sub i)).
Proof.
  intros Hrun Hs Hp Hw Hlt. pose proof (rule_weight_nonneg (topic i) (pub i)). pose proof (rule_weight_nonneg (topic i) (sub i)).
  unfold auth_weight in *. apply bind_returns in Hrun as ([] & s1 & Hrun1 & Hrun2).
  destruct (validate_names_run auth_sub_map set_auth_sub_map (fun _ _ => eq_refl) (fun _ _ _ => eq_refl) ltac:(by intros [])
    (topic i) (sub_type i, rule_nr i) (sub i) s Es w s1 Hrun1 Hs Hw ltac:(lia)) as (m1 & -> & Hin1).
  destruct (validate_names_run auth_pub_map set_auth_pub_map (fun _ _ => eq_refl) (fun _ _ _ => eq_refl) ltac:(by intros [])
    (topic i) (pub_type i, rule_nr i) (pub i) (set_auth_sub_map m1 s) Ep w s' Hrun2 Hp Hw ltac:(lia)) as (m2 & -> & Hin2).
  exists m1, m2. split; [done|]. split; (eapply within_weaken; [done | lia]).
Qed.

Lemma validate_rules_run : forall rest before s w s',
  for_each (fun i _ => validate_rule i) rest tt s = Return tt s' ->
  within (auth_sub_map s) (entries sub sub_type before) w -> within (auth_pub_map s) (entries pub pub_type before) w -> 0 <= w ->
  w + rules_weight rest < max_count ->
  within (auth_sub_map s') (entries sub sub_type (before ++ rest)) (w + rules_weight rest) /\
  within (auth_pub_map s') (entries pub pub_type (before ++ rest)) (w + rules_weight rest) /\
  authorization_ s' = authorization_ s /\ groups_ s' = groups_ s /\ authentication_ s' = authentication_ s.
Proof.
  induction rest as [|i rest IH]; intros before s w s' Hrun Hs Hp Hw Hlt.
  { injection Hrun as <-. by rewrite app_nil_r, Z.add_0_r. }
  cbn [for_each] in Hrun. apply bind_returns in Hrun as ([] & s1 & Hrun1 & Hrun). cbn [rules_weight foldr] in *. fold (rules_weight rest) in *.
  pose proof (rules_weight_length rest). pose proof (rule_weight_nonneg (topic i) (pub i)). pose proof (rule_weight_nonneg (topic i) (sub i)).
  assert (Hi : 0 <= auth_weight (topic i) (pub i) (sub i)) by (unfold auth_weight; lia).
  destruct (validate_rule_run s i w s1 _ _ Hrun1 Hs Hp Hw ltac:(lia)) as (m1 & m2 & -> & Hin1 & Hin2).
  rewrite <- (entries_add sub sub_type before i _ eq_refl) in Hin1. rewrite <- (entries_add pub pub_type before i _ eq_refl) in Hin2.
  destruct (IH (before ++ [i]) _ _ s' Hrun Hin1 Hin2 ltac:(lia) ltac:(lia)) as (Hs' & Hp' & Heq).
  rewrite <- app_assoc, <- Z.add_assoc in Hs', Hp'. done.
Qed.

Lemma within_new : within make_subscription_map (∅ : entry_map) 0.
Proof. split; [apply holds_new|]. by rewrite map_size_empty. Qed.

Ltac preserves := repeat match goal with
  | |- preserves _ (if ?b then _ else _) => destruct b
  | |- preserves _ (match ?x with _ => _ end) => destruct x
  | |- preserves _ (for_each _ _ _) => apply preserves_for_each; intros
  | |- preserves _ (_ ≫= _) => apply preserves_bind; [|intros]
  | |- _ => solve [auto with preserves]
  end.

Lemma validate_run s s' : validate s = Return tt s' -> loading s -> rules_weight (authorization_ s) < max_count ->
  rules_hold s' (rules_weight (authorization_ s')) /\ authorization_ s' = authorization_ s /\ groups_ s' = groups_ s.
Proof.
  intros (s0 & ? & [= <- <-] & ([] & s1 & Hgroups & Hrun)%bind_returns)%bind_returns (Hp & Hs & Hn) Hlt.
  assert (s1 = s) as ->.
  { refine ((_ : preserves (fun x => x = s) _) s tt s1 eq_refl Hgroups). preserves. }
  pose proof (rules_weight_length (authorization_ s)).
  destruct (validate_rules_run (authorization_ s) [] s 0 s' Hrun) as (Hs' & Hp' & Hz & Hg & Ha);
    [rewrite Hs; apply within_new | rewrite Hp; apply within_new | done | done |].
  destruct Hn as [Hnum Hbound]; [lia|]. rewrite Hz. split; [|done]. cbn [app] in *. rewrite Z.add_0_l in *. split; rewrite ?Hz; try done.
  eapply Forall_impl; [exact Hbound|]. cbn beta. lia.
Qed.

Lemma insert_authorization rules f j e :
  preserves (fun s => authorization_ s = rules) (insert_sub f j e) /\ preserves (fun s => authorization_ s = rules) (insert_pub f j e).
Proof.
  unfold insert_sub, insert_pub. split; apply preserves_bind; intros; try apply preserves_ret; intros s a s' Hs.
  - unfold on_sub_map, on_part. by destruct (multiple_subscription_map.insert_or_assign f j e _); intros [= _ <-].
  - unfold on_pub_map, on_part. by destruct (multiple_subscription_map.insert_or_assign f j e _); intros [= _ <-].
Qed.

Lemma validate_authorization rules : preserves (fun s => authorization_ s = rules) validate.
Proof.
  unfold validate, validate_rule, validate_entry. preserves; apply insert_authorization.
Qed.

(** [p] ends with [q], and keeps [P] before *)
Definition ends_with {A} (P : security -> Prop) (p q : program A) : Prop :=
  forall s a s', P s -> p s = Return a s' -> exists s0, P s0 /\ q s0 = Return a s'.

Lemma ends_with_itself {A} P (p : program A) : ends_with P p p.
Proof. intros s a s' HP Hrun. by exists s. Qed.

Lemma ends_with_bind {A B} P (m : program A) (f : A -> program B) q :
  preserves P m -> (forall a, ends_with P (f a) q) -> ends_with P (m ≫= f) q.
Proof. intros Hm Hf s b s'' HP (a & s' & Ha & Hb)%bind_returns. eapply Hf; [|exact Hb]. by eapply Hm. Qed.

Lemma preserves_get_bind {A} P (f : security -> program A) :
  (forall s a s', P s -> f s s = Return a s' -> P s') -> preserves P (get ≫= f).
Proof. intros Hf s a s' HP Hrun. by eapply Hf. Qed.

Lemma loading_modify f : (forall s, authorization_ (f s) = authorization_ s /\ auth_pub_map (f s) = auth_pub_map s /\ auth_sub_map (f s) = auth_sub_map s) ->
  preserves loading (modify f).
Proof. intros Hf. apply preserves_modify. intros s. unfold loading. by destruct (Hf s) as (-> & -> & ->). Qed.

Lemma loading_authentication n a : preserves loading (insert_authentication n a).
Proof. by apply loading_modify. Qed.
Lemma loading_group n g : preserves loading (insert_group n g).
Proof. by apply loading_modify. Qed.
Lemma loading_anonymous x : preserves loading (modify (set_anonymous x)).
Proof. by apply loading_modify. Qed.
Lemma loading_unauthenticated x : preserves loading (modify (set_unauthenticated x)).
Proof. by apply loading_modify. Qed.
#[local] Hint Resolve loading_authentication loading_group loading_anonymous loading_unauthenticated : preserves.

Section configuration.
Context `{PT : BoostPropertyTree}.

Lemma loading_get_string k t : preserves loading (get_string k t).
Proof. unfold get_string, get_child. preserves. Qed.
#[local] Hint Resolve loading_get_string : preserves.

Lemma loading_load_authentication i : preserves loading (load_authentication i).
Proof. unfold load_authentication. preserves. Qed.

Lemma loading_load_group i : preserves loading (load_group i).
Proof. unfold load_group, load_member. preserves. Qed.

Lemma load_type_rule_nr key type i auth : rule_nr (load_type key type i auth) = rule_nr auth.
Proof. unfold load_type. by repeat case_match. Qed.

Lemma loading_load_authorization i : preserves loading (load_authorization i).
Proof.
  unfold load_authorization. apply preserves_bind; [apply loading_get_string | intros name]. apply preserves_bind; [preserves | intros _].
  apply preserves_get_bind. intros s a s' Hs [= _ <-]. apply loading_push; [done|]. by rewrite !load_type_rule_nr.
Qed.
#[local] Hint Resolve loading_load_authentication loading_load_group loading_load_authorization : preserves.

Lemma load_json_validate input : ends_with loading (load_json input) validate.
Proof.
  unfold load_json, get_child. repeat first [apply ends_with_itself | apply ends_with_bind; [preserves | intros]].
Qed.

Lemma default_config_validate : ends_with loading default_config validate.
Proof.
  unfold default_config. apply ends_with_bind; [preserves | intros _]. apply ends_with_bind; [preserves | intros _].
  intros s [] s' Hs (s0 & ? & [= <- <-] & ([] & s1 & [= <-] & ([] & s2 & Hgroup & Hval)%bind_returns)%bind_returns)%bind_returns.
  exists s2. split; [|done]. eapply loading_group; [|exact Hgroup]. by apply loading_push.
Qed.

(** a broker starts with the configuration of a file, or with the default *)
Definition configured (s : security) : Prop :=
  (exists input, load_json input make_security = Return tt s) \/ default_config make_security = Return tt s.

Lemma configured_rules s : configured s -> rules_weight (authorization_ s) < max_count -> rules_hold s (rules_weight (authorization_ s)).
Proof.
  intros Hc Hlt. assert (exists s0, loading s0 /\ validate s0 = Return tt s) as (s0 & Hs0 & Hval).
  { destruct Hc as [[input Hrun]|Hrun]; [apply (load_json_validate input) in Hrun | apply default_config_validate in Hrun]; try apply loading_new; done. }
  assert (Hz : authorization_ s = authorization_ s0).
  { by apply (validate_authorization (authorization_ s0) s0 tt). }
  destruct (validate_run s0 s Hval Hs0) as (Hh & _); [by rewrite <- Hz | done].
Qed.
End configuration.
