(* ===== verification/SecuritySpec.v ===== *)
(** * The rules as a specification

    After a configuration was loaded and rules were added and removed, who may
    publish and who gets what is published is decided by the list of rules:
    this file states how, and proves it of the functions that use the maps. *)
From Stdlib Require Import Strings.String.
From S2P Require Import Prelude Boost Action TopicFilter SubscriptionMap SubscriptionTree SubscriptionSpec Security SecurityFilters SecurityRules.

(** ** Calls that change the rules *)

Inductive rule_call :=
| call_add (topic_filter : list byte) (pub : list name) (pub_type : auth_type) (sub : list name) (sub_type : auth_type)
| call_remove (rule_nr : Z).

(** the caller goes on after an exception *)
Definition attempt {S A} (p : action S A) : action S (option A) := fun s =>
  match p s with
  | Return a s => Return (Some a) s
  | Throw _ s => Return None s
  | Undefined => Undefined
  end.

Definition run_rule_call (c : rule_call) : program (option Z) :=
  match c with
  | call_add f pub pub_type sub sub_type => attempt (add_auth f pub pub_type sub sub_type)
  | call_remove nr => remove_auth nr;; mret None
  end.

Fixpoint run_rule_calls (cs : list rule_call) : program (list (option Z)) :=
  match cs with
  | [] => mret []
  | c :: cs => r ← run_rule_call c; rs ← run_rule_calls cs; mret (r :: rs)
  end.

(** a rule is added with the next number when all its names are [known] *)
Definition spec_rule_call (ok : name -> bool) (c : rule_call) (rules : list authorization) : list authorization * option Z :=
  match c with
  | call_add f pub pub_type sub sub_type =>
    if forallb ok (pub ++ sub) then (rules ++ [new_rule f pub pub_type sub sub_type (next_nr rules)], Some (next_nr rules)) else (rules, None)
  | call_remove nr => (without_rule nr rules, None)
  end.

Fixpoint spec_rule_calls (ok : name -> bool) (cs : list rule_call) (rules : list authorization) : list authorization * list (option Z) :=
  match cs with
  | [] => (rules, [])
  | c :: cs => let (rules, r) := spec_rule_call ok c rules in let (rules, rs) := spec_rule_calls ok cs rules in (rules, r :: rs)
  end.

(** no rule that is removed shares a filter and a name with one that stays *)
Fixpoint calls_removable (ok : name -> bool) (cs : list rule_call) (rules : list authorization) : Prop :=
  match cs with
  | [] => True
  | c :: cs =>
    match c with call_remove nr => removable_rule nr rules | _ => True end /\ calls_removable ok cs (fst (spec_rule_call ok c rules))
  end.

#[export] Instance calls_removable_dec ok cs rules : Decision (calls_removable ok cs rules).
Proof.
  revert rules. induction cs as [|c cs IH]; intros rules; cbn [calls_removable]; [apply _|].
  apply and_dec; [destruct c; apply _ | apply IH].
Defined.

Definition call_weight (c : rule_call) : Z := match c with call_add f pub _ sub _ => auth_weight f pub sub | call_remove _ => 0 end.
Definition calls_weight (cs : list rule_call) : Z := foldr (fun c w => call_weight c + w) 0 cs.

Section calls.
Lemma call_weight_nonneg c : 0 <= call_weight c.
Proof. destruct c as [f pub ? sub ?|]; cbn; [|lia]. unfold auth_weight. pose proof (rule_weight_nonneg f pub). pose proof (rule_weight_nonneg f sub). lia. Qed.

Lemma calls_weight_nonneg cs : 0 <= calls_weight cs.
Proof. induction cs as [|c cs IH]; cbn; [lia|]. pose proof (call_weight_nonneg c). fold (calls_weight cs). lia. Qed.

Lemma named_ext s s' : groups_ s' = groups_ s -> authentication_ s' = authentication_ s -> named s' = named s.
Proof. unfold named, known. by intros -> ->. Qed.

Lemma rule_call_run s w c : rules_hold s w -> w + call_weight c < max_count ->
  match c with call_remove nr => removable_rule nr (authorization_ s) | _ => True end ->
  exists s', run_rule_call c s = Return (snd (spec_rule_call (named s) c (authorization_ s))) s' /\ rules_hold s' (w + call_weight c) /\
    groups_ s' = groups_ s /\ authentication_ s' = authentication_ s /\
    authorization_ s' = fst (spec_rule_call (named s) c (authorization_ s)).
Proof.
  intros Hh Hlt Hrm. destruct c as [f ps pt ss st|nr]; cbn [run_rule_call spec_rule_call call_weight] in *.
  - unfold attempt. destruct (add_auth_run s w f ps pt ss st Hh Hlt) as [(-> & s' & -> & Hh' & Hg & Ha & Hz)|(-> & e & ->)].
    + by exists s'.
    + exists s. split; [done|]. split; [|done]. destruct Hh as [Hs Hp Hn Hb]. pose proof (call_weight_nonneg (call_add f ps pt ss st)) as Hw.
      cbn in Hw. split; [eapply within_weaken; [done | lia].. | done |]. eapply Forall_impl; [exact Hb|]. cbn beta. lia.
  - destruct (remove_auth_run s w nr Hh Hrm) as (s' & Hrun & Hh' & Hg & Ha & Hz). exists s'. rewrite Z.add_0_r. split; [|done].
    exact (bind_return _ _ _ _ _ Hrun).
Qed.

Lemma rule_calls_run : forall cs s w, rules_hold s w -> w + calls_weight cs < max_count ->
  calls_removable (named s) cs (authorization_ s) ->
  exists s', run_rule_calls cs s = Return (snd (spec_rule_calls (named s) cs (authorization_ s))) s' /\ rules_hold s' (w + calls_weight cs) /\
    groups_ s' = groups_ s /\ authorization_ s' = fst (spec_rule_calls (named s) cs (authorization_ s)).
Proof.
  induction cs as [|c cs IH]; intros s w Hh Hlt Hrm; [exists s; rewrite Z.add_0_r; done|].
  cbn [run_rule_calls spec_rule_calls calls_removable calls_weight foldr] in *. fold (calls_weight cs) in *. destruct Hrm as [Hrm Hrms].
  pose proof (calls_weight_nonneg cs). destruct (rule_call_run s w c Hh ltac:(lia) Hrm) as (s1 & Hrun1 & Hh1 & Hg1 & Ha1 & Hz1).
  destruct (spec_rule_call (named s) c (authorization_ s)) as [rules r]. cbn [fst snd] in *.
  destruct (IH s1 (w + call_weight c) Hh1 ltac:(lia)) as (s2 & Hrun2 & Hh2 & Hg2 & Hz2); [by rewrite (named_ext s s1), Hz1|].
  rewrite (named_ext s s1), Hz1 in Hrun2, Hz2 by done. destruct (spec_rule_calls (named s) cs rules) as [rules' rs]. cbn [fst snd] in *.
  exists s2. split; [|rewrite Z.add_assoc; split; [done|]; split; [congruence | done]].
  etransitivity; [exact (bind_return _ _ _ _ _ Hrun1)|]. etransitivity; [exact (bind_return _ _ _ _ _ Hrun2) | done].
Qed.
End calls.

(** ** Decisions *)

(** the name of a user, or of a group the user is in *)
Definition stands_for (u : name) (s : security) (n : name) : Prop := n = u \/ exists g, (n, g) ∈ groups_ s /\ in_group u (n, g) = true.

(** publishing: the rule with the highest number that names the user or a
    group of the user decides, and without one it is denied *)
Definition pub_decision (rules : list authorization) (t : list byte) (u : name) (s : security) (ty : auth_type) : Prop :=
  decides pub pub_type rules t (stands_for u s) ty \/ (undecided pub rules t (stands_for u s) /\ ty = deny).

(** subscribing: the first of some names that a rule gives decides, by the
    rule with the highest number that gives it *)
Fixpoint sub_decision (rules : list authorization) (t : list byte) (ns : list name) (ty : auth_type) : Prop :=
  match ns with
  | [] => ty = deny
  | n :: ns => decides sub sub_type rules t (eq n) ty \/ (undecided sub rules t (eq n) /\ sub_decision rules t ns ty)
  end.

(** the user, then the groups of the user in the order of the map *)
Definition names_of (u : name) (s : security) : list name := u :: map fst (List.filter (in_group u) (groups_ s)).

Section decisions.
Lemma auth_pub_run s w t u : rules_hold s w -> plain_topic t ->
  exists ty, auth_pub t u s = Return ty s /\ pub_decision (authorization_ s) t u s ty.
Proof.
  intros Hh Ht. destruct (rh_pub _ _ Hh) as (Hm & _). destruct (find_run (auth_pub_map s) _ t Hm Ht) as (l & Hrun & Hl).
  assert (Hpos : Forall (fun x => 0 <= snd (snd x)) l).
  { apply Forall_forall. intros [n e] Hin. destruct (found_rule pub pub_type (authorization_ s) t l (rh_numbered _ _ Hh) Hl n e Hin)
      as (i & Hi & -> & _). pose proof (rh_numbers _ _ Hh) as Hb. rewrite Forall_forall in Hb. specialize (Hb i Hi). cbn. lia. }
  exists (fst (foldl (pub_step (username_and_groups u s)) (deny, 0) l)). split.
  { unfold auth_pub, get. unfold mbind, action_bind, on_pub_map, on_part. unfold multiple_subscription_map.find in *. rewrite Hrun. by destruct s. }
  assert (HQ : forall n, n ∈ username_and_groups u s <-> stands_for u s n) by (intros n; apply username_and_groups_elem).
  destruct (pub_steps (username_and_groups u s) l Hpos) as [[Hbest Hno]|(n & Hin & Hn & Hmax)].
  - right. rewrite Hbest. split; [|done]. apply (found_undecided pub pub_type (authorization_ s) t l (rh_numbered _ _ Hh) Hl).
    intros n e He HQn. by apply (Hno n e He), HQ.
  - left. apply (found_decides pub pub_type (authorization_ s) t l (rh_numbered _ _ Hh) Hl _ n); [done | by apply HQ|].
    intros n' e' He' HQ'. apply (Hmax n' e' He'), HQ, HQ'.
Qed.

Lemma auth_sub_run s w t : rules_hold s w -> plain_topic t ->
  exists result, auth_sub t s = Return result s /\ forall n,
    match result !! n with
    | Some ty => decides sub sub_type (authorization_ s) t (eq n) ty
    | None => undecided sub (authorization_ s) t (eq n)
    end.
Proof.
  intros Hh Ht. destruct (rh_sub _ _ Hh) as (Hm & _). destruct (find_run (auth_sub_map s) _ t Hm Ht) as (l & Hrun & Hl).
  destruct (sub_steps s l) as (result & priorities & Hsteps & Hinv). exists result. split.
  { unfold auth_sub. unfold mbind, action_bind, on_sub_map, on_part. unfold multiple_subscription_map.find in *. rewrite Hrun.
    replace (set_auth_sub_map (auth_sub_map s) s) with s by by destruct s. by rewrite Hsteps. }
  intros n. destruct (Hinv n) as [(-> & _ & Hno)|(ty & p & -> & _ & Hin & Hmax)].
  - apply (found_undecided sub sub_type (authorization_ s) t l (rh_numbered _ _ Hh) Hl). intros n' e He <-. by apply (Hno e).
  - apply (found_decides sub sub_type (authorization_ s) t l (rh_numbered _ _ Hh) Hl (eq n) n (ty, p)); [done | done|].
    intros n' e' He' <-. by apply Hmax.
Qed.

Lemma first_group_decision rules t u result gs :
  (forall n, match result !! n with Some ty => decides sub sub_type rules t (eq n) ty | None => undecided sub rules t (eq n) end) ->
  sub_decision rules t (map fst (List.filter (in_group u) gs)) (first_group u result gs).
Proof.
  intros Hr. induction gs as [|i gs IH]; [done|]. cbn [first_group List.filter]. destruct (in_group u i); [|done].
  cbn [map sub_decision]. specialize (Hr (fst i)). destruct (result !! fst i); [by left | by right].
Qed.

Lemma auth_sub_user_decision s t u result :
  (forall n, match result !! n with
             | Some ty => decides sub sub_type (authorization_ s) t (eq n) ty | None => undecided sub (authorization_ s) t (eq n) end) ->
  sub_decision (authorization_ s) t (names_of u s) (auth_sub_user result u s).
Proof.
  intros Hr. unfold auth_sub_user, names_of. cbn [sub_decision]. pose proof (Hr u) as Hu. destruct (result !! u); [by left|].
  right. split; [done | by apply first_group_decision].
Qed.
End decisions.

(** C15: what the code makes of its rules, after a configuration is loaded,
    from a file or the default one, and rules are added and removed, on the
    condition that no rule that is removed shares a filter and a name with one
    that stays (else the one that stays loses its entry, see
    [remove_auth_erases_shared_entry]).  The rules are those of the
    specification; [auth_pub] is the type of the rule with the highest number
    among those whose filter matches the topic and that name the user or a
    group of the user; [auth_sub] with [auth_sub_user] gives the type of the
    highest rule that matches and names the user, or else the first of the
    groups of the user that a matching rule names, which is not the order of
    the rules that broker.adoc describes ([sub_ignores_later_group_rule]);
    without such a rule both deny. *)
Theorem security_rules_decide `{PT : BoostPropertyTree} (s0 : security) (cs : list rule_call) :
  configured s0 ->
  rules_weight (authorization_ s0) + calls_weight cs < max_count ->
  calls_removable (named s0) cs (authorization_ s0) ->
  exists s, let (rules, results) := spec_rule_calls (named s0) cs (authorization_ s0) in
    run_rule_calls cs s0 = Return results s /\ authorization_ s = rules /\
    forall t u, validate_topic_name t = true ->
      (exists ty, auth_pub t u s = Return ty s /\ pub_decision rules t u s ty) /\
      (exists result, auth_sub t s = Return result s /\ sub_decision rules t (names_of u s) (auth_sub_user result u s)).
Proof.
  intros Hc Hw Hrm. pose proof (calls_weight_nonneg cs). pose proof (configured_rules s0 Hc ltac:(lia)) as Hh.
  destruct (rule_calls_run cs s0 _ Hh Hw Hrm) as (s & Hrun & Hh' & _ & Hz). exists s.
  destruct (spec_rule_calls (named s0) cs (authorization_ s0)) as [rules results]. cbn [fst snd] in *. split; [done|]. split; [done|].
  intros t u Ht%valid_topic_plain. rewrite <- Hz. split; [by eapply auth_pub_run|].
  destruct (auth_sub_run s _ t Hh' Ht) as (result & Hsub & Hr). exists result. split; [done | by apply auth_sub_user_decision].
Qed.

(** a configuration with two users, a group of one of them and two rules *)
Definition leaf (s : String.string) : property_tree := tree_node (str s) [].
Definition array (ts : list property_tree) : property_tree := tree_node [] (map (fun t => ([], t)) ts).
Definition object (es : list (String.string * property_tree)) : property_tree := tree_node [] (map (fun '(k, t) => (str k, t)) es).

Open Scope string_scope.
Definition example_configuration : property_tree := object [
  ("authentication", array [
     object [("name", leaf "u"); ("method", leaf "plain_password"); ("password", leaf "p")];
     object [("name", leaf "v"); ("method", leaf "client_cert")]]);
  ("group", array [object [("name", leaf "@g"); ("members", array [leaf "u"])]]);
  ("authorization", array [
     object [("topic", leaf "a/#"); ("allow", object [("pub", array [leaf "@g"]); ("sub", array [leaf "@any"])])];
     object [("topic", leaf "a/b"); ("deny", object [("pub", array [leaf "u"])])]])].

#[local] Instance example_tree : BoostPropertyTree := fixed_tree example_configuration.

Definition after {S A} (p : action S A) (s : S) : S := match p s with Return _ s' | Throw _ s' => s' | Undefined => s end.
Definition result_of {S A} (p : action S A) (s : S) : option A := match p s with Return a _ => Some a | _ => None end.

Lemma returns_after {S A} (p : action S A) s a : result_of p s = Some a -> p s = Return a (after p s).
Proof. unfold result_of, after. by destruct (p s); intros [= <-]. Qed.

Definition example_state : security := after (load_json []) make_security.

Lemma security_rules_decide_witness :
  let cs := [call_add (str "+/b") [str "v"] allow [str "u"] deny; call_remove 3; call_add (str "c") [str "w"] allow [] none] in
  exists s, run_rule_calls cs example_state = Return [Some 3; None; None] s /\ authorization_ s = authorization_ example_state /\
    forall t u, validate_topic_name t = true ->
      (exists ty, auth_pub t u s = Return ty s /\ pub_decision (authorization_ s) t u s ty) /\
      (exists result, auth_sub t s = Return result s /\ sub_decision (authorization_ s) t (names_of u s) (auth_sub_user result u s)).
Proof.
  set (cs := [_; _; _]). assert (Hspec : spec_rule_calls (named example_state) cs (authorization_ example_state) =
    (authorization_ example_state, [Some 3; None; None])) by by vm_compute.
  destruct (security_rules_decide example_state cs) as [s Hs].
  - left. exists []. refine (returns_after (load_json []) make_security tt _). by vm_compute.
  - by vm_compute.
  - apply (bool_decide_unpack _). by vm_compute.
  - rewrite Hspec in Hs. destruct Hs as (Hrun & Hz & H). exists s. rewrite Hz. split; [done|]. split; [done|]. exact H.
Defined.

(** ** Where the maps differ from the rules *)

(** Two rules for one filter and user share the entry in the map: when the
    second is removed, so is the entry, and the first allows no more. *)
Lemma remove_auth_erases_shared_entry :
  let rule ty := call_add (str "a") [str "v"] ty [] none in
  let s := after (run_rule_calls [rule allow; rule allow; call_remove 4]) example_state in
  result_of (auth_pub (str "a") (str "v")) s = Some deny /\
  exists i, i ∈ authorization_ s /\ topic i = str "a" /\ pub_type i = allow /\ pub i = [str "v"].
Proof. split; [by vm_compute|]. eexists. split; [apply elem_of_cons; right; apply elem_of_cons; right; by left | by vm_compute]. Qed.

(** The highest rule decides who may publish, but for who gets a message a rule
    that names the user comes before a later one that names a group. *)
Lemma sub_ignores_later_group_rule :
  let rule ty j := call_add (str "c") [j] ty [j] ty in
  let s := after (run_rule_calls [rule allow (str "u"); rule deny (str "@g")]) example_state in
  result_of (auth_pub (str "c") (str "u")) s = Some deny /\
  (fun result => auth_sub_user result (str "u") s) <$> result_of (auth_sub (str "c")) s = Some allow.
Proof. split; by vm_compute. Qed.
