(* ===== verification/SecurityComments.v ===== *)
(** * The comments of a configuration file

    [json_remove_comments] is a scanner with four flags.  On a text made of
    comments, of strings and of other text it removes just the comments. *)
From Stdlib Require Import Strings.String.
From S2P Require Import Prelude Security.

(** ** Texts *)

(** A part of a file: text without quotes and slashes, a string with its
    quotes, a comment to the end of the line, a comment between delimiters. *)
Inductive piece :=
| plain (text : list byte)
| quoted (text : list byte)
| line_comment (text : list byte)
| block_comment (text : list byte).

Definition source (p : piece) : list byte :=
  match p with
  | plain text => text
  | quoted text => x22 :: text ++ [x22]
  | line_comment text => [x2f; x2f] ++ text ++ [x0a]
  | block_comment text => [x2f; x2a] ++ text ++ [x2a; x2f]
  end.

(** the end of the line stays *)
Definition without_comments (p : piece) : list byte :=
  match p with
  | plain text => text
  | quoted text => x22 :: text ++ [x22]
  | line_comment _ => [x0a]
  | block_comment _ => []
  end.

(** the text has no end of a comment in it *)
Fixpoint ends_block (text : list byte) : bool :=
  match text with
  | [] => false
  | c :: text' => (bool_decide (c = x2a) && bool_decide (head text' = Some x2f)) || ends_block text'
  end.

Definition well_formed (p : piece) : Prop :=
  match p with
  | plain text => Forall (fun c => c ∉ [x22; x27; x2f]) text
  | quoted text => x22 ∉ text
  | line_comment text => x0a ∉ text
  | block_comment text => ends_block text = false
  end.

#[export] Instance well_formed_dec p : Decision (well_formed p).
Proof. destruct p; cbn [well_formed]; apply _. Defined.

(** ** The scanner on a piece *)

Definition in_string : comment_state := mk_comment_state false false true false.
Definition in_line : comment_state := mk_comment_state true false false false.
Definition in_block : comment_state := mk_comment_state false false false true.

Lemma plain_scan text : forall rest result, Forall (fun c => c ∉ [x22; x27; x2f]) text ->
  json_remove_comments_loop (text ++ rest) no_comment result = json_remove_comments_loop rest no_comment (result ++ text).
Proof.
  induction text as [|c text IH]; intros rest result Ht; [by rewrite app_nil_r|].
  inversion_clear Ht as [|? ? Hc Htext]. rewrite !not_elem_of_cons in Hc. destruct Hc as (Hq & Ha & Hs & _).
  unfold no_comment, comment_output in *. simpl.
  rewrite (bool_decide_eq_false_2 (c = x2f)), (bool_decide_eq_false_2 (c = x27)), (bool_decide_eq_false_2 (c = x22)) by done. simpl.
  rewrite IH by done. by rewrite <- app_assoc.
Qed.

Lemma string_scan text : forall rest result, x22 ∉ text ->
  json_remove_comments_loop (text ++ x22 :: rest) in_string result = json_remove_comments_loop rest no_comment (result ++ text ++ [x22]).
Proof.
  induction text as [|c text IH]; intros rest result Ht; [done|]. apply not_elem_of_cons in Ht as [Hc Ht].
  unfold in_string, comment_output in *. simpl.
  rewrite (bool_decide_eq_false_2 (c = x22)) by done.
  rewrite IH by done. by rewrite <- app_assoc.
Qed.

Lemma line_scan text : forall rest result, x0a ∉ text ->
  json_remove_comments_loop (text ++ x0a :: rest) in_line result = json_remove_comments_loop rest no_comment (result ++ [x0a]).
Proof.
  induction text as [|c text IH]; intros rest result Ht; [done|]. apply not_elem_of_cons in Ht as [Hc Ht].
  unfold in_line, comment_output in *. simpl. unfold comment_output. simpl.
  rewrite (bool_decide_eq_false_2 (c = x0a)) by done. by apply IH.
Qed.

Lemma block_scan text : forall rest result, ends_block text = false ->
  json_remove_comments_loop (text ++ x2a :: x2f :: rest) in_block result = json_remove_comments_loop rest no_comment result.
Proof.
  induction text as [|c text IH]; intros rest result Ht; [done|]. cbn [ends_block] in Ht. apply orb_false_iff in Ht as [Hc Ht].
  unfold in_block in *. simpl.
  rewrite <- (IH rest result Ht). destruct text as [|d text]; [done|]. cbn [app head] in *. destruct (decide (d = x2f)) as [->|Hd].
  - rewrite (bool_decide_eq_true_2 (Some x2f = Some x2f)), andb_true_r in Hc by done. by rewrite Hc.
  - by destruct d.
Qed.

Lemma piece_scan p rest result : well_formed p ->
  json_remove_comments_loop (source p ++ rest) no_comment result =
  json_remove_comments_loop rest no_comment (result ++ without_comments p).
Proof.
  destruct p as [text|text|text|text]; cbn [source without_comments well_formed]; intros Hp.
  - by apply plain_scan.
  - change ((x22 :: text ++ [x22]) ++ rest) with (x22 :: (text ++ [x22]) ++ rest). rewrite <- app_assoc. cbn [app].
    pose proof (string_scan text rest (result ++ [x22]) Hp) as H. rewrite <- app_assoc in H. exact H.
  - rewrite <- !app_assoc. cbn [app]. etransitivity; [|by apply (line_scan text rest)]. done.
  - rewrite <- !app_assoc, app_nil_r. cbn [app]. etransitivity; [|by apply (block_scan text rest)]. done.
Qed.

Lemma pieces_scan ps : forall rest result, Forall well_formed ps ->
  json_remove_comments_loop (concat (map source ps) ++ rest) no_comment result =
  json_remove_comments_loop rest no_comment (result ++ concat (map without_comments ps)).
Proof.
  induction ps as [|p ps IH]; intros rest result Hps; [by rewrite app_nil_r|]. inversion_clear Hps as [|? ? Hp Hrest].
  cbn [map concat]. by rewrite <- app_assoc, piece_scan, IH, app_assoc by done.
Qed.

(** the comment a file may end in, without an end of the line *)
Lemma last_line_scan text : forall result, x0a ∉ text -> json_remove_comments_loop text in_line result = result.
Proof.
  induction text as [|c text IH]; intros result Ht; [done|]. apply not_elem_of_cons in Ht as [Hc Ht].
  unfold in_line, comment_output in *. simpl. unfold comment_output. simpl.
  rewrite (bool_decide_eq_false_2 (c = x0a)) by done. by apply IH.
Qed.

(** from a text made of parts without quotes and slashes, of strings in
    double quotes without a quote inside, and of comments of both forms, what
    [json_remove_comments] leaves is the parts and the strings, with the ends
    of the lines of comments, also when the text ends in a comment; what looks
    like a comment in a string stays. *)
Theorem json_remove_comments_correct (ps : list piece) (last : option (list byte)) :
  Forall well_formed ps ->
  (forall text, last = Some text -> x0a ∉ text) ->
  json_remove_comments (concat (map source ps) ++ match last with Some text => [x2f; x2f] ++ text | None => [] end) =
  concat (map without_comments ps).
Proof.
  intros Hps Hlast. unfold json_remove_comments. rewrite pieces_scan by done. rewrite app_nil_l.
  destruct last as [text|]; [|done]. etransitivity; [|by apply (last_line_scan text), Hlast]. done.
Qed.

Definition in_quotes (s : String.string) : list byte := x22 :: str s ++ [x22].

Lemma json_remove_comments_correct_witness :
  json_remove_comments (str "{" ++ in_quotes "k" ++ str ": /* a */ " ++ in_quotes "x//y" ++ str "} // end") =
  str "{" ++ in_quotes "k" ++ str ":  " ++ in_quotes "x//y" ++ str "} ".
Proof.
  apply (json_remove_comments_correct
    [plain (str "{"); quoted (str "k"); plain (str ": "); block_comment (str " a "); plain (str " "); quoted (str "x//y"); plain (str "} ")]
    (Some (str " end"))).
  - apply (bool_decide_unpack _). by vm_compute.
  - intros text [= <-]. by apply (bool_decide_unpack _).
Defined.

(** A backslash does not keep a quote from ending the string: what follows is
    taken for a comment. *)
Lemma escaped_quote_ends_string :
  json_remove_comments (in_quotes "a\" ++ str "//b" ++ [x22]) = in_quotes "a\".
Proof. by vm_compute. Qed.

(** The second apostrophe does not end what the first began: comments stay. *)
Lemma apostrophe_keeps_comments :
  json_remove_comments (str "'a' // b") = str "'a' // b".
Proof. by vm_compute. Qed.
