(* ===== verification/SharedTarget.v ===== *)
(** * Shared subscriptions: tool/include/broker/shared_target.hpp

    The sessions that share topic filters under a share name, and which of
    them gets the next message: the one whose turn is the longest ago.

    A session is known by a reference and its client identifier, which the
    container takes from the reference; what else a session has is not used
    here.  The clock [std::chrono::steady_clock::now()] is an argument.  Every
    member function locks the mutex, so calls are one after the other. *)
From S2P Require Import Prelude Boost Action.

(** subscription.hpp *)
Record subscription (session : Type) := mk_subscription {
  ss : session;
  sharename : list byte;
  topic : list byte;
  opts : Z;
  sid : option Z;
}.
Arguments mk_subscription {session}.
Arguments ss {session}.
Arguments sharename {session}.
Arguments topic {session}.
Arguments opts {session}.
Arguments sid {session}.

#[export] Instance subscription_eq_dec session `{EqDecision session} : EqDecision (subscription session).
Proof. solve_decision. Defined.

Section shared_target.
(** [session_state_ref], and [session_state::client_id] *)
Context {session : Type} `{EqDecision session} (session_client_id : session -> list byte).
Context {BMI : BoostMultiIndex}.

Record entry := mk_entry {
  share_name : list byte;
  ssr : session;
  tp : Z;
  tf_subs : gmap (list byte) (subscription session);
}.

#[export] Instance entry_eq_dec : EqDecision entry.
Proof. solve_decision. Defined.

Definition client_id (e : entry) : list byte := session_client_id (ssr e).
Definition set_tp (x : Z) (e : entry) : entry := mk_entry (share_name e) (ssr e) x (tf_subs e).
Definition set_tf_subs (x : gmap (list byte) (subscription session)) (e : entry) : entry := mk_entry (share_name e) (ssr e) (tp e) x.

(** the order of a composite key *)
Definition key_lt (a b : list byte * list byte) : bool :=
  bytes_lt (fst a) (fst b) || (bool_decide (fst a = fst b) && bytes_lt (snd a) (snd b)).

Definition key_of (e : entry) : list byte * list byte := (client_id e, share_name e).
Definition cid_sn_lt (a b : entry) : bool := key_lt (key_of a) (key_of b).
Definition sn_tp_lt (a b : entry) : bool :=
  bytes_lt (share_name a) (share_name b) || (bool_decide (share_name a = share_name b) && (tp a <? tp b)).

(** the indices [tag_cid_sn] and [tag_sn_tp] *)
Definition mi_shared_target : Type := mi [ordered_unique cid_sn_lt; ordered_non_unique sn_tp_lt].

Record shared_target := mk_shared_target { targets_ : mi_shared_target }.

Definition make_shared_target : shared_target := mk_shared_target mi_empty.

Abbreviation program := (action shared_target).
Implicit Types (t : shared_target) (e : entry).

Definition tag_cid_sn t : list entry := mi_range 0 (targets_ t).
Definition tag_sn_tp t : list entry := mi_range 1 (targets_ t).

Definition emplace_hint e : program bool := fun t =>
  let (targets, inserted) := mi_emplace e (targets_ t) in Return inserted (mk_shared_target targets).
(** [idx.modify], and the changes of an element through [const_cast], which
    leave its keys as they are *)
Definition modify_entry (f : entry -> entry) e : program entry := fun t => Return (f e) (mk_shared_target (mi_modify e (f e) (targets_ t))).
Definition erase_entry e : program unit := fun t => Return tt (mk_shared_target (mi_erase e (targets_ t))).

(** the first element whose key is not less *)
Definition lower_bound (k : list byte * list byte) t : option entry := List.find (fun e => negb (key_lt (key_of e) k)) (tag_cid_sn t).
Definition find_key (k : list byte * list byte) t : option entry := List.find (fun e => bool_decide (key_of e = k)) (tag_cid_sn t).

Definition insert (now : Z) (share : list byte) (topic_filter : list byte) (sub : subscription session) (s : session) : program unit :=
  let k := (session_client_id s, share) in
  t ← get;
  match (it ← lower_bound k t; if bool_decide (share_name it <> share \/ client_id it <> session_client_id s) then None else Some it) with
  | None =>
    let e := mk_entry share s now ∅ in
    inserted ← emplace_hint e;
    t ← get;
    it ← deref (if inserted : bool then Some e else find_key k t);
    assert (bool_decide (tf_subs it !! topic_filter = None));;
    modify_entry (fun e => set_tf_subs (<[topic_filter := sub]> (tf_subs e)) e) it;;
    mret tt
  | Some it =>
    (* an entry of the map stays as it is *)
    modify_entry (fun e =>
      match tf_subs e !! topic_filter with Some _ => e | None => set_tf_subs (<[topic_filter := sub]> (tf_subs e)) e end) it;;
    mret tt
  end.

Definition erase (share : list byte) (topic_filter : list byte) (s : session) : program unit :=
  t ← get;
  match find_key (session_client_id s, share) t with
  | None => mret tt
  | Some it =>
    it ← modify_entry (fun e => set_tf_subs (base.delete topic_filter (tf_subs e)) e) it;
    if bool_decide (tf_subs it = ∅) then erase_entry it else mret tt
  end.

(** all entries of the session *)
Definition erase_session (s : session) : program unit :=
  t ← get;
  for_each (fun e _ => erase_entry e) (List.filter (fun e => bool_decide (client_id e = session_client_id s)) (tag_cid_sn t)) tt.

(** the loop over the entries of the share name, in the order of the time *)
Definition get_target (now : Z) (share : list byte) (topic_filter : list byte) : program (option (session * subscription session)) :=
  t ← get;
  match List.find (fun e => bool_decide (share_name e = share) && bool_decide (is_Some (tf_subs e !! topic_filter))) (tag_sn_tp t) with
  | None => mret None
  | Some elem =>
    match tf_subs elem !! topic_filter with
    | None => mret None
    | Some sub => modify_entry (set_tp now) elem;; mret (Some (ssr elem, sub))
    end
  end.
End shared_target.
