(* ===== verification/SharedTargetSpec.v ===== *)
(** * Shared subscriptions take turns

    [shared_target] against a queue of sessions: who comes first has waited the
    longest, who is chosen goes to the end.  So the sessions that share a
    filter are chosen one after the other. *)
From stdpp Require Import sorting.
From S2P Require Import Prelude Boost Action TopicAlias SharedTarget.

(** ** Orders *)
Section orders.
Lemma bytes_lt_irrefl a : bytes_lt a a = false.
Proof. induction a as [|x a IH]; [done|]. cbn [bytes_lt]. rewrite Z.ltb_irrefl, IH. by rewrite andb_false_r. Qed.

Lemma bytes_lt_trans a : forall b c, bytes_lt a b = true -> bytes_lt b c = true -> bytes_lt a c = true.
Proof.
  induction a as [|x a IH]; intros [|y b] [|z c]; cbn [bytes_lt]; try done.
  rewrite !orb_true_iff, !andb_true_iff, !Z.ltb_lt, !Z.eqb_eq. intros [?|[E1 ?]] [?|[E2 ?]]; [left; lia | left; lia | left; lia |].
  right. split; [lia | by eapply IH].
Qed.

(** a strict total order by a key *)
Definition strict_total {A} (lt : A -> A -> bool) : Prop :=
  (forall a, lt a a = false) /\ (forall a b c, lt a b = true -> lt b c = true -> lt a c = true) /\
  (forall a b, lt a b = false -> lt b a = false -> a = b).

Lemma strict_total_bytes : strict_total bytes_lt.
Proof.
  split; [apply bytes_lt_irrefl|]. split; [intros a b c; apply bytes_lt_trans|].
  intros a b H1 H2. apply bytes_lt_equiv. unfold equiv_by. by rewrite H1, H2.
Qed.

Lemma strict_total_key : strict_total key_lt.
Proof.
  destruct strict_total_bytes as (Hi & Ht & He). unfold key_lt. split; [|split].
  - intros [a1 a2]. cbn. by rewrite !Hi, andb_false_r.
  - intros [a1 a2] [b1 b2] [c1 c2]. cbn. rewrite !orb_true_iff, !andb_true_iff, !bool_decide_eq_true.
    intros [?|[E1 ?]] [?|[E2 ?]]; subst; [left; by eapply Ht | by left | by left | right; split; [done | by eapply Ht]].
  - intros [a1 a2] [b1 b2]. cbn. rewrite !orb_false_iff, !andb_false_iff, !bool_decide_eq_false.
    intros [H1 H2] [H3 H4]. assert (a1 = b1) as -> by (by apply He). destruct H2 as [?|H2], H4 as [?|H4]; try done. f_equal. by apply He.
Qed.

Lemma strict_asym {A} (lt : A -> A -> bool) : strict_total lt -> asymmetric lt.
Proof. intros (Hi & Ht & _) a b Hab. apply not_true_is_false. intros Hba. pose proof (Ht a b a Hab Hba). by rewrite Hi in *. Qed.

Lemma strict_negative_trans {A} (lt : A -> A -> bool) : strict_total lt ->
  forall a b d, lt b a = false -> lt d b = false -> lt d a = false.
Proof.
  intros (Hi & Ht & He) a b d Hba Hdb. apply not_true_is_false. intros Hda. destruct (lt a b) eqn:Hab.
  - by rewrite (Ht d a b Hda Hab) in Hdb.
  - assert (a = b) as -> by by apply He. congruence.
Qed.
End orders.

Section spec.
Context {session : Type} `{EqDecision session} (session_client_id : session -> list byte).
Context {BMI : BoostMultiIndex} {BMO : BoostMultiIndexOk}.
Abbreviation sub := (subscription session).
Abbreviation entry := (SharedTarget.entry (session := session)).
Abbreviation key_of := (key_of session_client_id).
Abbreviation shared_target := (shared_target session_client_id).
Implicit Types (e x y : entry) (es l : list entry) (t : shared_target).

Lemma cid_sn_strict : asymmetric (cid_sn_lt session_client_id) /\
  forall a b d, cid_sn_lt session_client_id b a = false -> cid_sn_lt session_client_id d b = false -> cid_sn_lt session_client_id d a = false.
Proof.
  split; [intros a b; apply (strict_asym _ strict_total_key) | intros a b d; apply (strict_negative_trans _ strict_total_key)].
Qed.

Lemma sn_tp_strict : asymmetric (sn_tp_lt (session := session)) /\
  forall a b d, sn_tp_lt (session := session) b a = false -> sn_tp_lt d b = false -> sn_tp_lt d a = false.
Proof.
  assert (Hs : strict_total (fun a b : list byte * Z => bytes_lt (fst a) (fst b) || (bool_decide (fst a = fst b) && (snd a <? snd b)))).
  { destruct strict_total_bytes as (Hi & Ht & He). split; [|split].
    - intros [a1 a2]. cbn. by rewrite Hi, Z.ltb_irrefl, andb_false_r.
    - intros [a1 a2] [b1 b2] [c1 c2]. cbn. rewrite !orb_true_iff, !andb_true_iff, !bool_decide_eq_true, !Z.ltb_lt.
      intros [?|[E1 ?]] [?|[E2 ?]]; subst; [left; by eapply Ht | by left | by left | right; split; [done | lia]].
    - intros [a1 a2] [b1 b2]. cbn. rewrite !orb_false_iff, !andb_false_iff, !bool_decide_eq_false, !Z.ltb_ge.
      intros [H1 H2] [H3 H4]. assert (a1 = b1) as -> by (by apply He). destruct H2 as [?|H2], H4 as [?|H4]; try done. f_equal. lia. }
  split.
  - intros a b. apply (strict_asym _ Hs (share_name a, tp a) (share_name b, tp b)).
  - intros a b d. apply (strict_negative_trans _ Hs (share_name a, tp a) (share_name b, tp b) (share_name d, tp d)).
Qed.

Lemma conflicts_key x y :
  conflicts [ordered_unique (cid_sn_lt session_client_id); ordered_non_unique sn_tp_lt] x y = bool_decide (key_of x = key_of y).
Proof.
  cbn [conflicts existsb]. rewrite !orb_false_r. apply eq_true_iff_eq. rewrite bool_decide_eq_true. unfold equiv_by, cid_sn_lt.
  rewrite andb_true_iff, !negb_true_iff. destruct strict_total_key as (Hi & _ & He). split; [intros [H1 H2]; by apply He | intros ->; by rewrite Hi].
Qed.

(** ** The container *)

(** the entries of the container in the order of their times, all before [now] *)
Record entries_of t es (now : Z) : Prop := mk_entries_of {
  eo_ok : mi_ok (targets_ session_client_id t);
  eo_perm : es ≡ₚ tag_cid_sn session_client_id t;
  eo_times : StronglySorted (fun a b => tp a < tp b) es;
  eo_before : Forall (fun e => tp e < now) es;
  eo_keys : NoDup (map key_of es);
}.

Lemma same_perm t : mi_ok (targets_ session_client_id t) -> tag_sn_tp session_client_id t ≡ₚ tag_cid_sn session_client_id t.
Proof. intros Hok. apply mi_range_perm; [done | simpl; lia..]. Qed.

Lemma shared_NoDup_range t es now : entries_of t es now -> NoDup (tag_cid_sn session_client_id t).
Proof. intros []. rewrite <- eo_perm0. by eapply NoDup_fmap_1. Qed.

Lemma not_elem_find {A} (P : A -> Prop) `{forall a, Decision (P a)} (l : list A) : (forall a, a ∈ l -> ~ P a) -> List.find (fun a => bool_decide (P a)) l = None.
Proof.
  induction l as [|a l IH]; intros Hl; [done|]. cbn [List.find]. rewrite bool_decide_eq_false_2 by (apply Hl; by left).
  apply IH. intros b Hb. apply Hl. by right.
Qed.

Lemma key_unique es x y : NoDup (map key_of es) -> x ∈ es -> y ∈ es -> key_of x = key_of y -> x = y.
Proof.
  intros Hnd Hx Hy Hk. apply list_elem_of_lookup in Hx as [i Hi], Hy as [j Hj].
  assert (i = j) as ->; [|congruence]. apply (NoDup_lookup (map key_of es) i j (key_of x) Hnd); rewrite list_lookup_fmap; [by rewrite Hi | by rewrite Hj, Hk].
Qed.

Lemma find_key_Some t es now e : entries_of t es now -> e ∈ es -> find_key session_client_id (key_of e) t = Some e.
Proof.
  intros Ht He. unfold find_key. destruct (List.find _ _) as [x|] eqn:Hf.
  - apply List.find_some in Hf as [Hx Hk%bool_decide_eq_true]. rewrite <- list_elem_of_In, <- (eo_perm _ _ _ Ht) in Hx.
    f_equal. by eapply key_unique; [apply Ht|..].
  - exfalso. rewrite (eo_perm _ _ _ Ht), list_elem_of_In in He. apply (List.find_none _ _ Hf) in He. by rewrite bool_decide_eq_true_2 in He.
Qed.

Lemma find_key_None t es now k : entries_of t es now -> (forall e, e ∈ es -> key_of e <> k) -> find_key session_client_id k t = None.
Proof.
  intros Ht Hno. unfold find_key. destruct (List.find _ _) as [x|] eqn:Hf; [|done].
  apply List.find_some in Hf as [Hx Hk%bool_decide_eq_true]. rewrite <- list_elem_of_In, <- (eo_perm _ _ _ Ht) in Hx. by destruct (Hno x).
Qed.

(** the search of [insert] finds what [find] of [erase] does *)
Lemma lower_bound_find t es now cid share : entries_of t es now ->
  (it ← lower_bound session_client_id (cid, share) t;
   if bool_decide (share_name it <> share \/ client_id session_client_id it <> cid) then None else Some it) = find_key session_client_id (cid, share) t.
Proof.
  intros Ht. unfold lower_bound, find_key. destruct cid_sn_strict as [Hasym Hneg].
  pose proof (mi_range_sorted (targets_ _ t) 0 _ _ (eo_ok _ _ _ Ht) eq_refl eq_refl Hneg Hasym) as Hsort.
  change (mi_range 0 (targets_ session_client_id t)) with (tag_cid_sn session_client_id t) in Hsort.
  destruct strict_total_key as (Hi & _ & He).
  induction (tag_cid_sn session_client_id t) as [|e l IH]; [done|]. apply StronglySorted_cons in Hsort as [Hfirst Hsort]. cbn [List.find].
  destruct (key_lt (key_of e) (cid, share)) eqn:Hlt; cbn [negb].
  - rewrite bool_decide_eq_false_2; [by apply IH|]. intros Hk. by rewrite Hk, Hi in Hlt.
  - cbn [mbind option_bind]. destruct (decide (key_of e = (cid, share))) as [Hk|Hk].
    + rewrite (bool_decide_eq_true_2 (key_of e = _)) by done. injection Hk as Hc Hs. rewrite bool_decide_eq_false_2; [done | by intros [?|?]].
    + rewrite (bool_decide_eq_false_2 (key_of e = _)) by done. rewrite bool_decide_eq_true_2.
      * symmetry. apply not_elem_find. rewrite Forall_forall in Hfirst. intros x Hx Hkx. apply Hk. apply He; [done|]. rewrite <- Hkx. by apply Hfirst.
      * destruct (decide (share_name e = share)) as [<-|]; [right | by left]. intros Hc. apply Hk. unfold SharedTarget.key_of. by rewrite Hc.
Qed.

Lemma find_andb {A} (p q : A -> bool) (l : list A) : List.find (fun a => p a && q a) l = List.find q (List.filter p l).
Proof. induction l as [|a l IH]; [done|]. cbn [List.find List.filter]. destruct (p a); cbn [List.find andb]; [by rewrite IH | done]. Qed.

Lemma sorted_filter {A} (R : A -> A -> Prop) (p : A -> bool) (l : list A) : StronglySorted R l -> StronglySorted R (List.filter p l).
Proof.
  induction 1 as [|a l Hl IH Ha]; [constructor|]. cbn [List.filter]. destruct (p a); [|done]. constructor; [done|].
  rewrite Forall_forall in *. intros x Hx. rewrite list_elem_of_In, List.filter_In, <- list_elem_of_In in Hx. by apply Ha, Hx.
Qed.

Lemma filter_permutation {A} (p : A -> bool) (l1 l2 : list A) : l1 ≡ₚ l2 -> List.filter p l1 ≡ₚ List.filter p l2.
Proof.
  induction 1 as [|a l1 l2 _ IH|a b l|l1 l2 l3 _ IH1 _ IH2]; cbn [List.filter]; [done| | |by etrans].
  - destruct (p a); [by rewrite IH | done].
  - destruct (p a), (p b); (apply Permutation_swap || done).
Qed.

Lemma sorted_impl {A} (R R' : A -> A -> Prop) (l : list A) :
  (forall a b, a ∈ l -> b ∈ l -> R a b -> R' a b) -> StronglySorted R l -> StronglySorted R' l.
Proof.
  intros Himp Hs. induction Hs as [|a l Hl IH Ha]; [constructor|]. constructor; [apply IH; intros; apply Himp; [by right.. | done]|].
  rewrite Forall_forall in *. intros b Hb. apply Himp; [by left | by right | by apply Ha].
Qed.

Lemma times_unique es x y : StronglySorted (fun a b => tp a < tp b) es -> x ∈ es -> y ∈ es -> tp x = tp y -> x = y.
Proof.
  induction 1 as [|a l Hl IH Ha]; [by intros ?%elem_of_nil|]. rewrite Forall_forall in Ha.
  intros [->|Hx]%elem_of_cons [->|Hy]%elem_of_cons Htp; [done | specialize (Ha y Hy); lia | specialize (Ha x Hx); lia | by apply IH].
Qed.

(** the entries of a share are in the second index in the order of the times *)
Lemma share_range t es now share : entries_of t es now ->
  List.filter (fun e => bool_decide (share_name e = share)) (tag_sn_tp session_client_id t) =
  List.filter (fun e => bool_decide (share_name e = share)) es.
Proof.
  intros Ht. destruct sn_tp_strict as [Hasym Hneg].
  pose proof (mi_range_sorted (targets_ _ t) 1 _ _ (eo_ok _ _ _ Ht) eq_refl eq_refl Hneg Hasym) as Hsort.
  change (mi_range 1 (targets_ session_client_id t)) with (tag_sn_tp session_client_id t) in Hsort.
  assert (Hperm : tag_sn_tp session_client_id t ≡ₚ es) by (rewrite (eo_perm _ _ _ Ht); apply same_perm, Ht).
  assert (Hshare : forall e l, e ∈ List.filter (fun e => bool_decide (share_name e = share)) l -> e ∈ l /\ share_name e = share).
  { intros e l. rewrite list_elem_of_In, List.filter_In, <- list_elem_of_In, bool_decide_eq_true. done. }
  apply (StronglySorted_unique_strong (fun a b => tp a <= tp b)).
  - intros x y [Hx _]%Hshare [Hy _]%Hshare H1 H2. rewrite Hperm in Hx. apply (times_unique es); [apply Ht | done | done | lia].
  - eapply sorted_impl; [|apply sorted_filter, Hsort]. intros a b [_ Ha]%Hshare [_ Hb]%Hshare Hab. unfold sn_tp_lt in Hab.
    apply orb_false_iff in Hab as [_ Hab]. rewrite bool_decide_eq_true_2 in Hab by congruence. by apply Z.ltb_ge in Hab.
  - eapply sorted_impl; [|apply sorted_filter, Ht]. cbn beta. lia.
  - by apply filter_permutation.
Qed.


(** ** The steps on the container *)

Lemma entries_of_weaken t es now now' : entries_of t es now -> now <= now' -> entries_of t es now'.
Proof. intros [] Hle. split; try done. eapply Forall_impl; [done|]. cbn beta. lia. Qed.

Lemma shared_range_split t es now l1 e l2 : entries_of t es now -> es = l1 ++ e :: l2 ->
  exists r1 r2, mi_range 0 (targets_ session_client_id t) = r1 ++ e :: r2 /\ r1 ++ r2 ≡ₚ l1 ++ l2.
Proof.
  intros Ht ->. assert (He : e ∈ tag_cid_sn session_client_id t) by (rewrite <- (eo_perm _ _ _ Ht); set_solver).
  apply list_elem_of_split in He as (r1 & r2 & Hr). exists r1, r2. split; [exact Hr|].
  apply (Permutation_cons_inv (a := e)). rewrite !Permutation_middle, <- Hr. symmetry. apply Ht.
Qed.

Lemma keys_middle l1 e e' l2 : NoDup (map key_of (l1 ++ e :: l2)) -> key_of e' = key_of e ->
  (forall z, z ∈ l1 ++ l2 -> key_of e' <> key_of z) /\ NoDup (map key_of (l1 ++ e' :: l2)) /\ NoDup (map key_of (l1 ++ l2 ++ [e'])).
Proof.
  intros Hnd Hk. rewrite <- Permutation_middle in Hnd. cbn [map] in Hnd. apply NoDup_cons in Hnd as [Hno Hnd]. split; [|split].
  - intros z Hz Hkz. apply Hno. rewrite <- Hk, Hkz. by apply list_elem_of_fmap_2.
  - rewrite <- Permutation_middle. cbn [map]. rewrite Hk. by constructor.
  - rewrite app_assoc, (Permutation_app_comm (l1 ++ l2)). cbn [app map]. rewrite Hk. by constructor.
Qed.

Lemma modify_run t es now l1 e l2 f : entries_of t es now -> es = l1 ++ e :: l2 -> key_of (f e) = key_of e ->
  exists t', modify_entry session_client_id f e t = Return (f e) t' /\ mi_ok (targets_ session_client_id t') /\
    tag_cid_sn session_client_id t' ≡ₚ l1 ++ f e :: l2.
Proof.
  intros Ht Hes Hk. destruct (shared_range_split t es now l1 e l2 Ht Hes) as (r1 & r2 & Hr & Hperm).
  destruct (keys_middle l1 e (f e) l2) as (Hno & _); [rewrite <- Hes; apply Ht | done|].
  destruct (mi_modify_done (targets_ session_client_id t) e (f e) r1 r2 (eo_ok _ _ _ Ht) (shared_NoDup_range _ _ _ Ht) Hr) as (Hok & _ & _ & Hp).
  { intros z Hz. rewrite Hperm in Hz. rewrite conflicts_key. apply bool_decide_eq_false. by apply Hno. }
  eexists. split; [reflexivity|]. split; [exact Hok|]. unfold tag_cid_sn. cbn [targets_]. rewrite Hp by done. by rewrite Hperm, Permutation_middle.
Qed.

(** a change of the subscriptions of an entry *)
Lemma replace_run t es now l1 e l2 f : entries_of t es now -> es = l1 ++ e :: l2 -> key_of (f e) = key_of e -> tp (f e) = tp e ->
  exists t', modify_entry session_client_id f e t = Return (f e) t' /\ entries_of t' (l1 ++ f e :: l2) now.
Proof.
  intros Ht -> Hk Htp. destruct (modify_run t _ now l1 e l2 f Ht eq_refl Hk) as (t' & Hrun & Hok & Hperm). exists t'. split; [exact Hrun|].
  destruct Ht as [_ _ Htimes Hbefore Hkeys]. rewrite Forall_app, Forall_cons in Hbefore. rewrite StronglySorted_app, StronglySorted_cons, Forall_forall in Htimes.
  split; [done | by symmetry | | | by apply (keys_middle l1 e (f e) l2)].
  - rewrite StronglySorted_app, StronglySorted_cons, Forall_forall, Htp. destruct Htimes as (H1 & H2 & H3 & H4). split; [|done].
    intros x y Hx [->|Hy]%elem_of_cons; [rewrite Htp; apply H1; set_solver | apply H1; set_solver].
  - rewrite Forall_app, Forall_cons, Htp. done.
Qed.

(** the entry goes to the end *)
Lemma move_run t es now l1 e l2 : entries_of t es now -> es = l1 ++ e :: l2 ->
  exists t', modify_entry session_client_id (set_tp now) e t = Return (set_tp now e) t' /\ entries_of t' (l1 ++ l2 ++ [set_tp now e]) (now + 1).
Proof.
  intros Ht ->. destruct (modify_run t _ now l1 e l2 (set_tp now) Ht eq_refl eq_refl) as (t' & Hrun & Hok & Hperm). exists t'. split; [exact Hrun|].
  destruct Ht as [_ _ Htimes Hbefore Hkeys]. rewrite Forall_app, Forall_cons in Hbefore. rewrite StronglySorted_app, StronglySorted_cons in Htimes.
  destruct Hbefore as (Hb1 & _ & Hb2), Htimes as (H1 & H2 & _ & H3). split; [done | | | | by apply (keys_middle l1 e (set_tp now e) l2)].
  - rewrite Hperm, app_assoc, (Permutation_app_comm (l1 ++ l2)). cbn [app]. by rewrite Permutation_middle.
  - rewrite app_assoc, StronglySorted_app, StronglySorted_app. rewrite Forall_forall in Hb1, Hb2. split; [|split; [|repeat constructor]].
    + intros x y Hx ->%list_elem_of_singleton. apply elem_of_app in Hx as [Hx|Hx]; [by apply Hb1 | by apply Hb2].
    + split; [|done]. intros x y Hx Hy. apply H1; [done | by right].
  - rewrite !Forall_app, Forall_singleton. cbn [tp set_tp]. split; [|split; [|lia]]; (eapply Forall_impl; [done|]); cbn beta; lia.
Qed.

Lemma erase_entry_run t es now l1 e l2 : entries_of t es now -> es = l1 ++ e :: l2 ->
  exists t', erase_entry session_client_id e t = Return tt t' /\ entries_of t' (l1 ++ l2) now.
Proof.
  intros Ht ->. destruct (shared_range_split t _ now l1 e l2 Ht eq_refl) as (r1 & r2 & Hr & Hperm).
  destruct (mi_erase_spec (targets_ session_client_id t) e (eo_ok _ _ _ Ht)) as (Hok & _ & Hp);
    [rewrite Hr; set_solver | by eapply shared_NoDup_range | done|].
  eexists. split; [reflexivity|]. destruct Ht as [_ _ Htimes Hbefore Hkeys].
  rewrite Forall_app, Forall_cons in Hbefore. rewrite StronglySorted_app, StronglySorted_cons in Htimes. split; cbn [targets_].
  - done.
  - unfold tag_cid_sn. cbn [targets_]. by rewrite (Hp r1 r2 Hr).
  - rewrite StronglySorted_app. destruct Htimes as (H1 & H2 & _ & H3). split; [|done]. intros x y Hx Hy. apply H1; [done | by right].
  - rewrite Forall_app. tauto.
  - rewrite map_app in *. cbn [map] in Hkeys. apply NoDup_app in Hkeys as (K1 & K2 & [_ K3]%NoDup_cons). apply NoDup_app.
    split; [done|]. split; [|done]. intros x Hx Hx2. apply (K2 x Hx). by right.
Qed.

Lemma emplace_run t es now e : entries_of t es now -> (forall x, x ∈ es -> key_of e <> key_of x) -> tp e = now ->
  exists t', emplace_hint session_client_id e t = Return true t' /\ entries_of t' (es ++ [e]) (now + 1).
Proof.
  intros Ht Hno Htp. destruct (mi_emplace_done (targets_ session_client_id t) e (eo_ok _ _ _ Ht)) as (Hi & Hok & _ & _ & Hp).
  { intros y Hy. rewrite conflicts_key. apply bool_decide_eq_false. apply Hno. rewrite (eo_perm _ _ _ Ht). exact Hy. }
  unfold emplace_hint. destruct (mi_emplace e (targets_ session_client_id t)) as [c b]. cbn [fst snd] in *. subst b.
  eexists. split; [reflexivity|]. destruct Ht as [_ Hperm Htimes Hbefore Hkeys]. split; cbn [targets_]; [done | | | |].
  - unfold tag_cid_sn in *. cbn [targets_]. rewrite Hp by done. by rewrite <- Hperm, Permutation_app_comm.
  - rewrite StronglySorted_app. rewrite Forall_forall in Hbefore. split; [|split; [done | repeat constructor]].
    intros x y Hx ->%list_elem_of_singleton. rewrite Htp. by apply Hbefore.
  - rewrite Forall_app, Forall_singleton. split; [eapply Forall_impl; [done|]; cbn beta; lia | lia].
  - rewrite map_app. cbn [map]. apply NoDup_app. split; [done|]. split; [|apply NoDup_singleton].
    intros k Hk ->%list_elem_of_singleton. apply list_elem_of_fmap in Hk as (x & Hkx & Hx). by apply (Hno x).
Qed.

(** ** The queue *)

(** an entry without its time *)
Record item := mk_item {
  it_share : list byte;
  it_session : session;
  it_subs : gmap (list byte) sub;
}.

Definition item_of e : item := mk_item (share_name e) (ssr e) (tf_subs e).
Definition item_key (i : item) : list byte * list byte := (session_client_id (it_session i), it_share i).

(** a session that is new to the share comes last; a filter it has stays *)
Fixpoint spec_insert (share : list byte) (f : list byte) (x : sub) (s : session) (queue : list item) : list item :=
  match queue with
  | [] => [mk_item share s {[f := x]}]
  | i :: queue =>
    if bool_decide (item_key i = (session_client_id s, share)) then
      mk_item (it_share i) (it_session i) (match it_subs i !! f with Some _ => it_subs i | None => <[f := x]> (it_subs i) end) :: queue
    else i :: spec_insert share f x s queue
  end.

(** a session leaves with its last filter *)
Fixpoint spec_erase (share : list byte) (f : list byte) (s : session) (queue : list item) : list item :=
  match queue with
  | [] => []
  | i :: queue =>
    if bool_decide (item_key i = (session_client_id s, share)) then
      if bool_decide (base.delete f (it_subs i) = ∅) then queue else mk_item (it_share i) (it_session i) (base.delete f (it_subs i)) :: queue
    else i :: spec_erase share f s queue
  end.

Definition spec_erase_session (s : session) (queue : list item) : list item :=
  List.filter (fun i => negb (bool_decide (session_client_id (it_session i) = session_client_id s))) queue.

(** what a session shares under the name for the filter *)
Definition subscribed (share f : list byte) (i : item) : option (session * sub) :=
  if bool_decide (it_share i = share) then pair (it_session i) <$> it_subs i !! f else None.

(** the first one with the filter is chosen and goes to the end *)
Fixpoint spec_get_target (share f : list byte) (queue : list item) : option (session * sub) * list item :=
  match queue with
  | [] => (None, [])
  | i :: queue =>
    match subscribed share f i with
    | Some x => (Some x, queue ++ [i])
    | None => let (r, queue) := spec_get_target share f queue in (r, i :: queue)
    end
  end.

(** who shares a filter, in the order of the turns *)
Definition members (share f : list byte) (queue : list item) : list (session * sub) := omap (subscribed share f) queue.

(** ** Calls *)

Inductive call :=
| call_insert (now : Z) (share f : list byte) (x : sub) (s : session)
| call_erase (share f : list byte) (s : session)
| call_erase_session (s : session)
| call_get_target (now : Z) (share f : list byte).

Definition run_call (c : call) : action shared_target (option (session * sub)) :=
  match c with
  | call_insert now share f x s => insert session_client_id now share f x s;; mret None
  | call_erase share f s => erase session_client_id share f s;; mret None
  | call_erase_session s => erase_session session_client_id s;; mret None
  | call_get_target now share f => get_target session_client_id now share f
  end.

Definition spec_call (c : call) (queue : list item) : list item * option (session * sub) :=
  match c with
  | call_insert _ share f x s => (spec_insert share f x s queue, None)
  | call_erase share f s => (spec_erase share f s queue, None)
  | call_erase_session s => (spec_erase_session s queue, None)
  | call_get_target _ share f => let (r, queue) := spec_get_target share f queue in (queue, r)
  end.

Fixpoint run_calls (cs : list call) : action shared_target (list (option (session * sub))) :=
  match cs with
  | [] => mret []
  | c :: cs => r ← run_call c; rs ← run_calls cs; mret (r :: rs)
  end.

Fixpoint spec_calls (cs : list call) (queue : list item) : list item * list (option (session * sub)) :=
  match cs with
  | [] => (queue, [])
  | c :: cs => let (queue, r) := spec_call c queue in let (queue, rs) := spec_calls cs queue in (queue, r :: rs)
  end.

(** the clock goes on between the calls that read it *)
Fixpoint increasing (now : Z) (cs : list call) : Prop :=
  match cs with
  | [] => True
  | c :: cs =>
    match c with
    | call_insert n _ _ _ _ | call_get_target n _ _ => now <= n /\ increasing (n + 1) cs
    | _ => increasing now cs
    end
  end.

(** the first item with the key *)
Lemma key_split es k : (exists l1 e l2, es = l1 ++ e :: l2 /\ key_of e = k /\ forall x, x ∈ l1 -> key_of x <> k) \/ (forall x, x ∈ es -> key_of x <> k).
Proof.
  induction es as [|a es IH]; [right; by intros x ?%elem_of_nil|]. destruct (decide (key_of a = k)) as [Hk|Hk].
  - left. exists [], a, es. split; [done|]. split; [done | by intros x ?%elem_of_nil].
  - destruct IH as [(l1 & e & l2 & -> & He & Hl)|Hno].
    + left. exists (a :: l1), e, l2. split; [done|]. split; [done|]. by intros x [->|Hx]%elem_of_cons; [|apply Hl].
    + right. by intros x [->|Hx]%elem_of_cons; [|apply Hno].
Qed.

Lemma spec_insert_split share f v s l1 e l2 : key_of e = (session_client_id s, share) ->
  (forall y, y ∈ l1 -> key_of y <> (session_client_id s, share)) ->
  spec_insert share f v s (map item_of (l1 ++ e :: l2)) =
  map item_of (l1 ++ (match tf_subs e !! f with Some _ => e | None => set_tf_subs (<[f := v]> (tf_subs e)) e end) :: l2).
Proof.
  intros He. induction l1 as [|a l1 IH]; intros Hl; cbn [app map spec_insert].
  - change (item_key (item_of e)) with (key_of e). rewrite bool_decide_eq_true_2 by done. by destruct e as [? ? ? subs]; cbn; destruct (subs !! f).
  - change (item_key (item_of a)) with (key_of a). rewrite bool_decide_eq_false_2 by (apply Hl; by left). f_equal. apply IH. intros y Hy. apply Hl. by right.
Qed.

Lemma spec_insert_new share f v s es : (forall y, y ∈ es -> key_of y <> (session_client_id s, share)) ->
  spec_insert share f v s (map item_of es) = map item_of es ++ [mk_item share s {[f := v]}].
Proof.
  induction es as [|a es IH]; intros Hl; [done|]. cbn [map spec_insert]. change (item_key (item_of a)) with (key_of a).
  rewrite bool_decide_eq_false_2 by (apply Hl; by left). cbn [app]. f_equal. apply IH. intros y Hy. apply Hl. by right.
Qed.

Lemma spec_erase_split share f s l1 e l2 : key_of e = (session_client_id s, share) ->
  (forall y, y ∈ l1 -> key_of y <> (session_client_id s, share)) ->
  spec_erase share f s (map item_of (l1 ++ e :: l2)) =
  map item_of (if bool_decide (base.delete f (tf_subs e) = ∅) then l1 ++ l2 else l1 ++ set_tf_subs (base.delete f (tf_subs e)) e :: l2).
Proof.
  intros He. induction l1 as [|a l1 IH]; intros Hl; cbn [app map spec_erase].
  - change (item_key (item_of e)) with (key_of e). rewrite bool_decide_eq_true_2 by done. cbn. by destruct (bool_decide _).
  - change (item_key (item_of a)) with (key_of a). rewrite bool_decide_eq_false_2 by (apply Hl; by left).
    rewrite IH by (intros y Hy; apply Hl; by right). by destruct (bool_decide _).
Qed.

Lemma spec_erase_absent share f s es : (forall y, y ∈ es -> key_of y <> (session_client_id s, share)) ->
  spec_erase share f s (map item_of es) = map item_of es.
Proof.
  induction es as [|a es IH]; intros Hl; [done|]. cbn [map spec_erase]. change (item_key (item_of a)) with (key_of a).
  rewrite bool_decide_eq_false_2 by (apply Hl; by left). f_equal. apply IH. intros y Hy. apply Hl. by right.
Qed.

(** ** The operations *)

Lemma shared_insert_run t es now share f v s : entries_of t es now ->
  exists t' es', insert session_client_id now share f v s t = Return tt t' /\ entries_of t' es' (now + 1) /\
    map item_of es' = spec_insert share f v s (map item_of es).
Proof.
  intros Ht. unfold insert, get. unfold mbind, action_bind. change (option_bind _ _ ?a ?b) with (b ≫= a).
  rewrite (lower_bound_find t es now (session_client_id s) share Ht).
  destruct (key_split es (session_client_id s, share)) as [(l1 & e & l2 & -> & He & Hl)|Hno].
  - rewrite <- He, (find_key_Some t _ now e Ht) by set_solver.
    destruct (replace_run t _ now l1 e l2 (fun e => match tf_subs e !! f with Some _ => e | None => set_tf_subs (<[f := v]> (tf_subs e)) e end)
      Ht eq_refl) as (t' & Hrun & Ht'); [by destruct (tf_subs e !! f)..|].
    rewrite Hrun. eexists t', _. split; [reflexivity|]. split; [eapply entries_of_weaken; [exact Ht' | lia]|].
    by rewrite (spec_insert_split share f v s l1 e l2 He Hl).
  - rewrite (find_key_None t es now _ Ht Hno).
    destruct (emplace_run t es now (mk_entry share s now ∅) Ht) as (t1 & Hrun1 & Ht1).
    { intros x Hx Hk. by apply (Hno x Hx). }
    { done. }
    rewrite Hrun1. cbn [deref]. unfold deref, assert. cbn [tf_subs]. rewrite (bool_decide_eq_true_2 ((∅ : gmap (list byte) sub) !! f = None)) by by rewrite lookup_empty.
    destruct (replace_run t1 _ (now + 1) es (mk_entry share s now ∅) [] (fun e => set_tf_subs (<[f := v]> (tf_subs e)) e) Ht1)
      as (t2 & Hrun2 & Ht2); [done..|].
    rewrite Hrun2. eexists t2, _. split; [reflexivity|]. split; [exact Ht2|]. by rewrite spec_insert_new, map_app.
Qed.

Lemma shared_erase_run t es now share f s : entries_of t es now ->
  exists t' es', erase session_client_id share f s t = Return tt t' /\ entries_of t' es' now /\
    map item_of es' = spec_erase share f s (map item_of es).
Proof.
  intros Ht. unfold erase, get. unfold mbind, action_bind.
  destruct (key_split es (session_client_id s, share)) as [(l1 & e & l2 & -> & He & Hl)|Hno].
  - rewrite <- He, (find_key_Some t _ now e Ht) by set_solver.
    destruct (replace_run t _ now l1 e l2 (fun e => set_tf_subs (base.delete f (tf_subs e)) e) Ht eq_refl eq_refl eq_refl) as (t1 & Hrun1 & Ht1).
    rewrite Hrun1, (spec_erase_split share f s l1 e l2 He Hl). cbn [tf_subs set_tf_subs].
    destruct (bool_decide (base.delete f (tf_subs e) = ∅)); [|by eexists t1, _].
    destruct (erase_entry_run t1 _ now l1 _ l2 Ht1 eq_refl) as (t2 & Hrun2 & Ht2). by exists t2, (l1 ++ l2).
  - rewrite (find_key_None t es now _ Ht Hno), (spec_erase_absent share f s es Hno). by exists t, es.
Qed.

Lemma filter_filter {A} (p q : A -> bool) (l : list A) : List.filter p (List.filter q l) = List.filter (fun a => q a && p a) l.
Proof. induction l as [|a l IH]; [done|]. cbn [List.filter]. destruct (q a); cbn [List.filter andb]; [by rewrite IH | done]. Qed.

Lemma filter_in_ext {A} (p q : A -> bool) (l : list A) : (forall a, a ∈ l -> p a = q a) -> List.filter p l = List.filter q l.
Proof. intros Hpq. apply List.filter_ext_in. intros a Ha. apply Hpq. by rewrite list_elem_of_In. Qed.

Lemma filter_true {A} (p : A -> bool) (l : list A) : (forall a, a ∈ l -> p a = true) -> List.filter p l = l.
Proof.
  induction l as [|a l IH]; intros Hp; [done|]. cbn [List.filter]. rewrite (Hp a) by by left. f_equal. apply IH. intros b Hb. apply Hp. by right.
Qed.

Lemma erase_all_run now : forall ls t es, entries_of t es now -> NoDup ls -> (forall e, e ∈ ls -> e ∈ es) ->
  exists t', for_each (fun e _ => erase_entry session_client_id e) ls tt t = Return tt t' /\
    entries_of t' (List.filter (fun e => negb (bool_decide (e ∈ ls))) es) now.
Proof.
  induction ls as [|e ls IH]; intros t es Ht Hnd Hin.
  { exists t. split; [done|]. rewrite filter_true; [done|]. intros a _. rewrite bool_decide_eq_false_2; [done | apply not_elem_of_nil]. }
  apply NoDup_cons in Hnd as [He Hnd]. destruct (list_elem_of_split es e) as (l1 & l2 & Hes); [apply Hin; by left|].
  assert (Hesd : NoDup es) by (eapply NoDup_fmap_1; apply Ht). rewrite Hes in Hesd. apply NoDup_app in Hesd as (_ & Hd1 & [Hd2 _]%NoDup_cons).
  destruct (erase_entry_run t es now l1 e l2 Ht Hes) as (t1 & Hrun1 & Ht1).
  destruct (IH t1 (l1 ++ l2) Ht1 Hnd) as (t2 & Hrun2 & Ht2).
  { intros a Ha. assert (Hae : a ∈ es) by (apply Hin; by right). rewrite Hes in Hae. apply elem_of_app in Hae as [?|[->|?]%elem_of_cons]; set_solver. }
  exists t2. split; [by rewrite (for_each_cons _ _ _ _ _ _ _ Hrun1)|].
  assert (Hsame : forall a, a ∈ l1 ++ l2 -> bool_decide (a ∈ e :: ls) = bool_decide (a ∈ ls)).
  { intros a Ha. apply bool_decide_ext. rewrite elem_of_cons. split; [|by right]. intros [->|?]; [exfalso|done].
    apply elem_of_app in Ha as [Ha|Ha]; [apply (Hd1 e Ha); by left | done]. }
  rewrite Hes, List.filter_app. cbn [List.filter]. rewrite (bool_decide_eq_true_2 (e ∈ e :: ls)) by by left. cbn [negb].
  rewrite <- List.filter_app, (filter_in_ext _ (fun e => negb (bool_decide (e ∈ ls)))); [done|]. intros a Ha. by rewrite Hsame.
Qed.

Lemma map_filter {A B} (g : A -> B) (p : B -> bool) (l : list A) : map g (List.filter (fun a => p (g a)) l) = List.filter p (map g l).
Proof. induction l as [|a l IH]; [done|]. cbn [List.filter map]. destruct (p (g a)); cbn [map]; by rewrite IH. Qed.

Lemma erase_session_run t es now s : entries_of t es now ->
  exists t' es', erase_session session_client_id s t = Return tt t' /\ entries_of t' es' now /\
    map item_of es' = spec_erase_session s (map item_of es).
Proof.
  intros Ht. pose proof (shared_NoDup_range _ _ _ Ht) as Hnd. pose proof (eo_perm _ _ _ Ht) as Hperm.
  set (p := fun e => bool_decide (client_id session_client_id e = session_client_id s)).
  assert (Hel : forall e, e ∈ List.filter p (tag_cid_sn session_client_id t) <-> e ∈ es /\ p e = true).
  { intros e. rewrite Hperm, !list_elem_of_In, List.filter_In. done. }
  destruct (erase_all_run now (List.filter p (tag_cid_sn session_client_id t)) t es Ht) as (t' & Hrun & Ht').
  { rewrite NoDup_ListNoDup in *. by apply List.NoDup_filter. }
  { intros e He. by apply Hel. }
  eexists t', _. split; [exact Hrun|]. split; [exact Ht'|]. unfold spec_erase_session. rewrite <- map_filter. f_equal.
  apply filter_in_ext. intros e He. f_equal. apply bool_decide_ext. rewrite Hel. unfold p. rewrite bool_decide_eq_true. cbn. tauto.
Qed.

Lemma subscribed_item share f e : subscribed share f (item_of e) =
  if bool_decide (share_name e = share) && bool_decide (is_Some (tf_subs e !! f)) then pair (ssr e) <$> tf_subs e !! f else None.
Proof. unfold subscribed. cbn. destruct (bool_decide (share_name e = share)); [|done]. cbn [andb]. by destruct (tf_subs e !! f). Qed.

Lemma spec_get_split share f es :
  match List.find (fun e => bool_decide (share_name e = share) && bool_decide (is_Some (tf_subs e !! f))) es with
  | Some e => exists l1 l2 v, es = l1 ++ e :: l2 /\ tf_subs e !! f = Some v /\
      spec_get_target share f (map item_of es) = (Some (ssr e, v), map item_of (l1 ++ l2 ++ [e]))
  | None => spec_get_target share f (map item_of es) = (None, map item_of es)
  end.
Proof.
  induction es as [|a es IH]; [done|]. cbn [List.find map spec_get_target]. rewrite subscribed_item.
  destruct (bool_decide (share_name a = share) && bool_decide (is_Some (tf_subs a !! f))) eqn:Ha.
  - apply andb_true_iff in Ha as [_ [v Hv]%bool_decide_eq_true]. exists [], es, v. rewrite Hv. split; [done|]. split; [done|].
    cbn [app]. by rewrite map_app.
  - destruct (List.find _ es) as [e|].
    + destruct IH as (l1 & l2 & v & -> & Hv & ->). by exists (a :: l1), l2, v.
    + by rewrite IH.
Qed.

Lemma get_target_run t es now share f : entries_of t es now ->
  exists t' es', get_target session_client_id now share f t = Return (fst (spec_get_target share f (map item_of es))) t' /\
    entries_of t' es' (now + 1) /\ map item_of es' = snd (spec_get_target share f (map item_of es)).
Proof.
  intros Ht. pose proof (spec_get_split share f es) as Hspec. unfold get_target, get. unfold mbind, action_bind.
  rewrite find_andb, (share_range t es now share Ht), <- find_andb.
  destruct (List.find _ es) as [e|].
  - destruct Hspec as (l1 & l2 & v & Hes & Hv & ->). rewrite Hv. destruct (move_run t es now l1 e l2 Ht Hes) as (t' & Hrun & Ht').
    rewrite Hrun. exists t', (l1 ++ l2 ++ [set_tp now e]). split; [done|]. split; [done|]. cbn [snd]. by rewrite !map_app.
  - rewrite Hspec. exists t, es. split; [done|]. split; [|done]. eapply entries_of_weaken; [done | lia].
Qed.

Lemma calls_run : forall cs t es now, entries_of t es now -> increasing now cs ->
  exists t' es' now', run_calls cs t = Return (snd (spec_calls cs (map item_of es))) t' /\ entries_of t' es' now' /\
    map item_of es' = fst (spec_calls cs (map item_of es)).
Proof.
  assert (Hstep : forall c cs t es now, entries_of t es now -> increasing now (c :: cs) ->
    exists t' es' now', run_call c t = Return (snd (spec_call c (map item_of es))) t' /\ entries_of t' es' now' /\
      map item_of es' = fst (spec_call c (map item_of es)) /\ increasing now' cs).
  { intros [n share f v s|share f s|s|n share f] cs t es now Ht Hinc; cbn [increasing run_call spec_call] in *.
    - destruct Hinc as [Hn Hinc]. destruct (shared_insert_run t es n share f v s) as (t' & es' & Hrun & Ht' & Hes); [by eapply entries_of_weaken|].
      exists t', es', (n + 1). split; [exact (bind_return _ _ _ _ _ Hrun) | done].
    - destruct (shared_erase_run t es now share f s Ht) as (t' & es' & Hrun & Ht' & Hes).
      exists t', es', now. split; [exact (bind_return _ _ _ _ _ Hrun) | done].
    - destruct (erase_session_run t es now s Ht) as (t' & es' & Hrun & Ht' & Hes).
      exists t', es', now. split; [exact (bind_return _ _ _ _ _ Hrun) | done].
    - destruct Hinc as [Hn Hinc]. destruct (get_target_run t es n share f) as (t' & es' & Hrun & Ht' & Hes); [by eapply entries_of_weaken|].
      exists t', es', (n + 1). destruct (spec_get_target share f (map item_of es)) as [r Q]. done. }
  induction cs as [|c cs IH]; intros t es now Ht Hinc; [by exists t, es, now|]. cbn [run_calls spec_calls].
  destruct (Hstep c cs t es now Ht Hinc) as (t1 & es1 & now1 & Hrun1 & Ht1 & Hes1 & Hinc1). destruct (IH t1 es1 now1 Ht1 Hinc1) as (t2 & es2 & now2 & Hrun2 & Ht2 & Hes2).
  destruct (spec_call c (map item_of es)) as [Q r]. cbn [fst snd] in *. rewrite Hes1 in Hrun2, Hes2. destruct (spec_calls cs Q) as [Q' rs].
  exists t2, es2, now2. split; [|done]. etransitivity; [exact (bind_return _ _ _ _ _ Hrun1)|]. exact (bind_return _ _ _ _ _ Hrun2).
Qed.

(** ** Turns *)

Lemma spec_get_members share f queue m ms : members share f queue = m :: ms ->
  exists queue', spec_get_target share f queue = (Some m, queue') /\ members share f queue' = ms ++ [m].
Proof.
  unfold members. revert m ms. induction queue as [|i queue IH]; intros m ms; [done|]. cbn [omap list_omap spec_get_target].
  destruct (subscribed share f i) as [y|] eqn:Hi.
  - intros [= -> Hms]. exists (queue ++ [i]). split; [done|]. rewrite omap_app. cbn [omap list_omap]. rewrite Hi. by rewrite <- Hms.
  - intros Hms. destruct (IH m ms Hms) as (queue' & -> & Hq). exists (i :: queue'). split; [done|]. cbn [omap list_omap]. by rewrite Hi.
Qed.

Definition gets (share f : list byte) (times : list Z) : list call := map (fun now => call_get_target now share f) times.

Lemma turns share f : forall (xs : list (session * sub)) times queue ys, members share f queue = xs ++ ys -> length times = length xs ->
  snd (spec_calls (gets share f times) queue) = map Some xs /\ members share f (fst (spec_calls (gets share f times) queue)) = ys ++ xs.
Proof.
  induction xs as [|m xs IH]; intros [|now times] queue ys Hm Hlen; try done; [by rewrite app_nil_r|].
  destruct (spec_get_members share f queue m (xs ++ ys) Hm) as (queue' & Hget & Hm'). cbn [gets map spec_calls spec_call]. rewrite Hget.
  rewrite <- app_assoc in Hm'. destruct (IH times queue' (ys ++ [m]) Hm' ltac:(simpl in Hlen; lia)) as [Hr Hq]. fold (gets share f times).
  destruct (spec_calls (gets share f times) queue') as [queue'' rs]. cbn [fst snd] in *. split; [cbn; by rewrite Hr | by rewrite Hq, <- app_assoc].
Qed.

Lemma increasing_app cs1 cs2 : forall now, increasing now (cs1 ++ cs2) -> increasing now cs1.
Proof. induction cs1 as [|[] cs1 IH]; intros n; cbn [app increasing]; firstorder. Qed.

Lemma spec_calls_app cs1 cs2 queue :
  spec_calls (cs1 ++ cs2) queue = (fst (spec_calls cs2 (fst (spec_calls cs1 queue))), snd (spec_calls cs1 queue) ++ snd (spec_calls cs2 (fst (spec_calls cs1 queue)))).
Proof.
  revert queue. induction cs1 as [|c cs1 IH]; intros queue; cbn [app spec_calls fst snd]; [by destruct (spec_calls cs2 queue)|].
  destruct (spec_call c queue) as [queue' r]. rewrite IH. by destruct (spec_calls cs1 queue').
Qed.

(** C31: with a clock that goes on between calls, the shared targets are a
    queue: any sequence of calls returns what it does on the queue, where
    [get_target] gives the first session that shares the filter under the
    name, which goes to the end.  So when as many calls of [get_target] follow
    as there are such sessions, they give each of them, in the order of the
    queue, and the next round has the same order. *)
Theorem shared_target_takes_turns (now : Z) (cs : list call) (share f : list byte) (times : list Z) :
  let queue := fst (spec_calls cs []) in
  increasing now (cs ++ gets share f times) ->
  length times = length (members share f queue) ->
  exists t, run_calls (cs ++ gets share f times) (make_shared_target session_client_id) =
      Return (snd (spec_calls cs []) ++ map Some (members share f queue)) t /\
    exists es now', entries_of t es now' /\ members share f (map item_of es) = members share f queue.
Proof.
  intros queue Hinc Hlen. assert (Hnew : entries_of (make_shared_target session_client_id) [] now).
  { split; [apply mi_ok_empty | | constructor | constructor | constructor].
    change ([] ≡ₚ mi_range 0 (mi_empty : mi [ordered_unique (cid_sn_lt session_client_id); ordered_non_unique sn_tp_lt])).
    by rewrite mi_range_empty. }
  destruct (calls_run _ _ _ _ Hnew Hinc) as (t & es & now' & Hrun & Ht & Hes). cbn [map] in *. rewrite spec_calls_app in Hrun, Hes. fold queue in Hrun, Hes.
  destruct (turns share f (members share f queue) times queue []) as [Hr Hq]; [by rewrite app_nil_r | done|].
  exists t. cbn [fst snd] in *. rewrite Hr in Hrun. split; [exact Hrun|]. exists es, now'. split; [done|]. by rewrite Hes, Hq.
Qed.
End spec.

(** ** Examples

    Sessions are numbers here, and their client identifiers one byte. *)
Section examples.
Definition example_client_id (s : Z) : list byte := [to_byte s].
Definition example_sub (s : Z) (o : Z) : subscription Z := mk_subscription s [x73] [x66] o None.

#[local] Existing Instance ListMultiIndex.list_multi_index.
#[local] Existing Instance ListMultiIndex.list_multi_index_ok.

(** three sessions share a filter, one leaves after it was chosen *)
Lemma shared_target_takes_turns_witness :
  let share := [x73] in let f := [x66] in
  let join n s := call_insert n share f (example_sub s 1) s in
  let cs := [join 1 7; join 2 5; call_get_target 3 share f; join 4 6; call_erase share f 5] in
  exists t, run_calls example_client_id (cs ++ gets share f [5; 6]) (make_shared_target example_client_id) =
      Return [None; None; Some (7, example_sub 7 1); None; None; Some (7, example_sub 7 1); Some (6, example_sub 6 1)] t /\
    exists es now', entries_of example_client_id t es now' /\
      members share f (map item_of es) = [(7, example_sub 7 1); (6, example_sub 6 1)].
Proof.
  intros share f join cs.
  apply (shared_target_takes_turns example_client_id 1 cs share f [5; 6]); [vm_compute; repeat split; discriminate | reflexivity].
Defined.

(** A session that subscribes again with other options keeps the old ones. *)
Lemma shared_insert_keeps_subscription :
  let share := [x73] in let f := [x66] in
  let cs := [call_insert 1 share f (example_sub 7 1) 7; call_insert 2 share f (example_sub 7 2) 7; call_get_target 3 share f] in
  exists t, run_calls example_client_id cs (make_shared_target example_client_id) = Return [None; None; Some (7, example_sub 7 1)] t.
Proof. eexists. by vm_compute. Qed.
End examples.
