(* ===== verification/BrokerState.v ===== *)
(** * The broker: its state and what it starts

    The data of tool/include/broker/: the members of [broker] (broker.hpp), of
    [session_state] (session_state.hpp) and of the messages that wait
    (inflight_message.hpp, offline_message.hpp, retain_type.hpp), and what
    Boost.Asio keeps for them.

    Everything is in one record, for the parts refer to each other: a
    subscription has a reference to its session, a session to the maps of the
    broker.  A [session_state&] is its address and its client identifier, which
    the constructor sets and nothing changes.  A session that is destroyed
    leaves [heap]; to follow a reference to it is undefined.

    The clock and the identifiers that are random are parameters: the n-th
    reading and the n-th identifier.  A completion handler is data, what its
    closure captures, and an asynchronous operation is an [event] that has the
    handler: whoever runs the operation calls it, with [run_handler] of
    Broker.v.  Handlers that only write to the log are [handler_log]. *)
From S2P Require Import PacketBuilder.
From S2P Require Import Prelude Boost Wire Error Property Packet ConnectPacket Store PacketIdManager ConnectionState ConnectionRecv.
From S2P Require Import Action TopicFilter SubscriptionMap RetainedTopicMap SharedTarget Security.

(** ** Outside of the broker *)

(** the endpoints (asio_bind/endpoint.hpp), without their I/O *)
Class Endpoint : Type := {
  endpoint : Type;
  ep_protocol_version : endpoint -> protocol_version.t;
  ep_acquire_unique_packet_id : endpoint -> option Z * endpoint;
  ep_register_packet_id : Z -> endpoint -> bool * endpoint;
  ep_is_publish_processing : Z -> endpoint -> bool;
  ep_get_stored_packets : endpoint -> list store_packet_variant;
  ep_get_qos2_publish_handled_pids : endpoint -> gset Z;
  ep_restore_qos2_publish_handled_pids : gset Z -> endpoint -> endpoint;
}.

(** [steady_clock::now()], in nanoseconds, and [create_uuid_string] *)
Class Surroundings : Type := {
  steady_clock : nat -> Z;
  random_uuid : nat -> list byte;
}.

(** [std::chrono::seconds] in a duration of the clock, and back *)
Definition seconds (s : Z) : Z := s * 1000000000.
Definition to_seconds (d : Z) : Z := Z.quot d 1000000000.

(** property.hpp *)
Definition session_never_expire : Z := 0xffffffff.
Definition topic_alias_max : Z := 0xffff.
Definition receive_maximum_max : Z := 0xffff.

(** the packet identifiers of endpoint_variant.hpp have two bytes *)
Abbreviation pidb := 2%nat.

(** ** Data *)

(** [session_state_ref] *)
Record session_ref := mk_session_ref { address : Z; ref_client_id : list byte }.

#[export] Instance session_ref_eq_dec : EqDecision session_ref.
Proof. solve_decision. Defined.
#[export] Instance session_ref_countable : Countable session_ref.
Proof.
  by refine (inj_countable' (fun s => (address s, ref_client_id s)) (fun p => mk_session_ref (fst p) (snd p)) _); intros [].
Defined.

(** [epsp_wrap]: the endpoint, and what is set on this copy *)
Record epsp := mk_epsp {
  ep : Z;
  client_id_ : list byte;
  preauthed_user_name_ : option (list byte);
}.

(** a [shared_ptr<steady_timer>] *)
Record timer := mk_timer { timer_id : Z; expiry : Z }.

#[export] Instance timer_eq_dec : EqDecision timer.
Proof. solve_decision. Defined.

(** inflight_message.hpp *)
Record inflight_message := mk_inflight_message {
  packet_ : store_packet_variant;
  inflight_tim_ : option timer;
}.

(** offline_message.hpp *)
Record offline_message := mk_offline_message {
  offline_topic_ : list byte;
  offline_payload_ : list (list byte);
  offline_pubopts_ : Z;
  offline_props_ : properties;
  offline_tim_ : option timer;
}.

(** retain_type.hpp *)
Record retain_type := mk_retain_type {
  retain_topic : list byte;
  retain_payload : list (list byte);
  retain_props : properties;
  retain_qos : Z;
  retain_tim : option timer;
}.

#[export] Instance inflight_message_eq_dec : EqDecision inflight_message.
Proof. solve_decision. Defined.
#[export] Instance retain_type_eq_dec : EqDecision retain_type.
Proof. solve_decision. Defined.

(** [session_state].  [clean_handler_] is what the closure of
    [set_response_topic] captures; [will_sender_] is always [do_publish].
    [use_count_] is the number of the [shared_ptr]s to the session.  The sets
    are finite sets, so that their order is left open. *)
Record session_state := mk_session_state {
  tim_will_expiry_ : option timer;
  will_value_ : option will;
  epwp_ : Z;
  version_ : protocol_version.t;
  username_ : list byte;
  session_expiry_interval_ : option Z;
  tim_session_expiry_ : option timer;
  inflight_messages_ : list inflight_message;
  offline_messages_ : list offline_message;
  handles_ : gset handle;
  tim_will_delay_ : Z;
  remain_after_close_ : bool;
  qos2_publish_handled_ : gset Z;
  response_topic_ : option (list byte);
  clean_handler_ : option (list byte * Z);
  use_count_ : Z;
}.

Definition set_will (t : option timer) (w : option will) (x : session_state) : session_state :=
  mk_session_state t w (epwp_ x) (version_ x) (username_ x) (session_expiry_interval_ x) (tim_session_expiry_ x)
    (inflight_messages_ x) (offline_messages_ x) (handles_ x) (tim_will_delay_ x) (remain_after_close_ x) (qos2_publish_handled_ x)
    (response_topic_ x) (clean_handler_ x) (use_count_ x).
Definition set_will_value_ (w : option will) (x : session_state) : session_state := set_will (tim_will_expiry_ x) w x.
Definition set_epwp_ (e : Z) (x : session_state) : session_state :=
  mk_session_state (tim_will_expiry_ x) (will_value_ x) e (version_ x) (username_ x) (session_expiry_interval_ x) (tim_session_expiry_ x)
    (inflight_messages_ x) (offline_messages_ x) (handles_ x) (tim_will_delay_ x) (remain_after_close_ x) (qos2_publish_handled_ x)
    (response_topic_ x) (clean_handler_ x) (use_count_ x).
Definition set_session_expiry_interval_ (i : option Z) (x : session_state) : session_state :=
  mk_session_state (tim_will_expiry_ x) (will_value_ x) (epwp_ x) (version_ x) (username_ x) i (tim_session_expiry_ x)
    (inflight_messages_ x) (offline_messages_ x) (handles_ x) (tim_will_delay_ x) (remain_after_close_ x) (qos2_publish_handled_ x)
    (response_topic_ x) (clean_handler_ x) (use_count_ x).
Definition set_tim_session_expiry_ (t : option timer) (x : session_state) : session_state :=
  mk_session_state (tim_will_expiry_ x) (will_value_ x) (epwp_ x) (version_ x) (username_ x) (session_expiry_interval_ x) t
    (inflight_messages_ x) (offline_messages_ x) (handles_ x) (tim_will_delay_ x) (remain_after_close_ x) (qos2_publish_handled_ x)
    (response_topic_ x) (clean_handler_ x) (use_count_ x).
Definition set_inflight_messages_ (l : list inflight_message) (x : session_state) : session_state :=
  mk_session_state (tim_will_expiry_ x) (will_value_ x) (epwp_ x) (version_ x) (username_ x) (session_expiry_interval_ x) (tim_session_expiry_ x)
    l (offline_messages_ x) (handles_ x) (tim_will_delay_ x) (remain_after_close_ x) (qos2_publish_handled_ x)
    (response_topic_ x) (clean_handler_ x) (use_count_ x).
Definition set_offline_messages_ (l : list offline_message) (x : session_state) : session_state :=
  mk_session_state (tim_will_expiry_ x) (will_value_ x) (epwp_ x) (version_ x) (username_ x) (session_expiry_interval_ x) (tim_session_expiry_ x)
    (inflight_messages_ x) l (handles_ x) (tim_will_delay_ x) (remain_after_close_ x) (qos2_publish_handled_ x)
    (response_topic_ x) (clean_handler_ x) (use_count_ x).
Definition set_handles_ (h : gset handle) (x : session_state) : session_state :=
  mk_session_state (tim_will_expiry_ x) (will_value_ x) (epwp_ x) (version_ x) (username_ x) (session_expiry_interval_ x) (tim_session_expiry_ x)
    (inflight_messages_ x) (offline_messages_ x) h (tim_will_delay_ x) (remain_after_close_ x) (qos2_publish_handled_ x)
    (response_topic_ x) (clean_handler_ x) (use_count_ x).
Definition set_remain_after_close_ (b : bool) (x : session_state) : session_state :=
  mk_session_state (tim_will_expiry_ x) (will_value_ x) (epwp_ x) (version_ x) (username_ x) (session_expiry_interval_ x) (tim_session_expiry_ x)
    (inflight_messages_ x) (offline_messages_ x) (handles_ x) (tim_will_delay_ x) b (qos2_publish_handled_ x)
    (response_topic_ x) (clean_handler_ x) (use_count_ x).
Definition set_qos2_publish_handled_ (s : gset Z) (x : session_state) : session_state :=
  mk_session_state (tim_will_expiry_ x) (will_value_ x) (epwp_ x) (version_ x) (username_ x) (session_expiry_interval_ x) (tim_session_expiry_ x)
    (inflight_messages_ x) (offline_messages_ x) (handles_ x) (tim_will_delay_ x) (remain_after_close_ x) s
    (response_topic_ x) (clean_handler_ x) (use_count_ x).
Definition set_response_topic_ (t : option (list byte)) (x : session_state) : session_state :=
  mk_session_state (tim_will_expiry_ x) (will_value_ x) (epwp_ x) (version_ x) (username_ x) (session_expiry_interval_ x) (tim_session_expiry_ x)
    (inflight_messages_ x) (offline_messages_ x) (handles_ x) (tim_will_delay_ x) (remain_after_close_ x) (qos2_publish_handled_ x)
    t (clean_handler_ x) (use_count_ x).
Definition set_clean_handler_ (h : option (list byte * Z)) (x : session_state) : session_state :=
  mk_session_state (tim_will_expiry_ x) (will_value_ x) (epwp_ x) (version_ x) (username_ x) (session_expiry_interval_ x) (tim_session_expiry_ x)
    (inflight_messages_ x) (offline_messages_ x) (handles_ x) (tim_will_delay_ x) (remain_after_close_ x) (qos2_publish_handled_ x)
    (response_topic_ x) h (use_count_ x).
Definition set_use_count_ (n : Z) (x : session_state) : session_state :=
  mk_session_state (tim_will_expiry_ x) (will_value_ x) (epwp_ x) (version_ x) (username_ x) (session_expiry_interval_ x) (tim_session_expiry_ x)
    (inflight_messages_ x) (offline_messages_ x) (handles_ x) (tim_will_delay_ x) (remain_after_close_ x) (qos2_publish_handled_ x)
    (response_topic_ x) (clean_handler_ x) n.

(** ** What is under way *)

(** the closure of [connect_handler] that waits for the old connection to be
    closed; [it] is the element of [sessions_] *)
Record takeover := mk_takeover {
  to_epsp : epsp;
  to_it : session_ref;
  to_connack_props : properties;
  to_clean_start : bool;
  to_client_id : list byte;
  to_response_topic_requested : bool;
  to_username : list byte;
  to_will : option will;
  to_will_expiry_interval : option Z;
  to_session_expiry_interval : option Z;
}.

(** completion handlers, by what they do *)
Inductive handler :=
| handler_log
| handler_detached
(** [async_read_packet] *)
| handler_read_packet (e : epsp)
(** [disconnect_and_close] with [not_authorized] *)
| handler_not_authorized (e : epsp) (version : protocol_version.t)
| handler_identifier_rejected (e : epsp)
(** [send_publish] of [session_state::publish] *)
| handler_send_publish (s : session_ref) (e : epsp) (pub_topic : list byte) (payload : list (list byte)) (pubopts : Z) (props : properties)
(** the loop of [send_until_fail] *)
| handler_send_until_fail (s : session_ref) (e : epsp) (ver : protocol_version.t)
(** [inherit], and what follows its CONNACK *)
| handler_inherit (e : epsp) (it : session_ref) (w : option will) (will_expiry_interval session_expiry_interval : option Z) (connack_props : properties)
| handler_inherited (e : epsp) (it : session_ref)
(** [disconnect_and_close_op] in the state [close] *)
| handler_disconnected (e : epsp) (k : handler)
(** [close_proc_no_lock_op] after the connection is closed: [sssp] stays as an
    offline session, [extracted] was taken out of [sessions_] *)
| handler_closed (e : epsp) (sssp extracted : option session_ref) (token : option takeover).

(** the handlers of timers *)
Inductive timer_handler :=
| will_expired (s : session_ref)
| will_delayed (s : session_ref)
| session_expired (s : session_ref)
| inflight_expired (s : session_ref)
| offline_expired (s : session_ref)
| retain_expired (retained_topic : list byte).

(** calls of asynchronous functions of an endpoint *)
Inductive event :=
| async_send (e : Z) (p : packet_variant) (k : handler)
| async_close (e : Z) (k : handler)
| async_recv (e : epsp)
| async_acquire_unique_packet_id (e : Z) (k : handler)
| dispatch (e : Z) (k : handler).

(** ** The broker *)

(** members of [broker] for tests, which nothing sets in the program *)
Record settings := mk_settings {
  connack_props_ : properties;
  suback_props_ : properties;
  unsuback_props_ : properties;
  puback_props_ : properties;
  pubrec_props_ : properties;
  pubrel_props_ : properties;
  pubcomp_props_ : properties;
  pingresp_ : bool;
  connack_ : bool;
}.

Definition default_settings : settings := mk_settings [] [] [] [] [] [] [] true true.

Section broker.
Context {BMI : BoostMultiIndex} {EP : Endpoint}.

Abbreviation sub_con_map := (subscription_map (gmap (list byte) (subscription session_ref))).
Abbreviation shared_targets := (shared_target ref_client_id).
Abbreviation retained_messages := (@retained_topic_map BMI retain_type).

Record broker := mk_broker {
  security_ : security;
  subs_map_ : sub_con_map;
  shared_targets_ : shared_targets;
  (** in the order of their insertion; an index finds a session by the key it
      has *)
  sessions_ : list session_ref;
  retains_ : retained_messages;
  options : settings;
  (** the sessions that are not destroyed, the endpoints, the timers that are
      waited for *)
  heap : gmap session_ref session_state;
  endpoints : gmap Z endpoint;
  timers : gmap Z timer_handler;
  (** the next address, and how often the clock and the generator were read *)
  next_address : Z;
  clock_reads : nat;
  uuid_reads : nat;
  (** the asynchronous operations that were started, in their order *)
  trace : list event;
}.

Definition set_security_ (x : security) (b : broker) : broker :=
  mk_broker x (subs_map_ b) (shared_targets_ b) (sessions_ b) (retains_ b) (options b) (heap b) (endpoints b) (timers b)
    (next_address b) (clock_reads b) (uuid_reads b) (trace b).
Definition set_subs_map_ (x : sub_con_map) (b : broker) : broker :=
  mk_broker (security_ b) x (shared_targets_ b) (sessions_ b) (retains_ b) (options b) (heap b) (endpoints b) (timers b)
    (next_address b) (clock_reads b) (uuid_reads b) (trace b).
Definition set_shared_targets_ (x : shared_targets) (b : broker) : broker :=
  mk_broker (security_ b) (subs_map_ b) x (sessions_ b) (retains_ b) (options b) (heap b) (endpoints b) (timers b)
    (next_address b) (clock_reads b) (uuid_reads b) (trace b).
Definition set_sessions_ (x : list session_ref) (b : broker) : broker :=
  mk_broker (security_ b) (subs_map_ b) (shared_targets_ b) x (retains_ b) (options b) (heap b) (endpoints b) (timers b)
    (next_address b) (clock_reads b) (uuid_reads b) (trace b).
Definition set_retains_ (x : retained_messages) (b : broker) : broker :=
  mk_broker (security_ b) (subs_map_ b) (shared_targets_ b) (sessions_ b) x (options b) (heap b) (endpoints b) (timers b)
    (next_address b) (clock_reads b) (uuid_reads b) (trace b).
Definition set_heap (f : gmap session_ref session_state -> gmap session_ref session_state) (b : broker) : broker :=
  mk_broker (security_ b) (subs_map_ b) (shared_targets_ b) (sessions_ b) (retains_ b) (options b) (f (heap b)) (endpoints b) (timers b)
    (next_address b) (clock_reads b) (uuid_reads b) (trace b).
Definition set_endpoints (f : gmap Z endpoint -> gmap Z endpoint) (b : broker) : broker :=
  mk_broker (security_ b) (subs_map_ b) (shared_targets_ b) (sessions_ b) (retains_ b) (options b) (heap b) (f (endpoints b)) (timers b)
    (next_address b) (clock_reads b) (uuid_reads b) (trace b).
Definition set_timers (f : gmap Z timer_handler -> gmap Z timer_handler) (b : broker) : broker :=
  mk_broker (security_ b) (subs_map_ b) (shared_targets_ b) (sessions_ b) (retains_ b) (options b) (heap b) (endpoints b) (f (timers b))
    (next_address b) (clock_reads b) (uuid_reads b) (trace b).
Definition set_counters (address : Z) (clock uuid : nat) (b : broker) : broker :=
  mk_broker (security_ b) (subs_map_ b) (shared_targets_ b) (sessions_ b) (retains_ b) (options b) (heap b) (endpoints b) (timers b)
    address clock uuid (trace b).
Definition set_trace (f : list event -> list event) (b : broker) : broker :=
  mk_broker (security_ b) (subs_map_ b) (shared_targets_ b) (sessions_ b) (retains_ b) (options b) (heap b) (endpoints b) (timers b)
    (next_address b) (clock_reads b) (uuid_reads b) (f (trace b)).

Abbreviation program := (action broker).

(** *** The members *)
Definition on_security {A} : action security A -> program A := on_part security_ set_security_.
Definition on_subs_map {A} : action sub_con_map A -> program A := on_part subs_map_ set_subs_map_.
Definition on_shared_targets {A} : action shared_targets A -> program A := on_part shared_targets_ set_shared_targets_.
Definition on_retains {A} : action retained_messages A -> program A := on_part retains_ set_retains_.

(** *** Sessions and endpoints *)

(** [*s] *)
Definition session (s : session_ref) : program session_state := b ← get; deref (heap b !! s).
Definition modify_session (f : session_state -> session_state) (s : session_ref) : program unit :=
  x ← session s; modify (set_heap <[s := f x]>).

(** [weak_from_this().lock()] *)
Definition is_owned (s : session_ref) : program bool := x ← session s; mret (0 <? use_count_ x).

Definition at_endpoint (e : epsp) : program endpoint := b ← get; deref (endpoints b !! ep e).
Definition modify_endpoint (f : endpoint -> endpoint) (e : epsp) : program unit :=
  x ← at_endpoint e; modify (set_endpoints <[ep e := f x]>).

(** the functions of [epsp_wrap], which keeps a copy of the version, for it does
    not change once there was a CONNECT *)
Definition get_protocol_version (e : epsp) : program protocol_version.t := x ← at_endpoint e; mret (ep_protocol_version x).
Definition acquire_unique_packet_id (e : epsp) : program (option Z) :=
  x ← at_endpoint e; modify_endpoint (fun x => snd (ep_acquire_unique_packet_id x)) e;; mret (fst (ep_acquire_unique_packet_id x)).
Definition register_packet_id (pid : Z) (e : epsp) : program bool :=
  x ← at_endpoint e; modify_endpoint (fun x => snd (ep_register_packet_id pid x)) e;; mret (fst (ep_register_packet_id pid x)).
Definition is_publish_processing (pid : Z) (e : epsp) : program bool := x ← at_endpoint e; mret (ep_is_publish_processing pid x).
Definition get_stored_packets (e : epsp) : program (list store_packet_variant) := x ← at_endpoint e; mret (ep_get_stored_packets x).
Definition get_qos2_publish_handled_pids (e : epsp) : program (gset Z) := x ← at_endpoint e; mret (ep_get_qos2_publish_handled_pids x).
Definition restore_qos2_publish_handled_pids (pids : gset Z) (e : epsp) : program unit :=
  modify_endpoint (ep_restore_qos2_publish_handled_pids pids) e.

Definition start (x : event) : program unit := modify (set_trace (fun l => l ++ [x])).

(** a constructor of a packet or property throws an error *)
Definition of_result {A} (r : result A) : program A :=
  match r with Ok a => mret a | Err _ => throw system_error | Undef => undefined end.

(** *** Time *)
Context {SU : Surroundings}.

Definition now : program Z :=
  b ← get; modify (fun b => set_counters (next_address b) (S (clock_reads b)) (uuid_reads b) b);; mret (steady_clock (clock_reads b)).
Definition create_uuid_string : program (list byte) :=
  b ← get; modify (fun b => set_counters (next_address b) (clock_reads b) (S (uuid_reads b)) b);; mret (random_uuid (uuid_reads b)).
Definition allocate : program Z :=
  b ← get; modify (fun b => set_counters (next_address b + 1) (clock_reads b) (uuid_reads b) b);; mret (next_address b).

(** [make_shared<steady_timer>(exe, d)] and [async_wait] *)
Definition make_timer (d : Z) (k : timer_handler) : program timer :=
  t ← now; id ← allocate; modify (set_timers <[id := k]>);; mret (mk_timer id (t + d)).
(** [cancel], or the destructor *)
Definition cancel_timer (t : option timer) : program unit :=
  match t with Some t => modify (set_timers (delete (timer_id t))) | None => mret tt end.
Definition cancel_timers (l : list (option timer)) : program unit := for_each (fun t _ => cancel_timer t) l tt.
End broker.
