(* ===== verification/SessionState.v ===== *)
(** * Sessions: tool/include/broker/session_state.hpp

    The member functions of [session_state], with those of the messages that
    wait for an acknowledgement (inflight_message.hpp) or for the client
    (offline_message.hpp).  The mutexes are held by one call at a time; the
    containers of messages are their sequence: the other indices only say
    which messages an erasure takes. *)
From S2P Require Import PacketBuilder.
From S2P Require Import Prelude Boost Wire Error Property Packet PublishPacket ConnectPacket EntryPacket Store ConnectionState.
From S2P Require Import Action TopicFilter SubscriptionMap RetainedTopicMap SharedTarget Security BrokerState.

(** the values of a property that is looked for *)
Section property_values.
Context {BE : BoostEndian}.

Definition message_expiry_interval_val (p : property_variant) : option Z :=
  match p with message_expiry_interval v => Some (uint_val 4 v) | _ => None end.
Definition will_delay_interval_val (p : property_variant) : option Z :=
  match p with will_delay_interval v => Some (uint_val 4 v) | _ => None end.

(** the last and the first value *)
Definition last_val {A} (f : property_variant -> option A) (ps : properties) : option A :=
  foldl (fun r p => match f p with Some v => Some v | None => r end) None ps.
Fixpoint first_val {A} (f : property_variant -> option A) (ps : properties) : option A :=
  match ps with
  | [] => None
  | p :: ps => match f p with Some v => Some v | None => first_val f ps end
  end.

(** the first message expiry interval is set, in [std::uint32_t] *)
Fixpoint set_first_message_expiry (d : Z) (ps : properties) : properties :=
  match ps with
  | [] => []
  | message_expiry_interval _ :: ps => make_message_expiry_interval (d mod 2 ^ 32) :: ps
  | p :: ps => p :: set_first_message_expiry d ps
  end.
End property_values.

Definition is_will_delay_interval (p : property_variant) : bool := match p with will_delay_interval _ => true | _ => false end.

Section session.
Context {BE : BoostEndian} {BMI : BoostMultiIndex} {EP : Endpoint} {SU : Surroundings}.
Abbreviation program := (action broker).

(** [pub::opts(qos)] *)
Definition opts_of_qos (q : Z) : program Z := assert (is_qos q);; mret (pub.opts_of_qos q).
(** [opts.get_qos() | opts.get_retain()] *)
Definition without_dup (opts : Z) : program Z := q ← opts_of_qos (pub.get_qos opts); mret (Z.lor q (Z.land opts 1)).

(** a PUBLISH packet of the version, sent with a handler that logs *)
Definition send_publish_packet (e : epsp) (version : protocol_version.t) (pid : Z) (topic : list byte) (payload : list (list byte)) (opts : Z)
    (props : properties) : program unit :=
  match version with
  | protocol_version.v3_1_1 =>
    p ← of_result (V3.make_publish pidb pid topic payload opts); start (async_send (ep e) (v3_1_1_publish p) handler_log)
  | protocol_version.v5 =>
    p ← of_result (V5.make_publish pidb pid topic payload opts props); start (async_send (ep e) (v5_publish p) handler_log)
  | protocol_version.undetermined => undefined
  end.

(** ** offline_message.hpp *)

(** [packet.update_message_expiry_interval] *)
Definition update_message_expiry (m : offline_message) : program properties :=
  match offline_tim_ m with
  | None => mret (offline_props_ m)
  | Some t => n ← now; mret (set_first_message_expiry (Z.max 0 (to_seconds (expiry t - n))) (offline_props_ m))
  end.

Definition publish_offline (m : offline_message) (e : epsp) (ver : protocol_version.t) (pid : Z) : program unit :=
  props ← match ver with protocol_version.v5 => update_message_expiry m | _ => mret (offline_props_ m) end;
  send_publish_packet e ver pid (offline_topic_ m) (offline_payload_ m) (offline_pubopts_ m) props.

Definition send_offline (m : offline_message) (e : epsp) (ver : protocol_version.t) : program bool :=
  if is_qos12 (pub.get_qos (offline_pubopts_ m)) then
    pid ← acquire_unique_packet_id e;
    match pid with
    | Some pid => publish_offline m e ver pid;; mret true
    | None => mret false
    end
  else publish_offline m e ver 0;; mret true.

(** the loop of [send_until_fail], over the messages that are left; none is
    added while it runs *)
Fixpoint send_until_fail_loop (l : list offline_message) (s : session_ref) (e : epsp) (ver : protocol_version.t) : program unit :=
  match l with
  | [] => mret tt
  | m :: l =>
    sent ← send_offline m e ver;
    if sent : bool then
      cancel_timer (offline_tim_ m);;
      modify_session (set_offline_messages_ l) s;;
      send_until_fail_loop l s e ver
    else mret tt
  end.

Definition send_until_fail (s : session_ref) (e : epsp) (ver : protocol_version.t) : program unit :=
  start (dispatch (ep e) (handler_send_until_fail s e ver)).
Definition run_send_until_fail (s : session_ref) (e : epsp) (ver : protocol_version.t) : program unit :=
  x ← session s; send_until_fail_loop (offline_messages_ x) s e ver.

Definition push_back (s : session_ref) (pub_topic : list byte) (payload : list (list byte)) (pubopts : Z) (props : properties) : program unit :=
  tim ← match last_val message_expiry_interval_val props with
        | None => mret None
        | Some v => t ← make_timer (seconds v) (offline_expired s); mret (Some t)
        end;
  modify_session (fun x => set_offline_messages_ (offline_messages_ x ++ [mk_offline_message pub_topic payload pubopts props tim]) x) s.

(** the handler of the timer: [erase(sp)] *)
Definition erase_offline_by_expiry (s : session_ref) (tim : Z) : program unit :=
  modify_session (fun x => set_offline_messages_
    (List.filter (fun m => negb (bool_decide (timer_id <$> offline_tim_ m = Some tim))) (offline_messages_ x)) x) s.

(** ** inflight_message.hpp *)

Definition inflight_packet_id (m : inflight_message) : Z := store_packet_id pidb (packet_ m).

(** an identifier that is there already refuses the message *)
Definition insert_inflight_message (s : session_ref) (msg : store_packet_variant) (tim : option timer) : program unit :=
  x ← session s;
  let m := mk_inflight_message msg tim in
  if existsb (fun m' => inflight_packet_id m' =? inflight_packet_id m) (inflight_messages_ x) then cancel_timer tim
  else modify_session (fun x => set_inflight_messages_ (inflight_messages_ x ++ [m]) x) s.

Definition send_inflight (e : epsp) (m : inflight_message) (_ : unit) : program unit :=
  register_packet_id (inflight_packet_id m) e;;
  start (async_send (ep e) (store_packet (packet_ m)) handler_log).

(** [erase_inflight_message_by_expiry] *)
Definition erase_inflight_message_by_expiry (s : session_ref) (tim : Z) : program unit :=
  modify_session (fun x => set_inflight_messages_
    (List.filter (fun m => negb (bool_decide (timer_id <$> inflight_tim_ m = Some tim))) (inflight_messages_ x)) x) s.

(** the number of messages erased *)
Definition erase_inflight_message_by_packet_id (s : session_ref) (packet_id : Z) : program Z :=
  x ← session s;
  let erased := List.filter (fun m => inflight_packet_id m =? packet_id) (inflight_messages_ x) in
  let rest := List.filter (fun m => negb (inflight_packet_id m =? packet_id)) (inflight_messages_ x) in
  cancel_timers (map inflight_tim_ erased);;
  modify_session (set_inflight_messages_ rest) s;;
  mret (Z.of_nat (length erased)).

(** ** session_state.hpp *)

(** [lock]: the endpoint, if there is one still *)
Definition lock (s : session_ref) : program (option epsp) :=
  x ← session s;
  b ← get;
  mret (match endpoints b !! epwp_ x with Some _ => Some (mk_epsp (epwp_ x) [] None) | None => None end).

(** what [publish] does once there is a packet identifier *)
Definition send_publish (s : session_ref) (e : epsp) (pub_topic : list byte) (payload : list (list byte)) (pubopts : Z) (props : properties)
    (pid : Z) : program unit :=
  owned ← is_owned s;
  if owned : bool then x ← session s; send_publish_packet e (version_ x) pid pub_topic payload pubopts props else mret tt.

Definition publish (s : session_ref) (e : epsp) (pub_topic : list byte) (payload : list (list byte)) (pubopts : Z) (props : properties) :
    program unit :=
  x ← session s;
  if bool_decide (offline_messages_ x = []) then
    if is_qos12 (pub.get_qos pubopts) then
      start (async_acquire_unique_packet_id (ep e) (handler_send_publish s e pub_topic payload pubopts props))
    else send_publish s e pub_topic payload pubopts props 0
  else push_back s pub_topic payload pubopts props.

Definition deliver (s : session_ref) (pub_topic : list byte) (payload : list (list byte)) (pubopts : Z) (props : properties) : program unit :=
  e ← lock s;
  match e with
  | Some e => publish s e pub_topic payload pubopts props
  | None => push_back s pub_topic payload pubopts props
  end.

(** *** Subscriptions *)

(** [handle_ret.second]: the subscription is new *)
Definition sends_retained (opts : Z) (inserted : bool) : bool :=
  let rh := sub.get_retain_handling opts in
  if inserted then (rh =? 0x00) || (rh =? 0x10) else rh =? 0x00.

(** what the callback gives, when it is called *)
Definition subscribe {A} (s : session_ref) (share_name topic_filter : list byte) (subopts : Z) (h : program A) (sid : option Z) :
    program (option A) :=
  let subscription := mk_subscription s share_name topic_filter subopts sid in
  (if bool_decide (share_name = []) then mret tt
   else n ← now; on_shared_targets (SharedTarget.insert ref_client_id n share_name topic_filter subscription s));;
  handle_ret ← on_subs_map (multiple_subscription_map.insert_or_assign topic_filter (ref_client_id s) subscription);
  (if snd handle_ret : bool then modify_session (fun x => set_handles_ ({[fst handle_ret]} ∪ handles_ x) x) s else mret tt);;
  if sends_retained subopts (snd handle_ret) then a ← h; mret (Some a) else mret None.

Definition unsubscribe (s : session_ref) (share_name topic_filter : list byte) : program unit :=
  (if bool_decide (share_name = []) then mret tt else on_shared_targets (SharedTarget.erase ref_client_id share_name topic_filter s));;
  h ← on_subs_map (lookup_filter topic_filter);
  match h with
  | Some h =>
    modify_session (fun x => set_handles_ (handles_ x ∖ {[h]}) x) s;;
    on_subs_map (multiple_subscription_map.erase_handle h (ref_client_id s));;
    mret tt
  | None => mret tt
  end.

Definition unsubscribe_all (s : session_ref) : program unit :=
  x ← session s;
  for_each (fun h _ => on_subs_map (multiple_subscription_map.erase_handle h (ref_client_id s));; mret tt) (elements (handles_ x)) tt;;
  modify_session (set_handles_ ∅) s.

(** *** The will *)

(** [tim_will_expiry_.reset()] *)
Definition reset_will_expiry (s : session_ref) : program unit :=
  x ← session s; cancel_timer (tim_will_expiry_ x);; modify_session (fun x => set_will None (will_value_ x) x) s.

Definition clear_will (s : session_ref) : program unit := reset_will_expiry s;; modify_session (set_will_value_ None) s.

Definition update_will (s : session_ref) (w : option will) (will_expiry_interval : option Z) : program unit :=
  reset_will_expiry s;;
  modify_session (set_will_value_ w) s;;
  match w, will_expiry_interval with
  | Some _, Some d => t ← make_timer d (will_expired s); modify_session (fun x => set_will (Some t) (will_value_ x) x) s
  | _, _ => mret tt
  end.

(** [tim_will_delay_.cancel()] *)
Definition cancel_will_delay (s : session_ref) : program unit := x ← session s; modify (set_timers (delete (tim_will_delay_ x))).

(** *** Ending and resuming *)

Section callbacks.
(** [will_sender_] with the session that has the will, and [clean_handler_] *)
Context (will_sender : session_ref -> list byte -> list (list byte) -> Z -> properties -> program unit).
Context (clean_handler : list byte * Z -> program unit).

Definition send_will_impl (s : session_ref) : program unit :=
  x ← session s;
  match will_value_ x with
  | None => mret tt
  | Some w =>
    opts ← without_dup (pubopts w);
    let forward_props := List.filter (fun p => negb (is_will_delay_interval p)) (will_props w) in
    modify_session (set_will_value_ None) s;;
    forward_props ← match tim_will_expiry_ x with
                    | None => mret forward_props
                    | Some t => n ← now; mret (set_first_message_expiry (Z.max 0 (to_seconds (expiry t - n))) forward_props)
                    end;
    will_sender s (ConnectPacket.topic w) [message w] opts forward_props
  end.

Definition send_will (s : session_ref) : program unit :=
  x ← session s;
  match will_value_ x with
  | None => mret tt
  | Some w =>
    let wd_sec := default 0 (first_val will_delay_interval_val (will_props w)) in
    if remain_after_close_ x && negb (wd_sec =? 0) then modify (set_timers <[tim_will_delay_ x := will_delayed s]>)
    else send_will_impl s
  end.

Definition clean (s : session_ref) : program unit :=
  x ← session s;
  match clean_handler_ x with Some h => clean_handler h | None => mret tt end;;
  x ← session s;
  cancel_timer (tim_will_expiry_ x);;
  modify_session (set_will_value_ None) s;;
  cancel_timers (map inflight_tim_ (inflight_messages_ x));;
  modify_session (set_inflight_messages_ []) s;;
  cancel_timers (map offline_tim_ (offline_messages_ x));;
  modify_session (set_offline_messages_ []) s;;
  unsubscribe_all s;;
  on_shared_targets (erase_session ref_client_id s);;
  cancel_will_delay s;;
  modify_session (set_session_expiry_interval_ None) s;;
  cancel_timer (tim_session_expiry_ x);;
  modify_session (fun x => set_response_topic_ None (set_qos2_publish_handled_ ∅ x)) s.

(** the destructor, and those of the members *)
Definition destroy (s : session_ref) : program unit :=
  send_will_impl s;;
  clean s;;
  x ← session s;
  cancel_timers [tim_will_expiry_ x; tim_session_expiry_ x];;
  modify (set_heap (base.delete s)).

(** a [shared_ptr] to the session more or less *)
Definition acquire (s : session_ref) : program unit := modify_session (fun x => set_use_count_ (use_count_ x + 1) x) s.
Definition release (s : session_ref) : program unit :=
  modify_session (fun x => set_use_count_ (use_count_ x - 1) x) s;;
  x ← session s;
  if use_count_ x =? 0 then destroy s else mret tt.

(** [remain_after_close_] of a v5 session with the interval *)
Definition remains (session_expiry_interval : option Z) : bool :=
  match session_expiry_interval with Some i => negb (i =? 0) | None => false end.

Definition renew (s : session_ref) (e : epsp) (w : option will) (clean_start : bool) (will_expiry_interval session_expiry_interval : option Z) :
    program unit :=
  clean s;;
  modify_session (set_epwp_ (ep e)) s;;
  version ← get_protocol_version e;
  x ← session s;
  remain ← match version with
           | protocol_version.v3_1_1 => mret (negb clean_start)
           | _ => assert (bool_decide (version = protocol_version.v5));; mret (remains (session_expiry_interval_ x))
           end;
  modify_session (set_remain_after_close_ remain) s;;
  update_will s w will_expiry_interval;;
  modify_session (set_session_expiry_interval_ session_expiry_interval) s.

Definition inherit (s : session_ref) (e : epsp) (w : option will) (will_expiry_interval session_expiry_interval : option Z) : program unit :=
  modify_session (set_epwp_ (ep e)) s;;
  version ← get_protocol_version e;
  x ← session s;
  remain ← match version with
           | protocol_version.v3_1_1 => mret true
           | _ => assert (bool_decide (version = protocol_version.v5));; mret (remains (session_expiry_interval_ x))
           end;
  modify_session (set_remain_after_close_ remain) s;;
  cancel_will_delay s;;
  clear_will s;;
  update_will s w will_expiry_interval;;
  modify_session (set_session_expiry_interval_ session_expiry_interval) s;;
  x ← session s;
  restore_qos2_publish_handled_pids (qos2_publish_handled_ x) e.

(** the message expiry timers of a packet: a later one replaces an earlier *)
Definition inflight_timer (s : session_ref) (p : store_packet_variant) : program (option timer) :=
  match var_ p with
  | stored_v5_publish p =>
    for_each (fun prop tim =>
      match message_expiry_interval_val prop with
      | Some v => t ← make_timer (seconds v) (inflight_expired s); cancel_timer tim;; mret (Some t)
      | None => mret tim
      end) (v5_publish.props_ p) None
  | _ => mret None
  end.

Definition become_offline (s : session_ref) (e : epsp) : program unit :=
  stored ← get_stored_packets e;
  for_each (fun store _ => tim ← inflight_timer s store; insert_inflight_message s store tim) stored tt;;
  pids ← get_qos2_publish_handled_pids e;
  modify_session (set_qos2_publish_handled_ pids) s;;
  x ← session s;
  match session_expiry_interval_ x with
  | Some i =>
    if i =? seconds session_never_expire then mret tt
    else
      t ← make_timer i (session_expired s);
      cancel_timer (tim_session_expiry_ x);;
      modify_session (set_tim_session_expiry_ (Some t)) s
  | None => mret tt
  end.

(** [create] and the constructor.  The pointer that is returned is counted. *)
Definition create (e : epsp) (client_id username : list byte) (w : option will) (clean_start : bool)
    (will_expiry_interval session_expiry_interval : option Z) : program session_ref :=
  address ← allocate;
  tim_will_delay ← allocate;
  version ← get_protocol_version e;
  remain ← match version with
           | protocol_version.v3_1_1 => mret (negb clean_start)
           | _ => assert (bool_decide (version = protocol_version.v5));; mret (remains session_expiry_interval)
           end;
  let s := mk_session_ref address client_id in
  modify (set_heap <[s := mk_session_state None None (ep e) version username session_expiry_interval None [] [] ∅ tim_will_delay remain ∅
    None None 1]>);;
  update_will s w will_expiry_interval;;
  mret s.

Definition send_inflight_messages (s : session_ref) : program unit :=
  e ← lock s;
  match e with
  | Some e => x ← session s; for_each (send_inflight e) (inflight_messages_ x) tt
  | None => mret tt
  end.

(** [send_all_offline_messages] and
    [send_offline_messages_by_packet_id_release] *)
Definition send_all_offline_messages (s : session_ref) : program unit :=
  e ← lock s;
  match e with
  | Some e => x ← session s; send_until_fail s e (version_ x)
  | None => mret tt
  end.
Definition send_offline_messages_by_packet_id_release (s : session_ref) : program unit := send_all_offline_messages s.
End callbacks.
End session.
