(* ===== verification/Broker.v ===== *)
(** * The broker: tool/include/broker/broker.hpp

    What the broker does with each packet an endpoint receives, with each
    asynchronous operation that completes and with each timer that fires.

    The members that are callbacks for tests are never set and are left out,
    with the delay of [disconnect_handler].  Handlers hold [mtx_sessions_] while
    they run, so they are one after the other. *)
From S2P Require Import PacketBuilder.
From S2P Require Import Prelude Boost Wire Error Property Packet PublishPacket ControlPacket EntryPacket ConnectPacket Store ConnectionState.
From S2P Require Import Action TopicFilter SubscriptionMap RetainedTopicMap SharedTarget Security BrokerState SessionState.

Section handlers.
Context {BE : BoostEndian} {BMI : BoostMultiIndex} {EP : Endpoint} {SU : Surroundings}.
(** what security.hpp calls of OpenSSL and of Boost *)
Context (sha256hash : list byte -> list byte) (iequals : list byte -> list byte -> bool).
Abbreviation program := (action broker).

Definition async_read_packet (e : epsp) : program unit := start (async_recv e).

(** [unique_scope_guard]: at the end, and when an exception leaves *)
Definition then_read_packet (e : epsp) (p : program unit) : program unit := fun b =>
  match p b with
  | Return _ b => async_read_packet e b
  | Throw x b => Throw x (set_trace (fun l => l ++ [async_recv e]) b)
  | Undefined => Undefined
  end.

(** [idx.find(epsp)] of the index [tag_con] *)
Definition find_con (e : epsp) : program (option session_ref) :=
  b ← get;
  mret (List.find (fun s => bool_decide (epwp_ <$> heap b !! s = Some (ep e))) (sessions_ b)).

(** the element with the user name and the client identifier *)
Definition find_cid (username client_id : list byte) : program (option session_ref) :=
  b ← get;
  mret (List.find (fun s => bool_decide (ref_client_id s = client_id) && bool_decide (username_ <$> heap b !! s = Some username)) (sessions_ b)).

(** [emplace]: was the session inserted? *)
Definition emplace_session (s : session_ref) : program bool :=
  x ← session s;
  found ← find_cid (username_ x) (ref_client_id s);
  match found with
  | None => modify (fun b => set_sessions_ (sessions_ b ++ [s]) b);; mret true
  | Some _ => mret false
  end.

(** [*it], which is undefined once the element is erased *)
Definition element (it : session_ref) : program unit := b ← get; assert (bool_decide (it ∈ sessions_ b)).

(** [extract], or the removal of the pointer by [erase] *)
Definition remove_session (s : session_ref) : program unit :=
  modify (fun b => set_sessions_ (List.filter (fun x => negb (bool_decide (x = s))) (sessions_ b)) b).

(** ** Publishing *)

(** [boost::numeric_cast<std::uint32_t>] *)
Definition numeric_cast_uint32 (v : Z) : program Z := if v <? 2 ^ 32 then mret v else throw system_error.

Definition with_subscription_identifier (v : option Z) (ps : properties) : program properties :=
  match v with
  | None => mret ps
  | Some v => p ← of_result (make_subscription_identifier v); mret (ps ++ [p])
  end.

(** the closure [deliver] of [do_publish] *)
Definition deliver_to (auth_users : gmap (list byte) auth_type) (topic : list byte) (payload : list (list byte)) (opts : Z) (ps : properties)
    (ref : session_ref) (sub : subscription session_ref) : program bool :=
  x ← session ref;
  b ← get;
  if bool_decide (auth_sub_user auth_users (username_ x) (security_ b) = allow) then
    new_opts ← opts_of_qos (Z.min (pub.get_qos opts) (sub.get_qos (SharedTarget.opts sub)));
    let new_opts := if (sub.get_rap (SharedTarget.opts sub) =? 0x08) && pub.is_retain opts then Z.lor new_opts 1 else new_opts in
    sid ← match sid sub with Some v => v ← numeric_cast_uint32 v; mret (Some v) | None => mret None end;
    ps ← with_subscription_identifier sid ps;
    deliver ref topic payload new_opts ps;;
    mret true
  else mret false.

(** the callback of [subs_map_.modify]: [matched], and the share names and
    filters the message was sent to *)
Definition publish_to (source_ss : session_ref) (auth_users : gmap (list byte) auth_type) (topic : list byte) (payload : list (list byte))
    (opts : Z) (ps : properties) (found : list byte * subscription session_ref) (r : bool * list (list byte * list byte)) :
    program (bool * list (list byte * list byte)) :=
  let '(matched, sent) := r in
  let sub := snd found in
  if bool_decide (sharename sub = []) then
    local ← (if sub.get_nl (SharedTarget.opts sub) =? 0x04
             then session (ss sub);; mret (bool_decide (ref_client_id (ss sub) = ref_client_id source_ss)) else mret false);
    if local : bool then mret (matched, sent)
    else d ← deliver_to auth_users topic payload opts ps (ss sub) sub; mret (matched || d, sent)
  else
    let share := (sharename sub, SharedTarget.topic sub) in
    if bool_decide (share ∈ sent) then mret (matched, sent)
    else
      n ← now;
      target ← on_shared_targets (get_target ref_client_id n (sharename sub) (SharedTarget.topic sub));
      match target with
      | None => mret (matched, sent ++ [share])
      | Some (ref, sub) => d ← deliver_to auth_users topic payload opts ps ref sub; mret (matched || d, sent ++ [share])
      end.

(** [retains_]: the timer erases the topic *)
Definition retain (source_ss : session_ref) (topic : list byte) (payload : list (list byte)) (opts : Z) (ps : properties) : program unit :=
  if pub.is_retain opts then
    if bool_decide (payload = []) then on_retains (RetainedTopicMap.erase topic);; mret tt
    else
      x ← session source_ss;
      tim ← match (if bool_decide (version_ x = protocol_version.v5) then last_val message_expiry_interval_val ps else None) with
            | Some v => t ← make_timer (seconds v) (retain_expired topic); mret (Some t)
            | None => mret None
            end;
      on_retains (RetainedTopicMap.insert_or_assign topic (mk_retain_type topic payload ps (pub.get_qos opts) tim));;
      mret tt
  else mret tt.

(** the values found are those the callback is called with, which changes
    none of them *)
Definition do_publish (source_ss : session_ref) (topic : list byte) (payload : list (list byte)) (opts : Z) (ps : properties) : program bool :=
  auth_users ← on_security (auth_sub topic);
  found ← on_subs_map (multiple_subscription_map.find topic);
  r ← for_each (publish_to source_ss auth_users topic payload opts ps) found (false, []);
  retain source_ss topic payload opts ps;;
  mret (fst r).

(** ** Callbacks of sessions *)

Definition will_sender (source_ss : session_ref) (topic : list byte) (payload : list (list byte)) (opts : Z) (ps : properties) : program unit :=
  do_publish source_ss topic payload opts ps;; mret tt.

(** the handler of [set_response_topic]: its topic and its rule *)
Definition clean_handler (h : list byte * Z) : program unit :=
  on_retains (RetainedTopicMap.erase (fst h));; on_security (remove_auth (snd h)).

Definition set_response_topic (s : session_ref) (connack_props : properties) (username : list byte) : program properties :=
  x ← session s;
  response_topic ← match response_topic_ x with
                   | Some rt => mret rt
                   | None => rt ← create_uuid_string; modify_session (set_response_topic_ (Some rt)) s;; mret rt
                   end;
  rule_nr ← on_security (add_auth response_topic [any_group_name] allow [username] allow);
  modify_session (set_clean_handler_ (Some (response_topic, rule_nr))) s;;
  p ← of_result (make_response_information response_topic);
  mret (connack_props ++ [p]).

(** ** Closing *)

(** [disconnect_and_close_op] *)
Definition disconnect_and_close (e : epsp) (version : protocol_version.t) (rc : Z) (k : handler) : program unit :=
  match version with
  | protocol_version.v3_1_1 => start (async_close (ep e) k)
  | _ => p ← of_result (Reason.make_v5_disconnect (Some rc) []); start (async_send (ep e) (v5_disconnect p) (handler_disconnected e k))
  end.

(** ** CONNECT *)

Definition send_connack (e : epsp) (session_present authenticated : bool) (ps : properties) (k : handler) : program unit :=
  version ← get_protocol_version e;
  b ← get;
  match version with
  | protocol_version.v3_1_1 =>
    if connack_ (options b) then
      start (async_send (ep e) (v3_1_1_connack (Fixed.make_v3_connack session_present
        (if authenticated then connect_return_code.accepted else connect_return_code.not_authorized))) k)
    else mret tt
  | protocol_version.v5 =>
    ps ← (if bool_decide (connack_props_ (options b) = []) then
            p ← of_result (make_receive_maximum receive_maximum_max);
            mret (ps ++ [make_topic_alias_maximum topic_alias_max; p])
          else mret (connack_props_ (options b)));
    if connack_ (options b) then
      p ← of_result (Connack.make_v5_connack session_present
        (if authenticated then connect_reason_code.success else connect_reason_code.not_authorized) ps);
      start (async_send (ep e) (v5_connack p) k)
    else mret tt
  | protocol_version.undetermined => undefined
  end.

Definition set_client_id (cid : list byte) (e : epsp) : epsp := mk_epsp (ep e) cid (preauthed_user_name_ e).

(** the endpoint with the client identifier that was generated *)
Definition handle_empty_client_id (e : epsp) (client_id : list byte) (clean_start : bool) (connack_props : properties) :
    program (option (epsp * properties)) :=
  version ← get_protocol_version e;
  match version with
  | protocol_version.v3_1_1 =>
    if bool_decide (client_id = []) then
      if clean_start then cid ← create_uuid_string; mret (Some (set_client_id cid e, connack_props))
      else
        b ← get;
        (if connack_ (options b) then
           start (async_send (ep e) (v3_1_1_connack (Fixed.make_v3_connack false connect_return_code.identifier_rejected))
             (handler_identifier_rejected e))
         else mret tt);;
        mret None
    else mret (Some (e, connack_props))
  | protocol_version.v5 =>
    if bool_decide (client_id = []) then
      cid ← create_uuid_string;
      p ← of_result (make_assigned_client_identifier cid);
      mret (Some (set_client_id cid e, connack_props ++ [p]))
    else mret (Some (e, connack_props))
  | protocol_version.undetermined => undefined
  end.

(** a session that is new *)
Definition connect_new (e : epsp) (client_id username : list byte) (w : option will) (clean_start : bool)
    (will_expiry_interval session_expiry_interval : option Z) (response_topic_requested : bool) (connack_props : properties) : program unit :=
  s ← create e client_id username w clean_start will_expiry_interval session_expiry_interval;
  inserted ← emplace_session s;
  assert inserted;;
  connack_props ← (if response_topic_requested then set_response_topic s connack_props username else mret connack_props);
  send_connack e false true connack_props (handler_read_packet e).

Definition offline_to_online (e : epsp) (w : option will) (will_expiry_interval session_expiry_interval : option Z) (clean_start : bool)
    (username : list byte) (it : session_ref) (response_topic_requested : bool) (connack_props : properties) : program unit :=
  element it;;
  if clean_start then
    renew clean_handler it e w clean_start will_expiry_interval session_expiry_interval;;
    connack_props ← (if response_topic_requested then set_response_topic it connack_props username else mret connack_props);
    send_connack e false true connack_props (handler_read_packet e)
  else
    connack_props ← (if response_topic_requested then set_response_topic it connack_props username else mret connack_props);
    start (dispatch (ep e) (handler_inherit e it w will_expiry_interval session_expiry_interval connack_props)).

(** the closure of [connect_handler] after the old connection is closed *)
Definition taken_over (t : takeover) (remain_as_offline : bool) : program unit :=
  if remain_as_offline then
    offline_to_online (to_epsp t) (to_will t) (to_will_expiry_interval t) (to_session_expiry_interval t) (to_clean_start t) (to_username t)
      (to_it t) (to_response_topic_requested t) (to_connack_props t)
  else
    connect_new (to_epsp t) (to_client_id t) (to_username t) (to_will t) (to_clean_start t) (to_will_expiry_interval t)
      (to_session_expiry_interval t) (to_response_topic_requested t) (to_connack_props t).

(** what the token of [close_proc_no_lock] is called with *)
Definition complete (token : option takeover) (remain_as_offline : bool) : program unit :=
  match token with Some t => taken_over t remain_as_offline | None => mret tt end.

(** [close_proc_no_lock_op], until the connection is closed *)
Definition close_proc_no_lock (e : epsp) (send_will : bool) (rc_opt : option Z) (token : option takeover) : program unit :=
  it ← find_con e;
  match it with
  | None => complete token false
  | Some s =>
    x ← session s;
    let do_send_will := if send_will then SessionState.send_will will_sender s else clear_will s in
    let close version k := match rc_opt with Some rc => disconnect_and_close e version rc k | None => start (async_close (ep e) k) end in
    if remain_after_close_ x then
      do_send_will;;
      acquire s;;
      close (version_ x) (handler_closed e (Some s) None token)
    else
      remove_session s;;
      do_send_will;;
      close (version_ x) (handler_closed e None (Some s) token)
  end.

(** and after that; the pointers are released at the end *)
Definition connection_closed (e : epsp) (sssp extracted : option session_ref) (token : option takeover) : program unit :=
  match sssp with
  | Some s => become_offline s e;; complete token true;; release will_sender clean_handler s
  | None =>
    complete token false;;
    match extracted with Some s => release will_sender clean_handler s | None => mret tt end
  end.

Definition close_proc (e : epsp) (send_will : bool) (rc_opt : option Z) : program unit := close_proc_no_lock e send_will rc_opt None.

(** the user a CONNECT is from *)
Definition authenticate (e : epsp) (noauth_username password : option (list byte)) : program (option (list byte)) :=
  b ← get;
  username ← match preauthed_user_name_ e, noauth_username, password with
             | Some paun, _, _ => mret (if login_cert paun (security_ b) then Some paun else None)
             | None, None, None => mret (login_anonymous (security_ b))
             | None, Some un, Some pw => on_security (login sha256hash iequals un pw)
             | None, _, _ => mret None
             end;
  mret (match username with Some u => Some u | None => login_unauthenticated (security_ b) end).

Definition session_expiry_interval_val (p : property_variant) : option Z :=
  match p with session_expiry_interval v => if uint_val 4 v =? 0 then None else Some (uint_val 4 v) | _ => None end.
Definition request_response_information_val (p : property_variant) : option bool :=
  match p with request_response_information v => Some (bool_val v) | _ => None end.

Definition connect_handler (e : epsp) (client_id : list byte) (noauth_username password : option (list byte)) (w : option will)
    (clean_start : bool) (ps : properties) : program unit :=
  username ← authenticate e noauth_username password;
  version ← get_protocol_version e;
  let v5_props := if bool_decide (version = protocol_version.v5) then ps else [] in
  let session_expiry_interval := seconds <$> last_val session_expiry_interval_val v5_props in
  let response_topic_requested := default false (last_val request_response_information_val v5_props) in
  let will_expiry_interval :=
    seconds <$> last_val message_expiry_interval_val
      (match w with Some w => if bool_decide (version = protocol_version.v5) then will_props w else [] | None => [] end) in
  match username with
  | None => send_connack e false false [] (handler_not_authorized e version)
  | Some username =>
    named ← (if bool_decide (client_id = []) then
               r ← handle_empty_client_id e client_id clean_start [];
               mret (match r with Some (e, connack_props) => Some (e, client_id_ e, connack_props) | None => None end)
             else mret (Some (e, client_id, [])));
    match named with
    | None => mret tt
    | Some (e, client_id, connack_props) =>
      it ← find_cid username client_id;
      match it with
      | None =>
        connect_new e client_id username w clean_start will_expiry_interval session_expiry_interval response_topic_requested connack_props
      | Some it =>
        old_epsp ← lock it;
        match old_epsp with
        | Some old_epsp =>
          close_proc_no_lock old_epsp true (Some disconnect_reason_code.session_taken_over)
            (Some (mk_takeover e it connack_props clean_start client_id response_topic_requested username w will_expiry_interval
              session_expiry_interval))
        | None =>
          offline_to_online e w will_expiry_interval session_expiry_interval clean_start username it response_topic_requested connack_props
        end
      end
    end
  end.

(** ** PUBLISH and its responses *)

(** a response with the identifier alone, with a code, or with a code and the
    properties that are set *)
Definition ack_packet (cls : reason_class) (packet_id : Z) (code : option Z) (ps : properties) : program v5_ack.ack_packet :=
  match code, ps with
  | None, [] => mret (Ack.make_ack_id pidb cls packet_id)
  | None, ps => of_result (Ack.make_ack pidb cls packet_id (Some puback_reason_code.success) ps)
  | Some code, ps => of_result (Ack.make_ack pidb cls packet_id (Some code) ps)
  end.

(** the closure [send_pubres] *)
Definition pubres_code (authorized matched : bool) : option Z :=
  if authorized then if matched then None else Some puback_reason_code.no_matching_subscribers
  else Some puback_reason_code.not_authorized.

Definition send_pubres (e : epsp) (packet_id opts : Z) (authorized matched : bool) : program unit :=
  let q := pub.get_qos opts in
  if q =? qos.at_least_once then
    version ← get_protocol_version e;
    b ← get;
    match version with
    | protocol_version.v3_1_1 => start (async_send (ep e) (v3_1_1_puback (Fixed.make_v3_puback pidb packet_id)) handler_log)
    | protocol_version.v5 =>
      p ← ack_packet puback_class packet_id (pubres_code authorized matched) (puback_props_ (options b));
      start (async_send (ep e) (v5_puback p) handler_log)
    | protocol_version.undetermined => undefined
    end
  else if q =? qos.exactly_once then
    version ← get_protocol_version e;
    b ← get;
    match version with
    | protocol_version.v3_1_1 => start (async_send (ep e) (v3_1_1_pubrec (Fixed.make_v3_pubrec pidb packet_id)) handler_log)
    | protocol_version.v5 =>
      p ← ack_packet pubrec_class packet_id (pubres_code authorized matched) (pubrec_props_ (options b));
      start (async_send (ep e) (v5_pubrec p) handler_log)
    | protocol_version.undetermined => undefined
    end
  else mret tt.

Definition is_forwarded (p : property_variant) : bool :=
  match p with topic_alias _ | subscription_identifier _ => false | _ => true end.

Definition publish_handler (e : epsp) (packet_id opts : Z) (topic : list byte) (payload : list (list byte)) (ps : properties) : program unit :=
  then_read_packet e (
    it ← find_con e;
    match it with
    | None => mret tt
    | Some s =>
      x ← session s;
      access ← on_security (auth_pub topic (username_ x));
      if negb (bool_decide (access = allow)) then send_pubres e packet_id opts false false
      else
        opts' ← without_dup opts;
        matched ← do_publish s topic payload opts' (List.filter is_forwarded ps);
        send_pubres e packet_id opts true matched
    end).

(** [puback_handler] and [pubcomp_handler] *)
Definition ack_handler (e : epsp) (packet_id : Z) : program unit :=
  then_read_packet e (
    it ← find_con e;
    match it with
    | None => mret tt
    | Some s => erase_inflight_message_by_packet_id s packet_id;; send_offline_messages_by_packet_id_release s
    end).

Definition pubrec_handler (e : epsp) (packet_id reason_code : Z) : program unit :=
  then_read_packet e (
    it ← find_con e;
    match it with
    | None => mret tt
    | Some s =>
      if category_failed pubrec_reason_code_category reason_code then mret tt
      else
        erase_inflight_message_by_packet_id s packet_id;;
        processing ← is_publish_processing packet_id e;
        version ← get_protocol_version e;
        b ← get;
        match version with
        | protocol_version.v3_1_1 => start (async_send (ep e) (v3_1_1_pubrel (Fixed.make_v3_pubrel pidb packet_id)) handler_log)
        | protocol_version.v5 =>
          p ← ack_packet pubrel_class packet_id (if processing : bool then None else Some pubrel_reason_code.packet_identifier_not_found)
                (pubrel_props_ (options b));
          start (async_send (ep e) (v5_pubrel p) handler_log)
        | protocol_version.undetermined => undefined
        end
    end).

Definition pubrel_handler (e : epsp) (packet_id reason_code : Z) : program unit :=
  then_read_packet e (
    it ← find_con e;
    match it with
    | None => mret tt
    | Some s =>
      version ← get_protocol_version e;
      b ← get;
      match version with
      | protocol_version.v3_1_1 => start (async_send (ep e) (v3_1_1_pubcomp (Fixed.make_v3_pubcomp pidb packet_id)) handler_log)
      | protocol_version.v5 =>
        p ← ack_packet pubcomp_class packet_id (if reason_code =? pubrel_reason_code.success then None else Some reason_code)
              (pubcomp_props_ (options b));
        start (async_send (ep e) (v5_pubcomp p) handler_log)
      | protocol_version.undetermined => undefined
      end
    end).

(** ** SUBSCRIBE and UNSUBSCRIBE *)

(** the closure [publish_proc] *)
Definition set_message_expiry (d : Z) (p : property_variant) : property_variant :=
  match p with message_expiry_interval _ => make_message_expiry_interval (d mod 2 ^ 32) | p => p end.

Definition publish_retained (ss : session_ref) (e : epsp) (r : retain_type * Z * option Z) : program unit :=
  let '(r, qos_value, sid) := r in
  ps ← with_subscription_identifier ((fun v => v mod 2 ^ 32) <$> sid) (retain_props r);
  ps ← match retain_tim r with
       | Some t => n ← now; mret (map (set_message_expiry (to_seconds (expiry t - n))) ps)
       | None => mret ps
       end;
  opts ← opts_of_qos (Z.min (retain_qos r) qos_value);
  publish ss e (retain_topic r) (retain_payload r) (Z.lor opts 1) ps.

(** [operator bool] of [topic_subopts] *)
Definition is_valid_entry (entry : topic_subopts) : bool := negb (bool_decide (topic_ (topic_sharename_ entry) = [])).

(** an entry that is granted; the retained messages are found now and
    delivered later *)
Definition subscribe_entry (ss : session_ref) (sid : option Z) (entry : topic_subopts) : program (list (retain_type * Z * option Z)) :=
  let t := topic_sharename_ entry in
  r ← subscribe ss (sharename_ t) (topic_ t) (opts_ entry) (on_retains (RetainedTopicMap.find (topic_ t))) sid;
  mret (map (fun v => (v, sub.get_qos (opts_ entry), sid)) (default [] r)).

(** the code of an entry, and whether it is granted *)
Definition v3_grant (username : list byte) (sec : security) (entry : topic_subopts) : Z * bool :=
  if negb (is_valid_entry entry) || is_subscribe_authorized username (topic_ (topic_sharename_ entry)) sec
  then (sub.get_qos (opts_ entry), true) else (suback_return_code.failure, false).
Definition v5_grant (username : list byte) (sec : security) (entry : topic_subopts) : Z * bool :=
  if is_valid_entry entry then
    if is_subscribe_authorized username (topic_ (topic_sharename_ entry)) sec then (sub.get_qos (opts_ entry), true)
    else (suback_reason_code.not_authorized, false)
  else (suback_reason_code.topic_filter_invalid, false).

(** an entry adds its code, and the messages to deliver *)
Definition subscribe_one (ss : session_ref) (sid : option Z) (grant : list byte -> security -> topic_subopts -> Z * bool)
    (entry : topic_subopts) (r : list Z * list (retain_type * Z * option Z)) : program (list Z * list (retain_type * Z * option Z)) :=
  let '(res, retain_deliver) := r in
  x ← session ss;
  b ← get;
  let '(code, granted) := grant (username_ x) (security_ b) entry in
  if granted : bool then l ← subscribe_entry ss sid entry; mret (res ++ [code], retain_deliver ++ l)
  else mret (res ++ [code], retain_deliver).

Definition subscribe_entries (ss : session_ref) (sid : option Z) (grant : list byte -> security -> topic_subopts -> Z * bool)
    (entries : list topic_subopts) : program (list Z * list (retain_type * Z * option Z)) :=
  for_each (subscribe_one ss sid grant) entries ([], []).

Definition subscription_identifier_val (p : property_variant) : option Z :=
  match p with
  | subscription_identifier v => match variable_val v with Some n => if n =? 0 then None else Some n | None => None end
  | _ => None
  end.

Definition subscribe_handler (e : epsp) (packet_id : Z) (entries : list topic_subopts) (ps : properties) : program unit :=
  then_read_packet e (
    it ← find_con e;
    match it with
    | None => mret tt
    | Some ss =>
      version ← get_protocol_version e;
      b ← get;
      retain_deliver ←
        match version with
        | protocol_version.v3_1_1 =>
          r ← subscribe_entries ss None v3_grant entries;
          p ← of_result (Codes.make_v3_suback pidb packet_id (fst r));
          start (async_send (ep e) (v3_1_1_suback p) handler_log);;
          mret (snd r)
        | protocol_version.v5 =>
          r ← subscribe_entries ss (first_val subscription_identifier_val ps) v5_grant entries;
          p ← of_result (Codes.make_v5_suback pidb packet_id (fst r) (suback_props_ (options b)));
          start (async_send (ep e) (v5_suback p) handler_log);;
          mret (snd r)
        | protocol_version.undetermined => undefined
        end;
      for_each (fun r _ => publish_retained ss e r) retain_deliver tt
    end).

Definition unsubscribe_handler (e : epsp) (packet_id : Z) (entries : list topic_sharename) : program unit :=
  then_read_packet e (
    it ← find_con e;
    match it with
    | None => mret tt
    | Some ss =>
      for_each (fun entry _ => unsubscribe ss (sharename_ entry) (topic_ entry)) entries tt;;
      version ← get_protocol_version e;
      b ← get;
      match version with
      | protocol_version.v3_1_1 => start (async_send (ep e) (v3_1_1_unsuback (Fixed.make_v3_unsuback pidb packet_id)) handler_log)
      | protocol_version.v5 =>
        p ← of_result (Codes.make_v5_unsuback pidb packet_id (map (fun _ => unsuback_reason_code.success) entries) (unsuback_props_ (options b)));
        start (async_send (ep e) (v5_unsuback p) handler_log)
      | protocol_version.undetermined => undefined
      end
    end).

(** ** The other packets *)

Definition pingreq_handler (e : epsp) : program unit :=
  then_read_packet e (
    b ← get;
    if pingresp_ (options b) then
      version ← get_protocol_version e;
      match version with
      | protocol_version.v3_1_1 => start (async_send (ep e) (v3_1_1_pingresp Fixed.make_v3_pingresp) handler_log)
      | protocol_version.v5 => start (async_send (ep e) (v5_pingresp Fixed.make_v5_pingresp) handler_log)
      | protocol_version.undetermined => undefined
      end
    else mret tt).

Definition disconnect_handler (e : epsp) (rc : Z) : program unit :=
  close_proc e (rc =? disconnect_reason_code.disconnect_with_will_message) (Some rc).

Definition auth_handler (e : epsp) : program unit := then_read_packet e (mret tt).

(** [recv_proc]: what an endpoint received, [None] with an error *)
Definition recv_proc (e : epsp) (pv_opt : option packet_variant) : program unit :=
  match pv_opt with
  | None => close_proc e true None
  | Some pv =>
    match pv with
    | v3_1_1_connect p =>
      connect_handler e (v3_1_1.client_id_ p) (V3Connect.user_name p) (V3Connect.password p) (V3Connect.get_will p) (v3_clean_session p) []
    | v5_connect p =>
      connect_handler e (v5.client_id_ p) (V5Connect.user_name p) (V5Connect.password p) (V5Connect.get_will p) (v5_clean_start p) (v5.props_ p)
    | v3_1_1_publish p =>
      publish_handler e (packet_id pidb pv) (v3_publish.fixed_header_ p) (v3_publish.topic_name_ p) (v3_publish.payloads_ p) []
    | v5_publish p =>
      publish_handler e (packet_id pidb pv) (v5_publish.fixed_header_ p) (v5_publish.topic_name_ p) (v5_publish.payloads_ p) (v5_publish.props_ p)
    | v3_1_1_puback _ | v5_puback _ | v3_1_1_pubcomp _ | v5_pubcomp _ => ack_handler e (packet_id pidb pv)
    | v3_1_1_pubrec _ => pubrec_handler e (packet_id pidb pv) pubrec_reason_code.success
    | v5_pubrec p => pubrec_handler e (packet_id pidb pv) (v5_ack_code p)
    | v3_1_1_pubrel _ => pubrel_handler e (packet_id pidb pv) pubrel_reason_code.success
    | v5_pubrel p => pubrel_handler e (packet_id pidb pv) (v5_ack_code p)
    | v3_1_1_subscribe p => subscribe_handler e (packet_id pidb pv) (entries_packet.entries_ p) []
    | v5_subscribe p => subscribe_handler e (packet_id pidb pv) (entries_packet.entries_ p) (entries_packet.props_ p)
    | v3_1_1_unsubscribe p | v5_unsubscribe p => unsubscribe_handler e (packet_id pidb pv) (entries_packet.entries_ p)
    | v3_1_1_pingreq _ | v5_pingreq _ => pingreq_handler e
    | v3_1_1_disconnect _ => disconnect_handler e disconnect_reason_code.normal_disconnection
    | v5_disconnect p => disconnect_handler e (default disconnect_reason_code.normal_disconnection (v5_reason.reason_code_ p))
    | v5_auth _ => auth_handler e
    | _ => mret tt
    end
  end.

(** [handle_accept] *)
Definition handle_accept (e : epsp) (preauthed_user_name : option (list byte)) : program unit :=
  async_read_packet (mk_epsp (ep e) (client_id_ e) preauthed_user_name).

(** ** Completions and timers *)

(** an operation completed: with an error?  with which packet identifier? *)
Definition run_handler (k : handler) (ec : bool) (pid : Z) : program unit :=
  match k with
  | handler_log | handler_detached => mret tt
  | handler_read_packet e => async_read_packet e
  | handler_not_authorized e version => disconnect_and_close e version disconnect_reason_code.not_authorized handler_detached
  | handler_identifier_rejected e => start (async_close (ep e) handler_log)
  | handler_send_publish s e pub_topic payload pubopts ps =>
    if ec then mret tt else send_publish s e pub_topic payload pubopts ps pid
  | handler_send_until_fail s e ver => run_send_until_fail s e ver
  | handler_inherit e it w will_interval session_interval connack_props =>
    element it;;
    inherit it e w will_interval session_interval;;
    send_connack e true true connack_props (handler_inherited e it)
  | handler_inherited e it =>
    if ec then mret tt
    else
      element it;;
      send_inflight_messages it;;
      send_all_offline_messages it;;
      async_read_packet e
  | handler_disconnected e k => start (async_close (ep e) k)
  | handler_closed e sssp extracted token => connection_closed e sssp extracted token
  end.

(** the timer [id] fired; its handler looks whether the timer is still there *)
Definition run_timer_handler (k : timer_handler) (id : Z) : program unit :=
  b ← get;
  match k with
  | will_expired s =>
    x ← session s; if bool_decide (timer_id <$> tim_will_expiry_ x = Some id) then clear_will s else mret tt
  | will_delayed s => send_will_impl will_sender s
  | session_expired s =>
    let expired := List.filter (fun s => bool_decide ((x ← heap b !! s; timer_id <$> tim_session_expiry_ x) = Some id)) (sessions_ b) in
    for_each (fun s _ => remove_session s;; release will_sender clean_handler s) expired tt
  | inflight_expired s => erase_inflight_message_by_expiry s id
  | offline_expired s => erase_offline_by_expiry s id
  | retain_expired topic =>
    if existsb (fun e => bool_decide ((r ← RetainedTopicMap.value e; timer_id <$> retain_tim r) = Some id))
         (mi_range direct_index (RetainedTopicMap.map_ (retains_ b)))
    then on_retains (RetainedTopicMap.erase topic);; mret tt else mret tt
  end.

Definition timer_fired (id : Z) : program unit :=
  b ← get;
  match timers b !! id with
  | Some k => modify (set_timers (base.delete id));; run_timer_handler k id
  | None => mret tt
  end.

(** the constructor and [set_security] *)
Definition make_broker : option broker :=
  match default_config make_security, RetainedTopicMap.make_retained_topic_map with
  | Return _ sec, Return _ retains =>
    Some (mk_broker sec make_subscription_map (make_shared_target ref_client_id) [] retains default_settings ∅ ∅ ∅ 0 0 0 [])
  | _, _ => None
  end.
Definition set_security (sec : security) : program unit := modify (set_security_ sec).

(** an endpoint that nothing refers to is destroyed *)
Definition endpoint_destroyed (e : Z) : program unit := modify (set_endpoints (base.delete e)).
Definition endpoint_accepted (e : Z) (x : endpoint) : program unit := modify (set_endpoints <[e := x]>).
End handlers.
