(* ===== verification/BrokerEndpoint.v ===== *)
(** * The endpoints of the broker are connections

    asio_bind/endpoint.hpp passes what the broker asks an endpoint to its
    [basic_connection], with packet identifiers of two bytes. *)
From S2P Require Import PacketBuilder.
From S2P Require Import Prelude Boost Packet Store PacketIdManager ConnectionState ConnectionRecv.
From S2P Require Import BrokerState.

Section endpoint.
Context {M : Type} {PM : PacketIdManager M} {BE : BoostEndian} {BMI : BoostMultiIndex}.
Abbreviation conn := (connection M pidb).

(** a call that returns leaves its state, any other changes nothing *)
Definition call_result {A} (default : A) (p : prog M pidb A) (c : conn) : A * conn :=
  match p c with ConnectionState.Return a c' _ => (a, c') | _ => (default, c) end.

#[export] Instance connection_endpoint : Endpoint := {
  endpoint := conn;
  ep_protocol_version := ConnectionRecv.get_protocol_version pidb;
  ep_acquire_unique_packet_id := call_result None (ConnectionRecv.acquire_unique_packet_id pidb);
  ep_register_packet_id pid := call_result false (ConnectionRecv.register_packet_id pidb pid);
  ep_is_publish_processing := ConnectionRecv.is_publish_processing pidb;
  ep_get_stored_packets := ConnectionRecv.get_stored_packets pidb;
  ep_get_qos2_publish_handled_pids := ConnectionRecv.get_qos2_publish_handled_pids pidb;
  ep_restore_qos2_publish_handled_pids pids c := snd (call_result tt (ConnectionRecv.restore_qos2_publish_handled_pids pidb pids) c);
}.

(** the identifier is one that was free, and there is none only when all are
    in use *)
Lemma endpoint_acquires {max} {PMO : PacketIdManagerOk M max} (c : conn) : pm_ok (pid_man_ c) ->
  match ep_acquire_unique_packet_id (Endpoint := connection_endpoint) c with
  | (Some pid, c') => 1 <= pid <= max /\ is_used_id pid (pid_man_ c) = false /\ is_used_id pid (pid_man_ c') = true /\ pm_ok (pid_man_ c')
  | (None, _) => forall pid, is_used_id pid (pid_man_ c) = true
  end.
Proof.
  intros Hc. pose proof (acquire_unique_id_spec (pid_man_ c) Hc) as H. unfold ep_acquire_unique_packet_id, connection_endpoint, call_result,
    ConnectionRecv.acquire_unique_packet_id, gets, modify, mbind, prog_bind, mret, prog_ret. destruct (acquire_unique_id (pid_man_ c)) as [[v|] m] eqn:Hacq; cbn in H |- *; [|apply H].
  destruct H as (Hv & Hfree & _ & Hok & Hused). split; [done|]. split; [done|]. rewrite Hused, Z.eqb_refl. done.
Qed.
End endpoint.
