(* ===== verification/BrokerInvariant.v ===== *)
(** * Subscriptions and the sessions they belong to

    The subscription map of the broker has references to sessions, and a
    session has the handles of its subscriptions, to remove them when it ends.
    Whatever packets arrive, operations complete and timers fire, the two agree:
    a subscription refers to a session that is not destroyed, and the session
    has its handle, as long as no client subscribes or unsubscribes while
    another session has subscriptions under the same client identifier. *)
From S2P Require Import PacketBuilder.
From S2P Require Import Prelude Boost Wire Error Property Packet PublishPacket ControlPacket EntryPacket ConnectPacket Store ConnectionState.
From S2P Require Import Action TopicFilter SubscriptionMap SubscriptionTree SubscriptionHandles SubscriptionSpec RetainedTopicMap SharedTarget.
From S2P Require Import Security BrokerState SessionState Broker.

(** ** What leaves the subscriptions as they are *)

(** a search of the map changes nothing *)
Section find.
Context {K : Type} `{Countable K} {V : Type}.

#[local] Hint Resolve preserves_at_iterator preserves_find_topic_filter : preserves.
#[local] Hint Extern 1 (preserves _ (match ?x with _ => _ end)) => destruct x : preserves.

Lemma preserves_find_match {Value} `{Inhabited Value} {L} (P : subscription_map Value -> Prop) topic callback (l : L) :
  (forall i l, preserves P (callback i l)) -> preserves P (find_match_impl topic callback l).
Proof.
  intros Hc. unfold find_match_impl, get_root. apply preserves_bind; [apply preserves_get|]. intros m.
  apply preserves_bind; [auto with preserves|]. intros root. apply preserves_bind.
  - apply preserves_tokenizer. intros t [entries l']. apply preserves_bind; [|intros []; auto with preserves].
    apply preserves_for_each. intros entry [new l'']. unfold match_level. auto 9 with preserves.
  - intros [[entries l'] c]. by apply preserves_for_each.
Qed.

Lemma preserves_find (P : subscription_map (gmap K V) -> Prop) topic : preserves P (multiple_subscription_map.find topic).
Proof. apply preserves_find_match. auto with preserves. Qed.

Lemma preserves_lookup_filter (P : subscription_map (gmap K V) -> Prop) f : preserves P (lookup_filter f).
Proof.
  unfold lookup_filter, path_to_handle. apply preserves_bind; [auto with preserves|]. intros path. destruct (decide _); auto with preserves.
Qed.
End find.

Section invariant.
Context {BE : BoostEndian} {BMI : BoostMultiIndex} {EP : Endpoint} {SU : Surroundings}.
Context (sha256hash : list byte -> list byte) (iequals : list byte -> list byte -> bool).
Abbreviation program := (action broker).
Abbreviation subscriptions := (gmap (list byte * list byte) (subscription session_ref)).
Implicit Types (b : broker) (A : subscriptions) (s : session_ref) (x : session_state) (m : subscription_map (gmap (list byte) (subscription session_ref))).

(** [b] has the subscriptions and the sessions of [b0], with their handles *)
Definition same_subs b0 b : Prop :=
  subs_map_ b = subs_map_ b0 /\ (forall s, handles_ <$> heap b !! s = handles_ <$> heap b0 !! s) /\ next_address b0 <= next_address b.

Definition same {R} (p : program R) : Prop := forall b0, preserves (same_subs b0) p.

Lemma same_subs_refl b : same_subs b b.
Proof. split; [done|]. split; [done | lia]. Qed.

Lemma same_run {R} (p : program R) b a b' : same p -> p b = Return a b' -> same_subs b b'.
Proof. intros Hp Hrun. by apply (Hp b b a b' (same_subs_refl b)). Qed.

Lemma same_ret {R} (a : R) : same (mret a).
Proof. intros b0. apply preserves_ret. Qed.
Lemma same_get : same get.
Proof. intros b0. apply preserves_get. Qed.
Lemma same_bind {R Q} (p : program R) (f : R -> program Q) : same p -> (forall a, same (f a)) -> same (p ≫= f).
Proof. intros Hp Hf b0. apply preserves_bind; [apply Hp | intros a; apply Hf]. Qed.
Lemma same_for_each {R L} (f : R -> L -> program L) l y : (forall a y, same (f a y)) -> same (for_each f l y).
Proof. intros Hf b0. apply preserves_for_each. intros a z. apply Hf. Qed.
Lemma same_throw {R} e : same (throw (A := R) e).
Proof. done. Qed.
Lemma same_undefined {R} : same (undefined (A := R)).
Proof. done. Qed.
Lemma same_assert c : same (assert c).
Proof. intros b0 b a b' Hb. unfold assert. destruct c; [by intros [= _ <-] | done]. Qed.
Lemma same_deref {R} (o : option R) : same (deref o).
Proof. intros b0 b a b' Hb. unfold deref. destruct o; [by intros [= _ <-] | done]. Qed.
Lemma same_of_result {R} (r : result R) : same (of_result r).
Proof. destruct r; [apply same_ret | done | done]. Qed.

Lemma same_modify (f : broker -> broker) :
  (forall b, subs_map_ (f b) = subs_map_ b /\ heap (f b) = heap b /\ next_address b <= next_address (f b)) -> same (modify f).
Proof.
  intros Hf b0. apply preserves_modify. intros b (Hm & Hh & Ha). destruct (Hf b) as (H1 & H2 & H3). unfold same_subs. rewrite H1, H2.
  split; [done|]. split; [done | lia].
Qed.

Lemma same_on_part {P R} (part : broker -> P) (set_part : P -> broker -> broker) (p : action P R) :
  (forall y b, subs_map_ (set_part y b) = subs_map_ b /\ heap (set_part y b) = heap b /\ next_address (set_part y b) = next_address b) ->
  same (on_part part set_part p).
Proof.
  intros Hset b0 b a b' (Hm & Hh & Ha). unfold on_part. destruct (p (part b)) as [a' y| |]; [|done..]. intros [= _ <-].
  destruct (Hset y b) as (H1 & H2 & H3). unfold same_subs. by rewrite H1, H2, H3.
Qed.

Lemma same_on_subs_map {R} (p : action _ R) : (forall m, preserves (eq m) p) -> same (on_subs_map p).
Proof.
  intros Hp b0 b a b' (Hm & Hh & Ha). unfold on_subs_map, on_part. destruct (p (subs_map_ b)) as [a' y| |] eqn:Hrun; [|done..].
  intros [= _ <-]. pose proof (Hp _ _ _ _ eq_refl Hrun) as <-. by destruct b.
Qed.

Lemma same_session s : same (session s).
Proof. unfold session. apply same_bind; [apply same_get | intros b; apply same_deref]. Qed.

Lemma same_modify_session f s : (forall x, handles_ (f x) = handles_ x) -> same (modify_session f s).
Proof.
  intros Hf b0 b a b' (Hm & Hh & Ha). unfold modify_session, session, mbind, action_bind, get, deref, modify.
  destruct (heap b !! s) as [x|] eqn:Hx; [|done]. intros [= _ <-]. unfold same_subs. cbn [subs_map_ set_heap heap next_address].
  split; [done|]. split; [|done]. intros s'. rewrite <- Hh. destruct (decide (s' = s)) as [->|Hne].
  - rewrite lookup_insert_eq, Hx. cbn. by rewrite Hf.
  - by rewrite lookup_insert_ne.
Qed.

Create HintDb same.
#[local] Hint Resolve same_ret same_get same_for_each same_throw same_undefined same_assert same_deref same_of_result same_session : same.
#[local] Hint Extern 1 (same (_ ≫= _)) => apply same_bind; [|intros] : same.
#[local] Hint Extern 1 (same (modify _)) => apply same_modify; intros; cbn; repeat split; lia : same.
#[local] Hint Extern 1 (same (modify_session _ _)) => apply same_modify_session; intros []; reflexivity : same.
#[local] Hint Extern 1 (same (on_security _)) => by apply same_on_part : same.
#[local] Hint Extern 1 (same (on_shared_targets _)) => by apply same_on_part : same.
#[local] Hint Extern 1 (same (on_retains _)) => by apply same_on_part : same.
#[local] Hint Extern 1 (same (on_subs_map (multiple_subscription_map.find _))) => apply same_on_subs_map; intros; apply preserves_find : same.
#[local] Hint Extern 1 (same (on_subs_map (lookup_filter _))) => apply same_on_subs_map; intros; apply preserves_lookup_filter : same.
#[local] Hint Extern 2 (same (match ?x with _ => _ end)) => destruct x : same.
#[local] Hint Extern 2 (same (let '(_, _) := ?x in _)) => destruct x : same.

Ltac same := intros; cbv zeta; auto 30 with same.

Lemma same_now : same now.
Proof. unfold now. same. Qed.
Lemma same_uuid : same create_uuid_string.
Proof. unfold create_uuid_string. same. Qed.
Lemma same_allocate : same allocate.
Proof. unfold allocate. same. Qed.
#[local] Hint Resolve same_now same_uuid same_allocate : same.
Lemma same_make_timer d k : same (make_timer d k).
Proof. unfold make_timer. same. Qed.
Lemma same_cancel_timer t : same (cancel_timer t).
Proof. unfold cancel_timer. same. Qed.
#[local] Hint Resolve same_make_timer same_cancel_timer : same.
Lemma same_cancel_timers l : same (cancel_timers l).
Proof. unfold cancel_timers. same. Qed.
Lemma same_start e : same (start e).
Proof. unfold start. same. Qed.
#[local] Hint Resolve same_cancel_timers same_start : same.
Lemma same_at_endpoint e : same (at_endpoint e).
Proof. unfold at_endpoint. same. Qed.
#[local] Hint Resolve same_at_endpoint : same.
Lemma same_modify_endpoint f e : same (modify_endpoint f e).
Proof. unfold modify_endpoint. same. Qed.
#[local] Hint Resolve same_modify_endpoint : same.
Lemma same_version e : same (get_protocol_version e).
Proof. unfold get_protocol_version. same. Qed.
Lemma same_acquire_pid e : same (acquire_unique_packet_id e).
Proof. unfold acquire_unique_packet_id. same. Qed.
Lemma same_register pid e : same (register_packet_id pid e).
Proof. unfold register_packet_id. same. Qed.
Lemma same_processing pid e : same (is_publish_processing pid e).
Proof. unfold is_publish_processing. same. Qed.
#[local] Hint Resolve same_version same_acquire_pid same_register same_processing : same.

(** *** The operations of a session that keep its handles *)

Lemma same_opts_of_qos q : same (opts_of_qos q).
Proof. unfold opts_of_qos. same. Qed.
#[local] Hint Resolve same_opts_of_qos : same.
Lemma same_without_dup o : same (without_dup o).
Proof. unfold without_dup. same. Qed.
Lemma same_send_publish_packet e v pid t p o ps : same (send_publish_packet e v pid t p o ps).
Proof. unfold send_publish_packet. same. Qed.
#[local] Hint Resolve same_without_dup same_send_publish_packet : same.
Lemma same_publish_offline msg e v pid : same (publish_offline msg e v pid).
Proof. unfold publish_offline, update_message_expiry. same. Qed.
#[local] Hint Resolve same_publish_offline : same.
Lemma same_send_offline msg e v : same (send_offline msg e v).
Proof. unfold send_offline. same. Qed.
#[local] Hint Resolve same_send_offline : same.
Lemma same_send_until_fail s e v : same (run_send_until_fail s e v).
Proof.
  unfold run_send_until_fail. apply same_bind; [same|]. intros x. induction (offline_messages_ x) as [|m l IH]; cbn [send_until_fail_loop]; same.
Qed.
Lemma same_push_back s t p o ps : same (push_back s t p o ps).
Proof. unfold push_back. same. Qed.
Lemma same_is_owned s : same (is_owned s).
Proof. unfold is_owned. same. Qed.
#[local] Hint Resolve same_send_until_fail same_push_back same_is_owned : same.
Lemma same_send_publish s e t p o ps pid : same (send_publish s e t p o ps pid).
Proof. unfold send_publish. same. Qed.
#[local] Hint Resolve same_send_publish : same.
Lemma same_publish s e t p o ps : same (publish s e t p o ps).
Proof. unfold publish. same. Qed.
Lemma same_lock s : same (lock s).
Proof. unfold lock. same. Qed.
#[local] Hint Resolve same_publish same_lock : same.
Lemma same_deliver s t p o ps : same (deliver s t p o ps).
Proof. unfold deliver. same. Qed.
Lemma same_reset_will s : same (reset_will_expiry s).
Proof. unfold reset_will_expiry. same. Qed.
#[local] Hint Resolve same_deliver same_reset_will : same.
Lemma same_clear_will s : same (clear_will s).
Proof. unfold clear_will. same. Qed.
Lemma same_update_will s w i : same (update_will s w i).
Proof. unfold update_will. same. Qed.
Lemma same_cancel_will_delay s : same (cancel_will_delay s).
Proof. unfold cancel_will_delay. same. Qed.
#[local] Hint Resolve same_clear_will same_update_will same_cancel_will_delay : same.

(** *** Messages that wait, and the will *)

Lemma same_insert_inflight s msg t : same (insert_inflight_message s msg t).
Proof. unfold insert_inflight_message. same. Qed.
Lemma same_erase_inflight s pid : same (erase_inflight_message_by_packet_id s pid).
Proof. unfold erase_inflight_message_by_packet_id. same. Qed.
Lemma same_erase_inflight_expiry s t : same (erase_inflight_message_by_expiry s t).
Proof. unfold erase_inflight_message_by_expiry. same. Qed.
Lemma same_erase_offline_expiry s t : same (erase_offline_by_expiry s t).
Proof. unfold erase_offline_by_expiry. same. Qed.
Lemma same_inflight_timer s p : same (inflight_timer s p).
Proof. unfold inflight_timer. same. Qed.
#[local] Hint Resolve same_insert_inflight same_erase_inflight same_erase_inflight_expiry same_erase_offline_expiry same_inflight_timer : same.
Lemma same_become_offline s e : same (become_offline s e).
Proof. unfold become_offline, get_stored_packets, get_qos2_publish_handled_pids. same. Qed.
Lemma same_inherit s e w i j : same (inherit s e w i j).
Proof. unfold inherit, restore_qos2_publish_handled_pids. same. Qed.
Lemma same_send_inflight s : same (send_inflight_messages s).
Proof. unfold send_inflight_messages, send_inflight. same. Qed.
Lemma same_send_all_offline s : same (send_all_offline_messages s).
Proof. unfold send_all_offline_messages, send_until_fail. same. Qed.
Lemma same_acquire s : same (acquire s).
Proof. unfold acquire. same. Qed.
#[local] Hint Resolve same_become_offline same_inherit same_send_inflight same_send_all_offline same_acquire : same.

(** *** Publishing *)

Lemma same_numeric_cast v : same (numeric_cast_uint32 v).
Proof. unfold numeric_cast_uint32. same. Qed.
Lemma same_with_sid v ps : same (with_subscription_identifier v ps).
Proof. unfold with_subscription_identifier. same. Qed.
#[local] Hint Resolve same_numeric_cast same_with_sid : same.
Lemma same_deliver_to u t p o ps r sub : same (deliver_to u t p o ps r sub).
Proof. unfold deliver_to. same. Qed.
#[local] Hint Resolve same_deliver_to : same.
Lemma same_publish_to s u t p o ps found r : same (publish_to s u t p o ps found r).
Proof. unfold publish_to. same. Qed.
Lemma same_retain s t p o ps : same (retain s t p o ps).
Proof. unfold retain. same. Qed.
#[local] Hint Resolve same_publish_to same_retain : same.
Lemma same_do_publish s t p o ps : same (do_publish s t p o ps).
Proof. unfold do_publish. same. Qed.
#[local] Hint Resolve same_do_publish : same.
Lemma same_will_sender s t p o ps : same (will_sender s t p o ps).
Proof. unfold will_sender. same. Qed.
Lemma same_clean_handler h : same (clean_handler h).
Proof. unfold clean_handler. same. Qed.
#[local] Hint Resolve same_will_sender same_clean_handler : same.
Lemma same_send_will_impl s : same (send_will_impl will_sender s).
Proof. unfold send_will_impl. same. Qed.
#[local] Hint Resolve same_send_will_impl : same.
Lemma same_send_will s : same (send_will will_sender s).
Proof. unfold send_will. same. Qed.
Lemma same_set_response_topic s ps u : same (set_response_topic s ps u).
Proof. unfold set_response_topic. same. Qed.
Lemma same_disconnect_and_close e v rc k : same (disconnect_and_close e v rc k).
Proof. unfold disconnect_and_close. same. Qed.
Lemma same_send_connack e p a ps k : same (send_connack e p a ps k).
Proof. unfold send_connack. same. Qed.
#[local] Hint Resolve same_send_will same_set_response_topic same_disconnect_and_close same_send_connack : same.
Lemma same_handle_empty e c cs ps : same (handle_empty_client_id e c cs ps).
Proof. unfold handle_empty_client_id. same. Qed.
Lemma same_find_con e : same (find_con e).
Proof. unfold find_con. same. Qed.
Lemma same_find_cid u c : same (find_cid u c).
Proof. unfold find_cid. same. Qed.
#[local] Hint Resolve same_handle_empty same_find_con same_find_cid : same.
Lemma same_emplace s : same (emplace_session s).
Proof. unfold emplace_session. same. Qed.
Lemma same_element s : same (element s).
Proof. unfold element. same. Qed.
Lemma same_remove_session s : same (remove_session s).
Proof. unfold remove_session. same. Qed.
Lemma same_authenticate e u p : same (authenticate sha256hash iequals e u p).
Proof. unfold authenticate. same. Qed.
#[local] Hint Resolve same_emplace same_element same_remove_session same_authenticate : same.
Lemma same_ack_packet cls pid c ps : same (ack_packet cls pid c ps).
Proof. unfold ack_packet. same. Qed.
#[local] Hint Resolve same_ack_packet : same.
Lemma same_send_pubres e pid o a matched : same (send_pubres e pid o a matched).
Proof. unfold send_pubres. same. Qed.
Lemma same_publish_retained s e r : same (publish_retained s e r).
Proof. unfold publish_retained. same. Qed.
#[local] Hint Resolve same_send_pubres same_publish_retained : same.

Lemma same_async_read e : same (async_read_packet e).
Proof. apply same_start. Qed.
#[local] Hint Resolve same_async_read : same.

Lemma same_then_read e p : same p -> same (then_read_packet e p).
Proof.
  intros Hp b0 b a b' Hb. unfold then_read_packet. destruct (p b) as [[] b1| |] eqn:Hrun; [|done..].
  apply (same_start (async_recv e)). by apply (Hp b0 b tt).
Qed.
#[local] Hint Resolve same_then_read : same.

(** ** The invariant *)

(** a subscription has its filter, and its identifier has a value *)
Definition valid_sid (v : option Z) : Prop := match v with Some v => 0 < v < 2 ^ 32 | None => True end.
Definition sub_ok (f : list byte) (sub : subscription session_ref) : Prop := SharedTarget.topic sub = f /\ valid_sid (sid sub).

(** [A] is what the subscription map holds, with room for [w] levels *)
Record owned b A (w : Z) : Prop := mk_owned {
  ow_map : within (subs_map_ b) A w;
  ow_room : 0 <= w < max_count;
  (** a subscription is well formed, and its session is there *)
  ow_session : forall f cid sub, A !! (f, cid) = Some sub ->
    sub_ok f sub /\ ref_client_id (ss sub) = cid /\ is_Some (heap b !! ss sub);
  (** a session has the handles of its subscriptions, and no others *)
  ow_handles : forall s x, heap b !! s = Some x -> forall h, h ∈ handles_ x <->
    exists f sub, lookup_filter f (subs_map_ b) = Return (Some h) (subs_map_ b) /\ A !! (f, ref_client_id s) = Some sub /\ ss sub = s;
  ow_fresh : forall s, is_Some (heap b !! s) -> address s < next_address b;
}.

Lemma same_is_Some b0 b s : same_subs b0 b -> is_Some (heap b !! s) <-> is_Some (heap b0 !! s).
Proof. intros (_ & Hh & _). rewrite <- (fmap_is_Some handles_), Hh. apply fmap_is_Some. Qed.

Lemma owned_same b b' A w : owned b A w -> same_subs b b' -> owned b' A w.
Proof.
  intros [Hmap Hroom Hsession Hhandles Hfresh] Hsame. pose proof Hsame as (Hm & Hh & Ha). rewrite <- Hm in *. split; [done | done | | |].
  - intros f cid sub Hsub. destruct (Hsession f cid sub Hsub) as (Ht & Hc & Hs). by rewrite (same_is_Some b b').
  - intros s x Hx. specialize (Hh s). rewrite Hx in Hh. cbn in Hh. symmetry in Hh. apply fmap_Some in Hh as (x0 & Hx0 & ->). by apply Hhandles.
  - intros s Hs. rewrite (same_is_Some b b') in Hs by done. specialize (Hfresh s Hs). lia.
Qed.

(** the programs that keep the invariant, with no more levels *)
Definition keeps {R} (p : program R) : Prop := forall b A w a b', owned b A w -> p b = Return a b' -> exists A', owned b' A' w.

Lemma keeps_same {R} (p : program R) : same p -> keeps p.
Proof. intros Hp b A w a b' Hb Hrun. exists A. apply (owned_same b); [done|]. by apply (same_run p b a). Qed.
Lemma keeps_bind {R Q} (p : program R) (f : R -> program Q) : keeps p -> (forall a, keeps (f a)) -> keeps (p ≫= f).
Proof. intros Hp Hf b A w a b' Hb (r & b1 & Hr & Hrun)%bind_returns. destruct (Hp b A w r b1 Hb Hr) as [A1 Hb1]. by apply (Hf r b1 A1 w a). Qed.
Lemma keeps_for_each {R L} (f : R -> L -> program L) l y : (forall a y, keeps (f a y)) -> keeps (for_each f l y).
Proof.
  intros Hf. revert y. induction l as [|a l IH]; intros y; [apply keeps_same, same_ret|]. cbn [for_each]. by apply keeps_bind.
Qed.

(** *** A session loses its subscriptions *)

Definition without s A : subscriptions := filter (fun e => ss (snd e) <> s) A.

Lemma lookup_without s A k sub : without s A !! k = Some sub <-> A !! k = Some sub /\ ss sub <> s.
Proof. unfold without. rewrite map_lookup_filter_Some. done. Qed.

Lemma size_without s A : (size (without s A) <= size A)%nat.
Proof. apply map_size_filter. Qed.

Lemma on_subs_map_return {R} (p : action _ R) b a m : p (subs_map_ b) = Return a m -> on_subs_map p b = Return a (set_subs_map_ m b).
Proof. unfold on_subs_map, on_part. by intros ->. Qed.

Lemma on_subs_map_returns {R} (p : action _ R) b a b' :
  on_subs_map p b = Return a b' -> exists m, p (subs_map_ b) = Return a m /\ b' = set_subs_map_ m b.
Proof. unfold on_subs_map, on_part. destruct (p (subs_map_ b)) as [r m| |]; [|done..]. intros [= -> <-]. by exists m. Qed.

(** the handles of the subscriptions of a session *)
Definition handles_of m A s (h : handle) : Prop :=
  exists f sub, lookup_filter f m = Return (Some h) m /\ A !! (f, ref_client_id s) = Some sub /\ ss sub = s.

Lemma handle_here m m' A' w f (k : list byte) (sub : subscription session_ref) h :
  within m' A' w -> handles_kept m' m -> A' !! (f, k) = Some sub -> lookup_filter f m = Return (Some h) m -> lookup_filter f m' = Return (Some h) m'.
Proof. intros Hin Hk Hsub Hh. destruct (lookup_entry m' A' f k sub (proj1 Hin) Hsub) as [h' Hh']. pose proof (Hk f h' Hh'). congruence. Qed.

Lemma unsubscribe_loop s : forall l b A w,
  within (subs_map_ b) A w -> NoDup l -> (forall f cid sub, A !! (f, cid) = Some sub -> ss sub = s -> cid = ref_client_id s) ->
  (forall h, h ∈ l <-> handles_of (subs_map_ b) A s h) ->
  exists m', for_each (fun h _ => on_subs_map (multiple_subscription_map.erase_handle h (ref_client_id s));; mret tt) l tt b =
      Return tt (set_subs_map_ m' b) /\
    within m' (without s A) w /\ handles_kept m' (subs_map_ b).
Proof.
  induction l as [|h l IH]; intros b A w Hin Hnd Hcid Hl.
  - exists (subs_map_ b). split; [by destruct b|]. split; [|by intros f h]. unfold without. rewrite map_filter_id; [done|].
    intros [f cid] sub Hsub Hs. cbn in Hs. pose proof (Hcid f cid sub Hsub Hs) as ->. destruct (lookup_entry _ _ f _ sub (proj1 Hin) Hsub) as [h Hh].
    assert (Hx : h ∈ []) by (apply Hl; by exists f, sub). by apply elem_of_nil in Hx.
  - apply NoDup_cons in Hnd as [Hno Hnd]. destruct (proj1 (Hl h) (list_elem_of_here _ _)) as (f & sub & Hlook & Hsub & Hs).
    destruct (erase_handles _ A w f h (ref_client_id s) Hin Hlook) as (m1 & Hrun1 & Hin1 & Hk1).
    destruct (IH (set_subs_map_ m1 b) (delete (f, ref_client_id s) A) w Hin1 Hnd) as (m2 & Hrun2 & Hin2 & Hk2).
    + intros f' cid sub' [_ Hsub']%lookup_delete_Some. by apply (Hcid f' cid sub').
    + intros h'. cbn [subs_map_ set_subs_map_]. split.
      * intros Hh'. destruct (proj1 (Hl h') (list_elem_of_further _ _ _ Hh')) as (f' & sub' & Hlook' & Hsub' & Hs').
        assert (f' <> f) as Hne by congruence. assert (Hd : delete (f, ref_client_id s) A !! (f', ref_client_id s) = Some sub').
        { rewrite lookup_delete_ne by congruence. done. }
        exists f', sub'. split; [|done]. by apply (handle_here (subs_map_ b) m1 _ w f' _ sub' h' Hin1 Hk1 Hd).
      * intros (f' & sub' & Hlook' & [Hne Hsub']%lookup_delete_Some & Hs'). pose proof (Hk1 f' h' Hlook') as Hlook0.
        assert (Hh' : h' ∈ h :: l) by (apply Hl; by exists f', sub'). apply elem_of_cons in Hh' as [->|Hh']; [|done].
        exfalso. apply Hne. by rewrite (lookup_inj _ A f f' h (proj1 Hin) Hlook Hlook0).
    + exists m2. split; [|split].
      * etransitivity; [apply for_each_cons; etransitivity; [apply bind_return, on_subs_map_return, Hrun1 | reflexivity]|].
        rewrite Hrun2. by destruct b.
      * enough (without s A = without s (delete (f, ref_client_id s) A)) as -> by done. unfold without. rewrite map_filter_delete.
        symmetry. apply delete_id. apply map_lookup_filter_None. right. intros sub' Hsub'. cbn. assert (sub' = sub) as -> by congruence. by intros [].
      * intros f' h' Hh'. by apply Hk1, Hk2.
Qed.

(** [b'] is [b] but for the subscriptions of [s] and its handles *)
Lemma owned_without b m' A w s x :
  owned b A w -> heap b !! s = Some x -> within m' (without s A) w -> handles_kept m' (subs_map_ b) ->
  owned (set_heap <[s := set_handles_ ∅ x]> (set_subs_map_ m' b)) (without s A) w.
Proof.
  intros [Hmap Hroom Hsession Hhandles Hfresh] Hx Hin Hk. split; [exact Hin | done | | |]; cbn [heap set_heap set_subs_map_ subs_map_ next_address].
  - intros f cid sub [Hsub _]%lookup_without. destruct (Hsession f cid sub Hsub) as (Ht & Hc & Hs). split; [done|]. split; [done|].
    apply lookup_insert_is_Some'. by right.
  - intros s' x' Hx' h. destruct (decide (s' = s)) as [->|Hne].
    + rewrite lookup_insert_eq in Hx'. injection Hx' as <-. cbn [handles_ set_handles_]. split; [set_solver|].
      intros (f & sub & _ & [_ Hs]%lookup_without & Hs'). done.
    + rewrite lookup_insert_ne in Hx' by done. rewrite (Hhandles s' x' Hx'). split; intros (f & sub & Hlook & Hsub & Hs).
      * assert (Hw : without s A !! (f, ref_client_id s') = Some sub) by (apply lookup_without; split; congruence).
        exists f, sub. split; [|done]. by apply (handle_here _ m' _ w f _ sub h Hin Hk Hw).
      * apply lookup_without in Hsub as [Hsub _]. exists f, sub. split; [by apply Hk | done].
  - intros s' Hs'. apply lookup_insert_is_Some' in Hs' as [<-|Hs']; apply Hfresh; [by eexists | done].
Qed.

Lemma unsubscribe_all_run b A w s x :
  owned b A w -> heap b !! s = Some x ->
  exists b', unsubscribe_all s b = Return tt b' /\ owned b' (without s A) w.
Proof.
  intros Hb Hx. pose proof Hb as [Hmap Hroom Hsession Hhandles Hfresh].
  destruct (unsubscribe_loop s (elements (handles_ x)) b A w Hmap (NoDup_elements _)) as (m' & Hrun & Hin & Hk).
  - intros f cid sub Hsub <-. by destruct (Hsession f cid sub Hsub) as (_ & <- & _).
  - intros h. rewrite elem_of_elements. by apply Hhandles.
  - eexists. split; [|apply (owned_without b m' A w s x Hb Hx Hin Hk)]. unfold unsubscribe_all, session.
    etransitivity; [eapply bind_return; unfold mbind, action_bind, get, deref; rewrite Hx; reflexivity|].
    etransitivity; [exact (bind_return _ _ _ _ _ Hrun)|]. unfold modify_session, session, mbind, action_bind, get, deref, modify.
    cbn [heap set_subs_map_]. by rewrite Hx.
Qed.

(** programs that end with the subscriptions of [s] removed *)
Definition ends s {R} (p : program R) : Prop := forall b A w a b', owned b A w -> p b = Return a b' -> owned b' (without s A) w.

Lemma ends_then s {R Q} (p : program R) (f : R -> program Q) : ends s p -> (forall a, same (f a)) -> ends s (p ≫= f).
Proof.
  intros Hp Hf b A w a b' Hb (r & b1 & Hr & Hrun)%bind_returns. apply (owned_same b1); [by apply (Hp b A w r)|].
  by apply (same_run (f r) b1 a).
Qed.
Lemma ends_after s {R Q} (p : program R) (f : R -> program Q) : same p -> (forall a, ends s (f a)) -> ends s (p ≫= f).
Proof.
  intros Hp Hf b A w a b' Hb (r & b1 & Hr & Hrun)%bind_returns. apply (Hf r b1 A w a b'); [|done]. apply (owned_same b); [done|].
  by apply (same_run p b r).
Qed.

Lemma session_returns s b x b' : session s b = Return x b' -> heap b !! s = Some x /\ b' = b.
Proof. unfold session, mbind, action_bind, get, deref. destruct (heap b !! s) as [y|]; [|done]. by intros [= -> <-]. Qed.

Lemma ends_unsubscribe_all s : ends s (unsubscribe_all s).
Proof.
  intros b A w a b' Hb Hrun. destruct (heap b !! s) as [x|] eqn:Hx.
  - destruct (unsubscribe_all_run b A w s x Hb Hx) as (b1 & Hrun1 & Hb1). rewrite Hrun1 in Hrun. by injection Hrun as _ <-.
  - apply bind_returns in Hrun as (x & b1 & Hs & _). apply session_returns in Hs as [Hs _]. congruence.
Qed.

Lemma ends_clean s : ends s (clean clean_handler s).
Proof.
  unfold clean. do 9 (apply ends_after; [same; fail | intros]). apply ends_then; [apply ends_unsubscribe_all|]. same.
Qed.

(** *** Sessions end and begin *)

Lemma keeps_ends s {R} (p : program R) : ends s p -> keeps p.
Proof. intros Hp b A w a b' Hb Hrun. exists (without s A). by apply (Hp b A w a). Qed.

(** a session without subscriptions is gone *)
Lemma owned_delete b A w s : owned b A w -> (forall k sub, A !! k = Some sub -> ss sub <> s) -> owned (set_heap (base.delete s) b) A w.
Proof.
  intros [Hmap Hroom Hsession Hhandles Hfresh] Hno. split; [done | done | | |]; cbn [heap set_heap subs_map_ next_address].
  - intros f cid sub Hsub. destruct (Hsession f cid sub Hsub) as (Ht & Hc & Hs). split; [done|]. split; [done|].
    rewrite lookup_delete_ne; [done|]. intros Heq. by apply (Hno _ _ Hsub).
  - intros s' x' [_ Hx']%lookup_delete_Some. by apply Hhandles.
  - intros s' [x' [_ Hx']%lookup_delete_Some]. apply Hfresh. by eexists.
Qed.

Lemma keeps_destroy s : keeps (destroy will_sender clean_handler s).
Proof.
  unfold destroy. intros b A w a b' Hb (u1 & b1 & Hrun1 & Hrun)%bind_returns.
  apply (same_run _ _ _ _ (same_send_will_impl s)) in Hrun1. apply (owned_same _ _ _ _ Hb) in Hrun1 as Hb1.
  apply bind_returns in Hrun as (u2 & b2 & Hrun2 & Hrun). apply (ends_clean s b1 A w u2 b2 Hb1) in Hrun2 as Hb2.
  apply bind_returns in Hrun as (x & b3 & [_ ->]%session_returns & Hrun).
  apply bind_returns in Hrun as (u4 & b4 & Hrun4 & Hrun). apply (same_run _ _ _ _ (same_cancel_timers _)) in Hrun4.
  apply (owned_same _ _ _ _ Hb2) in Hrun4 as Hb4. injection Hrun as _ <-. exists (without s A).
  apply owned_delete; [done|]. by intros k sub [_ Hs]%lookup_without.
Qed.

Create HintDb keeps.
#[local] Hint Resolve keeps_destroy keeps_for_each : keeps.
#[local] Hint Extern 1 (keeps (_ ≫= _)) => apply keeps_bind; [|intros] : keeps.
#[local] Hint Extern 2 (keeps _) => apply keeps_same; same; fail : keeps.
#[local] Hint Extern 3 (keeps (match ?x with _ => _ end)) => destruct x : keeps.
#[local] Hint Extern 3 (keeps (let '(_, _) := ?x in _)) => destruct x : keeps.
Ltac keeps := cbv zeta; auto 20 with keeps.

Lemma keeps_release s : keeps (release will_sender clean_handler s).
Proof. unfold release. keeps. Qed.
Lemma ends_renew s e w c i j : ends s (renew clean_handler s e w c i j).
Proof. unfold renew. apply ends_then; [apply ends_clean | same]. Qed.
Lemma keeps_renew s e w c i j : keeps (renew clean_handler s e w c i j).
Proof. apply (keeps_ends s), ends_renew. Qed.
#[local] Hint Resolve keeps_release keeps_renew : keeps.

Lemma owned_create b A w s x : owned b A w -> heap b !! s = None -> handles_ x = ∅ -> address s < next_address b -> owned (set_heap <[s := x]> b) A w.
Proof.
  intros [Hmap Hroom Hsession Hhandles Hfresh] Hno Hx Ha. split; [done | done | | |]; cbn [heap set_heap subs_map_ next_address].
  - intros f cid sub Hsub. destruct (Hsession f cid sub Hsub) as (Ht & Hc & Hs). split; [done|]. split; [done|]. apply lookup_insert_is_Some'. by right.
  - intros s' x' Hx' h. destruct (decide (s' = s)) as [->|Hne]; [|rewrite lookup_insert_ne in Hx' by done; by apply Hhandles].
    rewrite lookup_insert_eq in Hx'. injection Hx' as <-. rewrite Hx. split; [set_solver|]. intros (f & sub & _ & Hsub & <-).
    destruct (Hsession f _ sub Hsub) as (_ & _ & Hs). rewrite Hno in Hs. by destruct Hs.
  - intros s' Hs'. apply lookup_insert_is_Some' in Hs' as [<-|Hs']; [done | by apply Hfresh].
Qed.

Lemma keeps_create e c u w cs i j : keeps (create e c u w cs i j).
Proof.
  unfold create. intros b A n a b' Hb (addr & b1 & Hrun1 & Hrun)%bind_returns.
  pose proof (owned_same _ _ _ _ Hb (same_run _ _ _ _ same_allocate Hrun1)) as Hb1.
  assert (Hno : heap b1 !! mk_session_ref addr c = None /\ addr < next_address b1).
  { injection Hrun1 as <- <-. cbn [heap set_counters next_address]. split; [|lia]. apply eq_None_not_Some. intros Hs.
    pose proof (ow_fresh _ _ _ Hb _ Hs). simpl in *. lia. }
  clear Hrun1. apply bind_returns in Hrun as (delay & b2 & Hrun2%same_run & Hrun); [|same].
  apply bind_returns in Hrun as (version & b3 & Hrun3%same_run & Hrun); [|same].
  apply bind_returns in Hrun as (remain & b4 & Hrun4%same_run & Hrun); [|same].
  pose proof (owned_same _ _ _ _ (owned_same _ _ _ _ (owned_same _ _ _ _ Hb1 Hrun2) Hrun3) Hrun4) as Hb4.
  assert (Hno4 : heap b4 !! mk_session_ref addr c = None /\ addr < next_address b4).
  { split; [|destruct Hrun2 as (_ & _ & ?), Hrun3 as (_ & _ & ?), Hrun4 as (_ & _ & ?); lia].
    apply eq_None_not_Some. rewrite (same_is_Some b3 b4), (same_is_Some b2 b3), (same_is_Some b1 b2) by done. destruct Hno as [-> _]. by intros []. }
  cbv zeta in Hrun. apply bind_returns in Hrun as (u5 & b5 & Hrun5 & Hrun). injection Hrun5 as _ <-. exists A.
  refine (owned_same _ _ _ _ (owned_create b4 A n (mk_session_ref addr c) _ Hb4 (proj1 Hno4) _ (proj2 Hno4)) (same_run _ _ _ _ _ Hrun)); [done|]. same.
Qed.
#[local] Hint Resolve keeps_create : keeps.

Lemma keeps_connect_new e c u w cs i j r ps : keeps (connect_new e c u w cs i j r ps).
Proof. unfold connect_new. keeps. Qed.
Lemma keeps_offline_to_online e w i j cs u it r ps : keeps (offline_to_online e w i j cs u it r ps).
Proof. unfold offline_to_online. keeps. Qed.
#[local] Hint Resolve keeps_connect_new keeps_offline_to_online : keeps.
Lemma keeps_complete t r : keeps (complete t r).
Proof. unfold complete, taken_over. keeps. Qed.
#[local] Hint Resolve keeps_complete : keeps.
Lemma keeps_close_proc e sw rc t : keeps (close_proc_no_lock e sw rc t).
Proof. unfold close_proc_no_lock. keeps. Qed.
Lemma keeps_connection_closed e o1 o2 t : keeps (connection_closed e o1 o2 t).
Proof. unfold connection_closed. keeps. Qed.
#[local] Hint Resolve keeps_close_proc keeps_connection_closed : keeps.
Lemma keeps_connect e c u p w cs ps : keeps (connect_handler sha256hash iequals e c u p w cs ps).
Proof. unfold connect_handler. keeps. Qed.
#[local] Hint Resolve keeps_connect : keeps.
Lemma keeps_run_handler k ec pid : keeps (run_handler k ec pid).
Proof. destruct k; cbn [run_handler]; keeps. Qed.
Lemma keeps_timer_fired id : keeps (timer_fired id).
Proof.
  unfold timer_fired. apply keeps_bind; [keeps|]. intros b. destruct (timers b !! id) as [k|]; [|keeps]. apply keeps_bind; [keeps|]. intros _.
  destruct k; unfold run_timer_handler; keeps.
Qed.

(** *** A session subscribes and unsubscribes *)

(** all subscriptions under the client identifier of [s] are its own *)
Definition alone b s : Prop :=
  forall it e sub, SubscriptionMap.map_ (subs_map_ b) !! it = Some e -> SubscriptionMap.value e !! ref_client_id s = Some sub -> ss sub = s.
Definition alone_in A s : Prop := forall f sub, A !! (f, ref_client_id s) = Some sub -> ss sub = s.

Lemma alone_entries b A w s : owned b A w -> alone b s -> alone_in A s.
Proof.
  intros Hb Ha f sub Hsub. destruct (holds_value _ A f _ sub (proj1 (ow_map _ _ _ Hb)) Hsub) as (it & e & He & Hv). by apply (Ha it e sub).
Qed.

Lemma alone_insert A s f sub : alone_in A s -> ss sub = s -> alone_in (<[(f, ref_client_id s) := sub]> A) s.
Proof. intros Ha Hs f' sub' [[_ <-]|[_ Hsub]]%lookup_insert_Some; [done | by apply (Ha f')]. Qed.

Lemma alone_delete A s k : alone_in A s -> alone_in (delete k A) s.
Proof. intros Ha f sub [_ Hsub]%lookup_delete_Some. by apply (Ha f). Qed.

(** the map has one subscription more, or another in its place *)
Lemma owned_insert b A w s x f sub h m' :
  owned b A w -> heap b !! s = Some x -> alone_in A s -> ss sub = s -> sub_ok f sub ->
  within m' (<[(f, ref_client_id s) := sub]> A) (w + Z.of_nat (length (levels f))) -> w + Z.of_nat (length (levels f)) < max_count ->
  lookup_filter f m' = Return (Some h) m' -> handles_kept (subs_map_ b) m' ->
  owned (set_heap <[s := set_handles_ ({[h]} ∪ handles_ x) x]> (set_subs_map_ m' b)) (<[(f, ref_client_id s) := sub]> A)
    (w + Z.of_nat (length (levels f))).
Proof.
  intros [Hmap Hroom Hsession Hhandles Hfresh] Hx Halone Hss Htopic Hin Hw Hlook Hk. split; [exact Hin | lia | | |];
    cbn [heap set_heap set_subs_map_ subs_map_ next_address].
  - intros f' cid sub' [[[= <- <-] <-]|[_ Hsub]]%lookup_insert_Some.
    + split; [done|]. split; [by rewrite Hss|]. rewrite Hss, lookup_insert_eq. by eexists.
    + destruct (Hsession f' cid sub' Hsub) as (Ht & Hc & Hs). split; [done|]. split; [done|]. apply lookup_insert_is_Some'. by right.
  - intros s' x' Hx' h'.
    assert (Hold : forall f' sub', A !! (f', ref_client_id s') = Some sub' -> lookup_filter f' m' = Return (Some h') m' ->
      lookup_filter f' (subs_map_ b) = Return (Some h') (subs_map_ b)).
    { intros f' sub' Hsub' Hh'. destruct (lookup_entry _ A f' _ sub' (proj1 Hmap) Hsub') as [h'' Hh'']. pose proof (Hk f' h'' Hh''). congruence. }
    destruct (decide (s' = s)) as [->|Hne].
    + rewrite lookup_insert_eq in Hx'. injection Hx' as <-. cbn [handles_ set_handles_]. rewrite elem_of_union, elem_of_singleton, (Hhandles s x Hx). split.
      * intros [->|(f' & sub' & Hh' & Hsub' & Hs')]; [exists f, sub; by rewrite lookup_insert_eq|]. exists f'.
        destruct (decide (f' = f)) as [->|Hf]; [exists sub; rewrite lookup_insert_eq; split; [by apply Hk | done]|].
        exists sub'. rewrite lookup_insert_ne by congruence. split; [by apply Hk | done].
      * intros (f' & sub' & Hh' & [[[= <-] <-]|[_ Hsub']]%lookup_insert_Some & Hs'); [left; congruence|]. right. exists f', sub'.
        split; [by apply (Hold f' sub') | done].
    + rewrite lookup_insert_ne in Hx' by done. rewrite (Hhandles s' x' Hx').
      assert (Hkey : forall f' sub', A !! (f', ref_client_id s') = Some sub' -> ss sub' = s' -> (f', ref_client_id s') <> (f, ref_client_id s)).
      { intros f' sub' Hsub' Hs' Heq. rewrite Heq in Hsub'. apply Hne. rewrite <- Hs'. by apply (Halone f). }
      split; intros (f' & sub' & Hh' & Hsub' & Hs').
      * exists f', sub'. rewrite lookup_insert_ne by (intros Heq; by apply (Hkey f' sub' Hsub' Hs')). split; [by apply Hk | done].
      * apply lookup_insert_Some in Hsub' as [[_ <-]|[_ Hsub']]; [congruence|]. exists f', sub'. split; [by apply (Hold f' sub') | done].
  - intros s' Hs'. apply lookup_insert_is_Some' in Hs' as [<-|Hs']; apply Hfresh; [by eexists | done].
Qed.

(** and one less *)
Lemma owned_erase b A w s x f h m' :
  owned b A w -> heap b !! s = Some x -> alone_in A s -> lookup_filter f (subs_map_ b) = Return (Some h) (subs_map_ b) ->
  within m' (delete (f, ref_client_id s) A) w -> handles_kept m' (subs_map_ b) ->
  owned (set_subs_map_ m' (set_heap <[s := set_handles_ (handles_ x ∖ {[h]}) x]> b)) (delete (f, ref_client_id s) A) w.
Proof.
  intros [Hmap Hroom Hsession Hhandles Hfresh] Hx Halone Hlook Hin Hk. split; [exact Hin | done | | |];
    cbn [heap set_heap set_subs_map_ subs_map_ next_address].
  - intros f' cid sub' [_ Hsub]%lookup_delete_Some. destruct (Hsession f' cid sub' Hsub) as (Ht & Hc & Hs). split; [done|]. split; [done|].
    apply lookup_insert_is_Some'. by right.
  - intros s' x' Hx' h'.
    assert (Hnew : forall f' sub', delete (f, ref_client_id s) A !! (f', ref_client_id s') = Some sub' ->
      lookup_filter f' (subs_map_ b) = Return (Some h') (subs_map_ b) -> lookup_filter f' m' = Return (Some h') m').
    { intros f' sub' Hsub' Hh'. by apply (handle_here (subs_map_ b) m' _ w f' _ sub' h' Hin Hk Hsub'). }
    destruct (decide (s' = s)) as [->|Hne].
    + rewrite lookup_insert_eq in Hx'. injection Hx' as <-. cbn [handles_ set_handles_]. rewrite elem_of_difference, elem_of_singleton, (Hhandles s x Hx). split.
      * intros [(f' & sub' & Hh' & Hsub' & Hs') Hne]. assert (Hd : delete (f, ref_client_id s) A !! (f', ref_client_id s) = Some sub').
        { rewrite lookup_delete_ne; [done|]. intros [= <-]. congruence. }
        exists f', sub'. split; [by apply (Hnew f' sub') | done].
      * intros (f' & sub' & Hh' & [Hf Hsub']%lookup_delete_Some & Hs'). pose proof (Hk f' h' Hh') as Hh0. split; [by exists f', sub'|].
        intros ->. apply Hf. by rewrite (lookup_inj _ A f f' h (proj1 Hmap) Hlook Hh0).
    + rewrite lookup_insert_ne in Hx' by done. rewrite (Hhandles s' x' Hx'). split; intros (f' & sub' & Hh' & Hsub' & Hs').
      * assert (Hd : delete (f, ref_client_id s) A !! (f', ref_client_id s') = Some sub').
        { rewrite lookup_delete_ne; [done|]. intros Heq. rewrite <- Heq in Hsub'. apply Hne. rewrite <- Hs'. by apply (Halone f). }
        exists f', sub'. split; [by apply (Hnew f' sub') | done].
      * apply lookup_delete_Some in Hsub' as [_ Hsub']. exists f', sub'. split; [by apply Hk | done].
  - intros s' Hs'. apply lookup_insert_is_Some' in Hs' as [<-|Hs']; apply Hfresh; [by eexists | done].
Qed.

Lemma set_handles_id x : set_handles_ (handles_ x) x = x.
Proof. by destruct x. Qed.

Lemma set_heap_id b s x : heap b !! s = Some x -> set_heap <[s := x]> b = b.
Proof. intros Hx. destruct b. unfold set_heap. cbn in *. by rewrite insert_id. Qed.

Lemma subscribe_owned {R} s share f opts (h : program R) sid b A w x r b' :
  owned b A w -> heap b !! s = Some x -> alone_in A s -> valid_sid sid -> w + Z.of_nat (length (levels f)) < max_count -> same h ->
  subscribe s share f opts h sid b = Return r b' ->
  owned b' (<[(f, ref_client_id s) := mk_subscription s share f opts sid]> A) (w + Z.of_nat (length (levels f))) /\ is_Some (heap b' !! s).
Proof.
  intros Hb Hx Halone Hsid Hw Hh Hrun. unfold subscribe in Hrun. apply bind_returns in Hrun as (u1 & b1 & Hrun1%same_run & Hrun); [|same].
  pose proof (owned_same _ _ _ _ Hb Hrun1) as Hb1. assert (is_Some (heap b1 !! s)) as [x1 Hx1] by (apply (same_is_Some b); [done | by eexists]).
  apply bind_returns in Hrun as (hr & b2 & (m' & Hins & ->)%on_subs_map_returns & Hrun).
  set (sub := mk_subscription s share f opts sid) in *.
  destruct (insert_handles _ A w f _ sub hr m' (ow_map _ _ _ Hb1) (proj1 (ow_room _ _ _ Hb1)) Hw Hins) as (Hnew & Hin & Hlook & Hk).
  pose proof (owned_insert b1 A w s x1 f sub (fst hr) m' Hb1 Hx1 Halone eq_refl (conj eq_refl Hsid) Hin Hw Hlook Hk) as Hb2.
  assert (Hrest : forall b3 b4 a, (if sends_retained opts (snd hr) then a ← h; mret (Some a) else mret None) b3 = Return a b4 ->
    owned b3 (<[(f, ref_client_id s) := sub]> A) (w + Z.of_nat (length (levels f))) -> is_Some (heap b3 !! s) ->
    owned b4 (<[(f, ref_client_id s) := sub]> A) (w + Z.of_nat (length (levels f))) /\ is_Some (heap b4 !! s)).
  { intros b3 b4 a Hr%same_run Hb3 Hs3; [|same]. split; [by apply (owned_same b3) | by apply (same_is_Some b3)]. }
  apply bind_returns in Hrun as (u3 & b3 & Hrun3 & Hrun). apply (Hrest _ _ _ Hrun); clear Hrest Hrun; destruct (snd hr).
  - apply bind_returns in Hrun3 as (y & b4 & [Hy ->]%session_returns & [= _ <-]). cbn in Hy. by simplify_eq.
  - injection Hrun3 as _ <-. destruct (A !! (f, ref_client_id s)) as [sub0|] eqn:Hsub0; [|by rewrite bool_decide_eq_true_2 in Hnew].
    assert (Hold : fst hr ∈ handles_ x1).
    { apply (ow_handles _ _ _ Hb1 s x1 Hx1). destruct (lookup_entry _ A f _ sub0 (proj1 (ow_map _ _ _ Hb1)) Hsub0) as [h0 Hh0].
      exists f, sub0. pose proof (Hk f h0 Hh0) as Hh0'. split; [congruence|]. split; [done | by apply (Halone f)]. }
    assert ({[fst hr]} ∪ handles_ x1 = handles_ x1) as Heq by set_solver. rewrite Heq, set_handles_id in Hb2.
    by rewrite set_heap_id in Hb2.
  - apply bind_returns in Hrun3 as (y & b4 & [Hy ->]%session_returns & [= _ <-]). cbn [heap set_heap]. rewrite lookup_insert_eq. by eexists.
  - injection Hrun3 as _ <-. by eexists.
Qed.

Lemma unsubscribe_owned s share f b A w x r b' :
  owned b A w -> heap b !! s = Some x -> alone_in A s -> unsubscribe s share f b = Return r b' ->
  owned b' (delete (f, ref_client_id s) A) w /\ is_Some (heap b' !! s).
Proof.
  intros Hb Hx Halone Hrun. unfold unsubscribe in Hrun. apply bind_returns in Hrun as (u1 & b1 & Hrun1%same_run & Hrun); [|same].
  pose proof (owned_same _ _ _ _ Hb Hrun1) as Hb1. assert (is_Some (heap b1 !! s)) as [x1 Hx1] by (apply (same_is_Some b); [done | by eexists]).
  apply bind_returns in Hrun as (o & b2 & (m1 & Hlook & ->)%on_subs_map_returns & Hrun).
  pose proof (preserves_lookup_filter (eq (subs_map_ b1)) f _ _ _ eq_refl Hlook) as <-.
  assert (set_subs_map_ (subs_map_ b1) b1 = b1) as Heq by by destruct b1. rewrite Heq in Hrun. destruct o as [h|].
  - destruct (erase_handles _ A w f h (ref_client_id s) (ow_map _ _ _ Hb1) Hlook) as (m' & Herase & Hin & Hk).
    apply bind_returns in Hrun as (u3 & b3 & Hrun3 & Hrun). apply bind_returns in Hrun3 as (y & b4 & [Hy ->]%session_returns & [= _ <-]).
    assert (y = x1) as -> by congruence. apply bind_returns in Hrun as (n & b5 & (m2 & Herase2 & ->)%on_subs_map_returns & [= _ <-]).
    cbn [subs_map_ set_heap] in Herase2. rewrite Herase in Herase2. injection Herase2 as _ <-. split.
    + by apply (owned_erase b1 A w s x1 f h m').
    + cbn [heap set_heap set_subs_map_]. rewrite lookup_insert_eq. by eexists.
  - injection Hrun as _ <-. rewrite delete_id; [split; [done | by eexists]|]. destruct (A !! (f, ref_client_id s)) as [sub|] eqn:Hsub; [|done].
    destruct (lookup_entry _ A f _ sub (proj1 (ow_map _ _ _ Hb1)) Hsub) as [h Hh]. congruence.
Qed.

(** *** SUBSCRIBE and UNSUBSCRIBE packets *)

(** what the entries that are granted leave *)
Definition subscribed s (sid : option Z) A (entry : topic_subopts) : subscriptions :=
  let t := topic_sharename_ entry in
  <[(topic_ t, ref_client_id s) := mk_subscription s (sharename_ t) (topic_ t) (opts_ entry) sid]> A.

(** the levels of the filters of the entries *)
Definition entries_weight (entries : list topic_subopts) : Z :=
  foldr (fun entry w => Z.of_nat (length (levels (topic_ (topic_sharename_ entry)))) + w) 0 entries.

Lemma entries_weight_nonneg entries : 0 <= entries_weight entries.
Proof. induction entries as [|entry entries IH]; simpl; lia. Qed.

(** *** The rules and the user names stay *)

Definition calm b0 b : Prop := security_ b = security_ b0 /\ forall s, username_ <$> heap b !! s = username_ <$> heap b0 !! s.

Lemma calm_on_part {P R} (part : broker -> P) (set_part : P -> broker -> broker) (p : action P R) b0 :
  (forall y b, security_ (set_part y b) = security_ b /\ heap (set_part y b) = heap b) -> preserves (calm b0) (on_part part set_part p).
Proof.
  intros Hset b a b' (Hs & Hh). unfold on_part. destruct (p (part b)) as [a' y| |]; [|done..]. intros [= _ <-].
  destruct (Hset y b) as (H1 & H2). unfold calm. by rewrite H1, H2.
Qed.

Lemma calm_modify_session f s b0 : (forall x, username_ (f x) = username_ x) -> preserves (calm b0) (modify_session f s).
Proof.
  intros Hf b a b' (Hm & Hh) (x & b1 & [Hx ->]%session_returns & [= _ <-])%bind_returns. split; [done|]. intros s'. cbn [heap set_heap].
  rewrite <- Hh. destruct (decide (s' = s)) as [->|Hne]; [rewrite lookup_insert_eq, Hx; cbn; by rewrite Hf | by rewrite lookup_insert_ne].
Qed.

Lemma calm_subscribe {R} s share f opts (h : program R) sid b0 : preserves (calm b0) h -> preserves (calm b0) (subscribe s share f opts h sid).
Proof.
  intros Hh. unfold subscribe. apply preserves_bind.
  - case_bool_decide; [apply preserves_ret|]. apply preserves_bind; [unfold now; apply preserves_bind; [auto with preserves|]; intros b|].
    + apply preserves_bind; [|auto with preserves]. by apply preserves_modify.
    + intros n. by apply calm_on_part.
  - intros _. apply preserves_bind; [by apply calm_on_part|]. intros hr. apply preserves_bind.
    + destruct (snd hr); [by apply calm_modify_session | apply preserves_ret].
    + intros _. destruct (sends_retained _ _); auto with preserves.
Qed.

(** the codes are those of [grant], and what is granted is subscribed to *)
Lemma subscribe_entries_owned s sid (grant : list byte -> security -> topic_subopts -> Z * bool) username sec : forall entries b A w res rd r b',
  valid_sid sid -> owned b A w -> username_ <$> heap b !! s = Some username -> security_ b = sec -> alone_in A s -> w + entries_weight entries < max_count ->
  for_each (subscribe_one s sid grant) entries (res, rd) b = Return r b' ->
  let granted := List.filter (fun entry => snd (grant username sec entry)) entries in
  exists w', owned b' (foldl (subscribed s sid) A granted) w' /\ w' <= w + entries_weight entries /\
    fst r = res ++ map (fun entry => fst (grant username sec entry)) entries.
Proof.
  induction entries as [|entry entries IH]; intros b A w res rd r b' Hsid Hb Hx Hsec Halone Hw Hrun.
  - injection Hrun as <- <-. exists w. split; [done|]. split; [simpl; lia|]. cbn. by rewrite app_nil_r.
  - cbn [for_each] in Hrun. cbn [entries_weight foldr] in Hw |- *. fold (entries_weight entries) in *. pose proof (entries_weight_nonneg entries) as Hn.
    apply bind_returns in Hrun as ([res1 rd1] & b1 & Hrun1 & Hrun).
    apply bind_returns in Hrun1 as (y & b0 & [Hy ->]%session_returns & Hrun1). apply bind_returns in Hrun1 as (b2 & b3 & [= <- <-] & Hrun1).
    rewrite Hy in Hx. injection Hx as Hx. rewrite Hx, Hsec in Hrun1. cbn [List.filter map].
    destruct (grant username sec entry) as [code granted] eqn:Hgrant. cbn [fst snd]. destruct granted.
    + apply bind_returns in Hrun1 as (l & b4 & Hrun1 & [= <- <- <-]). unfold subscribe_entry in Hrun1.
      apply bind_returns in Hrun1 as (o & b5 & Hsub & [= _ <-]).
      destruct (subscribe_owned s _ (topic_ (topic_sharename_ entry)) _ (on_retains (RetainedTopicMap.find (topic_ (topic_sharename_ entry)))) sid b A w y o b5 Hb Hy Halone Hsid ltac:(lia) ltac:(same) Hsub) as [Hb5 _].
      assert (Hcalm : calm b b5).
      { refine (calm_subscribe s _ _ _ _ sid b _ b o b5 _ Hsub); [|done]. by apply calm_on_part. }
      destruct Hcalm as [Hsec5 Hu5]. destruct (IH b5 _ _ (res ++ [code]) (rd ++ l) r b' Hsid Hb5) as (w' & Hb' & Hw' & Hr);
        [by rewrite Hu5, Hy; cbn; rewrite Hx | by rewrite Hsec5 | by apply alone_insert | lia | done|].
      exists w'. split; [done|]. split; [lia|]. by rewrite Hr, <- app_assoc.
    + injection Hrun1 as <- <- <-. destruct (IH b A w (res ++ [code]) rd r b' Hsid Hb) as (w' & Hb' & Hw' & Hr);
        [by rewrite Hy; cbn; rewrite Hx | done | done | lia | done|].
      exists w'. split; [done|]. split; [lia|]. by rewrite Hr, <- app_assoc.
Qed.

Lemma unsubscribe_entries_owned s : forall entries b A w r b',
  owned b A w -> is_Some (heap b !! s) -> alone_in A s ->
  for_each (fun entry _ => unsubscribe s (sharename_ entry) (topic_ entry)) entries tt b = Return r b' ->
  owned b' (foldl (fun A entry => delete (topic_ entry, ref_client_id s) A) A entries) w.
Proof.
  induction entries as [|entry entries IH]; intros b A w r b' Hb [x Hx] Halone Hrun; [by injection Hrun as _ <-|].
  cbn [for_each] in Hrun. apply bind_returns in Hrun as (u & b1 & Hrun1 & Hrun).
  destruct (unsubscribe_owned s _ _ b A w x u b1 Hb Hx Halone Hrun1) as [Hb1 Hs1]. destruct u. apply (IH b1 _ w r b' Hb1 Hs1); [by apply alone_delete | done].
Qed.

(** *** Everything the broker does *)

Lemma keeps_then_read e p : keeps p -> keeps (then_read_packet e p).
Proof.
  intros Hp b A w a b' Hb. unfold then_read_packet. destruct (p b) as [[] b1| |] eqn:Hrun; [|done..]. intros Hread.
  destruct (Hp b A w tt b1 Hb Hrun) as [A1 Hb1]. exists A1. apply (owned_same b1); [done|]. by apply (same_run _ _ _ _ (same_async_read e) Hread).
Qed.

Lemma then_read_returns e p b a b' : then_read_packet e p b = Return a b' ->
  exists b1, p b = Return tt b1 /\ b' = set_trace (fun l => l ++ [async_recv e]) b1.
Proof. unfold then_read_packet. destruct (p b) as [[] b1| |]; [|done..]. intros [= _ <-]. by exists b1. Qed.

(** what the broker is called with, and what happens without a call; an
    endpoint is new, or changed by what it sent and received *)
Inductive input :=
| configure (sec : security)
| endpoint_new (e : Z) (x : endpoint)
| accepted (e : epsp) (preauthed_user_name : option (list byte))
| received (e : epsp) (pv : option packet_variant)
| completed (k : handler) (ec : bool) (pid : Z)
| fired (id : Z)
| endpoint_gone (e : Z).

Definition step (i : input) : program unit :=
  match i with
  | configure sec => set_security sec
  | endpoint_new e x => endpoint_accepted e x
  | accepted e u => handle_accept e u
  | received e pv => recv_proc sha256hash iequals e pv
  | completed k ec pid => run_handler k ec pid
  | fired id => timer_fired id
  | endpoint_gone e => endpoint_destroyed e
  end.

(** the endpoint of a SUBSCRIBE or UNSUBSCRIBE packet, and the levels it has *)
Definition subscribes (i : input) : option (epsp * Z) :=
  match i with
  | received e (Some (v3_1_1_subscribe p)) | received e (Some (v5_subscribe p)) => Some (e, entries_weight (entries_packet.entries_ p))
  | received e (Some (v3_1_1_unsubscribe _)) | received e (Some (v5_unsubscribe _)) => Some (e, 0)
  | _ => None
  end.
Definition input_weight (i : input) : Z := match subscribes i with Some (_, w) => w | None => 0 end.

(** the session that subscribes is alone with its client identifier *)
Definition is_alone b (i : input) : Prop :=
  match subscribes i with
  | Some (e, _) => forall s b', find_con e b = Return (Some s) b' -> alone b s
  | None => True
  end.

Lemma find_con_returns e b o b' : find_con e b = Return o b' -> b' = b /\
  o = List.find (fun s => bool_decide (epwp_ <$> heap b !! s = Some (ep e))) (sessions_ b).
Proof. by intros [= <- <-]. Qed.

(** the session of a connection is there *)
Lemma find_con_session e b s b' : find_con e b = Return (Some s) b' -> exists x, heap b !! s = Some x /\ epwp_ x = ep e /\ s ∈ sessions_ b.
Proof.
  intros [_ Hs]%find_con_returns. symmetry in Hs. apply find_some in Hs as [Hin Hx%bool_decide_eq_true].
  apply fmap_Some in Hx as (x & Hx & He). exists x. split; [done|]. split; [done | by apply list_elem_of_In].
Qed.

(** the packet handlers start with the session of the connection *)
Lemma for_session e (p : session_ref -> program unit) b r b' :
  then_read_packet e (it ← find_con e; match it with None => mret tt | Some s => p s end) b = Return r b' ->
  exists o b1, find_con e b = Return o b /\ match o with None => mret tt | Some s => p s end b = Return tt b1 /\
    b' = set_trace (fun l => l ++ [async_recv e]) b1.
Proof.
  intros (b1 & (o & b0 & Hcon & Hrun)%bind_returns & ->)%then_read_returns. pose proof (find_con_returns _ _ _ _ Hcon) as [-> _].
  by exists o, b1.
Qed.

Lemma variable_bytes_range : forall it val mul z, fst (variable_bytes_to_val_loop val mul it) = Some z -> 0 <= z < 2 ^ 32.
Proof.
  induction it as [|x it IH]; intros val mul z; cbn [variable_bytes_to_val_loop]; [done|]. destruct (mul =? _); [done|]. cbv zeta.
  destruct (Z.land (u8 x) 0x80 =? 0); [|apply IH]. cbn [fst]. intros [= <-]. apply Z.mod_pos_bound. lia.
Qed.

(** the subscription identifier of a packet *)
Lemma subscription_identifier_valid ps : valid_sid (first_val subscription_identifier_val ps).
Proof.
  induction ps as [|p ps IH]; [done|]. cbn [first_val]. destruct (subscription_identifier_val p) as [n|] eqn:Hp; [|done].
  unfold subscription_identifier_val in Hp. destruct p; try discriminate Hp.
  match type of Hp with match variable_val ?v with _ => _ end = _ => destruct (variable_val v) as [z|] eqn:Hz end; [|done].
  destruct (Z.eqb_spec z 0); [done|]. injection Hp as <-. unfold variable_val in Hz. apply variable_bytes_range in Hz. simpl. lia.
Qed.

(** what remains of [subscribe_handler] after the entries changes nothing *)
Lemma subscribe_handler_owned e pid entries ps b A w r b' :
  owned b A w -> w + entries_weight entries < max_count -> (forall s b', find_con e b = Return (Some s) b' -> alone b s) ->
  subscribe_handler e pid entries ps b = Return r b' -> exists A' w', owned b' A' w' /\ w' <= w + entries_weight entries.
Proof.
  intros Hb Hw Halone Hrun. unfold subscribe_handler in Hrun. apply (for_session e) in Hrun as (o & b1 & Hcon & Hrun & ->).
  enough (exists A' w', owned b1 A' w' /\ w' <= w + entries_weight entries) as (A' & w' & Hb1 & Hw').
  { exists A', w'. split; [|done]. apply (owned_same b1 _ A' w' Hb1). by apply (same_run (start (async_recv e)) b1 tt); [apply same_start|]. }
  pose proof (entries_weight_nonneg entries) as Hn. destruct o as [s|]; [|injection Hrun as <-; exists A, w; split; [done | lia]].
  specialize (Halone s b Hcon). apply (alone_entries b A w s Hb) in Halone. destruct (find_con_session e b s b Hcon) as (x & Hx & _ & _).
  apply bind_returns in Hrun as (version & b2 & Hrun2 & Hrun). apply bind_returns in Hrun2 as (y & b3 & Hrun3 & [= <- <-]).
  apply bind_returns in Hrun3 as (b4 & b5 & [= <- <-] & Hrun3). unfold deref in Hrun3. destruct (endpoints b !! ep e) as [z|]; [|done].
  injection Hrun3 as <- <-. apply bind_returns in Hrun as (b6 & b7 & [= <- <-] & Hrun).
  apply bind_returns in Hrun as (rd & b8 & Hrun & Hrest).
  enough (exists A' w', owned b8 A' w' /\ w' <= w + entries_weight entries) as (A' & w' & Hb8 & Hw').
  { exists A', w'. split; [|done]. apply (owned_same b8 _ A' w' Hb8). apply (same_run _ _ _ _ (fun b0 => same_for_each _ _ _ (fun r _ => same_publish_retained s e r) b0) Hrest). }
  clear Hrest. assert (Hend : forall sid grant q v, valid_sid sid -> subscribe_entries s sid grant entries b = Return q v -> forall (Q : Type) (p : program Q), same p ->
    forall a, p v = Return a b8 -> exists A' w', owned b8 A' w' /\ w' <= w + entries_weight entries).
  { intros sid grant q v Hsid Hq Q p Hp a Hr. destruct (subscribe_entries_owned s sid grant (username_ x) (security_ b) entries b A w [] [] q v Hsid Hb)
      as (w' & Hv & Hw' & _); [by rewrite Hx | done | done | done | exact Hq|].
    eexists _, w'. split; [|done]. apply (owned_same v); [exact Hv|]. by apply (same_run p v a). }
  destruct (ep_protocol_version z); [done| |]; apply bind_returns in Hrun as (q & v & Hq & Hrun); refine (Hend _ _ q v _ Hq _ _ _ rd Hrun);
    [done | same | apply subscription_identifier_valid | same].
Qed.

Lemma unsubscribe_handler_owned e pid entries b A w r b' :
  owned b A w -> (forall s b', find_con e b = Return (Some s) b' -> alone b s) ->
  unsubscribe_handler e pid entries b = Return r b' -> exists A', owned b' A' w.
Proof.
  intros Hb Halone Hrun. unfold unsubscribe_handler in Hrun. apply (for_session e) in Hrun as (o & b1 & Hcon & Hrun & ->).
  enough (exists A', owned b1 A' w) as (A' & Hb1).
  { exists A'. apply (owned_same b1 _ A' w Hb1). by apply (same_run (start (async_recv e)) b1 tt); [apply same_start|]. }
  destruct o as [s|]; [|injection Hrun as <-; by exists A]. specialize (Halone s b Hcon). apply (alone_entries b A w s Hb) in Halone.
  destruct (find_con_session e b s b Hcon) as (x & Hx & _ & _). apply bind_returns in Hrun as (u & b2 & Hrun2 & Hrun). destruct u.
  pose proof (unsubscribe_entries_owned s entries b A w tt b2 Hb (ex_intro _ x Hx) Halone Hrun2) as Hb2.
  eexists. apply (owned_same b2 _ _ w Hb2). refine (same_run _ _ _ _ _ Hrun). same.
Qed.

#[local] Hint Resolve keeps_then_read keeps_run_handler keeps_timer_fired : keeps.

Lemma keeps_step i : subscribes i = None -> keeps (step i).
Proof.
  destruct i as [sec|e x|e u|e pv|k ec pid|id|e]; cbn [step]; intros Hi; [unfold set_security; keeps | unfold endpoint_accepted; keeps | unfold handle_accept; keeps | | keeps | keeps |
    unfold endpoint_destroyed; keeps].
  destruct pv as [pv|]; [|unfold recv_proc, close_proc; keeps].
  destruct pv; try discriminate Hi; cbn [recv_proc]; unfold publish_handler, ack_handler, pubrec_handler, pubrel_handler, pingreq_handler, disconnect_handler, auth_handler,
    close_proc; keeps.
Qed.
End invariant.
