(* ===== verification/BrokerSpec.v ===== *)
(** * What the broker promises

    The states a broker reaches, whatever packets arrive, operations complete
    and timers fire, and what happens in them: whom a message is delivered to,
    what a SUBSCRIBE is answered, what the end of a session leaves. *)
From S2P Require Import PacketBuilder.
From S2P Require Import Prelude Boost Wire Error Property Packet PublishPacket ControlPacket EntryPacket ConnectPacket Store ConnectionState.
From S2P Require Import Action TopicFilter SubscriptionMap SubscriptionTree SubscriptionHandles SubscriptionSpec RetainedTopicMap SharedTarget.
From S2P Require Import Security SecurityRules SecuritySpec BrokerState SessionState Broker BrokerInvariant.

Section spec.
Context {BE : BoostEndian} {BMI : BoostMultiIndex} {EP : Endpoint} {SU : Surroundings}.
Context (sha256hash : list byte -> list byte) (iequals : list byte -> list byte -> bool).
Abbreviation program := (action broker).
Abbreviation subscriptions := (gmap (list byte * list byte) (subscription session_ref)).
Abbreviation find := multiple_subscription_map.find.
Implicit Types (b : broker) (A : subscriptions) (s : session_ref) (x : session_state) (sub : subscription session_ref).

(** ** The states of a broker *)

(** after inputs in which no session subscribes while another has
    subscriptions under its client identifier; [w] is the number of the levels
    of the filters in all of them *)
Inductive reachable : broker -> Z -> Prop :=
| reachable_new b : make_broker = Some b -> reachable b 0
| reachable_step b w i b' :
    reachable b w -> is_alone b i -> w + input_weight i < max_count -> step sha256hash iequals i b = Return tt b' ->
    reachable b' (w + input_weight i).

Lemma owned_new b : make_broker = Some b -> owned b ∅ 0.
Proof.
  unfold make_broker. destruct (default_config make_security) as [[] sec| |]; [|done..].
  destruct RetainedTopicMap.make_retained_topic_map as [? retains| |]; [|done..]. intros [= <-]. split; try done.
  - split; [apply holds_new|]. by rewrite map_size_empty.
  - by intros s [].
Qed.

Lemma owned_weaken b A w w' : owned b A w -> w <= w' < max_count -> owned b A w'.
Proof.
  intros [Hmap Hroom Hsession Hhandles Hfresh] Hw. split; [|lia|done..]. apply (within_weaken _ _ w); [done | lia].
Qed.

Lemma step_owned b A w i b' : owned b A w -> is_alone b i -> w + input_weight i < max_count -> step sha256hash iequals i b = Return tt b' ->
  exists A', owned b' A' (w + input_weight i).
Proof.
  intros Hb Halone Hw Hrun. unfold input_weight, is_alone in *. destruct (subscribes i) as [[e n]|] eqn:Hi.
  - destruct i as [| | |e' [[]|]| | |]; try discriminate Hi; injection Hi as -> <-; cbn [step recv_proc] in Hrun.
    1, 3: destruct (subscribe_handler_owned sha256hash iequals _ _ _ _ b A w tt b' Hb Hw Halone Hrun) as (A' & w' & Hb' & Hw'); exists A';
      apply (owned_weaken b' A' w'); [done | lia].
    1, 2: rewrite Z.add_0_r; by apply (unsubscribe_handler_owned _ _ _ b A w tt b' Hb Halone Hrun).
  - rewrite Z.add_0_r. by apply (keeps_step sha256hash iequals i Hi b A w tt b').
Qed.

Lemma reachable_owned b w : reachable b w -> exists A, owned b A w.
Proof.
  induction 1 as [b Hb|b w i b' _ [A Hb] Halone Hw Hrun]; [exists ∅; by apply owned_new|]. by apply (step_owned b A).
Qed.

(** what is found for a topic *)
Lemma find_owned b A w topic : owned b A w -> validate_topic_name topic = true ->
  exists l, find topic (subs_map_ b) = Return l (subs_map_ b) /\ l ≡ₚ spec_find A topic.
Proof. intros Hb Ht%valid_topic_plain. by apply find_run, Ht; apply Hb. Qed.

Lemma found_entry A topic cid sub : (cid, sub) ∈ spec_find A topic -> exists f, A !! (f, cid) = Some sub /\ filter_matches f topic = true.
Proof.
  unfold spec_find. rewrite list_elem_of_fmap. intros ([[f k] sub'] & [= -> ->] & [Hm Hin]%list_elem_of_filter).
  exists f. by apply elem_of_map_to_list in Hin.
Qed.

(** C6: in every state the broker reaches, what the subscription map finds for
    a topic are subscriptions of sessions that are there, each under the client
    identifier of its session, which has the handle of its filter; and the
    handles a session has are those of filters it is subscribed to. *)
Theorem subscriptions_of_sessions b w : reachable b w ->
  (forall topic, validate_topic_name topic = true -> exists l, find topic (subs_map_ b) = Return l (subs_map_ b) /\
    forall cid sub, (cid, sub) ∈ l ->
      ref_client_id (ss sub) = cid /\
      exists x h, heap b !! ss sub = Some x /\ h ∈ handles_ x /\
        lookup_filter (SharedTarget.topic sub) (subs_map_ b) = Return (Some h) (subs_map_ b)) /\
  forall s x h, heap b !! s = Some x -> h ∈ handles_ x ->
    exists it e sub, SubscriptionMap.map_ (subs_map_ b) !! it = Some e /\ SubscriptionMap.value e !! ref_client_id s = Some sub /\ ss sub = s /\
      lookup_filter (SharedTarget.topic sub) (subs_map_ b) = Return (Some h) (subs_map_ b).
Proof.
  intros [A Hb]%reachable_owned. pose proof Hb as [Hmap Hroom Hsession Hhandles Hfresh]. split.
  - intros topic Ht. destruct (find_owned b A w topic Hb Ht) as (l & Hrun & Hl). exists l. split; [done|]. intros cid sub Hin.
    rewrite Hl in Hin. destruct (found_entry A topic cid sub Hin) as (f & Hsub & _).
    destruct (Hsession f cid sub Hsub) as ((Ht' & _) & <- & [x Hx]). split; [done|].
    destruct (lookup_entry _ A f _ sub (proj1 Hmap) Hsub) as [h Hh]. exists x, h. rewrite Ht'. split; [done|]. split; [|done].
    apply (Hhandles _ x Hx). by exists f, sub.
  - intros s x h Hx Hh. apply (Hhandles s x Hx) in Hh as (f & sub & Hlook & Hsub & Hs).
    destruct (holds_value _ A f _ sub (proj1 Hmap) Hsub) as (it & e & He & Hv). exists it, e, sub.
    destruct (Hsession f _ sub Hsub) as ((-> & _) & _). done.
Qed.

(** ** Delivery *)

(** *** Delivering changes no rule and no user name *)

#[local] Hint Extern 1 (preserves (calm _) (match ?x with _ => _ end)) => destruct x : preserves.
#[local] Hint Extern 1 (preserves (calm _) (modify _)) => apply preserves_modify; by intros [] : preserves.
#[local] Hint Extern 1 (preserves (calm _) (modify_session _ _)) => apply calm_modify_session; by intros [] : preserves.
Ltac calm := intros; cbv zeta; auto 20 with preserves.

Lemma calm_session b0 s : preserves (calm b0) (session s).
Proof. unfold session. calm. Qed.
Lemma calm_start b0 e : preserves (calm b0) (start e).
Proof. unfold start. calm. Qed.
Lemma calm_of_result {R} b0 (r : result R) : preserves (calm b0) (of_result r).
Proof. destruct r; [apply preserves_ret | done..]. Qed.
Lemma calm_now b0 : preserves (calm b0) now.
Proof. unfold now. calm. Qed.
#[local] Hint Resolve calm_session calm_start calm_of_result calm_now : preserves.
Lemma calm_make_timer b0 d k : preserves (calm b0) (make_timer d k).
Proof. unfold make_timer, allocate. calm. Qed.
Lemma calm_send_publish b0 s e t p o ps pid : preserves (calm b0) (send_publish s e t p o ps pid).
Proof. unfold send_publish, send_publish_packet, is_owned. calm. Qed.
#[local] Hint Resolve calm_make_timer calm_send_publish : preserves.
Lemma calm_push_back b0 s t p o ps : preserves (calm b0) (push_back s t p o ps).
Proof. unfold push_back. calm. Qed.
#[local] Hint Resolve calm_push_back : preserves.
Lemma calm_deliver b0 s t p o ps : preserves (calm b0) (deliver s t p o ps).
Proof. unfold deliver, publish, lock. calm. Qed.

(** *** Whom a message is for *)

(** may the user receive what is published to the topic? *)
Definition may_receive (sec : security) (topic username : list byte) : bool :=
  match auth_sub topic sec with
  | Return users _ => bool_decide (auth_sub_user users username sec = allow)
  | _ => false
  end.

(** the subscription asks for no messages of its own client *)
Definition is_own (source : session_ref) sub : bool :=
  (sub.get_nl (SharedTarget.opts sub) =? 0x04) && bool_decide (ref_client_id (ss sub) = ref_client_id source).

(** the lower QoS; the retain flag if the subscription wants it as published;
    the identifier of the subscription *)
Definition delivered_opts (opts : Z) sub : Z :=
  let q := pub.opts_of_qos (Z.min (pub.get_qos opts) (sub.get_qos (SharedTarget.opts sub))) in
  if (sub.get_rap (SharedTarget.opts sub) =? 0x08) && pub.is_retain opts then Z.lor q 1 else q.
Definition delivered_props (ps : properties) sub : properties :=
  match sid sub with Some v => ps ++ [subscription_identifier (make_variable_property v)] | None => ps end.

(** what the session of a subscription gets *)
Definition delivery b source topic opts ps sub : option (session_ref * Z * properties) :=
  match heap b !! ss sub with
  | Some x =>
    if negb (is_own source sub) && may_receive (security_ b) topic (username_ x)
    then Some (ss sub, delivered_opts opts sub, delivered_props ps sub) else None
  | None => None
  end.

Lemma delivery_calm b b' source topic opts ps sub : calm b b' -> delivery b' source topic opts ps sub = delivery b source topic opts ps sub.
Proof.
  intros [Hsec Hh]. unfold delivery. rewrite Hsec. specialize (Hh (ss sub)).
  destruct (heap b' !! ss sub) as [x'|], (heap b !! ss sub) as [x|]; try done. cbn in Hh. by injection Hh as ->.
Qed.

Lemma calm_is_Some b b' s : calm b b' -> is_Some (heap b !! s) -> is_Some (heap b' !! s).
Proof. intros [_ Hh] Hs. rewrite <- (fmap_is_Some username_), Hh. by apply fmap_is_Some. Qed.

Lemma sub_qos_nonneg opts : 0 <= sub.get_qos opts.
Proof. unfold sub.get_qos. change 0x03 with (Z.ones 2). rewrite Z.land_ones by done. by apply Z.mod_pos_bound. Qed.

Lemma opts_of_qos_run q b : 0 <= q <= 2 -> opts_of_qos q b = Return (pub.opts_of_qos q) b.
Proof.
  intros Hq. unfold opts_of_qos, mbind, action_bind, assert. assert (is_qos q = true) as ->; [|done].
  unfold is_qos, qos.at_most_once, qos.at_least_once, qos.exactly_once. simpl. lia.
Qed.

(** What is found leads to a delivery, or to a turn of the sessions that share
    the filter under the name. *)
Inductive task :=
| to_subscriber (d : session_ref * Z * properties)
| to_group (share filter : list byte).

Definition subscriber_of (t : task) : option (session_ref * Z * properties) :=
  match t with to_subscriber d => Some d | to_group _ _ => None end.
Definition group_of (t : task) : option (list byte * list byte) :=
  match t with to_subscriber _ => None | to_group share filter => Some (share, filter) end.

Section tasks.
Context (b : broker) (source : session_ref) (topic : list byte) (opts : Z) (ps : properties).

(** a subscription that is not shared, and the name and filter of one that is *)
Definition own_delivery (e : list byte * subscription session_ref) : option (session_ref * Z * properties) :=
  if bool_decide (sharename (snd e) = []) then delivery b source topic opts ps (snd e) else None.
Definition shared_group (e : list byte * subscription session_ref) : option (list byte * list byte) :=
  if bool_decide (sharename (snd e) = []) then None else Some (sharename (snd e), SharedTarget.topic (snd e)).

(** [sent] are the groups that had a turn *)
Definition next_task (sent : list (list byte * list byte)) (e : list byte * subscription session_ref) : option (task * list (list byte * list byte)) :=
  match shared_group e with
  | Some g => if bool_decide (g ∈ sent) then None else Some (to_group (fst g) (snd g), sent ++ [g])
  | None => d ← own_delivery e; Some (to_subscriber d, sent)
  end.

(** in the order of what was found *)
Fixpoint tasks (sent : list (list byte * list byte)) (l : list (list byte * subscription session_ref)) : list task :=
  match l with
  | [] => []
  | e :: l => match next_task sent e with Some (t, sent) => t :: tasks sent l | None => tasks sent l end
  end.

Lemma tasks_subscribers : forall l sent, omap subscriber_of (tasks sent l) = omap own_delivery l.
Proof.
  induction l as [|e l IH]; intros sent; [done|]. cbn [tasks omap list_omap]. rewrite <- (IH sent). unfold next_task, shared_group, own_delivery.
  destruct (bool_decide (sharename (snd e) = [])); [by destruct (delivery _ _ _ _ _ _)|].
  case_bool_decide; [done|]. cbn. by rewrite !IH.
Qed.

Lemma tasks_groups : forall l sent,
  NoDup (omap group_of (tasks sent l)) /\
  forall g, g ∈ omap group_of (tasks sent l) <-> (g ∉ sent) /\ g ∈ omap shared_group l.
Proof.
  induction l as [|e l IH]; intros sent; cbn [tasks].
  { split; [constructor|]. intros g. cbn. rewrite elem_of_nil. tauto. }
  unfold next_task. cbn [omap list_omap]. destruct (shared_group e) as [g0|] eqn:Hg.
  - case_bool_decide as Hin.
    + destruct (IH sent) as [Hnd Hiff]. split; [done|]. intros g. rewrite Hiff, elem_of_cons. split; [tauto|].
      intros [Hn [->|]]; done.
    + destruct (IH (sent ++ [g0])) as [Hnd Hiff]. cbn [omap list_omap group_of]. rewrite <- surjective_pairing. split.
      * constructor; [|done]. rewrite Hiff, elem_of_app, list_elem_of_singleton. tauto.
      * intros g. rewrite !elem_of_cons, Hiff, elem_of_app, list_elem_of_singleton.
        destruct (decide (g = g0)) as [->|]; tauto.
  - destruct (own_delivery e); apply IH.
Qed.
End tasks.

Section message.
Context (source : session_ref) (topic : list byte) (payload : list (list byte)) (opts : Z) (ps : properties).
Context (b0 : broker) (users : gmap (list byte) auth_type).
Hypothesis (Husers : auth_sub topic (security_ b0) = Return users (security_ b0)) (Hqos : pub.get_qos opts <= 2).

Lemma deliver_to_run b sub x : calm b0 b -> heap b0 !! ss sub = Some x -> valid_sid (sid sub) ->
  deliver_to users topic payload opts ps (ss sub) sub b =
  if may_receive (security_ b0) topic (username_ x)
  then (deliver (ss sub) topic payload (delivered_opts opts sub) (delivered_props ps sub);; mret true) b else Return false b.
Proof.
  intros Hb Hx Hsid. unfold may_receive. rewrite Husers. destruct (calm_is_Some b0 b (ss sub) Hb (ex_intro _ x Hx)) as [x' Hx'].
  assert (username_ x' = username_ x) as Hu.
  { destruct Hb as [_ Hh]. specialize (Hh (ss sub)). rewrite Hx, Hx' in Hh. by injection Hh. }
  unfold deliver_to. rewrite (bind_return (session (ss sub)) _ b x' b).
  2:{ unfold session, mbind, action_bind, get, deref. by rewrite Hx'. }
  rewrite (bind_return get _ b b b) by done. rewrite Hu, (proj1 Hb). case_bool_decide; [|done].
  rewrite (bind_return (opts_of_qos _) _ b (pub.opts_of_qos (Z.min (pub.get_qos opts) (sub.get_qos (SharedTarget.opts sub)))) b).
  2:{ apply opts_of_qos_run. pose proof (get_qos_range opts). pose proof (sub_qos_nonneg (SharedTarget.opts sub)). lia. }
  unfold delivered_props. destruct (sid sub) as [v|]; [|reflexivity]. simpl in Hsid. unfold mbind, action_bind, numeric_cast_uint32.
  rewrite (proj2 (Z.ltb_lt v _)) by lia. cbn [mret action_ret]. unfold with_subscription_identifier, make_subscription_identifier.
  rewrite (proj2 (Z.eqb_neq v 0)) by lia. reflexivity.
Qed.

Lemma publish_to_run b cid sub r : calm b0 b -> is_Some (heap b0 !! ss sub) -> valid_sid (sid sub) -> sharename sub = [] ->
  publish_to source users topic payload opts ps (cid, sub) r b =
  match delivery b0 source topic opts ps sub with
  | Some d => (deliver (fst (fst d)) topic payload (snd (fst d)) (snd d);; mret (true, snd r)) b
  | None => Return r b
  end.
Proof.
  intros Hb [x Hx] Hsid Hshare. destruct r as [matched sent]. unfold publish_to, delivery. cbn [snd]. rewrite Hshare, bool_decide_eq_true_2, Hx by done.
  assert (Hlocal : (if sub.get_nl (SharedTarget.opts sub) =? 0x04
     then session (ss sub);; mret (bool_decide (ref_client_id (ss sub) = ref_client_id source)) else mret false) b = Return (is_own source sub) b).
  { unfold is_own. destruct (_ =? _); [|done]. destruct (calm_is_Some b0 b (ss sub) Hb (ex_intro _ x Hx)) as [x' Hx'].
    unfold session, mbind, action_bind, get, deref. by rewrite Hx'. }
  etransitivity; [exact (bind_return _ _ _ _ _ Hlocal)|]. destruct (is_own source sub); [done|]. cbn [negb andb].
  unfold mbind at 1, action_bind at 1. rewrite (deliver_to_run b sub x Hb Hx Hsid).
  destruct (may_receive _ _ _); [|by rewrite orb_false_r]. cbn [fst snd]. unfold mbind, action_bind.
  destruct (deliver _ _ _ _ _ b) as [[] b1| |]; [|done..]. cbn. by rewrite orb_true_r.
Qed.

(** the session whose turn it is gets the message if its user may receive it *)
Definition take_turn (share filter : list byte) : program bool :=
  n ← now;
  target ← on_shared_targets (get_target ref_client_id n share filter);
  match target with
  | None => mret false
  | Some (ref, sub) => deliver_to users topic payload opts ps ref sub
  end.

Definition perform (t : task) : program bool :=
  match t with
  | to_subscriber d => deliver (fst (fst d)) topic payload (snd (fst d)) (snd d);; mret true
  | to_group share filter => take_turn share filter
  end.

(** one by one; was there a session that got the message? *)
Definition perform_all (ts : list task) (matched : bool) : program bool :=
  for_each (fun t matched => d ← perform t; mret (matched || d)) ts matched.

Lemma calm_opts_of_qos q : preserves (calm b0) (opts_of_qos q).
Proof. unfold opts_of_qos. calm. Qed.
Lemma calm_cast v : preserves (calm b0) (numeric_cast_uint32 v).
Proof. unfold numeric_cast_uint32. destruct (_ <? _); calm. Qed.
#[local] Hint Resolve calm_opts_of_qos calm_cast calm_deliver : preserves.

Lemma calm_deliver_to ref sub : preserves (calm b0) (deliver_to users topic payload opts ps ref sub).
Proof. unfold deliver_to, with_subscription_identifier. calm. Qed.
#[local] Hint Resolve calm_deliver_to : preserves.

Lemma calm_perform t : preserves (calm b0) (perform t).
Proof.
  destruct t as [d|share filter]; cbn [perform]; [calm|]. unfold take_turn. apply preserves_bind; [calm|]. intros n.
  apply preserves_bind; [by apply calm_on_part | calm].
Qed.

(** the callback does the next task, if there is one *)
Lemma publish_to_next b cid sub r : calm b0 b -> is_Some (heap b0 !! ss sub) -> valid_sid (sid sub) ->
  publish_to source users topic payload opts ps (cid, sub) r b =
  match next_task b0 source topic opts ps (snd r) (cid, sub) with
  | Some (t, sent) => (d ← perform t; mret (fst r || d, sent)) b
  | None => Return r b
  end.
Proof.
  intros Hb Hs Hsid. unfold next_task, shared_group, own_delivery. cbn [snd].
  destruct (bool_decide (sharename sub = [])) eqn:Hshare.
  - apply bool_decide_eq_true in Hshare. rewrite (publish_to_run b cid sub r Hb Hs Hsid Hshare).
    destruct (delivery _ _ _ _ _ _) as [d|]; [|done]. cbn [perform mbind option_bind]. unfold mbind, action_bind.
    destruct (deliver _ _ _ _ _ b) as [[] b1| |]; [|done..]. cbn. by rewrite orb_true_r.
  - destruct r as [matched sent]. unfold publish_to. cbn [snd fst]. rewrite Hshare.
    destruct (decide ((sharename sub, SharedTarget.topic sub) ∈ sent)); [by rewrite !bool_decide_eq_true_2 | rewrite !bool_decide_eq_false_2 by done].
    cbn [perform fst snd]. unfold take_turn, mbind, action_bind.
    destruct (now b) as [z b1| |]; [|done..]. destruct (on_shared_targets _ b1) as [[[ref sub']|] b2| |]; [|cbn; by rewrite orb_false_r | done..].
    by destruct (deliver_to _ _ _ _ _ ref sub' b2).
Qed.

(** the loop over what was found does the tasks *)
Lemma publish_all_run : forall l b r, calm b0 b ->
  (forall cid sub, (cid, sub) ∈ l -> is_Some (heap b0 !! ss sub) /\ valid_sid (sid sub)) ->
  (x ← for_each (publish_to source users topic payload opts ps) l r; mret (fst x)) b =
  perform_all (tasks b0 source topic opts ps (snd r) l) (fst r) b.
Proof.
  induction l as [|[cid sub] l IH]; intros b r Hb Hl; [done|].
  destruct (Hl cid sub (list_elem_of_here _ _)) as (Hs & Hsid).
  assert (Hl' : forall cid sub, (cid, sub) ∈ l -> is_Some (heap b0 !! ss sub) /\ valid_sid (sid sub)).
  { intros cid' sub' Hin. apply (Hl cid' sub'). by apply list_elem_of_further. }
  cbn [for_each tasks]. pose proof (publish_to_next b cid sub r Hb Hs Hsid) as Hstep.
  unfold mbind at 1 2, action_bind at 1 2. rewrite Hstep.
  destruct (next_task _ _ _ _ _ (snd r) (cid, sub)) as [[t sent]|]; [|exact (IH b r Hb Hl')].
  unfold perform_all. cbn [for_each]. unfold mbind, action_bind. destruct (perform t b) as [d b1| |] eqn:Ht; [|done..].
  exact (IH b1 (fst r || d, sent) (calm_perform t b d b1 Hb Ht) Hl').
Qed.
End message.

(** C7: in every state the broker reaches, a message that is published to a
    topic leads to tasks that are done one by one.  There is one delivery for
    each subscription that is not shared, whose filter matches the topic and
    that is for it: one of a user who may receive it, and not one that asks for
    no messages of its own client.  It has the lower of the two QoS, the retain
    flag if the subscription keeps it, and the identifier of the subscription.
    And there is one turn for each share name and filter of the shared
    subscriptions whose filter matches, however many sessions share it: the
    message goes to the one session that the shared targets choose, if its user
    may receive it.  The result is whether a session got the message. *)
Theorem published_to_matching_subscriptions b w r source topic payload opts ps :
  reachable b w -> rules_hold (security_ b) r -> validate_topic_name topic = true -> pub.get_qos opts <= 2 ->
  exists A users ts, within (subs_map_ b) A w /\ auth_sub topic (security_ b) = Return users (security_ b) /\
    omap subscriber_of ts ≡ₚ omap (own_delivery b source topic opts ps) (spec_find A topic) /\
    NoDup (omap group_of ts) /\
    (forall g, g ∈ omap group_of ts <-> g ∈ omap shared_group (spec_find A topic)) /\
    do_publish source topic payload opts ps b =
      (matched ← perform_all topic payload opts ps users ts false; retain source topic payload opts ps;; mret matched) b.
Proof.
  intros [A Hb]%reachable_owned Hrules Ht Hqos. destruct (find_owned b A w topic Hb Ht) as (l & Hfind & Hl).
  destruct (auth_sub_run (security_ b) r topic Hrules (valid_topic_plain _ Ht)) as (users & Husers & _).
  exists A, users, (tasks b source topic opts ps [] l). destruct (tasks_groups b source topic opts ps l []) as [Hnd Hgroups].
  split; [apply Hb|]. split; [done|]. split; [by rewrite tasks_subscribers, Hl|]. split; [done|]. split.
  { intros g. rewrite Hgroups, Hl. split; [tauto|]. intros Hg. split; [apply not_elem_of_nil | done]. }
  unfold do_publish. rewrite (bind_return (on_security _) _ b users b).
  2:{ unfold on_security, on_part. rewrite Husers. by destruct b. }
  rewrite (bind_return (on_subs_map _) _ b l b).
  2:{ etransitivity; [by apply on_subs_map_return|]. by destruct b. }
  assert (Hall : (x ← for_each (publish_to source users topic payload opts ps) l (false, []); mret (fst x)) b =
    perform_all topic payload opts ps users (tasks b source topic opts ps [] l) false b).
  { apply (publish_all_run source topic payload opts ps b users Husers Hqos l b (false, [])); [by split|].
    intros cid sub Hin. rewrite Hl in Hin. destruct (found_entry A topic cid sub Hin) as (f & Hsub & _).
    by destruct (ow_session _ _ _ Hb f cid sub Hsub) as ((_ & Hsid) & _ & Hs). }
  unfold mbind, action_bind in *. rewrite <- Hall. by destruct (for_each _ l (false, []) b).
Qed.

(** ** SUBSCRIBE and UNSUBSCRIBE *)

(** *** The operations that are started *)

(** [l] was started, and perhaps more *)
Definition started (l : list event) b : Prop := l `prefix_of` trace b.

(** nothing was started after [l] *)
Definition quiet (l : list event) b : Prop := trace b = l.

Definition keeps_trace {R} (p : program R) : Prop := forall l, preserves (quiet l) p.
Definition extends_trace {R} (p : program R) : Prop := forall l, preserves (started l) p.

Lemma extends_keeps {R} (p : program R) : keeps_trace p -> extends_trace p.
Proof. intros Hp l b a b' Hb Hrun. unfold started. rewrite (Hp (trace b) b a b' eq_refl Hrun). exact Hb. Qed.

Lemma keeps_trace_on_part {P R} (part : broker -> P) (set_part : P -> broker -> broker) (p : action P R) :
  (forall y b, trace (set_part y b) = trace b) -> keeps_trace (on_part part set_part p).
Proof.
  intros Hset l b a b' Hb. unfold on_part. destruct (p (part b)) as [a' y| |]; [|done..]. intros [= _ <-]. unfold quiet. by rewrite Hset.
Qed.

Lemma keeps_trace_modify f : (forall b, trace (f b) = trace b) -> keeps_trace (modify f).
Proof. intros Hf l. apply preserves_modify. intros b Hb. unfold quiet. by rewrite Hf. Qed.

Lemma keeps_trace_bind {R Q} (p : program R) (f : R -> program Q) : keeps_trace p -> (forall a, keeps_trace (f a)) -> keeps_trace (p ≫= f).
Proof. intros Hp Hf l. apply preserves_bind; [apply Hp | intros a; apply Hf]. Qed.

Lemma keeps_trace_session s : keeps_trace (session s).
Proof. intros l. unfold session. auto with preserves. Qed.

Lemma keeps_trace_modify_session f s : keeps_trace (modify_session f s).
Proof. unfold modify_session. apply keeps_trace_bind; [apply keeps_trace_session|]. intros x. by apply keeps_trace_modify. Qed.

Lemma keeps_trace_now : keeps_trace now.
Proof. unfold now. apply keeps_trace_bind; [intros l; auto with preserves|]. intros b. apply keeps_trace_bind; [by apply keeps_trace_modify|]. by intros _ l; auto with preserves. Qed.

Lemma keeps_trace_subscribe {R} s share f opts (h : program R) sid : keeps_trace h -> keeps_trace (subscribe s share f opts h sid).
Proof.
  intros Hh. unfold subscribe. apply keeps_trace_bind.
  - case_bool_decide; [intros l; apply preserves_ret|]. apply keeps_trace_bind; [apply keeps_trace_now|]. intros n. by apply keeps_trace_on_part.
  - intros _. apply keeps_trace_bind; [by apply keeps_trace_on_part|]. intros hr. apply keeps_trace_bind.
    + destruct (snd hr); [apply keeps_trace_modify_session | intros l; apply preserves_ret].
    + intros _. destruct (sends_retained _ _); [|intros l; apply preserves_ret]. apply keeps_trace_bind; [done | intros a l; apply preserves_ret].
Qed.

Lemma keeps_trace_unsubscribe s share f : keeps_trace (unsubscribe s share f).
Proof.
  unfold unsubscribe. apply keeps_trace_bind; [case_bool_decide; [intros l; apply preserves_ret | by apply keeps_trace_on_part]|].
  intros _. apply keeps_trace_bind; [by apply keeps_trace_on_part|]. intros [h|]; [|intros l; apply preserves_ret].
  apply keeps_trace_bind; [apply keeps_trace_modify_session|]. intros _. apply keeps_trace_bind; [by apply keeps_trace_on_part|].
  intros _ l. apply preserves_ret.
Qed.

Lemma keeps_trace_entries s sid grant entries : keeps_trace (subscribe_entries s sid grant entries).
Proof.
  intros l. unfold subscribe_entries. apply preserves_for_each. intros entry [res rd]. revert l. unfold subscribe_one.
  apply keeps_trace_bind; [apply keeps_trace_session|]. intros x. apply keeps_trace_bind; [intros l; apply preserves_get|]. intros b.
  destruct (grant _ _ entry) as [code []]; [|intros l; apply preserves_ret]. apply keeps_trace_bind; [|intros a l; apply preserves_ret].
  unfold subscribe_entry. apply keeps_trace_bind; [|intros a l; apply preserves_ret]. apply keeps_trace_subscribe. by apply keeps_trace_on_part.
Qed.

Lemma extends_bind {R Q} (p : program R) (f : R -> program Q) : extends_trace p -> (forall a, extends_trace (f a)) -> extends_trace (p ≫= f).
Proof. intros Hp Hf l. apply preserves_bind; [apply Hp | intros a; apply Hf]. Qed.
Lemma extends_ret {R} (a : R) : extends_trace (mret a).
Proof. intros l. apply preserves_ret. Qed.
Lemma extends_start e : extends_trace (start e).
Proof. intros l. apply preserves_modify. intros b Hb. unfold started. cbn [trace set_trace]. by apply prefix_app_r. Qed.
Lemma extends_modify f : (forall b, trace (f b) = trace b) -> extends_trace (modify f).
Proof. intros Hf. by apply extends_keeps, keeps_trace_modify. Qed.

Create HintDb extends.
#[local] Hint Resolve extends_ret extends_start : extends.
#[local] Hint Extern 1 (extends_trace (_ ≫= _)) => apply extends_bind; [|intros] : extends.
#[local] Hint Extern 1 (extends_trace (modify _)) => apply extends_modify; by intros [] : extends.
#[local] Hint Extern 1 (extends_trace (session _)) => apply extends_keeps, keeps_trace_session : extends.
#[local] Hint Extern 1 (extends_trace (modify_session _ _)) => apply extends_keeps, keeps_trace_modify_session : extends.
#[local] Hint Extern 1 (extends_trace now) => apply extends_keeps, keeps_trace_now : extends.
#[local] Hint Extern 2 (extends_trace (match ?x with _ => _ end)) => destruct x : extends.
#[local] Hint Extern 3 (extends_trace _) => intros l; solve [auto with preserves nocore] : extends.

Lemma extends_of_result {R} (r : result R) : extends_trace (of_result r).
Proof. intros l. destruct r; [apply preserves_ret | done..]. Qed.
Lemma extends_opts q : extends_trace (opts_of_qos q).
Proof. unfold opts_of_qos. auto with extends. Qed.
#[local] Hint Resolve extends_of_result extends_opts : extends.
Lemma extends_publish_retained s e r : extends_trace (publish_retained s e r).
Proof.
  destruct r as [[r q] v]. unfold publish_retained, with_subscription_identifier, publish, send_publish, is_owned, send_publish_packet, push_back,
    make_timer, allocate. auto 20 with extends.
Qed.

(** *** The answers *)

(** what SUBSCRIBE is answered, by the protocol version *)
Definition grant_of (version : protocol_version.t) : list byte -> security -> topic_subopts -> Z * bool :=
  match version with protocol_version.v5 => v5_grant | _ => v3_grant end.
Definition sid_of (version : protocol_version.t) (ps : properties) : option Z :=
  match version with protocol_version.v5 => first_val subscription_identifier_val ps | _ => None end.
Definition suback_of (version : protocol_version.t) (pid : Z) (codes : list Z) (ps : properties) : result packet_variant :=
  (match version with
   | protocol_version.v5 => let? p := Codes.make_v5_suback pidb pid codes ps in Ok (v5_suback p)
   | _ => let? p := Codes.make_v3_suback pidb pid codes in Ok (v3_1_1_suback p)
   end)%result.
Definition unsuback_of (version : protocol_version.t) (pid : Z) (entries : list topic_sharename) (ps : properties) : result packet_variant :=
  (match version with
   | protocol_version.v5 =>
     let? p := Codes.make_v5_unsuback pidb pid (map (fun _ => unsuback_reason_code.success) entries) ps in Ok (v5_unsuback p)
   | _ => Ok (v3_1_1_unsuback (Fixed.make_v3_unsuback pidb pid))
   end)%result.

(** the session of the connection and its endpoint *)
Definition connected b e s x (version : protocol_version.t) : Prop :=
  find_con e b = Return (Some s) b /\ heap b !! s = Some x /\ ep_protocol_version <$> endpoints b !! ep e = Some version.

Lemma get_version_run b e s x version r b' :
  connected b e s x version -> get_protocol_version e b = Return r b' -> r = version /\ b' = b.
Proof.
  intros (_ & _ & Hv) (z & b1 & Hz & [= <- <-])%bind_returns. unfold at_endpoint, mbind, action_bind, get, deref in Hz.
  destruct (endpoints b !! ep e) as [z'|]; [|done]. injection Hz as <- <-. by injection Hv as <-.
Qed.

Lemma sid_of_valid version ps : valid_sid (sid_of version ps).
Proof. destruct version; try done. apply subscription_identifier_valid. Qed.

(** which entries are granted, and with which codes *)
Lemma verdicts version username sec entry :
  let filter := topic_ (topic_sharename_ entry) in
  let authorized := is_subscribe_authorized username filter sec in
  let verdict := grant_of version username sec entry in
  snd verdict =
    (match version with
     | protocol_version.v5 => negb (bool_decide (filter = [])) && authorized
     | _ => bool_decide (filter = []) || authorized
     end) /\
  if snd verdict then fst verdict = sub.get_qos (opts_ entry) else 0x80 <= fst verdict.
Proof.
  cbv zeta. destruct version; cbn [grant_of]; unfold v3_grant, v5_grant, is_valid_entry; rewrite ?negb_involutive;
    destruct (bool_decide _), (is_subscribe_authorized _ _ _); cbn; done.
Qed.

(** C8: a SUBSCRIBE of a session that is alone with its client identifier is
    answered, before anything else is sent, by a SUBACK with the code of each
    entry in its order: its QoS if it is granted, else a code of failure.  In
    version 5 an entry is granted if it has a topic filter and the rules allow
    it, in version 3.1.1 also if it has no filter.  The entries that are
    granted, and no others, become subscriptions of the session, each in the
    place of an earlier one with the same filter; and the connection reads the
    next packet at the end. *)
Theorem subscribe_answered b w e s x version pid entries ps b' :
  reachable b w -> connected b e s x version -> alone b s -> w + entries_weight entries < max_count ->
  subscribe_handler e pid entries ps b = Return tt b' ->
  let sid := sid_of version ps in
  let verdict := grant_of version (username_ x) (security_ b) in
  exists A w' p rest,
    owned b A w /\ owned b' (foldl (subscribed s sid) A (List.filter (fun entry => snd (verdict entry)) entries)) w' /\
    suback_of version pid (map (fun entry => fst (verdict entry)) entries) (suback_props_ (options b)) = Ok p /\
    trace b' = trace b ++ async_send (ep e) p handler_log :: rest ++ [async_recv e] /\
    forall entry,
      let filter := topic_ (topic_sharename_ entry) in
      let authorized := is_subscribe_authorized (username_ x) filter (security_ b) in
      snd (verdict entry) =
        (match version with
         | protocol_version.v5 => negb (bool_decide (filter = [])) && authorized
         | _ => bool_decide (filter = []) || authorized
         end) /\
      if snd (verdict entry) then fst (verdict entry) = sub.get_qos (opts_ entry) else 0x80 <= fst (verdict entry).
Proof.
  intros [A Hb]%reachable_owned Hc Halone Hw Hrun sid verdict. pose proof Hc as (Hcon & Hx & _).
  unfold subscribe_handler in Hrun. apply (for_session e) in Hrun as (o & b1 & Hcon' & Hrun & ->).
  rewrite Hcon in Hcon'. injection Hcon' as <-. apply bind_returns in Hrun as (v & b2 & Hv & Hrun).
  destruct (get_version_run b e s x version v b2 Hc Hv) as [-> ->]. apply bind_returns in Hrun as (b3 & b4 & [= <- <-] & Hrun).
  apply bind_returns in Hrun as (rd & b5 & Hrun & Hrest).
  assert (Hmid : exists codes w' p, owned b5 (foldl (subscribed s sid) A (List.filter (fun entry => snd (verdict entry)) entries)) w' /\
    codes = map (fun entry => fst (verdict entry)) entries /\ suback_of version pid codes (suback_props_ (options b)) = Ok p /\
    trace b5 = trace b ++ [async_send (ep e) p handler_log]).
  { assert (Hent : forall sid grant r c, valid_sid sid -> subscribe_entries s sid grant entries b = Return r c -> exists w',
      owned c (foldl (subscribed s sid) A (List.filter (fun entry => snd (grant (username_ x) (security_ b) entry)) entries)) w' /\
      fst r = map (fun entry => fst (grant (username_ x) (security_ b) entry)) entries /\ trace c = trace b).
    { intros sid' grant r c Hsid Hr. destruct (subscribe_entries_owned sha256hash iequals s sid' grant (username_ x) (security_ b) entries b A w [] []
        r c Hsid Hb) as (w' & Hc' & _ & Hcodes); [by rewrite Hx | done | by apply (alone_entries b A w) | done | exact Hr|].
      exists w'. split; [done|]. split; [done|]. by apply (keeps_trace_entries s sid' grant entries (trace b) b r c). }
    assert (Hsend : forall (Q : Type) (c : broker) (q : result Q) (f : Q -> packet_variant) rd', trace c = trace b ->
      (p ← of_result q; start (async_send (ep e) (f p) handler_log);; mret rd') c = Return rd b5 ->
      exists p, q = Ok p /\ trace b5 = trace b ++ [async_send (ep e) (f p) handler_log] /\ same_subs c b5).
    { intros Q c q f rd' Ht (p & c1 & Hp & Hs)%bind_returns. destruct q as [p'| |]; [|done..]. injection Hp as -> ->.
      exists p. split; [done|]. injection Hs as <- <-. cbn [trace set_trace]. rewrite Ht. split; [done|]. split; [done|]. split; [done | apply Z.le_refl]. }
    unfold sid, verdict, suback_of, grant_of, sid_of. destruct version; [done| |]; apply bind_returns in Hrun as (r & c & Hr & Hrun).
    - destruct (Hent None v3_grant r c I Hr) as (w' & Hc' & Hcodes & Ht).
      destruct (Hsend _ c _ v3_1_1_suback _ Ht Hrun) as (p & Hp & Ht5 & Hsame).
      exists (fst r), w', (v3_1_1_suback p). split; [by apply (owned_same c)|]. split; [done|]. by rewrite Hp.
    - destruct (Hent _ v5_grant r c (subscription_identifier_valid ps) Hr) as (w' & Hc' & Hcodes & Ht).
      destruct (Hsend _ c _ v5_suback _ Ht Hrun) as (p & Hp & Ht5 & Hsame).
      exists (fst r), w', (v5_suback p). split; [by apply (owned_same c)|]. split; [done|]. by rewrite Hp. }
  destruct Hmid as (codes & w' & p & Hb5 & -> & Hp & Ht5).
  assert (Hstart : started (trace b5) b1).
  { assert (Hext : extends_trace (for_each (fun r _ => publish_retained s e r) rd tt)).
    { intros l. apply preserves_for_each. intros r _. apply extends_publish_retained. }
    apply (Hext (trace b5) b5 tt b1); [unfold started; reflexivity | exact Hrest]. }
  destruct Hstart as [rest Hrest']. exists A, w', p, rest. split; [done|]. split; [|split; [done|split; [|apply verdicts]]].
  - apply (owned_same b1); [|by apply (same_run (start (async_recv e)) b1 tt); [apply same_start|]].
    apply (owned_same b5); [done|]. refine (same_run _ b5 tt b1 _ Hrest). apply same_for_each. intros r []. apply same_publish_retained.
  - cbn [trace set_trace]. rewrite Hrest', Ht5, <- !app_assoc. done.
Qed.

Lemma keeps_endpoints_on_part {P R} (Q : gmap Z endpoint -> Prop) (part : broker -> P) (set_part : P -> broker -> broker) (p : action P R) :
  (forall y b, endpoints (set_part y b) = endpoints b) -> preserves (fun b => Q (endpoints b)) (on_part part set_part p).
Proof.
  intros Hset b a b' Hb. unfold on_part. destruct (p (part b)) as [a' y| |]; [|done..]. intros [= _ <-]. by rewrite Hset.
Qed.

Lemma keeps_endpoints_unsubscribe Q s share f : preserves (fun b => Q (endpoints b)) (unsubscribe s share f).
Proof.
  unfold unsubscribe. apply preserves_bind; [case_bool_decide; [apply preserves_ret | by apply keeps_endpoints_on_part]|].
  intros _. apply preserves_bind; [by apply keeps_endpoints_on_part|]. intros [h|]; [|apply preserves_ret]. apply preserves_bind.
  - unfold modify_session, session. apply preserves_bind; [auto with preserves|]. intros x. by apply preserves_modify.
  - intros _. apply preserves_bind; [by apply keeps_endpoints_on_part | intros _; apply preserves_ret].
Qed.

(** C13: an UNSUBSCRIBE of a session that is alone with its client identifier
    (no other session has subscriptions under it, whose subscriptions would be
    removed too, see [two_users_one_client_id]) removes the subscriptions of
    the session to the filters it names, and nothing else of the map, and is
    answered by an UNSUBACK. *)
Theorem unsubscribe_answered b w e s x version pid entries b' :
  reachable b w -> connected b e s x version -> alone b s ->
  unsubscribe_handler e pid entries b = Return tt b' ->
  exists A p,
    owned b A w /\ owned b' (foldl (fun A entry => delete (topic_ entry, ref_client_id s) A) A entries) w /\
    unsuback_of version pid entries (unsuback_props_ (options b')) = Ok p /\
    trace b' = trace b ++ [async_send (ep e) p handler_log; async_recv e].
Proof.
  intros [A Hb]%reachable_owned Hc Halone Hrun. pose proof Hc as (Hcon & Hx & Hv).
  unfold unsubscribe_handler in Hrun. apply (for_session e) in Hrun as (o & b1 & Hcon' & Hrun & ->).
  rewrite Hcon in Hcon'. injection Hcon' as <-. apply bind_returns in Hrun as ([] & b2 & Hun & Hrun).
  pose proof (unsubscribe_entries_owned s entries b A w tt b2 Hb (ex_intro _ x Hx) (alone_entries b A w s Hb Halone) Hun) as Hb2.
  assert (Ht2 : trace b2 = trace b).
  { refine ((_ : preserves (quiet (trace b)) _) b tt b2 eq_refl Hun). apply preserves_for_each. intros entry _. apply keeps_trace_unsubscribe. }
  assert (Hv2 : ep_protocol_version <$> endpoints b2 !! ep e = Some version).
  { refine ((_ : preserves (fun b => ep_protocol_version <$> endpoints b !! ep e = Some version) _) b tt b2 Hv Hun).
    apply preserves_for_each. intros entry _. apply (keeps_endpoints_unsubscribe (fun es => ep_protocol_version <$> es !! ep e = Some version)). }
  apply bind_returns in Hrun as (v & b3 & (z & c & Hz & [= <- <-])%bind_returns & Hrun).
  unfold at_endpoint, mbind, action_bind, get, deref in Hz. destruct (endpoints b2 !! ep e) as [z'|]; [|done]. injection Hz as -> ->.
  injection Hv2 as Hv2. rewrite Hv2 in Hrun. apply bind_returns in Hrun as (b4 & b5 & [= <- <-] & Hrun). exists A.
  assert (Hend : forall p, start (async_send (ep e) p handler_log) c = Return tt b1 ->
    owned (set_trace (fun l => l ++ [async_recv e]) b1) (foldl (fun A entry => delete (topic_ entry, ref_client_id s) A) A entries) w /\
    options b1 = options c /\ trace (set_trace (fun l => l ++ [async_recv e]) b1) = trace b ++ [async_send (ep e) p handler_log; async_recv e]).
  { intros p [= <-]. split; [|split; [done|]].
    - apply (owned_same c); [done|]. split; [done|]. split; [done | apply Z.le_refl].
    - cbn [trace set_trace]. by rewrite Ht2, <- app_assoc. }
  unfold unsuback_of. destruct version; [done| |].
  - eexists. destruct (Hend _ Hrun) as (Hb' & _ & Ht). done.
  - apply bind_returns in Hrun as (p & b6 & Hp & Hrun). destruct (Codes.make_v5_unsuback _ _ _ _) as [p'| |] eqn:Hmk in Hp; try done.
    injection Hp as -> <-. exists (v5_unsuback p). destruct (Hend _ Hrun) as (Hb' & Ho & Ht). split; [done|]. split; [done|].
    cbn [options set_trace]. by rewrite Ho, Hmk.
Qed.

(** ** A message that is refused *)

(** the acknowledgement a publisher that is not authorized gets *)
Definition refusal (version : protocol_version.t) (e : epsp) (pid opts : Z) : list event :=
  let send p := [async_send (ep e) p handler_log] in
  let refused cls (f : v5_ack.ack_packet -> packet_variant) :=
    match Ack.make_ack pidb cls pid (Some puback_reason_code.not_authorized) [] with Ok p => send (f p) | _ => [] end in
  let q := pub.get_qos opts in
  if q =? qos.at_least_once then
    match version with
    | protocol_version.v5 => refused puback_class v5_puback
    | _ => send (v3_1_1_puback (Fixed.make_v3_puback pidb pid))
    end
  else if q =? qos.exactly_once then
    match version with
    | protocol_version.v5 => refused pubrec_class v5_pubrec
    | _ => send (v3_1_1_pubrec (Fixed.make_v3_pubrec pidb pid))
    end
  else [].

Lemma version_run b e s x version : connected b e s x version -> get_protocol_version e b = Return version b.
Proof.
  intros (_ & _ & Hv). unfold get_protocol_version, at_endpoint, mbind, action_bind, get, deref.
  destruct (endpoints b !! ep e) as [z|]; [|done]. by injection Hv as <-.
Qed.

Lemma refuse_ack cls (f : v5_ack.ack_packet -> packet_variant) pid e b :
  cls = puback_class \/ cls = pubrec_class ->
  (p ← ack_packet cls pid (pubres_code false false) []; start (async_send (ep e) (f p) handler_log)) b =
  Return tt (set_trace (fun l => l ++ match Ack.make_ack pidb cls pid (Some puback_reason_code.not_authorized) [] with
    | Ok p => [async_send (ep e) (f p) handler_log] | _ => [] end) b).
Proof. by intros [->| ->]. Qed.

(** C12: a PUBLISH of a user the rules do not allow to publish to the topic is
    neither delivered nor retained: the broker only acknowledges it, where its
    QoS asks for that, with the reason code not_authorized if the version has
    one, and reads the next packet. *)
Theorem publish_refused b r e s x version pid opts topic payload ps :
  connected b e s x version -> version <> protocol_version.undetermined ->
  rules_hold (security_ b) r -> validate_topic_name topic = true ->
  puback_props_ (options b) = [] -> pubrec_props_ (options b) = [] ->
  exists ty, auth_pub topic (username_ x) (security_ b) = Return ty (security_ b) /\
    pub_decision (authorization_ (security_ b)) topic (username_ x) (security_ b) ty /\
    (ty <> allow ->
     publish_handler e pid opts topic payload ps b =
       Return tt (set_trace (fun l => l ++ refusal version e pid opts ++ [async_recv e]) b)).
Proof.
  intros Hc Hversion Hrules Ht Hack Hrec. pose proof Hc as (Hcon & Hx & _).
  destruct (auth_pub_run (security_ b) r topic (username_ x) Hrules (valid_topic_plain _ Ht)) as (ty & Hty & Hdec).
  exists ty. split; [done|]. split; [done|]. intros Hne. unfold publish_handler, then_read_packet. rewrite (bind_return _ _ _ _ _ Hcon).
  rewrite (bind_return (session s) _ b x b); [|unfold session, mbind, action_bind, get, deref; by rewrite Hx].
  rewrite (bind_return (on_security _) _ b ty b); [|unfold on_security, on_part; rewrite Hty; by destruct b].
  rewrite (bool_decide_eq_false_2 (ty = allow)) by done. cbn [negb].
  assert (send_pubres e pid opts false false b = Return tt (set_trace (fun l => l ++ refusal version e pid opts) b)) as ->.
  { unfold send_pubres, refusal. destruct (_ =? qos.at_least_once); [|destruct (_ =? qos.exactly_once)].
    3: { unfold set_trace. rewrite app_nil_r. by destruct b. }
    all: rewrite (bind_return _ _ _ _ _ (version_run b e s x version Hc)), (bind_return get _ b b b) by done.
    all: destruct version; try done; rewrite ?Hack, ?Hrec; apply refuse_ack; auto. }
  unfold async_read_packet, start, modify, set_trace. cbn. by rewrite <- app_assoc.
Qed.
End spec.
