(* ===== verification/SessionSpec.v ===== *)
(** * What waits for a client

    The messages of a session whose client is away: they are sent when it is
    back, in the order they came, as far as there are packet identifiers. *)
From S2P Require Import PacketBuilder.
From S2P Require Import Prelude Boost Wire Error Property Packet PublishPacket ControlPacket EntryPacket ConnectPacket Store ConnectionState.
From S2P Require Import Action TopicFilter SubscriptionMap RetainedTopicMap SharedTarget Security BrokerState SessionState Broker BrokerInvariant.

Section spec.
Context {BE : BoostEndian} {BMI : BoostMultiIndex} {EP : Endpoint} {SU : Surroundings}.
Abbreviation program := (action broker).
Implicit Types (b : broker) (s : session_ref) (x : session_state) (m : offline_message).

(** ** Messages for a client that was away *)

(** a PUBLISH packet of the version *)
Definition publish_packet (version : protocol_version.t) (pid : Z) (topic : list byte) (payload : list (list byte)) (opts : Z) (ps : properties) :
    result packet_variant :=
  (match version with
   | protocol_version.v5 => let? p := V5.make_publish pidb pid topic payload opts ps in Ok (v5_publish p)
   | _ => let? p := V3.make_publish pidb pid topic payload opts in Ok (v3_1_1_publish p)
   end)%result.

(** a message is sent: with an identifier if its QoS needs one *)
Definition sends (e : epsp) (version : protocol_version.t) m (x : event) : Prop :=
  exists pid ps p, publish_packet version pid (offline_topic_ m) (offline_payload_ m) (offline_pubopts_ m) ps = Ok p /\
    (is_qos12 (pub.get_qos (offline_pubopts_ m)) = false -> pid = 0) /\
    x = async_send (ep e) p handler_log.

(** no identifier is left for it *)
Definition blocked b (e : epsp) m : Prop :=
  is_qos12 (pub.get_qos (offline_pubopts_ m)) = true /\
  exists z, endpoints b !! ep e = Some z /\ fst (ep_acquire_unique_packet_id z) = None.

(** [b'] is [b] but for the endpoints, the timers, the clock and what was
    started, which is [l] *)
Definition sent b b' (l : list event) : Prop := heap b' = heap b /\ trace b' = trace b ++ l.

Lemma sent_refl b : sent b b [].
Proof. split; [done|]. by rewrite app_nil_r. Qed.
Lemma sent_trans b b1 b2 l1 l2 : sent b b1 l1 -> sent b1 b2 l2 -> sent b b2 (l1 ++ l2).
Proof. intros [Hh1 Ht1] [Hh2 Ht2]. split; [congruence|]. by rewrite Ht2, Ht1, app_assoc. Qed.

Definition unsent {R} (p : program R) : Prop := forall b a b', p b = Return a b' -> sent b b' [].

Lemma unsent_bind {R Q} (p : program R) (f : R -> program Q) : unsent p -> (forall a, unsent (f a)) -> unsent (p ≫= f).
Proof. intros Hp Hf b a b' (r & b1 & Hr & Hrun)%bind_returns. by apply (sent_trans b b1 b' [] []); [apply (Hp b r) | apply (Hf r b1 a)]. Qed.
Lemma unsent_ret {R} (a : R) : unsent (mret a).
Proof. intros b r b' [= _ <-]. apply sent_refl. Qed.
Lemma unsent_get : unsent get.
Proof. intros b r b' [= _ <-]. apply sent_refl. Qed.
Lemma unsent_deref {R} (o : option R) : unsent (deref o).
Proof. intros b r b'. unfold deref. destruct o; [|done]. intros [= _ <-]. apply sent_refl. Qed.
Lemma unsent_modify f : (forall b, heap (f b) = heap b /\ trace (f b) = trace b) -> unsent (modify f).
Proof. intros Hf b r b' [= _ <-]. destruct (Hf b) as [Hh Ht]. split; [done|]. by rewrite Ht, app_nil_r. Qed.

Create HintDb unsent.
#[local] Hint Resolve unsent_ret unsent_get unsent_deref : unsent.
#[local] Hint Extern 1 (unsent (_ ≫= _)) => apply unsent_bind; [|intros] : unsent.
#[local] Hint Extern 1 (unsent (modify _)) => apply unsent_modify; by intros [] : unsent.
#[local] Hint Extern 2 (unsent (match ?x with _ => _ end)) => destruct x : unsent.

Lemma unsent_now : unsent now.
Proof. unfold now. auto with unsent. Qed.
Lemma unsent_acquire e : unsent (acquire_unique_packet_id e).
Proof. unfold acquire_unique_packet_id, modify_endpoint, at_endpoint. auto 9 with unsent. Qed.
Lemma unsent_cancel t : unsent (cancel_timer t).
Proof. unfold cancel_timer. auto with unsent. Qed.
#[local] Hint Resolve unsent_now : unsent.
Lemma unsent_update m : unsent (update_message_expiry m).
Proof. unfold update_message_expiry. auto with unsent. Qed.
#[local] Hint Resolve unsent_update : unsent.

Lemma of_result_returns {R} (r : result R) b a b' : of_result r b = Return a b' -> r = Ok a /\ b' = b.
Proof. destruct r; [|done..]. by intros [= -> <-]. Qed.

(** a message is sent, or there is no identifier *)
Lemma send_publish_packet_run e version pid topic payload opts ps b u b' :
  send_publish_packet e version pid topic payload opts ps b = Return u b' ->
  exists p, publish_packet version pid topic payload opts ps = Ok p /\ sent b b' [async_send (ep e) p handler_log].
Proof.
  intros Hrun. unfold send_publish_packet, publish_packet in *. destruct version; [done| |];
    apply bind_returns in Hrun as (p & b1 & [-> ->]%of_result_returns & [= _ <-]); by eexists.
Qed.

Lemma publish_offline_run m e version pid b u b' : publish_offline m e version pid b = Return u b' ->
  exists ps p, publish_packet version pid (offline_topic_ m) (offline_payload_ m) (offline_pubopts_ m) ps = Ok p /\
    sent b b' [async_send (ep e) p handler_log].
Proof.
  intros (ps & b1 & Hps & Hrun)%bind_returns. assert (sent b b1 []) as Hs.
  { refine ((_ : unsent _) b ps b1 Hps). auto with unsent. }
  apply send_publish_packet_run in Hrun as (p & Hp & Hrun). exists ps, p. split; [done|]. by apply (sent_trans b b1 b' []).
Qed.

Lemma send_offline_run m e version b r b' : send_offline m e version b = Return r b' ->
  if r : bool then exists ev, sends e version m ev /\ sent b b' [ev]
  else sent b b' [] /\ blocked b e m.
Proof.
  intros Hrun. unfold send_offline in Hrun. destruct (is_qos12 _) eqn:Hq.
  - apply bind_returns in Hrun as (o & b1 & Hacq & Hrun). pose proof (unsent_acquire e b o b1 Hacq) as Hs. destruct o as [pid|].
    + apply bind_returns in Hrun as (u & b2 & (ps & p & Hp & Hsent)%publish_offline_run & [= <- <-]).
      exists (async_send (ep e) p handler_log). split; [|by apply (sent_trans b b1 b2 [])]. exists pid, ps, p. by rewrite Hq.
    + injection Hrun as <- <-. split; [done|]. split; [done|]. unfold acquire_unique_packet_id in Hacq.
      apply bind_returns in Hacq as (z & b2 & Hz & (u & b3 & _ & [= Hnone _])%bind_returns). exists z. split; [|done].
      unfold at_endpoint, mbind, action_bind, get, deref in Hz. destruct (endpoints b !! ep e); [|done]. by injection Hz as -> _.
  - apply bind_returns in Hrun as (u & b1 & (ps & p & Hp & Hsent)%publish_offline_run & [= <- <-]).
    exists (async_send (ep e) p handler_log). split; [|done]. by exists 0, ps, p.
Qed.

Lemma send_until_fail_loop_run s e version : forall l b x b',
  heap b !! s = Some x -> offline_messages_ x = l -> send_until_fail_loop l s e version b = Return tt b' ->
  exists now rest evs b1, l = now ++ rest /\ Forall2 (sends e version) now evs /\
    heap b' !! s = Some (set_offline_messages_ rest x) /\ trace b' = trace b ++ evs /\
    match rest with [] => True | m :: _ => blocked b1 e m /\ heap b1 = heap b' /\ trace b1 = trace b' end.
Proof.
  induction l as [|m l IH]; intros b x b' Hx Hl Hrun.
  - injection Hrun as <-. exists [], [], [], b. split; [done|]. split; [done|]. rewrite app_nil_r. split; [|done]. rewrite <- Hl. by destruct x.
  - cbn [send_until_fail_loop] in Hrun. apply bind_returns in Hrun as (r & b1 & Hsend%send_offline_run & Hrun). destruct r.
    + destruct Hsend as (ev & Hev & Hh & Ht). apply bind_returns in Hrun as (u & b2 & Hcancel & Hrun).
      apply unsent_cancel in Hcancel as [Hh2 Ht2]. apply bind_returns in Hrun as (u' & b3 & Hmod & Hrun).
      assert (Hx2 : heap b2 !! s = Some x) by by rewrite Hh2, Hh.
      unfold modify_session, session, mbind, action_bind, get, deref, modify in Hmod. rewrite Hx2 in Hmod. injection Hmod as <- <-.
      destruct (IH _ (set_offline_messages_ l x) b' (lookup_insert_eq _ _ _) eq_refl Hrun) as (now & rest & evs & b4 & -> & Hall & Hb' & Ht' & Hrest).
      exists (m :: now), rest, (ev :: evs), b4. split; [done|]. split; [by constructor|]. split; [done|]. split; [|done].
      rewrite Ht'. cbn [trace set_heap]. by rewrite Ht2, app_nil_r, Ht, <- app_assoc.
    + destruct Hsend as [[Hh Ht] Hblock]. injection Hrun as <-. exists [], (m :: l), [], b. split; [done|]. split; [done|].
      rewrite Hh, Ht, app_nil_r. split; [|done]. rewrite Hx, <- Hl. by destruct x.
Qed.

(** C11: when the messages a session has kept for its client are sent, a
    prefix of them is sent, in the order they were kept, each as one PUBLISH
    with its topic, payload and options; the others are kept; and if there are
    others, the first of them needs a packet identifier and none is left. *)
Theorem offline_messages_in_order b b' s x e version :
  heap b !! s = Some x -> run_send_until_fail s e version b = Return tt b' ->
  exists now rest evs b1, offline_messages_ x = now ++ rest /\ Forall2 (sends e version) now evs /\
    heap b' !! s = Some (set_offline_messages_ rest x) /\ trace b' = trace b ++ evs /\
    match rest with [] => True | m :: _ => blocked b1 e m /\ heap b1 = heap b' /\ trace b1 = trace b' end.
Proof.
  intros Hx (y & b1 & Hy & Hrun)%bind_returns. unfold session, mbind, action_bind, get, deref in Hy. rewrite Hx in Hy. injection Hy as <- <-.
  by apply (send_until_fail_loop_run s e version _ b x b').
Qed.

(** ** Messages without an acknowledgement *)

(** what was sent before, again *)
Definition resent (e : Z) (msg : inflight_message) : event := async_send e (store_packet (packet_ msg)) handler_log.

(** the endpoint has their identifiers in use *)
Definition registered (l : list inflight_message) (z : endpoint) : endpoint :=
  foldl (fun z msg => snd (ep_register_packet_id (inflight_packet_id msg) z)) z l.

Lemma send_inflight_run e : forall l b z, endpoints b !! ep e = Some z ->
  exists b', for_each (send_inflight e) l tt b = Return tt b' /\ heap b' = heap b /\ sessions_ b' = sessions_ b /\
    endpoints b' = <[ep e := registered l z]> (endpoints b) /\ trace b' = trace b ++ map (resent (ep e)) l.
Proof.
  induction l as [|msg l IH]; intros b z Hz.
  - exists b. split; [done|]. split; [done|]. split; [done|]. rewrite app_nil_r, insert_id by done. done.
  - set (b1 := set_trace (fun t => t ++ [resent (ep e) msg]) (set_endpoints <[ep e := snd (ep_register_packet_id (inflight_packet_id msg) z)]> b)).
    destruct (IH b1 (snd (ep_register_packet_id (inflight_packet_id msg) z)) (lookup_insert_eq _ _ _)) as (b' & Hrun & Hh & Hs & He & Ht).
    exists b'. split; [|split; [done|split; [done|split]]].
    + etransitivity; [apply (for_each_cons _ msg l tt b tt b1)|exact Hrun]. unfold send_inflight, register_packet_id, modify_endpoint, at_endpoint, start,
        mbind, action_bind, get, deref, modify. by rewrite !Hz.
    + rewrite He. unfold b1. cbn [endpoints set_trace set_endpoints registered foldl]. by rewrite insert_insert_eq.
    + rewrite Ht. unfold b1. cbn [trace set_trace set_endpoints map]. by rewrite <- app_assoc.
Qed.

(** C10: when the CONNACK of a session that is resumed is sent, the messages
    that were not acknowledged are sent again, all of them and in their order,
    with their packet identifiers in use; then the messages that waited for the
    client are to be sent; and the connection reads its first packet after
    them. *)
Theorem session_resumed b e it x z pid :
  heap b !! it = Some x -> it ∈ sessions_ b -> endpoints b !! epwp_ x = Some z ->
  let e' := mk_epsp (epwp_ x) [] None in
  exists b', run_handler (handler_inherited e it) false pid b = Return tt b' /\
    heap b' = heap b /\ sessions_ b' = sessions_ b /\
    endpoints b' !! epwp_ x = Some (registered (inflight_messages_ x) z) /\
    trace b' = trace b ++ map (resent (epwp_ x)) (inflight_messages_ x) ++
      [dispatch (epwp_ x) (handler_send_until_fail it e' (version_ x)); async_recv e].
Proof.
  intros Hx Hin Hz e'. destruct (send_inflight_run e' (inflight_messages_ x) b z Hz) as (b1 & Hrun & Hh & Hs & He & Ht). cbn [ep e'] in *.
  assert (Hlock : forall c, heap c !! it = Some x -> is_Some (endpoints c !! epwp_ x) -> lock it c = Return (Some e') c).
  { intros c Hc [z' Hz']. unfold lock, session, mbind, action_bind, get, deref. by rewrite Hc, Hz'. }
  assert (Hsession : forall c, heap c !! it = Some x -> session it c = Return x c).
  { intros c Hc. unfold session, mbind, action_bind, get, deref. by rewrite Hc. }
  assert (Hx1 : heap b1 !! it = Some x) by by rewrite Hh.
  exists (set_trace (fun t => t ++ [async_recv e]) (set_trace (fun t => t ++ [dispatch (epwp_ x) (handler_send_until_fail it e' (version_ x))]) b1)).
  split; [|split; [done|split; [done|split]]].
  - cbn [run_handler]. rewrite (bind_return (element it) _ b tt b).
    2:{ unfold element, mbind, action_bind, get, assert. by rewrite bool_decide_eq_true_2. }
    rewrite (bind_return (send_inflight_messages it) _ b tt b1).
    2:{ unfold send_inflight_messages. rewrite (bind_return _ _ _ _ _ (Hlock b Hx (ex_intro _ z Hz))).
        by rewrite (bind_return _ _ _ _ _ (Hsession b Hx)). }
    rewrite (bind_return (send_all_offline_messages it) _ b1 tt
      (set_trace (fun t => t ++ [dispatch (epwp_ x) (handler_send_until_fail it e' (version_ x))]) b1)); [done|].
    unfold send_all_offline_messages. rewrite (bind_return _ _ _ _ _ (Hlock b1 Hx1 ltac:(rewrite He, lookup_insert_eq; by eexists))).
    by rewrite (bind_return _ _ _ _ _ (Hsession b1 Hx1)).
  - cbn [endpoints set_trace]. by rewrite He, lookup_insert_eq.
  - cbn [trace set_trace]. by rewrite Ht, <- !app_assoc.
Qed.

(** ** A session that starts clean *)

(** a member of the session has a value after [p], whatever it was before; and
    [p] does not change it *)
Definition yields {T R} (g : session_state -> T) s (v : T) (p : program R) : Prop :=
  forall b a b', p b = Return a b' -> g <$> heap b' !! s = Some v.
Definition leaves {T R} (g : session_state -> T) s (p : program R) : Prop := forall v, preserves (fun b => g <$> heap b !! s = Some v) p.

Section member.
Context {T : Type} (g : session_state -> T) (s : session_ref).

Lemma yields_modify v f : (forall x, g (f x) = v) -> yields g s v (modify_session f s).
Proof.
  intros Hf b a b' (x & b1 & Hx & [= _ <-])%bind_returns. cbn [heap set_heap]. rewrite lookup_insert_eq. cbn. by rewrite Hf.
Qed.
Lemma yields_then {R Q} v (p : program R) (q : R -> program Q) : yields g s v p -> (forall a, leaves g s (q a)) -> yields g s v (p ≫= q).
Proof. intros Hp Hq b a b' (r & b1 & Hr & Hrun)%bind_returns. apply (Hq r v b1 a b' (Hp b r b1 Hr) Hrun). Qed.
Lemma yields_after {R Q} v (p : program R) (q : R -> program Q) : (forall a, yields g s v (q a)) -> yields g s v (p ≫= q).
Proof. intros Hq b a b' (r & b1 & _ & Hrun)%bind_returns. by apply (Hq r b1 a). Qed.

Lemma leaves_ret {R} (a : R) : leaves g s (mret a).
Proof. intros v. apply preserves_ret. Qed.
Lemma leaves_bind {R Q} (p : program R) (q : R -> program Q) : leaves g s p -> (forall a, leaves g s (q a)) -> leaves g s (p ≫= q).
Proof. intros Hp Hq v. apply preserves_bind; [apply Hp | intros a; apply Hq]. Qed.
Lemma leaves_for_each {R L} (f : R -> L -> program L) l y : (forall a y, leaves g s (f a y)) -> leaves g s (for_each f l y).
Proof. intros Hf v. apply preserves_for_each. intros a z. apply Hf. Qed.
Lemma leaves_modify f : (forall b, heap (f b) = heap b) -> leaves g s (modify f).
Proof. intros Hf v. apply preserves_modify. intros b Hb. by rewrite Hf. Qed.
Lemma leaves_modify_session f s' : (forall x, g (f x) = g x) -> leaves g s (modify_session f s').
Proof.
  intros Hf v b a b' Hb (x & b1 & Hx & [= _ <-])%bind_returns. unfold session, mbind, action_bind, get, deref in Hx.
  destruct (heap b !! s') as [y|] eqn:Hy; [|done]. injection Hx as -> ->. cbn [heap set_heap].
  destruct (decide (s' = s)) as [->|Hne]; [|by rewrite lookup_insert_ne]. rewrite lookup_insert_eq. rewrite Hy in Hb. cbn in *. by rewrite Hf.
Qed.
Lemma leaves_on_part {P R} (part : broker -> P) (set_part : P -> broker -> broker) (p : action P R) :
  (forall y b, heap (set_part y b) = heap b) -> leaves g s (on_part part set_part p).
Proof.
  intros Hset v b a b' Hb. unfold on_part. destruct (p (part b)) as [a' y| |]; [|done..]. intros [= _ <-]. by rewrite Hset.
Qed.
Lemma leaves_session s' : leaves g s (session s').
Proof. intros v. unfold session. auto with preserves. Qed.
End member.

Create HintDb leaves.
#[local] Hint Resolve leaves_ret leaves_session : leaves.
#[local] Hint Extern 1 (leaves _ _ (_ ≫= _)) => apply leaves_bind; [|intros] : leaves.
#[local] Hint Extern 1 (leaves _ _ (for_each _ _ _)) => apply leaves_for_each; intros : leaves.
#[local] Hint Extern 1 (leaves _ _ (modify _)) => apply leaves_modify; by intros [] : leaves.
#[local] Hint Extern 1 (leaves _ _ (modify_session _ _)) => apply leaves_modify_session; intros []; reflexivity : leaves.
#[local] Hint Extern 1 (leaves _ _ (on_subs_map _)) => by apply leaves_on_part : leaves.
#[local] Hint Extern 1 (leaves _ _ (on_shared_targets _)) => by apply leaves_on_part : leaves.
#[local] Hint Extern 2 (leaves _ _ (match ?x with _ => _ end)) => destruct x : leaves.
#[local] Hint Extern 3 (leaves _ _ _) => intros v; solve [auto with preserves nocore] : leaves.
#[local] Hint Unfold cancel_timers cancel_timer unsubscribe_all cancel_will_delay get_protocol_version at_endpoint update_will reset_will_expiry
  make_timer now allocate : leaves.

(** the step that gives the value, and the others *)
Ltac yields :=
  repeat first
    [ apply yields_modify; intros []; reflexivity
    | apply yields_then; [solve [apply yields_modify; intros []; reflexivity] | intros; solve [repeat autounfold with leaves; auto 20 with leaves]]
    | apply yields_after; intros ].

Section renew.
Context (s : session_ref) (e : epsp) (w : option will) (clean_start : bool) (will_interval session_interval : option Z).
Abbreviation renewed := (renew clean_handler s e w clean_start will_interval session_interval).

(** what [clean] sets stays; what is set after it stays too *)
Ltac after_clean := unfold renew; apply yields_then; [unfold clean; yields | intros; repeat autounfold with leaves; auto 20 with leaves].
Ltac at_end := unfold renew; yields.

Lemma renew_inflight : yields inflight_messages_ s [] renewed.
Proof. after_clean. Qed.
Lemma renew_offline : yields offline_messages_ s [] renewed.
Proof. after_clean. Qed.
Lemma renew_handles : yields handles_ s ∅ renewed.
Proof. unfold renew. apply yields_then; [|intros; repeat autounfold with leaves; auto 20 with leaves]. unfold clean.
  do 9 (apply yields_after; intros). apply yields_then; [unfold unsubscribe_all; yields | intros; repeat autounfold with leaves; auto 20 with leaves].
Qed.
Lemma renew_qos2 : yields qos2_publish_handled_ s ∅ renewed.
Proof. after_clean. Qed.
Lemma renew_epwp : yields epwp_ s (ep e) renewed.
Proof. at_end. Qed.
Lemma renew_interval : yields session_expiry_interval_ s session_interval renewed.
Proof. at_end. Qed.

(** C9: a session that starts clean keeps nothing: no message that waits for
    an acknowledgement or for the client, no QoS 2 packet identifier, no handle,
    and no subscription in the map, which keeps those of the other sessions; and
    it belongs to the new connection. *)
Theorem session_renewed b A n b' :
  owned b A n -> renewed b = Return tt b' ->
  owned b' (without s A) n /\
  exists x, heap b' !! s = Some x /\ inflight_messages_ x = [] /\ offline_messages_ x = [] /\ handles_ x = ∅ /\ qos2_publish_handled_ x = ∅ /\
    epwp_ x = ep e /\ session_expiry_interval_ x = session_interval.
Proof.
  intros Hb Hrun. split; [by apply (ends_renew s e w clean_start will_interval session_interval b A n tt)|].
  pose proof (renew_inflight b tt b' Hrun) as H1. pose proof (renew_offline b tt b' Hrun) as H2. pose proof (renew_handles b tt b' Hrun) as H3.
  pose proof (renew_qos2 b tt b' Hrun) as H4. pose proof (renew_epwp b tt b' Hrun) as H5. pose proof (renew_interval b tt b' Hrun) as H6.
  destruct (heap b' !! s) as [x|]; [|done]. exists x. cbn in *. split; [done|]. repeat split; congruence.
Qed.
End renew.
End spec.
