(* ===== verification/BrokerExamples.v ===== *)
(** * The broker: the theorems at concrete runs, and runs that go wrong

    Brokers whose endpoints are connections, and what sequences of inputs make
    of them. *)
From Stdlib Require Import String.
From S2P Require Import PacketBuilder.
From S2P Require Import Prelude Boost Wire Error Property Packet PublishPacket ControlPacket EntryPacket ConnectPacket Store ConnectionState.
From S2P Require Import ValueAllocator PacketIdManager.
From S2P Require Import Action TopicFilter SubscriptionMap SubscriptionTree SubscriptionHandles SubscriptionSpec RetainedTopicMap SharedTarget.
From S2P Require Import Security SecurityRules SecuritySpec BrokerState SessionState Broker BrokerInvariant BrokerSpec SessionSpec BrokerEndpoint.

Open Scope string_scope.
Open Scope Z_scope.
Open Scope list_scope.

#[local] Existing Instances BigEndian.big_endian ListMultiIndex.list_multi_index ListMultiIndex.list_multi_index_ok.
#[local] Instance manager16 : PacketIdManager packet_id_manager := allocator_manager 16.
#[local] Instance endpoint16 : Endpoint := connection_endpoint.

(** a clock that goes on, and identifiers that differ *)
#[local] Instance surroundings : Surroundings := {
  steady_clock n := Z.of_nat n;
  random_uuid n := str "id" ++ [to_byte (65 + Z.of_nat n)];
}.

Definition sha256 (l : list byte) : list byte := l.
Definition same_text (l1 l2 : list byte) : bool := bool_decide (l1 = l2).

Abbreviation step := (step sha256 same_text).
Abbreviation reachable := (reachable sha256 same_text).

(** ** Runs *)

Definition run (ins : list input) (b : broker) : outcome broker unit := for_each (fun i _ => step i) ins tt b.

(** does nobody else have subscriptions under the client identifier? *)
Definition alone_of (b : broker) (s : session_ref) : bool :=
  forallb (fun entry => match SubscriptionMap.value (snd entry) !! ref_client_id s with Some sub => bool_decide (ss sub = s) | None => true end)
    (map_to_list (SubscriptionMap.map_ (subs_map_ b))).

Lemma alone_of_alone b s : alone_of b s = true -> alone b s.
Proof.
  unfold alone_of. intros H it entry sub He Hsub. rewrite forallb_forall in H. specialize (H (it, entry)). cbn [snd] in H. rewrite Hsub in H.
  apply (proj1 (bool_decide_eq_true _)), H. by apply list_elem_of_In, elem_of_map_to_list.
Qed.

Definition alone_now (b : broker) (i : input) : bool :=
  match subscribes i with
  | Some (e, _) => match find_con e b with Return (Some s) _ => alone_of b s | _ => true end
  | None => true
  end.

(** inputs one by one, as long as sessions that subscribe are alone *)
Fixpoint checked_run (ins : list input) (b : broker) (w : Z) : option (broker * Z) :=
  match ins with
  | [] => Some (b, w)
  | i :: ins =>
    if alone_now b i && (w + input_weight i <? max_count) then
      match step i b with Return _ b' => checked_run ins b' (w + input_weight i) | _ => None end
    else None
  end.

Lemma alone_now_alone b i : alone_now b i = true -> is_alone b i.
Proof.
  unfold alone_now, is_alone. destruct (subscribes i) as [[e n]|]; [|done]. intros H s b' Hs. rewrite Hs in H. by apply alone_of_alone.
Qed.

Lemma checked_run_reachable ins : forall b w b' w', reachable b w -> checked_run ins b w = Some (b', w') -> reachable b' w'.
Proof.
  induction ins as [|i ins IH]; intros b w b' w' Hb; cbn [checked_run]; [by intros [= <- <-]|].
  destruct (alone_now b i) eqn:Ha; [|done]. destruct (Z.ltb_spec (w + input_weight i) max_count) as [Hw|]; [|done]. cbn [andb].
  destruct (step i b) as [[] b1| |] eqn:Hi; [|done..]. apply IH. by apply (reachable_step _ _ b w i b1 Hb (alone_now_alone b i Ha) Hw Hi).
Qed.

(** the state after inputs to a new broker *)
Definition after (ins : list input) : option (broker * Z) := b ← make_broker; checked_run ins b 0.

Lemma after_reachable ins b w : after ins = Some (b, w) -> reachable b w.
Proof.
  unfold after, mbind, option_bind. destruct make_broker as [b0|] eqn:Hb; [|done]. apply checked_run_reachable. by apply reachable_new.
Qed.

(** a property of the state after inputs that a computation decides *)
Definition decided (ins : list input) (P : broker -> Z -> bool) : bool := match after ins with Some (b, w) => P b w | None => false end.

Lemma decided_reachable ins P : decided ins P = true -> exists b w, reachable b w /\ P b w = true.
Proof. unfold decided. destruct (after ins) as [[b w]|] eqn:Hb; [|done]. intros HP. exists b, w. split; [by apply (after_reachable ins) | done]. Qed.

(** ** Packets *)

Definition packet {A} (f : A -> packet_variant) (r : result A) : packet_variant :=
  match r with Ok p => f p | _ => v5_pingreq Fixed.make_v5_pingreq end.

Definition connection (version : protocol_version.t) : endpoint := make_connection version : ConnectionState.connection packet_id_manager pidb.

(** endpoints are numbers *)
Definition at_ (e : Z) : epsp := mk_epsp e [] None.

Definition connect_v3 (e : Z) (clean : bool) (cid : string) (w : option will) : input :=
  received (at_ e) (Some (packet v3_1_1_connect (V3Connect.make clean 0 (str cid) w None None))).
Definition connect_v5 (e : Z) (clean : bool) (cid : string) (ps : properties) : input :=
  received (at_ e) (Some (packet v5_connect (V5Connect.make clean 0 (str cid) None None None ps))).
Definition subscribe_v3 (e pid : Z) (filters : list string) (opts : Z) : input :=
  received (at_ e) (Some (packet v3_1_1_subscribe (Topics.make_v3_subscribe pidb pid (map (fun f => mk_topic_subopts (make_topic_sharename (str f)) opts) filters)))).
Definition publish_v3 (e pid : Z) (topic : string) (payload : list byte) (opts : Z) : input :=
  received (at_ e) (Some (packet v3_1_1_publish (V3.make_publish pidb pid (str topic) [payload] opts))).
Definition disconnect_v3 (e : Z) : input := received (at_ e) (Some (v3_1_1_disconnect Fixed.make_v3_disconnect)).

Definition filters_found (topic : string) (b : broker) : option (list (list byte)) :=
  match multiple_subscription_map.find (str topic) (subs_map_ b) with Return l _ => Some (map (fun e => SharedTarget.topic (snd e)) l) | _ => None end.

Definition two_clients : list input := [
  endpoint_new 1 (connection protocol_version.v3_1_1); endpoint_new 2 (connection protocol_version.v3_1_1);
  connect_v3 1 true "c1" None; connect_v3 2 true "c2" None;
  subscribe_v3 1 7 ["a/+"; "b"] 1].

(** ** The theorems at runs *)

Lemma subscriptions_of_sessions_witness : exists b w, reachable b w /\ filters_found "a/x" b = Some [str "a/+"] /\
  exists l, multiple_subscription_map.find (str "a/x") (subs_map_ b) = Return l (subs_map_ b) /\
    forall cid sub, (cid, sub) ∈ l ->
      ref_client_id (ss sub) = cid /\
      exists x h, heap b !! ss sub = Some x /\ h ∈ handles_ x /\
        lookup_filter (SharedTarget.topic sub) (subs_map_ b) = Return (Some h) (subs_map_ b).
Proof.
  destruct (decided_reachable two_clients (fun b _ => bool_decide (filters_found "a/x" b = Some [str "a/+"]))) as (b & w & Hb & Hf); [by vm_compute|].
  exists b, w. split; [done|]. split; [by apply bool_decide_eq_true in Hf|].
  apply (proj1 (subscriptions_of_sessions sha256 same_text b w Hb) (str "a/x")). by vm_compute.
Defined.

#[local] Instance authentication_eq_dec : EqDecision authentication.
Proof. solve_decision. Defined.
#[local] Instance authorization_eq_dec : EqDecision authorization.
Proof. solve_decision. Defined.
#[local] Instance group_eq_dec : EqDecision group.
Proof. solve_decision. Defined.
#[local] Instance count_eq_dec : EqDecision SubscriptionMap.count_storage.
Proof. solve_decision. Defined.
#[local] Instance entry_eq_dec {V} `{EqDecision V} : EqDecision (SubscriptionMap.path_entry V).
Proof. solve_decision. Defined.
#[local] Instance subscription_map_eq_dec {V} `{EqDecision V} : EqDecision (subscription_map V).
Proof. solve_decision. Defined.
#[local] Instance security_eq_dec : EqDecision security.
Proof. solve_decision. Defined.

Definition default_security : security := match default_config make_security with Return _ sec => sec | _ => make_security end.

(** the session of an endpoint *)
Definition connected_now (b : broker) (e : Z) : option (session_ref * session_state * protocol_version.t) :=
  match find_con (at_ e) b, endpoints b !! e with
  | Return (Some s) _, Some z => x ← heap b !! s; Some (s, x, ep_protocol_version z)
  | _, _ => None
  end.

Lemma connected_now_connected b e s x v : connected_now b e = Some (s, x, v) -> connected b (at_ e) s x v.
Proof.
  unfold connected_now. destruct (find_con (at_ e) b) as [[s'|] b'| |] eqn:Hcon; try done. pose proof (find_con_returns _ _ _ _ Hcon) as [-> _].
  destruct (endpoints b !! e) as [z|] eqn:Hz; [|done]. unfold mbind, option_bind. destruct (heap b !! s') as [x'|] eqn:Hx; [|done].
  intros [= -> -> <-]. split; [done|]. split; [done|]. cbn [ep at_]. by rewrite Hz.
Qed.

Definition returns {S A} (p : action S A) (b : S) : bool := match p b with Return _ _ => true | _ => false end.

Lemma returns_state {S} (p : action S unit) b : returns p b = true -> exists b', p b = Return tt b'.
Proof. unfold returns. destruct (p b) as [[] b'| |]; [|done..]. by exists b'. Qed.

Lemma default_rules_hold : rules_hold default_security (rules_weight (authorization_ default_security)).
Proof.
  apply (configured_rules (PT := fixed_tree (tree_node [] []))); [right | by vm_compute]. unfold default_security.
  destruct (returns_state default_config make_security) as [sec Hsec]; [by vm_compute|]. by rewrite Hsec.
Qed.

(** a client with a subscription of its own and two that share one *)
Definition three_clients : list input := [
  endpoint_new 1 (connection protocol_version.v3_1_1); endpoint_new 2 (connection protocol_version.v3_1_1);
  endpoint_new 3 (connection protocol_version.v3_1_1);
  connect_v3 1 true "c1" None; connect_v3 2 true "c2" None; connect_v3 3 true "c3" None;
  subscribe_v3 1 7 ["a/+"] 1; subscribe_v3 2 7 ["$share/g/a/x"] 1; subscribe_v3 3 7 ["$share/g/a/x"] 1].

(** the second client publishes: a delivery and one turn *)
Lemma published_to_matching_subscriptions_witness : exists b w, reachable b w /\
  filters_found "a/x" b = Some [str "a/x"; str "a/x"; str "a/+"] /\
  let source := mk_session_ref 2 (str "c2") in
  exists A users ts, within (subs_map_ b) A w /\ auth_sub (str "a/x") (security_ b) = Return users (security_ b) /\
    omap subscriber_of ts ≡ₚ omap (own_delivery b source (str "a/x") 1 []) (spec_find A (str "a/x")) /\
    NoDup (omap group_of ts) /\
    (forall g, g ∈ omap group_of ts <-> g ∈ omap shared_group (spec_find A (str "a/x"))) /\
    do_publish source (str "a/x") [str "hi"] 1 [] b =
      (matched ← perform_all (str "a/x") [str "hi"] 1 [] users ts false; retain source (str "a/x") [str "hi"] 1 [];; mret matched) b.
Proof.
  destruct (decided_reachable three_clients (fun b _ => bool_decide (security_ b = default_security) &&
    bool_decide (filters_found "a/x" b = Some [str "a/x"; str "a/x"; str "a/+"]))) as (b & w & Hb & [Hsec Hf]%andb_true_iff); [by vm_compute|].
  apply bool_decide_eq_true in Hsec, Hf. exists b, w. split; [done|]. split; [done|].
  apply (published_to_matching_subscriptions sha256 same_text b w (rules_weight (authorization_ default_security))).
  - done.
  - rewrite Hsec. apply default_rules_hold.
  - by vm_compute.
  - by vm_compute.
Defined.

(** a handler of the first client, in a state with room for [n] levels *)
Definition answers (p : action broker unit) (n : Z) (b : broker) (w : Z) : bool :=
  match connected_now b 1 with Some (s, x, v) => alone_of b s && (w + n <? max_count) && returns p b | None => false end.

Lemma answers_run ins p n : decided ins (answers p n) = true ->
  exists b w s x v b', reachable b w /\ connected b (at_ 1) s x v /\ alone b s /\ w + n < max_count /\ p b = Return tt b'.
Proof.
  intros (b & w & Hb & H)%decided_reachable. unfold answers in H. destruct (connected_now b 1) as [[[s x] v]|] eqn:Hc; [|done].
  apply andb_true_iff in H as [[Ha Hw%Z.ltb_lt]%andb_true_iff [b' Hr]%returns_state]. exists b, w, s, x, v, b'. split; [done|].
  split; [by apply connected_now_connected|]. split; [by apply alone_of_alone | done].
Qed.

(** the first client subscribes and unsubscribes *)
Definition entries2 : list topic_subopts :=
  [mk_topic_subopts (make_topic_sharename (str "b")) 2; mk_topic_subopts (make_topic_sharename (str "$share/g/c")) 1].

Lemma subscribe_answered_witness : exists b w s x v b' A w' p rest,
  reachable b w /\ connected b (at_ 1) s x v /\
  let verdict := grant_of v (username_ x) (security_ b) in
  owned b A w /\ owned b' (foldl (subscribed s (sid_of v [])) A (List.filter (fun entry => snd (verdict entry)) entries2)) w' /\
  suback_of v 9 (map (fun entry => fst (verdict entry)) entries2) (suback_props_ (options b)) = Ok p /\
  trace b' = trace b ++ async_send 1 p handler_log :: rest ++ [async_recv (at_ 1)].
Proof.
  destruct (answers_run two_clients (subscribe_handler (at_ 1) 9 entries2 []) (entries_weight entries2))
    as (b & w & s & x & v & b' & Hb & Hc & Ha & Hw & Hr); [by vm_compute|].
  destruct (subscribe_answered sha256 same_text b w (at_ 1) s x v 9 entries2 [] b' Hb Hc Ha Hw Hr) as (A & w' & p & rest & H1 & H2 & H3 & H4 & _).
  by exists b, w, s, x, v, b', A, w', p, rest.
Defined.

Definition filters2 : list topic_sharename := [make_topic_sharename (str "b"); make_topic_sharename (str "none")].

Lemma unsubscribe_answered_witness : exists b w s x v b' A p,
  reachable b w /\ connected b (at_ 1) s x v /\
  owned b A w /\ owned b' (foldl (fun A entry => delete (topic_ entry, ref_client_id s) A) A filters2) w /\
  unsuback_of v 9 filters2 (unsuback_props_ (options b')) = Ok p /\
  trace b' = trace b ++ [async_send 1 p handler_log; async_recv (at_ 1)].
Proof.
  destruct (answers_run two_clients (unsubscribe_handler (at_ 1) 9 filters2) 0) as (b & w & s & x & v & b' & Hb & Hc & Ha & _ & Hr); [by vm_compute|].
  destruct (unsubscribe_answered sha256 same_text b w (at_ 1) s x v 9 filters2 b' Hb Hc Ha Hr) as (A & p & H).
  by exists b, w, s, x, v, b', A, p.
Defined.

(** the topic does not match the filter of the rule that allows everyone *)
Lemma publish_refused_witness : exists b w s x v, reachable b w /\ connected b (at_ 1) s x v /\
  publish_handler (at_ 1) 5 2 (str "$SYS/x") [str "hi"] [] b =
    Return tt (set_trace (fun l => l ++ refusal v (at_ 1) 5 2 ++ [async_recv (at_ 1)]) b).
Proof.
  destruct (decided_reachable two_clients (fun b _ => match connected_now b 1 with
    | Some (s, x, v) => bool_decide (security_ b = default_security) && negb (bool_decide (v = protocol_version.undetermined)) &&
        bool_decide (puback_props_ (options b) = []) && bool_decide (pubrec_props_ (options b) = []) &&
        match auth_pub (str "$SYS/x") (username_ x) (security_ b) with Return ty _ => bool_decide (ty <> allow) | _ => false end
    | None => false end)) as (b & w & Hb & H); [by vm_compute|].
  destruct (connected_now b 1) as [[[s x] v]|] eqn:Hc; [|done]. apply connected_now_connected in Hc.
  apply andb_true_iff in H as [[[[Hsec Hv]%andb_true_iff Hp]%andb_true_iff Hp']%andb_true_iff Hty]. apply bool_decide_eq_true in Hsec, Hp, Hp'.
  apply negb_true_iff, bool_decide_eq_false in Hv. exists b, w, s, x, v. split; [done|]. split; [done|].
  destruct (publish_refused b (rules_weight (authorization_ default_security)) (at_ 1) s x v 5 2 (str "$SYS/x") [str "hi"] []) as (ty & Hrun & _ & Hall);
    [done | done | rewrite Hsec; apply default_rules_hold | by vm_compute | done | done|].
  rewrite Hrun in Hty. apply Hall. by apply bool_decide_eq_true in Hty.
Defined.

(** ** Messages that wait *)

(** the session of a client, by its address *)
Definition session_of (address : Z) (cid : string) : session_ref := mk_session_ref address (str cid).

(** a session stays when its connection is closed; two messages wait for it *)
Definition away : list input := [
  endpoint_new 1 (connection protocol_version.v3_1_1); endpoint_new 2 (connection protocol_version.v3_1_1);
  connect_v3 1 false "c1" None; connect_v3 2 true "c2" None; subscribe_v3 1 7 ["a"] 2;
  disconnect_v3 1; completed (handler_closed (at_ 1) (Some (session_of 0 "c1")) None None) false 0; endpoint_gone 1;
  publish_v3 2 1 "a" (str "first") 2; publish_v3 2 0 "a" (str "second") 0].

(** and its client is back *)
Definition back (version : protocol_version.t) : list input := [endpoint_new 3 (connection version)].

Definition waiting (b : broker) (s : session_ref) : option (list (list (list byte))) :=
  x ← heap b !! s; Some (map offline_payload_ (offline_messages_ x)).

Definition payload_of (x : event) : option (list (list byte)) :=
  match x with
  | async_send _ (v3_1_1_publish p) _ => Some (v3_publish.payloads_ p)
  | async_send _ (v5_publish p) _ => Some (v5_publish.payloads_ p)
  | _ => None
  end.

Lemma offline_messages_in_order_witness : exists b b' x, waiting b (session_of 0 "c1") = Some [[str "first"]; [str "second"]] /\
  exists now rest evs b1, offline_messages_ x = now ++ rest /\ Forall2 (sends (at_ 3) protocol_version.v3_1_1) now evs /\
    heap b' !! session_of 0 "c1" = Some (set_offline_messages_ rest x) /\ trace b' = trace b ++ evs /\
    match rest with [] => True | m :: _ => blocked b1 (at_ 3) m /\ heap b1 = heap b' /\ trace b1 = trace b' end.
Proof.
  destruct (decided_reachable (away ++ back protocol_version.v3_1_1) (fun b _ =>
    bool_decide (waiting b (session_of 0 "c1") = Some [[str "first"]; [str "second"]]) &&
    returns (run_send_until_fail (session_of 0 "c1") (at_ 3) protocol_version.v3_1_1) b)) as (b & w & _ & H); [by vm_compute|].
  apply andb_true_iff in H as [Hw [b' Hrun]%returns_state]. apply bool_decide_eq_true in Hw. pose proof Hw as Hx. unfold waiting in Hx.
  destruct (heap b !! session_of 0 "c1") as [x|] eqn:Hs; [|done]. exists b, b', x. split; [done|].
  by apply (offline_messages_in_order b b' (session_of 0 "c1") x (at_ 3) protocol_version.v3_1_1).
Defined.

(** the first client starts clean on the second endpoint *)
Lemma session_renewed_witness : exists b A w b', reachable b w /\ owned b A w /\
  renew clean_handler (session_of 0 "c1") (at_ 2) None true None (Some 5) b = Return tt b' /\
  owned b' (without (session_of 0 "c1") A) w /\
  exists x, heap b' !! session_of 0 "c1" = Some x /\ inflight_messages_ x = [] /\ offline_messages_ x = [] /\ handles_ x = ∅ /\
    qos2_publish_handled_ x = ∅ /\ epwp_ x = 2 /\ session_expiry_interval_ x = Some 5.
Proof.
  destruct (decided_reachable two_clients (fun b _ => returns (renew clean_handler (session_of 0 "c1") (at_ 2) None true None (Some 5)) b))
    as (b & w & Hb & [b' Hrun]%returns_state); [by vm_compute|].
  destruct (reachable_owned sha256 same_text b w Hb) as [A HA]. exists b, A, w, b'. split; [done|]. split; [done|]. split; [done|].
  by apply (session_renewed (session_of 0 "c1") (at_ 2) None true None (Some 5) b A w b').
Defined.

(** ** Runs that go wrong *)

(** a run of a new broker *)
Definition run_new (ins : list input) : outcome broker unit := match make_broker with Some b => run ins b | None => Undefined end.

Definition final {A} (ins : list input) (f : broker -> A) : option A := match run_new ins with Return _ b => Some (f b) | _ => None end.

Definition is_undefined {S A} (r : outcome S A) : bool := match r with Undefined => true | _ => false end.

(** the endpoint [e] disconnects, and its session, if it does not stay, is
    released when the connection is closed *)
Definition closed_clean (e address : Z) (cid : string) : input := completed (handler_closed (at_ e) None (Some (session_of address cid)) None) false 0.

Definition with_user : security :=
  match (insert_authentication (str "u") (mk_authentication method_plain_password (Some (str "p")) []);;
         add_auth (str "#") [str "u"] allow [str "u"] allow) default_security with
  | Return _ sec => sec
  | _ => make_security
  end.

Definition connect_user (e : Z) (cid : string) : input :=
  received (at_ e) (Some (packet v3_1_1_connect (V3Connect.make true 0 (str cid) None (Some (str "u")) (Some (str "p"))))).

(** two users with one client identifier subscribe to one filter; the session
    of the second, which has no handle for it, ends *)
Definition two_users : list input := [
  configure with_user;
  endpoint_new 1 (connection protocol_version.v3_1_1); endpoint_new 2 (connection protocol_version.v3_1_1);
  connect_v3 1 true "c" None; connect_user 2 "c"; subscribe_v3 1 7 ["t"] 0; subscribe_v3 2 7 ["t"] 0;
  disconnect_v3 2; closed_clean 2 2 "c"].

(** the subscription map still refers to it, and the next message to the
    filter follows the reference *)
Lemma two_users_one_client_id :
  final two_users (fun b => (map fst (map_to_list (heap b)), filters_found "t" b)) = Some ([session_of 0 "c"], Some [str "t"]) /\
  is_undefined (run_new (two_users ++ [publish_v3 1 0 "t" (str "m") 0])) = true.
Proof. split; vm_compute; reflexivity. Qed.

(** a client connects again while the connection of its old session is being
    closed *)
Definition closing : list input := [
  endpoint_new 1 (connection protocol_version.v3_1_1); endpoint_new 2 (connection protocol_version.v3_1_1);
  connect_v3 1 true "c" None; subscribe_v3 1 7 ["t"] 0; disconnect_v3 1;
  connect_v3 2 true "c" None; subscribe_v3 2 7 ["t"] 0].

(** the end of the old session then takes the subscription of the new one *)
Lemma late_end_of_session :
  final closing (filters_found "t") = Some (Some [str "t"]) /\
  final (closing ++ [closed_clean 1 0 "c"]) (fun b => (filters_found "t" b, map fst (map_to_list (heap b)))) = Some (Some [], [session_of 2 "c"]).
Proof. split; vm_compute; reflexivity. Qed.

(** *** Runs in which operations complete and timers fire *)

(** what happens next, in a state *)
Abbreviation act := (broker -> option input).

Definition handler_of (x : event) : option handler :=
  match x with
  | async_send _ _ k | async_close _ k | async_acquire_unique_packet_id _ k | dispatch _ k => Some k
  | async_recv _ => None
  end.
Definition is_close (x : event) : bool := match x with async_close _ _ => true | _ => false end.

Definition does (i : input) : act := fun _ => Some i.
(** the operation that was started last completes; a connection is closed *)
Definition completes : act := fun b => k ← last (omap handler_of (trace b)); Some (completed k false 1).
Definition closes : act := fun b => k ← last (omap handler_of (List.filter is_close (trace b))); Some (completed k false 0).
(** the timer that ends a session fires *)
Definition expires : act := fun b =>
  e ← head (List.filter (fun e => match snd e with session_expired _ => true | _ => false end) (map_to_list (timers b))); Some (fired (fst e)).

Fixpoint play (l : list act) (b : broker) : outcome broker unit :=
  match l with
  | [] => Return tt b
  | a :: l =>
    match a b with
    | Some i => match step i b with Return _ b => play l b | Throw x b => Throw x b | Undefined => Undefined end
    | None => Undefined
    end
  end.
Definition play_new (l : list act) : outcome broker unit := match make_broker with Some b => play l b | None => Undefined end.
Definition played {A} (l : list act) (f : broker -> A) : option A := match play_new l with Return _ b => Some (f b) | _ => None end.

Lemma played_state l (P : broker -> bool) : match play_new l with Return _ b => P b | _ => false end = true -> exists b, P b = true.
Proof. destruct (play_new l) as [[] b| |]; [|done..]. by exists b. Qed.

(** an endpoint that has a packet without acknowledgement; its client is back *)
Definition unacknowledged : endpoint :=
  match V3.make_publish pidb 9 (str "t") [str "m"] 2 with
  | Ok p => set_store_ (fst (add pidb (v3_1_1_publish p) (empty_store pidb))) (connection protocol_version.v3_1_1)
  | _ => connection protocol_version.v3_1_1
  end.
Definition returning : list act := [
  does (endpoint_new 1 (connection protocol_version.v3_1_1)); does (connect_v3 1 false "c" None); does (endpoint_new 1 unacknowledged);
  does (received (at_ 1) None); closes; does (endpoint_gone 1);
  does (endpoint_new 2 (connection protocol_version.v3_1_1)); does (connect_v3 2 false "c" None); completes].

Lemma session_resumed_witness : exists b x z b', length (inflight_messages_ x) = 1%nat /\
  run_handler (handler_inherited (at_ 2) (session_of 0 "c")) false 0 b = Return tt b' /\
  heap b' = heap b /\ sessions_ b' = sessions_ b /\
  endpoints b' !! epwp_ x = Some (registered (inflight_messages_ x) z) /\
  trace b' = trace b ++ map (resent (epwp_ x)) (inflight_messages_ x) ++
    [dispatch (epwp_ x) (handler_send_until_fail (session_of 0 "c") (mk_epsp (epwp_ x) [] None) (version_ x)); async_recv (at_ 2)].
Proof.
  destruct (played_state returning (fun b => bool_decide (session_of 0 "c" ∈ sessions_ b) &&
    match heap b !! session_of 0 "c" with
    | Some x => bool_decide (length (inflight_messages_ x) = 1%nat) && match endpoints b !! epwp_ x with Some _ => true | None => false end
    | None => false
    end)) as [b [Hin H]%andb_true_iff]; [by vm_compute|]. apply bool_decide_eq_true in Hin.
  destruct (heap b !! session_of 0 "c") as [x|] eqn:Hx; [|done]. apply andb_true_iff in H as [Hl Hz]. apply bool_decide_eq_true in Hl.
  destruct (endpoints b !! epwp_ x) as [z|] eqn:He; [|done].
  destruct (session_resumed b (at_ 2) (session_of 0 "c") x z 0 Hx Hin He) as (b' & H). by exists b, x, z, b'.
Defined.

(** two connections take over from one that is being closed: the second one
    makes a session, and so does the first when the close is done *)
Definition two_takeovers : list act := [
  does (endpoint_new 1 (connection protocol_version.v3_1_1)); does (endpoint_new 2 (connection protocol_version.v3_1_1));
  does (endpoint_new 3 (connection protocol_version.v3_1_1));
  does (connect_v3 1 true "c" None); does (connect_v3 2 true "c" None); does (connect_v3 3 true "c" None)].

Lemma two_takeovers_assert :
  played two_takeovers sessions_ = Some [session_of 2 "c"] /\ is_undefined (play_new (two_takeovers ++ [closes])) = true.
Proof. split; vm_compute; reflexivity. Qed.

(** a client of version 5 whose session stays for a minute *)
Definition minute : properties := [make_session_expiry_interval 60].
Definition lost (e : Z) : input := received (at_ e) None.

(** it is back before the minute is over *)
Definition resumed : list act := [
  does (endpoint_new 1 (connection protocol_version.v5)); does (endpoint_new 2 (connection protocol_version.v5));
  does (connect_v5 1 true "c" minute); does (lost 1); closes; does (endpoint_gone 1); does (connect_v5 2 false "c" minute); completes; completes].

(** after the minute its session is gone, although it is connected *)
Lemma resumed_session_expires :
  played resumed (fun b => (sessions_ b, map (fun e => (fst e, epwp_ (snd e))) (map_to_list (heap b)))) = Some ([session_of 0 "c"], [(session_of 0 "c", 2)]) /\
  played (resumed ++ [expires]) (fun b => (sessions_ b, map fst (map_to_list (heap b)))) = Some ([], []).
Proof. split; vm_compute; reflexivity. Qed.

(** it starts clean instead, and its session no longer stays *)
Definition renewed (ps : properties) : list act := [
  does (endpoint_new 1 (connection protocol_version.v5)); does (endpoint_new 2 (connection protocol_version.v5));
  does (connect_v5 1 true "c" (ps ++ minute)); does (lost 1); closes; does (endpoint_gone 1); does (connect_v5 2 true "c" minute); completes].

Lemma renewed_session_does_not_remain :
  played (renewed []) (fun b => (fun x => (session_expiry_interval_ x, remain_after_close_ x)) <$> heap b !! session_of 0 "c") =
    Some (Some (Some (seconds 60), false)).
Proof. vm_compute; reflexivity. Qed.

(** the rule of a response topic is removed twice: once for the client that
    asked for it and starts clean, and once more for the rule that has its
    number since *)
Definition asks : properties := [make_request_response_information true].
Definition rule_removed_twice : list act := renewed asks ++ [
  does (endpoint_new 3 (connection protocol_version.v5)); does (connect_v5 3 true "other" asks)].

Lemma response_topic_rule_lost :
  played rule_removed_twice (fun b => (map rule_nr (authorization_ (security_ b)), response_topic_ <$> heap b !! session_of 3 "other")) =
    Some ([1; 2], Some (Some (random_uuid 1))) /\
  played (rule_removed_twice ++ [does (lost 2); closes])
    (fun b => (map rule_nr (authorization_ (security_ b)), response_topic_ <$> heap b !! session_of 3 "other")) =
    Some ([1], Some (Some (random_uuid 1))).
Proof. split; vm_compute; reflexivity. Qed.

(** a session of version 3.1.1 that a client of version 5 resumes: what waited
    is sent to the client in packets of version 3.1.1 *)
Definition version_changes : list act := map does away ++ [
  does (endpoint_new 3 (connection protocol_version.v5)); does (connect_v5 3 false "c1" []); completes; completes;
  fun b => k ← last (omap (fun x => match x with dispatch _ k => Some k | _ => None end) (trace b)); Some (completed k false 0)].

Definition published_to (e : Z) (b : broker) : list (Z * list (list byte)) :=
  omap (fun x =>
    match x with
    | async_send e' (v3_1_1_publish p) _ => if e' =? e then Some (3, v3_publish.payloads_ p) else None
    | async_send e' (v5_publish p) _ => if e' =? e then Some (5, v5_publish.payloads_ p) else None
    | _ => None
    end) (trace b).

Lemma resumed_with_old_version :
  played version_changes (fun b => (published_to 3 b, ep_protocol_version <$> endpoints b !! 3)) =
    Some ([(3, [str "first"]); (3, [str "second"])], Some protocol_version.v5).
Proof. vm_compute; reflexivity. Qed.

(** a will without a message is retained, where such a message is to clear what
    is retained *)
Definition retained (topic : string) (b : broker) : option (list (list (list byte))) :=
  match RetainedTopicMap.find (str topic) (retains_ b) with Return l _ => Some (map retain_payload l) | _ => None end.

Definition empty_will : list act := [
  does (endpoint_new 1 (connection protocol_version.v3_1_1)); does (endpoint_new 2 (connection protocol_version.v3_1_1));
  does (connect_v3 1 true "c1" (Some (make_will (str "t") [] 1 []))); does (connect_v3 2 true "c2" None);
  does (received (at_ 2) (Some (packet v3_1_1_publish (V3.make_publish pidb 0 (str "t") [str "kept"] 1))))].

Lemma empty_will_is_retained :
  played empty_will (retained "t") = Some (Some [[str "kept"]]) /\ played (empty_will ++ [does (lost 1)]) (retained "t") = Some (Some [[[]]]).
Proof. split; vm_compute; reflexivity. Qed.

(** a client subscribes to a filter, and to the same with a share name: the
    first subscription is lost *)
Definition plain_and_shared : list input := [
  endpoint_new 1 (connection protocol_version.v3_1_1); connect_v3 1 true "c" None; subscribe_v3 1 7 ["t"; "$share/g/t"] 0].

Lemma shared_subscription_replaces_plain :
  final plain_and_shared (fun b => match multiple_subscription_map.find (str "t") (subs_map_ b) with
    | Return l _ => Some (map (fun e => sharename (snd e)) l) | _ => None end) = Some (Some [str "g"]).
Proof. vm_compute; reflexivity. Qed.

(** what has no topic filter is granted to every user of version 3.1.1 *)
Lemma invalid_filter_granted username sec opts :
  v3_grant username sec (mk_topic_subopts (make_topic_sharename (str "$share/g")) opts) = (sub.get_qos opts, true).
Proof. reflexivity. Qed.
